(* ===== verification/_CoqProject ===== *)
-Q . S2P
Prelude.v
Bytes.v
Paging.v
Float64.v
Utf8.v
Text.v
IpText.v
Fragments.v
FragmentSets.v
Reconstruction.v
Addressing.v
ExitPolicy.v
AllowedHosts.v
ExitPolicyFacts.v
ServiceInterface.v
SocksMessages.v
SocksMessagesFacts.v
OrderedBuffer.v
SocksConnections.v
SocksDelivery.v
Cosmwasm.v
MixnetTypes.v
Rewarding.v
Backing.v
Interval.v
MixnetStorage.v
MixnetSupport.v
MixnetEvents.v
MixnetTransactions.v
Accounting.v
Solvency.v
MixnetChain.v
MixnetSample.v
MixnetSafety.v
MixnetEpoch.v
RewardedSet.v
MixnetFindings.v
MixnetAccess.v
VestingTypes.v
VestingStorage.v
VestingAccount.v
VestingTransactions.v
VestingBooks.v
VestingLocked.v
VestingSchedule.v
VestingTyping.v
VestingQueries.v
MixnetTracking.v
MixnetQueries.v
Platform.v
PlatformSafety.v
PlatformFindings.v
Outfox.v
OutfoxFacts.v
PacketSizes.v
NymPackets.v
Topology.v
Processing.v
PacketFacts.v
Transport.v
Replies.v
NymMessages.v
MessageFacts.v
ReplyStorage.v
ReceivedBuffer.v
ReceivedFacts.v
AckControl.v
MessageSending.v
MessageDelivery.v
ReplyDelivery.v
SampleNetwork.v
CoconutTypes.v
CoconutScheme.v
CoconutFacts.v
CoconutCredentials.v
CoconutCodecs.v
CoconutCodecFacts.v
DkgContract.v
DkgFacts.v
DkgDelivery.v
