(* ===== verification/Prelude.v ===== *)
(** * Verification of the Nym platform

    Nym is a mixnet: clients split messages into fragments, wrap them in
    Sphinx packets and send them through three layers of mixnodes.  The nodes
    are bonded in, and rewarded by, smart contracts on a Cosmos chain.  This
    development models these parts of the platform, written in Rust under
    [src/], and proves them correct:

    - the chunking of messages, [src/common/nymsphinx/chunking/src];
    - the way of a message through the mixnet: padding and encryption, packets
      of the two formats, framing, routes, acknowledgements and anonymous
      replies, [src/common/nymsphinx], [src/nym-outfox/src],
      [src/common/topology/src], [src/common/mixnode-common/src], and the client
      that sends and receives, [src/common/client-core/src/client];
    - the mixnet contract, [src/contracts/mixnet/src], with the types and the
      arithmetic it shares with its clients,
      [src/common/cosmwasm-smart-contracts/mixnet-contract/src] and
      [.../contracts-common/src];
    - the vesting contract, [src/contracts/vesting/src] and
      [.../vesting-contract/src], alone and together with the mixnet contract,
      which it calls and which reports back to it;
    - the socks5 proxies that carry connections over the mixnet: the messages,
      [src/common/socks5/requests/src], in the envelope of service providers,
      [src/service-providers/common/src/interface], with the addresses of
      [src/common/nymsphinx/addressing/src]; the connections,
      [src/common/socks5/proxy-helpers/src] and [.../ordered-buffer/src];
    - the exit policy that decides where an exit node connects,
      [src/common/exit-policy/src] and the filter of the network requester;
    - Coconut, the threshold-issued anonymous credentials that pay for
      bandwidth, [src/common/nymcoconut/src];
    - the contract on which the signers of these credentials generate their keys,
      [src/contracts/coconut-dkg/src] and [.../coconut-dkg/src], with the way of
      the dealings from signer to signer, [src/nym-api/src/coconut/dkg].

    ** Conventions

    Definitions keep the names of the source; a Rust method is a definition in
    a module with the name of its type.  Fallible code returns an [outcome]: a
    value, an error, or a panic, and [let? x := m in k] is Rust's [?].
    Machine integers are [Z], with wrap-around or overflow panics written out
    where the code can reach them; the contracts are built with overflow
    checks, so their additions panic.  [debug_assert!] is absent from release
    builds and from the model.  Code of other crates (the decimals of
    cosmwasm, base58, dates, ed25519, serde formats, name resolution) is a type
    class of operations with the documented laws as a second class, or an
    argument; [fixed_point], [sample_api] and [nanosecond_clock] are instances,
    and the theorems are applied to them.

    ** Files

    Shared:
    - [Prelude]: outcomes, list and integer lemmas, tactics, hint databases.
    - [Bytes]: machine-width integers and big-endian byte strings.
    - [Paging]: ranges of a map from a key on, page by page.
    - [Utf8], [Text], [IpText]: what the code uses of Rust's strings: encoding,
      splitting and trimming, numbers and IP addresses as text and back.
    - [Float64]: the [f64] operations the chunking uses, as exact dyadic
      rationals with round-to-nearest.

    Chunking (a message is split into sets of at most 255 fragments, linked by
    the identifiers of the neighbouring sets):
    - [Fragments] ([fragment.rs]): the header and the wire format.
    - [FragmentSets] ([set.rs], [lib.rs]): splitting, and the number of
      fragments predicted for a message.
    - [Reconstruction] ([reconstruction.rs]): the buffers of a receiver.

    The mixnet contract:
    - [Cosmwasm]: decimals, coins, the chain's interface, percentages.
    - [MixnetTypes]: data and errors of the contract.
    - [Rewarding] ([mixnode.rs], [reward_params.rs]): the reward of a node,
      its split between operator and delegators, and a node's tokens.
    - [Backing]: the invariant that a node's tokens cover its delegations.
    - [Interval] ([interval.rs]): the clock and the status of an epoch.
    - [MixnetStorage], [MixnetSupport], [MixnetEvents],
      [MixnetTransactions]: the storage as one record, the helpers, the
      execution of pending events, the messages; [execute] and [instantiate]
      are the entry points of [contract.rs].
    - [Accounting]: what the contract owes, and the invariant [inv].
    - [Solvency]: every message preserves the invariant and the balance.
    - [MixnetChain]: the contract with the balance of its account under any
      sequence of messages and deposits.
    - [MixnetSample]: a concrete run, to which the theorems are applied.
    - [MixnetSafety]: the safety of the participants' tokens.
    - [MixnetEpoch]: the phases of an epoch, the event queues, the clock.
    - [RewardedSet]: the incremental update of the rewarded set.
    - [MixnetAccess]: senders of privileged messages, owners of nodes.
    - [MixnetFindings]: runs in which the contract goes wrong.
    - [MixnetTracking]: the reports of the contract to the vesting contract.
    - [MixnetQueries] ([*/queries.rs]): the queries, and that they tell the
      truth about later messages.

    The vesting contract, and the two contracts together:
    - [VestingTypes], [VestingStorage], [VestingAccount],
      [VestingTransactions]: data, storage, the methods of an account, the
      messages; [Vesting.execute] and [Vesting.instantiate] are the entry
      points.
    - [VestingBooks], [VestingLocked]: the sums over the books, their
      invariant, the value of an account under every message.
    - [VestingSchedule]: vesting by the schedule, and locked tokens.
    - [VestingTyping]: the types of everything stored and sent.
    - [VestingQueries] ([queries.rs]): the queries.
    - [Platform]: both contracts on one chain; a response's calls are executed
      depth first within the transaction, and an error reverts it.
    - [PlatformSafety], [PlatformFindings]: solvency of both, and runs in which
      their cooperation goes wrong.

    Messages through the mixnet:
    - [Outfox], [OutfoxFacts] ([src/nym-outfox/src]): the packet format.
    - [PacketSizes] ([params]), [NymPackets] ([types], [framing],
      [forwarding]): sizes, packets, frames; [PacketFacts]: their round trips.
    - [Topology] ([topology], [routing]): nodes and routes.
    - [Processing] ([packet_processor], [acknowledgements]): what a node does
      with a packet, and acknowledgements.
    - [Transport]: the class [Transport] states what a packet format promises,
      that a packet built for a route carries its payload along it; [deliver]
      is a packet on its way over frames from node to node.  Outfox is shown to
      implement it, and so are the documented laws of the Sphinx crate.
    - [Replies] ([anonymous-replies]), [NymMessages] ([message.rs],
      [preparer], [receiver.rs], [cover]), [MessageFacts]: messages.
    - [ReplyStorage], [ReceivedBuffer] ([received_buffer.rs]),
      [ReceivedFacts]: the receiving side of a client.
    - [AckControl] ([acknowledgement_control]): pending acknowledgements and
      their timers; a turn is an action or an expired timer.
    - [MessageSending] ([message_handler.rs] and the listeners): the sending
      side; channels to other tasks are lists in the state.
    - [MessageDelivery], [ReplyDelivery]: all of these together.
    - [SampleNetwork]: instances of the parameters, a small network, and the
      theorems applied to it.

    Connections through the mixnet:
    - [Addressing] ([clients.rs], [nodes.rs]): addresses as bytes and text.
    - [ServiceInterface], [SocksMessages]: the formats of messages; a request
      and a response are one definition with the direction as a class.
    - [SocksMessagesFacts]: round trips, and the absence of panics.
    - [OrderedBuffer] ([buffer.rs]), [SocksConnections]
      ([ordered_sender.rs], [connection_controller.rs], [inbound.rs],
      [outbound.rs]): the halves of a proxy and the controller in between;
      loops over [select!] are steps on the event of a branch.
    - [SocksDelivery]: end to end delivery.
    - [ExitPolicy] ([address_policy.rs], [lib.rs], [exit_policy/mod.rs]): policies,
      their text, and the check of an address.
    - [AllowedHosts] ([request_filter], [allowed_hosts]): the lists of allowed
      hosts, and the filter that applies them or the policy.
    - [ExitPolicyFacts]: the text format and what the filter admits.

    Credentials ([CoconutScheme], [CoconutFacts] and [CoconutCredentials] use
    MathComp's fields and vector spaces and do not load [Prelude]; the class
    [Bls] is what the code uses of the bls12_381 crate):
    - [CoconutTypes]: keys, signatures, proofs and messages, over any scalars
      and points.
    - [CoconutScheme] ([scheme], [proofs], [elgamal.rs], [utils.rs]): keys,
      issuance, aggregation, showing and verification.
    - [CoconutFacts]: interpolation, and when each check accepts.
    - [CoconutCredentials]: the guarantees of the scheme, with an instance of
      the curves on which the theorems are applied.
    - [CoconutCodecs], [CoconutCodecFacts]: the byte formats.

    The generation of the signers' keys:
    - [DkgContract]: the contract, its types, storage, transactions and queries;
      [Dkg.execute] and [Dkg.instantiate] are the entry points.
    - [DkgFacts]: every message as a step of the storage, the invariant of the
      counters, the protocol of the epochs, and a sample run.
    - [DkgDelivery] ([dealing.rs], [key_derivation.rs], [client.rs]): how a
      signer submits its dealings and fetches those of others.

    ** What is shown

    Chunking: a message that is split, serialised and received in any order,
    interleaved with other messages, is handed out exactly once and unchanged;
    every fragment fits its packet; parsing accepts exactly what serialising
    writes.  Three theorems describe inputs from the network on which the
    receiver panics, does not return, or a fragment cannot be parsed.

    The mixnet: a message that a client sends is delivered to the recipient
    exactly once, when its packets arrive in any order and repeatedly, and the
    acknowledgements find their way back and end the retransmission; the same
    holds of an answer sent with reply blocks.  Assumed are a topology with a
    node on each layer whose nodes listen with the keys they publish, distinct
    identifiers of the sets of a message, and the laws of the cryptography and
    of the Sphinx crate.  The buffer of a client loses and repeats nothing,
    where a reply that arrives again after its key is used up is assumed to
    decrypt to no fragment; the controller of acknowledgements does not panic
    under the order of actions and the handling of references its callers are
    meant to keep, and does when a timer is started twice or when an entry is
    still shared while its delay is updated.

    The contract: on every chain that starts with [instantiate], the account
    covers what the contract owes and pays; a delegator can leave with at
    least the principal and an operator can withdraw everything above the
    pledge, rounding included; the rewards of an epoch stay within its budget
    and go to the node in full; the epoch moves through its phases in order,
    each node is rewarded at most once, the event queues have no gaps and are
    empty before the epoch advances; an address owns at most one node; only
    the entitled senders get privileged messages through, and only they change
    the settings, the parameters, the rewarded set, the phase and the layers.
    Assumed are unsigned numbers, the laws of the classes above, an account
    that holds the initial reward pool at [instantiate] (the contract does not
    check it), and an administrator who neither sets the reward pool by hand
    nor asks for pledges in another denomination ([msg_ok]).  Four theorems
    are runs in which the contract blocks the epoch, overflows, or leaves a
    removed node bonded.

    The vesting contract: what is vested follows the schedule of the account;
    tokens that are still vesting are always in the contract or staked,
    whatever is withdrawn, delegated, bonded or transferred, as long as the
    mixnet contract returns what was staked; every stored number stays within
    its type.  Both contracts together stay solvent, with every call they make
    to each other, and their calls nest at most three deep.  Two theorems are
    runs in which a delegation is forgotten or the epoch is blocked.

    Connections: the bytes a proxy reads from a socket are written to the
    socket at the other end, all of them and in order, then the end, although
    the mixnet reorders and repeats the messages, as long as no message
    overtakes the oldest missing one by a thousand; which messages are parsed
    as they were written is stated exactly, policies are, and no input makes a
    parser panic; a connection is made only to addresses that the first
    matching rule accepts, or, when lists of allowed hosts are in use, to hosts
    on them.

    Credentials: whichever threshold of authorities signs, the aggregated keys
    and signatures are the same, and the credential shown to a verifier is
    accepted; a signature verifies exactly when it is one of the secret key on
    the attributes; keys and messages are read back as they were written.
    Assumed are the laws of the curves, nothing about the hash functions
    beyond being functions; unforgeability is not stated, as it rests on the
    hardness of problems on the curves.  Three theorems describe a check that
    is missing from the issuance, an index that is not read back, and inputs
    on which the readers panic.

    Key generation: the counters by which the contract decides that a phase is
    over are exact, so that a phase ends before its deadline only when all that
    it waits for is stored; the count of verified keys is an exception, which
    is exact only if no key is verified twice; epochs follow each other by the protocol, and what
    belongs to a past epoch never changes; the dealings of a signer that was
    interrupted any number of times reach everybody unchanged.  Assumed are
    messages within their types, and that the dealings of a signer are sent by
    its API alone and are fewer than 2^32.  Three runs show a chunk that is
    accepted after the exchange, an epoch that runs without any key, and one
    that runs with fewer verified keys than its threshold because a key was
    verified twice.

    ** Fuel

    The walks over linked sets of fragments need fuel: they recurse along
    identifiers stored by the receiver.  The fuel is one more than the number
    of stored sets, and [chain_walks_fuel_enough] shows that a walk that
    returns at all returns within it, so [Panic Diverges] means that the
    source does not return.  The calls of contracts have a bound of three
    ([CALL_DEPTH]), which [calls_nest_three_deep] shows to be enough.  Reading
    from the ordered buffer has the number of stored messages as fuel, and
    printing a number its size: both loops consume one of them per turn.  The
    loops over pending events and over the new rewarded set are structural.

    ** What is not modelled

    Of the contracts: the migrations, the testing feature, the events and
    attributes of responses.  Of the proxies: timers, sockets, the waiting for
    a free lane, the panic of a sender whose channel is closed, the socks5
    handshake with the application, the loading and refreshing of the lists of
    allowed hosts.  Of the mixnet: loss of packets, which the retransmission is for, is
    present as timers that expire; the schedule of sending, the controller that
    asks for reply blocks, the sessions of clients at gateways and databases
    are not modelled.  Of the key generation: the cryptography of dealings
    ([src/common/dkg]), the state a signer keeps on disk, and the phases of its
    controller other than the exchange.  Of the platform: the bandwidth,
    multisig, group and registry contracts, the network services and the user
    interfaces. *)

From Stdlib Require Export ZArith Lia.
From stdpp Require Export base numbers option list gmap fin_maps.

#[global] Open Scope Z_scope.

(** ** Outcomes of Rust code *)

(** Why a computation stopped without returning a value.  [Diverges] marks a
    recursion of the source that exceeds the fuel of the model. *)
Inductive panic : Type :=
| IndexOutOfBounds
| UnwrapNone
| UnwrapErr
| Overflow
| DivisionByZero
| ExplicitPanic
| Diverges.

(** The result of a fallible Rust function: a value, an error of the
    function's error type, or an abort of the program. *)
Inductive outcome (E A : Type) : Type :=
| Ok (a : A)
| Err (e : E)
| Panic (p : panic).
Arguments Ok {E A} a.
Arguments Err {E A} e.
Arguments Panic {E A} p.

Declare Scope outcome_scope.
Delimit Scope outcome_scope with outcome.
#[global] Open Scope outcome_scope.

(** Rust's [?] operator. *)
Definition obind {E A B} (m : outcome E A) (f : A -> outcome E B) : outcome E B :=
  match m with
  | Ok a => f a
  | Err e => Err e
  | Panic p => Panic p
  end.

Notation "'let?' x ':=' m 'in' k" := (obind m (fun x => k))
  (at level 10, x pattern, m at level 100, k at level 200) : outcome_scope.

(** [Result::map_err]. *)
Definition map_err {E E' A} (f : E -> E') (m : outcome E A) : outcome E' A :=
  match m with Ok a => Ok a | Err e => Err (f e) | Panic p => Panic p end.

(** [Result::unwrap] and [Option::unwrap]. *)
Definition unwrap {E E' A} (m : outcome E A) : outcome E' A :=
  match m with
  | Ok a => Ok a
  | Err _ => Panic UnwrapErr
  | Panic p => Panic p
  end.

Definition unwrap_opt {E A} (m : option A) : outcome E A :=
  match m with
  | Some a => Ok a
  | None => Panic UnwrapNone
  end.

(** Collecting an iterator of fallible computations: stops at the first failure. *)
Fixpoint mapM_outcome {E A B} (f : A -> outcome E B) (l : list A) : outcome E (list B) :=
  match l with
  | [] => Ok []
  | x :: l' => let? y := f x in let? ys := mapM_outcome f l' in Ok (y :: ys)
  end.

Lemma obind_Ok_inv {E A B} (m : outcome E A) (f : A -> outcome E B) (b : B) :
  obind m f = Ok b <-> exists a, m = Ok a /\ f a = Ok b.
Proof. split; [destruct m; naive_solver|]. intros (a & -> & H). done. Qed.

Lemma mapM_outcome_Ok {E A B} (f : A -> outcome E B) (g : A -> B) (l : list A) :
  (forall x, x ∈ l -> f x = Ok (g x)) -> mapM_outcome f l = Ok (g <$> l).
Proof.
  induction l as [|x l IH]; intros H; [done|]; simpl.
  rewrite H by set_solver. simpl. rewrite IH by set_solver. done.
Qed.

(** The computation does not abort, and its result has the property. *)
Definition checked {E A} (P : A -> Prop) (m : outcome E A) : Prop :=
  match m with Ok a => P a | Err _ => True | Panic _ => False end.

Lemma checked_bind {E A B} (P : A -> Prop) (Q : B -> Prop) (m : outcome E A) (f : A -> outcome E B) :
  checked P m -> (forall a, P a -> checked Q (f a)) -> checked Q (obind m f).
Proof. destruct m; simpl; eauto. Qed.

(** ** Lists with machine-integer lengths *)

(** [v.len()]. *)
Definition len {A} (l : list A) : Z := Z.of_nat (length l).

(** [&v[lb..ub]]: panics unless [lb <= ub <= v.len()]. *)
Definition slice {E A} (l : list A) (lb ub : Z) : outcome E (list A) :=
  if (0 <=? lb) && (lb <=? ub) && (ub <=? len l)
  then Ok (take (Z.to_nat (ub - lb)) (drop (Z.to_nat lb) l))
  else Panic IndexOutOfBounds.

(** The values of a [lo..hi] range. *)
Definition zrange (lo hi : Z) : list Z :=
  (fun n : nat => lo + Z.of_nat n) <$> seq 0 (Z.to_nat (hi - lo)).

Lemma len_nonneg {A} (l : list A) : 0 <= len l.
Proof. unfold len; lia. Qed.

Lemma len_app {A} (l k : list A) : len (l ++ k) = len l + len k.
Proof. unfold len; rewrite length_app; lia. Qed.

Lemma len_cons {A} (x : A) (l : list A) : len (x :: l) = 1 + len l.
Proof. unfold len; simpl length; lia. Qed.

Lemma len_nil {A} : len (@nil A) = 0.
Proof. done. Qed.

Lemma len_fmap {A B} (f : A -> B) (l : list A) : len (f <$> l) = len l.
Proof. unfold len; rewrite length_fmap; done. Qed.

Lemma len_take {A} (n : Z) (l : list A) : 0 <= n -> len (take (Z.to_nat n) l) = Z.min n (len l).
Proof. intros; unfold len; rewrite length_take; lia. Qed.

Lemma len_drop {A} (n : Z) (l : list A) : 0 <= n -> len (drop (Z.to_nat n) l) = Z.max 0 (len l - n).
Proof. intros; unfold len; rewrite length_drop; lia. Qed.

Lemma slice_Ok {E A} (l : list A) lb ub :
  0 <= lb -> lb <= ub -> ub <= len l ->
  slice l lb ub = Ok (E := E) (take (Z.to_nat (ub - lb)) (drop (Z.to_nat lb) l)).
Proof.
  intros H1 H2 H3. unfold slice.
  destruct (Z.leb_spec 0 lb), (Z.leb_spec lb ub), (Z.leb_spec ub (len l)); simpl; done || lia.
Qed.

(** The middle part of a list, and its end. *)
Lemma slice_middle {E A} (l m k : list A) lb ub :
  lb = len l -> ub = len l + len m -> slice (l ++ m ++ k) lb ub = Ok (E := E) m.
Proof.
  intros -> ->. unfold len. rewrite slice_Ok by (unfold len; rewrite ?length_app; lia). f_equal.
  replace (Z.to_nat (Z.of_nat (length l))) with (length l) by lia. rewrite drop_app_length.
  apply take_app_length'. lia.
Qed.

Lemma slice_from {E A} (l k : list A) : slice (l ++ k) (len l) (len (l ++ k)) = Ok (E := E) k.
Proof.
  rewrite <- (app_nil_r k) at 1. apply slice_middle; [done|]. unfold len; rewrite length_app; lia.
Qed.

Lemma take_take_drop_Z {A} (l : list A) (a b : Z) :
  0 <= a -> a <= b ->
  take (Z.to_nat a) l ++ take (Z.to_nat (b - a)) (drop (Z.to_nat a) l) = take (Z.to_nat b) l.
Proof.
  intros Ha Hb. replace (Z.to_nat b) with (Z.to_nat a + Z.to_nat (b - a))%nat by lia.
  rewrite take_take_drop. done.
Qed.

Lemma zrange_nil lo hi : hi <= lo -> zrange lo hi = [].
Proof. intros; unfold zrange. replace (Z.to_nat (hi - lo)) with 0%nat by lia. done. Qed.

Lemma zrange_cons lo hi : lo < hi -> zrange lo hi = lo :: zrange (lo + 1) hi.
Proof.
  intros; unfold zrange. replace (Z.to_nat (hi - lo)) with (S (Z.to_nat (hi - (lo + 1)))) by lia.
  simpl. f_equal; [lia|]. rewrite <- fmap_S_seq, <- list_fmap_compose.
  apply list_fmap_ext; intros i x _; simpl; lia.
Qed.

Lemma zrange_snoc lo hi : lo <= hi -> zrange lo (hi + 1) = zrange lo hi ++ [hi].
Proof.
  intros; unfold zrange. replace (Z.to_nat (hi + 1 - lo)) with (S (Z.to_nat (hi - lo))) by lia.
  rewrite seq_S, fmap_app. simpl. do 2 f_equal. lia.
Qed.

Lemma len_zrange lo hi : len (zrange lo hi) = Z.max 0 (hi - lo).
Proof. unfold zrange. rewrite len_fmap. unfold len. rewrite length_seq. lia. Qed.

Lemma elem_of_zrange lo hi x : x ∈ zrange lo hi <-> lo <= x < hi.
Proof.
  unfold zrange. rewrite list_elem_of_fmap. split.
  - intros (n & -> & Hn%elem_of_seq). lia.
  - intros H. exists (Z.to_nat (x - lo)). split; [lia|]. apply elem_of_seq. lia.
Qed.

Lemma elem_of_concat {A} (x : A) (ls : list (list A)) : x ∈ concat ls <-> exists l, x ∈ l /\ l ∈ ls.
Proof.
  rewrite list_elem_of_In, in_concat. split; intros (l & ? & ?); exists l; rewrite ?list_elem_of_In in *; auto.
Qed.

(** ** Sums *)

Definition zsum (l : list Z) : Z := foldr Z.add 0 l.

Lemma zsum_cons x l : zsum (x :: l) = x + zsum l.
Proof. done. Qed.

Lemma zsum_app l k : zsum (l ++ k) = zsum l + zsum k.
Proof. induction l as [|x l IH]; simpl; [done|]. rewrite IH. lia. Qed.

Lemma zsum_perm l k : l ≡ₚ k -> zsum l = zsum k.
Proof. induction 1; simpl; lia. Qed.

Lemma dup_lookup {A} `{EqDecision A} (l : list A) :
  ~ NoDup l -> exists i j x, (i < j)%nat /\ l !! i = Some x /\ l !! j = Some x.
Proof.
  induction l as [|x l IH]; intros Hd; [destruct Hd; constructor|].
  destruct (decide (x ∈ l)) as [(j & Hj)%list_elem_of_lookup|Hx].
  - exists 0%nat, (S j), x. split_and!; [lia|done|done].
  - destruct IH as (i & j & y & Hij & Hi & Hj); [intros H; apply Hd; by constructor|].
    exists (S i), (S j), y. split_and!; [lia|done|done].
Qed.

Lemma filter_all {A} (P : A -> Prop) `{forall x, Decision (P x)} (l : list A) :
  (forall x, x ∈ l -> P x) -> filter P l = l.
Proof.
  intros Hl. induction l as [|x l IH]; [done|]. rewrite filter_cons, decide_True by (apply Hl; constructor).
  f_equal. apply IH. intros y Hy. apply Hl. by constructor.
Qed.

Lemma filter_none {A} (P : A -> Prop) `{forall x, Decision (P x)} (l : list A) :
  (forall x, x ∈ l -> ~ P x) -> filter P l = [].
Proof.
  intros Hl. induction l as [|x l IH]; [done|]. rewrite filter_cons, decide_False by (apply Hl; constructor).
  apply IH. intros y Hy. apply Hl. by constructor.
Qed.

(** ** Integer arithmetic *)

(** Ceiling division on non-negative integers. *)
Definition cdiv (a b : Z) : Z := - ((- a) / b).

Lemma cdiv_spec a b c : 0 < b -> cdiv a b = c <-> (c - 1) * b < a <= c * b.
Proof.
  intros Hb. unfold cdiv.
  pose proof (Z.div_mod (- a) b ltac:(lia)) as H. pose proof (Z.mod_pos_bound (- a) b Hb).
  split; intros; [nia|].
  enough (- a / b = - c) by lia. symmetry. apply (Z.div_unique (-a) b (-c) (c * b - a)); lia.
Qed.

Lemma cdiv_bounds a b : 0 < b -> (cdiv a b - 1) * b < a <= cdiv a b * b.
Proof. intros; by apply cdiv_spec. Qed.

(** ** Proof automation *)

Create HintDb nym.
Create Rewrite HintDb len.
#[export] Hint Resolve len_nonneg : nym.
#[export] Hint Rewrite @len_app @len_cons @len_nil @len_fmap : len.

(** Splits the boolean comparisons that guard the branches of a definition. *)
Ltac zcases :=
  repeat match goal with
  | |- context [Z.eqb ?a ?b] => destruct (Z.eqb_spec a b)
  | |- context [Z.ltb ?a ?b] => destruct (Z.ltb_spec a b)
  | |- context [Z.leb ?a ?b] => destruct (Z.leb_spec a b)
  | |- context [Z.gtb ?a ?b] => rewrite (Z.gtb_ltb a b)
  | |- context [Z.geb ?a ?b] => rewrite (Z.geb_leb a b)
  end.

Ltac zcases_in H :=
  repeat match type of H with
  | context [Z.eqb ?a ?b] => destruct (Z.eqb_spec a b)
  | context [Z.ltb ?a ?b] => destruct (Z.ltb_spec a b)
  | context [Z.leb ?a ?b] => destruct (Z.leb_spec a b)
  | context [Z.gtb ?a ?b] => rewrite (Z.gtb_ltb a b) in H
  | context [Z.geb ?a ?b] => rewrite (Z.geb_leb a b) in H
  end.

(** Inverts a successful run of a monadic definition. *)
Ltac ok_inv H :=
  repeat match type of H with
  | obind _ _ = Ok _ => let x := fresh "x" in let E := fresh "E" in
      apply obind_Ok_inv in H as (x & E & H)
  end.
