(* ===== verification/Bytes.v ===== *)
(** * Bytes and big-endian machine integers

    Byte strings ([Vec<u8>], [&[u8]]) are lists of [Byte.byte].  Machine
    integers are elements of [Z]; this file fixes the wrap-around of the casts
    the sources use and the big-endian encodings of [u16], [i32], [u32], [u64]
    ([to_be_bytes], [from_be_bytes]). *)

From S2P Require Import Prelude.
From Stdlib.Strings Require Import Byte.

(** ** Bytes *)

(** A byte as an unsigned integer. *)
Definition byte_to_Z (b : byte) : Z := Z.of_N (Byte.to_N b).

(** [z as u8], as a byte. *)
Definition byte_of_Z (z : Z) : byte :=
  match Byte.of_N (Z.to_N (z mod 256)) with
  | Some b => b
  | None => x00
  end.

Lemma byte_to_Z_range b : 0 <= byte_to_Z b < 256.
Proof. unfold byte_to_Z. pose proof (Byte.to_N_bounded b). lia. Qed.

Lemma byte_to_of_Z z : byte_to_Z (byte_of_Z z) = z mod 256.
Proof.
  unfold byte_of_Z, byte_to_Z. pose proof (Z.mod_pos_bound z 256 eq_refl).
  destruct (Byte.of_N (Z.to_N (z mod 256))) as [b|] eqn:E.
  - apply Byte.to_of_N in E. rewrite E. lia.
  - apply Byte.of_N_None_iff in E. lia.
Qed.

Lemma byte_to_Z_inj b c : byte_to_Z b = byte_to_Z c -> b = c.
Proof.
  unfold byte_to_Z. intros H%N2Z.inj.
  pose proof (Byte.of_to_N b). pose proof (Byte.of_to_N c). congruence.
Qed.

Lemma byte_of_to_Z b : byte_of_Z (byte_to_Z b) = b.
Proof.
  apply byte_to_Z_inj. rewrite byte_to_of_Z. apply Z.mod_small, byte_to_Z_range.
Qed.

#[export] Instance byte_eq_decision : EqDecision byte := Byte.byte_eq_dec.
#[export] Instance byte_countable : Countable byte := inj_countable' byte_to_Z byte_of_Z byte_of_to_Z.

(** ** Casts *)

(** [z as u8]. *)
Definition as_u8 (z : Z) : Z := z mod 2 ^ 8.
(** [z as u32]. *)
Definition as_u32 (z : Z) : Z := z mod 2 ^ 32.
(** Reinterprets the low 32 bits as a two's complement integer. *)
Definition as_i32 (z : Z) : Z := (z + 2 ^ 31) mod 2 ^ 32 - 2 ^ 31.

Definition u8_max : Z := 255.
Definition i32_min : Z := - 2 ^ 31.
Definition i32_max : Z := 2 ^ 31 - 1.
Definition u32_max : Z := 2 ^ 32 - 1.
Definition u64_max : Z := 2 ^ 64 - 1.

Definition is_u8 (z : Z) : Prop := 0 <= z <= u8_max.
Definition is_u16 (z : Z) : Prop := 0 <= z < 2 ^ 16.
Definition is_u32 (z : Z) : Prop := 0 <= z <= u32_max.
Definition is_u64 (z : Z) : Prop := 0 <= z <= u64_max.
Definition is_i32 (z : Z) : Prop := i32_min <= z <= i32_max.

(** [u32] and [u64] arithmetic with overflow checks, which the release profile turns on. *)
Definition u32_add {E} (a b : Z) : outcome E Z := if a + b <=? u32_max then Ok (a + b) else Panic Overflow.
Definition u64_add {E} (a b : Z) : outcome E Z := if a + b <=? u64_max then Ok (a + b) else Panic Overflow.
Definition u32_sub {E} (a b : Z) : outcome E Z := if b <=? a then Ok (a - b) else Panic Overflow.

Lemma u32_add_Ok {E} a b c : @u32_add E a b = Ok c <-> c = a + b /\ a + b <= u32_max.
Proof. unfold u32_add. destruct (Z.leb_spec (a + b) u32_max); split; try (intros [= <-]; lia); intros [-> ?]; done || lia. Qed.
Lemma u64_add_Ok {E} a b c : @u64_add E a b = Ok c <-> c = a + b /\ a + b <= u64_max.
Proof. unfold u64_add. destruct (Z.leb_spec (a + b) u64_max); split; try (intros [= <-]; lia); intros [-> ?]; done || lia. Qed.
Lemma u32_sub_Ok {E} a b c : @u32_sub E a b = Ok c <-> c = a - b /\ b <= a.
Proof. unfold u32_sub. destruct (Z.leb_spec b a); split; try (intros [= <-]; lia); intros [-> ?]; done || lia. Qed.

Lemma as_i32_id z : is_i32 z -> as_i32 z = z.
Proof. unfold is_i32, as_i32, i32_min, i32_max. intros. rewrite Z.mod_small; lia. Qed.

Lemma as_u8_id z : is_u8 z -> as_u8 z = z.
Proof. unfold is_u8, as_u8, u8_max. intros. rewrite Z.mod_small; lia. Qed.

(** ** Big-endian encodings *)

(** The [n] low-order bytes of [z], most significant first. *)
Fixpoint be_encode (n : nat) (z : Z) : list byte :=
  match n with
  | O => []
  | S n' => be_encode n' (z / 256) ++ [byte_of_Z z]
  end.

(** The unsigned integer a byte string denotes, most significant byte first. *)
Definition be_decode (bs : list byte) : Z :=
  foldl (fun acc b => acc * 256 + byte_to_Z b) 0 bs.

Lemma be_decode_snoc bs b : be_decode (bs ++ [b]) = be_decode bs * 256 + byte_to_Z b.
Proof. unfold be_decode. rewrite foldl_app. done. Qed.

Lemma length_be_encode n z : length (be_encode n z) = n.
Proof. revert z; induction n; intros; simpl; [done|]. rewrite length_app, IHn. simpl. lia. Qed.

Lemma len_be_encode n z : len (be_encode n z) = Z.of_nat n.
Proof. unfold len; rewrite length_be_encode; done. Qed.

Lemma be_decode_encode n z : be_decode (be_encode n z) = z mod 256 ^ Z.of_nat n.
Proof.
  revert z; induction n as [|n IH]; intros; simpl be_encode.
  - rewrite Z.mod_1_r. done.
  - rewrite be_decode_snoc, IH, byte_to_of_Z.
    replace (256 ^ Z.of_nat (S n)) with (256 * 256 ^ Z.of_nat n)
      by (rewrite Nat2Z.inj_succ, Z.pow_succ_r; lia).
    rewrite Z.rem_mul_r by (try apply Z.pow_nonzero; lia). lia.
Qed.

Lemma be_encode_decode bs : be_encode (length bs) (be_decode bs) = bs.
Proof.
  induction bs as [|b bs IH] using rev_ind; [done|].
  rewrite length_app, Nat.add_comm. simpl. rewrite be_decode_snoc.
  pose proof (byte_to_Z_range b). f_equal.
  - rewrite (Z.div_add_l (be_decode bs) 256) by lia. rewrite (Z.div_small (byte_to_Z b)), Z.add_0_r by lia. done.
  - f_equal. apply byte_to_Z_inj. rewrite byte_to_of_Z, Z.add_comm, Z_mod_plus_full. apply Z.mod_small; lia.
Qed.

Lemma be_decode_range bs : 0 <= be_decode bs < 256 ^ len bs.
Proof.
  rewrite <- (be_encode_decode bs), be_decode_encode, len_be_encode.
  apply Z.mod_pos_bound, Z.pow_pos_nonneg; lia.
Qed.

Lemma be_decode_4_range bs : length bs = 4%nat -> 0 <= be_decode bs < 2 ^ 32.
Proof. intros H. pose proof (be_decode_range bs). unfold len in *. rewrite H in *. lia. Qed.

(** [i32::to_be_bytes] and [i32::from_be_bytes]. *)
Definition i32_to_be_bytes (z : Z) : list byte := be_encode 4 z.
Definition i32_from_be_bytes (bs : list byte) : Z := as_i32 (be_decode bs).

Lemma i32_from_to_be_bytes z : is_i32 z -> i32_from_be_bytes (i32_to_be_bytes z) = z.
Proof.
  intros H. unfold i32_from_be_bytes, i32_to_be_bytes. rewrite be_decode_encode.
  rewrite <- (as_i32_id z H) at 2. unfold as_i32. change (256 ^ Z.of_nat 4) with (2 ^ 32).
  f_equal. apply Zplus_mod_idemp_l.
Qed.

Lemma i32_to_from_be_bytes bs : length bs = 4%nat -> i32_to_be_bytes (i32_from_be_bytes bs) = bs.
Proof.
  intros H. unfold i32_from_be_bytes, i32_to_be_bytes.
  rewrite <- (be_encode_decode bs) at 2. rewrite H.
  pose proof (be_decode_4_range bs H). set (z := be_decode bs) in *.
  assert (forall n a b, a mod 256 ^ Z.of_nat n = b mod 256 ^ Z.of_nat n -> be_encode n a = be_encode n b) as Hext.
  { intros n a b E. rewrite <- !be_decode_encode in E.
    rewrite <- (be_encode_decode (be_encode n a)), <- (be_encode_decode (be_encode n b)), E, !length_be_encode. done. }
  apply Hext. change (256 ^ Z.of_nat 4) with (2 ^ 32). unfold as_i32.
  rewrite Zminus_mod_idemp_l. f_equal. lia.
Qed.

Lemma i32_from_be_bytes_range bs : is_i32 (i32_from_be_bytes bs).
Proof.
  unfold i32_from_be_bytes, as_i32, is_i32, i32_min, i32_max.
  pose proof (Z.mod_pos_bound (be_decode bs + 2 ^ 31) (2 ^ 32) eq_refl). lia.
Qed.

(** ** The sign bit of an [i32] *)

(** [1 << 31] is [i32::MIN]. *)
Definition sign_bit : Z := i32_min.

(** [x | (1 << 31)]. *)
Definition set_sign_bit (x : Z) : Z := Z.lor x sign_bit.
(** [x & !(1 << 31)]. *)
Definition clear_sign_bit (x : Z) : Z := Z.land x (Z.lnot sign_bit).
(** [(x >> 31) & 1]. *)
Definition get_sign_bit (x : Z) : Z := Z.land (Z.shiftr x 31) 1.

Lemma clear_sign_bit_mod x : clear_sign_bit x = x mod 2 ^ 31.
Proof. unfold clear_sign_bit. change (Z.lnot sign_bit) with (Z.ones 31). apply Z.land_ones; lia. Qed.

Lemma set_sign_bit_sub x : 0 <= x < 2 ^ 31 -> set_sign_bit x = x - 2 ^ 31.
Proof.
  intros H. unfold set_sign_bit.
  assert (Z.land x sign_bit = 0) as Hdisj.
  { change sign_bit with (Z.lnot (Z.ones 31)). rewrite <- Z.ldiff_land. apply Z.ldiff_ones_r_low; [lia|].
    destruct (Z.eq_dec x 0) as [->|]; [done|]. apply Z.log2_lt_pow2; lia. }
  rewrite <- Z.lxor_lor, <- Z.add_nocarry_lxor by done. done.
Qed.

Lemma get_sign_bit_neg x : i32_min <= x < 0 -> get_sign_bit x = 1.
Proof.
  unfold get_sign_bit, i32_min. intros H. rewrite Z.shiftr_div_pow2 by lia.
  replace (x / 2 ^ 31) with (-1); [done|]. apply (Z.div_unique x (2 ^ 31) (-1) (x + 2 ^ 31)); lia.
Qed.

Lemma get_sign_bit_nonneg x : 0 <= x < 2 ^ 31 -> get_sign_bit x = 0.
Proof. unfold get_sign_bit. intros H. rewrite Z.shiftr_div_pow2, Z.div_small by lia. done. Qed.

#[export] Hint Resolve byte_to_Z_range i32_from_be_bytes_range : nym.

#[global] Arguments byte_to_Z : simpl never.
#[global] Arguments byte_of_Z : simpl never.
#[global] Arguments be_encode : simpl never.
#[global] Arguments be_decode : simpl never.
#[global] Arguments i32_to_be_bytes : simpl never.
#[global] Arguments i32_from_be_bytes : simpl never.
#[global] Arguments get_sign_bit : simpl never.
#[global] Arguments set_sign_bit : simpl never.
#[global] Arguments clear_sign_bit : simpl never.
