(* ===== verification/Paging.v ===== *)
(** * Ranges and pages of stored maps

    The contracts list a map page by page: a range over the keys in ascending
    order, after the key the last page ended with, and at most as many entries
    as the limit allows.  A client that follows [start_next_after] until a
    page has none gets every entry once, in order. *)

From S2P Require Import Prelude.
From stdpp Require Import sorting strings.
#[local] Open Scope Z_scope.

(** ** Orders of keys *)

(** The order of keys in storage: numbers are stored with their first byte first, strings as
    they are, and tuples component by component. *)
Class KeyOrder (K : Type) := {
  key_le : relation K;
  key_le_dec :: RelDecision key_le;
  key_le_po :: PartialOrder key_le;
  key_le_total :: Total key_le
}.

#[export] Instance Z_keys : KeyOrder Z := {| key_le := Z.le |}.

#[export] Instance string_keys : KeyOrder string := {| key_le := String.le |}.

Section Pairs.
Context {A B : Type} `{KeyOrder A} `{KeyOrder B}.

Definition pair_le : relation (A * B) := fun x y => key_le x.1 y.1 /\ (key_le y.1 x.1 -> key_le x.2 y.2).

#[local] Instance pair_le_po : PartialOrder pair_le.
Proof.
  split; [split|].
  - intros x. split; [done|intros _; reflexivity].
  - intros x y z [Hxy Hxy'] [Hyz Hyz']. split; [by etransitivity|]. intros Hzx.
    transitivity y.2; [apply Hxy'|apply Hyz']; by etransitivity.
  - intros [x1 x2] [y1 y2] [Hxy Hxy'] [Hyx Hyx']. simpl in *.
    rewrite (anti_symm key_le x1 y1 Hxy Hyx), (anti_symm key_le x2 y2 (Hxy' Hyx) (Hyx' Hxy)). done.
Qed.

#[local] Instance pair_le_total : Total pair_le.
Proof.
  intros x y. unfold pair_le. destruct (total key_le x.1 y.1) as [H1|H1].
  - destruct (decide (key_le y.1 x.1)) as [H2|H2]; [|left; tauto].
    destruct (total key_le x.2 y.2); [left|right]; tauto.
  - destruct (decide (key_le x.1 y.1)) as [H2|H2]; [|right; tauto].
    destruct (total key_le x.2 y.2); [left|right]; tauto.
Qed.

#[local] Instance pair_le_dec : RelDecision pair_le.
Proof. intros x y. unfold pair_le. apply _. Defined.

#[export] Instance pair_keys : KeyOrder (A * B) := {| key_le := pair_le |}.

End Pairs.

(** ** Ranges *)

Section Ranges.
Context {K V : Type} `{Countable K} `{!KeyOrder K}.

Definition entry_le : relation (K * V) := fun x y => key_le x.1 y.1.

#[local] Instance entry_le_dec : RelDecision entry_le.
Proof. intros x y. unfold entry_le. apply _. Defined.

#[local] Instance entry_le_trans : Transitive entry_le.
Proof. intros x y z. unfold entry_le. apply transitivity. Qed.

#[local] Instance entry_le_total : Total entry_le.
Proof. intros x y. unfold entry_le. apply total, _. Qed.

(** [range(storage, None, None, Order::Ascending)]. *)
Definition ascending (m : gmap K V) : list (K * V) := merge_sort entry_le (map_to_list m).

(** [Bound::exclusive]. *)
Definition is_after (start : option K) (kv : K * V) : Prop :=
  match start with Some k => ~ key_le kv.1 k | None => True end.

#[export] Instance is_after_dec start kv : Decision (is_after start kv).
Proof. unfold is_after. destruct start; apply _. Defined.

(** [range(storage, start, None, Order::Ascending)], of the map or of the entries an index selects. *)
Definition range_after (start : option K) (l : list (K * V)) : list (K * V) := filter (is_after start) l.

Definition page (start : option K) (limit : Z) (l : list (K * V)) : list (K * V) :=
  take (Z.to_nat limit) (range_after start l).

(** Ascending entries with different keys. *)
Definition in_order (l : list (K * V)) : Prop := StronglySorted (fun x y => entry_le x y /\ x.1 <> y.1) l.

Lemma ascending_perm m : Permutation (ascending m) (map_to_list m).
Proof. apply merge_sort_Permutation. Qed.

Lemma sorted_in_order l : NoDup l.*1 -> StronglySorted entry_le l -> in_order l.
Proof.
  intros Hd Hs. induction Hs as [|x l Hs IH Hx]; [constructor|]. rewrite fmap_cons, NoDup_cons in Hd.
  destruct Hd as [Hx' Hd]. constructor; [by apply IH|]. rewrite Forall_forall in *. intros y Hy. split; [by apply Hx|].
  intros E. apply Hx'. rewrite E. by apply list_elem_of_fmap_2.
Qed.

Lemma ascending_in_order m : in_order (ascending m).
Proof.
  apply sorted_in_order; [|apply StronglySorted_merge_sort; apply _].
  rewrite ascending_perm. apply NoDup_fst_map_to_list.
Qed.

Lemma in_order_filter (P : K * V -> Prop) `{!forall x, Decision (P x)} l : in_order l -> in_order (filter P l).
Proof.
  induction 1 as [|x l Hs IH Hx]; [constructor|]. rewrite filter_cons. case_decide; [|done].
  constructor; [done|]. rewrite Forall_forall in *. intros y [_ Hy]%list_elem_of_filter. by apply Hx.
Qed.

(** What comes after an entry is the rest of the list. *)
Lemma range_after_entry l1 x l2 : in_order (l1 ++ x :: l2) -> range_after (Some x.1) (l1 ++ x :: l2) = l2.
Proof.
  intros Hs. unfold range_after. induction l1 as [|y l1 IH]; simpl in *; apply StronglySorted_inv in Hs as [Hs Hx].
  - rewrite filter_cons_False by (simpl; intros Hn; by apply Hn).
    assert (Forall (is_after (Some x.1)) l2) as Ha; [|clear -Ha].
    { rewrite Forall_forall in *. intros y Hy Hle. destruct (Hx y Hy) as [Hxy Hne]. apply Hne. by apply (anti_symm key_le). }
    induction Ha as [|y l Hy _ IH]; [done|]. by rewrite filter_cons_True, IH.
  - rewrite filter_cons_False; [by apply IH|]. simpl. intros Hn. apply Hn.
    rewrite Forall_forall in Hx. apply (Hx x). apply elem_of_app. right. by left.
Qed.

(** The entries of a page are entries of the map. *)
Lemma page_entry (m : gmap K V) start n kv : kv ∈ page start n (ascending m) -> m !! kv.1 = Some kv.2.
Proof.
  destruct kv as [k v]. unfold page, range_after. intros (i & Hi & _)%elem_of_take. apply list_elem_of_lookup_2 in Hi.
  apply list_elem_of_filter in Hi as [_ Hi]. rewrite ascending_perm in Hi. by apply elem_of_map_to_list.
Qed.

Lemma range_after_None l : range_after None l = l.
Proof. unfold range_after. induction l as [|x l IH]; [done|]. by rewrite filter_cons_True, IH. Qed.

End Ranges.

(** ** Following the pages *)

(** The limit of a request: a default, and a maximum. *)
Definition page_limit (limit : option Z) (default_limit max_limit : Z) : Z := Z.min (default default_limit limit) max_limit.

Section Walk.
Context {E K V A : Type} `{Countable K} `{!KeyOrder K}.

(** A client that asks for the next page until it is told that there is none. *)
Fixpoint walk (fuel : nat) (query : option K -> outcome E (list A * option K)) (start : option K) : outcome E (list A) :=
  match fuel with
  | O => Panic Diverges
  | S fuel =>
      let? (items, start_next_after) := query start in
      match start_next_after with
      | Some k => let? rest := walk fuel query (Some k) in Ok (items ++ rest)
      | None => Ok items
      end
  end.

(** Every entry of the map once, in the order of the keys; [g] is what the response has of an entry. *)
Definition lists_all (query : option K -> outcome E (list A * option K)) (m : gmap K V) (g : K * V -> outcome E A) : Prop :=
  exists l entries, walk (S (size m)) query None = Ok entries /\ mapM_outcome g l = Ok entries /\
    Permutation l (map_to_list m) /\ in_order l.

Context (query : option K -> outcome E (list A * option K)) (l : list (K * V)) (limit : Z) (g : K * V -> outcome E A).
Context (Hquery : forall start, (forall k, start = Some k -> k ∈ l.*1) -> query start =
  let? entries := mapM_outcome g (page start limit l) in Ok (entries, fst <$> last (page start limit l))).
Context (Hlimit : 0 < limit) (Hl : in_order l).

Lemma snoc_cases {B} (xs : list B) : (exists p x, xs = p ++ [x]) \/ xs = [].
Proof. destruct xs using rev_ind; [by right|left; eauto]. Qed.

Lemma mapM_outcome_app (xs ys : list (K * V)) zs :
  mapM_outcome g (xs ++ ys) = Ok zs ->
  exists us vs, mapM_outcome g xs = Ok us /\ mapM_outcome g ys = Ok vs /\ zs = us ++ vs.
Proof.
  revert zs. induction xs as [|x xs IH]; intros zs; simpl; [by eauto|].
  destruct (g x) as [u| |]; [|done|done]. simpl. intros Hm.
  destruct (mapM_outcome g (xs ++ ys)) as [ws| |]; [|done|done]. injection Hm as <-.
  destruct (IH ws eq_refl) as (us & vs & -> & -> & ->). simpl. eauto.
Qed.

Lemma walk_rest n : forall start l1 l2 entries,
  l = l1 ++ l2 -> (forall k, start = Some k -> k ∈ l.*1) -> range_after start l = l2 -> (length l2 < n)%nat ->
  mapM_outcome g l2 = Ok entries -> walk n query start = Ok entries.
Proof.
  induction n as [|n IH]; intros start l1 l2 entries El Hk Hr Hn Hm; [lia|]. cbn [walk]. rewrite Hquery by done. unfold page. rewrite Hr.
  destruct (snoc_cases (take (Z.to_nat limit) l2)) as [(p & x & Ep)|Ep].
  - rewrite Ep, last_snoc. simpl.
    pose proof (take_drop (Z.to_nat limit) l2) as Et. rewrite Ep in Et. clear Ep.
    revert Et. generalize (drop (Z.to_nat limit) l2). intros r <-.
    apply mapM_outcome_app in Hm as (us & vs & -> & Hvs & ->). simpl.
    rewrite !length_app in Hn. simpl in Hn. rewrite <- app_assoc in El. simpl in El.
    rewrite app_assoc in El.
    rewrite (IH (Some x.1) (l1 ++ p ++ [x]) r vs); [done|by rewrite El, <- !app_assoc| | |lia|done].
    { intros k [= <-]. apply list_elem_of_fmap_2. rewrite El. apply elem_of_app. right. by left. }
    rewrite El. apply range_after_entry. by rewrite <- El.
  - rewrite Ep. destruct l2 as [|y l2]; [exact Hm|]. destruct (Z.to_nat limit) eqn:El0; [lia|done].
Qed.

Lemma walk_complete n entries :
  (length l < n)%nat -> mapM_outcome g l = Ok entries -> walk n query None = Ok entries.
Proof. intros Hn Hm. by apply (walk_rest n None [] l); [| |apply range_after_None| |]. Qed.

End Walk.

(** A query of a whole map that reads a page and reports its last key lists all of it. *)
Lemma query_lists_all {E K V A} `{Countable K} `{!KeyOrder K} (query : option K -> outcome E (list A * option K))
    (m : gmap K V) limit g entries :
  0 < limit ->
  (forall start, (forall k, start = Some k -> is_Some (m !! k)) -> query start =
    let? items := mapM_outcome g (page start limit (ascending m)) in
    Ok (items, fst <$> last (page start limit (ascending m)))) ->
  mapM_outcome g (ascending m) = Ok entries -> lists_all query m g.
Proof.
  intros Hlimit Hq Hm. exists (ascending m), entries. split_and!; [|done|apply ascending_perm|apply ascending_in_order].
  eapply walk_complete; [|exact Hlimit|apply ascending_in_order| |done].
  { intros start Hk. apply Hq. intros k Ek. specialize (Hk k Ek). apply list_elem_of_fmap in Hk as ([k' v] & -> & Hk).
    rewrite ascending_perm in Hk. apply elem_of_map_to_list in Hk. by exists v. }
  rewrite ascending_perm. rewrite length_map_to_list. lia.
Qed.
