(* ===== verification/Float64.v ===== *)
(** * Double-precision arithmetic on unsigned integers

    The packet layer computes ceilings of quotients of [usize] values through
    [f64]: [(a as f64 / b as f64).ceil() as usize].  This file models the
    non-negative part of IEEE 754 binary64 the sources use: conversion from an
    integer, division and ceiling with rounding to nearest, ties to even, and
    the saturating cast back to [usize].  Exponents are unbounded, which is
    exact here: quotients of 64-bit integers neither overflow nor become
    subnormal.  The main lemma is that the whole computation is the exact
    ceiling division as long as the dividend is below 2^53. *)

From S2P Require Import Prelude Bytes.

(** A non-negative binary64 value; [Finite m e] is [m * 2 ^ e]. *)
Inductive f64 : Type :=
| Finite (m e : Z)
| Infinite
| NaN.

(** The binary64 value nearest to [a / b], ties to even, for [0 <= a], [0 < b]:
    the quotient is scaled into [2^52, 2^53) and rounded to an integer. *)
Definition round_scale (a b : Z) : Z :=
  let s := 52 - (Z.log2 a - Z.log2 b) in
  let a' := if 0 <=? s then a * 2 ^ s else a in
  let b' := if 0 <=? s then b else b * 2 ^ (- s) in
  if a' <? 2 ^ 52 * b' then s + 1 else s.

Definition round_half_even (num den : Z) : Z :=
  let q := num / den in
  let r := num mod den in
  if (den <? 2 * r) || ((2 * r =? den) && Z.odd q) then q + 1 else q.

Definition round_quotient (a b : Z) : f64 :=
  if a =? 0 then Finite 0 0
  else
    let s := round_scale a b in
    if 0 <=? s then Finite (round_half_even (a * 2 ^ s) b) (- s)
    else Finite (round_half_even a (b * 2 ^ (- s))) (- s).

(** [n as f64]. *)
Definition f64_of_usize (n : Z) : f64 := round_quotient n 1.

(** [x / y]. *)
Definition f64_div (x y : f64) : f64 :=
  match x, y with
  | Finite mx ex, Finite my ey =>
      if my =? 0 then if mx =? 0 then NaN else Infinite
      else if ey <=? ex then round_quotient (mx * 2 ^ (ex - ey)) my
      else round_quotient mx (my * 2 ^ (ey - ex))
  | Infinite, Finite _ _ => Infinite
  | Finite _ _, Infinite => Finite 0 0
  | _, _ => NaN
  end.

(** [x.ceil()]. *)
Definition f64_ceil (x : f64) : f64 :=
  match x with
  | Finite m e => if 0 <=? e then Finite m e else Finite (cdiv m (2 ^ (- e))) 0
  | _ => x
  end.

(** [x as usize]: truncates, saturates and sends NaN to 0. *)
Definition f64_as_usize (x : f64) : Z :=
  match x with
  | Finite m e => Z.min u64_max (if 0 <=? e then m * 2 ^ e else m / 2 ^ (- e))
  | Infinite => u64_max
  | NaN => 0
  end.

(** [(a as f64 / b as f64).ceil() as usize]. *)
Definition f64_div_ceil (a b : Z) : Z :=
  f64_as_usize (f64_ceil (f64_div (f64_of_usize a) (f64_of_usize b))).

(** ** Rounding is exact enough *)

Lemma round_half_even_spec num den :
  0 < den ->
  exists q r, num = den * q + r /\ 0 <= r < den /\
    ((round_half_even num den = q /\ 2 * r <= den) \/
     (round_half_even num den = q + 1 /\ den <= 2 * r)).
Proof.
  intros Hd. exists (num / den), (num mod den). unfold round_half_even.
  pose proof (Z.div_mod num den ltac:(lia)). pose proof (Z.mod_pos_bound num den Hd).
  split_and!; try lia. zcases; simpl; try lia. destruct (Z.odd _); lia.
Qed.

(** The scaled quotient lies in [2^52, 2^53). *)
Lemma round_scale_spec a b :
  0 < a -> 0 < b -> 0 <= round_scale a b ->
  2 ^ 52 * b <= a * 2 ^ round_scale a b < 2 ^ 53 * b.
Proof.
  intros Ha Hb. unfold round_scale.
  pose proof (Z.log2_spec a Ha) as [La1 La2]. pose proof (Z.log2_spec b Hb) as [Lb1 Lb2].
  pose proof (Z.log2_nonneg a) as Na. pose proof (Z.log2_nonneg b) as Nb.
  set (la := Z.log2 a) in *. set (lb := Z.log2 b) in *.
  rewrite Z.pow_succ_r in La2, Lb2 by lia.
  set (s := 52 - (la - lb)).
  assert (0 <= s -> 2 ^ la * 2 ^ s = 2 ^ 52 * 2 ^ lb) as Hpow.
  { intros. rewrite <- !Z.pow_add_r by (unfold s in *; lia). f_equal. unfold s; lia. }
  assert (0 < 2 ^ lb) by (apply Z.pow_pos_nonneg; lia).
  destruct (Z.leb_spec 0 s) as [Hs|Hs].
  - specialize (Hpow Hs). assert (0 < 2 ^ s) by (apply Z.pow_pos_nonneg; lia).
    assert (a * 2 ^ s < 2 ^ 53 * b).
    { apply Z.lt_le_trans with (2 * 2 ^ la * 2 ^ s); [nia|].
      replace (2 * 2 ^ la * 2 ^ s) with (2 * (2 ^ la * 2 ^ s)) by lia. rewrite Hpow. lia. }
    assert (2 ^ 52 * b < 2 * (a * 2 ^ s)).
    { apply Z.lt_le_trans with (2 ^ 52 * (2 * 2 ^ lb)); [lia|].
      replace (2 ^ 52 * (2 * 2 ^ lb)) with (2 * (2 ^ la * 2 ^ s)) by lia. nia. }
    zcases; intros; [|lia]. rewrite Z.pow_add_r by lia. lia.
  - assert (2 ^ (- s) * 2 ^ 52 * 2 ^ lb = 2 ^ la) as Hpow'.
    { rewrite <- !Z.pow_add_r by lia. f_equal. unfold s; lia. }
    zcases; intros; [|lia]. assert (s = -1) as Hs1 by lia. rewrite Hs1 in *. simpl Z.opp in *.
    change (2 ^ (-1 + 1)) with 1. change (2 ^ 1) with 2 in *. lia.
Qed.

Lemma round_scale_nonneg a b :
  0 < a -> 0 < b -> a < 2 ^ 53 * b -> 0 <= round_scale a b.
Proof.
  intros Ha Hb Hab. unfold round_scale.
  pose proof (Z.log2_spec a Ha) as [La1 La2]. pose proof (Z.log2_spec b Hb) as [Lb1 Lb2].
  pose proof (Z.log2_nonneg a) as Na. pose proof (Z.log2_nonneg b) as Nb.
  set (la := Z.log2 a) in *. set (lb := Z.log2 b) in *.
  assert (la < 54 + lb) as Hl.
  { apply (Z.pow_lt_mono_r_iff 2); [lia|lia|]. apply Z.le_lt_trans with a; [done|].
    replace (54 + lb) with (53 + Z.succ lb) by lia. rewrite (Z.pow_add_r 2 53) by lia. lia. }
  destruct (Z.leb_spec 0 (52 - (la - lb))); zcases; try lia.
  assert (52 - (la - lb) = -1) as Hs by lia. rewrite Hs in *. simpl Z.opp in *. change (2 ^ 1) with 2 in *. lia.
Qed.

(** Rounding a quotient that equals [A / B] with [A < 2^53] does not change its ceiling. *)
Lemma ceil_round_quotient num den A B :
  0 <= num -> 0 < den -> 0 < B -> num * B = A * den -> A < 2 ^ 53 ->
  f64_as_usize (f64_ceil (round_quotient num den)) = cdiv A B.
Proof.
  intros Hn Hd HB Heq HA. unfold round_quotient.
  destruct (Z.eqb_spec num 0) as [->|Hnz].
  { assert (A = 0) as -> by nia. symmetry. apply cdiv_spec; [lia|]. change (f64_as_usize _) with 0. lia. }
  assert (0 < A) by nia.
  assert (num < 2 ^ 53 * den) as Hlt by nia.
  pose proof (round_scale_nonneg num den ltac:(lia) Hd Hlt) as Hs.
  pose proof (round_scale_spec num den ltac:(lia) Hd Hs) as [Hlo _].
  set (s := round_scale num den) in *. destruct (Z.leb_spec 0 s); [|lia].
  pose proof (Z.pow_pos_nonneg 2 s ltac:(lia) Hs) as HP. set (P := 2 ^ s) in *.
  destruct (round_half_even_spec (num * P) den Hd) as (q & r & Hqr & Hr & Hrnd).
  pose proof (cdiv_bounds A B HB) as [Hc1 Hc2]. set (c := cdiv A B) in *.
  assert (A * P * den = B * (den * q + r)) as Hkey by (rewrite <- Hqr; nia).
  assert (2 ^ 52 * B <= A * P) as Hlo' by nia.
  assert (1 <= c <= A) as Hc by (clear - Hc1 Hc2 HB H; nia).
  assert (q <= c * P) as Hq1 by nia.
  assert ((c - 1) * P <= q) as Hq2 by nia.
  assert (0 < P * den) as HPd by (apply Z.mul_pos_pos; lia).
  assert (q = c * P -> r = 0) as Hq3.
  { intros ->. pose proof (Z.mul_le_mono_nonneg_r A (c * B) (P * den) ltac:(lia) Hc2).
    assert (B * r <= 0) as HBr by lia. clear - HBr Hr HB. nia. }
  assert (q = (c - 1) * P -> den < 2 * r) as Hq4.
  { intros ->.
    pose proof (Z.mul_le_mono_nonneg_r 1 (A - (c - 1) * B) (P * den) ltac:(lia) ltac:(lia)).
    assert (P * den <= B * r) as HPr by lia. assert (B < 2 * P) as HBP by (clear - Hlo' HA HP; nia).
    clear - HPr HBP Hd HB. nia. }
  assert (round_half_even (num * P) den <= c * P /\ (c - 1) * P < round_half_even (num * P) den) as [R1 R2].
  { destruct Hrnd as [[-> ?]|[-> ?]]; split; try lia; nia. }
  set (m := round_half_even (num * P) den) in *.
  assert (cdiv m P = c) as Hm by (apply cdiv_spec; lia).
  unfold f64_ceil. destruct (Z.leb_spec 0 (- s)).
  - assert (s = 0) as Hs0 by lia. unfold P in Hm. rewrite Hs0 in *. change (2 ^ 0) with 1 in Hm.
    simpl. unfold cdiv in Hm. rewrite Z.div_1_r in Hm. unfold u64_max. lia.
  - rewrite Z.opp_involutive. fold P. rewrite Hm. simpl. unfold u64_max. lia.
Qed.

Lemma f64_of_usize_exact n :
  0 <= n < 2 ^ 53 ->
  exists m s, f64_of_usize n = Finite m (- s) /\ 0 <= s /\ 0 <= m /\ m = n * 2 ^ s.
Proof.
  intros Hn. unfold f64_of_usize, round_quotient.
  destruct (Z.eqb_spec n 0) as [->|]; [exists 0, 0; done|].
  pose proof (round_scale_nonneg n 1 ltac:(lia) ltac:(lia) ltac:(lia)) as Hs.
  set (s := round_scale n 1) in *. destruct (Z.leb_spec 0 s); [|lia].
  exists (n * 2 ^ s), s. pose proof (Z.pow_pos_nonneg 2 s ltac:(lia) Hs).
  split_and!; try nia. f_equal. unfold round_half_even.
  rewrite Z.div_1_r, Z.mod_1_r. done.
Qed.

(** The floating-point computation is the exact ceiling division. *)
Lemma f64_div_ceil_exact a b :
  0 <= a < 2 ^ 53 -> 0 < b < 2 ^ 53 -> f64_div_ceil a b = cdiv a b.
Proof.
  intros Ha Hb. unfold f64_div_ceil.
  destruct (f64_of_usize_exact a Ha) as (ma & sa & -> & Hsa & Hma & Ema).
  destruct (f64_of_usize_exact b ltac:(lia)) as (mb & sb & -> & Hsb & Hmb & Emb).
  pose proof (Z.pow_pos_nonneg 2 sa ltac:(lia) Hsa). pose proof (Z.pow_pos_nonneg 2 sb ltac:(lia) Hsb).
  assert (0 < mb) by nia. unfold f64_div. destruct (Z.eqb_spec mb 0); [lia|].
  destruct (Z.leb_spec (- sb) (- sa)).
  - apply ceil_round_quotient; try nia.
    assert (2 ^ sb = 2 ^ (- sa - - sb) * 2 ^ sa) as Hp by (rewrite <- Z.pow_add_r by lia; f_equal; lia).
    subst ma mb. rewrite Hp. nia.
  - assert (0 < 2 ^ (- sb - - sa)) by (apply Z.pow_pos_nonneg; lia).
    apply ceil_round_quotient; try nia.
    assert (2 ^ sa = 2 ^ (- sb - - sa) * 2 ^ sb) as Hp by (rewrite <- Z.pow_add_r by lia; f_equal; lia).
    subst ma mb. rewrite Hp. nia.
Qed.
