(* ===== verification/Utf8.v ===== *)
(** * UTF-8

    The decoding of byte strings by Rust's [String::from_utf8] and
    [String::from_utf8_lossy], of the language's standard library.  A [String]
    is the list of its bytes. *)

From S2P Require Import Prelude Bytes.
From Stdlib.Strings Require Import Byte.
#[local] Open Scope Z_scope.

(** The number of bytes of a character with this first byte; zero for no character. *)
Definition utf8_char_width (b : Z) : Z :=
  if b <? 0x80 then 1 else if b <? 0xC2 then 0 else if b <? 0xE0 then 2 else if b <? 0xF0 then 3
  else if b <? 0xF5 then 4 else 0.

(** The byte at a position, zero behind the end. *)
Definition safe_get (l : list byte) (i : nat) : Z := from_option byte_to_Z 0 (l !! i).

Definition is_cont (b : Z) : bool := (0x80 <=? b) && (b <=? 0xBF).

Definition between (lo b hi : Z) : bool := (lo <=? b) && (b <=? hi).

(** The second byte of a character of three or four bytes. *)
Definition second_ok (first second : Z) : bool :=
  if first =? 0xE0 then between 0xA0 second 0xBF
  else if between 0xE1 first 0xEC then is_cont second
  else if first =? 0xED then between 0x80 second 0x9F
  else if between 0xEE first 0xEF then is_cont second
  else if first =? 0xF0 then between 0x90 second 0xBF
  else if between 0xF1 first 0xF3 then is_cont second
  else if first =? 0xF4 then between 0x80 second 0x8F
  else false.

(** The first character of a string that starts with [b]: whether it is one, and its bytes, or the
    bytes to replace. *)
Definition utf8_step (b : byte) (rest : list byte) : bool * nat :=
  let first := byte_to_Z b in
  let w := utf8_char_width first in
  if w =? 1 then (true, 1%nat)
  else if w =? 2 then (if is_cont (safe_get rest 0) then (true, 2%nat) else (false, 1%nat))
  else if w =? 3 then
    (if second_ok first (safe_get rest 0) then
       (if is_cont (safe_get rest 1) then (true, 3%nat) else (false, 2%nat))
     else (false, 1%nat))
  else if w =? 4 then
    (if second_ok first (safe_get rest 0) then
       (if is_cont (safe_get rest 1) then
          (if is_cont (safe_get rest 2) then (true, 4%nat) else (false, 3%nat))
        else (false, 2%nat))
     else (false, 1%nat))
  else (false, 1%nat).

(** The characters and malformed parts of a string. *)
Fixpoint utf8_chunks (fuel : nat) (l : list byte) : list (bool * list byte) :=
  match fuel, l with
  | S fuel, b :: rest =>
      let (ok, n) := utf8_step b rest in
      (ok, take n l) :: utf8_chunks fuel (drop n l)
  | _, _ => []
  end.

Definition utf8_valid (l : list byte) : bool := forallb fst (utf8_chunks (length l) l).

(** [String::from_utf8]. *)
Definition from_utf8 (l : list byte) : option (list byte) := if utf8_valid l then Some l else None.

(** U+FFFD. *)
Definition REPLACEMENT_CHARACTER : list byte := [xef; xbf; xbd].

Definition from_utf8_lossy (l : list byte) : list byte :=
  concat ((fun c : bool * list byte => if c.1 then c.2 else REPLACEMENT_CHARACTER) <$> utf8_chunks (length l) l).

(** The chunks make up the string. *)
Lemma utf8_chunks_concat fuel l : (length l <= fuel)%nat -> concat (snd <$> utf8_chunks fuel l) = l.
Proof.
  revert l. induction fuel as [|fuel IH]; intros [|b rest] Hf; try done; [simpl in Hf; lia|].
  cbn [utf8_chunks]. destruct (utf8_step b rest) as [ok n] eqn:E. rewrite fmap_cons. cbn [concat snd].
  rewrite IH; [apply take_drop|]. rewrite length_drop. simpl in *.
  assert (n <> 0%nat); [|lia]. unfold utf8_step in E. intros ->. repeat case_match; congruence.
Qed.

Lemma from_utf8_lossy_valid l : utf8_valid l = true -> from_utf8_lossy l = l.
Proof.
  unfold utf8_valid, from_utf8_lossy. intros Hv. rewrite <- (utf8_chunks_concat (length l) l) at 3 by done.
  f_equal. apply list_fmap_ext. intros i c Hc. rewrite forallb_forall in Hv.
  by rewrite (Hv c) by (apply list_elem_of_In; by eapply list_elem_of_lookup_2).
Qed.
