(* ===== verification/Text.v ===== *)
(** * Text of the standard library

    Strings as their characters (Unicode scalar values), and the operations of
    [str] the program uses: searching, splitting, trimming, reading and
    writing numbers. *)

From S2P Require Import Prelude Bytes.
From stdpp Require Import strings.
From Stdlib Require Strings.String.
From Stdlib Require Import ZifyBool Strings.Ascii.
#[local] Open Scope Z_scope.

Definition str := list Z.

(** An ASCII literal. *)
Definition chars (s : String.string) : str := (fun a => Z.of_N (N_of_ascii a)) <$> String.list_ascii_of_string s.

(** ** Searching *)

(** The parts before and after the first [c]. *)
Fixpoint split_once (c : Z) (s : str) : option (str * str) :=
  match s with
  | [] => None
  | x :: s =>
      if x =? c then Some ([], s)
      else match split_once c s with
           | Some (before, after) => Some (x :: before, after)
           | None => None
           end
  end.

(** The parts before and after the last [c]. *)
Fixpoint rsplit_once (c : Z) (s : str) : option (str * str) :=
  match s with
  | [] => None
  | x :: s =>
      match rsplit_once c s with
      | Some (before, after) => Some (x :: before, after)
      | None => if x =? c then Some ([], s) else None
      end
  end.

Fixpoint strip_prefix (prefix s : str) : option str :=
  match prefix, s with
  | [], _ => Some s
  | p :: prefix, x :: s => if p =? x then strip_prefix prefix s else None
  | _ :: _, [] => None
  end.

Definition starts_with (c : Z) (s : str) : bool := match s with x :: _ => x =? c | [] => false end.
Definition ends_with (c : Z) (s : str) : bool := starts_with c (reverse s).

(** ** Trimming and lines *)

(** [char::is_whitespace], the property [White_Space]. *)
Definition is_whitespace (c : Z) : bool :=
  ((9 <=? c) && (c <=? 13)) || (c =? 0x20) || (c =? 0x85) || (c =? 0xA0) || (c =? 0x1680) ||
  ((0x2000 <=? c) && (c <=? 0x200A)) || (c =? 0x2028) || (c =? 0x2029) || (c =? 0x202F) ||
  (c =? 0x205F) || (c =? 0x3000).

Fixpoint trim_start (s : str) : str :=
  match s with
  | [] => []
  | c :: rest => if is_whitespace c then trim_start rest else s
  end.

Definition trim_end (s : str) : str := reverse (trim_start (reverse s)).
Definition trim (s : str) : str := trim_end (trim_start s).

Definition NEWLINE : Z := 10.
Definition CARRIAGE_RETURN : Z := 13.

(** The pieces that newlines end, and a last one without newline if it is not empty. *)
Fixpoint split_inclusive (s : str) : list (str * bool) :=
  match s with
  | [] => []
  | c :: s =>
      if c =? NEWLINE then ([], true) :: split_inclusive s
      else match split_inclusive s with
           | (line, ended) :: lines => (c :: line, ended) :: lines
           | [] => [([c], false)]
           end
  end.

(** [str::lines]: a carriage return before the newline is dropped too. *)
Definition strip_line (l : str * bool) : str :=
  let '(line, ended) := l in
  if ended && ends_with CARRIAGE_RETURN line then take (length line - 1) line else line.

Definition lines (s : str) : list str := strip_line <$> split_inclusive s.

(** ** Numbers *)

(** [char::to_digit]. *)
Definition to_digit (radix c : Z) : option Z :=
  let digit :=
    if (48 <=? c) && (c <=? 57) then c - 48
    else if (97 <=? c) && (c <=? 122) then c - 97 + 10
    else if (65 <=? c) && (c <=? 90) then c - 65 + 10
    else radix in
  if digit <? radix then Some digit else None.

Definition digit_char (d : Z) : Z := if d <? 10 then 48 + d else 97 + (d - 10).

Fixpoint digits (fuel : nat) (radix n : Z) : list Z :=
  match fuel with
  | O => []
  | S fuel => if n <? radix then [n] else digits fuel radix (n / radix) ++ [n mod radix]
  end.

(** A number in a radix, as [{}] and [{:x}] write it. *)
Definition print_number (radix n : Z) : str := digit_char <$> digits (S (Z.to_nat (Z.log2 n))) radix n.

Fixpoint parse_digits (radix limit acc : Z) (s : str) : option Z :=
  match s with
  | [] => Some acc
  | c :: s =>
      match to_digit radix c with
      | Some d => if acc * radix + d <=? limit then parse_digits radix limit (acc * radix + d) s else None
      | None => None
      end
  end.

(** [str::parse] for the unsigned type of the given maximum: a sign [+] is
    read, an empty number is not. *)
Definition parse_unsigned (limit : Z) (s : str) : option Z :=
  let s' := match s with c :: ((_ :: _) as rest) => if c =? 43 then rest else s | _ => s end in
  match s' with [] => None | _ => parse_digits 10 limit 0 s' end.

(** ** Facts *)

Definition is_digit_char (c : Z) : bool := ((48 <=? c) && (c <=? 57)) || ((97 <=? c) && (c <=? 102)).

Definition digits_value (radix : Z) (ds : list Z) : Z := foldl (fun acc d => acc * radix + d) 0 ds.

Section Digits.
Context (radix : Z) (Hradix : 2 <= radix <= 16).

Lemma digits_value_digits fuel n :
  0 <= n < radix ^ Z.of_nat fuel -> digits_value radix (digits fuel radix n) = n.
Proof.
  revert n; induction fuel as [|fuel IH]; intros n Hn; simpl; [change (Z.of_nat 0) with 0 in Hn; rewrite Z.pow_0_r in Hn; unfold digits_value; simpl; lia|].
  destruct (Z.ltb_spec n radix); [unfold digits_value; simpl; lia|].
  unfold digits_value. rewrite foldl_app. fold (digits_value radix (digits fuel radix (n / radix))). simpl.
  rewrite IH; [pose proof (Z.div_mod n radix ltac:(lia)); lia|].
  rewrite Nat2Z.inj_succ, Z.pow_succ_r in Hn by lia.
  split; [apply Z.div_pos; lia|]. apply Z.div_lt_upper_bound; lia.
Qed.

Lemma digits_range fuel n : 0 <= n -> Forall (fun d => 0 <= d < radix) (digits fuel radix n).
Proof.
  revert n; induction fuel as [|fuel IH]; intros n Hn; simpl; [done|].
  destruct (Z.ltb_spec n radix); [by repeat constructor|].
  apply Forall_app; split; [apply IH, Z.div_pos; lia|]. repeat constructor; apply Z.mod_pos_bound; lia.
Qed.

Lemma length_digits fuel n k : 0 <= n < radix ^ Z.of_nat k -> (0 < k)%nat -> (length (digits fuel radix n) <= k)%nat.
Proof.
  revert n k; induction fuel as [|fuel IH]; intros n k Hn Hk; simpl; [lia|].
  destruct (Z.ltb_spec n radix); [simpl; lia|]. rewrite length_app; simpl.
  destruct k as [|[|k]]; [lia| |].
  - change (Z.of_nat 1) with 1 in Hn. rewrite Z.pow_1_r in Hn. lia.
  - rewrite Nat2Z.inj_succ, Z.pow_succ_r in Hn by lia.
    specialize (IH (n / radix) (S k)). rewrite Nat.add_1_r. apply le_n_S, IH; [|lia].
    split; [apply Z.div_pos; lia|apply Z.div_lt_upper_bound; lia].
Qed.

(** Only the number 0 starts with the digit 0. *)
Lemma digits_leading fuel n :
  (0 < fuel)%nat -> 0 <= n < radix ^ Z.of_nat fuel -> exists d ds, digits fuel radix n = d :: ds /\ (d = 0 -> ds = []).
Proof.
  revert n; induction fuel as [|fuel IH]; intros n Hf Hn; [lia|].
  simpl. destruct (Z.ltb_spec n radix) as [?|Hge]; [by exists n, []|].
  rewrite Nat2Z.inj_succ, Z.pow_succ_r in Hn by lia.
  assert (1 <= n / radix) by (apply Z.div_le_lower_bound; lia).
  assert (0 <= n / radix < radix ^ Z.of_nat fuel) as Hq by (split; [lia|apply Z.div_lt_upper_bound; lia]).
  assert (0 < fuel)%nat as Hf' by (destruct fuel; [change (Z.of_nat 0) with 0 in Hq; rewrite Z.pow_0_r in Hq; lia|lia]).
  destruct (IH (n / radix) Hf' Hq) as (d & ds & E & Hd).
  exists d, (ds ++ [n mod radix]). rewrite E. split; [done|]. intros ->. specialize (Hd eq_refl) as ->. exfalso.
  assert (digits_value radix (digits fuel radix (n / radix)) = n / radix) as Hv
    by (by apply digits_value_digits).
  rewrite E in Hv. cbn in Hv. lia.
Qed.

Lemma fuel_enough n : 0 <= n -> 0 <= n < radix ^ Z.of_nat (S (Z.to_nat (Z.log2 n))).
Proof.
  intros Hn. split; [done|]. pose proof (Z.log2_nonneg n).
  replace (Z.of_nat (S (Z.to_nat (Z.log2 n)))) with (Z.succ (Z.log2 n)) by lia.
  apply Z.lt_le_trans with (2 ^ Z.succ (Z.log2 n)); [|apply Z.pow_le_mono_l; lia].
  destruct (Z.eq_dec n 0) as [->|]; [done|]. apply Z.log2_spec. lia.
Qed.

Lemma to_digit_char d : 0 <= d < radix -> to_digit radix (digit_char d) = Some d.
Proof.
  intros Hd. unfold digit_char, to_digit. destruct (Z.ltb_spec d 10).
  - replace ((48 <=? 48 + d) && (48 + d <=? 57)) with true by (symmetry; apply andb_true_iff; lia).
    replace (48 + d - 48) with d by lia. rewrite (proj2 (Z.ltb_lt _ _)); done || lia.
  - replace ((48 <=? 97 + (d - 10)) && (97 + (d - 10) <=? 57)) with false by (symmetry; apply andb_false_iff; lia).
    replace ((97 <=? 97 + (d - 10)) && (97 + (d - 10) <=? 122)) with true by (symmetry; apply andb_true_iff; lia).
    replace (97 + (d - 10) - 97 + 10) with d by lia. rewrite (proj2 (Z.ltb_lt _ _)); done || lia.
Qed.

Lemma print_number_chars n : 0 <= n -> Forall (fun c => is_digit_char c = true) (print_number radix n).
Proof.
  intros Hn. apply Forall_fmap. eapply Forall_impl; [by apply digits_range|].
  simpl. intros d Hd. unfold compose, is_digit_char, digit_char. destruct (Z.ltb_spec d 10); lia.
Qed.

Lemma print_number_nonempty n : 0 <= n -> print_number radix n <> [].
Proof.
  intros Hn E. destruct (digits_leading _ _ (Nat.lt_0_succ _) (fuel_enough n Hn)) as (d & ds & E' & _).
  unfold print_number in E. rewrite E' in E. done.
Qed.

Lemma foldl_digits_mono acc ds :
  Forall (fun d => 0 <= d < radix) ds -> 0 <= acc -> acc <= foldl (fun acc d => acc * radix + d) acc ds.
Proof.
  intros Hds; revert acc; induction Hds as [|d ds Hd Hds IH]; intros acc Ha; simpl; [lia|].
  specialize (IH (acc * radix + d) ltac:(nia)). nia.
Qed.

(** The digits that were read so far, then those that follow. *)
Lemma parse_digits_spec limit acc ds :
  0 <= acc -> Forall (fun d => 0 <= d < radix) ds ->
  foldl (fun acc d => acc * radix + d) acc ds <= limit ->
  parse_digits radix limit acc (digit_char <$> ds) = Some (foldl (fun acc d => acc * radix + d) acc ds).
Proof.
  intros Hacc Hds. revert acc Hacc. induction Hds as [|d ds Hd Hds IH]; intros acc Hacc Hle; [done|].
  cbn [fmap list_fmap parse_digits foldl] in *. rewrite to_digit_char by done.
  assert (acc * radix + d <= foldl (fun acc d => acc * radix + d) (acc * radix + d) ds) as Hmono
    by (apply foldl_digits_mono; [done|nia]).
  rewrite (proj2 (Z.leb_le _ _)) by lia. apply IH; [nia|done].
Qed.

End Digits.

(** A number that is written and read again is the number. *)
Lemma parse_print_unsigned limit n : 0 <= n <= limit -> parse_unsigned limit (print_number 10 n) = Some n.
Proof.
  intros Hn. unfold parse_unsigned.
  assert (print_number 10 n <> []) as Hne by (apply print_number_nonempty; lia).
  pose proof (print_number_chars 10 ltac:(lia) n ltac:(lia)) as Hc.
  assert (parse_digits 10 limit 0 (print_number 10 n) = Some n) as Hp.
  { assert (digits_value 10 (digits (S (Z.to_nat (Z.log2 n))) 10 n) = n) as E
      by (apply digits_value_digits; [lia|apply fuel_enough; lia]).
    unfold print_number. rewrite parse_digits_spec; [|lia|lia|apply digits_range; lia|]; unfold digits_value in E; rewrite E; [done|lia]. }
  destruct (print_number 10 n) as [|c s] eqn:E; [done|].
  apply Forall_cons in Hc as [Hc _].
  assert (c <> 43) by (intros ->; done).
  rewrite (proj2 (Z.eqb_neq _ _)) by done. destruct s; done.
Qed.

(** ** Splitting and trimming *)

Lemma split_once_app c l k : c ∉ l -> split_once c (l ++ c :: k) = Some (l, k).
Proof.
  induction l as [|x l IH]; simpl; [by rewrite Z.eqb_refl|]. rewrite not_elem_of_cons. intros [Hx Hl].
  rewrite (proj2 (Z.eqb_neq _ _)), IH by done. done.
Qed.

Lemma split_once_None c l : c ∉ l -> split_once c l = None.
Proof.
  induction l as [|x l IH]; [done|]. rewrite not_elem_of_cons. intros [Hx Hl]. simpl.
  rewrite (proj2 (Z.eqb_neq _ _)), IH by done. done.
Qed.

Lemma rsplit_once_None c l : c ∉ l -> rsplit_once c l = None.
Proof.
  induction l as [|x l IH]; [done|]. rewrite not_elem_of_cons. intros [Hx Hl]. simpl.
  rewrite IH, (proj2 (Z.eqb_neq _ _)) by done. done.
Qed.

Lemma rsplit_once_app c l k : c ∉ k -> rsplit_once c (l ++ c :: k) = Some (l, k).
Proof.
  intros Hk. induction l as [|x l IH]; simpl; [by rewrite rsplit_once_None, Z.eqb_refl|]. rewrite IH. done.
Qed.

Lemma strip_prefix_app l k : strip_prefix l (l ++ k) = Some k.
Proof. induction l as [|x l IH]; [done|]. simpl. rewrite Z.eqb_refl. done. Qed.

(** Characters of a class do not contain others. *)
Lemma not_in_class (P : Z -> bool) (s : str) c : Forall (fun c => P c = true) s -> P c = false -> c ∉ s.
Proof. rewrite Forall_forall. intros Hs Hc Hin. rewrite Hs in Hc; done. Qed.

(** The last character is not white space. *)
Definition solid_end (s : str) : Prop := exists l c, s = l ++ [c] /\ is_whitespace c = false.

Lemma solid_end_app l s : solid_end s -> solid_end (l ++ s).
Proof. intros (k & c & -> & Hc). exists (l ++ k), c. by rewrite app_assoc. Qed.

Lemma solid_end_class (P : Z -> bool) s :
  s <> [] -> Forall (fun c => P c = true) s -> (forall c, P c = true -> is_whitespace c = false) -> solid_end s.
Proof.
  intros Hne Hs HP. destruct s as [|c l] using rev_ind; [done|].
  apply Forall_app in Hs as [_ Hc]. apply Forall_cons in Hc as [Hc _]. exists l, c. eauto.
Qed.

Lemma trim_end_solid s : solid_end s -> trim_end s = s.
Proof.
  intros (l & c & -> & Hc). unfold trim_end. rewrite reverse_snoc. cbn [trim_start].
  rewrite Hc, reverse_cons, reverse_involutive. done.
Qed.

Lemma trim_end_space s c : is_whitespace c = true -> trim_end (s ++ [c]) = trim_end s.
Proof. intros Hc. unfold trim_end. rewrite reverse_snoc. cbn [trim_start]. by rewrite Hc. Qed.

Lemma trim_solid c s : is_whitespace c = false -> solid_end (c :: s) -> trim (c :: s) = c :: s.
Proof. intros Hc Hs. unfold trim. cbn [trim_start]. rewrite Hc. by apply trim_end_solid. Qed.

(** ** Lines *)

Lemma split_inclusive_line l s : NEWLINE ∉ l -> split_inclusive (l ++ NEWLINE :: s) = (l, true) :: split_inclusive s.
Proof.
  induction l as [|c l IH]; [done|]. rewrite not_elem_of_cons. intros [Hc Hl]. cbn [app split_inclusive].
  rewrite (proj2 (Z.eqb_neq _ _)), IH by done. done.
Qed.

Lemma split_inclusive_last c l : NEWLINE ∉ c :: l -> split_inclusive (c :: l) = [(c :: l, false)].
Proof.
  revert c; induction l as [|x l IH]; intros c Hin; apply not_elem_of_cons in Hin as [Hc Hl]; simpl.
  - rewrite (proj2 (Z.eqb_neq _ _)) by done. done.
  - specialize (IH x Hl). simpl in IH. rewrite IH, (proj2 (Z.eqb_neq _ _)) by done. done.
Qed.

Lemma strip_line_solid l ended : solid_end l -> strip_line (l, ended) = l.
Proof.
  intros (k & c & -> & Hc). unfold strip_line, ends_with. rewrite reverse_snoc. cbn [starts_with].
  rewrite (proj2 (Z.eqb_neq c _)); [by rewrite andb_false_r|]. intros ->. done.
Qed.

(** Lines without newlines inside, joined by newlines, are the lines of the text. *)
Lemma lines_join (ls : list str) l :
  Forall (fun l => (NEWLINE ∉ l) /\ solid_end l) ls -> NEWLINE ∉ l -> solid_end l ->
  lines (concat ((fun l => l ++ [NEWLINE]) <$> ls) ++ l) = ls ++ [l].
Proof.
  intros Hls Hn Hl. unfold lines. induction Hls as [|k ls [Hk Hke] Hls IH].
  - simpl. destruct l as [|c l]; [by destruct Hl as (k & c & ? & _); destruct k|].
    rewrite split_inclusive_last by done. rewrite fmap_cons, strip_line_solid by done. done.
  - rewrite fmap_cons. cbn [concat]. rewrite <- !app_assoc. cbn [app].
    rewrite split_inclusive_line, fmap_cons, strip_line_solid, IH by done. done.
Qed.
