(* ===== verification/IpText.v ===== *)
(** * IP addresses of the standard library

    [std::net::IpAddr] with its octets, its text ([Display]) and the parser of
    [FromStr]; the text of every address is read back as the address. *)

From S2P Require Import Prelude Bytes Text.
From Stdlib Require Import ZifyBool Strings.Byte.
#[local] Open Scope Z_scope.

Inductive IpAddr : Type := V4 (octets : list byte) | V6 (octets : list byte).

#[export] Instance IpAddr_eq_dec : EqDecision IpAddr.
Proof. solve_decision. Defined.

Definition ip_valid (a : IpAddr) : Prop :=
  match a with V4 o => length o = 4%nat | V6 o => length o = 16%nat end.

(** [Ipv6Addr::segments] and the conversion from segments. *)
Fixpoint segments (o : list byte) : list Z :=
  match o with
  | a :: b :: o => be_decode [a; b] :: segments o
  | _ => []
  end.

Definition octets_of_segments (s : list Z) : list byte := concat (be_encode 2 <$> s).

Definition COLON : Z := 58.
Definition FULL_STOP : Z := 46.

(** ** Writing *)

Definition print_v4 (o : list byte) : str :=
  match o with
  | a :: o => print_number 10 (byte_to_Z a) ++ concat ((fun b => FULL_STOP :: print_number 10 (byte_to_Z b)) <$> o)
  | [] => []
  end.

Record Span : Type := mkSpan { start : nat; span_len : nat }.

(** The longest run of zero segments, the first of that length. *)
Fixpoint longest_zeroes (i : nat) (current longest : Span) (s : list Z) : Span :=
  match s with
  | [] => longest
  | x :: s =>
      if x =? 0 then
        let current := mkSpan (if bool_decide (span_len current = 0%nat) then i else start current) (S (span_len current)) in
        longest_zeroes (S i) current (if bool_decide (span_len longest < span_len current)%nat then current else longest) s
      else longest_zeroes (S i) (mkSpan 0 0) longest s
  end.

Definition fmt_rest (chunk : list Z) : str := concat ((fun s => COLON :: print_number 16 s) <$> chunk).

Definition fmt_subslice (chunk : list Z) : str :=
  match chunk with
  | first :: tail => print_number 16 first ++ fmt_rest tail
  | [] => []
  end.

(** [to_ipv4_mapped]: addresses in [::ffff:0:0/96]. *)
Definition to_ipv4_mapped (o : list byte) : option (list byte) :=
  if bool_decide (take 12 o = replicate 10 x00 ++ [xff; xff]) then Some (drop 12 o) else None.

Definition print_segments (s : list Z) : str :=
  let zeroes := longest_zeroes 0 (mkSpan 0 0) (mkSpan 0 0) s in
  if bool_decide (1 < span_len zeroes)%nat then
    fmt_subslice (take (start zeroes) s) ++ [COLON; COLON] ++ fmt_subslice (drop (start zeroes + span_len zeroes) s)
  else fmt_subslice s.

Definition print_v6 (o : list byte) : str :=
  match to_ipv4_mapped o with
  | Some ipv4 => [COLON; COLON] ++ print_number 16 0xffff ++ [COLON] ++ print_v4 ipv4
  | None => print_segments (segments o)
  end.

Definition print_ip (a : IpAddr) : str := match a with V4 o => print_v4 o | V6 o => print_v6 o end.

(** ** Reading *)

(** The digits at the start of the input: their count, their value and what
    follows. Fails when there are too many or the value is too large. *)
Fixpoint read_digits (radix limit : Z) (max_digits count : nat) (acc : Z) (p : str) : option (nat * Z * str) :=
  match p with
  | [] => Some (count, acc, p)
  | c :: p' =>
      match to_digit radix c with
      | Some d =>
          if (acc * radix + d <=? limit) && bool_decide (S count <= max_digits)%nat
          then read_digits radix limit max_digits (S count) (acc * radix + d) p'
          else None
      | None => Some (count, acc, p)
      end
  end.

Definition read_number (radix limit : Z) (max_digits : nat) (allow_zero_prefix : bool) (p : str) : option (Z * str) :=
  match read_digits radix limit max_digits 0 0 p with
  | Some (digit_count, result, p') =>
      if bool_decide (digit_count = 0%nat) then None
      else if negb allow_zero_prefix && starts_with 48 p && bool_decide (1 < digit_count)%nat then None
      else Some (result, p')
  | None => None
  end.

Definition read_separator {A} (sep : Z) (i : nat) (inner : str -> option (A * str)) (p : str) : option (A * str) :=
  match i with
  | O => inner p
  | S _ => match p with c :: p => if c =? sep then inner p else None | [] => None end
  end.

Fixpoint read_octets (n i : nat) (p : str) : option (list byte * str) :=
  match n with
  | O => Some ([], p)
  | S n =>
      match read_separator FULL_STOP i (read_number 10 u8_max 3 false) p with
      | Some (octet, p) =>
          match read_octets n (S i) p with
          | Some (octets, p) => Some (byte_of_Z octet :: octets, p)
          | None => None
          end
      | None => None
      end
  end.

Definition read_ipv4_addr (p : str) : option (list byte * str) := read_octets 4 0 p.

(** Up to [limit] groups from the [i]th on, of which [n] are left; the flag
    says that the last two came from an embedded IPv4 address. *)
Fixpoint read_groups (n i limit : nat) (p : str) : list Z * bool * str :=
  match n with
  | O => ([], false, p)
  | S n =>
      match (if bool_decide (S i < limit)%nat then read_separator COLON i read_ipv4_addr p else None) with
      | Some (v4_addr, p) => (segments v4_addr, true, p)
      | None =>
          match read_separator COLON i (read_number 16 (2 ^ 16 - 1) 4 true) p with
          | Some (g, p) => let '(groups, ipv4, p) := read_groups n (S i) limit p in (g :: groups, ipv4, p)
          | None => ([], false, p)
          end
      end
  end.

Definition read_ipv6_addr (p : str) : option (list byte * str) :=
  let '(head, head_ipv4, p) := read_groups 8 0 8 p in
  if bool_decide (length head = 8%nat) then Some (octets_of_segments head, p)
  else if head_ipv4 then None
  else
    match p with
    | c1 :: c2 :: p =>
        if (c1 =? COLON) && (c2 =? COLON) then
          let limit := (8 - (length head + 1))%nat in
          let '(tail, _, p) := read_groups limit 0 limit p in
          Some (octets_of_segments (head ++ replicate (8 - length tail - length head) 0 ++ tail), p)
        else None
    | _ => None
    end.

Definition read_ip_addr (p : str) : option (IpAddr * str) :=
  match read_ipv4_addr p with
  | Some (o, p) => Some (V4 o, p)
  | None => match read_ipv6_addr p with Some (o, p) => Some (V6 o, p) | None => None end
  end.

(** All of the input has to be used. *)
Definition parse_with {A} (inner : str -> option (A * str)) (s : str) : option A :=
  match inner s with Some (a, []) => Some a | _ => None end.

Definition ipv6_from_str (s : str) : option IpAddr := V6 <$> parse_with read_ipv6_addr s.
Definition ip_from_str (s : str) : option IpAddr := parse_with read_ip_addr s.

(** ** Facts *)

(** The input does not go on with a digit. *)
Definition stops (radix : Z) (p : str) : Prop := match p with c :: _ => to_digit radix c = None | [] => True end.

Lemma segments_be_encode (s : list Z) : Forall is_u16 s -> segments (octets_of_segments s) = s.
Proof.
  induction 1 as [|x s Hx Hs IH]; [done|]. unfold octets_of_segments; rewrite fmap_cons; cbn [concat].
  fold (octets_of_segments s).
  assert (be_encode 2 x = [byte_of_Z (x / 256); byte_of_Z x]) as E by done. rewrite E. cbn [app segments].
  rewrite <- E, IH, be_decode_encode. change (256 ^ Z.of_nat 2) with (2 ^ 16). rewrite Z.mod_small by done. done.
Qed.

Lemma octets_of_segments_segments o n : length o = (2 * n)%nat -> octets_of_segments (segments o) = o.
Proof.
  revert o; induction n as [|n IH]; intros [|a [|b o]] Hl; try (simpl in Hl; lia); [done|].
  cbn [segments]. unfold octets_of_segments; rewrite fmap_cons; cbn [concat]. fold (octets_of_segments (segments o)).
  rewrite IH by (simpl in Hl; lia). 
  change (a :: b :: o) with ([a; b] ++ o). f_equal. apply (be_encode_decode [a; b]).
Qed.

Lemma segments_u16 o n : length o = (2 * n)%nat -> Forall is_u16 (segments o) /\ length (segments o) = n.
Proof.
  revert o; induction n as [|n IH]; intros [|a [|b o]] Hl; try (simpl in Hl; lia); [done|].
  cbn [segments length]. destruct (IH o) as [Hf ->]; [simpl in Hl; lia|]. split; [|done]. constructor; [|done].
  pose proof (be_decode_range [a; b]). unfold is_u16. change (256 ^ len [a; b]) with (2 ^ 16) in *. lia.
Qed.

Section Numbers.
Context (radix limit : Z) (max_digits : nat) (Hradix : 2 <= radix <= 16).

Lemma read_digits_spec ds count acc p :
  0 <= acc -> Forall (fun d => 0 <= d < radix) ds ->
  foldl (fun acc d => acc * radix + d) acc ds <= limit -> (count + length ds <= max_digits)%nat -> stops radix p ->
  read_digits radix limit max_digits count acc ((digit_char <$> ds) ++ p) =
    Some ((count + length ds)%nat, foldl (fun acc d => acc * radix + d) acc ds, p).
Proof.
  intros Hacc Hds. revert count acc Hacc. induction Hds as [|d ds Hd Hds IH]; intros count acc Hacc Hle Hc Hp.
  - rewrite Nat.add_0_r. destruct p; simpl in *; [done|]. rewrite Hp. done.
  - rewrite fmap_cons. cbn [app read_digits foldl length] in *. rewrite to_digit_char by done.
    assert (acc * radix + d <= foldl (fun acc d => acc * radix + d) (acc * radix + d) ds) as Hmono
      by (apply foldl_digits_mono; [done|done|nia]).
    rewrite (proj2 (Z.leb_le _ _)), bool_decide_true by lia. cbn [andb].
    rewrite IH; [|nia|done|lia|done]. do 2 f_equal. f_equal. lia.
Qed.

(** A written number is read back, up to what follows it. *)
Lemma read_print_number zero_prefix n p :
  0 <= n <= limit -> n < radix ^ Z.of_nat max_digits -> (0 < max_digits)%nat -> stops radix p ->
  read_number radix limit max_digits zero_prefix (print_number radix n ++ p) = Some (n, p).
Proof.
  intros Hn Hd Hm Hp. unfold read_number, print_number. set (fuel := S (Z.to_nat (Z.log2 n))).
  assert (0 <= n < radix ^ Z.of_nat fuel) as Hfuel by (apply fuel_enough; lia).
  pose proof (digits_value_digits radix Hradix fuel n Hfuel) as Hv. unfold digits_value in Hv.
  pose proof (length_digits radix Hradix fuel n max_digits (conj (proj1 Hn) Hd) Hm) as Hl.
  destruct (digits_leading radix Hradix fuel n (Nat.lt_0_succ _) Hfuel) as (d & ds & E & Hlead).
  rewrite read_digits_spec; [|lia|apply digits_range; lia|lia|lia|done]. rewrite Hv. cbn [Nat.add].
  rewrite E in Hl |- *. cbn [length fmap list_fmap app starts_with] in *. rewrite bool_decide_false by lia.
  assert (negb zero_prefix && (digit_char d =? 48) && bool_decide (1 < S (length ds))%nat = false) as ->; [|done].
  apply andb_false_iff. destruct (Z.eqb_spec (digit_char d) 48) as [Hz|Hz]; [|left; by rewrite andb_false_r].
  right. rewrite Hlead; [done|].
  pose proof (digits_range radix Hradix fuel n (proj1 Hn)) as Hr. rewrite E in Hr. apply Forall_cons in Hr as [Hr _].
  unfold digit_char in Hz. destruct (Z.ltb_spec d 10); lia.
Qed.

(** What is left is a suffix, and something was read. *)
Lemma read_digits_suffix count acc p c v p' :
  read_digits radix limit max_digits count acc p = Some (c, v, p') -> exists l, p = l ++ p'.
Proof.
  revert count acc; induction p as [|x p IH]; intros count acc E; simpl in E; [simplify_eq; by exists []|].
  destruct (to_digit radix x); [|simplify_eq; by exists []].
  destruct (_ && _); [|done]. apply IH in E as [l ->]. by exists (x :: l).
Qed.

Lemma read_number_suffix zero_prefix p v p' :
  read_number radix limit max_digits zero_prefix p = Some (v, p') -> exists l, p = l ++ p'.
Proof.
  unfold read_number. destruct (read_digits _ _ _ _ _ _) as [[[c r] q]|] eqn:E; [|done].
  repeat case_match; intros; simplify_eq; by eapply read_digits_suffix.
Qed.

Lemma read_number_stops zero_prefix p : stops radix p -> read_number radix limit max_digits zero_prefix p = None.
Proof.
  unfold read_number. destruct p as [|c p]; [done|]. simpl. intros ->. done.
Qed.

End Numbers.

Lemma to_digit_colon radix : radix <= 16 -> to_digit radix COLON = None.
Proof. intros. unfold to_digit, COLON. simpl. rewrite Z.ltb_irrefl. done. Qed.

Lemma to_digit_full_stop radix : radix <= 16 -> to_digit radix FULL_STOP = None.
Proof. intros. unfold to_digit, FULL_STOP. simpl. rewrite Z.ltb_irrefl. done. Qed.

(** ** IPv4 *)

Lemma read_octet b p :
  stops 10 p -> read_number 10 u8_max 3 false (print_number 10 (byte_to_Z b) ++ p) = Some (byte_to_Z b, p).
Proof.
  intros Hp. pose proof (byte_to_Z_range b). apply read_print_number; [lia|unfold u8_max; lia| |lia|done].
  change (10 ^ Z.of_nat 3) with 1000. lia.
Qed.

Lemma read_octets_S n i p :
  read_octets (S n) i p =
    match read_separator FULL_STOP i (read_number 10 u8_max 3 false) p with
    | Some (octet, p) =>
        match read_octets n (S i) p with
        | Some (octets, p) => Some (byte_of_Z octet :: octets, p)
        | None => None
        end
    | None => None
    end.
Proof. done. Qed.

Lemma read_octets_rest o i p :
  stops 10 p -> (0 < i)%nat ->
  read_octets (length o) i (concat ((fun b => FULL_STOP :: print_number 10 (byte_to_Z b)) <$> o) ++ p) = Some (o, p).
Proof.
  intros Hp. revert i; induction o as [|b o IH]; intros i Hi; [done|].
  rewrite fmap_cons. cbn [concat length read_octets]. destruct i as [|i]; [lia|]. cbn [app read_separator].
  rewrite Z.eqb_refl, <- app_assoc, read_octet, IH; [|lia|].
  - rewrite byte_of_to_Z. done.
  - destruct o as [|b' o]; [done|]. rewrite fmap_cons. cbn [concat app stops]. by apply to_digit_full_stop.
Qed.

Lemma read_print_v4 o p : length o = 4%nat -> stops 10 p -> read_ipv4_addr (print_v4 o ++ p) = Some (o, p).
Proof.
  intros Hl Hp. destruct o as [|b o]; [done|]. unfold read_ipv4_addr, print_v4. rewrite <- app_assoc.
  simpl in Hl. rewrite read_octets_S. cbn [read_separator]. rewrite read_octet.
  - replace 3%nat with (length o) by lia. rewrite read_octets_rest, byte_of_to_Z by (done || lia). done.
  - destruct o as [|b' o]; [done|]. rewrite fmap_cons. cbn [concat app stops]. by apply to_digit_full_stop.
Qed.

(** Without a full stop there is no IPv4 address. *)
Lemma read_ipv4_no_stop p : FULL_STOP ∉ p -> read_ipv4_addr p = None.
Proof.
  intros Hp. unfold read_ipv4_addr. cbn [read_octets read_separator].
  destruct (read_number _ _ _ _ p) as [[v q]|] eqn:E; [|done].
  apply read_number_suffix in E as [l ->].
  assert (FULL_STOP ∉ q) as Hq by (intros ?; apply Hp, elem_of_app; by right).
  destruct q as [|c q]; [done|]. apply not_elem_of_cons in Hq as [Hc _].
  rewrite (proj2 (Z.eqb_neq _ _)) by done. done.
Qed.

Lemma read_ipv4_stops p : stops 10 p -> read_ipv4_addr p = None.
Proof. intros Hp. unfold read_ipv4_addr. cbn [read_octets read_separator]. rewrite read_number_stops; done. Qed.

(** ** IPv6 *)

(** Groups end at the end of the input or at a double colon. *)
Definition group_end (p : str) : Prop := p = [] \/ exists q, p = COLON :: COLON :: q.

Lemma group_end_stops p : group_end p -> stops 16 p.
Proof. intros [->|[q ->]]; [done|]. by apply to_digit_colon. Qed.

Lemma read_group g p : is_u16 g -> stops 16 p -> read_number 16 (2 ^ 16 - 1) 4 true (print_number 16 g ++ p) = Some (g, p).
Proof.
  intros Hg Hp. unfold is_u16 in Hg. apply read_print_number; [lia|lia| |lia|done]. change (16 ^ Z.of_nat 4) with (2 ^ 16). lia.
Qed.

Lemma fmt_rest_stops gs p : stops 16 p -> stops 16 (fmt_rest gs ++ p).
Proof. destruct gs; [done|]. intros _. unfold fmt_rest. rewrite fmap_cons. cbn [concat app stops]. by apply to_digit_colon. Qed.

Lemma read_separator_no_stop i p : FULL_STOP ∉ p -> read_separator COLON i read_ipv4_addr p = None.
Proof.
  intros Hp. destruct i; simpl; [by apply read_ipv4_no_stop|]. destruct p as [|c p]; [done|].
  apply not_elem_of_cons in Hp as [_ Hp]. destruct (c =? COLON); [by apply read_ipv4_no_stop|done].
Qed.

Lemma read_groups_S n i limit p :
  read_groups (S n) i limit p =
    match (if bool_decide (S i < limit)%nat then read_separator COLON i read_ipv4_addr p else None) with
    | Some (v4_addr, p) => (segments v4_addr, true, p)
    | None =>
        match read_separator COLON i (read_number 16 (2 ^ 16 - 1) 4 true) p with
        | Some (g, p) => let '(groups, ipv4, p) := read_groups n (S i) limit p in (g :: groups, ipv4, p)
        | None => ([], false, p)
        end
    end.
Proof. done. Qed.

Lemma read_groups_end n i limit p : FULL_STOP ∉ p -> group_end p -> (0 < i)%nat -> read_groups n i limit p = ([], false, p).
Proof.
  intros Hs Hp Hi. destruct n as [|n]; [done|]. cbn [read_groups]. rewrite read_separator_no_stop by done.
  destruct (bool_decide _), i as [|i]; try lia; (destruct Hp as [->|[q ->]]; [done|]); cbn [read_separator]; rewrite Z.eqb_refl, read_number_stops; done.
Qed.

Lemma read_groups_rest gs n i limit p :
  Forall is_u16 gs -> (length gs <= n)%nat -> (0 < i)%nat -> group_end p -> FULL_STOP ∉ fmt_rest gs ++ p ->
  read_groups n i limit (fmt_rest gs ++ p) = (gs, false, p).
Proof.
  intros Hgs. revert n i; induction Hgs as [|g gs Hg Hgs IH]; intros n i Hn Hi Hp Hs; [by apply read_groups_end|].
  destruct n as [|n]; [simpl in Hn; lia|]. cbn [read_groups]. rewrite read_separator_no_stop by done.
  unfold fmt_rest in Hs |- *; rewrite fmap_cons in Hs |- *; cbn [concat] in Hs |- *. fold (fmt_rest gs) in Hs |- *.
  rewrite <- app_assoc in Hs |- *. destruct i as [|i]; [lia|]. cbn [app read_separator].
  rewrite Z.eqb_refl, read_group by (try done; apply fmt_rest_stops; by apply group_end_stops).
  rewrite IH; [by destruct (bool_decide _)|simpl in Hn; lia|lia|done|].
  intros Hin. apply Hs. cbn [app]. apply elem_of_cons; right. apply elem_of_app; by right.
Qed.

Lemma read_groups_print gs n p :
  Forall is_u16 gs -> (length gs <= n)%nat -> group_end p -> FULL_STOP ∉ fmt_subslice gs ++ p ->
  read_groups n 0 n (fmt_subslice gs ++ p) = (gs, false, p).
Proof.
  intros Hgs Hn Hp Hs. destruct n as [|n]; [destruct gs; [done|simpl in Hn; lia]|].
  cbn [read_groups]. rewrite read_separator_no_stop by done. destruct Hgs as [|g gs Hg Hgs].
  - cbn [fmt_subslice app read_separator]. rewrite read_number_stops by (by apply group_end_stops). by destruct (bool_decide _).
  - cbn [fmt_subslice read_separator] in *. rewrite <- app_assoc in Hs |- *.
    rewrite read_group by (try done; apply fmt_rest_stops; by apply group_end_stops).
    rewrite read_groups_rest; [by destruct (bool_decide _)|done|simpl in Hn; lia|lia|done|].
    intros Hin. apply Hs, elem_of_app. by right.
Qed.

(** The characters of groups: digits and colons. *)
Lemma fmt_subslice_chars gs : Forall is_u16 gs -> Forall (fun c => is_digit_char c || (c =? COLON) = true) (fmt_subslice gs).
Proof.
  assert (forall g, is_u16 g -> Forall (fun c => is_digit_char c || (c =? COLON) = true) (print_number 16 g)) as Hn.
  { intros g Hg. eapply Forall_impl; [apply print_number_chars; [lia|unfold is_u16 in Hg; lia]|]. intros c ->. done. }
  intros Hgs. destruct Hgs as [|g gs Hg Hgs]; [done|]. cbn [fmt_subslice]. apply Forall_app; split; [by apply Hn|].
  induction Hgs as [|g' gs Hg' Hgs IH]; [done|]. unfold fmt_rest; rewrite fmap_cons; cbn [concat].
  apply Forall_app; split; [|done]. constructor; [done|]. by apply Hn.
Qed.

Lemma fmt_subslice_no_stop gs : Forall is_u16 gs -> FULL_STOP ∉ fmt_subslice gs.
Proof.
  intros Hgs%fmt_subslice_chars Hin. rewrite Forall_forall in Hgs. apply Hgs in Hin. done.
Qed.

(** The run that the scan finds is a run of zeroes. *)
Definition zero_span (s : list Z) (z : Span) : Prop :=
  (start z + span_len z <= length s)%nat /\ forall k, (start z <= k < start z + span_len z)%nat -> s !! k = Some 0.

Lemma longest_zeroes_spec s i current longest :
  zero_span (take i s) longest -> zero_span (take i s) current ->
  (span_len current = 0 \/ start current + span_len current = i)%nat -> (i <= length s)%nat ->
  zero_span s (longest_zeroes i current longest (drop i s)).
Proof.
  remember (length s - i)%nat as n eqn:Hn. revert i current longest Hn. induction n as [|n IH]; intros i current longest Hn Hl Hc Hend Hi.
  - rewrite drop_ge by lia. rewrite take_ge in Hl by lia. done.
  - destruct (lookup_lt_is_Some_2 s i) as [x Hx]; [lia|]. rewrite (drop_S _ _ _ Hx). cbn [longest_zeroes].
    assert (forall z, zero_span (take i s) z -> zero_span (take (S i) s) z) as Hmono.
    { intros z [Hz1 Hz2]. rewrite length_take in Hz1. split; [rewrite length_take; lia|].
      intros k Hk. specialize (Hz2 k Hk). rewrite lookup_take_lt in Hz2 |- * by lia. done. }
    destruct (Z.eqb_spec x 0) as [->|Hx0].
    + set (c := mkSpan (if bool_decide (span_len current = 0%nat) then i else start current) (S (span_len current))).
      assert (zero_span (take (S i) s) c /\ start c + span_len c = S i)%nat as [Hc' Hend'].
      { destruct Hc as [Hc1 Hc2]. rewrite length_take in Hc1. subst c. unfold zero_span. rewrite length_take.
        case_bool_decide; cbn [start span_len]; split_and!; try lia; intros k Hk; rewrite lookup_take_lt by lia;
          (destruct (decide (k = i)) as [->|]; [done|]); rewrite <- (Hc2 k) by lia; rewrite lookup_take_lt; done || lia. }
      apply IH; [lia| |done|by right|lia]. case_bool_decide; [done|by apply Hmono].
    + apply IH; [lia|by apply Hmono| |by left|lia]. split; cbn [start span_len]; [lia|intros; lia].
Qed.

Lemma zero_span_split s z :
  zero_span s z -> s = take (start z) s ++ replicate (span_len z) 0 ++ drop (start z + span_len z) s.
Proof.
  intros [Hl Hz]. rewrite <- (take_drop (start z) s) at 1. f_equal.
  rewrite <- (take_drop (span_len z) (drop (start z) s)), drop_drop. f_equal.
  apply list_eq_same_length with (span_len z); [by rewrite length_replicate|rewrite length_take, length_drop; lia|].
  intros k x y Hk Hx Hy. rewrite lookup_take_lt, lookup_drop, Hz in Hx by lia. apply lookup_replicate in Hy as [-> _]. congruence.
Qed.

Lemma read_print_segments s :
  Forall is_u16 s -> length s = 8%nat -> read_ipv6_addr (print_segments s) = Some (octets_of_segments s, []).
Proof.
  intros Hs Hl. unfold print_segments.
  assert (zero_span s (longest_zeroes 0 (mkSpan 0 0) (mkSpan 0 0) s)) as Hz.
  { apply (longest_zeroes_spec s 0); [..|by left|lia]; (split; cbn [start span_len]; [simpl; lia|intros; lia]). }
  set (z := longest_zeroes 0 (mkSpan 0 0) (mkSpan 0 0) s) in *. unfold read_ipv6_addr. case_bool_decide as Hlong.
  - pose proof (zero_span_split s z Hz) as Hsplit. destruct Hz as [Hz _].
    set (h := take (start z) s) in *. set (t := drop (start z + span_len z) s) in *.
    assert (Forall is_u16 h) as Hh by (by apply Forall_take). assert (Forall is_u16 t) as Ht by (by apply Forall_drop).
    assert (length h = start z) as Hlh by (unfold h; rewrite length_take; lia).
    assert (length t = 8 - (start z + span_len z))%nat as Hlt by (unfold t; rewrite length_drop; lia).
    rewrite read_groups_print; [|done|lia|right; eauto|].
    2: { rewrite !elem_of_app. intros [Hin|[Hin|Hin]]; [exact (fmt_subslice_no_stop h Hh Hin)| |exact (fmt_subslice_no_stop t Ht Hin)].
         apply list_elem_of_In in Hin. simpl in Hin. unfold FULL_STOP, COLON in Hin. lia. }
    rewrite bool_decide_false by lia. cbn [app]. cbn [Z.eqb andb COLON Pos.eqb]. cbv zeta.
    rewrite <- (app_nil_r (fmt_subslice t)), read_groups_print; [|done|lia|by left|rewrite app_nil_r; by apply fmt_subslice_no_stop].
    do 2 f_equal. f_equal. etrans; [|symmetry; exact Hsplit]. do 3 f_equal. lia.
  - rewrite <- (app_nil_r (fmt_subslice s)), read_groups_print; [|done|lia|by left|rewrite app_nil_r; by apply fmt_subslice_no_stop].
    rewrite bool_decide_true by done. done.
Qed.

Lemma read_print_mapped o :
  length o = 4%nat ->
  read_ipv6_addr ([COLON; COLON] ++ print_number 16 0xffff ++ [COLON] ++ print_v4 o) =
    Some (replicate 10 x00 ++ [xff; xff] ++ o, []).
Proof.
  intros Hl. unfold read_ipv6_addr. cbn [app].
  rewrite read_groups_S. cbn [read_separator]. rewrite read_ipv4_stops, read_number_stops by done.
  rewrite bool_decide_true by lia. cbn [length]. rewrite bool_decide_false by lia. cbn [Z.eqb Pos.eqb COLON andb Nat.sub Nat.add].
  rewrite read_groups_S. cbn [read_separator]. rewrite read_ipv4_stops by done.
  rewrite read_group by (done || by apply to_digit_colon).
  rewrite read_groups_S. cbn [read_separator]. rewrite Z.eqb_refl, <- (app_nil_r (print_v4 o)), read_print_v4 by done.
  destruct o as [|a [|b [|c [|d [|]]]]]; try done. rewrite !bool_decide_true by lia.
  do 2 f_equal. exact (octets_of_segments_segments (replicate 10 x00 ++ [xff; xff; a; b; c; d]) 8 eq_refl).
Qed.

(** The characters of addresses. *)
Definition is_ip_char (c : Z) : bool := is_digit_char c || (c =? COLON) || (c =? FULL_STOP).

Lemma print_segments_chars s : Forall is_u16 s -> Forall (fun c => is_digit_char c || (c =? COLON) = true) (print_segments s).
Proof.
  intros Hs. unfold print_segments. case_bool_decide; [|by apply fmt_subslice_chars].
  rewrite !Forall_app. split_and!; [apply fmt_subslice_chars; by apply Forall_take|by repeat constructor|].
  apply fmt_subslice_chars; by apply Forall_drop.
Qed.

Lemma print_v4_chars o : Forall (fun c => is_ip_char c = true) (print_v4 o).
Proof.
  assert (forall b, Forall (fun c => is_ip_char c = true) (print_number 10 (byte_to_Z b))) as Hb.
  { intros b. pose proof (byte_to_Z_range b). eapply Forall_impl; [apply print_number_chars; lia|].
    intros c Hc. unfold is_ip_char. rewrite Hc. done. }
  destruct o as [|b o]; [done|]. cbn [print_v4]. apply Forall_app; split; [done|].
  induction o as [|b' o IH]; [done|]. rewrite fmap_cons. cbn [concat].
  apply Forall_app; split; [|done]. by constructor.
Qed.

Lemma print_ip_chars a : ip_valid a -> Forall (fun c => is_ip_char c = true) (print_ip a).
Proof.
  assert (forall c, is_digit_char c || (c =? COLON) = true -> is_ip_char c = true) as Hweak
    by (intros c Hc; unfold is_ip_char; rewrite Hc; done).
  destruct a as [o|o]; simpl; intros Hl; [apply print_v4_chars|].
  unfold print_v6, to_ipv4_mapped. case_bool_decide.
  - repeat (apply Forall_cons; split; [done|]). apply print_v4_chars.
  - eapply Forall_impl; [apply print_segments_chars, (segments_u16 o 8); done|]. apply Hweak.
Qed.

(** The text of an address is read back as the address. *)
Lemma ip_roundtrip a : ip_valid a -> ip_from_str (print_ip a) = Some a.
Proof.
  destruct a as [o|o]; simpl; intros Hl; unfold ip_from_str, parse_with, read_ip_addr.
  { rewrite <- (app_nil_r (print_v4 o)), read_print_v4 by done. done. }
  unfold print_v6, to_ipv4_mapped. case_bool_decide as Hm.
  - rewrite read_ipv4_stops by done. rewrite read_print_mapped by (rewrite length_drop; lia).
    rewrite app_assoc, <- Hm, take_drop. done.
  - destruct (segments_u16 o 8) as [Hs Hls]; [done|].
    rewrite read_ipv4_no_stop, read_print_segments, (octets_of_segments_segments o 8); [done..|].
    intros Hin. apply print_segments_chars in Hs. rewrite Forall_forall in Hs. by apply Hs in Hin.
Qed.
