(* ===== verification/Fragments.v ===== *)
(** * Fragments and their wire format

    Models [common/nymsphinx/chunking/src/fragment.rs] and the error type of
    [chunking/src/lib.rs]: the identifier and header of a fragment, their
    validation, and the byte format put into a Sphinx packet.  The theorems
    show that a fragment always fits its packet and that serialisation and
    parsing are inverse to each other. *)

From S2P Require Import Prelude Bytes.
From Stdlib.Strings Require Import Byte.

(** [ChunkingError]. *)
Inductive ChunkingError : Type :=
| InvalidPayloadLengthError (received expected : Z)
| TooLongPayloadLengthError (received expected_at_most : Z)
| MalformedHeaderError
| TooShortFragmentHeader (received expected : Z)
| MalformedFragmentIdentifier (received : Z).

Definition UNLINKED_FRAGMENTED_HEADER_LEN : Z := 7.
Definition LINKED_FRAGMENTED_HEADER_LEN : Z := 10.

(** The sizes below are [usize] differences; every packet size of the system
    is far above the header lengths, so they do not underflow. *)
Definition unlinked_fragment_payload_max_len (max_plaintext_size : Z) : Z :=
  max_plaintext_size - UNLINKED_FRAGMENTED_HEADER_LEN.

Definition linked_fragment_payload_max_len (max_plaintext_size : Z) : Z :=
  max_plaintext_size - LINKED_FRAGMENTED_HEADER_LEN.

Definition FRAG_ID_LEN : Z := 5.

(** [b.is_some()] as a test. *)
Definition is_some {A} (o : option A) : bool :=
  match o with Some _ => true | None => false end.

(** ** Fragment identifiers *)

Module FragmentIdentifier.

Record t : Type := mk { set_id : Z; fragment_position : Z }.

Definition to_bytes (f : t) : list byte :=
  i32_to_be_bytes (set_id f) ++ [byte_of_Z (fragment_position f)].

(** The argument is a [[u8; FRAG_ID_LEN]]; other lengths cannot be passed. *)
Definition try_from_bytes (b : list byte) : outcome ChunkingError t :=
  match b with
  | [b0; b1; b2; b3; b4] =>
      let set_id := i32_from_be_bytes [b0; b1; b2; b3] in
      if set_id <? 0 then Err (MalformedFragmentIdentifier set_id)
      else Ok (mk set_id (byte_to_Z b4))
  | _ => Panic IndexOutOfBounds
  end.

End FragmentIdentifier.

Definition COVER_FRAG_ID : FragmentIdentifier.t := FragmentIdentifier.mk 0 0.

(** ** Fragment headers *)

Module FragmentHeader.

Record t : Type := mk {
  id : Z;
  total_fragments : Z;
  current_fragment : Z;
  previous_fragments_set_id : option Z;
  next_fragments_set_id : option Z
}.

Definition try_new (id total_fragments current_fragment : Z)
    (previous_fragments_set_id next_fragments_set_id : option Z) : outcome ChunkingError t :=
  if id <=? 0 then Err MalformedHeaderError
  else if total_fragments <? current_fragment then Err MalformedHeaderError
  else if total_fragments =? 0 then Err MalformedHeaderError
  else if current_fragment =? 0 then Err MalformedHeaderError
  else if match previous_fragments_set_id with
          | Some pfid => (pfid <=? 0) || negb (current_fragment =? 1) || (pfid =? id)
          | None => false
          end then Err MalformedHeaderError
  else if match next_fragments_set_id with
          | Some nfid => (nfid <=? 0) || negb (current_fragment =? total_fragments) || (nfid =? id)
          | None => false
          end then Err MalformedHeaderError
  else Ok (mk id total_fragments current_fragment previous_fragments_set_id next_fragments_set_id).

(** The optional link of a header, with the number of bytes the header takes. *)
Definition parse_link (b : list byte) (total_fragments current_fragment : Z)
    : outcome ChunkingError (option Z * option Z * Z) :=
  if negb (byte_to_Z (nth 6 b x00) =? 0) then
    if len b <? LINKED_FRAGMENTED_HEADER_LEN
    then Err (TooShortFragmentHeader (len b) LINKED_FRAGMENTED_HEADER_LEN)
    else
      let? link_bytes := slice b 6 10 in
      let flagged_linked_id := i32_from_be_bytes link_bytes in
      if get_sign_bit flagged_linked_id =? 0 then Err MalformedHeaderError
      else
        let linked_id := clear_sign_bit flagged_linked_id in
        if current_fragment =? 1 then Ok (Some linked_id, None, 10)
        else if (total_fragments =? current_fragment) && (current_fragment =? u8_max)
        then Ok (None, Some linked_id, 10)
        else Err MalformedHeaderError
  else Ok (None, None, 7).

Definition try_from_bytes (b : list byte) : outcome ChunkingError (t * Z) :=
  if len b <? UNLINKED_FRAGMENTED_HEADER_LEN
  then Err (TooShortFragmentHeader (len b) UNLINKED_FRAGMENTED_HEADER_LEN)
  else
    let? id_bytes := slice b 0 4 in
    let frag_id := i32_from_be_bytes id_bytes in
    if get_sign_bit frag_id =? 0 then Err MalformedHeaderError
    else
      let id := clear_sign_bit frag_id in
      let total_fragments := byte_to_Z (nth 4 b x00) in
      let current_fragment := byte_to_Z (nth 5 b x00) in
      if (total_fragments =? 0) || (current_fragment =? 0) || (total_fragments <? current_fragment)
      then Err MalformedHeaderError
      else
        let? (previous, next, read_bytes) := parse_link b total_fragments current_fragment in
        let? header := try_new id total_fragments current_fragment previous next in
        Ok (header, read_bytes).

Definition to_bytes (h : t) : list byte :=
  let frag_id := set_sign_bit (id h) in
  let bytes_prefix :=
    i32_to_be_bytes frag_id ++ [byte_of_Z (total_fragments h)] ++ [byte_of_Z (current_fragment h)] in
  match previous_fragments_set_id h, next_fragments_set_id h with
  | Some linked_id, _ => bytes_prefix ++ i32_to_be_bytes (set_sign_bit linked_id)
  | None, Some linked_id => bytes_prefix ++ i32_to_be_bytes (set_sign_bit linked_id)
  | None, None => bytes_prefix ++ [x00]
  end.

End FragmentHeader.

(** ** Fragments *)

Module Fragment.

Record t : Type := mk { header : FragmentHeader.t; payload : list byte }.

(** The payload-length checks of [Fragment::try_new]. *)
Definition check_payload_len (payload_len total_fragments current_fragment : Z)
    (previous_fragments_set_id next_fragments_set_id : option Z) (max_plaintext_size : Z)
    : outcome ChunkingError unit :=
  let max_linked_len := linked_fragment_payload_max_len max_plaintext_size in
  let max_unlinked_len := unlinked_fragment_payload_max_len max_plaintext_size in
  if is_some previous_fragments_set_id then
    if total_fragments >? 1 then
      if negb (payload_len =? max_linked_len)
      then Err (InvalidPayloadLengthError payload_len max_linked_len) else Ok tt
    else if payload_len >? max_linked_len
    then Err (TooLongPayloadLengthError payload_len max_linked_len) else Ok tt
  else if is_some next_fragments_set_id then
    if negb (payload_len =? max_linked_len)
    then Err (InvalidPayloadLengthError payload_len max_linked_len) else Ok tt
  else if negb (total_fragments =? current_fragment) then
    if negb (payload_len =? max_unlinked_len)
    then Err (InvalidPayloadLengthError payload_len max_unlinked_len) else Ok tt
  else if payload_len >? max_unlinked_len
  then Err (TooLongPayloadLengthError payload_len max_unlinked_len) else Ok tt.

Definition try_new (payload : list byte) (id total_fragments current_fragment : Z)
    (previous_fragments_set_id next_fragments_set_id : option Z) (max_plaintext_size : Z)
    : outcome ChunkingError t :=
  let? header := FragmentHeader.try_new id total_fragments current_fragment
                   previous_fragments_set_id next_fragments_set_id in
  let? _ := check_payload_len (len payload) total_fragments current_fragment
              previous_fragments_set_id next_fragments_set_id max_plaintext_size in
  Ok (mk header payload).

Definition payload_size (f : t) : Z := len (payload f).

Definition serialized_size (f : t) : Z :=
  let header_size := len (FragmentHeader.to_bytes (header f)) in
  header_size + payload_size f.

Definition into_bytes (f : t) : list byte :=
  FragmentHeader.to_bytes (header f) ++ payload f.

Definition id (f : t) : Z := FragmentHeader.id (header f).
Definition total_fragments (f : t) : Z := FragmentHeader.total_fragments (header f).
Definition current_fragment (f : t) : Z := FragmentHeader.current_fragment (header f).
Definition previous_fragments_set_id (f : t) : option Z :=
  FragmentHeader.previous_fragments_set_id (header f).
Definition next_fragments_set_id (f : t) : option Z :=
  FragmentHeader.next_fragments_set_id (header f).
Definition extract_payload (f : t) : list byte := payload f.

Definition fragment_identifier (f : t) : FragmentIdentifier.t :=
  FragmentIdentifier.mk (id f) (current_fragment f).

Definition try_from_bytes (b : list byte) : outcome ChunkingError t :=
  let? (header, n) := FragmentHeader.try_from_bytes b in
  let? payload := slice b n (len b) in
  Ok (mk header payload).

End Fragment.

#[export] Instance FragmentHeader_eq_dec : EqDecision FragmentHeader.t.
Proof. solve_decision. Defined.
#[export] Instance Fragment_eq_dec : EqDecision Fragment.t.
Proof. solve_decision. Defined.

(** ** Well-formed headers *)

(** Set identifiers take 31 bits and exclude 0. *)
Definition set_id_ok (z : Z) : Prop := 0 < z <= i32_max.

(** What [FragmentHeader::try_new] guarantees. *)
Record header_ok (h : FragmentHeader.t) : Prop := {
  ok_id : set_id_ok (FragmentHeader.id h);
  ok_position : 1 <= FragmentHeader.current_fragment h <= FragmentHeader.total_fragments h;
  ok_total : FragmentHeader.total_fragments h <= u8_max;
  ok_previous p : FragmentHeader.previous_fragments_set_id h = Some p ->
    set_id_ok p /\ FragmentHeader.current_fragment h = 1 /\ p <> FragmentHeader.id h;
  ok_next n : FragmentHeader.next_fragments_set_id h = Some n ->
    set_id_ok n /\ FragmentHeader.current_fragment h = FragmentHeader.total_fragments h /\
    n <> FragmentHeader.id h
}.

(** What the wire format can express beyond that: one link at most, and a
    forward link only in the last fragment of a full set. *)
Definition linkable (h : FragmentHeader.t) : Prop :=
  forall n, FragmentHeader.next_fragments_set_id h = Some n ->
    FragmentHeader.previous_fragments_set_id h = None /\ FragmentHeader.total_fragments h = u8_max.

Lemma header_try_new_Ok i t c p n :
  header_ok (FragmentHeader.mk i t c p n) ->
  FragmentHeader.try_new i t c p n = Ok (FragmentHeader.mk i t c p n).
Proof.
  intros [Hi Hc Ht Hp Hn]; simpl in *. unfold FragmentHeader.try_new, set_id_ok in *.
  destruct p as [p|], n as [n|]; try specialize (Hp p eq_refl); try specialize (Hn n eq_refl);
    zcases; simpl; done || lia.
Qed.

Lemma header_try_new_inv i t c p n h :
  i <= i32_max -> 0 <= c -> t <= u8_max ->
  (forall x, p = Some x -> x <= i32_max) -> (forall x, n = Some x -> x <= i32_max) ->
  FragmentHeader.try_new i t c p n = Ok h -> h = FragmentHeader.mk i t c p n /\ header_ok h.
Proof.
  intros Hi Hc Ht Hp Hn H. unfold FragmentHeader.try_new in H.
  destruct p as [p|], n as [n|]; zcases_in H; simpl in H; try done;
    injection H as <-; (split; [done|]); split; simpl; unfold set_id_ok; try lia;
    intros x Hx; simplify_eq; try specialize (Hp _ eq_refl); try specialize (Hn _ eq_refl); lia.
Qed.

Lemma length_4_inv {A} (l : list A) : length l = 4%nat -> exists a b c d, l = [a; b; c; d].
Proof. destruct l as [|a [|b [|c [|d [|]]]]]; intros; simplify_eq/=; eauto. Qed.

(** A flagged identifier survives its four bytes. *)
Lemma flagged_id_roundtrip z :
  set_id_ok z ->
  get_sign_bit (i32_from_be_bytes (i32_to_be_bytes (set_sign_bit z))) = 1 /\
  clear_sign_bit (i32_from_be_bytes (i32_to_be_bytes (set_sign_bit z))) = z.
Proof.
  unfold set_id_ok, i32_max. intros H. rewrite set_sign_bit_sub by lia.
  rewrite i32_from_to_be_bytes by (unfold is_i32, i32_min, i32_max; lia).
  rewrite clear_sign_bit_mod. split.
  - apply get_sign_bit_neg. unfold i32_min; lia.
  - rewrite <- (Z_mod_plus_full (z - 2 ^ 31) 1). rewrite Z.mod_small; lia.
Qed.

(** Four bytes whose top bit is set are the encoding of the flagged identifier they hold. *)
Lemma flagged_bytes_roundtrip bs :
  length bs = 4%nat -> get_sign_bit (i32_from_be_bytes bs) <> 0 ->
  0 <= clear_sign_bit (i32_from_be_bytes bs) <= i32_max /\
  i32_to_be_bytes (set_sign_bit (clear_sign_bit (i32_from_be_bytes bs))) = bs.
Proof.
  intros Hl Hf. pose proof (i32_from_be_bytes_range bs) as Hr.
  rewrite <- (i32_to_from_be_bytes bs Hl) at 4. set (z := i32_from_be_bytes bs) in *.
  unfold is_i32, i32_min, i32_max in *. rewrite clear_sign_bit_mod.
  pose proof (Z.mod_pos_bound z (2 ^ 31) eq_refl). split; [lia|].
  destruct (Z.lt_ge_cases z 0); [|rewrite get_sign_bit_nonneg in Hf; lia].
  rewrite set_sign_bit_sub by lia. f_equal.
  replace (z mod 2 ^ 31) with (z + 2 ^ 31); [lia|].
  rewrite <- (Z_mod_plus_full z 1). symmetry; apply Z.mod_small; lia.
Qed.

Lemma byte_of_Z_u8 z : is_u8 z -> byte_to_Z (byte_of_Z z) = z.
Proof. unfold is_u8, u8_max; intros. rewrite byte_to_of_Z. apply Z.mod_small; lia. Qed.

(** The top byte of a flagged identifier is not 0, so the parser sees the link. *)
Lemma flagged_top_byte z b0 b1 b2 b3 :
  set_id_ok z -> i32_to_be_bytes (set_sign_bit z) = [b0; b1; b2; b3] -> byte_to_Z b0 <> 0.
Proof.
  intros Hz Hb H0. destruct (flagged_id_roundtrip z Hz) as [Hf _]. rewrite Hb in Hf.
  pose proof (byte_to_Z_range b1); pose proof (byte_to_Z_range b2); pose proof (byte_to_Z_range b3).
  unfold i32_from_be_bytes, be_decode in Hf. simpl foldl in Hf. rewrite H0 in Hf.
  rewrite as_i32_id in Hf by (unfold is_i32, i32_min, i32_max; lia).
  rewrite get_sign_bit_nonneg in Hf; lia.
Qed.

(** ** The wire format *)

Ltac header_proj :=
  cbn [FragmentHeader.id FragmentHeader.total_fragments FragmentHeader.current_fragment
       FragmentHeader.previous_fragments_set_id FragmentHeader.next_fragments_set_id].

(** Writing out the first ten bytes makes the parser compute. *)
Lemma slice_0_4 {E A} (a b c d : A) (l : list A) :
  slice (a :: b :: c :: d :: l) 0 4 = Ok (E := E) [a; b; c; d].
Proof. rewrite slice_Ok by (autorewrite with len; pose proof (len_nonneg l); lia). done. Qed.

Lemma slice_6_10 {E A} (x0 x1 x2 x3 x4 x5 a b c d : A) (l : list A) :
  slice (x0 :: x1 :: x2 :: x3 :: x4 :: x5 :: a :: b :: c :: d :: l) 6 10 = Ok (E := E) [a; b; c; d].
Proof. rewrite slice_Ok by (autorewrite with len; pose proof (len_nonneg l); lia). done. Qed.

Lemma parse_unlinked a b c d e f g rest h :
  get_sign_bit (i32_from_be_bytes [a; b; c; d]) = 1 ->
  clear_sign_bit (i32_from_be_bytes [a; b; c; d]) = FragmentHeader.id h ->
  byte_to_Z e = FragmentHeader.total_fragments h -> byte_to_Z f = FragmentHeader.current_fragment h ->
  header_ok h -> FragmentHeader.previous_fragments_set_id h = None ->
  FragmentHeader.next_fragments_set_id h = None -> byte_to_Z g = 0 ->
  FragmentHeader.try_from_bytes (a :: b :: c :: d :: e :: f :: g :: rest) = Ok (h, 7).
Proof.
  intros Hflag Hid Ht Hc Hok Hp Hn Hg. pose proof Hok as [_ Hpos _ _ _].
  unfold FragmentHeader.try_from_bytes, FragmentHeader.parse_link, UNLINKED_FRAGMENTED_HEADER_LEN.
  rewrite slice_0_4. cbn [obind nth]. rewrite Hflag, Hid, Ht, Hc, Hg.
  assert (7 <= len (a :: b :: c :: d :: e :: f :: g :: rest)) by (unfold len; simpl length; lia).
  zcases; cbn [negb andb orb]; try lia.
  all: destruct h as [hi ht hc hp hn]; simpl in Hp, Hn; subst hp hn; cbn [obind];
    rewrite header_try_new_Ok by done; done.
Qed.

Lemma parse_linked a b c d e f g0 g1 g2 g3 rest h l :
  get_sign_bit (i32_from_be_bytes [a; b; c; d]) = 1 ->
  clear_sign_bit (i32_from_be_bytes [a; b; c; d]) = FragmentHeader.id h ->
  byte_to_Z e = FragmentHeader.total_fragments h -> byte_to_Z f = FragmentHeader.current_fragment h ->
  header_ok h -> linkable h ->
  (FragmentHeader.previous_fragments_set_id h = Some l \/
   FragmentHeader.previous_fragments_set_id h = None /\ FragmentHeader.next_fragments_set_id h = Some l) ->
  byte_to_Z g0 <> 0 -> get_sign_bit (i32_from_be_bytes [g0; g1; g2; g3]) = 1 ->
  clear_sign_bit (i32_from_be_bytes [g0; g1; g2; g3]) = l ->
  FragmentHeader.try_from_bytes (a :: b :: c :: d :: e :: f :: g0 :: g1 :: g2 :: g3 :: rest) = Ok (h, 10).
Proof.
  intros Hflag Hid Ht Hc Hok Hlk Hl Hg Hlflag Hlid. pose proof Hok as [_ Hpos _ Hprev Hnext].
  unfold FragmentHeader.try_from_bytes, FragmentHeader.parse_link,
    UNLINKED_FRAGMENTED_HEADER_LEN, LINKED_FRAGMENTED_HEADER_LEN.
  rewrite slice_0_4, slice_6_10. cbn [obind nth]. rewrite Hflag, Hid, Ht, Hc.
  assert (10 <= len (a :: b :: c :: d :: e :: f :: g0 :: g1 :: g2 :: g3 :: rest)) by (unfold len; simpl length; lia).
  destruct (Z.eqb_spec (byte_to_Z g0) 0); [lia|]. cbn [negb]. rewrite Hlflag, Hlid.
  destruct h as [i t k p nx]; cbn in Hl, Hpos, Hprev, Hnext |- *. destruct nx as [nx|].
  - destruct (Hlk nx eq_refl) as [Hp0 Ht0]; simpl in Hp0, Ht0. destruct (Hnext nx eq_refl) as (_ & Hk & _).
    destruct Hl as [Hl|[_ Hl]]; [congruence|]. injection Hl as ->. subst p.
    unfold u8_max in *. zcases; cbn [negb andb orb]; try lia. cbn [obind]. rewrite header_try_new_Ok by done. done.
  - destruct Hl as [->|[_ Hl]]; [|done]. destruct (Hprev l eq_refl) as (_ & -> & _).
    zcases; cbn [negb andb orb]; try lia. cbn [obind]. rewrite header_try_new_Ok by done. done.
Qed.

(** Parsing what [FragmentHeader::to_bytes] wrote gives the header back. *)
Lemma header_parse_print h rest :
  header_ok h -> linkable h ->
  FragmentHeader.try_from_bytes (FragmentHeader.to_bytes h ++ rest)
  = Ok (h, len (FragmentHeader.to_bytes h)).
Proof.
  intros Hok Hlk. pose proof Hok as [Hid Hpos Htot Hprev Hnext].
  unfold FragmentHeader.to_bytes. destruct (flagged_id_roundtrip _ Hid) as [Hf Hc].
  destruct (length_4_inv (i32_to_be_bytes (set_sign_bit (FragmentHeader.id h)))) as (a & b & c & d & E);
    [apply length_be_encode|]. rewrite E in *.
  assert (byte_to_Z (byte_of_Z (FragmentHeader.total_fragments h)) = FragmentHeader.total_fragments h)
    by (apply byte_of_Z_u8; unfold is_u8; lia).
  assert (byte_to_Z (byte_of_Z (FragmentHeader.current_fragment h)) = FragmentHeader.current_fragment h)
    by (apply byte_of_Z_u8; unfold is_u8; lia).
  assert (forall l, set_id_ok l -> exists g0 g1 g2 g3, i32_to_be_bytes (set_sign_bit l) = [g0; g1; g2; g3] /\
    byte_to_Z g0 <> 0 /\ get_sign_bit (i32_from_be_bytes [g0; g1; g2; g3]) = 1 /\
    clear_sign_bit (i32_from_be_bytes [g0; g1; g2; g3]) = l) as Hlink.
  { intros l Hl. destruct (flagged_id_roundtrip _ Hl) as [Hlf Hlc].
    destruct (length_4_inv (i32_to_be_bytes (set_sign_bit l))) as (g0 & g1 & g2 & g3 & E'); [apply length_be_encode|].
    rewrite E' in *. exists g0, g1, g2, g3. split_and!; eauto using flagged_top_byte. }
  destruct (FragmentHeader.previous_fragments_set_id h) as [l|] eqn:Ep;
    [|destruct (FragmentHeader.next_fragments_set_id h) as [l|] eqn:En].
  - destruct (Hprev l eq_refl) as (Hl & _). destruct (Hlink l Hl) as (g0 & g1 & g2 & g3 & -> & ? & ? & ?).
    simpl. eapply parse_linked; eauto.
  - destruct (Hnext l eq_refl) as (Hl & _). destruct (Hlink l Hl) as (g0 & g1 & g2 & g3 & -> & ? & ? & ?).
    simpl. eapply parse_linked; eauto.
  - simpl. eapply parse_unlinked; eauto.
Qed.

(** A successful parse reads a header that prints to the bytes it consumed. *)
Lemma header_print_parse b h n :
  FragmentHeader.try_from_bytes b = Ok (h, n) ->
  header_ok h /\ linkable h /\ exists rest, b = FragmentHeader.to_bytes h ++ rest /\ n = len (FragmentHeader.to_bytes h).
Proof.
  unfold FragmentHeader.try_from_bytes, UNLINKED_FRAGMENTED_HEADER_LEN. destruct (Z.ltb_spec (len b) 7) as [|Hlen]; [done|].
  destruct b as [|a [|b1 [|c [|d [|e [|f [|g rest]]]]]]]; unfold len in Hlen; simpl in Hlen; try lia.
  rewrite slice_0_4. cbn [obind].
  destruct (Z.eqb_spec (get_sign_bit (i32_from_be_bytes [a; b1; c; d])) 0) as [|Hf]; [done|].
  destruct (flagged_bytes_roundtrip [a; b1; c; d] eq_refl Hf) as [Hidr Hidb]. cbn [nth].
  pose proof (byte_to_Z_range e) as He. pose proof (byte_to_Z_range f) as Hfr.
  destruct (_ || _); [done|]. intros H. ok_inv H. destruct x as [[p nx] rd]. ok_inv H. injection H as <- <-.
  unfold FragmentHeader.parse_link in E. cbn [nth] in E.
  destruct (Z.eqb_spec (byte_to_Z g) 0) as [Hg|Hg]; cbn [negb] in E.
  - injection E as <- <- <-. apply header_try_new_inv in E0 as [-> Hok]; try (unfold u8_max; lia); try done.
    split_and!; [done|by intros ?|]. exists rest. unfold FragmentHeader.to_bytes; header_proj.
    rewrite Hidb, !byte_of_to_Z. simpl. rewrite (byte_to_Z_inj g x00) by done. done.
  - destruct (Z.ltb_spec (len (a :: b1 :: c :: d :: e :: f :: g :: rest)) LINKED_FRAGMENTED_HEADER_LEN) as [|Hlen2]; [done|].
    destruct rest as [|g1 [|g2 [|g3 rest]]]; unfold len in Hlen2; simpl in Hlen2;
      unfold LINKED_FRAGMENTED_HEADER_LEN in Hlen2; try lia.
    rewrite slice_6_10 in E. cbn [obind] in E.
    destruct (Z.eqb_spec (get_sign_bit (i32_from_be_bytes [g; g1; g2; g3])) 0) as [|Hlf]; [done|].
    destruct (flagged_bytes_roundtrip [g; g1; g2; g3] eq_refl Hlf) as [Hlr Hlb].
    destruct (Z.eqb_spec (byte_to_Z f) 1); [|destruct (_ && _) eqn:Eb; [|done]]; injection E as <- <- <-;
      apply header_try_new_inv in E0 as [-> Hok]; try (unfold u8_max; lia); try done;
      try (intros; simplify_eq; lia); (split_and!; [done|intros k Hk; simpl in *; try done|]).
    + exists rest. unfold FragmentHeader.to_bytes; header_proj. rewrite Hidb, Hlb, !byte_of_to_Z. done.
    + apply andb_true_iff in Eb as [?%Z.eqb_eq ?%Z.eqb_eq]. split; [done|lia].
    + exists rest. unfold FragmentHeader.to_bytes; header_proj. rewrite Hidb, Hlb, !byte_of_to_Z. done.
Qed.

(** Parsing inverts printing. *)
Lemma try_from_bytes_iff b f :
  Fragment.try_from_bytes b = Ok f <->
  header_ok (Fragment.header f) /\ linkable (Fragment.header f) /\ Fragment.into_bytes f = b.
Proof.
  destruct f as [h pl]; unfold Fragment.into_bytes, Fragment.try_from_bytes; simpl. split.
  - intros H. ok_inv H. destruct x as [h' n]. ok_inv H. injection H as -> ->.
    apply header_print_parse in E as (Hok & Hlk & rest & -> & ->). rewrite slice_from in E0. naive_solver.
  - intros (Hok & Hlk & <-). rewrite header_parse_print by done. simpl. rewrite slice_from. done.
Qed.

Lemma len_header_to_bytes h :
  len (FragmentHeader.to_bytes h) =
  if is_some (FragmentHeader.previous_fragments_set_id h) || is_some (FragmentHeader.next_fragments_set_id h)
  then LINKED_FRAGMENTED_HEADER_LEN else UNLINKED_FRAGMENTED_HEADER_LEN.
Proof.
  unfold FragmentHeader.to_bytes, i32_to_be_bytes. destruct (FragmentHeader.previous_fragments_set_id h),
    (FragmentHeader.next_fragments_set_id h); autorewrite with len; rewrite !len_be_encode; done.
Qed.

(** What a successful [Fragment::try_new] returns. *)
Lemma fragment_try_new_inv pl i t c p n mps f :
  Fragment.try_new pl i t c p n mps = Ok f ->
  f = Fragment.mk (FragmentHeader.mk i t c p n) pl /\
  Fragment.check_payload_len (len pl) t c p n mps = Ok tt.
Proof.
  unfold Fragment.try_new. intros H. ok_inv H. destruct x0. injection H as <-. split; [|done].
  f_equal. unfold FragmentHeader.try_new in E. repeat case_match; simplify_eq; done.
Qed.

Lemma fragment_try_new_Ok pl i t c p n mps :
  header_ok (FragmentHeader.mk i t c p n) ->
  Fragment.check_payload_len (len pl) t c p n mps = Ok tt ->
  Fragment.try_new pl i t c p n mps = Ok (Fragment.mk (FragmentHeader.mk i t c p n) pl).
Proof. intros Hok Hlen. unfold Fragment.try_new. rewrite header_try_new_Ok by done. simpl. rewrite Hlen. done. Qed.

Lemma serialized_size_into_bytes f : Fragment.serialized_size f = len (Fragment.into_bytes f).
Proof. unfold Fragment.into_bytes. rewrite len_app. done. Qed.

(** The fragment wire format is a bijection.  [Fragment::try_from_bytes] accepts a
    byte string exactly when it is [Fragment::into_bytes] of the fragment returned, and the
    fragments it returns are exactly those with a well-formed header whose links the format
    can express. *)
Theorem fragment_wire_format b f :
  Fragment.try_from_bytes b = Ok f <->
  header_ok (Fragment.header f) /\ linkable (Fragment.header f) /\ Fragment.into_bytes f = b.
Proof. apply try_from_bytes_iff. Qed.

(** Every fragment [Fragment::try_new] builds fits a packet of [max_plaintext_size]
    bytes after serialisation, and fills it exactly unless it is the last fragment of a
    set without a forward link. *)
Theorem fragment_fits_packet pl i t c p n mps f :
  Fragment.try_new pl i t c p n mps = Ok f ->
  Fragment.serialized_size f <= mps /\
  (c <> t \/ is_some n = true -> is_some p = false \/ 1 < t -> Fragment.serialized_size f = mps) /\
  len (Fragment.into_bytes f) = Fragment.serialized_size f.
Proof.
  intros [-> H]%fragment_try_new_inv. rewrite serialized_size_into_bytes.
  unfold Fragment.into_bytes. cbn [Fragment.header Fragment.payload].
  rewrite len_app, len_header_to_bytes. header_proj. unfold Fragment.check_payload_len in H.
  unfold linked_fragment_payload_max_len, unlinked_fragment_payload_max_len in H.
  destruct (is_some p), (is_some n); cbn [orb]; zcases_in H; simpl in H; simplify_eq;
    unfold LINKED_FRAGMENTED_HEADER_LEN, UNLINKED_FRAGMENTED_HEADER_LEN in *; lia.
Qed.

(** The bound at a first fragment of a linked set, for packets of 16 bytes. *)
Lemma fragment_fits_packet_witness :
  Fragment.try_new [x01; x02; x03; x04; x05; x06] 12 255 1 (Some 7) None 16
  = Ok (Fragment.mk (FragmentHeader.mk 12 255 1 (Some 7) None) [x01; x02; x03; x04; x05; x06]) /\
  Fragment.serialized_size
    (Fragment.mk (FragmentHeader.mk 12 255 1 (Some 7) None) [x01; x02; x03; x04; x05; x06]) = 16.
Proof.
  split; [vm_compute; reflexivity|].
  apply (fragment_fits_packet [x01; x02; x03; x04; x05; x06] 12 255 1 (Some 7) None 16).
  - vm_compute; reflexivity.
  - left; lia.
  - right; lia.
Defined.

(** A fragment identifier put into an acknowledgement packet is read back
    unchanged, and a five-byte string is accepted exactly when its set id is not negative. *)
Theorem fragment_identifier_wire_format b fid :
  length b = 5%nat ->
  FragmentIdentifier.try_from_bytes b = Ok fid <->
  0 <= FragmentIdentifier.set_id fid <= i32_max /\ is_u8 (FragmentIdentifier.fragment_position fid) /\
  FragmentIdentifier.to_bytes fid = b.
Proof.
  intros Hb. destruct b as [|b0 [|b1 [|b2 [|b3 [|b4 [|]]]]]]; simplify_eq/=.
  pose proof (i32_from_be_bytes_range [b0; b1; b2; b3]) as Hr. unfold is_i32 in Hr.
  pose proof (byte_to_Z_range b4) as H4. destruct fid as [s pos].
  unfold FragmentIdentifier.to_bytes; cbn [FragmentIdentifier.set_id FragmentIdentifier.fragment_position].
  split.
  - destruct (Z.ltb_spec (i32_from_be_bytes [b0; b1; b2; b3]) 0); intros; simplify_eq.
    rewrite i32_to_from_be_bytes, byte_of_to_Z by done. unfold is_u8, u8_max. split_and!; done || lia.
  - intros (Hs & Hp & E).
    destruct (length_4_inv (i32_to_be_bytes s)) as (a & b & c & d & Es); [apply length_be_encode|].
    rewrite Es in E; simpl in E; simplify_eq. rewrite <- Es, i32_from_to_be_bytes by (unfold is_i32, i32_min; lia).
    rewrite byte_of_Z_u8 by done. destruct (Z.ltb_spec s 0); [lia|done].
Qed.

Lemma fragment_identifier_wire_format_witness :
  length [x00; x00; x30; x39; x2a] = 5%nat /\
  FragmentIdentifier.to_bytes (FragmentIdentifier.mk 12345 42) = [x00; x00; x30; x39; x2a].
Proof.
  split; [reflexivity|].
  apply (fragment_identifier_wire_format [x00; x00; x30; x39; x2a] (FragmentIdentifier.mk 12345 42));
    vm_compute; reflexivity.
Defined.

(** [FragmentHeader::try_new] lets through a forward link in the last fragment of a set
    that is not full, although the wire format cannot carry it: the bytes written for such a
    header are rejected by the parser. *)
Theorem short_set_forward_link_not_parsed :
  let h := FragmentHeader.mk 12 3 3 None (Some 7) in
  FragmentHeader.try_new 12 3 3 None (Some 7) = Ok h /\
  FragmentHeader.try_from_bytes (FragmentHeader.to_bytes h) = Err MalformedHeaderError.
Proof. split; vm_compute; reflexivity. Qed.
