(* ===== verification/FragmentSets.v ===== *)
(** * Splitting a message into fragment sets

    Models [common/nymsphinx/chunking/src/set.rs] and
    [number_of_required_fragments] of [chunking/src/lib.rs].  A message longer
    than 255 fragments is cut into several sets whose first and last fragments
    carry the identifiers of the neighbouring sets.  The theorems show that
    splitting never panics on distinct identifiers, that the sets satisfy the
    layout the receiver relies on, that the payloads concatenate to the
    message, and that [number_of_required_fragments] predicts the result.

    The random number generator is a parameter: the list of the [i32] values
    it is going to draw.  Running out of draws is [Panic Diverges], the model
    of a generator that keeps returning rejected values. *)

From S2P Require Import Prelude Bytes Float64 Fragments.
From Stdlib.Strings Require Import Byte.

(** ** Set sizes *)

Definition max_unlinked_set_payload_length (max_plaintext_size : Z) : Z :=
  u8_max * unlinked_fragment_payload_max_len max_plaintext_size.

Definition max_one_way_linked_set_payload_length (max_plaintext_size : Z) : Z :=
  max_unlinked_set_payload_length max_plaintext_size
  - (LINKED_FRAGMENTED_HEADER_LEN - UNLINKED_FRAGMENTED_HEADER_LEN).

Definition two_way_linked_set_payload_length (max_plaintext_size : Z) : Z :=
  max_unlinked_set_payload_length max_plaintext_size
  - 2 * (LINKED_FRAGMENTED_HEADER_LEN - UNLINKED_FRAGMENTED_HEADER_LEN).

Abbreviation FragmentSet := (list Fragment.t).

(** ** Set identifiers *)

(** Redraws on 0 and on [i32::MIN]; returns the identifier and the remaining draws. *)
Fixpoint generate_set_id (rng : list Z) : outcome ChunkingError (Z * list Z) :=
  match rng with
  | [] => Panic Diverges
  | potential_id :: rng' =>
      if (potential_id =? 0) || (potential_id =? i32_min) then generate_set_id rng'
      else Ok (Z.abs potential_id, rng')
  end.

(** [repeat(()).map(|_| generate_set_id(rng)).take(n).collect()]. *)
Fixpoint generate_set_ids (n : nat) (rng : list Z) : outcome ChunkingError (list Z * list Z) :=
  match n with
  | O => Ok ([], rng)
  | S n' =>
      let? (id, rng) := generate_set_id rng in
      let? (ids, rng) := generate_set_ids n' rng in
      Ok (id :: ids, rng)
  end.

(** ** Building one set *)

Definition prepare_unlinked_fragmented_set (message : list byte) (id max_plaintext_size : Z)
    : outcome ChunkingError FragmentSet :=
  let pre_casted_frags :=
    f64_div_ceil (len message) (unlinked_fragment_payload_max_len max_plaintext_size) in
  let num_fragments := as_u8 pre_casted_frags in
  mapM_outcome (fun i =>
      let lb := (i - 1) * unlinked_fragment_payload_max_len max_plaintext_size in
      let ub := Z.min (len message) (i * unlinked_fragment_payload_max_len max_plaintext_size) in
      let? part := slice message lb ub in
      unwrap (Fragment.try_new part id num_fragments (as_u8 i) None None max_plaintext_size))
    (zrange 1 (pre_casted_frags + 1)).

(** The loop of [prepare_linked_fragment_set]; [lb] and [ub] are its mutable bounds. *)
Fixpoint prepare_linked_loop (message : list byte) (id : Z) (previous_link_id next_link_id : option Z)
    (max_plaintext_size num_frags : Z) (iter : list Z) (lb ub : Z) : outcome ChunkingError FragmentSet :=
  match iter with
  | [] => Ok []
  | i :: iter' =>
      let? part := slice message lb ub in
      let? fragment := unwrap (Fragment.try_new part id (as_u8 num_frags) (as_u8 i)
        (if i =? 1 then previous_link_id else None)
        (if i =? num_frags then next_link_id else None) max_plaintext_size) in
      let? fragments := prepare_linked_loop message id previous_link_id next_link_id
        max_plaintext_size num_frags iter' ub
        (Z.min (len message) (ub + unlinked_fragment_payload_max_len max_plaintext_size)) in
      Ok (fragment :: fragments)
  end.

(** The number of fragments of a linked set. *)
Definition linked_set_num_frags (message_len : Z) (next_link_id : option Z) (max_plaintext_size : Z)
    : outcome ChunkingError Z :=
  if is_some next_link_id then Ok u8_max
  else
    let tail_len :=
      if linked_fragment_payload_max_len max_plaintext_size <=? message_len
      then message_len - linked_fragment_payload_max_len max_plaintext_size else 0 in
    let pre_casted_frags :=
      1 + f64_div_ceil tail_len (unlinked_fragment_payload_max_len max_plaintext_size) in
    if pre_casted_frags >? u8_max then Panic ExplicitPanic else Ok pre_casted_frags.

Definition prepare_linked_fragment_set (message : list byte) (id : Z)
    (previous_link_id next_link_id : option Z) (max_plaintext_size : Z)
    : outcome ChunkingError FragmentSet :=
  let? num_frags := linked_set_num_frags (len message) next_link_id max_plaintext_size in
  let ub :=
    if is_some previous_link_id
    then Z.min (len message) (linked_fragment_payload_max_len max_plaintext_size)
    else unlinked_fragment_payload_max_len max_plaintext_size in
  prepare_linked_loop message id previous_link_id next_link_id max_plaintext_size num_frags
    (zrange 1 (num_frags + 1)) 0 ub.

Definition prepare_fragment_set (message : list byte) (id : Z)
    (previous_link_id next_link_id : option Z) (max_plaintext_size : Z)
    : outcome ChunkingError FragmentSet :=
  if is_some previous_link_id || is_some next_link_id
  then prepare_linked_fragment_set message id previous_link_id next_link_id max_plaintext_size
  else prepare_unlinked_fragmented_set message id max_plaintext_size.

(** ** Splitting the whole message *)

Definition total_number_of_sets (message_len max_plaintext_size : Z) : Z :=
  if message_len <=? max_unlinked_set_payload_length max_plaintext_size then 1
  else if (message_len >? max_unlinked_set_payload_length max_plaintext_size)
          && (message_len <=? 2 * max_one_way_linked_set_payload_length max_plaintext_size) then 2
  else
    let len_without_edges :=
      message_len - 2 * max_one_way_linked_set_payload_length max_plaintext_size in
    f64_div_ceil len_without_edges (two_way_linked_set_payload_length max_plaintext_size) + 2.

(** [set_ids[i]]. *)
Definition set_id_at (set_ids : list Z) (i : Z) : outcome ChunkingError Z :=
  if i <? 0 then Panic IndexOutOfBounds
  else match set_ids !! Z.to_nat i with
       | Some id => Ok id
       | None => Panic IndexOutOfBounds
       end.

(** The loop of [split_into_sets]; [lb] and [ub] are its mutable bounds. *)
Fixpoint split_loop (message : list byte) (max_plaintext_size num_of_sets : Z) (set_ids : list Z)
    (iter : list Z) (lb ub : Z) : outcome ChunkingError (list FragmentSet) :=
  match iter with
  | [] => Ok []
  | i :: iter' =>
      let? part := slice message lb ub in
      let? id := set_id_at set_ids i in
      let? previous := (if i =? 0 then Ok None
                        else let? p := set_id_at set_ids (i - 1) in Ok (Some p)) in
      let? next := (if i =? num_of_sets - 1 then Ok None
                    else let? n := set_id_at set_ids (i + 1) in Ok (Some n)) in
      let? fragment_set := prepare_fragment_set part id previous next max_plaintext_size in
      let ub' :=
        if i =? num_of_sets - 2
        then Z.min (len message) (ub + max_one_way_linked_set_payload_length max_plaintext_size)
        else Z.min (len message) (ub + two_way_linked_set_payload_length max_plaintext_size) in
      let? sets := split_loop message max_plaintext_size num_of_sets set_ids iter' ub ub' in
      Ok (fragment_set :: sets)
  end.

Definition split_into_sets (rng : list Z) (message : list byte) (max_plaintext_size : Z)
    : outcome ChunkingError (list FragmentSet) :=
  let num_of_sets := total_number_of_sets (len message) max_plaintext_size in
  if num_of_sets =? 1 then
    let? (set_id, _) := generate_set_id rng in
    let? fragment_set := prepare_fragment_set message set_id None None max_plaintext_size in
    Ok [fragment_set]
  else
    let? (set_ids, _) := generate_set_ids (Z.to_nat num_of_sets) rng in
    split_loop message max_plaintext_size num_of_sets set_ids (zrange 0 num_of_sets)
      0 (max_one_way_linked_set_payload_length max_plaintext_size).

(** [number_of_required_fragments] of [lib.rs]: the number of fragments and the
    number of bytes left free in the last one. *)
Definition number_of_required_fragments (message_len plaintext_per_fragment : Z) : Z * Z :=
  let max_unlinked := unlinked_fragment_payload_max_len plaintext_per_fragment in
  let max_linked := linked_fragment_payload_max_len plaintext_per_fragment in
  let n := total_number_of_sets message_len plaintext_per_fragment in
  if n =? 1 then
    if message_len <? max_unlinked then (1, max_unlinked - message_len)
    else
      let quot := message_len / max_unlinked in
      let rem := message_len mod max_unlinked in
      if rem =? 0 then (quot, 0) else (quot + 1, max_unlinked - rem)
  else
    let without_last := (n - 1) * u8_max in
    let linked_fragments_without_last := (2 * n - 2) - 1 in
    let unlinked_fragments_without_last := without_last - linked_fragments_without_last in
    let final_set_message_len :=
      message_len - linked_fragments_without_last * max_linked
      - unlinked_fragments_without_last * max_unlinked in
    if final_set_message_len <? max_linked
    then (without_last + 1, max_linked - final_set_message_len)
    else if final_set_message_len =? max_linked then (without_last + 1, 0)
    else
      let remaining_len := final_set_message_len - max_linked in
      let quot := remaining_len / max_unlinked in
      let rem := remaining_len mod max_unlinked in
      if rem =? 0 then (without_last + quot + 1, 0)
      else (without_last + quot + 2, max_unlinked - rem).

(** ** The layout of a set *)

(** The fragment at position [i] of a set of [n] fragments with the given links. *)
Definition set_header (id n : Z) (previous next : option Z) (i : Z) : FragmentHeader.t :=
  FragmentHeader.mk id n i (if i =? 1 then previous else None) (if i =? n then next else None).

(** What the receiver relies on: a set has between 1 and 255 fragments, numbered
    from 1, all with the set's identifier and size; the links are carried by the
    first and the last fragment; a set with a successor is full; and the payloads
    concatenate to [data]. *)
Record set_ok (s : FragmentSet) (id : Z) (previous next : option Z) (data : list byte) : Prop := {
  set_size : 1 <= len s <= u8_max;
  set_fragments k f : s !! k = Some f ->
    Fragment.header f = set_header id (len s) previous next (Z.of_nat k + 1);
  set_headers_ok f : f ∈ s -> header_ok (Fragment.header f) /\ linkable (Fragment.header f);
  set_full : next <> None -> len s = u8_max;
  set_payload : concat (Fragment.payload <$> s) = data
}.

(** A message as a chain of sets: every set links to its neighbours and the
    parts concatenate to the message. *)
Fixpoint message_sets (previous : option Z) (ids : list Z) (sets : list FragmentSet)
    (data : list byte) : Prop :=
  match ids, sets with
  | [], [] => data = []
  | id :: ids', s :: sets' =>
      exists part rest, data = part ++ rest /\ set_ok s id previous (head ids') part /\
        message_sets (Some id) ids' sets' rest
  | _, _ => False
  end.

(** Consecutive cut points of a part of length [n]: [first] bytes, then [u] at a time. *)
Definition cut (n first u i : Z) : Z := if i =? 0 then 0 else Z.min n (first + (i - 1) * u).

Definition piece (message : list byte) (lb ub : Z) : list byte :=
  take (Z.to_nat (ub - lb)) (drop (Z.to_nat lb) message).

Definition cut_fragment (message : list byte) (id n : Z) (previous next : option Z) (first u i : Z)
    : Fragment.t :=
  Fragment.mk (set_header id n previous next i)
    (piece message (cut (len message) first u (i - 1)) (cut (len message) first u i)).

Definition cut_set (message : list byte) (id n : Z) (previous next : option Z) (first u : Z) : FragmentSet :=
  cut_fragment message id n previous next first u <$> zrange 1 (n + 1).

Lemma len_piece message lb ub :
  0 <= lb -> lb <= ub -> ub <= len message -> len (piece message lb ub) = ub - lb.
Proof. intros. unfold piece. rewrite len_take, len_drop by lia. lia. Qed.

Lemma cut_bounds n first u i :
  0 <= n -> 0 <= first -> 0 <= u -> 0 <= i ->
  0 <= cut n first u i <= n /\ cut n first u i <= cut n first u (i + 1).
Proof. intros. unfold cut. zcases; subst; try lia. nia. Qed.

Lemma lookup_zrange lo hi (k : nat) x : zrange lo hi !! k = Some x <-> x = lo + Z.of_nat k /\ x < hi.
Proof.
  unfold zrange. rewrite list_lookup_fmap, fmap_Some. split.
  - intros (n & [-> Hn]%lookup_seq & ->). lia.
  - intros [-> H]. exists k. rewrite lookup_seq. lia.
Qed.

(** The pieces of consecutive cuts concatenate to the prefix up to the last cut. *)
Lemma concat_cut_payloads message id n previous next first u m :
  0 <= first -> 0 <= u -> 0 <= m ->
  concat (Fragment.payload <$> (cut_fragment message id n previous next first u <$> zrange 1 (m + 1)))
  = take (Z.to_nat (cut (len message) first u m)) message.
Proof.
  intros Hf Hu. revert m. apply natlike_ind; [done|]. intros m Hm IH. unfold Z.succ.
  rewrite zrange_snoc, !fmap_app, concat_app, IH by lia. simpl. rewrite app_nil_r.
  replace (m + 1 - 1) with m by lia. apply take_take_drop_Z.
  - apply cut_bounds; try lia. apply len_nonneg.
  - apply cut_bounds; try lia. apply len_nonneg.
Qed.

(** A set obtained by cutting satisfies the layout as soon as its headers do. *)
Lemma cut_set_ok message id n previous next first u :
  0 <= first -> 0 <= u -> 1 <= n <= u8_max -> (next <> None -> n = u8_max) ->
  cut (len message) first u n = len message ->
  (forall i, 1 <= i <= n -> header_ok (set_header id n previous next i) /\
    linkable (set_header id n previous next i)) ->
  set_ok (cut_set message id n previous next first u) id previous next message.
Proof.
  intros Hf Hu Hn Hnext Hcut Hok. unfold cut_set.
  assert (len (cut_fragment message id n previous next first u <$> zrange 1 (n + 1)) = n) as Hl
    by (rewrite len_fmap, len_zrange; lia).
  split; rewrite ?Hl; try done.
  - intros k f Hk. rewrite list_lookup_fmap, fmap_Some in Hk. destruct Hk as (x & [-> _]%lookup_zrange & ->).
    simpl. f_equal. lia.
  - intros f (x & -> & Hx%elem_of_zrange)%list_elem_of_fmap. apply Hok. lia.
  - rewrite concat_cut_payloads, Hcut by lia. unfold len. rewrite Nat2Z.id. by apply firstn_all.
Qed.

(** Headers of a set whose links differ from its identifier are well formed. *)
Lemma set_header_ok id n previous next i :
  set_id_ok id -> 1 <= n <= u8_max -> 1 <= i <= n -> (next <> None -> n = u8_max) ->
  (forall p, previous = Some p -> set_id_ok p /\ p <> id) ->
  (forall m, next = Some m -> set_id_ok m /\ m <> id) ->
  header_ok (set_header id n previous next i) /\ linkable (set_header id n previous next i).
Proof.
  intros Hid Hn Hi Hfull Hp Hm. unfold set_header. split.
  - split; header_proj; try lia; try done.
    + intros p Hp'. destruct (Z.eqb_spec i 1); [|done]. destruct (Hp p Hp'). done.
    + intros m Hm'. destruct (Z.eqb_spec i n); [|done]. destruct (Hm m Hm'). done.
  - intros m; header_proj. destruct (Z.eqb_spec i n) as [->|]; [|done]. intros ->.
    specialize (Hfull ltac:(done)). unfold u8_max in *. destruct (Z.eqb_spec n 1); [lia|done].
Qed.

(** ** Correctness of the set constructors *)

Section Splitting.

Context (mps : Z) (Hmps : 10 < mps < 2 ^ 40).

Local Abbreviation u := (unlinked_fragment_payload_max_len mps).
Local Abbreviation l := (linked_fragment_payload_max_len mps).

Lemma payload_lens : u = mps - 7 /\ l = u - 3 /\ 0 < l /\ u < 2 ^ 40.
Proof using Hmps.
  unfold linked_fragment_payload_max_len, unlinked_fragment_payload_max_len,
    LINKED_FRAGMENTED_HEADER_LEN, UNLINKED_FRAGMENTED_HEADER_LEN. lia.
Qed.

Lemma set_lens :
  max_unlinked_set_payload_length mps = 255 * u /\
  max_one_way_linked_set_payload_length mps = 255 * u - 3 /\
  two_way_linked_set_payload_length mps = 255 * u - 6.
Proof using. done. Qed.

(** The lengths of the pieces of a cut pass the checks of [Fragment::try_new]. *)
Definition cut_lengths_ok (message_len n first : Z) (previous next : option Z) : Prop :=
  forall i, 1 <= i <= n ->
    Fragment.check_payload_len (cut message_len first u i - cut message_len first u (i - 1)) n i
      (if i =? 1 then previous else None) (if i =? n then next else None) mps = Ok tt.

Lemma cut_fragment_try_new message id n previous next first i :
  0 <= first -> 1 <= i <= n -> n <= u8_max ->
  cut_lengths_ok (len message) n first previous next ->
  header_ok (set_header id n previous next i) ->
  (let? part := slice message (cut (len message) first u (i - 1)) (cut (len message) first u i) in
   unwrap (E' := ChunkingError) (Fragment.try_new part id n i (if i =? 1 then previous else None)
    (if i =? n then next else None) mps))
  = Ok (cut_fragment message id n previous next first u i).
Proof using Hmps.
  intros Hf Hi Hn Hlens Hok. pose proof payload_lens.
  pose proof (cut_bounds (len message) first u (i - 1) (len_nonneg _) ltac:(lia) ltac:(lia) ltac:(lia)) as [B1 B2].
  pose proof (cut_bounds (len message) first u i (len_nonneg _) ltac:(lia) ltac:(lia) ltac:(lia)) as [B3 _].
  replace (i - 1 + 1) with i in B2 by lia. rewrite slice_Ok by lia. cbn [obind].
  fold (piece message (cut (len message) first u (i - 1)) (cut (len message) first u i)).
  rewrite fragment_try_new_Ok; [done|done|]. rewrite len_piece by lia. by apply Hlens.
Qed.

Lemma as_u8_small n : 0 <= n <= u8_max -> as_u8 n = n.
Proof using. intros. by apply as_u8_id. Qed.

Lemma prepare_linked_loop_cut message id n previous next first i :
  0 <= first -> 1 <= i -> n <= u8_max ->
  cut_lengths_ok (len message) n first previous next ->
  (forall j, 1 <= j <= n -> header_ok (set_header id n previous next j)) ->
  prepare_linked_loop message id previous next mps n (zrange i (n + 1))
    (cut (len message) first u (i - 1)) (cut (len message) first u i)
  = Ok (cut_fragment message id n previous next first u <$> zrange i (n + 1)).
Proof using Hmps.
  intros Hf Hi Hn Hlens Hok. remember (Z.to_nat (n + 1 - i)) as k eqn:Hk. revert i Hi Hk.
  induction k as [|k IH]; intros i Hi Hk.
  { rewrite zrange_nil by lia. done. }
  rewrite zrange_cons by lia. cbn [prepare_linked_loop fmap list_fmap].
  rewrite (as_u8_small n), (as_u8_small i) by lia.
  pose proof (cut_fragment_try_new message id n previous next first i Hf ltac:(lia) Hn Hlens
    (Hok i ltac:(lia))) as Hfrag.
  destruct (slice message _ _); [|done..]. cbn [obind] in Hfrag |- *. rewrite Hfrag. cbn [obind].
  assert (Z.min (len message) (cut (len message) first u i + u) = cut (len message) first u (i + 1)) as ->.
  { pose proof payload_lens. unfold cut. zcases; lia. }
  specialize (IH (i + 1) ltac:(lia) ltac:(lia)). replace (i + 1 - 1) with i in IH by lia.
  rewrite IH. done.
Qed.

(** The number of fragments of a set for a part of [n] bytes. *)
Definition set_frag_count (n : Z) (previous next : option Z) : Z :=
  if is_some next then u8_max
  else if is_some previous then 1 + cdiv (Z.max 0 (n - l)) u
  else cdiv n u.

(** The size of the part a set with the given links can hold. *)
Definition part_len_ok (n : Z) (previous next : option Z) : Prop :=
  match previous, next with
  | None, None => 0 < n <= 255 * u
  | None, Some _ => n = 255 * u - 3
  | Some _, Some _ => n = 255 * u - 6
  | Some _, None => 0 < n <= 255 * u - 3
  end.

Definition first_len (n : Z) (previous : option Z) : Z :=
  if is_some previous then Z.min n l else u.

Lemma set_frag_count_bounds n previous next :
  part_len_ok n previous next -> 1 <= set_frag_count n previous next <= u8_max.
Proof using Hmps.
  pose proof payload_lens as (Hu & Hl & Hl0 & _).
  unfold part_len_ok, set_frag_count, u8_max. destruct previous, next; simpl; intros; try lia.
  - pose proof (cdiv_bounds (Z.max 0 (n - l)) u ltac:(lia)). nia.
  - pose proof (cdiv_bounds n u ltac:(lia)). nia.
Qed.

Lemma cut_first_len n first : cut n first u 1 - cut n first u (1 - 1) = Z.min n first.
Proof using. unfold cut. simpl. lia. Qed.

Lemma cut_middle_len n first i :
  1 < i -> first + (i - 1) * u <= n -> 0 < u -> cut n first u i - cut n first u (i - 1) = u.
Proof using. intros. unfold cut. destruct (Z.eqb_spec i 0), (Z.eqb_spec (i - 1) 0); lia. Qed.

Lemma cut_last_len n first i :
  1 < i -> first + (i - 2) * u <= n <= first + (i - 1) * u ->
  cut n first u i - cut n first u (i - 1) = n - (first + (i - 2) * u).
Proof using. intros. unfold cut. destruct (Z.eqb_spec i 0), (Z.eqb_spec (i - 1) 0); lia. Qed.

(** The shape of a cut into [k] fragments: full ones, then a remainder. *)
Lemma cut_lengths_intro n k first previous next :
  1 <= k -> 0 < first -> first + (k - 2) * u <= n <= first + (k - 1) * u \/ k = 1 /\ n <= first ->
  Fragment.check_payload_len (Z.min n first) k 1 previous (if 1 =? k then next else None) mps = Ok tt ->
  (1 < k -> Fragment.check_payload_len (n - (first + (k - 2) * u)) k k None next mps = Ok tt) ->
  cut_lengths_ok n k first previous next /\ cut n first u k = n.
Proof using Hmps.
  pose proof payload_lens as (Hu & Hl & Hl0 & _). intros Hk Hf Hn H1 Hlast. split.
  - intros i Hi. destruct (Z.eq_dec i 1) as [->|].
    { rewrite cut_first_len. done. }
    destruct (Z.eqb_spec i 1); [done|]. destruct (Z.eqb_spec i k) as [->|].
    { rewrite cut_last_len by lia. apply Hlast. lia. }
    rewrite cut_middle_len by nia. unfold Fragment.check_payload_len. cbn [is_some].
    destruct (Z.eqb_spec k i); [lia|]. cbn [negb]. rewrite Z.eqb_refl. done.
  - unfold cut. destruct (Z.eqb_spec k 0); [lia|]. nia.
Qed.

Local Ltac check_len :=
  unfold Fragment.check_payload_len; try lia; intros; zcases; cbn [is_some negb]; try done; lia.

Lemma part_cut_lengths n previous next :
  part_len_ok n previous next ->
  cut_lengths_ok n (set_frag_count n previous next) (first_len n previous) previous next /\
  cut n (first_len n previous) u (set_frag_count n previous next) = n.
Proof using Hmps.
  pose proof payload_lens as (Hu & Hl & Hl0 & _). intros Hn.
  pose proof (set_frag_count_bounds n previous next Hn) as Hc.
  unfold part_len_ok, first_len, set_frag_count, u8_max in *.
  destruct previous as [p|], next as [q|]; cbn [is_some] in *.
  - rewrite Z.min_r by lia. apply cut_lengths_intro; check_len.
  - pose proof (cdiv_bounds (Z.max 0 (n - l)) u ltac:(lia)) as Hd.
    set (k := cdiv (Z.max 0 (n - l)) u) in *.
    assert (n <= l /\ k = 0 \/ l < n /\ 1 <= k) as Hk by nia.
    apply cut_lengths_intro; check_len.
  - apply cut_lengths_intro; check_len.
  - pose proof (cdiv_bounds n u ltac:(lia)) as Hd. set (k := cdiv n u) in *.
    assert (k = 1 \/ 1 < k) as [Hk|Hk] by lia; [rewrite Hk in *|assert (u <= n) by nia];
      apply cut_lengths_intro; check_len.
Qed.

(** [prepare_fragment_set] succeeds on a part of the right size and returns a set with
    the layout the receiver relies on. *)
Lemma prepare_fragment_set_ok message id previous next :
  set_id_ok id -> len message < 2 ^ 53 -> part_len_ok (len message) previous next ->
  (forall p, previous = Some p -> set_id_ok p /\ p <> id) ->
  (forall m, next = Some m -> set_id_ok m /\ m <> id) ->
  let s := cut_set message id (set_frag_count (len message) previous next) previous next
             (first_len (len message) previous) u in
  prepare_fragment_set message id previous next mps = Ok s /\ set_ok s id previous next message.
Proof using Hmps.
  intros Hid Hlt Hlen Hp Hm s. pose proof payload_lens as (Hu & Hl & Hl0 & Hub).
  pose proof (set_frag_count_bounds _ _ _ Hlen) as Hc.
  destruct (part_cut_lengths _ _ _ Hlen) as [Hlens Hcut].
  set (n := set_frag_count (len message) previous next) in *.
  set (first := first_len (len message) previous) in *.
  assert (0 < first) as Hfirst
    by (unfold first, first_len, part_len_ok in *; destruct previous, next; cbn [is_some]; lia).
  assert (next <> None -> n = u8_max) as Hfull by (unfold n, set_frag_count; destruct next; done).
  assert (forall j, 1 <= j <= n -> header_ok (set_header id n previous next j) /\
    linkable (set_header id n previous next j)) as Hok by (intros; by apply set_header_ok).
  split; [|apply cut_set_ok; try lia; done].
  unfold prepare_fragment_set. destruct (is_some previous || is_some next) eqn:Elink.
  - unfold prepare_linked_fragment_set.
    assert (linked_set_num_frags (len message) next mps = Ok n) as ->.
    { unfold linked_set_num_frags, n, set_frag_count in *. destruct previous, next; cbn [is_some] in *; try done.
      replace (if l <=? len message then len message - l else 0) with (Z.max 0 (len message - l)) by (zcases; lia).
      rewrite f64_div_ceil_exact by lia. zcases; done || lia. }
    cbn [obind]. pose proof (prepare_linked_loop_cut message id n previous next first 1 ltac:(lia) ltac:(lia)
      ltac:(lia) Hlens ltac:(intros; by apply Hok)) as Hloop.
    replace (cut (len message) first u 1) with first in Hloop; [exact Hloop|].
    unfold cut, first, first_len, part_len_ok in *. simpl. destruct previous, next; cbn [is_some] in *; try done; lia.
  - destruct previous, next; try done. unfold prepare_unlinked_fragmented_set.
    unfold n, set_frag_count in *. cbn [is_some] in *. rewrite f64_div_ceil_exact by (unfold part_len_ok in Hlen; lia).
    pose proof (cdiv_bounds (len message) u ltac:(lia)) as Hd. set (k := cdiv (len message) u) in *.
    change s with (cut_fragment message id k None None u u <$> zrange 1 (k + 1)).
    apply mapM_outcome_Ok. intros i Hi%elem_of_zrange. rewrite (as_u8_small k), (as_u8_small i) by lia.
    rewrite <- (cut_fragment_try_new message id k None None u i); try lia; try done; [|apply Hok; lia].
    replace ((i - 1) * u) with (cut (len message) u u (i - 1)) by (unfold cut; zcases; nia).
    replace (Z.min (len message) (i * u)) with (cut (len message) u u i) by (unfold cut; zcases; nia).
    destruct (i =? 1), (i =? k); done.
Qed.

(** ** Correctness of the split *)

Lemma total_number_of_sets_spec n :
  0 <= n < 2 ^ 53 ->
  let k := total_number_of_sets n mps in
  (n <= 255 * u /\ k = 1) \/
  (255 * u < n /\ 2 <= k /\
   0 < n - (255 * u - 3 + (k - 2) * (255 * u - 6)) <= 255 * u - 3).
Proof using Hmps.
  intros Hn. unfold total_number_of_sets. pose proof set_lens as (-> & -> & ->).
  pose proof payload_lens as (Hu & Hl & Hl0 & Hub).
  destruct (Z.leb_spec n (255 * u)); [lia|]. rewrite Z.gtb_ltb. destruct (Z.ltb_spec (255 * u) n); [|lia].
  destruct (Z.leb_spec n (2 * (255 * u - 3))); cbn [andb]; [lia|].
  rewrite f64_div_ceil_exact by lia. right.
  pose proof (cdiv_bounds (n - 2 * (255 * u - 3)) (255 * u - 6) ltac:(lia)) as Hc.
  set (c := cdiv _ _) in *. assert (1 <= c) by nia. split_and!; nia.
Qed.

(** Where the sets of a message start. *)
Definition set_cut (n k i : Z) : Z :=
  if i =? 0 then 0 else if i =? k then n else 255 * u - 3 + (i - 1) * (255 * u - 6).

Lemma generate_set_id_ok rng id rng' :
  Forall is_i32 rng -> generate_set_id rng = Ok (id, rng') -> set_id_ok id /\ Forall is_i32 rng'.
Proof using.
  induction 1 as [|x rng Hx Hrng IH]; simpl; [done|].
  unfold is_i32, i32_min, i32_max, set_id_ok in *. zcases; simpl; try by apply IH.
  intros E; injection E as <- <-. unfold i32_max. split; [lia|done].
Qed.

Lemma generate_set_ids_ok n rng ids rng' :
  Forall is_i32 rng -> generate_set_ids n rng = Ok (ids, rng') ->
  length ids = n /\ Forall set_id_ok ids.
Proof using.
  revert rng ids rng'. induction n as [|n IH]; simpl; intros rng ids rng' Hr H.
  { injection H as <- <-. done. }
  ok_inv H. destruct x as [id r1]. ok_inv H. destruct x as [ids' r2]. injection H as <- <-.
  destruct (generate_set_id_ok _ _ _ Hr E) as [Hid Hr1]. destruct (IH _ _ _ Hr1 E0) as [Hl Hall].
  split; [simpl; lia|by constructor].
Qed.

Section Loop.

Context (message : list byte) (ids : list Z).
Local Abbreviation n := (len message).
Local Abbreviation k := (total_number_of_sets n mps).
Context (Hlen : n < 2 ^ 53) (Hbig : 255 * u < n).
Context (Hids : len ids = k) (Hok : Forall set_id_ok ids) (Hdup : NoDup ids).

Lemma set_cut_bounds i : 0 <= i < k -> 0 <= set_cut n k i < set_cut n k (i + 1) /\ set_cut n k (i + 1) <= n.
Proof using Hmps Hlen Hbig.
  intros Hi. pose proof payload_lens as (Hu & Hl & Hl0 & _).
  destruct (total_number_of_sets_spec n ltac:(lia)) as [|(_ & Hk & Hrem)]; [lia|].
  unfold set_cut. destruct (Z.eqb_spec (i + 1) 0); [lia|].
  assert (i + 1 < k -> (i - 1) * (255 * u - 6) <= (k - 3) * (255 * u - 6)) by (intros; apply Z.mul_le_mono_nonneg_r; lia).
  zcases; try lia; nia.
Qed.

Lemma set_cut_step i :
  0 <= i < k - 1 ->
  (if i =? k - 2 then Z.min n (set_cut n k (i + 1) + max_one_way_linked_set_payload_length mps)
   else Z.min n (set_cut n k (i + 1) + two_way_linked_set_payload_length mps)) = set_cut n k (i + 1 + 1).
Proof using Hmps Hlen Hbig.
  intros Hi. pose proof payload_lens as (Hu & Hl & Hl0 & _). pose proof set_lens as (_ & -> & ->).
  pose proof (set_cut_bounds (i + 1) ltac:(lia)) as Hb.
  destruct (total_number_of_sets_spec n ltac:(lia)) as [|(_ & Hk & Hrem)]; [lia|].
  unfold set_cut in *. destruct (Z.eqb_spec (i + 1) 0), (Z.eqb_spec (i + 1) k), (Z.eqb_spec (i + 1 + 1) 0); try lia.
  destruct (Z.eqb_spec i (k - 2)), (Z.eqb_spec (i + 1 + 1) k); try lia.
Qed.

Lemma set_id_at_lookup i id : 0 <= i -> ids !! Z.to_nat i = Some id -> set_id_at ids i = Ok id.
Proof using. intros Hi H. unfold set_id_at. destruct (Z.ltb_spec i 0); [lia|]. rewrite H. done. Qed.

Lemma length_ids : Z.of_nat (length ids) = k.
Proof using Hids. exact Hids. Qed.

Lemma lookup_ids i : 0 <= i < k -> exists id, ids !! Z.to_nat i = Some id /\ set_id_ok id.
Proof using Hids Hok.
  intros Hi. destruct (lookup_lt_is_Some_2 ids (Z.to_nat i)) as [id E]; [pose proof length_ids; lia|].
  exists id. split; [done|]. eapply Forall_lookup_1; eauto.
Qed.

(** The link to a neighbour: the identifier of another set. *)
Lemma link_ok i j id : i <> j -> 0 <= i < k -> 0 <= j -> ids !! Z.to_nat i = Some id ->
  forall m, ids !! Z.to_nat j = Some m -> set_id_ok m /\ m <> id.
Proof using Hids Hok Hdup.
  intros Hij Hi Hj Hid m Hm. split; [eapply Forall_lookup_1; eauto|]. intros ->.
  pose proof (NoDup_lookup _ _ _ _ Hdup Hid Hm). lia.
Qed.

Definition part_at (i : Z) : list byte := piece message (set_cut n k i) (set_cut n k (i + 1)).
Definition previous_at (i : Z) : option Z := if i =? 0 then None else ids !! Z.to_nat (i - 1).

Lemma part_at_ok i :
  0 <= i < k -> part_len_ok (len (part_at i)) (previous_at i) (ids !! Z.to_nat (i + 1)).
Proof using Hmps Hlen Hbig Hids Hok.
  intros Hi. pose proof (set_cut_bounds i Hi). unfold part_at. rewrite len_piece by lia.
  destruct (total_number_of_sets_spec n ltac:(lia)) as [|(_ & Hk & Hrem)]; [lia|].
  unfold previous_at, set_cut in *. destruct (Z.eqb_spec (i + 1) 0); [lia|].
  destruct (Z.eqb_spec (i + 1) k) as [Ek|], (Z.eqb_spec i 0) as [->|]; try lia.
  - destruct (lookup_ids (i - 1) ltac:(lia)) as (? & -> & _).
    rewrite lookup_ge_None_2 by (pose proof length_ids; lia). simpl.
    destruct (Z.eqb_spec i k); [lia|]. replace (i - 1) with (k - 2) by lia. lia.
  - destruct (lookup_ids (0 + 1) ltac:(lia)) as (? & -> & _). simpl; lia.
  - destruct (lookup_ids (i - 1) ltac:(lia)) as (? & -> & _).
    destruct (lookup_ids (i + 1) ltac:(lia)) as (? & -> & _). simpl. destruct (Z.eqb_spec i k); lia.
Qed.

(** The set built in iteration [i]. *)
Definition set_at (i : Z) : FragmentSet :=
  let part := part_at i in
  let previous := previous_at i in
  let next := ids !! Z.to_nat (i + 1) in
  cut_set part (default 0 (ids !! Z.to_nat i)) (set_frag_count (len part) previous next)
    previous next (first_len (len part) previous) u.

Lemma set_at_ok i :
  0 <= i < k ->
  prepare_fragment_set (part_at i) (default 0 (ids !! Z.to_nat i)) (previous_at i)
    (ids !! Z.to_nat (i + 1)) mps = Ok (set_at i) /\
  set_ok (set_at i) (default 0 (ids !! Z.to_nat i)) (previous_at i) (ids !! Z.to_nat (i + 1)) (part_at i).
Proof using Hmps Hlen Hbig Hids Hok Hdup.
  intros Hi. destruct (lookup_ids i Hi) as (id & Hid & Hidok). rewrite Hid; simpl.
  pose proof (set_cut_bounds i Hi).
  pose proof (prepare_fragment_set_ok (part_at i) id (previous_at i) (ids !! Z.to_nat (i + 1)) Hidok) as Hprep.
  unfold set_at. rewrite Hid; simpl. apply Hprep; clear Hprep.
  - unfold part_at. rewrite len_piece; lia.
  - by apply part_at_ok.
  - unfold previous_at. intros p. destruct (Z.eqb_spec i 0); [done|]. apply (link_ok i (i - 1)); done || lia.
  - apply (link_ok i (i + 1)); done || lia.
Qed.

Lemma split_loop_ok i :
  0 <= i -> forall lb ub, (i < k -> lb = set_cut n k i /\ ub = set_cut n k (i + 1)) ->
  split_loop message mps k ids (zrange i k) lb ub = Ok (set_at <$> zrange i k).
Proof using Hmps Hlen Hbig Hids Hok Hdup.
  intros Hi. remember (Z.to_nat (k - i)) as m eqn:Hm. revert i Hi Hm.
  induction m as [|m IH]; intros i Hi Hm lb ub Hb.
  { rewrite zrange_nil by lia. done. }
  rewrite zrange_cons by lia. cbn [split_loop fmap list_fmap]. destruct (Hb ltac:(lia)) as [-> ->].
  pose proof (set_cut_bounds i ltac:(lia)). rewrite slice_Ok by lia. cbn [obind].
  fold (piece message (set_cut n k i) (set_cut n k (i + 1))). fold (part_at i).
  destruct (lookup_ids i ltac:(lia)) as (id & Hid & Hidok). rewrite (set_id_at_lookup i id) by done. cbn [obind].
  assert ((if i =? 0 then Ok None else let? p := set_id_at ids (i - 1) in Ok (Some p)) = Ok (previous_at i)) as ->.
  { unfold previous_at. destruct (Z.eqb_spec i 0); [done|]. destruct (lookup_ids (i - 1) ltac:(lia)) as (p & Hp & _).
    rewrite (set_id_at_lookup (i - 1) p) by (done || lia). rewrite Hp. done. }
  cbn [obind].
  assert ((if i =? k - 1 then Ok None else let? p := set_id_at ids (i + 1) in Ok (Some p))
          = Ok (ids !! Z.to_nat (i + 1))) as ->.
  { destruct (Z.eqb_spec i (k - 1)).
    - rewrite lookup_ge_None_2; [done|]. pose proof length_ids; lia.
    - destruct (lookup_ids (i + 1) ltac:(lia)) as (p & Hp & _).
      rewrite (set_id_at_lookup (i + 1) p) by (done || lia). rewrite Hp. done. }
  cbn [obind]. destruct (set_at_ok i ltac:(lia)) as [Hset _]. rewrite Hid in Hset; simpl in Hset. rewrite Hset. cbn [obind].
  rewrite IH; [done|lia|lia|]. intros Hlt. split; [done|]. apply set_cut_step. lia.
Qed.

Lemma set_at_message_sets i :
  0 <= i <= k ->
  message_sets (previous_at i) (drop (Z.to_nat i) ids) (set_at <$> zrange i k)
    (drop (Z.to_nat (set_cut n k i)) message).
Proof using Hmps Hlen Hbig Hids Hok Hdup.
  intros Hi. remember (Z.to_nat (k - i)) as m eqn:Hm. revert i Hi Hm.
  induction m as [|m IH]; intros i Hi Hm.
  { rewrite zrange_nil by lia. assert (i = k) as -> by lia.
    pose proof length_ids. rewrite drop_ge by lia. simpl. apply drop_ge.
    destruct (total_number_of_sets_spec n ltac:(pose proof (len_nonneg message); lia)) as [|(_ & Hk & _)]; [lia|].
    unfold set_cut. destruct (Z.eqb_spec k 0); [lia|]. rewrite Z.eqb_refl. unfold len. lia. }
  destruct (lookup_ids i ltac:(lia)) as (id & Hid & _). pose proof (set_cut_bounds i ltac:(lia)).
  rewrite zrange_cons, (drop_S _ _ _ Hid) by lia. cbn [message_sets fmap list_fmap].
  exists (part_at i), (drop (Z.to_nat (set_cut n k (i + 1))) message). split_and!.
  - unfold part_at, piece. replace (Z.to_nat (set_cut n k (i + 1)))
      with (Z.to_nat (set_cut n k i) + Z.to_nat (set_cut n k (i + 1) - set_cut n k i))%nat by lia.
    rewrite <- drop_drop. symmetry. apply take_drop.
  - destruct (set_at_ok i ltac:(lia)) as [_ Hs]. rewrite Hid in Hs; simpl in Hs.
    replace (S (Z.to_nat i)) with (Z.to_nat (i + 1)) by lia.
    replace (head (drop (Z.to_nat (i + 1)) ids)) with (ids !! Z.to_nat (i + 1)); [done|].
    rewrite <- (Nat.add_0_r (Z.to_nat (i + 1))) at 1. rewrite <- lookup_drop. by destruct (drop _ ids).
  - specialize (IH (i + 1) ltac:(lia) ltac:(lia)). unfold previous_at in IH.
    destruct (Z.eqb_spec (i + 1) 0); [lia|]. replace (i + 1 - 1) with i in IH by lia. rewrite Hid in IH.
    replace (S (Z.to_nat i)) with (Z.to_nat (i + 1)) by lia. done.
Qed.

End Loop.
(** A message that fits one set. *)
Lemma split_single_ok message rng id rng' :
  Forall is_i32 rng -> 0 < len message -> len message < 2 ^ 53 ->
  len message <= 255 * u -> generate_set_id rng = Ok (id, rng') ->
  let s := cut_set message id (cdiv (len message) u) None None u u in
  split_into_sets rng message mps = Ok [s] /\ set_ok s id None None message.
Proof using Hmps.
  intros Hrng H0 Hlen Hfit Hid s. destruct (generate_set_id_ok _ _ _ Hrng Hid) as [Hidok _].
  destruct (total_number_of_sets_spec (len message) ltac:(lia)) as [[_ Hk]|]; [|lia].
  destruct (prepare_fragment_set_ok message id None None Hidok Hlen ltac:(simpl; lia) ltac:(done) ltac:(done))
    as [Hp Hs]. split; [|done].
  unfold split_into_sets. rewrite Hk, Hid. cbn [Z.eqb Pos.eqb obind]. rewrite Hp. done.
Qed.

(** A message that needs several sets. *)
Lemma split_many_ok message rng ids rng' :
  Forall is_i32 rng -> len message < 2 ^ 53 -> 255 * u < len message ->
  generate_set_ids (Z.to_nat (total_number_of_sets (len message) mps)) rng = Ok (ids, rng') ->
  NoDup ids ->
  split_into_sets rng message mps
  = Ok (set_at message ids <$> zrange 0 (total_number_of_sets (len message) mps)) /\
  message_sets None ids (set_at message ids <$> zrange 0 (total_number_of_sets (len message) mps)) message.
Proof using Hmps.
  intros Hrng Hlen Hbig Hids Hdup. pose proof (len_nonneg message).
  destruct (total_number_of_sets_spec (len message) ltac:(lia)) as [|(_ & Hk & _)]; [lia|].
  destruct (generate_set_ids_ok _ _ _ _ Hrng Hids) as [Hl Hok].
  assert (len ids = total_number_of_sets (len message) mps) as Hn by (unfold len at 1; lia).
  split.
  - unfold split_into_sets. destruct (Z.eqb_spec (total_number_of_sets (len message) mps) 1); [lia|].
    rewrite Hids. cbn [obind]. apply split_loop_ok; try done. intros _. unfold set_cut.
    pose proof set_lens as (_ & -> & _). split; [done|]. destruct (Z.eqb_spec (0 + 1) 0); [lia|].
    destruct (Z.eqb_spec (0 + 1) (total_number_of_sets (len message) mps)); lia.
  - apply (set_at_message_sets message ids Hlen Hbig Hn Hok Hdup 0). lia.
Qed.

(** The last fragment of a set and the room left in it. *)
Lemma last_cut_set message id n previous next first :
  1 <= n -> last (cut_set message id n previous next first u)
            = Some (cut_fragment message id n previous next first u n).
Proof using.
  intros Hn. unfold cut_set. rewrite zrange_snoc by lia. rewrite fmap_app. apply last_snoc.
Qed.

Lemma len_cut_set message id n previous next first :
  1 <= n -> len (cut_set message id n previous next first u) = n.
Proof using. intros. unfold cut_set. rewrite len_fmap, len_zrange. lia. Qed.

Lemma last_set_spare message id previous :
  part_len_ok (len message) previous None ->
  let n := set_frag_count (len message) previous None in
  let f := cut_fragment message id n previous None (first_len (len message) previous) u n in
  mps - Fragment.serialized_size f = (if is_some previous then l + (n - 1) * u else n * u) - len message.
Proof using Hmps.
  intros Hlen n f. pose proof payload_lens as (Hu & Hl & Hl0 & _).
  pose proof (set_frag_count_bounds _ _ _ Hlen) as Hn. fold n in Hn.
  destruct (part_cut_lengths _ _ _ Hlen) as [_ Hcut]. fold n in Hcut.
  unfold f, Fragment.serialized_size, Fragment.payload_size, cut_fragment. cbn [Fragment.header Fragment.payload].
  rewrite len_header_to_bytes. unfold set_header. header_proj.
  set (first := first_len (len message) previous) in *.
  assert (0 < first) by (unfold first, first_len, part_len_ok in *; destruct previous; cbn [is_some]; lia).
  pose proof (cut_bounds (len message) first u (n - 1) (len_nonneg _) ltac:(lia) ltac:(lia) ltac:(lia)) as [B1 B2].
  replace (n - 1 + 1) with n in B2 by lia. rewrite len_piece by lia. rewrite Hcut.
  unfold n, set_frag_count, first, first_len, part_len_ok, cut in *. clear B1 B2 Hcut f.
  unfold LINKED_FRAGMENTED_HEADER_LEN, UNLINKED_FRAGMENTED_HEADER_LEN.
  destruct previous; cbn [is_some] in *.
  - pose proof (cdiv_bounds (Z.max 0 (len message - l)) u ltac:(lia)) as Hd.
    set (c := cdiv _ _) in *. assert (len message <= l /\ c = 0 \/ l < len message /\ 1 <= c) as Hc by nia.
    zcases; cbn [is_some orb]; nia.
  - pose proof (cdiv_bounds (len message) u ltac:(lia)) as Hd. set (c := cdiv _ _) in *.
    zcases; cbn [is_some orb]; nia.
Qed.

Lemma div_cdiv a b : 0 < b -> a mod b = 0 -> a / b = cdiv a b.
Proof using. intros Hb Hm. symmetry. apply cdiv_spec; [lia|]. pose proof (Z.div_mod a b ltac:(lia)). nia. Qed.

Lemma div_cdiv_succ a b : 0 < b -> a mod b <> 0 -> a / b + 1 = cdiv a b /\ b - a mod b = cdiv a b * b - a.
Proof using.
  intros Hb Hm. pose proof (Z.div_mod a b ltac:(lia)). pose proof (Z.mod_pos_bound a b Hb).
  assert (cdiv a b = a / b + 1) as -> by (apply cdiv_spec; [lia|]; nia). split; [done|nia].
Qed.

(** The fragments of a message that needs several sets: all sets but the last are full. *)
Lemma last_set_len message ids :
  len message < 2 ^ 53 -> 255 * u < len message ->
  len ids = total_number_of_sets (len message) mps -> Forall set_id_ok ids -> NoDup ids ->
  let k := total_number_of_sets (len message) mps in
  let sets := set_at message ids <$> zrange 0 k in
  let final := len message - (255 * u - 3 + (k - 2) * (255 * u - 6)) in
  let c := 1 + cdiv (Z.max 0 (final - l)) u in
  let f := cut_fragment (part_at message (k - 1)) (default 0 (ids !! Z.to_nat (k - 1))) c
             (previous_at ids (k - 1)) None
             (first_len (len (part_at message (k - 1))) (previous_at ids (k - 1))) u c in
  last (concat sets) = Some f /\ len (concat sets) = (k - 1) * u8_max + c /\
  mps - Fragment.serialized_size f = l + (c - 1) * u - final.
Proof using Hmps.
  intros Hlen Hbig Hids Hok Hdup k sets final c f. pose proof (len_nonneg message).
  destruct (total_number_of_sets_spec (len message) ltac:(lia)) as [|(_ & Hk & Hrem)]; [lia|]. fold k in Hk, Hrem, Hids.
  destruct (lookup_ids message ids Hids Hok (k - 2) ltac:(fold k; lia)) as (p & Hp & _).
  assert (previous_at ids (k - 1) = Some p) as Hprev.
  { unfold previous_at. destruct (Z.eqb_spec (k - 1) 0); [lia|]. rewrite <- Hp. f_equal. lia. }
  assert (ids !! Z.to_nat (k - 1 + 1) = None) as Hnext
    by (apply lookup_ge_None_2; unfold len at 1 in Hids; lia).
  assert (len (part_at message (k - 1)) = final) as Hpart.
  { unfold part_at. fold k. pose proof (set_cut_bounds message Hlen Hbig (k - 1) ltac:(fold k; lia)) as Hb. fold k in Hb.
    rewrite len_piece by lia. unfold set_cut. destruct (Z.eqb_spec (k - 1 + 1) 0), (Z.eqb_spec (k - 1) 0),
      (Z.eqb_spec (k - 1) k), (Z.eqb_spec (k - 1 + 1) k); try lia. }
  pose proof (part_at_ok message ids Hlen Hbig Hids Hok (k - 1) ltac:(fold k; lia)) as Hpok.
  rewrite Hnext in Hpok.
  assert (set_frag_count (len (part_at message (k - 1))) (previous_at ids (k - 1)) None = c) as Hc
    by (rewrite Hpart, Hprev; done).
  assert (set_at message ids (k - 1) = cut_set (part_at message (k - 1)) (default 0 (ids !! Z.to_nat (k - 1))) c
    (previous_at ids (k - 1)) None (first_len (len (part_at message (k - 1))) (previous_at ids (k - 1))) u) as Hset.
  { unfold set_at. rewrite Hnext, Hc. done. }
  pose proof (set_frag_count_bounds _ _ _ Hpok) as Hcb. rewrite Hc in Hcb.
  assert (sets = (set_at message ids <$> zrange 0 (k - 1)) ++ [set_at message ids (k - 1)]) as Hsets.
  { unfold sets. replace k with (k - 1 + 1) at 1 by lia. rewrite zrange_snoc, fmap_app by lia. done. }
  split_and!.
  - rewrite Hsets, concat_app. simpl. rewrite app_nil_r, Hset, last_app, last_cut_set by lia. done.
  - rewrite Hsets, concat_app, len_app. simpl. rewrite app_nil_r, Hset, len_cut_set by lia.
    enough (forall j, 0 <= j -> j <= k - 1 -> len (concat (set_at message ids <$> zrange 0 j)) = j * u8_max) as Hfull
      by (rewrite Hfull by lia; done).
    apply (natlike_ind (fun j => j <= k - 1 -> _)); [done|]. intros j Hj IH Hjk. unfold Z.succ in *.
    rewrite zrange_snoc, fmap_app, concat_app, len_app, IH by lia. simpl. rewrite app_nil_r.
    destruct (set_at_ok message ids Hlen Hbig Hids Hok Hdup j ltac:(fold k; lia)) as [_ Hs].
    rewrite (set_full _ _ _ _ _ Hs); [lia|].
    destruct (lookup_ids message ids Hids Hok (j + 1) ltac:(fold k; lia)) as (? & -> & _). done.
  - pose proof (last_set_spare (part_at message (k - 1)) (default 0 (ids !! Z.to_nat (k - 1))) _ Hpok) as Hsp.
    rewrite Hc, Hpart in Hsp. unfold f. rewrite Hpart, Hsp, Hprev. done.
Qed.

Lemma required_single n :
  0 < n <= 255 * u -> number_of_required_fragments n mps = (cdiv n u, cdiv n u * u - n).
Proof using Hmps.
  intros Hn. pose proof payload_lens as (Hu & Hl & Hl0 & _).
  destruct (total_number_of_sets_spec n ltac:(lia)) as [[_ Hk]|]; [|lia].
  unfold number_of_required_fragments. rewrite Hk. cbn [Z.eqb Pos.eqb].
  destruct (Z.ltb_spec n u).
  { assert (cdiv n u = 1) as -> by (apply cdiv_spec; lia). f_equal; lia. }
  destruct (Z.eqb_spec (n mod u) 0) as [E|E].
  - rewrite <- (div_cdiv n u) by lia. pose proof (Z.div_mod n u ltac:(lia)). f_equal; lia.
  - destruct (div_cdiv_succ n u ltac:(lia) E) as [-> ->]. done.
Qed.

Lemma required_many n :
  n < 2 ^ 53 -> 255 * u < n ->
  let k := total_number_of_sets n mps in
  let final := n - (255 * u - 3 + (k - 2) * (255 * u - 6)) in
  let c := 1 + cdiv (Z.max 0 (final - l)) u in
  number_of_required_fragments n mps = ((k - 1) * u8_max + c, l + (c - 1) * u - final).
Proof using Hmps.
  intros Hlt Hbig k final c. pose proof payload_lens as (Hu & Hl & Hl0 & _).
  destruct (total_number_of_sets_spec n ltac:(lia)) as [|(_ & Hk & Hrem)]; [lia|]. fold k in Hk, Hrem.
  unfold number_of_required_fragments. fold k. destruct (Z.eqb_spec k 1); [lia|].
  assert (n - (2 * k - 2 - 1) * l - ((k - 1) * u8_max - (2 * k - 2 - 1)) * u = final) as ->
    by (unfold final, u8_max; lia).
  destruct (Z.ltb_spec final l).
  { assert (c = 1) as -> by (unfold c; rewrite Z.max_l by lia; enough (cdiv 0 u = 0) by lia; apply cdiv_spec; lia).
    f_equal; lia. }
  destruct (Z.eqb_spec final l).
  { assert (c = 1) as -> by (unfold c; rewrite Z.max_l by lia; enough (cdiv 0 u = 0) by lia; apply cdiv_spec; lia).
    f_equal; lia. }
  unfold c. rewrite Z.max_r by lia. destruct (Z.eqb_spec ((final - l) mod u) 0) as [E|E].
  - rewrite <- (div_cdiv (final - l) u) by lia. pose proof (Z.div_mod (final - l) u ltac:(lia)). f_equal; lia.
  - destruct (div_cdiv_succ (final - l) u ltac:(lia) E) as [<- ?]. f_equal; lia.
Qed.

End Splitting.

(** The chain of sets of a split message. *)
Lemma split_message_sets mps rng message ids rng' :
  10 < mps < 2 ^ 40 -> Forall is_i32 rng -> 0 < len message < 2 ^ 53 ->
  generate_set_ids (Z.to_nat (total_number_of_sets (len message) mps)) rng = Ok (ids, rng') ->
  NoDup ids ->
  exists sets, split_into_sets rng message mps = Ok sets /\ message_sets None ids sets message.
Proof.
  intros Hmps Hrng Hlen Hids Hdup.
  destruct (total_number_of_sets_spec mps Hmps (len message) ltac:(lia)) as [[Hfit Hk]|(Hbig & _)].
  - rewrite Hk in Hids. change (Z.to_nat 1) with 1%nat in Hids. cbn [generate_set_ids] in Hids.
    ok_inv Hids. destruct x as [id r]. cbn [obind] in Hids. injection Hids as <- <-.
    destruct (split_single_ok mps Hmps message rng id r Hrng ltac:(lia) ltac:(lia) Hfit E) as [-> Hs].
    eexists. split; [done|]. exists message, []. rewrite app_nil_r. done.
  - destruct (split_many_ok mps Hmps message rng ids rng' Hrng ltac:(lia) Hbig Hids Hdup) as [-> Hs].
    eauto.
Qed.

(** The predicted number of fragments and the room left in the last one. *)
Lemma required_of_split mps rng message ids rng' sets :
  10 < mps < 2 ^ 40 -> Forall is_i32 rng -> 0 < len message < 2 ^ 53 ->
  generate_set_ids (Z.to_nat (total_number_of_sets (len message) mps)) rng = Ok (ids, rng') ->
  NoDup ids -> split_into_sets rng message mps = Ok sets ->
  exists f, last (concat sets) = Some f /\
    number_of_required_fragments (len message) mps
    = (len (concat sets), mps - Fragment.serialized_size f).
Proof.
  intros Hmps Hrng Hlen Hids Hdup Hsets. pose proof (payload_lens mps Hmps) as (Hu & Hl & Hl0 & _).
  destruct (total_number_of_sets_spec mps Hmps (len message) ltac:(lia)) as [[Hfit Hk]|(Hbig & Hk & Hrem)].
  - rewrite Hk in Hids. change (Z.to_nat 1) with 1%nat in Hids. cbn [generate_set_ids] in Hids.
    ok_inv Hids. destruct x as [id r].
    destruct (split_single_ok mps Hmps message rng id r Hrng ltac:(lia) ltac:(lia) Hfit E) as [E' _].
    rewrite E' in Hsets; injection Hsets as <-. cbn [concat]. rewrite app_nil_r.
    pose proof (set_frag_count_bounds mps Hmps (len message) None None ltac:(simpl; lia)) as Hn.
    pose proof (last_set_spare mps Hmps message id None ltac:(simpl; lia)) as Hspare.
    unfold set_frag_count, first_len in Hn, Hspare. cbn [is_some] in Hn, Hspare. eexists. split.
    + apply last_cut_set. lia.
    + rewrite len_cut_set, required_single, <- Hspare by lia. done.
  - pose proof (split_many_ok mps Hmps message rng ids rng' Hrng ltac:(lia) Hbig Hids Hdup) as [E _].
    rewrite E in Hsets; injection Hsets as <-.
    destruct (generate_set_ids_ok _ _ _ _ Hrng Hids) as [Hln Hok].
    assert (len ids = total_number_of_sets (len message) mps) as Hn by (unfold len at 1; lia).
    pose proof (last_set_len mps Hmps message ids ltac:(lia) Hbig Hn Hok Hdup) as (Hlast & Hcount & Hspare).
    eexists. split; [exact Hlast|]. rewrite required_many by lia. rewrite Hcount, Hspare. done.
Qed.

(** C20: [split_into_sets] succeeds on every non-empty message whose set identifiers are
    distinct.  The sets form the chain the receiver relies on: every fragment carries its set's
    identifier, size and position, the first and last fragments link the neighbouring sets, all
    sets but the last are full, and the payloads concatenate to the message.  And
    [number_of_required_fragments] predicts the split: the number of fragments over all sets and
    the number of bytes left free in the packet of the last one. *)
Theorem split_into_sets_correct mps rng message ids rng' :
  10 < mps < 2 ^ 40 -> Forall is_i32 rng -> 0 < len message < 2 ^ 53 ->
  generate_set_ids (Z.to_nat (total_number_of_sets (len message) mps)) rng = Ok (ids, rng') ->
  NoDup ids ->
  exists sets f, split_into_sets rng message mps = Ok sets /\ message_sets None ids sets message /\
    last (concat sets) = Some f /\
    number_of_required_fragments (len message) mps
    = (len (concat sets), mps - Fragment.serialized_size f).
Proof.
  intros Hmps Hrng Hlen Hids Hdup.
  destruct (split_message_sets mps rng message ids rng' Hmps Hrng Hlen Hids Hdup) as (sets & Hsplit & Hsets).
  destruct (required_of_split mps rng message ids rng' sets Hmps Hrng Hlen Hids Hdup Hsplit) as (f & Hf & Hreq).
  eauto 6.
Qed.

(** Two sets for a message of 1021 bytes in packets of 11 bytes: 257 fragments, one byte free. *)
Lemma split_into_sets_correct_witness :
  number_of_required_fragments (len (replicate 1021 x01)) 11 = (257, 1) /\
  exists sets f, split_into_sets [5; 0; -7] (replicate 1021 x01) 11 = Ok sets /\
    message_sets None [5; 7] sets (replicate 1021 x01) /\
    last (concat sets) = Some f /\
    number_of_required_fragments (len (replicate 1021 x01)) 11
    = (len (concat sets), 11 - Fragment.serialized_size f).
Proof.
  split; [vm_compute; reflexivity|].
  apply (split_into_sets_correct 11 [5; 0; -7] (replicate 1021 x01) [5; 7] []).
  - lia.
  - repeat constructor; unfold is_i32, i32_min, i32_max; lia.
  - split; vm_compute; reflexivity.
  - vm_compute; reflexivity.
  - apply (bool_decide_unpack (NoDup [5; 7])). vm_compute; exact I.
Defined.
