(* ===== verification/Reconstruction.v ===== *)
(** * Reconstructing messages from fragments

    Models [common/nymsphinx/chunking/src/reconstruction.rs]: the per-set
    buffer and the reconstructor that keeps one buffer per set identifier and
    hands out a message once all its linked sets are complete.

    The source walks the chain of linked sets by unbounded recursion.  The
    model gives the walks fuel, one more than the number of buffered sets:
    a walk that visits more sets than that visits some set twice and does not
    end, which the model reports as [Panic Diverges].

    The main theorem is that fragments of any number of messages, in any
    order, yield every message exactly once and leave no buffer behind. *)

From S2P Require Import Prelude Bytes Float64 Fragments FragmentSets.
From Stdlib.Strings Require Import Byte.

(** ** The buffer of one set *)

Module ReconstructionBuffer.

Record t : Type := mk {
  is_complete : bool;
  previous_fragments_set_id : option Z;
  next_fragments_set_id : option Z;
  fragments : list (option Fragment.t)
}.

Definition new (size : Z) : t :=
  mk false None None (replicate (Z.to_nat size) None).

Definition reconstruct_set_data (b : t) : outcome ChunkingError (list byte) :=
  let? fs := mapM_outcome unwrap_opt (fragments b) in
  Ok (concat (Fragment.extract_payload <$> fs)).

Definition is_done_receiving (b : t) : bool := forallb is_some (fragments b).

(** [self.fragments[i].as_ref().unwrap()]. *)
Definition fragment_at (frags : list (option Fragment.t)) (i : Z) : outcome ChunkingError Fragment.t :=
  match frags !! Z.to_nat i with
  | Some o => unwrap_opt o
  | None => Panic IndexOutOfBounds
  end.

Definition insert_fragment (b : t) (fragment : Fragment.t) : outcome ChunkingError t :=
  let fragment_index := Fragment.current_fragment fragment - 1 in
  if (fragment_index <? 0) || (len (fragments b) <=? fragment_index) then Panic IndexOutOfBounds
  else
    let frags := <[Z.to_nat fragment_index := Some fragment]> (fragments b) in
    let b := mk (is_complete b) (previous_fragments_set_id b) (next_fragments_set_id b) frags in
    if is_done_receiving b then
      let? first := fragment_at frags 0 in
      let? next :=
        (if len frags =? u8_max then
           let? last := fragment_at frags (u8_max - 1) in
           Ok (Fragment.next_fragments_set_id last)
         else Ok None) in
      Ok (mk true (Fragment.previous_fragments_set_id first) next frags)
    else Ok b.

End ReconstructionBuffer.

(** ** The reconstructor *)

Module MessageReconstructor.

(** [reconstructed_sets]. *)
Abbreviation t := (gmap Z ReconstructionBuffer.t).

(** [ReconstructedMessage]: the data and the identifiers of its sets. *)
Abbreviation ReconstructedMessage := (list byte * list Z)%type.

Definition new : t := ∅.

Definition is_set_fully_received (r : t) (id : Z) : bool :=
  match r !! id with
  | Some set_buf => ReconstructionBuffer.is_complete set_buf
  | None => false
  end.

Definition previous_linked_set_id (r : t) (id : Z) : outcome ChunkingError (option Z) :=
  let? buf := unwrap_opt (r !! id) in
  Ok (ReconstructionBuffer.previous_fragments_set_id buf).

Definition next_linked_set_id (r : t) (id : Z) : outcome ChunkingError (option Z) :=
  let? buf := unwrap_opt (r !! id) in
  Ok (ReconstructionBuffer.next_fragments_set_id buf).

Fixpoint check_front_chain (fuel : nat) (r : t) (id : Z) : outcome ChunkingError bool :=
  match fuel with
  | O => Panic Diverges
  | S fuel' =>
      let? previous := previous_linked_set_id r id in
      match previous with
      | Some previous_id =>
          if is_set_fully_received r previous_id
          then check_front_chain fuel' r previous_id else Ok false
      | None => Ok true
      end
  end.

Fixpoint check_back_chain (fuel : nat) (r : t) (id : Z) : outcome ChunkingError bool :=
  match fuel with
  | O => Panic Diverges
  | S fuel' =>
      let? next := next_linked_set_id r id in
      match next with
      | Some next_id =>
          if is_set_fully_received r next_id
          then check_back_chain fuel' r next_id else Ok false
      | None => Ok true
      end
  end.

Fixpoint find_starting_set_id (fuel : nat) (r : t) (id : Z) : outcome ChunkingError (option Z) :=
  match fuel with
  | O => Panic Diverges
  | S fuel' =>
      if is_set_fully_received r id then
        let? previous := previous_linked_set_id r id in
        match previous with
        | Some previous_id => find_starting_set_id fuel' r previous_id
        | None => Ok (Some id)
        end
      else Ok None
  end.

(** [successors(Some(starting_id), |&id| self.next_linked_set_id(id)).collect()]. *)
Fixpoint set_id_sequence (fuel : nat) (r : t) (id : Z) : outcome ChunkingError (list Z) :=
  match fuel with
  | O => Panic Diverges
  | S fuel' =>
      let? next := next_linked_set_id r id in
      match next with
      | Some next_id => let? rest := set_id_sequence fuel' r next_id in Ok (id :: rest)
      | None => Ok [id]
      end
  end.

Definition chain_fuel (r : t) : nat := S (size r).

Definition is_message_fully_received (r : t) (id : Z) : outcome ChunkingError bool :=
  if is_set_fully_received r id then
    let? back := check_back_chain (chain_fuel r) r id in
    if back then check_front_chain (chain_fuel r) r id else Ok false
  else Ok false.

Definition extract_set_payload (r : t) (set_id : Z) : outcome ChunkingError (list byte * t) :=
  let? buf := unwrap_opt (r !! set_id) in
  let? data := ReconstructionBuffer.reconstruct_set_data buf in
  Ok (data, delete set_id r).

(** Extracting the payloads of a sequence of sets, in order. *)
Fixpoint extract_set_payloads (r : t) (set_ids : list Z) : outcome ChunkingError (list byte * t) :=
  match set_ids with
  | [] => Ok ([], r)
  | id :: set_ids' =>
      let? (payload, r) := extract_set_payload r id in
      let? (payloads, r) := extract_set_payloads r set_ids' in
      Ok (payload ++ payloads, r)
  end.

Definition reconstruct_message (r : t) (set_id : Z) : outcome ChunkingError (ReconstructedMessage * t) :=
  let? starting := find_starting_set_id (chain_fuel r) r set_id in
  let? starting_id := unwrap_opt starting in
  let? sequence := set_id_sequence (chain_fuel r) r starting_id in
  let? (message_content, r) := extract_set_payloads r sequence in
  Ok ((message_content, sequence), r).

Definition insert_new_fragment (r : t) (fragment : Fragment.t)
    : outcome ChunkingError (option ReconstructedMessage * t) :=
  let set_id := Fragment.id fragment in
  let set_len := Fragment.total_fragments fragment in
  let buf := default (ReconstructionBuffer.new set_len) (r !! set_id) in
  let? buf := ReconstructionBuffer.insert_fragment buf fragment in
  let r := <[set_id := buf]> r in
  let? done := is_message_fully_received r set_id in
  if done then
    let? (message, r) := reconstruct_message r set_id in
    Ok (Some message, r)
  else Ok (None, r).

Definition recover_fragment (fragment_data : list byte) : outcome ChunkingError Fragment.t :=
  Fragment.try_from_bytes fragment_data.

(** Receiving packets one after the other, as the receiver does with the
    payloads it recovers: the messages handed out and the final state. *)
Fixpoint receive (r : t) (packets : list (list byte))
    : outcome ChunkingError (list (option ReconstructedMessage) * t) :=
  match packets with
  | [] => Ok ([], r)
  | p :: packets' =>
      let? fragment := recover_fragment p in
      let? (out, r) := insert_new_fragment r fragment in
      let? (outs, r) := receive r packets' in
      Ok (out :: outs, r)
  end.

End MessageReconstructor.

(** ** The buffer of a partially received set *)

Import MessageReconstructor.

Definition received (got : list Fragment.t) (f : Fragment.t) : option Fragment.t :=
  if decide (f ∈ got) then Some f else None.

(** All fragments of the set are among [got]. *)
Definition set_done (got : list Fragment.t) (s : FragmentSet) : bool :=
  forallb (fun f => bool_decide (f ∈ got)) s.

(** The buffer that holds exactly the fragments of [s] among [got]. *)
Definition partial_buffer (got : list Fragment.t) (s : FragmentSet) (previous next : option Z)
    : ReconstructionBuffer.t :=
  let complete := set_done got s in
  ReconstructionBuffer.mk complete (if complete then previous else None)
    (if complete then next else None) (received got <$> s).

Lemma set_done_true got s : set_done got s = true <-> forall f, f ∈ s -> f ∈ got.
Proof.
  unfold set_done. rewrite forallb_forall. split; intros H f Hf.
  - apply list_elem_of_In in Hf. specialize (H f Hf). by apply bool_decide_eq_true in H.
  - apply bool_decide_eq_true. apply H. by apply list_elem_of_In.
Qed.

Lemma forallb_received got s : forallb is_some (received got <$> s) = set_done got s.
Proof.
  unfold set_done. induction s as [|f s IH]; [done|]. rewrite fmap_cons. cbn [forallb]. rewrite IH. f_equal.
  unfold received. case_decide; simpl; [by rewrite bool_decide_true|by rewrite bool_decide_false].
Qed.

Lemma reconstruct_partial got s previous next :
  set_done got s = true ->
  ReconstructionBuffer.reconstruct_set_data (partial_buffer got s previous next)
  = Ok (concat (Fragment.payload <$> s)).
Proof.
  rewrite set_done_true. intros Hd. unfold ReconstructionBuffer.reconstruct_set_data; simpl.
  rewrite (mapM_outcome_Ok _ (fun o => default (Fragment.mk (FragmentHeader.mk 0 0 0 None None) []) o)).
  - simpl. f_equal. f_equal. rewrite <- !list_fmap_compose. apply list_fmap_ext. intros i f Hf. simpl.
    unfold received. rewrite decide_True; [done|]. apply Hd. by eapply list_elem_of_lookup_2.
  - intros o (f & -> & Hf)%list_elem_of_fmap. unfold received. rewrite decide_True by auto. done.
Qed.

Section SetBuffer.

Context (s : FragmentSet) (id : Z) (previous next : option Z) (data : list byte).
Context (Hs : set_ok s id previous next data).

(** Positions identify the fragments of a set. *)
Lemma set_fragment_index k f : s !! k = Some f ->
  Fragment.current_fragment f = Z.of_nat k + 1 /\ Fragment.id f = id /\ Fragment.total_fragments f = len s.
Proof using Hs.
  intros Hk. unfold Fragment.current_fragment, Fragment.id, Fragment.total_fragments.
  rewrite (set_fragments _ _ _ _ _ Hs k f Hk). done.
Qed.

Lemma set_index_inj j k f : s !! j = Some f -> s !! k = Some f -> j = k.
Proof using Hs. intros Hj%set_fragment_index Hk%set_fragment_index. lia. Qed.

Lemma set_NoDup : NoDup s.
Proof using Hs. apply NoDup_alt. intros j k f. apply set_index_inj. Qed.

Lemma new_buffer f got :
  f ∈ s -> (forall g, g ∈ s -> g ∉ got) ->
  ReconstructionBuffer.new (Fragment.total_fragments f) = partial_buffer got s previous next.
Proof using Hs.
  intros [k Hk]%list_elem_of_lookup Hgot. destruct (set_fragment_index k f Hk) as (_ & _ & ->).
  pose proof (set_size _ _ _ _ _ Hs) as Hsize.
  assert (set_done got s = false) as Hd.
  { apply not_true_iff_false. rewrite set_done_true. intros H. apply (Hgot f); [|apply H]; by eapply list_elem_of_lookup_2. }
  unfold ReconstructionBuffer.new, partial_buffer. rewrite Hd. f_equal. unfold len. rewrite Nat2Z.id.
  apply list_eq. intros i. rewrite list_lookup_fmap. destruct (s !! i) as [g|] eqn:Hi; simpl.
  - rewrite lookup_replicate_2 by (by eapply lookup_lt_Some). unfold received. rewrite decide_False; [done|].
    apply Hgot. by eapply list_elem_of_lookup_2.
  - apply lookup_replicate_None. by apply lookup_ge_None_1.
Qed.

(** Storing a fragment at its position. *)
Lemma received_insert got k f :
  s !! k = Some f -> <[k := Some f]> (received got <$> s) = received (got ++ [f]) <$> s.
Proof using Hs.
  intros Hk. apply list_eq. intros i. destruct (decide (i = k)) as [->|Hne].
  - rewrite list_lookup_insert_eq by (rewrite length_fmap; by eapply lookup_lt_Some).
    rewrite list_lookup_fmap, Hk. simpl. unfold received. rewrite decide_True by set_solver. done.
  - rewrite list_lookup_insert_ne, !list_lookup_fmap by done. destruct (s !! i) as [g|] eqn:Hi; [|done]. simpl.
    f_equal. unfold received. assert (g <> f) by (intros ->; eauto using set_index_inj).
    apply decide_ext. rewrite elem_of_app, list_elem_of_singleton. tauto.
Qed.

Lemma fragment_at_done got i f :
  set_done got s = true -> s !! Z.to_nat i = Some f ->
  ReconstructionBuffer.fragment_at (received got <$> s) i = Ok f.
Proof using.
  rewrite set_done_true. intros Hd Hi. unfold ReconstructionBuffer.fragment_at.
  rewrite list_lookup_fmap, Hi. simpl. unfold received. rewrite decide_True; [done|].
  apply Hd. by eapply list_elem_of_lookup_2.
Qed.

Lemma insert_partial got f :
  f ∈ s ->
  ReconstructionBuffer.insert_fragment (partial_buffer got s previous next) f
  = Ok (partial_buffer (got ++ [f]) s previous next).
Proof using Hs.
  intros [k Hk]%list_elem_of_lookup. destruct (set_fragment_index k f Hk) as (Hc & _ & _).
  pose proof (lookup_lt_Some _ _ _ Hk) as Hlt. pose proof (set_size _ _ _ _ _ Hs) as Hsize.
  unfold ReconstructionBuffer.insert_fragment, ReconstructionBuffer.is_done_receiving.
  cbn [ReconstructionBuffer.fragments]. rewrite Hc. replace (Z.of_nat k + 1 - 1) with (Z.of_nat k) by lia.
  destruct (Z.ltb_spec (Z.of_nat k) 0); [lia|]. cbn [ReconstructionBuffer.fragments partial_buffer].
  rewrite len_fmap. destruct (Z.leb_spec (len s) (Z.of_nat k)); [unfold len in *; lia|]. cbn [orb].
  rewrite Nat2Z.id, received_insert, forallb_received, len_fmap by done.
  destruct (set_done (got ++ [f]) s) eqn:Hdone.
  2: { assert (set_done got s = false) as Hd.
       { apply not_true_iff_false. rewrite set_done_true. intros H'. apply not_true_iff_false in Hdone. apply Hdone.
         apply set_done_true. intros g Hg. apply elem_of_app. auto. }
       unfold partial_buffer. rewrite Hdone, Hd. done. }
  destruct (lookup_lt_is_Some_2 s 0) as [f0 Hf0]; [lia|].
  rewrite (fragment_at_done _ 0 f0) by done. cbn [obind].
  assert (Fragment.previous_fragments_set_id f0 = previous) as ->.
  { unfold Fragment.previous_fragments_set_id. rewrite (set_fragments _ _ _ _ _ Hs 0 f0 Hf0). done. }
  destruct (Z.eqb_spec (len s) u8_max) as [Hfull|Hfull].
  - destruct (lookup_lt_is_Some_2 s 254) as [fl Hfl]; [unfold len, u8_max in *; lia|].
    rewrite (fragment_at_done _ (u8_max - 1) fl) by done. cbn [obind].
    assert (Fragment.next_fragments_set_id fl = next) as ->.
    { unfold Fragment.next_fragments_set_id. rewrite (set_fragments _ _ _ _ _ Hs 254 fl Hfl), Hfull. done. }
    unfold partial_buffer. rewrite Hdone. done.
  - assert (next = None) as Hn.
    { destruct next as [z|] eqn:En; [|done]. destruct Hfull. apply (set_full _ _ _ _ _ Hs). done. }
    cbn [obind]. unfold partial_buffer. rewrite Hdone, Hn. done.
Qed.

End SetBuffer.

(** ** Walking the chain of sets of a message *)

Definition previous_of (previous : option Z) (ids : list Z) (j : nat) : option Z :=
  match j with O => previous | S j' => ids !! j' end.

Lemma message_sets_lookup previous ids sets data j id :
  message_sets previous ids sets data -> ids !! j = Some id ->
  exists s part, sets !! j = Some s /\ set_ok s id (previous_of previous ids j) (ids !! S j) part.
Proof.
  revert previous sets data j. induction ids as [|i ids IH]; intros previous sets data j H Hj; [done|].
  destruct sets as [|s sets]; [done|]. destruct H as (part & rest & -> & Hs & H).
  destruct j as [|j].
  - injection Hj as ->. exists s, part. split; [done|]. simpl. by destruct ids.
  - destruct (IH _ _ _ j H Hj) as (s' & part' & Hl & Hs'). exists s', part'. split; [done|]. by destruct j.
Qed.

Lemma message_sets_length previous ids sets data :
  message_sets previous ids sets data -> length sets = length ids.
Proof.
  revert previous sets data. induction ids as [|i ids IH]; intros previous [|s sets] data H; try done.
  destruct H as (part & rest & _ & _ & H). simpl. f_equal. eauto.
Qed.

Lemma message_sets_data previous ids sets data :
  message_sets previous ids sets data -> concat (Fragment.payload <$> concat sets) = data.
Proof.
  revert previous sets data. induction ids as [|i ids IH]; intros previous [|s sets] data H; try done.
  destruct H as (part & rest & -> & Hs & H). simpl. rewrite fmap_app, concat_app.
  rewrite (set_payload _ _ _ _ _ Hs), (IH _ _ _ H). done.
Qed.

(** A list of keys of a map is no longer than the map. *)
Lemma NoDup_keys_size {A} (r : gmap Z A) (l : list Z) :
  NoDup l -> (forall i, i ∈ l -> is_Some (r !! i)) -> (length l <= size r)%nat.
Proof.
  intros Hl Hin. rewrite <- size_dom. rewrite <- (size_list_to_set (C := gset Z) l Hl).
  apply subseteq_size. intros i. rewrite elem_of_list_to_set, elem_of_dom. apply Hin.
Qed.

Section Message.

Context (ids : list Z) (sets : list FragmentSet) (data : list byte).
Context (Hmsg : message_sets None ids sets data) (Hdup : NoDup ids).
Context (got : list Fragment.t) (r : MessageReconstructor.t).

(** The buffers of the sets of this message. *)
Definition buffers_ok : Prop := forall j id s, ids !! j = Some id -> sets !! j = Some s ->
  r !! id = Some (partial_buffer got s (previous_of None ids j) (ids !! S j)) \/
  (r !! id = None /\ forall f, f ∈ s -> f ∉ got).

Context (Hr : buffers_ok).

Definition done_at (j : nat) : bool :=
  match sets !! j with Some s => set_done got s | None => false end.

Lemma set_at_index j id : ids !! j = Some id ->
  exists s part, sets !! j = Some s /\ set_ok s id (previous_of None ids j) (ids !! S j) part.
Proof using Hmsg. intros Hj. by eapply message_sets_lookup. Qed.

Lemma set_received j id : ids !! j = Some id -> is_set_fully_received r id = done_at j.
Proof using Hmsg Hr.
  intros Hj. destruct (set_at_index j id Hj) as (s & part & Hs & Hok).
  unfold is_set_fully_received, done_at. rewrite Hs. destruct (Hr j id s Hj Hs) as [->|[-> Hno]]; [done|].
  symmetry. apply not_true_iff_false. rewrite set_done_true. intros H.
  pose proof (set_size _ _ _ _ _ Hok) as Hsz. destruct s as [|f s]; [unfold len in Hsz; simpl in Hsz; lia|].
  apply (Hno f); [|apply H]; by constructor.
Qed.

(** A complete set has its buffer in place. *)
Lemma done_buffer j id : ids !! j = Some id -> done_at j = true ->
  exists s, sets !! j = Some s /\ set_done got s = true /\
    r !! id = Some (partial_buffer got s (previous_of None ids j) (ids !! S j)).
Proof using Hmsg Hr.
  intros Hj Hd. pose proof (set_received j id Hj) as Hrec. rewrite Hd in Hrec.
  unfold done_at in Hd. destruct (sets !! j) as [s|] eqn:Hs; [|done]. exists s. split_and!; try done.
  destruct (Hr j id s Hj Hs) as [?|[E _]]; [done|]. unfold is_set_fully_received in Hrec. rewrite E in Hrec. done.
Qed.

Lemma next_of j id : ids !! j = Some id -> done_at j = true -> next_linked_set_id r id = Ok (ids !! S j).
Proof using Hmsg Hr.
  intros Hj Hd. destruct (done_buffer j id Hj Hd) as (s & _ & Hsd & E).
  unfold next_linked_set_id. rewrite E. simpl. rewrite Hsd. done.
Qed.

Lemma previous_link_of j id : ids !! j = Some id -> done_at j = true ->
  previous_linked_set_id r id = Ok (previous_of None ids j).
Proof using Hmsg Hr.
  intros Hj Hd. destruct (done_buffer j id Hj Hd) as (s & _ & Hsd & E).
  unfold previous_linked_set_id. rewrite E. simpl. rewrite Hsd. done.
Qed.

(** Complete sets at distinct positions are distinct keys, so a run of them is within the fuel. *)
Lemma done_run_size (js : list nat) :
  NoDup js -> (forall j, j ∈ js -> (j < length ids)%nat /\ done_at j = true) -> (length js <= size r)%nat.
Proof using Hmsg Hdup Hr.
  intros Hjs Hd. rewrite <- (length_fmap (fun j => default 0 (ids !! j)) js). apply NoDup_keys_size.
  - apply NoDup_fmap_2_strong; [|done]. intros a b Ha Hb E.
    destruct (Hd a Ha) as [La _], (Hd b Hb) as [Lb _].
    apply lookup_lt_is_Some_2 in La as [x Ex], Lb as [y Ey]. rewrite Ex, Ey in E; simpl in E; subst y.
    exact (NoDup_lookup ids a b x Hdup Ex Ey).
  - intros i (j & -> & Hj)%list_elem_of_fmap. destruct (Hd j Hj) as [Lj Dj].
    apply lookup_lt_is_Some_2 in Lj as [x Ex]. rewrite Ex. simpl.
    destruct (done_buffer j x Ex Dj) as (s & _ & _ & ->). eauto.
Qed.

Lemma check_back_chain_ok fuel j id :
  ids !! j = Some id -> done_at j = true ->
  (forall t, (j + t <= length ids)%nat -> (forall i, (j <= i < j + t)%nat -> done_at i = true) -> (t <= fuel)%nat) ->
  check_back_chain fuel r id = Ok (forallb done_at (seq (S j) (length ids - S j))).
Proof using Hmsg Hr.
  revert j id. induction fuel as [|fuel IH]; intros j id Hj Hd Hfuel.
  { pose proof (lookup_lt_Some _ _ _ Hj). specialize (Hfuel 1%nat ltac:(lia)).
    exfalso. enough (1 <= 0)%nat by lia. apply Hfuel. intros i Hi. replace i with j by lia. done. }
  cbn [check_back_chain]. rewrite (next_of j id Hj Hd). cbn [obind].
  destruct (ids !! S j) as [id'|] eqn:Hj'.
  - pose proof (lookup_lt_Some _ _ _ Hj'). rewrite (set_received (S j) id' Hj').
    replace (length ids - S j)%nat with (S (length ids - S (S j))) by lia. cbn [seq forallb].
    destruct (done_at (S j)) eqn:Hd'; [|done]. rewrite (IH (S j) id'); try done.
    intros t Ht Hall. enough (S t <= S fuel)%nat by lia. apply Hfuel; [lia|].
    intros i Hi. destruct (decide (i = j)) as [->|]; [done|]. apply Hall. lia.
  - apply lookup_ge_None_1 in Hj'. replace (length ids - S j)%nat with 0%nat by lia. done.
Qed.

Lemma forallb_seq_0_S j : forallb done_at (seq 0 (S j)) = done_at j && forallb done_at (seq 0 j).
Proof using. rewrite seq_S, forallb_app. simpl. rewrite andb_true_r. apply andb_comm. Qed.

Lemma check_front_chain_ok fuel j id :
  ids !! j = Some id -> done_at j = true ->
  (forall t, (t <= S j)%nat -> (forall i, (S j - t <= i <= j)%nat -> done_at i = true) -> (t <= fuel)%nat) ->
  check_front_chain fuel r id = Ok (forallb done_at (seq 0 j)).
Proof using Hmsg Hr.
  revert j id. induction fuel as [|fuel IH]; intros j id Hj Hd Hfuel.
  { exfalso. enough (1 <= 0)%nat by lia. apply Hfuel; [lia|]. intros i Hi. replace i with j by lia. done. }
  cbn [check_front_chain]. rewrite (previous_link_of j id Hj Hd). cbn [obind].
  destruct j as [|j]; [done|]. cbn [previous_of].
  pose proof (lookup_lt_Some _ _ _ Hj). destruct (lookup_lt_is_Some_2 ids j) as [id' Hj']; [lia|].
  rewrite Hj', (set_received j id' Hj'), forallb_seq_0_S. destruct (done_at j) eqn:Hd'; [|done].
  apply (IH j id'); try done. intros t Ht Hall. enough (S t <= S fuel)%nat by lia. apply Hfuel; [lia|].
  intros i Hi. destruct (decide (i = S j)) as [->|]; [done|]. apply Hall. lia.
Qed.

Definition message_done : bool := forallb done_at (seq 0 (length ids)).

Lemma back_fuel j t :
  (j + t <= length ids)%nat -> (forall i, (j <= i < j + t)%nat -> done_at i = true) -> (t <= chain_fuel r)%nat.
Proof using Hmsg Hdup Hr.
  intros Ht Hall. unfold chain_fuel. rewrite <- (length_seq t j). apply le_S, done_run_size; [apply NoDup_seq|].
  intros i Hi%elem_of_seq. split; [lia|apply Hall; lia].
Qed.

Lemma message_received j id :
  ids !! j = Some id -> is_message_fully_received r id = Ok message_done.
Proof using Hmsg Hdup Hr.
  intros Hj. unfold is_message_fully_received. rewrite (set_received j id Hj).
  pose proof (lookup_lt_Some _ _ _ Hj).
  assert (message_done = forallb done_at (seq 0 j) && (done_at j && forallb done_at (seq (S j) (length ids - S j)))) as ->.
  { unfold message_done. replace (length ids) with (j + S (length ids - S j))%nat at 1 by lia.
    rewrite seq_app, forallb_app. done. }
  destruct (done_at j) eqn:Hd; [|rewrite andb_false_r; done]. cbn [andb].
  rewrite (check_back_chain_ok _ j id Hj Hd) by (intros; by eapply back_fuel). cbn [obind].
  destruct (forallb done_at (seq (S j) _)); [|rewrite andb_false_r; done]. rewrite andb_true_r.
  apply check_front_chain_ok; try done.
  intros t Ht Hall. apply (back_fuel (S j - t)); [lia|]. intros i Hi. apply Hall. lia.
Qed.

Lemma message_done_at j : message_done = true -> (j < length ids)%nat -> done_at j = true.
Proof using.
  unfold message_done. rewrite forallb_forall. intros H Hj. apply H, in_seq. lia.
Qed.

Lemma find_starting_ok fuel j id first :
  message_done = true -> ids !! j = Some id -> ids !! 0%nat = Some first -> (j < fuel)%nat ->
  find_starting_set_id fuel r id = Ok (Some first).
Proof using Hmsg Hr.
  intros Hdone Hj H0 Hf. revert fuel id Hj Hf. induction j as [|j IH]; intros [|fuel] id Hj Hf; try lia;
    pose proof (lookup_lt_Some _ _ _ Hj) as Hlt; cbn [find_starting_set_id];
    rewrite (set_received _ id Hj), (message_done_at _ Hdone Hlt), (previous_link_of _ id Hj) by (by apply message_done_at);
    cbn [obind previous_of].
  - congruence.
  - destruct (lookup_lt_is_Some_2 ids j) as [id' Hj']; [lia|]. rewrite Hj'. apply IH; [done|lia].
Qed.

Lemma set_id_sequence_ok fuel j id :
  message_done = true -> ids !! j = Some id -> (length ids - j <= fuel)%nat ->
  set_id_sequence fuel r id = Ok (drop j ids).
Proof using Hmsg Hr.
  intros Hdone. revert j id. induction fuel as [|fuel IH]; intros j id Hj Hf;
    pose proof (lookup_lt_Some _ _ _ Hj) as Hlt; [lia|].
  cbn [set_id_sequence]. rewrite (next_of j id Hj) by (by apply message_done_at). cbn [obind].
  rewrite (drop_S _ _ _ Hj). destruct (ids !! S j) as [id'|] eqn:Hj'.
  - rewrite (IH (S j) id' Hj') by lia. done.
  - apply lookup_ge_None_1 in Hj'. rewrite drop_ge by lia. done.
Qed.

End Message.

(** Removing the buffers of a complete message yields its data. *)
Lemma extract_set_payloads_ok previous ids sets data got (r : MessageReconstructor.t) :
  message_sets previous ids sets data -> NoDup ids ->
  (forall j id s, ids !! j = Some id -> sets !! j = Some s -> set_done got s = true /\
    exists p n, r !! id = Some (partial_buffer got s p n)) ->
  exists r', extract_set_payloads r ids = Ok (data, r') /\
    forall i, r' !! i = if decide (i ∈ ids) then None else r !! i.
Proof.
  revert previous sets data r. induction ids as [|id ids IH]; intros previous [|s sets] data r H Hdup Hr; try done.
  { simpl in H. subst data. exists r. split; [done|]. intros i. rewrite decide_False by (apply not_elem_of_nil). done. }
  destruct H as (part & rest & -> & Hs & H). apply NoDup_cons in Hdup as [Hid Hdup].
  destruct (Hr 0%nat id s eq_refl eq_refl) as (Hd & p & n & Hb).
  cbn [extract_set_payloads]. unfold extract_set_payload. rewrite Hb. cbn [unwrap_opt obind].
  rewrite (reconstruct_partial _ _ _ _ Hd), (set_payload _ _ _ _ _ Hs). cbn [obind].
  destruct (IH (Some id) sets rest (delete id r) H Hdup) as (r' & -> & Hr').
  { intros j id' s' Hj Hs'. destruct (Hr (S j) id' s' Hj Hs') as (Hd' & p' & n' & Hb'). split; [done|].
    exists p', n'. rewrite lookup_delete_ne; [done|]. intros ->. apply Hid. by eapply list_elem_of_lookup_2. }
  exists r'. split; [done|]. intros i. rewrite Hr'. destruct (decide (i = id)) as [->|Hne].
  - rewrite (decide_False (P := id ∈ ids)) by done. rewrite lookup_delete_eq, decide_True by constructor. done.
  - rewrite lookup_delete_ne by done. apply decide_ext. rewrite elem_of_cons. tauto.
Qed.

(** A complete message is handed out with its identifiers, and only its buffers go away. *)
Lemma reconstruct_message_ok ids sets data got r j id :
  message_sets None ids sets data -> NoDup ids -> buffers_ok ids sets got r ->
  message_done ids sets got = true -> ids !! j = Some id ->
  exists r', reconstruct_message r id = Ok ((data, ids), r') /\
    forall i, r' !! i = if decide (i ∈ ids) then None else r !! i.
Proof.
  intros Hmsg Hdup Hr Hdone Hj. pose proof (lookup_lt_Some _ _ _ Hj) as Hlt.
  destruct (lookup_lt_is_Some_2 ids 0) as [first H0]; [lia|].
  assert (length ids <= size r)%nat as Hfuel.
  { rewrite <- (length_seq (length ids) 0). eapply (done_run_size ids sets data Hmsg Hdup got r Hr); [apply NoDup_seq|].
    intros i Hi%elem_of_seq. split; [lia|]. apply (message_done_at ids); [done|lia]. }
  unfold reconstruct_message.
  rewrite (find_starting_ok ids sets data Hmsg got r Hr _ j id first) by (done || unfold chain_fuel; lia).
  cbn [unwrap_opt obind].
  rewrite (set_id_sequence_ok ids sets data Hmsg got r Hr _ 0 first) by (done || unfold chain_fuel; lia).
  rewrite drop_0. cbn [obind].
  destruct (extract_set_payloads_ok None ids sets data got r Hmsg Hdup) as (r' & -> & Hr').
  { intros i id' s' Hi Hs'. pose proof (lookup_lt_Some _ _ _ Hi).
    destruct (done_buffer ids sets data Hmsg got r Hr i id' Hi) as (s'' & E & Hd & Hb);
      [apply (message_done_at ids); [done|lia]|].
    rewrite Hs' in E; injection E as <-. eauto. }
  exists r'. done.
Qed.

(** ** Receiving the fragments of many messages *)

(** A message as it was split: its set identifiers, its sets and its data. *)
Record msg : Type := Msg { m_ids : list Z; m_sets : list FragmentSet; m_data : list byte }.

#[export] Instance msg_eq_dec : EqDecision msg.
Proof. solve_decision. Defined.

Definition m_frags (m : msg) : list Fragment.t := concat (m_sets m).

Definition msg_ok (m : msg) : Prop :=
  message_sets None (m_ids m) (m_sets m) (m_data m) /\ NoDup (m_ids m) /\ m_ids m <> [].

(** All fragments of the message are among [got]. *)
Definition m_done (got : list Fragment.t) (m : msg) : bool := set_done got (m_frags m).

Lemma m_done_false m got f : f ∈ m_frags m -> f ∉ got -> m_done got m = false.
Proof. intros Hf Hn. apply not_true_iff_false. unfold m_done. rewrite set_done_true. intros H. by apply Hn, H. Qed.

Lemma m_frags_index m f :
  msg_ok m -> f ∈ m_frags m <-> exists j id s, m_ids m !! j = Some id /\ m_sets m !! j = Some s /\ f ∈ s.
Proof.
  intros (Hm & _ & _). unfold m_frags. rewrite elem_of_concat. split.
  - intros (s & Hf & [j Hj]%list_elem_of_lookup). pose proof (lookup_lt_Some _ _ _ Hj) as Hlt.
    rewrite (message_sets_length _ _ _ _ Hm) in Hlt. apply lookup_lt_is_Some_2 in Hlt as [id Hid]. eauto 6.
  - intros (j & id & s & _ & Hs & Hf). exists s. split; [done|]. by eapply list_elem_of_lookup_2.
Qed.

Lemma m_frag_id m f j id s :
  msg_ok m -> m_ids m !! j = Some id -> m_sets m !! j = Some s -> f ∈ s -> Fragment.id f = id.
Proof.
  intros (Hm & _ & _) Hid Hs [k Hk]%list_elem_of_lookup.
  destruct (message_sets_lookup _ _ _ _ j id Hm Hid) as (s' & part & Hs' & Hok).
  rewrite Hs in Hs'; injection Hs' as <-. by destruct (set_fragment_index _ _ _ _ _ Hok k f Hk) as (_ & ? & _).
Qed.

Lemma message_done_m_done m got : msg_ok m -> message_done (m_ids m) (m_sets m) got = m_done got m.
Proof.
  intros Hm. apply eq_true_iff_eq. unfold m_done. rewrite set_done_true.
  unfold message_done. rewrite forallb_forall. split.
  - intros H f (j & id & s & Hid & Hs & Hf)%(m_frags_index _ _ Hm).
    specialize (H j). unfold done_at in H. rewrite Hs in H. apply (proj1 (set_done_true got s)); [|done].
    apply H, in_seq. apply lookup_lt_Some in Hid. lia.
  - intros H j Hj%in_seq. destruct (lookup_lt_is_Some_2 (m_ids m) j) as [id Hid]; [lia|].
    destruct Hm as (Hmsg & Hdup & Hne). destruct (message_sets_lookup _ _ _ _ j id Hmsg Hid) as (s & part & Hs & _).
    unfold done_at. rewrite Hs, set_done_true. intros f Hf. apply H.
    apply m_frags_index; [done|]. eauto 6.
Qed.

(** A message has fragments, so without any it is not complete. *)
Lemma m_done_nil m : msg_ok m -> m_done [] m = false.
Proof.
  intros Hm. pose proof Hm as (Hmsg & _ & Hne). destruct (m_ids m) as [|id l] eqn:E; [done|]. rewrite <- E in *.
  destruct (message_sets_lookup _ _ _ _ 0 id Hmsg ltac:(by rewrite E)) as (s & part & Hs & Hok).
  pose proof (set_size _ _ _ _ _ Hok) as Hsz. destruct s as [|f s]; [unfold len in Hsz; simpl in Hsz; lia|].
  apply (m_done_false m [] f); [|apply not_elem_of_nil]. apply m_frags_index; [done|].
  exists 0%nat, id, (f :: s). rewrite E. split_and!; [done|done|constructor].
Qed.

Lemma partial_buffer_other got f s p n :
  f ∉ s -> partial_buffer (got ++ [f]) s p n = partial_buffer got s p n.
Proof.
  intros Hf. assert (forall g, g ∈ s -> g ∈ got ++ [f] <-> g ∈ got) as Hg.
  { intros g Hg. rewrite elem_of_app, list_elem_of_singleton. split; [intros [?| ->]; done|by left]. }
  assert (set_done (got ++ [f]) s = set_done got s) as Hd.
  { apply eq_true_iff_eq. rewrite !set_done_true. split; intros H g Hgs; apply Hg; auto. }
  unfold partial_buffer. rewrite Hd. f_equal. apply list_fmap_ext. intros i g Hi.
  unfold received. apply decide_ext, Hg. by eapply list_elem_of_lookup_2.
Qed.

Section World.

Context (W : list msg) (HW : forall m, m ∈ W -> msg_ok m).
Context (Hdisj : forall m m' id, m ∈ W -> m' ∈ W -> id ∈ m_ids m -> id ∈ m_ids m' -> m = m').

(** The reconstructor holds the partially received sets of the unfinished messages. *)
Record inv (got : list Fragment.t) (r : MessageReconstructor.t) : Prop := {
  inv_open m : m ∈ W -> m_done got m = false -> buffers_ok (m_ids m) (m_sets m) got r;
  inv_closed m id : m ∈ W -> m_done got m = true -> id ∈ m_ids m -> r !! id = None;
  inv_other id : (forall m, m ∈ W -> id ∉ m_ids m) -> r !! id = None
}.

Lemma inv_empty : inv [] ∅.
Proof using. split; intros; rewrite ?lookup_empty; try done. intros j id s _ _. right. split; [done|]. intros f _ Hf. by apply not_elem_of_nil in Hf. Qed.

Lemma owner_unique m m' f : m ∈ W -> m' ∈ W -> f ∈ m_frags m -> f ∈ m_frags m' -> m = m'.
Proof using HW Hdisj.
  intros Hm Hm' (j & id & s & Hid & Hs & Hf)%m_frags_index (j' & id' & s' & Hid' & Hs' & Hf')%m_frags_index; auto.
  apply (Hdisj m m' id); try done; [by eapply list_elem_of_lookup_2|].
  rewrite <- (m_frag_id m f j id s) by auto. rewrite (m_frag_id m' f j' id' s') by auto. by eapply list_elem_of_lookup_2.
Qed.

Lemma m_done_other m m' got f : m ∈ W -> m' ∈ W -> f ∈ m_frags m -> m' <> m -> m_done (got ++ [f]) m' = m_done got m'.
Proof using HW Hdisj.
  intros Hm Hm' Hf Hne. apply eq_true_iff_eq. unfold m_done. rewrite !set_done_true.
  split; intros H g Hg; specialize (H g Hg); rewrite elem_of_app, list_elem_of_singleton in *; [|by left].
  destruct H as [?| ->]; [done|]. destruct Hne. by apply (owner_unique m' m f).
Qed.

(** The buffer that [insert_new_fragment] updates. *)
Lemma insert_own got r m f :
  inv got r -> m ∈ W -> f ∈ m_frags m -> m_done got m = false ->
  exists buf, ReconstructionBuffer.insert_fragment
      (default (ReconstructionBuffer.new (Fragment.total_fragments f)) (r !! Fragment.id f)) f = Ok buf /\
    buffers_ok (m_ids m) (m_sets m) (got ++ [f]) (<[Fragment.id f := buf]> r) /\ Fragment.id f ∈ m_ids m.
Proof using HW.
  intros Hinv Hm Hf Hopen. pose proof (HW m Hm) as Hok. pose proof Hok as (Hmsg & Hdup & _).
  pose proof (inv_open _ _ Hinv m Hm Hopen) as Hb.
  pose proof Hf as (j & id & s & Hid & Hs & Hfs)%m_frags_index; [|done].
  rewrite (m_frag_id m f j id s) by done.
  destruct (message_sets_lookup _ _ _ _ j id Hmsg Hid) as (s' & part & Hs' & Hsok).
  rewrite Hs in Hs'; injection Hs' as <-.
  assert (default (ReconstructionBuffer.new (Fragment.total_fragments f)) (r !! id)
          = partial_buffer got s (previous_of None (m_ids m) j) (m_ids m !! S j)) as ->.
  { destruct (Hb j id s Hid Hs) as [->|[-> Hno]]; [done|]. simpl. by eapply new_buffer. }
  rewrite (insert_partial s id _ _ part Hsok got f) by done. eexists. split; [done|]. split; [|by eapply list_elem_of_lookup_2].
  intros i id' s'' Hid' Hs''. destruct (decide (i = j)) as [->|Hne].
  - left. rewrite Hid in Hid'; injection Hid' as <-. rewrite Hs in Hs''; injection Hs'' as <-. apply lookup_insert_eq.
  - assert (id <> id') as Hneq by (intros ->; apply Hne; exact (NoDup_lookup _ _ _ _ Hdup Hid' Hid)).
    assert (f ∉ s'') as Hnf by (intros Hf''; apply Hneq; rewrite <- (m_frag_id m f j id s), <- (m_frag_id m f i id' s''); done).
    rewrite lookup_insert_ne by done. rewrite partial_buffer_other by done.
    destruct (Hb i id' s'' Hid' Hs'') as [->|[-> Hno]]; [by left|right]. split; [done|].
    intros g Hg. rewrite elem_of_app, list_elem_of_singleton. intros [?| ->]; [by apply (Hno g)|done].
Qed.

Lemma buffers_ok_ext ids sets got r r' :
  (forall id, id ∈ ids -> r' !! id = r !! id) -> buffers_ok ids sets got r -> buffers_ok ids sets got r'.
Proof using. intros E H j id s Hid Hs. rewrite E by (by eapply list_elem_of_lookup_2). by apply H. Qed.

Lemma buffers_ok_other m m' got r f :
  m ∈ W -> m' ∈ W -> f ∈ m_frags m -> m' <> m ->
  buffers_ok (m_ids m') (m_sets m') got r -> buffers_ok (m_ids m') (m_sets m') (got ++ [f]) r.
Proof using HW Hdisj.
  intros Hm Hm' Hf Hne H j id s Hid Hs.
  assert (f ∉ s) as Hnf.
  { intros Hfs. apply Hne, (owner_unique m' m f); try done. apply m_frags_index; [auto|]. eauto 6. }
  rewrite partial_buffer_other by done. destruct (H j id s Hid Hs) as [?|[? Hno]]; [by left|right].
  split; [done|]. intros g Hg. rewrite elem_of_app, list_elem_of_singleton. intros [?| ->]; [by apply (Hno g)|done].
Qed.

(** Receiving a fragment of an unfinished message, again or for the first time: the message comes out
    exactly when it is complete. *)
Lemma insert_step got r m f :
  inv got r -> m ∈ W -> f ∈ m_frags m -> m_done got m = false ->
  exists r', insert_new_fragment r f
    = Ok (if m_done (got ++ [f]) m then Some (m_data m, m_ids m) else None, r') /\ inv (got ++ [f]) r'.
Proof using HW Hdisj.
  intros Hinv Hm Hf Hnew. destruct (insert_own got r m f Hinv Hm Hf Hnew) as (buf & Hins & Hb & Hid).
  pose proof (HW m Hm) as Hok. pose proof Hok as (Hmsg & Hdup & _).
  unfold insert_new_fragment. rewrite Hins. cbn [obind]. pose proof Hid as [k Hk]%list_elem_of_lookup.
  set (r1 := <[Fragment.id f := buf]> r) in *.
  rewrite (message_received _ _ _ Hmsg Hdup _ _ Hb k _ Hk), message_done_m_done by done. cbn [obind].
  assert (forall r', (forall i, i ∉ m_ids m -> r' !! i = r !! i) ->
    (m_done (got ++ [f]) m = false -> r' = r1) ->
    (m_done (got ++ [f]) m = true -> forall i, i ∈ m_ids m -> r' !! i = None) -> inv (got ++ [f]) r') as Hmk.
  { intros r' Hout Hopen Hclosed. split.
    - intros m' Hm' Hd. destruct (decide (m' = m)) as [->|Hne]; [rewrite Hopen by done; done|].
      rewrite (m_done_other m m') in Hd by done. apply (buffers_ok_other m m'); try done.
      eapply buffers_ok_ext; [|by eapply inv_open]. intros i Hi. apply Hout. intros Hi'. apply Hne. eauto.
    - intros m' i Hm' Hd Hi. destruct (decide (m' = m)) as [->|Hne]; [auto|].
      rewrite (m_done_other m m') in Hd by done. rewrite Hout; [by eapply inv_closed|].
      intros Hi'. apply Hne. eauto.
    - intros i Hi. rewrite Hout by auto. by eapply inv_other. }
  destruct (m_done (got ++ [f]) m) eqn:Hd.
  - rewrite <- message_done_m_done in Hd by done.
    destruct (reconstruct_message_ok _ _ _ _ _ k _ Hmsg Hdup Hb Hd Hk) as (r' & -> & Hr'). cbn [obind].
    exists r'. split; [done|]. apply Hmk; try done.
    + intros i Hi. rewrite Hr', decide_False by done. unfold r1. rewrite lookup_insert_ne; [done|]. intros <-. done.
    + intros _ i Hi. rewrite Hr', decide_True by done. done.
  - exists r1. split; [done|]. apply Hmk; try done.
    intros i Hi. unfold r1. rewrite lookup_insert_ne; [done|]. intros <-. done.
Qed.

End World.

(** ** Delivery *)

(** What the receiver hands out for a message. *)
Definition delivery (m : msg) : ReconstructedMessage := (m_data m, m_ids m).

(** The messages that are complete once the fragments [got] have arrived. *)
Definition delivered (W : list msg) (got : list Fragment.t) : list ReconstructedMessage :=
  delivery <$> filter (fun m => m_done got m = true) W.

Lemma filter_one_change (W : list msg) (P Q : msg -> bool) m :
  NoDup W -> m ∈ W -> P m = false -> (forall m', m' ∈ W -> m' <> m -> Q m' = P m') ->
  filter (fun m => Q m = true) W
  ≡ₚ (if Q m then [m] else []) ++ filter (fun m => P m = true) W.
Proof.
  intros HW Hm HP HQ. induction W as [|m0 W IH]; [by apply not_elem_of_nil in Hm|].
  apply NoDup_cons in HW as [Hm0 HW]. destruct (decide (m0 = m)) as [->|Hne].
  - assert (filter (fun m => Q m = true) W = filter (fun m => P m = true) W) as E.
    { clear IH. assert (forall m', m' ∈ W -> Q m' = P m') as H.
      { intros m' Hm'. apply HQ; [by constructor|]. intros ->. done. }
      clear -H. induction W as [|x W IH]; [done|]. rewrite !filter_cons, H by constructor.
      rewrite IH; [done|]. intros m' Hm'. apply H. by constructor. }
    rewrite !filter_cons, E, HP. rewrite (decide_False (P := false = true)) by done.
    destruct (Q m); [rewrite decide_True by done|rewrite decide_False by done]; done.
  - apply elem_of_cons in Hm as [->|Hm]; [done|]. rewrite !filter_cons, HQ by (done || constructor).
    specialize (IH HW Hm ltac:(intros; apply HQ; [by constructor|done])).
    destruct (P m0); [rewrite !decide_True by done|rewrite !decide_False by done]; rewrite IH; [|done].
    apply Permutation_middle.
Qed.

Lemma world_disjoint W :
  NoDup (concat (m_ids <$> W)) ->
  forall m m' id, m ∈ W -> m' ∈ W -> id ∈ m_ids m -> id ∈ m_ids m' -> m = m'.
Proof.
  induction W as [|m0 W IH]; intros Hd m m' id Hm Hm' Hid Hid'; [by apply not_elem_of_nil in Hm|].
  rewrite fmap_cons in Hd. cbn [concat] in Hd. apply NoDup_app in Hd as (_ & Hsep & Hd).
  assert (forall m1, m1 ∈ W -> id ∈ m_ids m1 -> id ∈ m_ids m0 -> False) as Hx.
  { intros m1 H1 Hi Hi0. apply (Hsep id Hi0). apply elem_of_concat. exists (m_ids m1). split; [done|].
    apply list_elem_of_fmap. eauto. }
  apply elem_of_cons in Hm as [->|Hm], Hm' as [->|Hm']; eauto; exfalso; eauto.
Qed.

Lemma world_NoDup W :
  (forall m, m ∈ W -> m_ids m <> []) -> NoDup (concat (m_ids <$> W)) -> NoDup W /\
  (forall m, m ∈ W -> NoDup (m_ids m)).
Proof.
  intros Hne. induction W as [|m0 W IH]; intros Hd.
  { split; [constructor|]. intros m Hm. by apply not_elem_of_nil in Hm. }
  rewrite fmap_cons in Hd. cbn [concat] in Hd. apply NoDup_app in Hd as (H0 & Hsep & Hd).
  destruct IH as [IH1 IH2]; [intros; apply Hne; by constructor|done|].
  split.
  - apply NoDup_cons. split; [|done]. intros Hin. pose proof (Hne m0 ltac:(constructor)) as Hn0.
    destruct (m_ids m0) as [|id l] eqn:E; [done|]. apply (Hsep id); [constructor|].
    apply elem_of_concat. exists (m_ids m0). rewrite E. split; [constructor|].
    rewrite <- E. apply list_elem_of_fmap. eauto.
  - intros m [->|Hm]%elem_of_cons; auto.
Qed.

Section Delivery.

Context (W : list msg) (HWd : NoDup W) (HW : forall m, m ∈ W -> msg_ok m).
Context (Hdisj : forall m m' id, m ∈ W -> m' ∈ W -> id ∈ m_ids m -> id ∈ m_ids m' -> m = m').

Lemma frag_recover m f : m ∈ W -> f ∈ m_frags m -> recover_fragment (Fragment.into_bytes f) = Ok f.
Proof using HW.
  intros Hm Hf. pose proof (HW m Hm) as Hok. pose proof Hf as (j & id & s & Hid & Hs & Hfs)%m_frags_index; [|done].
  destruct Hok as (Hmsg & _). destruct (message_sets_lookup _ _ _ _ j id Hmsg Hid) as (s' & part & Hs' & Hsok).
  rewrite Hs in Hs'; injection Hs' as <-. destruct (set_headers_ok _ _ _ _ _ Hsok f Hfs).
  apply try_from_bytes_iff. done.
Qed.

Lemma delivered_step m got f :
  m ∈ W -> f ∈ m_frags m -> f ∉ got ->
  delivered W (got ++ [f])
  ≡ₚ (if m_done (got ++ [f]) m then [delivery m] else []) ++ delivered W got.
Proof using HWd HW Hdisj.
  intros Hm Hf Hnew. unfold delivered.
  rewrite (filter_one_change W (m_done got) (m_done (got ++ [f])) m); try done.
  - rewrite fmap_app. destruct (m_done (got ++ [f]) m); done.
  - apply not_true_iff_false. unfold m_done. rewrite set_done_true. intros H. by apply Hnew, H.
  - intros m' Hm' Hne. by apply (m_done_other W HW Hdisj m m').
Qed.

Lemma receive_ok fs got r :
  inv W got r -> NoDup (got ++ fs) -> (forall f, f ∈ fs -> exists m, m ∈ W /\ f ∈ m_frags m) ->
  exists outs r', receive r (Fragment.into_bytes <$> fs) = Ok (outs, r') /\ inv W (got ++ fs) r' /\
    omap (fun o => o) outs ++ delivered W got ≡ₚ delivered W (got ++ fs).
Proof using HWd HW Hdisj.
  revert got r. induction fs as [|f fs IH]; intros got r Hinv Hdup Hown.
  { exists [], r. rewrite app_nil_r. done. }
  destruct (Hown f ltac:(constructor)) as (m & Hm & Hf).
  assert (f ∉ got) as Hnew.
  { apply NoDup_app in Hdup as (_ & Hsep & _). intros Hg. apply (Hsep f Hg). constructor. }
  rewrite cons_middle, app_assoc in Hdup |- *.
  destruct (insert_step W HW Hdisj got r m f Hinv Hm Hf (m_done_false m got f Hf Hnew)) as (r1 & Hins & Hinv1).
  destruct (IH (got ++ [f]) r1 Hinv1 Hdup) as (outs & r' & Hrec & Hinv' & Hperm);
    [intros g Hg; apply Hown; by constructor|].
  rewrite fmap_cons. cbn [receive]. rewrite (frag_recover m f Hm Hf). cbn [obind]. rewrite Hins. cbn [obind].
  rewrite Hrec. cbn [obind]. eexists _, r'. split; [done|]. split; [done|].
  rewrite <- Hperm, (delivered_step m got f Hm Hf Hnew). destruct (m_done (got ++ [f]) m); cbn [omap list_omap app].
  - rewrite Permutation_middle. done.
  - done.
Qed.

End Delivery.

Lemma m_done_all W m : m ∈ W -> m_done (concat (m_frags <$> W)) m = true.
Proof.
  intros Hm. unfold m_done. rewrite set_done_true. intros f Hf. apply elem_of_concat.
  exists (m_frags m). split; [done|]. apply list_elem_of_fmap. eauto.
Qed.

Lemma m_done_perm got got' m : got ≡ₚ got' -> m_done got m = m_done got' m.
Proof.
  intros Hp. apply eq_true_iff_eq. unfold m_done. rewrite !set_done_true.
  split; intros H f Hf; specialize (H f Hf); by rewrite Hp in *.
Qed.

Lemma inv_final W got r : inv W got r -> (forall m, m ∈ W -> m_done got m = true) -> r = ∅.
Proof.
  intros Hinv Hd. apply map_eq. intros id. rewrite lookup_empty.
  destruct (decide (Exists (fun m => id ∈ m_ids m) W)) as [(m & Hm & Hid)%Exists_exists|Hno].
  - eapply inv_closed; eauto.
  - eapply inv_other; eauto. intros m Hm Hid. apply Hno, Exists_exists. eauto.
Qed.

Lemma set_frags_NoDup previous ids sets data :
  message_sets previous ids sets data -> NoDup ids -> NoDup (concat sets) /\
  forall f, f ∈ concat sets -> Fragment.id f ∈ ids.
Proof.
  revert previous sets data. induction ids as [|id ids IH]; intros previous [|s sets] data H Hdup; try done.
  { split; [constructor|]. intros f Hf. by apply not_elem_of_nil in Hf. }
  destruct H as (part & rest & -> & Hs & H). apply NoDup_cons in Hdup as [Hid Hdup].
  destruct (IH _ _ _ H Hdup) as [IH1 IH2]. cbn [concat].
  assert (forall f, f ∈ s -> Fragment.id f = id) as Hsid.
  { intros f [k Hk]%list_elem_of_lookup. by destruct (set_fragment_index _ _ _ _ _ Hs k f Hk) as (_ & ? & _). }
  split.
  - apply NoDup_app. split_and!; [by eapply set_NoDup| |done]. intros f Hf Hf'. apply Hid. rewrite <- (Hsid f Hf). auto.
  - intros f [Hf|Hf]%elem_of_app; [rewrite (Hsid f Hf); constructor|constructor; auto].
Qed.

Lemma world_frags_NoDup W :
  (forall m, m ∈ W -> msg_ok m) -> NoDup (concat (m_ids <$> W)) -> NoDup (concat (m_frags <$> W)).
Proof.
  intros HW. induction W as [|m W IH]; intros Hd; [constructor|].
  rewrite fmap_cons in Hd. rewrite fmap_cons. cbn [concat] in Hd |- *. apply NoDup_app in Hd as (H0 & Hsep & Hd).
  pose proof (HW m ltac:(constructor)) as (Hmsg & Hdup & _).
  destruct (set_frags_NoDup _ _ _ _ Hmsg Hdup) as [Hn Hin].
  apply NoDup_app. split_and!; [done| |apply IH; [intros; apply HW; by constructor|done]].
  intros f Hf (fs & Hfs & (m' & -> & Hm')%list_elem_of_fmap)%elem_of_concat.
  apply (Hsep (Fragment.id f)); [by apply Hin|]. apply elem_of_concat. exists (m_ids m').
  pose proof (HW m' ltac:(by constructor)) as (Hmsg' & Hdup' & _).
  split; [by apply (set_frags_NoDup _ _ _ _ Hmsg' Hdup')|apply list_elem_of_fmap; eauto].
Qed.

(** C9: the reconstructor delivers under any interleaving.  Take any number of messages, each
    split into linked sets, with all set identifiers distinct, and let their fragments arrive in
    any order.  Parsing and inserting them one by one never fails; every message is handed out
    exactly once, with its data and set identifiers, nothing else is handed out, and no buffer
    is left. *)
Theorem reconstruct_any_interleaving (W : list msg) (fs : list Fragment.t) :
  (forall m, m ∈ W -> message_sets None (m_ids m) (m_sets m) (m_data m) /\ m_ids m <> []) ->
  NoDup (concat (m_ids <$> W)) -> fs ≡ₚ concat (m_frags <$> W) ->
  exists outs, receive new (Fragment.into_bytes <$> fs) = Ok (outs, ∅) /\
    omap (fun o => o) outs ≡ₚ delivery <$> W.
Proof.
  intros Hmsgs Hids Hfs.
  destruct (world_NoDup W ltac:(intros m Hm; apply (Hmsgs m Hm)) Hids) as [HWd Hdups].
  assert (forall m, m ∈ W -> msg_ok m) as HW by (intros m Hm; destruct (Hmsgs m Hm); repeat split; auto).
  assert (forall m, m ∈ W -> m_done fs m = true) as Hall.
  { intros m Hm. rewrite (m_done_perm fs _ m Hfs). by apply m_done_all. }
  destruct (receive_ok W HWd HW (world_disjoint W Hids) fs [] ∅ (inv_empty W)) as (outs & r' & Hrec & Hinv & Hperm).
  { simpl. rewrite Hfs. by apply world_frags_NoDup. }
  { intros f Hf. rewrite Hfs in Hf. apply elem_of_concat in Hf as (l & Hf & (m & -> & Hm)%list_elem_of_fmap). eauto. }
  exists outs. rewrite (inv_final W fs r' Hinv Hall) in Hrec. split; [done|].
  unfold delivered in Hperm. simpl app in Hperm.
  assert (filter (fun m => m_done [] m = true) W = []) as E0.
  { apply filter_none. intros m Hm. rewrite (m_done_nil m) by auto. done. }
  rewrite E0, app_nil_r in Hperm. rewrite Hperm. f_equiv.
  rewrite filter_all by exact Hall. done.
Qed.

(** Two messages, one of two fragments and one of a single fragment, with the fragments of the
    first out of order and the second in between. *)
Lemma reconstruct_any_interleaving_witness :
  let f1 := Fragment.mk (FragmentHeader.mk 1 2 1 None None) [x0a; x0b; x0c; x0d] in
  let f2 := Fragment.mk (FragmentHeader.mk 1 2 2 None None) [x0e] in
  let g := Fragment.mk (FragmentHeader.mk 2 1 1 None None) [x0f] in
  exists outs, receive new (Fragment.into_bytes <$> [f2; g; f1]) = Ok (outs, ∅) /\
    omap (fun o => o) outs ≡ₚ [([x0a; x0b; x0c; x0d; x0e], [1]); ([x0f], [2])].
Proof.
  intros f1 f2 g.
  assert (message_sets None [1] [[f1; f2]] [x0a; x0b; x0c; x0d; x0e]) as H1.
  { destruct (split_message_sets 11 [1] [x0a; x0b; x0c; x0d; x0e] [1] []) as (sets & Hs & Hm).
    - lia.
    - repeat constructor; unfold is_i32, i32_min, i32_max; lia.
    - split; vm_compute; reflexivity.
    - vm_compute; reflexivity.
    - apply NoDup_singleton.
    - vm_compute in Hs. injection Hs as <-. exact Hm. }
  assert (message_sets None [2] [[g]] [x0f]) as H2.
  { destruct (split_message_sets 11 [2] [x0f] [2] []) as (sets & Hs & Hm).
    - lia.
    - repeat constructor; unfold is_i32, i32_min, i32_max; lia.
    - split; vm_compute; reflexivity.
    - vm_compute; reflexivity.
    - apply NoDup_singleton.
    - vm_compute in Hs. injection Hs as <-. exact Hm. }
  apply (reconstruct_any_interleaving [Msg [1] [[f1; f2]] [x0a; x0b; x0c; x0d; x0e]; Msg [2] [[g]] [x0f]] [f2; g; f1]).
  - intros m [->|[->|[]%not_elem_of_nil]%elem_of_cons]%elem_of_cons; done.
  - apply (bool_decide_unpack (NoDup _)). vm_compute. exact I.
  - simpl. unfold m_frags. simpl. transitivity [f2; f1; g]; [by constructor; constructor|constructor].
Defined.

(** ** A single message, end to end *)

Lemma receive_single m fs got r :
  msg_ok m -> inv [m] got r -> got ++ fs ≡ₚ m_frags m -> fs <> [] ->
  exists r', receive r (Fragment.into_bytes <$> fs)
             = Ok (replicate (length fs - 1) None ++ [Some (delivery m)], r').
Proof.
  intros Hm. assert (forall m', m' ∈ [m] -> msg_ok m') as HW by (by intros m' ->%list_elem_of_singleton).
  assert (forall m1 m2 id, m1 ∈ [m] -> m2 ∈ [m] -> id ∈ m_ids m1 -> id ∈ m_ids m2 -> m1 = m2) as Hdisj
    by (by intros m1 m2 id ->%list_elem_of_singleton ->%list_elem_of_singleton).
  assert (m ∈ [m]) as Hin by constructor.
  assert (NoDup (m_frags m)) as HF by (destruct Hm as (Hmsg & Hd & _); by eapply set_frags_NoDup).
  revert got r. induction fs as [|f fs IH]; intros got r Hinv Hp Hne; [done|]. clear Hne.
  assert (NoDup (got ++ f :: fs)) as Hdup by (by rewrite Hp).
  assert (f ∈ m_frags m) as Hf by (rewrite <- Hp; apply elem_of_app; right; constructor).
  assert (f ∉ got) as Hnew by (intros Hg; apply NoDup_app in Hdup as (_ & Hs & _); apply (Hs f Hg); constructor).
  destruct (insert_step [m] HW Hdisj got r m f Hinv Hin Hf (m_done_false m got f Hf Hnew)) as (r1 & Hins & Hinv1).
  rewrite fmap_cons. cbn [receive]. rewrite (frag_recover [m] HW m f Hin Hf). cbn [obind]. rewrite Hins. cbn [obind].
  destruct fs as [|f' fs].
  - assert (m_done (got ++ [f]) m = true) as ->
      by (unfold m_done; rewrite set_done_true; intros g; rewrite <- Hp; done).
    exists r1. done.
  - rewrite (m_done_false m (got ++ [f]) f').
    + rewrite cons_middle, app_assoc in Hp. destruct (IH (got ++ [f]) r1 Hinv1 Hp) as (r' & ->); [done|].
      exists r'. cbn [obind length]. rewrite !Nat.sub_succ, !Nat.sub_0_r. done.
    + rewrite <- Hp. apply elem_of_app. right. do 2 constructor.
    + rewrite cons_middle, app_assoc in Hdup. apply NoDup_app in Hdup as (_ & Hs & _).
      intros Hg. apply (Hs f' Hg). constructor.
Qed.

(** C2: what the sender splits, the receiver gets.  Every non-empty message with distinct set
    identifiers is split without a panic, and the packets of its fragments, received in any
    order by a fresh reconstructor, yield nothing until the last one arrives, then exactly the
    message with its set identifiers, and leave no buffer behind. *)
Theorem split_reconstruct_roundtrip mps rng message ids rng' :
  10 < mps < 2 ^ 40 -> Forall is_i32 rng -> 0 < len message < 2 ^ 53 ->
  generate_set_ids (Z.to_nat (total_number_of_sets (len message) mps)) rng = Ok (ids, rng') ->
  NoDup ids ->
  exists sets, split_into_sets rng message mps = Ok sets /\
    forall fs, fs ≡ₚ concat sets ->
      receive new (Fragment.into_bytes <$> fs)
      = Ok (replicate (length fs - 1) None ++ [Some (message, ids)], ∅).
Proof.
  intros Hmps Hrng Hlen Hids Hdup.
  destruct (split_message_sets mps rng message ids rng' Hmps Hrng Hlen Hids Hdup) as (sets & Hsplit & Hsets).
  exists sets. split; [done|]. intros fs Hfs. pose (m := Msg ids sets message).
  assert (msg_ok m) as Hm.
  { repeat split; try done. simpl. intros ->. destruct sets; [|done]. simpl in Hsets. subst message.
    unfold len in Hlen; simpl in Hlen; lia. }
  assert (forall m', m' ∈ [m] -> msg_ok m') as HW by (by intros m' ->%list_elem_of_singleton).
  destruct (receive_single m fs [] ∅ Hm (inv_empty [m])) as (r' & Hrec); [done| |].
  { intros ->. apply Permutation_nil_l in Hfs. unfold m_frags in *.
    pose proof (message_sets_data _ _ _ _ Hsets) as Hd. rewrite <- Hfs in Hd. simpl in Hd. subst message.
    unfold len in Hlen; simpl in Hlen; lia. }
  destruct (receive_ok [m] (NoDup_singleton m) HW
    ltac:(by intros m1 m2 id ->%list_elem_of_singleton ->%list_elem_of_singleton) fs [] ∅ (inv_empty [m]))
    as (outs & r2 & Hrec2 & Hinv & _).
  { simpl. rewrite Hfs. eapply set_frags_NoDup; eauto. }
  { intros f Hf. exists m. split; [constructor|]. unfold m_frags; simpl. by rewrite <- Hfs. }
  rewrite Hrec in Hrec2. injection Hrec2 as _ <-. unfold new. rewrite Hrec. f_equal. f_equal.
  apply (inv_final [m] fs r' Hinv). intros m' ->%list_elem_of_singleton.
  unfold m_done. rewrite set_done_true. intros f Hf. by rewrite Hfs.
Qed.

(** A message of 20 bytes in packets of 16 bytes, as three fragments received last to first. *)
Lemma split_reconstruct_roundtrip_witness :
  exists sets, split_into_sets [9] (replicate 20 x07) 16 = Ok sets /\ length (concat sets) = 3%nat /\
    receive new (Fragment.into_bytes <$> rev (concat sets))
    = Ok ([None; None; Some (replicate 20 x07, [9])], ∅).
Proof.
  destruct (split_reconstruct_roundtrip 16 [9] (replicate 20 x07) [9] []) as (sets & Hs & Hall).
  - lia.
  - repeat constructor; unfold is_i32, i32_min, i32_max; lia.
  - split; vm_compute; reflexivity.
  - vm_compute; reflexivity.
  - apply (bool_decide_unpack (NoDup [9])). vm_compute; exact I.
  - exists sets. split; [exact Hs|]. vm_compute in Hs. injection Hs as <-. split; [reflexivity|].
    apply Hall. symmetry. apply Permutation_rev.
Defined.

(** ** Fragments no sender produces *)

(** A fragment whose position exceeds the buffer created for its set panics.  The buffer is
    sized by the first fragment of the set to arrive, and later fragments are placed by their own
    position without a comparison with that size. *)
Theorem position_beyond_buffer_panics r f buf :
  r !! Fragment.id f = Some buf ->
  len (ReconstructionBuffer.fragments buf) < Fragment.current_fragment f ->
  insert_new_fragment r f = Panic IndexOutOfBounds.
Proof.
  intros Hbuf Hlen. unfold insert_new_fragment. rewrite Hbuf. simpl default.
  unfold ReconstructionBuffer.insert_fragment. rewrite orb_comm.
  destruct (Z.leb_spec (len (ReconstructionBuffer.fragments buf)) (Fragment.current_fragment f - 1)); [done|lia].
Qed.

(** Two well-formed packets of the same set, the first of a set of two fragments, the second of
    a set of three, crash the receiver. *)
Lemma position_beyond_buffer_panics_witness :
  let f1 := Fragment.mk (FragmentHeader.mk 7 2 1 None None) [x01] in
  let f2 := Fragment.mk (FragmentHeader.mk 7 3 3 None None) [x01] in
  exists r, receive new [Fragment.into_bytes f1] = Ok ([None], r) /\
    recover_fragment (Fragment.into_bytes f2) = Ok f2 /\
    insert_new_fragment r f2 = Panic IndexOutOfBounds.
Proof.
  intros f1 f2.
  exists {[7 := ReconstructionBuffer.mk false None None [Some f1; None]]}.
  split; [vm_compute; reflexivity|]. split; [vm_compute; reflexivity|].
  apply (position_beyond_buffer_panics _ f2 (ReconstructionBuffer.mk false None None [Some f1; None]));
    vm_compute; reflexivity.
Defined.

(** The walks stop at the chain's end or never.  [walk next n x] holds when [n] steps of
    [next] can be taken from [x]. *)
Section Walks.
Context (next : Z -> option Z).

Fixpoint walk (n : nat) (x : Z) : Prop :=
  match n with
  | O => True
  | S n' => exists y, next x = Some y /\ walk n' y
  end.

(** The position after [n] steps. *)
Fixpoint walk_at (n : nat) (x : Z) : Z :=
  match n with
  | O => x
  | S n' => match next x with Some y => walk_at n' y | None => x end
  end.

Lemma walk_add n m x : walk (n + m) x <-> walk n x /\ walk m (walk_at n x).
Proof.
  revert x. induction n as [|n IH]; intros x; simpl; [tauto|]. split.
  - intros (y & E & H). rewrite E. apply IH in H as [H1 H2]. eauto.
  - intros [(y & E & H1) H2]. rewrite E in H2. exists y. split; [done|]. by apply IH.
Qed.

Lemma walk_at_add n m x : walk n x -> walk_at (n + m) x = walk_at m (walk_at n x).
Proof.
  revert x. induction n as [|n IH]; intros x; simpl; [done|]. intros (y & -> & H). by apply IH.
Qed.

Lemma walk_le n m x : (n <= m)%nat -> walk m x -> walk n x.
Proof. intros Hle. replace m with (n + (m - n))%nat by lia. rewrite walk_add. tauto. Qed.

(** A walk that comes back to where it started can be continued for ever. *)
Lemma walk_loop p x n : (0 < p)%nat -> walk p x -> walk_at p x = x -> walk n x.
Proof.
  intros Hp Hw Hx. induction n as [n IH] using lt_wf_ind.
  destruct (decide (n <= p)%nat) as [Hle|]; [by eapply walk_le|].
  replace n with (p + (n - p))%nat by lia. apply walk_add. split; [done|]. rewrite Hx. apply IH. lia.
Qed.

(** Pigeonhole: a walk with more steps than there are elements to visit never ends. *)
Lemma walk_forever (X : gset Z) x n :
  (forall k, (k <= size X)%nat -> walk_at k x ∈ X) -> walk (size X) x -> walk n x.
Proof.
  intros HX Hw.
  destruct (decide (NoDup ((fun k => walk_at k x) <$> seq 0 (S (size X))))) as [Hd|Hd].
  - exfalso. assert (list_to_set ((fun k => walk_at k x) <$> seq 0 (S (size X))) ⊆ X) as Hsub.
    { intros y. rewrite elem_of_list_to_set, list_elem_of_fmap. intros (k & -> & Hk%elem_of_seq). apply HX. lia. }
    apply subseteq_size in Hsub. rewrite size_list_to_set in Hsub by done.
    rewrite length_fmap, length_seq in Hsub. lia.
  - apply dup_lookup in Hd as (a & b & y & Hab & Ha & Hb).
    rewrite list_lookup_fmap in Ha, Hb. apply fmap_Some in Ha as (a' & Ha & ->). apply fmap_Some in Hb as (b' & Hb & E).
    apply lookup_seq in Ha as [-> Ha']. apply lookup_seq in Hb as [-> Hb']. simpl in E.
    assert (walk a x /\ walk (b - a) (walk_at a x)) as [Ha Hb].
    { apply walk_add. replace (a + (b - a))%nat with b by lia. eapply walk_le; [|done]. lia. }
    destruct (decide (n <= a)%nat) as [|Hn]; [by eapply walk_le|].
    replace n with (a + (n - a))%nat by lia. apply walk_add. split; [done|].
    apply (walk_loop (b - a)); [lia|done|]. rewrite <- walk_at_add by done.
    replace (a + (b - a))%nat with b by lia. done.
Qed.

End Walks.

Lemma walk_buffers (next : Z -> option Z) (r : t) x n :
  (forall y z, next y = Some z -> is_Some (r !! y)) -> walk next (chain_fuel r) x -> walk next n x.
Proof.
  intros Hdom Hw. unfold chain_fuel in Hw. rewrite <- size_dom in Hw.
  apply (walk_forever next (dom r)); [|eapply walk_le; [|exact Hw]; lia].
  intros k Hk. apply elem_of_dom.
  assert (walk next (k + 1) x) as H by (eapply walk_le; [|exact Hw]; lia).
  apply walk_add in H as [_ (z & Hz & _)]. eauto.
Qed.

(** One step of each walk. *)
Definition back_step (r : t) (x : Z) : option Z :=
  b ← r !! x; y ← ReconstructionBuffer.next_fragments_set_id b;
  if is_set_fully_received r y then Some y else None.

Definition front_step (r : t) (x : Z) : option Z :=
  b ← r !! x; y ← ReconstructionBuffer.previous_fragments_set_id b;
  if is_set_fully_received r y then Some y else None.

Definition start_step (r : t) (x : Z) : option Z :=
  b ← r !! x; if ReconstructionBuffer.is_complete b then ReconstructionBuffer.previous_fragments_set_id b else None.

Definition sequence_step (r : t) (x : Z) : option Z :=
  b ← r !! x; ReconstructionBuffer.next_fragments_set_id b.

(** [go] follows [step]: it runs out of fuel exactly where the walk goes on, and more fuel
    does not change a result. *)
Definition follows {A} (go : nat -> Z -> outcome ChunkingError A) (step : Z -> option Z) : Prop :=
  forall n x, (go n x = Panic Diverges <-> walk step n x) /\
    (go n x <> Panic Diverges -> forall m, (n <= m)%nat -> go m x = go n x).

(** A body that makes at most one recursive call, at the next element, and passes a missing
    result on. *)
Lemma follows_rec {A} (go : nat -> Z -> outcome ChunkingError A) (step : Z -> option Z)
    (stop : Z -> outcome ChunkingError A) (k : Z -> A -> A) :
  (forall x, go 0%nat x = Panic Diverges) ->
  (forall n x, go (S n) x =
     match step x with Some y => let? v := go n y in Ok (k x v) | None => stop x end) ->
  (forall x, stop x <> Panic Diverges) -> follows go step.
Proof.
  intros H0 HS Hstop n. induction n as [|n IH]; intros x.
  { rewrite H0. split; [done|intros []; done]. }
  rewrite HS. cbn [walk]. split.
  - destruct (step x) as [y|] eqn:E.
    + destruct (IH y) as [Hy _]. split.
      * intros H. exists y. split; [done|]. apply Hy. destruct (go n y) as [| |[]]; simpl in *; congruence.
      * intros (y' & [= <-] & Hw). apply Hy in Hw as ->. done.
    + split; [intros H; by apply Hstop in H|intros (y & ? & ?); done].
  - intros Hd [|m] Hm; [lia|]. rewrite HS. destruct (step x) as [y|]; [|done].
    destruct (IH y) as [_ Hy]. rewrite (Hy); [done| |lia]. intros E. rewrite E in Hd. done.
Qed.

Lemma check_back_chain_follows r : follows (fun n => check_back_chain n r) (back_step r).
Proof.
  apply (follows_rec _ _ (fun x => match r !! x with
    | Some b => Ok (negb (is_some (ReconstructionBuffer.next_fragments_set_id b)))
    | None => Panic UnwrapNone end) (fun _ v => v)).
  - done.
  - intros n x. unfold check_back_chain; fold check_back_chain.
    unfold next_linked_set_id, back_step. destruct (r !! x) as [b|]; [|done]. cbn.
    destruct (ReconstructionBuffer.next_fragments_set_id b) as [y|]; [|done]. cbn.
    destruct (is_set_fully_received r y); [|done]. by destruct (check_back_chain n r y).
  - intros x. by destruct (r !! x).
Qed.

Lemma check_front_chain_follows r : follows (fun n => check_front_chain n r) (front_step r).
Proof.
  apply (follows_rec _ _ (fun x => match r !! x with
    | Some b => Ok (negb (is_some (ReconstructionBuffer.previous_fragments_set_id b)))
    | None => Panic UnwrapNone end) (fun _ v => v)).
  - done.
  - intros n x. unfold check_front_chain; fold check_front_chain.
    unfold previous_linked_set_id, front_step. destruct (r !! x) as [b|]; [|done]. cbn.
    destruct (ReconstructionBuffer.previous_fragments_set_id b) as [y|]; [|done]. cbn.
    destruct (is_set_fully_received r y); [|done]. by destruct (check_front_chain n r y).
  - intros x. by destruct (r !! x).
Qed.

Lemma find_starting_set_id_follows r : follows (fun n => find_starting_set_id n r) (start_step r).
Proof.
  apply (follows_rec _ _ (fun x => Ok (if is_set_fully_received r x then Some x else None)) (fun _ v => v)); try done.
  intros n x. unfold find_starting_set_id; fold find_starting_set_id.
  unfold previous_linked_set_id, start_step, is_set_fully_received. destruct (r !! x) as [b|]; [|done]. cbn.
  destruct (ReconstructionBuffer.is_complete b); [|done].
  destruct (ReconstructionBuffer.previous_fragments_set_id b) as [y|]; [|done].
  by destruct (find_starting_set_id n r y).
Qed.

Lemma set_id_sequence_follows r : follows (fun n => set_id_sequence n r) (sequence_step r).
Proof.
  apply (follows_rec _ _ (fun x => match r !! x with Some _ => Ok [x] | None => Panic UnwrapNone end) cons).
  - done.
  - intros n x. unfold set_id_sequence; fold set_id_sequence.
    unfold next_linked_set_id, sequence_step. destruct (r !! x) as [b|]; [|done]. cbn.
    by destruct (ReconstructionBuffer.next_fragments_set_id b).
  - intros x. by destruct (r !! x).
Qed.

Lemma follows_adequate {A} (go : nat -> Z -> outcome ChunkingError A) step r :
  follows go step -> (forall y z, step y = Some z -> is_Some (r !! y)) ->
  forall n x, go n x <> Panic Diverges -> go (chain_fuel r) x = go n x.
Proof.
  intros Hf Hdom n x Hn.
  assert (go (chain_fuel r) x <> Panic Diverges) as Hc.
  { intros E. apply Hn. apply Hf. apply (walk_buffers step r x n Hdom). by apply Hf. }
  destruct (decide (n <= chain_fuel r)%nat); [|symmetry]; apply Hf; auto; lia.
Qed.

(** The walks over linked sets return whenever the source's recursion does.  A walk visits
    buffered sets only, so one that has not returned after as many steps as there are buffers
    visits a set twice and never returns; with the fuel the model uses, the four walks have the
    result they have with any fuel for which they return at all. *)
Theorem chain_walks_fuel_enough r id n :
  (check_back_chain n r id <> Panic Diverges -> check_back_chain (chain_fuel r) r id = check_back_chain n r id) /\
  (check_front_chain n r id <> Panic Diverges -> check_front_chain (chain_fuel r) r id = check_front_chain n r id) /\
  (find_starting_set_id n r id <> Panic Diverges ->
    find_starting_set_id (chain_fuel r) r id = find_starting_set_id n r id) /\
  (set_id_sequence n r id <> Panic Diverges -> set_id_sequence (chain_fuel r) r id = set_id_sequence n r id).
Proof.
  split_and!; revert n id.
  - apply (follows_adequate _ _ r (check_back_chain_follows r)).
    intros y z H. unfold back_step in H. destruct (r !! y); [eauto|done].
  - apply (follows_adequate _ _ r (check_front_chain_follows r)).
    intros y z H. unfold front_step in H. destruct (r !! y); [eauto|done].
  - apply (follows_adequate _ _ r (find_starting_set_id_follows r)).
    intros y z H. unfold start_step in H. destruct (r !! y); [eauto|done].
  - apply (follows_adequate _ _ r (set_id_sequence_follows r)).
    intros y z H. unfold sequence_step in H. destruct (r !! y); [eauto|done].
Qed.

(** A full set of one-byte fragments whose last fragment links the set [next]. *)
Definition linked_set (id next : Z) : list Fragment.t :=
  (fun c => Fragment.mk (FragmentHeader.mk id 255 c None (if c =? 255 then Some next else None)) [x00]) <$> zrange 1 256.

(** Two such sets, each the successor of the other. *)
Definition crossed_packets : list (list byte) :=
  Fragment.into_bytes <$> linked_set 1 2 ++ linked_set 2 1.

(** Packets with crossed links stop the receiver for ever.  Each packet of two full sets,
    each naming the other as its successor, parses; all but the last are buffered; the last one
    starts a walk over the links that does not return. *)
Theorem crossed_links_diverge :
  Forall (fun p => exists f, recover_fragment p = Ok f) crossed_packets /\
  receive new crossed_packets = Panic Diverges /\
  exists r, receive new (take 509 crossed_packets) = Ok (replicate 509 None, r).
Proof.
  split_and!.
  - apply Forall_forall. intros p Hp%list_elem_of_In.
    assert (forallb (fun p => match recover_fragment p with Ok _ => true | _ => false end) crossed_packets = true)
      as Hall by (vm_compute; reflexivity).
    rewrite forallb_forall in Hall. specialize (Hall p Hp). destruct (recover_fragment p) as [f| |]; eauto; done.
  - vm_compute. reflexivity.
  - eexists. vm_compute. reflexivity.
Qed.
