(* ===== verification/Addressing.v ===== *)
(** * Addresses of clients and nodes

    Models [common/nymsphinx/addressing/src]: a client's address as three
    public keys, in bytes and as text, and the routing address of a node in a
    packet's header; with the conversions of public keys of
    [common/crypto/src/asymmetric]. *)

From S2P Require Import Prelude Bytes.
From Stdlib.Strings Require Import Byte.
#[local] Open Scope Z_scope.

(** ** Public keys *)

(** Decompression of points and base58 are of other crates. *)
Class KeyApi := {
  ed25519_valid : list byte -> bool;
  base58_encode : list byte -> list byte;
  base58_decode : list byte -> option (list byte)
}.

(** The characters that separate the parts of an address. *)
Definition AT : byte := x40.
Definition DOT : byte := x2e.

Class KeyApiLaws `{KeyApi} : Prop := {
  base58_decode_encode b : base58_decode (base58_encode b) = Some b;
  base58_alphabet b c : c ∈ base58_encode b -> c <> AT /\ c <> DOT
}.

Definition PUBLIC_KEY_LENGTH : Z := 32.

Inductive Ed25519RecoveryError : Type := MalformedBytes | MalformedPublicKeyString.

Inductive KeyRecoveryError : Type := InvalidSizePublicKey (received expected : Z) | MalformedEncryptionKeyString.

Inductive RecipientFormattingError : Type :=
| MalformedRecipientError
| MalformedIdentityError (e : Ed25519RecoveryError)
| MalformedEncryptionKeyError (e : KeyRecoveryError)
| MalformedGatewayError (e : Ed25519RecoveryError).

Section Keys.
Context `{KeyApi}.

(** [identity::PublicKey]: 32 bytes that encode a point. *)
Definition identity_ok (b : list byte) : bool := (len b =? PUBLIC_KEY_LENGTH) && ed25519_valid b.

Definition identity_from_bytes (b : list byte) : outcome Ed25519RecoveryError (list byte) :=
  if identity_ok b then Ok b else Err MalformedBytes.

Definition identity_from_base58_string (s : list byte) : outcome Ed25519RecoveryError (list byte) :=
  match base58_decode s with
  | Some b => identity_from_bytes b
  | None => Err MalformedPublicKeyString
  end.

(** [encryption::PublicKey]: any 32 bytes. *)
Definition encryption_from_bytes (b : list byte) : outcome KeyRecoveryError (list byte) :=
  if len b =? PUBLIC_KEY_LENGTH then Ok b else Err (InvalidSizePublicKey (len b) PUBLIC_KEY_LENGTH).

Definition encryption_from_base58_string (s : list byte) : outcome KeyRecoveryError (list byte) :=
  match base58_decode s with
  | Some b => encryption_from_bytes b
  | None => Err MalformedEncryptionKeyString
  end.

End Keys.

(** ** Clients, [clients.rs] *)

(** [str::split] by a character. *)
Fixpoint split_on (c : byte) (s : list byte) : list (list byte) :=
  match s with
  | [] => [[]]
  | b :: s =>
      if bool_decide (b = c) then [] :: split_on c s
      else match split_on c s with
           | part :: parts => (b :: part) :: parts
           | [] => [[b]]
           end
  end.

Module Recipient.

Record t : Type := mk {
  client_identity : list byte;
  client_encryption_key : list byte;
  gateway : list byte
}.

#[export] Instance t_eq_dec : EqDecision t.
Proof. solve_decision. Defined.

Definition LEN : Z := PUBLIC_KEY_LENGTH + PUBLIC_KEY_LENGTH + PUBLIC_KEY_LENGTH.

Section Formats.
Context `{KeyApi}.

(** The keys of a recipient are keys. *)
Definition valid (r : t) : Prop :=
  identity_ok (client_identity r) = true /\ len (client_encryption_key r) = PUBLIC_KEY_LENGTH /\
  identity_ok (gateway r) = true.

Definition to_bytes (r : t) : list byte := client_identity r ++ client_encryption_key r ++ gateway r.

Definition try_from_bytes (bytes : list byte) : outcome RecipientFormattingError t :=
  let? identity_bytes := slice bytes 0 PUBLIC_KEY_LENGTH in
  let? enc_key_bytes := slice bytes PUBLIC_KEY_LENGTH (PUBLIC_KEY_LENGTH + PUBLIC_KEY_LENGTH) in
  let? gateway_bytes := slice bytes (PUBLIC_KEY_LENGTH + PUBLIC_KEY_LENGTH) (len bytes) in
  let? client_identity := map_err MalformedIdentityError (identity_from_bytes identity_bytes) in
  let? client_encryption_key := map_err MalformedEncryptionKeyError (encryption_from_bytes enc_key_bytes) in
  let? gateway := map_err MalformedGatewayError (identity_from_bytes gateway_bytes) in
  Ok (mk client_identity client_encryption_key gateway).

(** [Display]: [identity.encryption@gateway]. *)
Definition to_string (r : t) : list byte :=
  base58_encode (client_identity r) ++ [DOT] ++ base58_encode (client_encryption_key r) ++ [AT] ++
  base58_encode (gateway r).

Definition try_from_base58_string (full_address : list byte) : outcome RecipientFormattingError t :=
  match split_on AT full_address with
  | [client_half; gateway_half] =>
      match split_on DOT client_half with
      | [identity_part; encryption_part] =>
          let? client_identity := map_err MalformedIdentityError (identity_from_base58_string identity_part) in
          let? client_encryption_key := map_err MalformedEncryptionKeyError (encryption_from_base58_string encryption_part) in
          let? gateway := map_err MalformedGatewayError (identity_from_base58_string gateway_half) in
          Ok (mk client_identity client_encryption_key gateway)
      | _ => Err MalformedRecipientError
      end
  | _ => Err MalformedRecipientError
  end.

End Formats.

End Recipient.

(** ** Nodes, [nodes.rs] *)

Inductive NymNodeRoutingAddressError : Type :=
| NoBytesProvided
| TooFewBytesProvided (protocol_version received required : Z)
| InvalidIpVersion (received : Z)
| TooSmallBytesRepresentation (required : Z).

(** [SocketAddr]: the octets of the address and the port; for IPv6 also flow information and scope. *)
Inductive SocketAddr : Type :=
| SocketAddrV4 (octets : list byte) (port : Z)
| SocketAddrV6 (octets : list byte) (port flowinfo scope_id : Z).

Definition NODE_ADDRESS_LENGTH : Z := 32.

Module NymNodeRoutingAddress.

Definition ip_octets (a : SocketAddr) : list byte :=
  match a with SocketAddrV4 o _ => o | SocketAddrV6 o _ _ _ => o end.

Definition port_of (a : SocketAddr) : Z := match a with SocketAddrV4 _ p => p | SocketAddrV6 _ p _ _ => p end.

Definition bytes_min_len (a : SocketAddr) : Z :=
  match a with SocketAddrV4 _ _ => 7 | SocketAddrV6 _ _ _ _ => 19 end.

Definition addr_type_as_u8 (a : SocketAddr) : byte :=
  match a with SocketAddrV4 _ _ => x04 | SocketAddrV6 _ _ _ _ => x06 end.

Definition as_bytes (a : SocketAddr) : list byte :=
  addr_type_as_u8 a :: be_encode 2 (port_of a) ++ ip_octets a.

Definition as_zero_padded_bytes (a : SocketAddr) (expected_len : Z) : list byte :=
  let self_bytes := as_bytes a in
  if expected_len <=? len self_bytes then self_bytes
  else self_bytes ++ replicate (Z.to_nat (expected_len - len self_bytes)) x00.

Definition try_from_bytes (b : list byte) : outcome NymNodeRoutingAddressError SocketAddr :=
  match b with
  | [] => Err NoBytesProvided
  | ip_version :: _ =>
      let? ip :=
        (if byte_to_Z ip_version =? 4 then
           (if len b <? 7 then Err (TooFewBytesProvided 4 (len b) 7)
            else let? octets := slice b 3 7 in Ok (fun port => SocketAddrV4 octets port))
         else if byte_to_Z ip_version =? 6 then
           (if len b <? 19 then Err (TooFewBytesProvided 6 (len b) 19)
            else let? octets := slice b 3 19 in Ok (fun port => SocketAddrV6 octets port 0 0))
         else Err (InvalidIpVersion (byte_to_Z ip_version))) in
      let? port_bytes := slice b 1 3 in
      Ok (ip (be_decode port_bytes))
  end.

(** [TryInto<NodeAddressBytes>]; [copy_from_slice] panics on another length. *)
Definition try_into (a : SocketAddr) : outcome NymNodeRoutingAddressError (list byte) :=
  if NODE_ADDRESS_LENGTH <? bytes_min_len a then Err (TooSmallBytesRepresentation (bytes_min_len a))
  else
    let padded_address := as_zero_padded_bytes a NODE_ADDRESS_LENGTH in
    if len padded_address =? NODE_ADDRESS_LENGTH then Ok padded_address else Panic ExplicitPanic.

(** An address of the type: octets and a port of the right size. *)
Definition valid (a : SocketAddr) : Prop :=
  0 <= port_of a < 2 ^ 16 /\
  match a with SocketAddrV4 o _ => len o = 4 | SocketAddrV6 o _ _ _ => len o = 16 end.

(** The part of an address that a packet keeps. *)
Definition routed (a : SocketAddr) : SocketAddr :=
  match a with SocketAddrV4 o p => SocketAddrV4 o p | SocketAddrV6 o p _ _ => SocketAddrV6 o p 0 0 end.

End NymNodeRoutingAddress.

(** ** Round trips *)

Lemma split_on_other c s : c ∉ s -> split_on c s = [s].
Proof.
  induction s as [|b s IH]; [done|]. rewrite not_elem_of_cons. intros [Hb Hs]. simpl.
  rewrite bool_decide_false, IH by done. done.
Qed.

Lemma split_on_app c l k : c ∉ l -> split_on c (l ++ c :: k) = l :: split_on c k.
Proof.
  induction l as [|b l IH]; simpl; [rewrite bool_decide_true by done; done|].
  rewrite not_elem_of_cons. intros [Hb Hl]. rewrite bool_decide_false, IH by done. done.
Qed.

Module RecipientFacts.
Import Recipient.

Section Formats.
Context `{KeyApi}.

Lemma identity_len b : identity_ok b = true -> len b = PUBLIC_KEY_LENGTH.
Proof. unfold identity_ok. rewrite andb_true_iff, Z.eqb_eq. tauto. Qed.

Lemma len_to_bytes r : valid r -> len (to_bytes r) = LEN.
Proof.
  intros (Hi%identity_len & He & Hg%identity_len). unfold to_bytes, LEN. autorewrite with len. lia.
Qed.

Lemma try_from_parts i e g :
  len i = PUBLIC_KEY_LENGTH -> len e = PUBLIC_KEY_LENGTH -> len g = PUBLIC_KEY_LENGTH ->
  try_from_bytes (i ++ e ++ g) =
    if negb (ed25519_valid i) then Err (MalformedIdentityError MalformedBytes)
    else if negb (ed25519_valid g) then Err (MalformedGatewayError MalformedBytes)
    else Ok (mk i e g).
Proof.
  intros Hi He Hg. unfold try_from_bytes.
  rewrite (slice_middle [] i (e ++ g)) by done. cbn [obind].
  rewrite (slice_middle i e g) by lia. cbn [obind].
  replace (PUBLIC_KEY_LENGTH + PUBLIC_KEY_LENGTH) with (len (i ++ e)) by (autorewrite with len; lia).
  rewrite app_assoc, slice_from. cbn [obind].
  unfold identity_from_bytes, encryption_from_bytes, identity_ok. rewrite Hi, Hg, He, !Z.eqb_refl. simpl.
  destruct (ed25519_valid i), (ed25519_valid g); done.
Qed.

(** A recipient's bytes are read back as the recipient. *)
Lemma to_bytes_roundtrip r : valid r -> try_from_bytes (to_bytes r) = Ok r.
Proof.
  intros (Hi & He & Hg). pose proof (identity_len _ Hi). pose proof (identity_len _ Hg).
  unfold identity_ok in Hi, Hg. apply andb_true_iff in Hi as [_ Hi], Hg as [_ Hg].
  unfold to_bytes. rewrite try_from_parts, Hi, Hg by done. destruct r; done.
Qed.

(** 96 bytes never abort the program, and if they are read as a recipient they are its bytes. *)
Lemma try_from_bytes_inv b :
  len b = LEN ->
  (exists e, try_from_bytes b = Err e) \/ exists r, try_from_bytes b = Ok r /\ valid r /\ to_bytes r = b.
Proof.
  intros Hl. unfold LEN, PUBLIC_KEY_LENGTH in Hl.
  assert (exists i e g, b = i ++ e ++ g /\ len i = 32 /\ len e = 32 /\ len g = 32) as (i & e & g & -> & Hi & He & Hg).
  { exists (take 32 b), (take 32 (drop 32 b)), (drop 32 (drop 32 b)).
    rewrite !take_drop. unfold len in *. rewrite !length_take, !length_drop. split; [done|lia]. }
  rewrite try_from_parts by done. destruct (ed25519_valid i) eqn:Vi; simpl; [|eauto].
  destruct (ed25519_valid g) eqn:Vg; simpl; [|eauto]. right; exists (mk i e g); split_and!; [done| |done].
  unfold valid, identity_ok; simpl. rewrite Hi, Hg, Vi, Vg. done.
Qed.

(** The text of a recipient is read back as the recipient. *)
Lemma to_string_roundtrip `{!KeyApiLaws} r : valid r -> try_from_base58_string (to_string r) = Ok r.
Proof.
  assert (forall b, AT ∉ base58_encode b) as Hat by (intros b Hin; destruct (base58_alphabet b _ Hin); done).
  assert (forall b, DOT ∉ base58_encode b) as Hdot by (intros b Hin; destruct (base58_alphabet b _ Hin); done).
  intros (Hi & He & Hg). destruct r as [i e g]. unfold try_from_base58_string, to_string; cbn [client_identity client_encryption_key gateway] in *.
  rewrite (app_assoc _ [DOT]), (app_assoc _ (base58_encode e)). cbn [app].
  rewrite split_on_app, split_on_other; [|apply Hat|].
  2: { rewrite !elem_of_app, list_elem_of_singleton. intros [[?|?]|?]; [by eapply Hat|done|by eapply Hat]. }
  rewrite <- app_assoc. cbn [app]. rewrite split_on_app, split_on_other by apply Hdot.
  unfold identity_from_base58_string, encryption_from_base58_string. rewrite !base58_decode_encode.
  unfold identity_from_bytes, encryption_from_bytes. rewrite Hi, Hg, He. done.
Qed.

End Formats.

End RecipientFacts.

Module RoutingFacts.
Import NymNodeRoutingAddress.

(** An address is read back from its bytes, whatever follows them; an IPv6
    address loses its flow information and its scope. *)
Lemma as_bytes_roundtrip a rest : valid a -> try_from_bytes (as_bytes a ++ rest) = Ok (routed a).
Proof.
  intros [Hp Ho].
  assert (forall o p k, 0 <= p < 2 ^ 16 ->
    slice (x04 :: be_encode 2 p ++ o ++ k) 3 (3 + len o) = Ok (E := NymNodeRoutingAddressError) o /\
    slice (x06 :: be_encode 2 p ++ o ++ k) 3 (3 + len o) = Ok (E := NymNodeRoutingAddressError) o) as Hs.
  { intros o p k ?; split; [apply (slice_middle (x04 :: be_encode 2 p))|apply (slice_middle (x06 :: be_encode 2 p))];
      autorewrite with len; rewrite len_be_encode; lia. }
  assert (forall t p k, 0 <= p < 2 ^ 16 -> slice (t :: be_encode 2 p ++ k) 1 3 = Ok (E := NymNodeRoutingAddressError) (be_encode 2 p)) as Hport.
  { intros t p k ?. apply (slice_middle [t]); [done|]. rewrite len_be_encode. done. }
  pose proof (len_nonneg rest).
  assert (forall p, 0 <= p < 2 ^ 16 -> be_decode (be_encode 2 p) = p) as Hd.
  { intros p ?. rewrite be_decode_encode. apply Z.mod_small. change (256 ^ Z.of_nat 2) with (2 ^ 16). lia. }
  destruct a as [o p|o p fl sc]; simpl in Hp, Ho; unfold try_from_bytes, as_bytes; cbn [addr_type_as_u8 port_of ip_octets app];
    rewrite <- app_assoc; change (byte_to_Z x04) with 4; change (byte_to_Z x06) with 6; cbn [Z.eqb Pos.eqb];
    (rewrite (proj2 (Z.ltb_ge _ _)); [|autorewrite with len; rewrite len_be_encode; lia]).
  - destruct (Hs o p rest Hp) as [E _]. rewrite Ho in E. change (3 + 4) with 7 in E. rewrite E. cbn [obind]. rewrite Hport by done. cbn [obind]. rewrite Hd by done. done.
  - destruct (Hs o p rest Hp) as [_ E]. rewrite Ho in E. change (3 + 16) with 19 in E. rewrite E. cbn [obind]. rewrite Hport by done. cbn [obind]. rewrite Hd by done. done.
Qed.

Lemma len_as_bytes a : valid a -> len (as_bytes a) = bytes_min_len a.
Proof.
  intros [_ Ho]. destruct a; unfold as_bytes; cbn in Ho |- *; rewrite len_cons, len_app, len_be_encode; simpl; lia.
Qed.

(** Every address fits the field of a packet, and is read back from it. *)
Lemma node_address_roundtrip a :
  valid a -> exists b, try_into a = Ok b /\ len b = NODE_ADDRESS_LENGTH /\ try_from_bytes b = Ok (routed a).
Proof.
  intros Hv. pose proof (len_as_bytes a Hv) as Hl.
  assert (bytes_min_len a < NODE_ADDRESS_LENGTH) as Hmin by (destruct a; done).
  unfold try_into, as_zero_padded_bytes. cbv zeta.
  rewrite (proj2 (Z.ltb_ge _ _)) by lia. rewrite (proj2 (Z.leb_gt _ _)) by lia.
  assert (len (as_bytes a ++ replicate (Z.to_nat (NODE_ADDRESS_LENGTH - len (as_bytes a))) x00) = NODE_ADDRESS_LENGTH) as E.
  { rewrite len_app. unfold len at 2. rewrite length_replicate. lia. }
  rewrite E, Z.eqb_refl. eexists; split_and!; [done|done|]. by apply as_bytes_roundtrip.
Qed.

(** What is read from bytes is an address. *)
Lemma try_from_bytes_valid b a : try_from_bytes b = Ok a -> valid a /\ routed a = a.
Proof.
  assert (forall lb ub p, 0 <= lb <= ub -> slice b lb ub = Ok (E := NymNodeRoutingAddressError) p -> len p = ub - lb) as Hlen.
  { intros lb ub p Hb E. unfold slice in E. destruct (_ && (ub <=? len b)) eqn:Eb; [|done]. injection E as <-.
    apply andb_true_iff in Eb as [_ Eb%Z.leb_le]. rewrite len_take, len_drop by lia. lia. }
  assert (forall p, slice b 1 3 = Ok (E := NymNodeRoutingAddressError) p -> 0 <= be_decode p < 2 ^ 16) as Hport.
  { intros p E. pose proof (be_decode_range p) as Hr. rewrite (Hlen 1 3 p) in Hr by (done || lia). done. }
  unfold try_from_bytes. destruct b as [|v rest]; [done|].
  destruct (byte_to_Z v =? 4); [|destruct (byte_to_Z v =? 6); [|done]];
    (destruct (_ <? _); [done|]); intros E; ok_inv E; ok_inv E0; injection E0 as <-; ok_inv E; injection E as <-;
    (split; [split; [by apply Hport|]|done]).
  - by apply (Hlen 3 7).
  - by apply (Hlen 3 19).
Qed.

End RoutingFacts.
