(* ===== verification/ExitPolicy.v ===== *)
(** * Exit policies

    Models [common/exit-policy/src]: the rules by which an exit gateway
    accepts or rejects the addresses its clients ask for, their text format,
    and the filter of the network requester that applies them
    ([service-providers/network-requester/src/request_filter]). *)

From stdpp Require Import strings.
From Stdlib Require Import ZifyBool Strings.Byte.
From S2P Require Import Prelude Bytes Text IpText Addressing.
#[local] Open Scope Z_scope.

(** ** Errors, [policy/error.rs] *)

Inductive PolicyError : Type :=
| InvalidIpV4Mask (mask : Z)
| InvalidIpV6Mask (mask : Z)
| InvalidPolicyAction (action : str)
| MalformedIpAddress (addr : str)
| MaskWithStar (mask : str)
| MaskWithV4Star (mask : str)
| MaskWithV6Star (mask : str)
| InvalidMask (mask : str)
| InvalidPort (raw : str)
| InvalidRange (start end_ : Z)
| MalformedAddressPortPattern (raw : str)
| MalformedAddressPolicy (raw : str)
| NoExitPolicyPrefix (entry : str).

(** ** Policies, [policy/address_policy.rs] *)

Inductive AddressPolicyAction : Type := Accept | Reject | Accept6 | Reject6.

#[export] Instance AddressPolicyAction_eq_dec : EqDecision AddressPolicyAction.
Proof. solve_decision. Defined.

Module Action.

Definition is_accept (a : AddressPolicyAction) : bool := match a with Accept | Accept6 => true | Reject | Reject6 => false end.

Definition from_str (s : str) : outcome PolicyError AddressPolicyAction :=
  if bool_decide (s = chars "accept") then Ok Accept
  else if bool_decide (s = chars "reject") then Ok Reject
  else if bool_decide (s = chars "accept6") then Ok Accept6
  else if bool_decide (s = chars "reject6") then Ok Reject6
  else Err (InvalidPolicyAction s).

Definition to_string (a : AddressPolicyAction) : str :=
  match a with
  | Accept => chars "accept"
  | Reject => chars "reject"
  | Accept6 => chars "accept6"
  | Reject6 => chars "reject6"
  end.

End Action.

Inductive IpPatternT : Type :=
| Star
| V4Star
| V6Star
| PatternV4 (addr_prefix : list byte) (mask : Z)
| PatternV6 (addr_prefix : list byte) (mask : Z).

#[export] Instance IpPatternT_eq_dec : EqDecision IpPatternT.
Proof. solve_decision. Defined.

Definition is_ipv4 (a : IpAddr) : bool := match a with V4 _ => true | V6 _ => false end.

(** The arms of a [match] on two literals, in their order. *)
Definition parse_addr (s : str) : outcome PolicyError IpAddr :=
  let parsed :=
    if starts_with 91 s && ends_with 93 s then ipv6_from_str (take (length s - 2) (drop 1 s))
    else ip_from_str s in
  match parsed with Some a => Ok a | None => Err (MalformedIpAddress s) end.

Definition parse_port (s : str) : outcome PolicyError Z :=
  match parse_unsigned (2 ^ 16 - 1) s with Some port => Ok port | None => Err (InvalidPort s) end.

Module IpPattern.

Definition from_addr_and_mask (address : IpAddr) (target_mask : Z) : outcome PolicyError IpPatternT :=
  match address with
  | V4 addr_prefix =>
      if target_mask =? 0 then Ok V4Star
      else if target_mask <=? 32 then Ok (PatternV4 addr_prefix target_mask)
      else Err (InvalidIpV4Mask target_mask)
  | V6 addr_prefix =>
      if target_mask =? 0 then Ok V6Star
      else if target_mask <=? 128 then Ok (PatternV6 addr_prefix target_mask)
      else Err (InvalidIpV6Mask target_mask)
  end.

(** The masks are those of the constructor above, so [32 - mask] and [128 - mask] are shifts of the type. *)
Definition matches (p : IpPatternT) (addr : IpAddr) : bool :=
  match p, addr with
  | Star, _ => true
  | V4Star, V4 _ => true
  | V6Star, V6 _ => true
  | PatternV4 addr_prefix mask, V4 addr =>
      Z.shiftr (be_decode addr_prefix) (32 - mask) =? Z.shiftr (be_decode addr) (32 - mask)
  | PatternV6 addr_prefix mask, V6 addr =>
      Z.shiftr (be_decode addr_prefix) (128 - mask) =? Z.shiftr (be_decode addr) (128 - mask)
  | _, _ => false
  end.

Definition to_string (p : IpPatternT) : str :=
  match p with
  | Star => chars "*"
  | V4Star => chars "*4"
  | V6Star => chars "*6"
  | PatternV4 addr_prefix mask => print_ip (V4 addr_prefix) ++ chars "/" ++ print_number 10 mask
  | PatternV6 addr_prefix mask => print_ip (V6 addr_prefix) ++ chars "/" ++ print_number 10 mask
  end.

Definition from_str (s : str) : outcome PolicyError IpPatternT :=
  let '(ip_s, mask_s) :=
    match split_once 47 s with Some (before, after) => (before, Some after) | None => (s, None) end in
  if bool_decide (ip_s = chars "*") then
    match mask_s with Some m => Err (MaskWithStar m) | None => Ok Star end
  else if bool_decide (ip_s = chars "*4") then
    match mask_s with Some m => Err (MaskWithV4Star m) | None => Ok V4Star end
  else if bool_decide (ip_s = chars "*6") then
    match mask_s with Some m => Err (MaskWithV6Star m) | None => Ok V6Star end
  else
    match mask_s with
    | Some m =>
        let? a := parse_addr ip_s in
        match parse_unsigned u8_max m with
        | Some m => from_addr_and_mask a m
        | None => Err (InvalidMask m)
        end
    | None =>
        let? a := parse_addr ip_s in
        let m := if is_ipv4 a then 32 else 128 in
        from_addr_and_mask a m
    end.

(** The patterns that [from_str] makes. *)
Definition valid (p : IpPatternT) : Prop :=
  match p with
  | Star | V4Star | V6Star => True
  | PatternV4 o mask => length o = 4%nat /\ 1 <= mask <= 32
  | PatternV6 o mask => length o = 16%nat /\ 1 <= mask <= 128
  end.

End IpPattern.

Module PortRange.

Record t : Type := mk { start : Z; end_ : Z }.

#[global] Instance t_eq_dec : EqDecision t.
Proof. solve_decision. Defined.

Definition new_unchecked (start end_ : Z) : outcome PolicyError t :=
  if start =? 0 then Panic ExplicitPanic
  else if start <=? end_ then Ok (mk start end_)
  else Panic ExplicitPanic.

Definition new_all : outcome PolicyError t := new_unchecked 1 65535.
Definition new_zero : t := mk 0 0.
Definition new (start end_ : Z) : option t :=
  if negb (start =? 0) && (start <=? end_) then Some (mk start end_) else None.
Definition new_singleton (value : Z) : t := mk value value.

Definition contains (r : t) (port : Z) : bool := (start r <=? port) && (port <=? end_ r).
Definition is_all (r : t) : bool := (start r =? 1) && (end_ r =? 65535).

Definition to_string (r : t) : str :=
  if is_all r then chars "*"
  else if start r =? end_ r then print_number 10 (start r)
  else print_number 10 (start r) ++ chars "-" ++ print_number 10 (end_ r).

Definition from_str (s : str) : outcome PolicyError t :=
  if bool_decide (s = chars "*") then new_all
  else
    match split_once 45 s with
    | Some (before, after) =>
        let? start := parse_port before in
        let? end_ := parse_port after in
        match new start end_ with Some r => Ok r | None => Err (InvalidRange start end_) end
    | None =>
        let? value := parse_port s in
        Ok (new_singleton value)
    end.

(** The ranges that [from_str] makes. *)
Definition valid (r : t) : Prop :=
  0 <= start r /\ end_ r < 2 ^ 16 /\ (1 <= start r <= end_ r \/ start r = end_ r).

End PortRange.

Module AddressPortPattern.

Record t : Type := mk { ip_pattern : IpPatternT; ports : PortRange.t }.

#[global] Instance t_eq_dec : EqDecision t.
Proof. solve_decision. Defined.

(** Port 0 stands for every port. *)
Definition matches (p : t) (addr : IpAddr) (port : Z) : bool :=
  if port =? 0 then IpPattern.matches (ip_pattern p) addr
  else IpPattern.matches (ip_pattern p) addr && PortRange.contains (ports p) port.

Definition to_string (p : t) : str := IpPattern.to_string (ip_pattern p) ++ chars ":" ++ PortRange.to_string (ports p).

Definition from_str (s : str) : outcome PolicyError t :=
  match rsplit_once 58 s with
  | None => Err (MalformedAddressPortPattern s)
  | Some (before, after) =>
      if bool_decide (after = []) then Err (MalformedAddressPortPattern s)
      else
        let? ip_pattern := IpPattern.from_str before in
        let? ports := PortRange.from_str after in
        Ok (mk ip_pattern ports)
  end.

Definition valid (p : t) : Prop := IpPattern.valid (ip_pattern p) /\ PortRange.valid (ports p).

End AddressPortPattern.

Module AddressPolicyRule.

Record t : Type := mk { action : AddressPolicyAction; pattern : AddressPortPattern.t }.

#[global] Instance t_eq_dec : EqDecision t.
Proof. solve_decision. Defined.

Definition from_str (s : str) : outcome PolicyError t :=
  match split_once 32 s with
  | None => Err (MalformedAddressPolicy s)
  | Some (action, pattern) =>
      let? action := Action.from_str action in
      let? pattern := AddressPortPattern.from_str pattern in
      Ok (mk action pattern)
  end.

Definition to_string (r : t) : str := Action.to_string (action r) ++ chars " " ++ AddressPortPattern.to_string (pattern r).

End AddressPolicyRule.

Module AddressPolicy.

Record t : Type := mk { rules : list AddressPolicyRule.t }.

Definition new : t := mk [].

Definition new_open : outcome PolicyError t :=
  let? all := PortRange.new_all in
  Ok (mk [AddressPolicyRule.mk Accept (AddressPortPattern.mk Star all)]).

Definition is_open (p : t) : bool :=
  match rules p with
  | [rule] =>
      bool_decide (AddressPolicyRule.action rule = Accept) &&
      bool_decide (AddressPortPattern.ip_pattern (AddressPolicyRule.pattern rule) = Star) &&
      PortRange.is_all (AddressPortPattern.ports (AddressPolicyRule.pattern rule))
  | _ => false
  end.

(** The first rule whose pattern matches decides. *)
Definition allows (p : t) (addr : IpAddr) (port : Z) : option bool :=
  (fun rule => Action.is_accept (AddressPolicyRule.action rule)) <$>
    List.find (fun rule => AddressPortPattern.matches (AddressPolicyRule.pattern rule) addr port) (rules p).

Definition ip (a : SocketAddr) : IpAddr :=
  match a with SocketAddrV4 o _ => V4 o | SocketAddrV6 o _ _ _ => V6 o end.

Definition allows_sockaddr (p : t) (addr : SocketAddr) : option bool :=
  allows p (ip addr) (NymNodeRoutingAddress.port_of addr).

Definition push (p : t) (action : AddressPolicyAction) (pattern : AddressPortPattern.t) : t :=
  mk (rules p ++ [AddressPolicyRule.mk action pattern]).

Definition push_rule (p : t) (rule : AddressPolicyRule.t) : t := mk (rules p ++ [rule]).

Definition valid (p : t) : Prop := Forall (fun r => AddressPortPattern.valid (AddressPolicyRule.pattern r)) (rules p).

End AddressPolicy.

(** ** The text format, [lib.rs] *)

Definition EXIT_POLICY_FIELD_NAME : str := chars "ExitPolicy".
Definition COMMENT_CHAR : Z := 35.

Definition parse_address_policy_rule (rule : str) : outcome PolicyError AddressPolicyRule.t :=
  match strip_prefix EXIT_POLICY_FIELD_NAME rule with
  | None => Err (NoExitPolicyPrefix rule)
  | Some rest => AddressPolicyRule.from_str (trim rest)
  end.

(** Collecting results stops at the first error. *)
Fixpoint collect {E A B} (f : A -> outcome E B) (l : list A) : outcome E (list B) :=
  match l with
  | [] => Ok []
  | a :: l =>
      let? b := f a in
      let? bs := collect f l in
      Ok (b :: bs)
  end.

Definition strip_comment (maybe_rule : str) : str :=
  trim (match split_once COMMENT_CHAR maybe_rule with Some (before, _) => before | None => maybe_rule end).

Definition parse_exit_policy (exit_policy : str) : outcome PolicyError AddressPolicy.t :=
  let? rules :=
    collect parse_address_policy_rule
      (List.filter (fun rule => negb (bool_decide (rule = []))) (strip_comment <$> lines exit_policy)) in
  Ok (AddressPolicy.mk rules).

Definition format_exit_policy (policy : AddressPolicy.t) : str :=
  trim_end
    (foldl (fun accumulator rule => accumulator ++ rule ++ [NEWLINE]) []
       ((fun rule => EXIT_POLICY_FIELD_NAME ++ chars " " ++ AddressPolicyRule.to_string rule) <$> AddressPolicy.rules policy)).

(** ** The filter of the network requester, [request_filter] *)

Inductive NetworkRequesterError : Type :=
| CouldNotResolveHost (remote : list byte)
| EmptyResolvedAddresses (remote : list byte)
| AddressNotCoveredByExitPolicy (addr : SocketAddr).

Module ExitPolicyRequestFilter.

Section Resolver.
(** [tokio::net::lookup_host]. *)
Context (lookup_host : list byte -> option (list SocketAddr)).

Fixpoint check_all (policy : AddressPolicy.t) (addrs : list SocketAddr) : outcome NetworkRequesterError bool :=
  match addrs with
  | [] => Ok true
  | addr :: addrs =>
      match AddressPolicy.allows_sockaddr policy addr with
      | None => Err (AddressNotCoveredByExitPolicy addr)
      | Some false => Ok false
      | Some true => check_all policy addrs
      end
  end.

Definition check (policy : AddressPolicy.t) (remote : list byte) : outcome NetworkRequesterError bool :=
  match lookup_host remote with
  | None => Err (CouldNotResolveHost remote)
  | Some addrs => if bool_decide (addrs = []) then Err (EmptyResolvedAddresses remote) else check_all policy addrs
  end.

End Resolver.

End ExitPolicyRequestFilter.
