(* ===== verification/AllowedHosts.v ===== *)
(** * The request filter of the network requester

    Models [service-providers/network-requester/src/request_filter]: the
    filter applies the exit policy or, when it is configured so, the lists of
    allowed hosts of [allowed_hosts], and remembers the hosts it refused.  A
    [String] is its UTF-8 bytes.  Loading and refreshing the lists is not
    modelled. *)

From Stdlib Require Import Strings.Byte.
From S2P Require Import Prelude Bytes Utf8 Text IpText Addressing ExitPolicy.
#[local] Open Scope Z_scope.

(** The crates [ipnetwork] and [publicsuffix]: networks, and the registrable domain and the public suffix of a name,
    with whether the suffix is on the list. *)
Class HostApi := {
  IpNetwork : Type;
  #[global] IpNetwork_eq_dec :: EqDecision IpNetwork;
  network_of_ip : IpAddr -> IpNetwork;
  network_contains : IpNetwork -> IpAddr -> bool;
  network_from_str : list byte -> option IpNetwork;
  psl_domain : list byte -> option (list byte);
  psl_suffix : list byte -> option (list byte * bool)
}.

(** The network of an address has the address in it. *)
Class HostLaws `{HostApi} : Prop := { network_of_ip_contains ip : network_contains (network_of_ip ip) ip = true }.

(** ** Socket addresses as text, as in the standard library *)

Definition PERCENT : Z := 37.
Definition OPEN_BRACKET : Z := 91.
Definition CLOSE_BRACKET : Z := 93.

Definition read_given_char (c : Z) (p : str) : option str :=
  match p with x :: p => if x =? c then Some p else None | [] => None end.

Definition read_port (p : str) : option (Z * str) :=
  match read_given_char COLON p with Some p => read_number 10 (2 ^ 16 - 1) (length p) true p | None => None end.

Definition read_scope_id (p : str) : option (Z * str) :=
  match read_given_char PERCENT p with Some p => read_number 10 (2 ^ 32 - 1) (length p) true p | None => None end.

Definition read_socket_addr_v4 (p : str) : option (SocketAddr * str) :=
  match read_ipv4_addr p with
  | Some (o, p) => match read_port p with Some (port, p) => Some (SocketAddrV4 o port, p) | None => None end
  | None => None
  end.

Definition read_socket_addr_v6 (p : str) : option (SocketAddr * str) :=
  match read_given_char OPEN_BRACKET p with
  | None => None
  | Some p =>
      match read_ipv6_addr p with
      | None => None
      | Some (o, p) =>
          let '(scope_id, p) := match read_scope_id p with Some r => r | None => (0, p) end in
          match read_given_char CLOSE_BRACKET p with
          | None => None
          | Some p => match read_port p with Some (port, p) => Some (SocketAddrV6 o port 0 scope_id, p) | None => None end
          end
      end
  end.

Definition read_socket_addr (p : str) : option (SocketAddr * str) :=
  match read_socket_addr_v4 p with Some r => Some r | None => read_socket_addr_v6 p end.

Definition socket_from_str (s : str) : option SocketAddr := parse_with read_socket_addr s.

(** The parsers of the standard library read bytes. *)
Definition as_text (b : list byte) : str := byte_to_Z <$> b.

(** ** Lists of hosts, [host.rs], [group.rs], [hosts.rs] *)

Section Hosts.
Context `{HostApi}.

Inductive Host : Type :=
| HostDomain (domain : list byte)
| HostNetwork (network : IpNetwork).

Definition host_from_str (s : list byte) : Host :=
  match network_from_str s with Some ipnet => HostNetwork ipnet | None => HostDomain s end.

(** [HashSet::insert]. *)
Definition set_insert {A} `{EqDecision A} (a : A) (l : list A) : list A := if bool_decide (a ∈ l) then l else a :: l.

Record HostsGroup : Type := mkGroup { domains : list (list byte); ip_nets : list IpNetwork }.

Definition group_add_domain (g : HostsGroup) (domain : list byte) : HostsGroup := mkGroup (set_insert domain (domains g)) (ip_nets g).
Definition group_add_ipnet (g : HostsGroup) (network : IpNetwork) : HostsGroup := mkGroup (domains g) (set_insert network (ip_nets g)).

Definition group_new (raw_hosts : list Host) : HostsGroup :=
  foldl (fun g host =>
    match host with HostDomain domain => group_add_domain g domain | HostNetwork ipnet => group_add_ipnet g ipnet end)
    (mkGroup [] []) raw_hosts.

Definition contains_domain (g : HostsGroup) (host : list byte) : bool := bool_decide (host ∈ domains g).

Definition contains_ip_address (g : HostsGroup) (address : IpAddr) : bool :=
  existsb (fun ip_net => network_contains ip_net address) (ip_nets g).

(** A store with the lines of its file. *)
Record HostsStore : Type := mkStore { storefile : list (list byte); hosts_data : HostsGroup }.

Definition store_add_ip (s : HostsStore) (ip : IpAddr) : HostsStore :=
  if contains_ip_address (hosts_data s) ip then s
  else mkStore (storefile s ++ [byte_of_Z <$> print_ip ip]) (group_add_ipnet (hosts_data s) (network_of_ip ip)).

Definition store_add_domain (s : HostsStore) (domain : list byte) : HostsStore :=
  if contains_domain (hosts_data s) domain then s
  else mkStore (storefile s ++ [domain]) (group_add_domain (hosts_data s) domain).

(** ** The filter by lists, [filter.rs] *)

Inductive RequestHost : Type :=
| HostIpAddr (ip_addr : IpAddr)
| HostSocketAddr (socket_addr : SocketAddr)
| RootDomain (domain : list byte).

Record OutboundRequestFilter : Type := mkOutbound {
  allowed_hosts : HostsGroup;
  standard_list : HostsGroup;
  unknown_hosts : HostsStore
}.

Definition check_group (group : HostsGroup) (host : RequestHost) : bool :=
  match host with
  | HostIpAddr ip_addr => contains_ip_address group ip_addr
  | HostSocketAddr socket_addr => contains_ip_address group (AddressPolicy.ip socket_addr)
  | RootDomain domain => contains_domain group domain
  end.

Definition add_to_unknown_hosts (f : OutboundRequestFilter) (host : RequestHost) : OutboundRequestFilter :=
  mkOutbound (allowed_hosts f) (standard_list f)
    match host with
    | HostIpAddr ip_addr => store_add_ip (unknown_hosts f) ip_addr
    | HostSocketAddr socket_addr => store_add_ip (unknown_hosts f) (AddressPolicy.ip socket_addr)
    | RootDomain domain => store_add_domain (unknown_hosts f) domain
    end.

(** Everything before the last colon. *)
Fixpoint before_last_colon (host : list byte) : option (list byte) :=
  match host with
  | [] => None
  | c :: rest =>
      match before_last_colon rest with
      | Some before => Some (c :: before)
      | None => if byte_to_Z c =? COLON then Some [] else None
      end
  end.

Definition trim_port (host : list byte) : list byte := default host (before_last_colon host).

Definition get_domain_root (host : list byte) : option (list byte) :=
  match psl_domain host with
  | Some domain => from_utf8 domain
  | None =>
      match psl_suffix host with
      | Some (suffix, is_known) => if is_known then from_utf8 suffix else None
      | None => None
      end
  end.

Definition parse_request_host (host : list byte) : option RequestHost :=
  match socket_from_str (as_text host) with
  | Some socketaddr => Some (HostSocketAddr socketaddr)
  | None =>
      match ip_from_str (as_text host) with
      | Some ipaddr => Some (HostIpAddr ipaddr)
      | None => RootDomain <$> get_domain_root (trim_port host)
      end
  end.

Definition check_request_host (f : OutboundRequestFilter) (request_host : RequestHost) : bool :=
  if check_group (allowed_hosts f) request_host then true else check_group (standard_list f) request_host.

Definition check_host (f : OutboundRequestFilter) (host : list byte) : bool * OutboundRequestFilter :=
  match parse_request_host host with
  | Some request_host =>
      if check_request_host f request_host then (true, f) else (false, add_to_unknown_hosts f request_host)
  | None => (false, f)
  end.

(** ** The filter, [mod.rs] *)

Inductive RequestFilterInner : Type :=
| AllowList (open_proxy : bool) (filter : OutboundRequestFilter)
| ExitPolicyOnly (policy : AddressPolicy.t).

(** [RequestFilter::check_address]: a host that cannot be checked against the exit policy is refused. *)
Definition check_address (lookup_host : list byte -> option (list SocketAddr)) (inner : RequestFilterInner) (address : list byte)
    : bool * RequestFilterInner :=
  match inner with
  | AllowList open_proxy filter =>
      if open_proxy then (true, inner)
      else let '(allowed, filter) := check_host filter address in (allowed, AllowList open_proxy filter)
  | ExitPolicyOnly policy =>
      (match ExitPolicyRequestFilter.check lookup_host policy address with Ok res => res | _ => false end, inner)
  end.

(** ** What the lists hold *)

(** The host is on the list. *)
Definition listed (g : HostsGroup) (host : RequestHost) : Prop :=
  match host with
  | HostIpAddr ip => exists net, net ∈ ip_nets g /\ network_contains net ip = true
  | HostSocketAddr a => exists net, net ∈ ip_nets g /\ network_contains net (AddressPolicy.ip a) = true
  | RootDomain domain => domain ∈ domains g
  end.

Lemma contains_ip_listed g ip : contains_ip_address g ip = true <-> exists net, net ∈ ip_nets g /\ network_contains net ip = true.
Proof. unfold contains_ip_address. rewrite existsb_exists. by setoid_rewrite list_elem_of_In. Qed.

Lemma check_group_listed g host : check_group g host = true <-> listed g host.
Proof. destruct host; simpl; [apply contains_ip_listed|apply contains_ip_listed|apply bool_decide_eq_true]. Qed.

Lemma elem_of_set_insert {A} `{EqDecision A} (a b : A) l : b ∈ set_insert a l <-> b = a \/ b ∈ l.
Proof. unfold set_insert. case_bool_decide; [|by rewrite elem_of_cons]. naive_solver. Qed.

Lemma store_lists_ip `{!HostLaws} s ip : contains_ip_address (hosts_data (store_add_ip s ip)) ip = true.
Proof.
  unfold store_add_ip. destruct (contains_ip_address (hosts_data s) ip) eqn:Hc; [done|]. apply contains_ip_listed. simpl.
  exists (network_of_ip ip). rewrite elem_of_set_insert. split; [by left|apply network_of_ip_contains].
Qed.

(** A host that is refused is on the list of unknown hosts. *)
Lemma refused_is_unknown `{!HostLaws} f host : listed (hosts_data (unknown_hosts (add_to_unknown_hosts f host))) host.
Proof.
  apply check_group_listed. destruct host as [ip|a|d]; simpl; [apply store_lists_ip|apply store_lists_ip|].
  unfold store_add_domain. destruct (contains_domain (hosts_data (unknown_hosts f)) d) eqn:Hd; [done|].
  apply bool_decide_eq_true. simpl. apply elem_of_set_insert. by left.
Qed.

(** What is unknown stays unknown. *)
Lemma domain_added g d host : listed g host -> listed (group_add_domain g d) host.
Proof. destruct host; simpl; rewrite ?elem_of_set_insert; auto. Qed.

Lemma network_added g net host : listed g host -> listed (group_add_ipnet g net) host.
Proof. destruct host; simpl; try done; intros (n & ? & ?); exists n; rewrite elem_of_set_insert; auto. Qed.

Lemma unknown_stays f host' host :
  listed (hosts_data (unknown_hosts f)) host -> listed (hosts_data (unknown_hosts (add_to_unknown_hosts f host'))) host.
Proof.
  intros Hh. destruct host'; simpl; unfold store_add_ip, store_add_domain; case_match; try done;
    first [by apply network_added|by apply domain_added].
Qed.

Lemma check_request_host_listed f host :
  check_request_host f host = true <-> listed (allowed_hosts f) host \/ listed (standard_list f) host.
Proof. unfold check_request_host. rewrite <- !check_group_listed. destruct (check_group (allowed_hosts f) host); naive_solver. Qed.

End Hosts.
