(* ===== verification/ExitPolicyFacts.v ===== *)
(** * What exit policies guarantee

    The text format loses nothing, patterns are address blocks, and the filter
    lets a request through only if every resolved address is accepted. *)

From stdpp Require Import strings.
From Stdlib Require Import ZifyBool Strings.Byte.
From S2P Require Import Prelude Bytes Text IpText Addressing ExitPolicy AllowedHosts.
#[local] Open Scope Z_scope.

(** ** Round trips of the parts *)

Ltac class_solve := let c := fresh in intros c ?; unfold is_ip_char, is_digit_char, COLON, FULL_STOP in *; lia.

Lemma number_chars n : 0 <= n -> Forall (fun c => is_digit_char c = true) (print_number 10 n).
Proof. apply print_number_chars. lia. Qed.

Lemma digit_not_whitespace c : is_digit_char c = true -> is_whitespace c = false.
Proof. unfold is_digit_char, is_whitespace. lia. Qed.

Lemma number_solid n : 0 <= n -> solid_end (print_number 10 n).
Proof.
  intros Hn. eapply solid_end_class; [by apply print_number_nonempty|by apply number_chars|apply digit_not_whitespace].
Qed.

Lemma action_roundtrip a : Action.from_str (Action.to_string a) = Ok a.
Proof. by destruct a. Qed.

Lemma parse_port_print n : 0 <= n < 2 ^ 16 -> parse_port (print_number 10 n) = Ok n.
Proof. intros Hn. unfold parse_port. rewrite parse_print_unsigned by lia. done. Qed.

Lemma number_not_star n : 0 <= n -> print_number 10 n <> chars "*".
Proof. intros Hn E. pose proof (number_chars n Hn) as Hc. rewrite E in Hc. apply Forall_cons in Hc as [Hc _]. done. Qed.

Lemma port_range_roundtrip r : PortRange.valid r -> PortRange.from_str (PortRange.to_string r) = Ok r.
Proof.
  destruct r as [lo hi]. unfold PortRange.valid, PortRange.to_string; cbn [PortRange.start PortRange.end_].
  intros (Hlo & Hhi & Hr). unfold PortRange.is_all; cbn [PortRange.start PortRange.end_].
  destruct ((lo =? 1) && (hi =? 65535)) eqn:Hall; [by apply andb_true_iff in Hall as [->%Z.eqb_eq ->%Z.eqb_eq]|].
  assert (45 ∉ print_number 10 lo) as Hdash by (eapply not_in_class; [apply number_chars; lia|done]).
  destruct (Z.eqb_spec lo hi) as [<-|Hne]; unfold PortRange.from_str.
  - rewrite bool_decide_false by (apply number_not_star; lia). rewrite split_once_None, parse_port_print by (done || lia). done.
  - change (chars "-" ++ print_number 10 hi) with (45 :: print_number 10 hi). rewrite bool_decide_false.
    2: { intros E. assert (45 ∈ chars "*") as Hin by (rewrite <- E; apply elem_of_app; right; by left).
         apply list_elem_of_In in Hin. simpl in Hin. lia. }
    rewrite split_once_app, !parse_port_print by (done || lia). cbn [obind]. unfold PortRange.new.
    rewrite (proj2 (Z.eqb_neq lo 0)), (proj2 (Z.leb_le _ _)) by lia. done.
Qed.

Lemma ip_text_not_literal a s : ip_valid a -> 42 ∈ s -> print_ip a <> s.
Proof.
  intros Ha Hs <-. revert Hs. eapply not_in_class; [by apply print_ip_chars|done].
Qed.

Lemma parse_addr_print a : ip_valid a -> parse_addr (print_ip a) = Ok a.
Proof.
  intros Ha. unfold parse_addr. pose proof (print_ip_chars a Ha) as Hc.
  replace (starts_with 91 (print_ip a)) with false.
  - cbn [andb]. rewrite ip_roundtrip by done. done.
  - destruct (print_ip a) as [|c s]; [done|]. apply Forall_cons in Hc as [Hc _]. simpl.
    destruct (Z.eqb_spec c 91) as [->|]; done.
Qed.

Lemma mask_pattern_roundtrip a mask :
  ip_valid a -> 0 <= mask <= u8_max ->
  IpPattern.from_str (print_ip a ++ chars "/" ++ print_number 10 mask) = IpPattern.from_addr_and_mask a mask.
Proof.
  intros Ha Hm. unfold IpPattern.from_str. change (chars "/" ++ print_number 10 mask) with (47 :: print_number 10 mask).
  rewrite split_once_app by (eapply not_in_class; [by apply print_ip_chars|done]).
  rewrite !bool_decide_false by (apply ip_text_not_literal; [done|by apply list_elem_of_In; left]).
  rewrite parse_addr_print by done. cbn [obind]. rewrite parse_print_unsigned by done. done.
Qed.

Lemma ip_pattern_roundtrip p : IpPattern.valid p -> IpPattern.from_str (IpPattern.to_string p) = Ok p.
Proof.
  destruct p as [| | |o mask|o mask]; try done; intros [Ho Hm]; cbn [IpPattern.to_string];
    rewrite mask_pattern_roundtrip by (done || unfold u8_max; lia); simpl;
    rewrite (proj2 (Z.eqb_neq _ _)), (proj2 (Z.leb_le _ _)) by lia; done.
Qed.

(** ** The characters of a rule *)

(** Printable characters other than the comment character. *)
Definition is_rule_char (c : Z) : bool := (32 <=? c) && (c <=? 122) && negb (c =? COMMENT_CHAR).

Lemma ports_chars r : PortRange.valid r -> Forall (fun c => is_digit_char c || (c =? 42) || (c =? 45) = true) (PortRange.to_string r).
Proof.
  intros (Hlo & Hhi & Hr). unfold PortRange.to_string. destruct (PortRange.is_all r); [by repeat constructor|].
  assert (forall n, 0 <= n -> Forall (fun c => is_digit_char c || (c =? 42) || (c =? 45) = true) (print_number 10 n)) as Hn.
  { intros n Hn. eapply Forall_impl; [by apply number_chars|]. intros c Hc; simpl in Hc |- *. rewrite Hc. done. }
  destruct (_ =? _); [by apply Hn|]. rewrite !Forall_app. split_and!; [by apply Hn|by repeat constructor|apply Hn; lia].
Qed.

Lemma ports_solid r : PortRange.valid r -> solid_end (PortRange.to_string r).
Proof.
  intros (Hlo & Hhi & Hr). unfold PortRange.to_string. destruct (PortRange.is_all r); [by exists [], 42|].
  destruct (_ =? _); [by apply number_solid|]. apply solid_end_app, solid_end_app, number_solid. lia.
Qed.

Lemma ip_pattern_chars p : IpPattern.valid p -> Forall (fun c => is_ip_char c || (c =? 42) || (c =? 47) = true) (IpPattern.to_string p).
Proof.
  assert (forall a mask, ip_valid a -> 0 <= mask ->
    Forall (fun c => is_ip_char c || (c =? 42) || (c =? 47) = true) (print_ip a ++ chars "/" ++ print_number 10 mask)) as Hp.
  { intros a mask Ha Hm. rewrite !Forall_app. split_and!; [|by repeat constructor|].
    - eapply Forall_impl; [by apply print_ip_chars|]. intros c Hc; simpl in Hc |- *. rewrite Hc. done.
    - eapply Forall_impl; [by apply number_chars|]. intros c Hc; simpl in Hc |- *. unfold is_ip_char. rewrite Hc. done. }
  destruct p as [| | |o mask|o mask]; try (intros; by repeat constructor); intros [Ho Hm]; apply Hp; done || lia.
Qed.

Lemma rule_chars r :
  AddressPortPattern.valid (AddressPolicyRule.pattern r) -> Forall (fun c => is_rule_char c = true) (AddressPolicyRule.to_string r).
Proof.
  intros [Hi Hp]. unfold AddressPolicyRule.to_string, AddressPortPattern.to_string. rewrite !Forall_app. split_and!.
  - destruct (AddressPolicyRule.action r); by repeat constructor.
  - by repeat constructor.
  - eapply Forall_impl; [by apply ip_pattern_chars|]. unfold is_ip_char, is_digit_char, is_rule_char, COLON, FULL_STOP, COMMENT_CHAR. simpl. lia.
  - by repeat constructor.
  - eapply Forall_impl; [by apply ports_chars|]. unfold is_digit_char, is_rule_char, COMMENT_CHAR. simpl. lia.
Qed.

Lemma rule_solid r : AddressPortPattern.valid (AddressPolicyRule.pattern r) -> solid_end (AddressPolicyRule.to_string r).
Proof. intros [_ Hp]. unfold AddressPolicyRule.to_string, AddressPortPattern.to_string. rewrite !app_assoc. by apply solid_end_app, ports_solid. Qed.

(** ** Rules and policies *)

Lemma rule_roundtrip r :
  AddressPortPattern.valid (AddressPolicyRule.pattern r) -> AddressPolicyRule.from_str (AddressPolicyRule.to_string r) = Ok r.
Proof.
  intros [Hi Hp]. destruct r as [a [ip ports]]; unfold AddressPolicyRule.from_str, AddressPolicyRule.to_string; simpl in *.
  change (chars " " ++ AddressPortPattern.to_string _) with (32 :: AddressPortPattern.to_string (AddressPortPattern.mk ip ports)).
  rewrite split_once_app by (destruct a; (eapply (not_in_class (fun c => 48 <=? c)); [by repeat constructor|done])).
  rewrite action_roundtrip. cbn [obind]. unfold AddressPortPattern.from_str, AddressPortPattern.to_string; simpl.
  change (chars ":" ++ PortRange.to_string ports) with (58 :: PortRange.to_string ports).
  rewrite rsplit_once_app by (eapply not_in_class; [by apply ports_chars|done]).
  rewrite bool_decide_false by (intros E; destruct (ports_solid _ Hp) as ([] & c & E' & _); simplify_eq/=; congruence).
  rewrite ip_pattern_roundtrip, port_range_roundtrip by done. done.
Qed.

(** A line of the formatted policy. *)
Definition rule_line (r : AddressPolicyRule.t) : str := EXIT_POLICY_FIELD_NAME ++ chars " " ++ AddressPolicyRule.to_string r.

Lemma rule_line_chars r :
  AddressPortPattern.valid (AddressPolicyRule.pattern r) -> Forall (fun c => is_rule_char c = true) (rule_line r).
Proof. intros Hr. unfold rule_line. rewrite !Forall_app. split_and!; [by repeat constructor|by repeat constructor|by apply rule_chars]. Qed.

Lemma rule_line_solid r : AddressPortPattern.valid (AddressPolicyRule.pattern r) -> solid_end (rule_line r).
Proof. intros Hr. by apply solid_end_app, solid_end_app, rule_solid. Qed.

Lemma rule_line_stripped r : AddressPortPattern.valid (AddressPolicyRule.pattern r) -> strip_comment (rule_line r) = rule_line r.
Proof.
  intros Hr. unfold strip_comment. rewrite split_once_None by (eapply not_in_class; [by apply rule_line_chars|done]).
  apply trim_solid; [done|]. apply (rule_line_solid r Hr).
Qed.

Lemma rule_line_parsed r : AddressPortPattern.valid (AddressPolicyRule.pattern r) -> parse_address_policy_rule (rule_line r) = Ok r.
Proof.
  intros Hr. unfold parse_address_policy_rule, rule_line. rewrite strip_prefix_app.
  assert (trim (chars " " ++ AddressPolicyRule.to_string r) = AddressPolicyRule.to_string r) as ->; [|by apply rule_roundtrip].
  unfold trim. cbn [chars app trim_start]. change (trim_start (chars " " ++ AddressPolicyRule.to_string r)) with (trim_start (AddressPolicyRule.to_string r)).
  pose proof (rule_solid r Hr) as Hs.
  assert (trim_start (AddressPolicyRule.to_string r) = AddressPolicyRule.to_string r) as -> by (unfold AddressPolicyRule.to_string; destruct (AddressPolicyRule.action r); done).
  by apply trim_end_solid.
Qed.

Lemma format_lines rs : foldl (fun acc rule => acc ++ rule ++ [NEWLINE]) [] (rule_line <$> rs) = concat ((fun l => l ++ [NEWLINE]) <$> (rule_line <$> rs)).
Proof.
  assert (forall (ls : list str) acc, foldl (fun acc rule => acc ++ rule ++ [NEWLINE]) acc ls = acc ++ concat ((fun l => l ++ [NEWLINE]) <$> ls)) as H.
  { induction ls as [|l ls IH]; intros acc; [by rewrite app_nil_r|]. cbn [foldl]. rewrite IH, fmap_cons. cbn [concat]. by rewrite <- !app_assoc. }
  apply H.
Qed.

Lemma collect_rules rs :
  Forall (fun r => AddressPortPattern.valid (AddressPolicyRule.pattern r)) rs ->
  collect parse_address_policy_rule
    (List.filter (fun rule => negb (bool_decide (rule = []))) (strip_comment <$> (rule_line <$> rs))) = Ok rs.
Proof.
  induction 1 as [|r rs Hr Hrs IH]; [done|]. rewrite !fmap_cons, rule_line_stripped by done.
  cbn [List.filter]. rewrite bool_decide_false by done. cbn [negb collect]. rewrite rule_line_parsed by done. cbn [obind].
  rewrite IH. done.
Qed.

Lemma format_lines_back rs :
  Forall (fun r => AddressPortPattern.valid (AddressPolicyRule.pattern r)) rs ->
  lines (format_exit_policy (AddressPolicy.mk rs)) = rule_line <$> rs.
Proof.
  intros Hrs. unfold format_exit_policy. cbn [AddressPolicy.rules]. fold rule_line. rewrite format_lines.
  destruct rs as [|r rs _] using rev_ind; [done|].
  apply Forall_app in Hrs as [Hrs Hr]. apply Forall_cons in Hr as [Hr _].
  rewrite !fmap_app, concat_app. cbn [fmap list_fmap concat]. rewrite app_nil_r, app_assoc, trim_end_space by done.
  rewrite trim_end_solid by (by apply solid_end_app, rule_line_solid).
  assert (forall r, AddressPortPattern.valid (AddressPolicyRule.pattern r) -> NEWLINE ∉ rule_line r) as Hn
    by (intros r' Hr'; eapply not_in_class; [by apply rule_line_chars|done]).
  apply lines_join; [|by apply Hn|by apply rule_line_solid].
  apply Forall_fmap. eapply Forall_impl; [exact Hrs|]. intros r' Hr'. split; [by apply Hn|by apply rule_line_solid].
Qed.

Lemma format_parse p : AddressPolicy.valid p -> parse_exit_policy (format_exit_policy p) = Ok p.
Proof.
  intros Hp. destruct p as [rs]. unfold parse_exit_policy. rewrite format_lines_back by done.
  rewrite collect_rules by done. done.
Qed.

(** ** What the parser makes is valid *)

Lemma read_octets_length n i p o p' : read_octets n i p = Some (o, p') -> length o = n.
Proof.
  revert i p o p'; induction n as [|n IH]; intros i p o p' E; simpl in E; [by simplify_eq|].
  destruct (read_separator _ _ _ _) as [[v q]|]; [|done].
  destruct (read_octets n (S i) q) as [[os r]|] eqn:E'; [|done]. apply IH in E'. simplify_eq/=. done.
Qed.

Lemma read_groups_length n i limit p : (n + i = limit)%nat -> (length (read_groups n i limit p).1.1 <= n)%nat.
Proof.
  revert i p; induction n as [|n IH]; intros i p Hn; [done|]. rewrite read_groups_S.
  destruct (if bool_decide _ then _ else _) as [[v4 q]|] eqn:E.
  - case_bool_decide; [|done].
    assert (length v4 = 4%nat) as Hl.
    { destruct i; simpl in E; [by eapply read_octets_length|].
      destruct p as [|c p]; [done|]. destruct (_ =? _); [by eapply read_octets_length|done]. }
    destruct v4 as [|? [|? [|? [|? [|]]]]]; try done. simpl. lia.
  - clear E. destruct (read_separator _ _ _ _) as [[g q]|]; [|simpl; lia].
    specialize (IH (S i) q ltac:(lia)). destruct (read_groups n (S i) limit q) as [[gs f] r]. simpl in *. lia.
Qed.

Lemma length_octets_of_segments s : length (octets_of_segments s) = (2 * length s)%nat.
Proof.
  induction s as [|x s IH]; [done|]. unfold octets_of_segments in *. rewrite fmap_cons. cbn [concat].
  rewrite length_app, length_be_encode, IH. simpl. lia.
Qed.

Lemma read_ipv6_length p o p' : read_ipv6_addr p = Some (o, p') -> length o = 16%nat.
Proof.
  unfold read_ipv6_addr. pose proof (read_groups_length 8 0 8 p eq_refl) as Hh.
  destruct (read_groups 8 0 8 p) as [[head f] q]. simpl in Hh. case_bool_decide as H8.
  { intros E; simplify_eq. rewrite length_octets_of_segments. lia. }
  destruct f; [done|]. destruct q as [|c1 [|c2 q]]; try done. destruct (_ && _); [|done]. cbv zeta.
  pose proof (read_groups_length (8 - (length head + 1)) 0 (8 - (length head + 1)) q ltac:(lia)) as Ht.
  destruct (read_groups _ _ _ q) as [[tail f] r]. simpl in Ht. intros E; simplify_eq.
  rewrite length_octets_of_segments, !length_app, length_replicate. lia.
Qed.

Lemma ip_from_str_valid s a : ip_from_str s = Some a -> ip_valid a.
Proof.
  unfold ip_from_str, parse_with, read_ip_addr. destruct (read_ipv4_addr s) as [[o p]|] eqn:E4.
  - destruct p; intros E; simplify_eq. by eapply read_octets_length.
  - destruct (read_ipv6_addr s) as [[o p]|] eqn:E6; [|done]. destruct p; intros E; simplify_eq. by eapply read_ipv6_length.
Qed.

Lemma parse_addr_checked s : checked ip_valid (parse_addr s).
Proof.
  unfold parse_addr. destruct (_ && _).
  - unfold ipv6_from_str, parse_with. destruct (read_ipv6_addr _) as [[o [|]]|] eqn:E; simpl; try done. by eapply read_ipv6_length.
  - destruct (ip_from_str s) eqn:E; simpl; [by eapply ip_from_str_valid|done].
Qed.

Lemma parse_digits_range limit s acc n : 0 <= acc <= limit -> parse_digits 10 limit acc s = Some n -> 0 <= n <= limit.
Proof.
  revert acc; induction s as [|c s IH]; intros acc Ha E; simpl in E; [by simplify_eq|].
  destruct (to_digit 10 c) as [d|] eqn:Ed; [|done]. destruct (Z.leb_spec (acc * 10 + d) limit); [|done].
  apply IH in E; [done|]. unfold to_digit in Ed. repeat case_match; simplify_eq; lia.
Qed.

Lemma parse_unsigned_range limit s n : 0 <= limit -> parse_unsigned limit s = Some n -> 0 <= n <= limit.
Proof. unfold parse_unsigned. intros Hl. case_match; [done|]. apply parse_digits_range. lia. Qed.

Lemma from_addr_and_mask_checked a mask : ip_valid a -> 0 <= mask -> checked IpPattern.valid (IpPattern.from_addr_and_mask a mask).
Proof.
  intros Ha Hm. destruct a; simpl; (destruct (Z.eqb_spec mask 0); [done|]);
    [destruct (Z.leb_spec mask 32)|destruct (Z.leb_spec mask 128)]; simpl; try done; (split; [done|lia]).
Qed.

Lemma ip_pattern_checked s : checked IpPattern.valid (IpPattern.from_str s).
Proof.
  unfold IpPattern.from_str. destruct (match split_once 47 s with Some (b, a) => (b, Some a) | None => (s, None) end) as [ip_s mask_s].
  repeat (case_bool_decide; [by destruct mask_s|]). destruct mask_s as [m|]; eapply checked_bind; try apply parse_addr_checked; intros a Ha; simpl.
  - destruct (parse_unsigned u8_max m) as [v|] eqn:E; [|done]. apply parse_unsigned_range in E; [|done]. apply from_addr_and_mask_checked; [done|lia].
  - apply from_addr_and_mask_checked; [done|]. by destruct (is_ipv4 a).
Qed.

Lemma parse_port_checked s : checked (fun n => 0 <= n < 2 ^ 16) (parse_port s).
Proof.
  unfold parse_port. destruct (parse_unsigned _ s) as [n|] eqn:E; [|done]. apply parse_unsigned_range in E; [simpl|]; lia.
Qed.

Lemma port_range_checked s : checked PortRange.valid (PortRange.from_str s).
Proof.
  unfold PortRange.from_str. case_bool_decide; [split; simpl; lia|].
  destruct (split_once 45 s) as [[b a]|].
  - eapply checked_bind; [apply parse_port_checked|]. intros lo Hlo; simpl in Hlo. eapply checked_bind; [apply parse_port_checked|]. intros hi Hhi; simpl in Hhi.
    unfold PortRange.new. destruct (Z.eqb_spec lo 0); [done|]. destruct (Z.leb_spec lo hi); [|done]. unfold checked, PortRange.valid; simpl. lia.
  - eapply checked_bind; [apply parse_port_checked|]. intros v Hv; simpl in Hv. unfold checked, PortRange.valid; simpl. lia.
Qed.

Lemma rule_checked s : checked (fun r => AddressPortPattern.valid (AddressPolicyRule.pattern r)) (AddressPolicyRule.from_str s).
Proof.
  unfold AddressPolicyRule.from_str. destruct (split_once 32 s) as [[a p]|]; [|done].
  eapply (checked_bind (fun _ => True)); [unfold Action.from_str; repeat case_bool_decide; done|]. intros act _.
  eapply checked_bind; [|intros pat Hpat; exact Hpat]. unfold AddressPortPattern.from_str.
  destruct (rsplit_once 58 p) as [[b q]|]; [|done]. case_bool_decide; [done|].
  eapply checked_bind; [apply ip_pattern_checked|]. intros ip Hip.
  eapply checked_bind; [apply port_range_checked|]. intros ports Hports. by split.
Qed.

Lemma parse_checked s : checked AddressPolicy.valid (parse_exit_policy s).
Proof.
  unfold parse_exit_policy. set (ok := fun r => AddressPortPattern.valid (AddressPolicyRule.pattern r)).
  apply (checked_bind (Forall ok)); [|intros rs Hrs; exact Hrs].
  generalize (List.filter (fun rule => negb (bool_decide (rule = []))) (strip_comment <$> lines s)) as ls.
  induction ls as [|l ls IH]; [by constructor|]. cbn [collect].
  apply (checked_bind ok); [|intros r Hr; apply (checked_bind (Forall ok)); [apply IH|intros rs Hrs; by constructor]].
  unfold parse_address_policy_rule. destruct (strip_prefix _ l); [apply rule_checked|done].
Qed.

(** ** What a policy decides *)

(** The addresses whose first [mask] bits are those of the prefix. *)
Definition in_block (width : Z) (prefix addr : list byte) (mask : Z) : Prop :=
  forall i, 0 <= i < mask -> Z.testbit (be_decode prefix) (width - 1 - i) = Z.testbit (be_decode addr) (width - 1 - i).

Definition covers (p : AddressPortPattern.t) (addr : IpAddr) (port : Z) : Prop :=
  match AddressPortPattern.ip_pattern p, addr with
  | Star, _ | V4Star, V4 _ | V6Star, V6 _ => True
  | PatternV4 prefix mask, V4 o => in_block 32 prefix o mask
  | PatternV6 prefix mask, V6 o => in_block 128 prefix o mask
  | _, _ => False
  end /\
  (port = 0 \/ PortRange.start (AddressPortPattern.ports p) <= port <= PortRange.end_ (AddressPortPattern.ports p)).

(** The first rule that covers the address. *)
Definition decides (p : AddressPolicy.t) (addr : IpAddr) (port : Z) (rule : AddressPolicyRule.t) : Prop :=
  exists before after, AddressPolicy.rules p = before ++ rule :: after /\
    covers (AddressPolicyRule.pattern rule) addr port /\
    Forall (fun r => ~ covers (AddressPolicyRule.pattern r) addr port) before.

Lemma shiftr_block width mask p q :
  0 <= mask <= width -> 0 <= p < 2 ^ width -> 0 <= q < 2 ^ width ->
  Z.shiftr p (width - mask) = Z.shiftr q (width - mask) <->
  forall i, 0 <= i < mask -> Z.testbit p (width - 1 - i) = Z.testbit q (width - 1 - i).
Proof.
  intros Hm Hp Hq. split.
  - intros E i Hi. replace (width - 1 - i) with ((mask - 1 - i) + (width - mask)) by lia.
    rewrite <- !Z.shiftr_spec, E by lia. done.
  - intros H. apply Z.bits_inj'. intros n Hn. rewrite !Z.shiftr_spec by done.
    destruct (Z.ltb_spec n mask).
    + replace (n + (width - mask)) with (width - 1 - (mask - 1 - n)) by lia. apply H. lia.
    + assert (forall x, 0 <= x < 2 ^ width -> Z.testbit x (n + (width - mask)) = false) as Hhigh; [|by rewrite !Hhigh].
      intros x Hx. destruct (Z.eq_dec x 0) as [->|]; [apply Z.bits_0|]. apply Z.bits_above_log2; [lia|].
      assert (Z.log2 x < width) by (apply Z.log2_lt_pow2; lia). lia.
Qed.

Lemma be_decode_width o n : length o = n -> 0 <= be_decode o < 2 ^ (8 * Z.of_nat n).
Proof.
  intros <-. pose proof (be_decode_range o) as H. unfold len in H. rewrite Z.pow_mul_r by lia. done.
Qed.

Lemma matches_covers p addr port :
  AddressPortPattern.valid p -> ip_valid addr -> AddressPortPattern.matches p addr port = true <-> covers p addr port.
Proof.
  intros [Hip Hports] Ha. unfold covers.
  assert (IpPattern.matches (AddressPortPattern.ip_pattern p) addr = true <->
    match AddressPortPattern.ip_pattern p, addr with
    | Star, _ | V4Star, V4 _ | V6Star, V6 _ => True
    | PatternV4 prefix mask, V4 o => in_block 32 prefix o mask
    | PatternV6 prefix mask, V6 o => in_block 128 prefix o mask
    | _, _ => False
    end) as Hmatch.
  { destruct (AddressPortPattern.ip_pattern p) as [| | |o mask|o mask], addr as [q|q]; simpl in *; try done;
      destruct Hip as [Ho Hm]; rewrite Z.eqb_eq; apply shiftr_block; try lia;
      first [apply (be_decode_width _ 4)|apply (be_decode_width _ 16)]; done. }
  unfold AddressPortPattern.matches, PortRange.contains. rewrite <- Hmatch. destruct (Z.eqb_spec port 0) as [->|Hp].
  - split; [auto|by intros [? _]].
  - rewrite !andb_true_iff, !Z.leb_le. intuition lia.
Qed.

Lemma allows_decides p addr port b :
  AddressPolicy.valid p -> ip_valid addr ->
  AddressPolicy.allows p addr port = Some b <->
  exists rule, decides p addr port rule /\ Action.is_accept (AddressPolicyRule.action rule) = b.
Proof.
  intros Hp Ha. unfold AddressPolicy.allows, decides. destruct p as [rs]; unfold AddressPolicy.valid in Hp; simpl in *.
  induction Hp as [|r rs Hr Hrs IH]; simpl.
  - split; [done|]. intros (rule & (before & after & E & _) & _). by destruct before.
  - pose proof (matches_covers _ addr port Hr Ha) as Hm. destruct (AddressPortPattern.matches _ addr port).
    + simpl. split.
      * intros [= <-]. exists r. split; [|done]. exists [], rs. split_and!; [done|by apply Hm|done].
      * intros (rule & ([|r' before] & after & E & Hc & Hn) & <-); simplify_eq/=; [done|].
        apply Forall_cons in Hn as [Hn _]. exfalso. by apply Hn, Hm.
    + rewrite IH. split; intros (rule & (before & after & E & Hc & Hn) & <-).
      * exists rule. split; [|done]. exists (r :: before), after. subst rs. split_and!; [done|done|].
        constructor; [|done]. intros Hr'. by apply Hm in Hr'.
      * destruct before as [|r' before]; simplify_eq/=; [by apply Hm in Hc|]. exists rule. split; [|done].
        apply Forall_cons in Hn as [_ Hn]. by exists before, after.
Qed.

Lemma check_all_true p addrs :
  ExitPolicyRequestFilter.check_all p addrs = Ok true <->
  Forall (fun a => AddressPolicy.allows_sockaddr p a = Some true) addrs.
Proof.
  induction addrs as [|a addrs IH]; simpl; [done|]. rewrite Forall_cons, <- IH.
  destruct (AddressPolicy.allows_sockaddr p a) as [[]|]; split; try done; intuition congruence.
Qed.

(** C29: a policy that is written out is read back as the same policy, whatever
    rules it has, with masks from 1 to the length of the address and ranges of
    ports in order that start at 1 or are a single port; conversely reading any text never aborts, and what is read
    is a policy that can be written out and read back. *)
Theorem exit_policy_text_roundtrip (s : str) (p : AddressPolicy.t) :
  AddressPolicy.valid p \/ parse_exit_policy s = Ok p ->
  parse_exit_policy (format_exit_policy p) = Ok p /\ forall pa, parse_exit_policy s <> Panic pa.
Proof.
  pose proof (parse_checked s) as Hs. intros Hp.
  split; [|intros pa E; by rewrite E in Hs]. apply format_parse. destruct Hp as [|E]; [done|]. by rewrite E in Hs.
Qed.

(** A policy that blocks private networks and the rest of IPv4 but for two ports. *)
Definition sample_policy_text : str :=
  chars "ExitPolicy reject 192.168.0.0/16:*  # private" ++ [NEWLINE] ++
  chars "ExitPolicy reject6 [FC00::]/7:*" ++ [NEWLINE] ++ [NEWLINE] ++
  chars "ExitPolicy accept ::ffff:1.2.3.4:80" ++ [NEWLINE] ++
  chars "ExitPolicy accept *4:443-444" ++ [NEWLINE] ++
  chars "ExitPolicy reject *:*".

Definition sample_policy : AddressPolicy.t := AddressPolicy.mk [
  AddressPolicyRule.mk Reject (AddressPortPattern.mk (PatternV4 [xc0; xa8; x00; x00] 16) (PortRange.mk 1 65535));
  AddressPolicyRule.mk Reject6 (AddressPortPattern.mk (PatternV6 (xfc :: replicate 15 x00) 7) (PortRange.mk 1 65535));
  AddressPolicyRule.mk Accept (AddressPortPattern.mk
    (PatternV6 (replicate 10 x00 ++ [xff; xff; x01; x02; x03; x04]) 128) (PortRange.mk 80 80));
  AddressPolicyRule.mk Accept (AddressPortPattern.mk V4Star (PortRange.mk 443 444));
  AddressPolicyRule.mk Reject (AddressPortPattern.mk Star (PortRange.mk 1 65535))].

Lemma exit_policy_text_roundtrip_witness :
  parse_exit_policy sample_policy_text = Ok sample_policy /\
  parse_exit_policy (format_exit_policy sample_policy) = Ok sample_policy /\
  forall pa, parse_exit_policy sample_policy_text <> Panic pa.
Proof.
  split; [vm_compute; reflexivity|].
  apply (exit_policy_text_roundtrip sample_policy_text sample_policy). right. vm_compute. reflexivity.
Defined.

(** Every address is one whose first covering rule accepts. *)
Definition accepted (policy : AddressPolicy.t) (addrs : list SocketAddr) : Prop :=
  Forall (fun a => exists rule, decides policy (AddressPolicy.ip a) (NymNodeRoutingAddress.port_of a) rule /\
                              Action.is_accept (AddressPolicyRule.action rule) = true) addrs.

Lemma allowed_accepted policy addrs :
  AddressPolicy.valid policy -> Forall NymNodeRoutingAddress.valid addrs ->
  Forall (fun a => AddressPolicy.allows_sockaddr policy a = Some true) addrs <-> accepted policy addrs.
Proof.
  intros Hp Hl. unfold accepted. rewrite !Forall_forall. rewrite Forall_forall in Hl.
  apply forall_proper; intros a. split; intros Ha Hin;
    (assert (ip_valid (AddressPolicy.ip a)) as Hv
      by (destruct (Hl a Hin) as [_ Ho]; destruct a; simpl in *; unfold len in Ho; lia));
    apply (allows_decides policy _ (NymNodeRoutingAddress.port_of a) true Hp Hv); by apply Ha.
Qed.

(** What the exit policy filter answers, a failed check being a refusal. *)
Lemma policy_filter_admits (lookup_host : list byte -> option (list SocketAddr)) policy remote :
  AddressPolicy.valid policy ->
  (forall addrs, lookup_host remote = Some addrs -> Forall NymNodeRoutingAddress.valid addrs) ->
  match ExitPolicyRequestFilter.check lookup_host policy remote with Ok res => res | _ => false end = true <->
  exists addrs, lookup_host remote = Some addrs /\ addrs <> [] /\ accepted policy addrs.
Proof.
  intros Hp Hl. unfold ExitPolicyRequestFilter.check.
  destruct (lookup_host remote) as [addrs|]; [|split; [done|by intros (? & ? & _)]].
  specialize (Hl addrs eq_refl).
  case_bool_decide as He; [split; [done|]; intros (? & [= <-] & ? & _); done|].
  pose proof (check_all_true policy addrs) as Hc. rewrite (allowed_accepted policy addrs Hp Hl) in Hc.
  destruct (ExitPolicyRequestFilter.check_all policy addrs) as [[]| |]; split; try done.
  - intros _. exists addrs. split_and!; [done|done|]. by apply Hc.
  - intros (? & [= <-] & _ & H). apply Hc in H. congruence.
  - intros (? & [= <-] & _ & H). apply Hc in H. congruence.
  - intros (? & [= <-] & _ & H). apply Hc in H. congruence.
Qed.

Section Filter.
Context `{HostLaws}.


End Filter.

Definition sample_resolver (remote : list byte) : option (list SocketAddr) :=
  match remote with
  | x61 :: _ => Some [SocketAddrV4 [x05; x06; x07; x08] 443; SocketAddrV6 (replicate 10 x00 ++ [xff; xff; x01; x02; x03; x04]) 80 0 0]
  | _ => None
  end.

(** Networks of one address; the registrable domain of a name is the name. *)
#[local] Instance sample_hosts : HostApi := {|
  IpNetwork := IpAddr;
  IpNetwork_eq_dec := _;
  network_of_ip := fun ip => ip;
  network_contains := fun net ip => bool_decide (net = ip);
  network_from_str := fun s => ip_from_str (as_text s);
  psl_domain := fun name => Some name;
  psl_suffix := fun _ => None
|}.

#[local] Instance sample_hosts_lawful : HostLaws.
Proof. constructor. intros ip. by apply bool_decide_eq_true. Qed.

Definition sample_lists : OutboundRequestFilter :=
  mkOutbound (group_new (host_from_str <$> [[x61]])) (group_new (host_from_str <$> [[x3a; x3a; x31]])) (mkStore [] (mkGroup [] [])).


(** The actions without their restriction to IPv6. *)
Definition unrestricted (a : AddressPolicyAction) : AddressPolicyAction :=
  match a with Accept | Accept6 => Accept | Reject | Reject6 => Reject end.

Definition unrestrict (p : AddressPolicy.t) : AddressPolicy.t :=
  AddressPolicy.mk ((fun r => AddressPolicyRule.mk (unrestricted (AddressPolicyRule.action r)) (AddressPolicyRule.pattern r)) <$> AddressPolicy.rules p).

(** [accept6] and [reject6], which the documentation restricts to IPv6,
    decide about IPv4 addresses too: replacing them by [accept] and [reject]
    changes no decision, and a rule [accept6] for all addresses admits an IPv4
    address. *)
Theorem ipv6_actions_apply_to_ipv4 (p : AddressPolicy.t) (addr : IpAddr) (port : Z) :
  AddressPolicy.allows (unrestrict p) addr port = AddressPolicy.allows p addr port /\
  (let? policy := parse_exit_policy (chars "ExitPolicy accept6 *:*") in
   Ok (AddressPolicy.allows policy (V4 [x01; x02; x03; x04]) 80)) = Ok (Some true).
Proof.
  split; [|vm_compute; reflexivity]. unfold AddressPolicy.allows, unrestrict. cbn [AddressPolicy.rules].
  induction (AddressPolicy.rules p) as [|r rs IH]; [done|]. rewrite fmap_cons. cbn [List.find AddressPolicyRule.pattern].
  destruct (AddressPortPattern.matches _ addr port); [|done]. cbn. by destruct (AddressPolicyRule.action r).
Qed.
