(* ===== verification/ServiceInterface.v ===== *)
(** * The interface of service providers

    Models [service-providers/common/src/interface]: the versioned envelope in
    which clients and service providers exchange control messages and the
    messages of a provider, and the control messages. *)

From S2P Require Import Prelude Bytes.
From Stdlib.Strings Require Import Byte.
#[local] Open Scope Z_scope.

(** ** Versions, [version.rs] *)

(** The macro [define_simple_version] generates one such type per protocol. *)
Inductive SimpleVersion : Type := Legacy | Versioned (version : byte).

#[export] Instance SimpleVersion_eq_dec : EqDecision SimpleVersion.
Proof. solve_decision. Defined.

Definition INITIAL_INTERFACE_VERSION : byte := x03.
Definition INTERFACE_VERSION : byte := x03.

Module Version.

Definition new (current_version : byte) (use_legacy : bool) : SimpleVersion :=
  if use_legacy then Legacy else Versioned current_version.

Definition is_legacy (v : SimpleVersion) : bool := match v with Legacy => true | Versioned _ => false end.

Definition as_u8 (v : SimpleVersion) : option byte := match v with Legacy => None | Versioned n => Some n end.

Definition from (initial_version n : byte) : SimpleVersion :=
  if byte_to_Z n <? byte_to_Z initial_version then Legacy else Versioned n.

(** The derived order: constructors in the order they are declared. *)
Definition gt (a b : SimpleVersion) : bool :=
  match a, b with
  | Legacy, _ => false
  | Versioned _, Legacy => true
  | Versioned n, Versioned m => byte_to_Z m <? byte_to_Z n
  end.

(** A version that is not mistaken for a legacy message. *)
Definition proper (initial_version : byte) (v : SimpleVersion) : Prop :=
  match v with Legacy => True | Versioned n => byte_to_Z initial_version <= byte_to_Z n end.

End Version.

(** ** Errors, [mod.rs] *)

Inductive ServiceProviderMessagingError : Type :=
| InvalidRequestTag (received : Z)
| InvalidResponseTag (received : Z)
| InvalidControlRequestTag (received : Z)
| InvalidControlResponseTag (received : Z)
| EmptyRequest
| EmptyResponse
| IncompleteRequest (received : Z)
| IncompleteResponse (received : Z)
| EmptyControlRequest
| EmptyControlResponse
| UnexpectedProviderDataResponse
| UnexpectedControlResponse
| ControlRequestInLegacyMode
| MalformedBinaryInfoControlResponse
| MalformedErrorControlResponse
| MalformedSupportedVersionsResponse.

(** The trait [Serializable]. *)
Class Serializable (T E : Type) := {
  into_bytes : T -> list byte;
  try_from_bytes : list byte -> outcome E T
}.

(** ** Control messages, [control.rs] *)

(** A format of another crate, here JSON. *)
Class Codec (A : Type) := {
  encode : A -> list byte;
  decode : list byte -> option A
}.

Class CodecLaws (A : Type) `{Codec A} : Prop := decode_encode (a : A) : decode (encode a) = Some a.

Inductive ControlRequest : Type := HealthRequest | BinaryInfoRequest | SupportedRequestVersionsRequest.

Module ControlRequests.

Definition tag (r : ControlRequest) : byte :=
  match r with HealthRequest => x00 | BinaryInfoRequest => x01 | SupportedRequestVersionsRequest => x02 end.

Definition to_bytes (r : ControlRequest) : list byte := [tag r].

Definition from_bytes (b : list byte) : outcome ServiceProviderMessagingError ControlRequest :=
  match b with
  | [] => Err EmptyControlRequest
  | value :: _ =>
      if bool_decide (value = tag HealthRequest) then Ok HealthRequest
      else if bool_decide (value = tag BinaryInfoRequest) then Ok BinaryInfoRequest
      else if bool_decide (value = tag SupportedRequestVersionsRequest) then Ok SupportedRequestVersionsRequest
      else Err (InvalidControlRequestTag (byte_to_Z value))
  end.

#[export] Instance serializable : Serializable ControlRequest ServiceProviderMessagingError := {|
  into_bytes := to_bytes; try_from_bytes := from_bytes
|}.

End ControlRequests.

(** [BinaryBuildInformationOwned] of [common/bin-common]. *)
Record BinaryBuildInformation : Type := mkBuildInformation {
  bi_binary_name : list byte;
  build_timestamp : list byte;
  build_version : list byte;
  commit_sha : list byte;
  commit_timestamp : list byte;
  commit_branch : list byte;
  rustc_version : list byte;
  rustc_channel : list byte;
  cargo_profile : list byte
}.

Record BinaryInformation : Type := mkBinaryInformation {
  binary_name : list byte;
  build_information : BinaryBuildInformation
}.

Record SupportedVersions : Type := mkSupportedVersions {
  sv_interface_version : list byte;
  sv_provider_version : list byte
}.

Record ErrorResponse : Type := mkErrorResponse { er_message : list byte }.

Inductive ControlResponse : Type :=
| HealthResponse
| BinaryInfoResponse (info : BinaryInformation)
| SupportedRequestVersionsResponse (supported_versions : SupportedVersions)
| ErrorControlResponse (error_response : ErrorResponse).

Module ControlResponses.

Section Json.
Context `{!Codec BinaryInformation, !Codec SupportedVersions, !Codec ErrorResponse}.

Definition tag (r : ControlResponse) : byte :=
  match r with
  | HealthResponse => x00
  | BinaryInfoResponse _ => x01
  | SupportedRequestVersionsResponse _ => x02
  | ErrorControlResponse _ => xff
  end.

Definition serialize_inner (r : ControlResponse) : list byte :=
  match r with
  | HealthResponse => []
  | BinaryInfoResponse info => encode info
  | SupportedRequestVersionsResponse supported_versions => encode supported_versions
  | ErrorControlResponse error_response => encode error_response
  end.

Definition to_bytes (r : ControlResponse) : list byte := tag r :: serialize_inner r.

Definition from_bytes (b : list byte) : outcome ServiceProviderMessagingError ControlResponse :=
  match b with
  | [] => Err EmptyControlResponse
  | value :: b =>
      if bool_decide (value = x00) then Ok HealthResponse
      else if bool_decide (value = x01) then
        match decode b with
        | Some binary_info => Ok (BinaryInfoResponse binary_info)
        | None => Err MalformedBinaryInfoControlResponse
        end
      else if bool_decide (value = x02) then
        match decode b with
        | Some supported_versions => Ok (SupportedRequestVersionsResponse supported_versions)
        | None => Err MalformedErrorControlResponse
        end
      else if bool_decide (value = xff) then
        match decode b with
        | Some error_response => Ok (ErrorControlResponse error_response)
        | None => Err MalformedErrorControlResponse
        end
      else Err (InvalidControlResponseTag (byte_to_Z value))
  end.

#[export] Instance serializable : Serializable ControlResponse ServiceProviderMessagingError := {|
  into_bytes := to_bytes; try_from_bytes := from_bytes
|}.

End Json.

End ControlResponses.

(** ** The envelope, [request.rs] and [response.rs] *)

(** Requests and responses share their layout; they differ in the control
    messages they carry and in the errors they name. *)
Class Direction (C : Type) := {
  dir_control :: Serializable C ServiceProviderMessagingError;
  dir_empty : ServiceProviderMessagingError;
  dir_incomplete : Z -> ServiceProviderMessagingError;
  dir_invalid_tag : Z -> ServiceProviderMessagingError
}.

#[export] Instance request_direction : Direction ControlRequest := {|
  dir_control := ControlRequests.serializable;
  dir_empty := EmptyRequest;
  dir_incomplete := IncompleteRequest;
  dir_invalid_tag := InvalidRequestTag
|}.

#[export] Instance response_direction
    `{!Codec BinaryInformation, !Codec SupportedVersions, !Codec ErrorResponse} : Direction ControlResponse := {|
  dir_control := ControlResponses.serializable;
  dir_empty := EmptyResponse;
  dir_incomplete := IncompleteResponse;
  dir_invalid_tag := InvalidResponseTag
|}.

Inductive Content (C T : Type) : Type := Control (control : C) | ProviderData (provider_data : T).
Arguments Control {C T} _.
Arguments ProviderData {C T} _.

Record Envelope (C T : Type) : Type := mkEnvelope {
  interface_version : SimpleVersion;
  content : Content C T
}.
Arguments mkEnvelope {C T} _ _.
Arguments interface_version {C T} _.
Arguments content {C T} _.

Module Envelopes.

Section Formats.
Context {C T E : Type} `{!Direction C, !Serializable T E} (from : ServiceProviderMessagingError -> E).

Definition tag (c : Content C T) : byte := match c with Control _ => x00 | ProviderData _ => x01 end.

Definition serialize_inner (c : Content C T) : list byte :=
  match c with
  | Control control => into_bytes control
  | ProviderData provider_data => into_bytes provider_data
  end.

(** A control message has no legacy form: nothing is written. *)
Definition content_into_bytes (c : Content C T) (version : SimpleVersion) : list byte :=
  if Version.is_legacy version then
    match c with Control _ => [] | ProviderData _ => serialize_inner c end
  else tag c :: serialize_inner c.

Definition content_try_from_bytes (b : list byte) (version : SimpleVersion) : outcome E (Content C T) :=
  if Version.is_legacy version then
    let? provider_data := try_from_bytes b in
    Ok (ProviderData provider_data)
  else
    match b with
    | [] => Err (from (dir_incomplete (len b + 1)))
    | value :: b =>
        if bool_decide (value = x00) then
          let? control := map_err from (try_from_bytes b) in
          Ok (Control control)
        else if bool_decide (value = x01) then
          let? provider_data := try_from_bytes b in
          Ok (ProviderData provider_data)
        else Err (from (dir_invalid_tag (byte_to_Z value)))
    end.

Definition envelope_into_bytes (r : Envelope C T) : list byte :=
  match Version.as_u8 (interface_version r) with
  | Some version => version :: content_into_bytes (content r) (interface_version r)
  | None => content_into_bytes (content r) (interface_version r)
  end.

Definition envelope_try_from_bytes (b : list byte) : outcome E (Envelope C T) :=
  match b with
  | [] => Err (from dir_empty)
  | v :: rest =>
      let version := Version.from INITIAL_INTERFACE_VERSION v in
      let? c :=
        (if Version.is_legacy version then content_try_from_bytes b version
         else content_try_from_bytes rest version) in
      Ok (mkEnvelope version c)
  end.

End Formats.

End Envelopes.

(** ** Round trips *)

Module EnvelopeFacts.
Import Envelopes.

Lemma control_request_roundtrip (r : ControlRequest) : ControlRequests.from_bytes (ControlRequests.to_bytes r) = Ok r.
Proof. by destruct r. Qed.

Lemma control_response_roundtrip
    `{!Codec BinaryInformation, !Codec SupportedVersions, !Codec ErrorResponse}
    `{!CodecLaws BinaryInformation, !CodecLaws SupportedVersions, !CodecLaws ErrorResponse} (r : ControlResponse) :
  ControlResponses.from_bytes (ControlResponses.to_bytes r) = Ok r.
Proof. destruct r; simpl; rewrite ?decode_encode; done. Qed.

Section Roundtrip.
Context {C T E : Type} `{!Direction C, !Serializable T E} (from : ServiceProviderMessagingError -> E).
Hypothesis control_roundtrip : forall c : C, try_from_bytes (into_bytes c) = Ok (E := ServiceProviderMessagingError) c.

(** A versioned envelope is read back when its message is. *)
Lemma versioned_roundtrip (v : byte) (c : Content C T) (t' : T -> outcome E T) :
  (forall t, c = ProviderData t -> try_from_bytes (into_bytes t) = t' t) ->
  byte_to_Z INITIAL_INTERFACE_VERSION <= byte_to_Z v ->
  envelope_try_from_bytes from (envelope_into_bytes (mkEnvelope (Versioned v) c)) =
    match c with
    | Control c => Ok (mkEnvelope (Versioned v) (Control c))
    | ProviderData t => let? t := t' t in Ok (mkEnvelope (Versioned v) (ProviderData t))
    end.
Proof.
  intros Ht Hv. unfold envelope_try_from_bytes, envelope_into_bytes; cbn [interface_version Version.as_u8 content].
  unfold Version.from. rewrite (proj2 (Z.ltb_ge _ _)) by done.
  cbn [Version.is_legacy content_into_bytes content_try_from_bytes]. destruct c as [c|t]; cbn [tag serialize_inner].
  - rewrite control_roundtrip. done.
  - rewrite (Ht t) by done. destruct (t' t); done.
Qed.

(** A legacy envelope is the bare message; it is read back as legacy if the
    message's first byte is no version. *)
Lemma legacy_roundtrip (t : T) b bs :
  into_bytes t = b :: bs -> byte_to_Z b < byte_to_Z INITIAL_INTERFACE_VERSION ->
  envelope_try_from_bytes from (envelope_into_bytes (mkEnvelope Legacy (ProviderData t))) =
    let? t := try_from_bytes (into_bytes t) in Ok (mkEnvelope Legacy (ProviderData t)).
Proof.
  intros Ht Hb. unfold envelope_try_from_bytes, envelope_into_bytes; cbn [interface_version Version.as_u8 content].
  cbn [content_into_bytes Version.is_legacy serialize_inner]. rewrite Ht.
  unfold Version.from. rewrite (proj2 (Z.ltb_lt _ _)) by done. cbn [Version.is_legacy content_try_from_bytes].
  destruct (try_from_bytes (b :: bs)); done.
Qed.

End Roundtrip.

End EnvelopeFacts.
