(* ===== verification/SocksMessages.v ===== *)
(** * Messages between socks5 clients and network requesters

    Models [common/socks5/requests/src]: the header and the data of a socket,
    the requests and responses of the protocol and their byte formats, legacy
    and versioned, carried in the envelope of service providers. *)

From Stdlib.Strings Require Import Byte.
From S2P Require Import Prelude Bytes Utf8 Addressing ExitPolicy ServiceInterface.
#[local] Open Scope Z_scope.

(** ** Socket data, [lib.rs] *)

Record InsufficientSocketDataError : Type := mkInsufficient { isd_received : Z; isd_expected : Z }.

(** [b[i]]. *)
Definition index {E A} (l : list A) (i : nat) : outcome E A :=
  match l !! i with Some a => Ok a | None => Panic IndexOutOfBounds end.

Definition byte_of_bool (b : bool) : byte := if b then x01 else x00.
Definition bool_of_byte (b : byte) : bool := negb (byte_to_Z b =? 0).

(** [u64::to_be_bytes] and [u64::from_be_bytes]. *)
Definition u64_to_be_bytes (z : Z) : list byte := be_encode 8 z.
Definition u64_from_be_bytes (b : list byte) : Z := be_decode b.

Module SocketDataHeader.

Record t : Type := mk { seq : Z; connection_id : Z; local_socket_closed : bool }.

Definition SERIALIZED_LEN : Z := 8 + 1 + 8.

Definition into_request_bytes (h : t) : list byte :=
  u64_to_be_bytes (connection_id h) ++ [byte_of_bool (local_socket_closed h)] ++ u64_to_be_bytes (seq h).

Definition try_from_request_bytes (b : list byte) : outcome InsufficientSocketDataError t :=
  if len b =? SERIALIZED_LEN then
    let? id := slice b 0 8 in
    let? closed := index b 8 in
    let? sequence := slice b 9 (len b) in
    Ok (mk (u64_from_be_bytes sequence) (u64_from_be_bytes id) (bool_of_byte closed))
  else Err (mkInsufficient (len b) SERIALIZED_LEN).

Definition into_response_bytes (h : t) : list byte :=
  [byte_of_bool (local_socket_closed h)] ++ u64_to_be_bytes (connection_id h) ++ u64_to_be_bytes (seq h).

Definition try_from_response_bytes (b : list byte) : outcome InsufficientSocketDataError t :=
  if len b =? SERIALIZED_LEN then
    let? closed := index b 0 in
    let? id := slice b 1 9 in
    let? sequence := slice b 9 (len b) in
    Ok (mk (u64_from_be_bytes sequence) (u64_from_be_bytes id) (bool_of_byte closed))
  else Err (mkInsufficient (len b) SERIALIZED_LEN).

End SocketDataHeader.

Module SocketData.

Record t : Type := mk { header : SocketDataHeader.t; data : list byte }.

Definition new (seq connection_id : Z) (local_socket_closed : bool) (data : list byte) : t :=
  mk (SocketDataHeader.mk seq connection_id local_socket_closed) data.

Definition verify_deserialization_len (b : list byte) : outcome InsufficientSocketDataError unit :=
  if bool_decide (b = []) then Err (mkInsufficient 0 SocketDataHeader.SERIALIZED_LEN)
  else if len b <? SocketDataHeader.SERIALIZED_LEN then Err (mkInsufficient (len b) SocketDataHeader.SERIALIZED_LEN)
  else Ok tt.

Definition try_from_request_bytes (b : list byte) : outcome InsufficientSocketDataError t :=
  let? _ := verify_deserialization_len b in
  let? header_bytes := slice b 0 SocketDataHeader.SERIALIZED_LEN in
  let? header := SocketDataHeader.try_from_request_bytes header_bytes in
  let? data := slice b SocketDataHeader.SERIALIZED_LEN (len b) in
  Ok (mk header data).

Definition into_request_bytes (d : t) : list byte := SocketDataHeader.into_request_bytes (header d) ++ data d.

Definition try_from_response_bytes (b : list byte) : outcome InsufficientSocketDataError t :=
  let? _ := verify_deserialization_len b in
  let? header_bytes := slice b 0 SocketDataHeader.SERIALIZED_LEN in
  let? header := SocketDataHeader.try_from_response_bytes header_bytes in
  let? data := slice b SocketDataHeader.SERIALIZED_LEN (len b) in
  Ok (mk header data).

Definition into_response_bytes (d : t) : list byte := SocketDataHeader.into_response_bytes (header d) ++ data d.

(** Data whose numbers are [u64]. *)
Definition valid (d : t) : Prop :=
  is_u64 (SocketDataHeader.seq (header d)) /\ is_u64 (SocketDataHeader.connection_id (header d)).

End SocketData.

(** ** Requests, [request.rs] *)

(** The binary format of queries is of another crate. *)
Class Bincode (A : Type) := {
  serialize : A -> option (list byte);
  deserialize : list byte -> option A
}.

Class BincodeLaws (A : Type) `{Bincode A} (ok : A -> Prop) : Prop :=
  deserialize_serialize (a : A) : ok a -> exists b, serialize a = Some b /\ deserialize b = Some a.

Inductive RequestFlag : Type := ConnectFlag | SendFlag | QueryRequestFlag.

Inductive RequestDeserializationError : Type :=
| AddressLengthTooShort
| AddressTooShort
| RequestConnectionIdTooShort
| RequestNoData
| UnknownRequestFlag (value : Z)
| ReturnAddressTooShort
| MalformedReturnAddress (e : RecipientFormattingError)
| RequestQueryDeserializationError
| InvalidSocketData (e : InsufficientSocketDataError).

Module RequestFlags.

Definition as_u8 (f : RequestFlag) : byte := match f with ConnectFlag => x00 | SendFlag => x01 | QueryRequestFlag => x02 end.

Definition try_from (value : byte) : outcome RequestDeserializationError RequestFlag :=
  if bool_decide (value = as_u8 ConnectFlag) then Ok ConnectFlag
  else if bool_decide (value = as_u8 SendFlag) then Ok SendFlag
  else if bool_decide (value = as_u8 QueryRequestFlag) then Ok QueryRequestFlag
  else Err (UnknownRequestFlag (byte_to_Z value)).

End RequestFlags.

(** [String]s are their UTF-8 bytes. *)
Record ConnectRequest : Type := mkConnect {
  conn_id : Z;
  remote_addr : list byte;
  return_address : option Recipient.t
}.

Inductive QueryRequest : Type := QueryOpenProxy | QueryDescription | QueryExitPolicy.

#[export] Instance QueryRequest_eq_dec : EqDecision QueryRequest.
Proof. solve_decision. Defined.

Inductive Socks5RequestContent : Type :=
| Connect (req : ConnectRequest)
| Send (data : SocketData.t)
| RequestQuery (query : QueryRequest).

Definition SOCKS5_INITIAL_INTERFACE_VERSION : byte := x03.
Definition SOCKS5_INTERFACE_VERSION : byte := x03.

Record Socks5Request : Type := mkSocks5Request {
  req_protocol_version : SimpleVersion;
  req_content : Socks5RequestContent
}.

(** ** Responses, [response.rs] *)

Inductive ResponseFlag : Type := NetworkDataFlag | ConnectionErrorFlag | QueryResponseFlag.

Inductive ResponseDeserializationError : Type :=
| MalformedNetworkData (e : InsufficientSocketDataError)
| ResponseConnectionIdTooShort
| UnknownResponseFlag (value : Z)
| ResponseNoData
| MalformedErrorMessage
| ResponseQueryDeserializationError.

Module ResponseFlags.

Definition as_u8 (f : ResponseFlag) : byte :=
  match f with NetworkDataFlag => x01 | ConnectionErrorFlag => x02 | QueryResponseFlag => x03 end.

Definition try_from (value : byte) : outcome ResponseDeserializationError ResponseFlag :=
  if bool_decide (value = as_u8 NetworkDataFlag) then Ok NetworkDataFlag
  else if bool_decide (value = as_u8 ConnectionErrorFlag) then Ok ConnectionErrorFlag
  else if bool_decide (value = as_u8 QueryResponseFlag) then Ok QueryResponseFlag
  else Err (UnknownResponseFlag (byte_to_Z value)).

End ResponseFlags.

Inductive QueryResponse : Type :=
| OpenProxy (open : bool)
| Description (description : list byte)
| ExitPolicyResponse (enabled : bool) (upstream : list byte) (policy : option AddressPolicy.t)
| QueryError (message : list byte).

Module ConnectionError.

Record t : Type := mk { connection_id : Z; network_requester_error : list byte }.

Definition try_from_bytes (b : list byte) : outcome ResponseDeserializationError t :=
  if bool_decide (b = []) then Err ResponseNoData
  else if len b <? 8 then Err ResponseConnectionIdTooShort
  else
    let connection_id := u64_from_be_bytes (take 8 b) in
    match from_utf8 (drop 8 b) with
    | Some network_requester_error => Ok (mk connection_id network_requester_error)
    | None => Err MalformedErrorMessage
    end.

Definition into_bytes (e : t) : list byte := u64_to_be_bytes (connection_id e) ++ network_requester_error e.

End ConnectionError.

(** ** The error of both, [lib.rs] *)

Inductive Socks5RequestError : Type :=
| RequestDeserialization (source : RequestDeserializationError)
| ResponseDeserialization (source : ResponseDeserializationError)
| ProviderInterfaceError (source : ServiceProviderMessagingError)
| UnsupportedProtocolVersion (protocol_version : SimpleVersion).

Section Messages.
Context `{!KeyApi, !Bincode QueryRequest, !Bincode QueryResponse}.

Definition unwrap_or_default (b : option (list byte)) : list byte := default [] b.

(** The length of the address is cast to [u16]. *)
Definition request_content_into_bytes (c : Socks5RequestContent) : list byte :=
  match c with
  | Connect req =>
      [RequestFlags.as_u8 ConnectFlag] ++ u64_to_be_bytes (conn_id req) ++
      be_encode 2 (len (remote_addr req)) ++ remote_addr req ++
      match return_address req with Some r => Recipient.to_bytes r | None => [] end
  | Send data => RequestFlags.as_u8 SendFlag :: SocketData.into_request_bytes data
  | RequestQuery query => RequestFlags.as_u8 QueryRequestFlag :: unwrap_or_default (serialize query)
  end.

Definition parse_return_address (recipient_data_bytes : list byte) : outcome RequestDeserializationError (option Recipient.t) :=
  if bool_decide (recipient_data_bytes = []) then Ok None
  else if negb (len recipient_data_bytes =? Recipient.LEN) then Err ReturnAddressTooShort
  else
    let? r := map_err MalformedReturnAddress (Recipient.try_from_bytes recipient_data_bytes) in
    Ok (Some r).

(** The [Connect] arm of [try_from_bytes], on the bytes after the flag. *)
Definition parse_connect (b : list byte) : outcome RequestDeserializationError Socks5RequestContent :=
  if len b <? 8 then Err RequestConnectionIdTooShort
  else
    let conn_id := u64_from_be_bytes (take 8 b) in
    let connect_request_bytes := drop 8 b in
    if len connect_request_bytes <? 2 then Err AddressLengthTooShort
    else
      let address_length := be_decode (take 2 connect_request_bytes) in
      if len connect_request_bytes <? 2 + address_length then Err AddressTooShort
      else
        let? address_bytes := slice connect_request_bytes 2 (2 + address_length) in
        let? recipient_data_bytes := slice connect_request_bytes (2 + address_length) (len connect_request_bytes) in
        let remote_address := from_utf8_lossy address_bytes in
        let? return_address := parse_return_address recipient_data_bytes in
        Ok (Connect (mkConnect conn_id remote_address return_address)).

Definition request_content_try_from_bytes (b : list byte) : outcome RequestDeserializationError Socks5RequestContent :=
  match b with
  | [] => Err RequestNoData
  | value :: b =>
      let? flag := RequestFlags.try_from value in
      match flag with
      | ConnectFlag => parse_connect b
      | SendFlag =>
          let? data := map_err InvalidSocketData (SocketData.try_from_request_bytes b) in
          Ok (Send data)
      | QueryRequestFlag =>
          match deserialize b with
          | Some query => Ok (RequestQuery query)
          | None => Err RequestQueryDeserializationError
          end
      end
  end.

Definition LEGACY_TYPE_TAG : byte := x00.

Definition max_supported_version : SimpleVersion := Version.new SOCKS5_INTERFACE_VERSION false.

Definition request_into_bytes (r : Socks5Request) : list byte :=
  match Version.as_u8 (req_protocol_version r) with
  | Some version => version :: request_content_into_bytes (req_content r)
  | None => LEGACY_TYPE_TAG :: request_content_into_bytes (req_content r)
  end.

Definition request_try_from_bytes (b : list byte) : outcome Socks5RequestError Socks5Request :=
  match b with
  | [] => Err (RequestDeserialization RequestNoData)
  | v :: b =>
      let protocol_version := Version.from SOCKS5_INITIAL_INTERFACE_VERSION v in
      if Version.gt protocol_version max_supported_version then Err (UnsupportedProtocolVersion protocol_version)
      else
        let? content := map_err RequestDeserialization (request_content_try_from_bytes b) in
        Ok (mkSocks5Request protocol_version content)
  end.

Inductive Socks5ResponseContent : Type :=
| NetworkData (content : SocketData.t)
| ConnectionErrorContent (e : ConnectionError.t)
| ResponseQuery (query : QueryResponse).

Record Socks5Response : Type := mkSocks5Response {
  res_protocol_version : SimpleVersion;
  res_content : Socks5ResponseContent
}.

Definition response_content_into_bytes (c : Socks5ResponseContent) : list byte :=
  match c with
  | NetworkData content => ResponseFlags.as_u8 NetworkDataFlag :: SocketData.into_response_bytes content
  | ConnectionErrorContent e => ResponseFlags.as_u8 ConnectionErrorFlag :: ConnectionError.into_bytes e
  | ResponseQuery query => ResponseFlags.as_u8 QueryResponseFlag :: unwrap_or_default (serialize query)
  end.

Definition response_content_try_from_bytes (b : list byte) : outcome ResponseDeserializationError Socks5ResponseContent :=
  match b with
  | [] => Err ResponseNoData
  | value :: b =>
      let? flag := ResponseFlags.try_from value in
      match flag with
      | NetworkDataFlag =>
          let? content := map_err MalformedNetworkData (SocketData.try_from_response_bytes b) in
          Ok (NetworkData content)
      | ConnectionErrorFlag =>
          let? e := ConnectionError.try_from_bytes b in
          Ok (ConnectionErrorContent e)
      | QueryResponseFlag =>
          match deserialize b with
          | Some query => Ok (ResponseQuery query)
          | None => Err ResponseQueryDeserializationError
          end
      end
  end.

Definition response_into_bytes (r : Socks5Response) : list byte :=
  match Version.as_u8 (res_protocol_version r) with
  | Some version => version :: response_content_into_bytes (res_content r)
  | None => response_content_into_bytes (res_content r)
  end.

Definition response_try_from_bytes (b : list byte) : outcome Socks5RequestError Socks5Response :=
  match b with
  | [] => Err (ResponseDeserialization ResponseNoData)
  | v :: rest =>
      let protocol_version := Version.from SOCKS5_INITIAL_INTERFACE_VERSION v in
      let? content :=
        map_err ResponseDeserialization
          (if Version.is_legacy protocol_version then response_content_try_from_bytes b
           else response_content_try_from_bytes rest) in
      Ok (mkSocks5Response protocol_version content)
  end.

#[export] Instance socks5_request : Serializable Socks5Request Socks5RequestError := {|
  into_bytes := request_into_bytes; try_from_bytes := request_try_from_bytes
|}.

#[export] Instance socks5_response : Serializable Socks5Response Socks5RequestError := {|
  into_bytes := response_into_bytes; try_from_bytes := response_try_from_bytes
|}.

(** [Socks5ProviderRequest] and [Socks5ProviderResponse]. *)
Definition provider_request_into_bytes (r : Envelope ControlRequest Socks5Request) : list byte :=
  Envelopes.envelope_into_bytes r.
Definition provider_request_try_from_bytes (b : list byte) : outcome Socks5RequestError (Envelope ControlRequest Socks5Request) :=
  Envelopes.envelope_try_from_bytes ProviderInterfaceError b.

Context `{!Codec BinaryInformation, !Codec SupportedVersions, !Codec ErrorResponse}.

Definition provider_response_into_bytes (r : Envelope ControlResponse Socks5Response) : list byte :=
  Envelopes.envelope_into_bytes r.
Definition provider_response_try_from_bytes (b : list byte) : outcome Socks5RequestError (Envelope ControlResponse Socks5Response) :=
  Envelopes.envelope_try_from_bytes ProviderInterfaceError b.

End Messages.
