(* ===== verification/SocksMessagesFacts.v ===== *)
(** * Socks5 messages on the wire

    Every message that the two sides may send is read back as it was sent, and
    no bytes make a reader abort. *)

From Stdlib Require Import ZifyBool.
From Stdlib.Strings Require Import Byte.
From S2P Require Import Prelude Bytes Utf8 Addressing ExitPolicy ServiceInterface SocksMessages.
#[local] Open Scope Z_scope.

(** ** Socket data *)

Lemma u64_roundtrip z : is_u64 z -> u64_from_be_bytes (u64_to_be_bytes z) = z.
Proof.
  unfold is_u64, u64_max. intros Hz. unfold u64_from_be_bytes, u64_to_be_bytes. rewrite be_decode_encode.
  change (256 ^ Z.of_nat 8) with (2 ^ 64). apply Z.mod_small. lia.
Qed.

Lemma bool_byte_roundtrip b : bool_of_byte (byte_of_bool b) = b.
Proof. by destruct b. Qed.

Lemma len_u64 z : len (u64_to_be_bytes z) = 8.
Proof. apply len_be_encode. Qed.

Lemma length_u64 z : length (u64_to_be_bytes z) = 8%nat.
Proof. apply length_be_encode. Qed.

Lemma header_request_roundtrip h :
  is_u64 (SocketDataHeader.seq h) -> is_u64 (SocketDataHeader.connection_id h) ->
  SocketDataHeader.try_from_request_bytes (SocketDataHeader.into_request_bytes h) = Ok h /\
  len (SocketDataHeader.into_request_bytes h) = SocketDataHeader.SERIALIZED_LEN.
Proof.
  intros Hs Hc. destruct h as [s c closed]. unfold SocketDataHeader.into_request_bytes;
    cbn [SocketDataHeader.seq SocketDataHeader.connection_id SocketDataHeader.local_socket_closed] in *.
  assert (len (u64_to_be_bytes c ++ [byte_of_bool closed] ++ u64_to_be_bytes s) = 17) as Hl.
  { rewrite !len_app, !len_u64. done. }
  split; [|done]. unfold SocketDataHeader.try_from_request_bytes. rewrite Hl. change (17 =? SocketDataHeader.SERIALIZED_LEN) with true. cbv iota.
  rewrite (slice_middle [] (u64_to_be_bytes c) ([byte_of_bool closed] ++ u64_to_be_bytes s)) by (done || by rewrite len_u64). cbn [obind].
  unfold index. rewrite lookup_app_r by (rewrite length_u64; lia). rewrite length_u64. cbn [Nat.sub app lookup list_lookup obind].
  change (byte_of_bool closed :: u64_to_be_bytes s) with ([byte_of_bool closed] ++ u64_to_be_bytes s).
  assert (slice (u64_to_be_bytes c ++ [byte_of_bool closed] ++ u64_to_be_bytes s) 9 17 = Ok (E := InsufficientSocketDataError) (u64_to_be_bytes s)) as ->.
  { rewrite <- (app_nil_r (u64_to_be_bytes s)), app_assoc. apply slice_middle; rewrite ?len_app, ?len_u64; done. }
  cbn [obind]. rewrite !u64_roundtrip, bool_byte_roundtrip by done. done.
Qed.

Lemma header_response_roundtrip h :
  is_u64 (SocketDataHeader.seq h) -> is_u64 (SocketDataHeader.connection_id h) ->
  SocketDataHeader.try_from_response_bytes (SocketDataHeader.into_response_bytes h) = Ok h /\
  len (SocketDataHeader.into_response_bytes h) = SocketDataHeader.SERIALIZED_LEN.
Proof.
  intros Hs Hc. destruct h as [s c closed]. unfold SocketDataHeader.into_response_bytes;
    cbn [SocketDataHeader.seq SocketDataHeader.connection_id SocketDataHeader.local_socket_closed] in *.
  assert (len ([byte_of_bool closed] ++ u64_to_be_bytes c ++ u64_to_be_bytes s) = 17) as Hl.
  { rewrite !len_app, !len_u64. done. }
  split; [|done]. unfold SocketDataHeader.try_from_response_bytes. rewrite Hl. change (17 =? SocketDataHeader.SERIALIZED_LEN) with true. cbv iota.
  unfold index. cbn [lookup list_lookup obind app].
  change (byte_of_bool closed :: u64_to_be_bytes c ++ u64_to_be_bytes s) with ([byte_of_bool closed] ++ u64_to_be_bytes c ++ u64_to_be_bytes s).
  rewrite (slice_middle [byte_of_bool closed] (u64_to_be_bytes c) (u64_to_be_bytes s)) by (done || by rewrite len_u64). cbn [obind].
  assert (slice ([byte_of_bool closed] ++ u64_to_be_bytes c ++ u64_to_be_bytes s) 9 17 = Ok (E := InsufficientSocketDataError) (u64_to_be_bytes s)) as ->.
  { rewrite <- (app_nil_r (u64_to_be_bytes s)), app_assoc. apply slice_middle; rewrite ?len_app, ?len_u64; done. }
  cbn [obind]. rewrite !u64_roundtrip, bool_byte_roundtrip by done. done.
Qed.

Lemma verify_len h d : len h = SocketDataHeader.SERIALIZED_LEN -> SocketData.verify_deserialization_len (h ++ d) = Ok tt.
Proof.
  intros Hl. pose proof (len_nonneg d). unfold SocketData.verify_deserialization_len.
  rewrite bool_decide_false by (intros [-> _]%app_nil; done). rewrite (proj2 (Z.ltb_ge _ _)); [done|]. rewrite len_app. lia.
Qed.

Lemma data_request_roundtrip d : SocketData.valid d -> SocketData.try_from_request_bytes (SocketData.into_request_bytes d) = Ok d.
Proof.
  destruct d as [h data]. intros [Hs Hc]. destruct (header_request_roundtrip h Hs Hc) as [E Hl].
  unfold SocketData.try_from_request_bytes, SocketData.into_request_bytes; cbn [SocketData.header SocketData.data].
  rewrite verify_len by done. cbn [obind]. rewrite (slice_middle [] (SocketDataHeader.into_request_bytes h) data) by done. cbn [obind].
  rewrite E. cbn [obind]. rewrite <- Hl, slice_from. done.
Qed.

Lemma data_response_roundtrip d : SocketData.valid d -> SocketData.try_from_response_bytes (SocketData.into_response_bytes d) = Ok d.
Proof.
  destruct d as [h data]. intros [Hs Hc]. destruct (header_response_roundtrip h Hs Hc) as [E Hl].
  unfold SocketData.try_from_response_bytes, SocketData.into_response_bytes; cbn [SocketData.header SocketData.data].
  rewrite verify_len by done. cbn [obind]. rewrite (slice_middle [] (SocketDataHeader.into_response_bytes h) data) by done. cbn [obind].
  rewrite E. cbn [obind]. rewrite <- Hl, slice_from. done.
Qed.

(** ** Messages *)

Definition query_ok (q : QueryResponse) : Prop :=
  match q with ExitPolicyResponse _ _ (Some policy) => AddressPolicy.valid policy | _ => True end.

Section Formats.
Context `{!KeyApi, !Bincode QueryRequest, !Bincode QueryResponse}.

(** What the types of a request guarantee, and an address that the length field can count. *)
Definition request_content_ok (c : Socks5RequestContent) : Prop :=
  match c with
  | Connect req =>
      is_u64 (conn_id req) /\ utf8_valid (remote_addr req) = true /\ len (remote_addr req) < 2 ^ 16 /\
      match return_address req with Some r => Recipient.valid r | None => True end
  | Send data => SocketData.valid data
  | RequestQuery _ => True
  end.

Definition response_content_ok (c : Socks5ResponseContent) : Prop :=
  match c with
  | NetworkData data => SocketData.valid data
  | ConnectionErrorContent e =>
      is_u64 (ConnectionError.connection_id e) /\ utf8_valid (ConnectionError.network_requester_error e) = true
  | ResponseQuery q => query_ok q
  end.

Lemma return_address_roundtrip r :
  match r with Some r => Recipient.valid r | None => True end ->
  parse_return_address (match r with Some r => Recipient.to_bytes r | None => [] end) = Ok r.
Proof.
  destruct r as [r|]; [|done]. intros Hr. unfold parse_return_address.
  pose proof (RecipientFacts.len_to_bytes r Hr) as Hl. rewrite bool_decide_false by (intros E; by rewrite E in Hl).
  rewrite Hl, Z.eqb_refl. cbn [negb]. rewrite RecipientFacts.to_bytes_roundtrip by done. done.
Qed.

Lemma connect_roundtrip id addr ret :
  is_u64 id -> utf8_valid addr = true -> len addr < 2 ^ 16 -> match ret with Some r => Recipient.valid r | None => True end ->
  parse_connect (u64_to_be_bytes id ++ be_encode 2 (len addr) ++ addr ++ match ret with Some r => Recipient.to_bytes r | None => [] end)
    = Ok (Connect (mkConnect id addr ret)).
Proof.
  intros Hid Hu Hl Hr. set (rest := match ret with Some r => Recipient.to_bytes r | None => [] end).
  pose proof (len_nonneg addr). pose proof (len_nonneg rest). unfold parse_connect.
  rewrite (proj2 (Z.ltb_ge _ _)) by (rewrite !len_app, len_u64, len_be_encode; lia). cbv zeta.
  rewrite (take_app_length' _ _ 8), (drop_app_length' _ _ 8) by (by rewrite length_u64).
  rewrite (proj2 (Z.ltb_ge _ _)) by (rewrite !len_app, len_be_encode; lia).
  rewrite (take_app_length' _ _ 2) by (by rewrite length_be_encode).
  assert (be_decode (be_encode 2 (len addr)) = len addr) as ->.
  { rewrite be_decode_encode. apply Z.mod_small. change (256 ^ Z.of_nat 2) with (2 ^ 16). lia. }
  rewrite (proj2 (Z.ltb_ge _ _)) by (rewrite !len_app, len_be_encode; lia).
  rewrite (slice_middle (be_encode 2 (len addr)) addr rest) by (rewrite len_be_encode; lia). cbn [obind].
  replace (2 + len addr) with (len (be_encode 2 (len addr) ++ addr)) by (rewrite len_app, len_be_encode; lia).
  rewrite app_assoc, slice_from. cbn [obind]. unfold rest. rewrite return_address_roundtrip by done. cbn [obind].
  rewrite from_utf8_lossy_valid, u64_roundtrip by done. done.
Qed.

Context `{!BincodeLaws QueryRequest (fun _ => True), !BincodeLaws QueryResponse query_ok}.

Lemma request_flag_roundtrip f : RequestFlags.try_from (RequestFlags.as_u8 f) = Ok f.
Proof. by destruct f. Qed.

Lemma response_flag_roundtrip f : ResponseFlags.try_from (ResponseFlags.as_u8 f) = Ok f.
Proof. by destruct f. Qed.

Lemma request_content_roundtrip c :
  request_content_ok c -> request_content_try_from_bytes (request_content_into_bytes c) = Ok c.
Proof.
  destruct c as [[id addr ret]|data|q]; cbn [request_content_ok request_content_into_bytes app request_content_try_from_bytes];
    rewrite request_flag_roundtrip; cbn [obind conn_id remote_addr return_address].
  - intros (Hid & Hu & Hl & Hr). by apply connect_roundtrip.
  - intros Hd. rewrite data_request_roundtrip by done. done.
  - intros _. destruct (deserialize_serialize q I) as (b & -> & E). unfold unwrap_or_default. cbn [default from_option]. unfold id. rewrite E. done.
Qed.

Lemma connection_error_roundtrip e :
  is_u64 (ConnectionError.connection_id e) -> utf8_valid (ConnectionError.network_requester_error e) = true ->
  ConnectionError.try_from_bytes (ConnectionError.into_bytes e) = Ok e.
Proof.
  destruct e as [id msg]; simpl. intros Hid Hu. unfold ConnectionError.try_from_bytes, ConnectionError.into_bytes; cbn [ConnectionError.connection_id ConnectionError.network_requester_error].
  pose proof (len_nonneg msg). pose proof (len_u64 id) as Hl.
  rewrite bool_decide_false by (intros [E _]%app_nil; by rewrite E in Hl).
  rewrite (proj2 (Z.ltb_ge _ _)) by (rewrite len_app; lia). cbv zeta.
  rewrite (take_app_length' _ _ 8), (drop_app_length' _ _ 8) by (by rewrite length_u64).
  unfold from_utf8. rewrite Hu, u64_roundtrip by done. done.
Qed.

Lemma response_content_roundtrip c :
  response_content_ok c -> response_content_try_from_bytes (response_content_into_bytes c) = Ok c.
Proof.
  destruct c as [data|e|q]; cbn [response_content_ok response_content_into_bytes response_content_try_from_bytes];
    rewrite response_flag_roundtrip; cbn [obind].
  - intros Hd. rewrite data_response_roundtrip by done. done.
  - intros [Hid Hu]. rewrite connection_error_roundtrip by done. done.
  - intros Hq. destruct (deserialize_serialize q Hq) as (b & -> & E). unfold unwrap_or_default. cbn [default from_option]. unfold id. rewrite E. done.
Qed.

(** The protocol versions of requests that are understood. *)
Definition request_ok (r : Socks5Request) : Prop :=
  (req_protocol_version r = Legacy \/ req_protocol_version r = Versioned SOCKS5_INTERFACE_VERSION) /\
  request_content_ok (req_content r).

Lemma request_roundtrip r : request_ok r -> request_try_from_bytes (request_into_bytes r) = Ok r.
Proof.
  destruct r as [v c]. intros [[Hv|Hv] Hc]; simpl in Hv; subst v; unfold request_try_from_bytes, request_into_bytes; simpl;
    rewrite request_content_roundtrip by done; done.
Qed.

(** Responses to queries have no legacy form. *)
Definition response_ok (r : Socks5Response) : Prop :=
  response_content_ok (res_content r) /\
  match res_protocol_version r with
  | Legacy => match res_content r with ResponseQuery _ => False | _ => True end
  | Versioned n => byte_to_Z SOCKS5_INITIAL_INTERFACE_VERSION <= byte_to_Z n
  end.

Lemma response_roundtrip r : response_ok r -> response_try_from_bytes (response_into_bytes r) = Ok r.
Proof.
  destruct r as [v c]. unfold response_ok, response_try_from_bytes, response_into_bytes; cbn [res_protocol_version res_content].
  intros [Hc Hv]. pose proof (response_content_roundtrip c Hc) as E. destruct v as [|n]; cbn [Version.as_u8].
  - assert (exists f bs, response_content_into_bytes c = f :: bs /\ Version.from SOCKS5_INITIAL_INTERFACE_VERSION f = Legacy)
      as (f & bs & Ef & Hf) by (destruct c; [by eexists _, _|by eexists _, _|done]).
    rewrite Ef in E |- *. rewrite Hf. cbn [Version.is_legacy]. rewrite E. done.
  - unfold Version.from. rewrite (proj2 (Z.ltb_ge _ _)) by done. cbn [Version.is_legacy]. rewrite E. done.
Qed.

(** ** No input aborts a reader *)

Lemma slice_checked {E A} (l : list A) lb ub (P : list A -> Prop) :
  0 <= lb -> lb <= ub -> ub <= len l -> (forall k, len k = ub - lb -> P k) -> checked P (slice (E := E) l lb ub).
Proof.
  intros H1 H2 H3 HP. rewrite slice_Ok by done. apply HP. rewrite len_take, len_drop by lia. lia.
Qed.

Ltac checked_steps :=
  repeat (eapply checked_bind; [apply (slice_checked _ _ _ (fun _ => True)); solve [lia|done|trivial]|]; intros ? _).

Lemma header_request_checked b : checked (fun _ => True) (SocketDataHeader.try_from_request_bytes b).
Proof.
  unfold SocketDataHeader.try_from_request_bytes. destruct (Z.eqb_spec (len b) SocketDataHeader.SERIALIZED_LEN) as [Hl|]; [|done].
  unfold SocketDataHeader.SERIALIZED_LEN in Hl. checked_steps. unfold index.
  destruct (lookup_lt_is_Some_2 b 8) as [x ->]; [unfold len in Hl; lia|]. cbn [obind]. checked_steps. done.
Qed.

Lemma header_response_checked b : checked (fun _ => True) (SocketDataHeader.try_from_response_bytes b).
Proof.
  unfold SocketDataHeader.try_from_response_bytes. destruct (Z.eqb_spec (len b) SocketDataHeader.SERIALIZED_LEN) as [Hl|]; [|done].
  unfold SocketDataHeader.SERIALIZED_LEN in Hl. unfold index.
  destruct (lookup_lt_is_Some_2 b 0) as [x ->]; [unfold len in Hl; lia|]. cbn [obind]. checked_steps. done.
Qed.

Lemma data_checked b :
  checked (fun _ => True) (SocketData.try_from_request_bytes b) /\ checked (fun _ => True) (SocketData.try_from_response_bytes b).
Proof.
  unfold SocketData.try_from_request_bytes, SocketData.try_from_response_bytes, SocketData.verify_deserialization_len.
  case_bool_decide; [done|]. destruct (Z.ltb_spec (len b) SocketDataHeader.SERIALIZED_LEN) as [|Hl]; [done|]. cbn [obind].
  unfold SocketDataHeader.SERIALIZED_LEN in *. split; checked_steps.
  - eapply checked_bind; [apply header_request_checked|]. intros h _. checked_steps. done.
  - eapply checked_bind; [apply header_response_checked|]. intros h _. checked_steps. done.
Qed.

Lemma checked_map_err {E E' A} (f : E -> E') (P : A -> Prop) (m : outcome E A) : checked P m -> checked P (map_err f m).
Proof. by destruct m. Qed.

Lemma return_address_checked b : checked (fun _ => True) (parse_return_address b).
Proof.
  unfold parse_return_address. case_bool_decide; [done|]. destruct (Z.eqb_spec (len b) Recipient.LEN) as [Hl|]; [|done]. cbn [negb].
  destruct (RecipientFacts.try_from_bytes_inv b Hl) as [[e ->]|(r & -> & _)]; done.
Qed.

Lemma parse_connect_checked b : checked (fun _ => True) (parse_connect b).
Proof.
  unfold parse_connect. destruct (Z.ltb_spec (len b) 8); [done|]. cbv zeta. destruct (Z.ltb_spec (len (drop 8 b)) 2); [done|].
  set (n := be_decode (take 2 (drop 8 b))). destruct (Z.ltb_spec (len (drop 8 b)) (2 + n)); [done|].
  assert (0 <= n) by apply be_decode_range. checked_steps.
  eapply checked_bind; [apply return_address_checked|]. done.
Qed.

Lemma request_checked b : checked (fun _ => True) (request_try_from_bytes b).
Proof.
  unfold request_try_from_bytes. destruct b as [|v b]; [done|]. cbv zeta. destruct (Version.gt _ _); [done|].
  eapply checked_bind; [apply checked_map_err|done]. unfold request_content_try_from_bytes. destruct b as [|f b]; [done|].
  eapply (checked_bind (fun _ => True)); [unfold RequestFlags.try_from; by repeat case_bool_decide|]. intros [] _.
  - apply parse_connect_checked.
  - eapply checked_bind; [apply checked_map_err, data_checked|done].
  - by destruct (deserialize b).
Qed.

Lemma response_content_checked b : checked (fun _ => True) (response_content_try_from_bytes b).
Proof.
  unfold response_content_try_from_bytes. destruct b as [|f b]; [done|].
  eapply (checked_bind (fun _ => True)); [unfold ResponseFlags.try_from; by repeat case_bool_decide|]. intros [] _.
  - eapply checked_bind; [apply checked_map_err, data_checked|done].
  - eapply (checked_bind (fun _ => True)); [|done]. unfold ConnectionError.try_from_bytes. case_bool_decide; [done|].
    destruct (_ <? _); [done|]. cbv zeta. by destruct (from_utf8 _).
  - by destruct (deserialize b).
Qed.

Lemma response_checked b : checked (fun _ => True) (response_try_from_bytes b).
Proof.
  unfold response_try_from_bytes. destruct b as [|v b]; [done|]. cbv zeta.
  eapply checked_bind; [apply checked_map_err|done]. destruct (Version.is_legacy _); apply response_content_checked.
Qed.

Lemma envelope_checked {C T} `{!Direction C, !Serializable T Socks5RequestError} b :
  (forall b, checked (fun _ : C => True) (try_from_bytes (E := ServiceProviderMessagingError) b)) ->
  (forall b, checked (fun _ : T => True) (try_from_bytes (E := Socks5RequestError) b)) ->
  checked (fun _ => True) (Envelopes.envelope_try_from_bytes (C := C) (T := T) ProviderInterfaceError b).
Proof.
  intros HC HT. unfold Envelopes.envelope_try_from_bytes. destruct b as [|v b]; [done|]. cbv zeta.
  eapply checked_bind; [|done].
  assert (forall b w, checked (fun _ => True) (Envelopes.content_try_from_bytes (C := C) (T := T) ProviderInterfaceError b w)) as Hcontent.
  { intros b' w. unfold Envelopes.content_try_from_bytes. destruct (Version.is_legacy w); [eapply checked_bind; [apply HT|done]|].
    destruct b' as [|t b']; [done|]. repeat case_bool_decide; try done; (eapply checked_bind; [|done]); [apply checked_map_err, HC|apply HT]. }
  destruct (Version.is_legacy _); apply Hcontent.
Qed.

(** ** Envelopes *)

(** Control messages need a versioned interface; without one, the message
    itself must not start like a version. *)
Definition provider_request_ok (r : Envelope ControlRequest Socks5Request) : Prop :=
  match interface_version r, content r with
  | Versioned n, Control _ => byte_to_Z INITIAL_INTERFACE_VERSION <= byte_to_Z n
  | Versioned n, ProviderData q => byte_to_Z INITIAL_INTERFACE_VERSION <= byte_to_Z n /\ request_ok q
  | Legacy, Control _ => False
  | Legacy, ProviderData q => req_protocol_version q = Legacy /\ request_ok q
  end.

Definition provider_response_ok (r : Envelope ControlResponse Socks5Response) : Prop :=
  match interface_version r, content r with
  | Versioned n, Control _ => byte_to_Z INITIAL_INTERFACE_VERSION <= byte_to_Z n
  | Versioned n, ProviderData q => byte_to_Z INITIAL_INTERFACE_VERSION <= byte_to_Z n /\ response_ok q
  | Legacy, Control _ => False
  | Legacy, ProviderData q => res_protocol_version q = Legacy /\ response_ok q
  end.

Lemma provider_request_roundtrip r :
  provider_request_ok r -> provider_request_try_from_bytes (provider_request_into_bytes r) = Ok r.
Proof.
  destruct r as [[|n] [c|q]]; unfold provider_request_ok, provider_request_try_from_bytes, provider_request_into_bytes; cbn [interface_version content].
  - done.
  - intros [Hv Hq]. pose proof (request_roundtrip q Hq) as E. destruct q as [v c]; simpl in Hv; subst v.
    rewrite (EnvelopeFacts.legacy_roundtrip _ _ LEGACY_TYPE_TAG (request_content_into_bytes c)) by done. cbn [try_from_bytes into_bytes socks5_request socks5_response]. by rewrite E.
  - intros Hn. rewrite (EnvelopeFacts.versioned_roundtrip _) with (t' := Ok); [done|exact EnvelopeFacts.control_request_roundtrip|done|done].
  - intros [Hn Hq]. rewrite (EnvelopeFacts.versioned_roundtrip _) with (t' := Ok); [done|exact EnvelopeFacts.control_request_roundtrip| |done].
    intros t [= <-]. by apply request_roundtrip.
Qed.

Context `{!Codec BinaryInformation, !Codec SupportedVersions, !Codec ErrorResponse}.

Lemma provider_checked b :
  checked (fun _ => True) (provider_request_try_from_bytes b) /\ checked (fun _ => True) (provider_response_try_from_bytes b).
Proof.
  split; apply envelope_checked.
  - intros b'. simpl. unfold ControlRequests.from_bytes. destruct b' as [|t b']; [done|]. by repeat case_bool_decide.
  - apply request_checked.
  - intros b'. simpl. unfold ControlResponses.from_bytes. destruct b' as [|t b']; [done|]. repeat case_bool_decide; try done; by destruct (decode b').
  - apply response_checked.
Qed.

Context `{!CodecLaws BinaryInformation, !CodecLaws SupportedVersions, !CodecLaws ErrorResponse}.

Lemma provider_response_roundtrip r :
  provider_response_ok r -> provider_response_try_from_bytes (provider_response_into_bytes r) = Ok r.
Proof.
  destruct r as [[|n] [c|q]]; unfold provider_response_ok, provider_response_try_from_bytes, provider_response_into_bytes; cbn [interface_version content].
  - done.
  - intros [Hv Hq]. pose proof (response_roundtrip q Hq) as E. destruct q as [v c]; simpl in Hv; subst v.
    destruct Hq as [_ Hq]. simpl in Hq.
    assert (exists f bs, response_into_bytes (mkSocks5Response Legacy c) = f :: bs /\ byte_to_Z f < byte_to_Z INITIAL_INTERFACE_VERSION) as (f & bs & Ef & Hf)
      by (destruct c; [by eexists _, _|by eexists _, _|done]).
    rewrite (EnvelopeFacts.legacy_roundtrip _ _ f bs) by done. cbn [try_from_bytes into_bytes socks5_request socks5_response]. by rewrite E.
  - intros Hn. rewrite (EnvelopeFacts.versioned_roundtrip _) with (t' := Ok); [done|exact EnvelopeFacts.control_response_roundtrip|done|done].
  - intros [Hn Hq]. rewrite (EnvelopeFacts.versioned_roundtrip _) with (t' := Ok); [done|exact EnvelopeFacts.control_response_roundtrip| |done].
    intros t [= <-]. by apply response_roundtrip.
Qed.

(** ** Messages that have no form of their own *)

(** A legacy response to a query is not read back: its flag is the number
    of the first version, so the reader takes the message for a versioned one
    and looks for a flag in the encoded answer. *)
Lemma legacy_query_response_is_misread (q : QueryResponse) :
  response_try_from_bytes (response_into_bytes (mkSocks5Response Legacy (ResponseQuery q))) <>
    Ok (mkSocks5Response Legacy (ResponseQuery q)).
Proof.
  unfold response_try_from_bytes, response_into_bytes.
  cbn [res_protocol_version Version.as_u8 res_content response_content_into_bytes ResponseFlags.as_u8].
  change (Version.from SOCKS5_INITIAL_INTERFACE_VERSION _) with (Versioned x03). cbn [Version.is_legacy].
  destruct (response_content_try_from_bytes _); cbn [map_err obind]; congruence.
Qed.

(** The version of an envelope is the one its first byte stands for. *)
Lemma envelope_version {C T} `{!Direction C, !Serializable T Socks5RequestError} v b r :
  Envelopes.envelope_try_from_bytes (C := C) (T := T) ProviderInterfaceError (v :: b) = Ok r ->
  interface_version r = Version.from INITIAL_INTERFACE_VERSION v.
Proof. unfold Envelopes.envelope_try_from_bytes. cbv zeta. intros Hr. apply obind_Ok_inv in Hr as (c & _ & Hr). by injection Hr as <-. Qed.

(** A versioned envelope is read back only if its message is. *)
Lemma versioned_content {C T} `{!Direction C, !Serializable T Socks5RequestError} n (t : T) :
  Envelopes.envelope_try_from_bytes (C := C) ProviderInterfaceError
    (Envelopes.envelope_into_bytes (mkEnvelope (Versioned n) (ProviderData t))) = Ok (mkEnvelope (Versioned n) (ProviderData t)) ->
  byte_to_Z INITIAL_INTERFACE_VERSION <= byte_to_Z n /\ try_from_bytes (into_bytes t) = Ok (E := Socks5RequestError) t.
Proof.
  intros Hr. pose proof Hr as Hv%envelope_version. cbn [interface_version] in Hv. unfold Version.from in Hv.
  destruct (Z.ltb_spec (byte_to_Z n) (byte_to_Z INITIAL_INTERFACE_VERSION)) as [|Hn]; [done|]. split; [done|].
  unfold Envelopes.envelope_try_from_bytes, Envelopes.envelope_into_bytes in Hr. cbn [interface_version Version.as_u8 content] in Hr.
  unfold Version.from in Hr. rewrite (proj2 (Z.ltb_ge _ _)) in Hr by done.
  cbn [Version.is_legacy Envelopes.content_into_bytes Envelopes.content_try_from_bytes Envelopes.tag Envelopes.serialize_inner] in Hr.
  rewrite bool_decide_false, bool_decide_true in Hr by done.
  destruct (try_from_bytes (into_bytes t)) as [t'| |]; cbn [obind] in Hr; [|done|done]. by injection Hr as ->.
Qed.

Lemma from_versioned initial v n : Version.from initial v = Versioned n -> n = v /\ byte_to_Z initial <= byte_to_Z v.
Proof. unfold Version.from. destruct (Z.ltb_spec (byte_to_Z v) (byte_to_Z initial)); [done|]. intros [= <-]. done. Qed.

(** The values that the types of a message can have, and an address that its length field can count. *)
Definition request_typed (r : Envelope ControlRequest Socks5Request) : Prop :=
  match content r with Control _ => True | ProviderData q => request_content_ok (req_content q) end.

Definition response_typed (r : Envelope ControlResponse Socks5Response) : Prop :=
  match content r with Control _ => True | ProviderData q => response_content_ok (res_content q) end.

Lemma legacy_content {C T} `{!Direction C, !Serializable T Socks5RequestError} (t : T) :
  Envelopes.envelope_try_from_bytes (C := C) ProviderInterfaceError
    (Envelopes.envelope_into_bytes (mkEnvelope Legacy (ProviderData t))) = Ok (mkEnvelope Legacy (ProviderData t)) ->
  exists v bs, into_bytes t = v :: bs /\ byte_to_Z v < byte_to_Z INITIAL_INTERFACE_VERSION /\
    try_from_bytes (into_bytes t) = Ok (E := Socks5RequestError) t.
Proof.
  unfold Envelopes.envelope_into_bytes. cbn [interface_version Version.as_u8 content Envelopes.content_into_bytes Version.is_legacy Envelopes.serialize_inner].
  destruct (into_bytes t) as [|v bs] eqn:Et; [done|]. intros Hr. pose proof Hr as Hv%envelope_version. cbn [interface_version] in Hv.
  unfold Version.from in Hv. destruct (Z.ltb_spec (byte_to_Z v) (byte_to_Z INITIAL_INTERFACE_VERSION)) as [Hlt|]; [|done].
  exists v, bs. split; [done|]. split; [done|]. unfold Envelopes.envelope_try_from_bytes, Version.from in Hr.
  rewrite (proj2 (Z.ltb_lt _ _)) in Hr by done. cbn [Version.is_legacy Envelopes.content_try_from_bytes] in Hr.
  destruct (try_from_bytes (v :: bs)) as [t'| |]; cbn [obind] in Hr; [|done|done]. by injection Hr as ->.
Qed.

Lemma request_version v c :
  request_try_from_bytes (request_into_bytes (mkSocks5Request v c)) = Ok (mkSocks5Request v c) ->
  v = Legacy \/ v = Versioned SOCKS5_INTERFACE_VERSION.
Proof.
  intros Hr. destruct v as [|n]; [by left|right]. revert Hr. unfold request_into_bytes, request_try_from_bytes. cbn [req_protocol_version Version.as_u8 req_content].
  destruct (Version.gt _ _) eqn:Hgt; [done|]. intros Hr. apply obind_Ok_inv in Hr as (c' & _ & Hr). injection Hr as Hv _.
  rewrite Hv in Hgt. apply from_versioned in Hv as [_ Hv]. cbn in Hgt. apply Z.ltb_ge in Hgt. f_equal. apply byte_to_Z_inj.
  unfold SOCKS5_INITIAL_INTERFACE_VERSION, SOCKS5_INTERFACE_VERSION in *. lia.
Qed.

Lemma response_version v c :
  response_try_from_bytes (response_into_bytes (mkSocks5Response v c)) = Ok (mkSocks5Response v c) ->
  match v with
  | Legacy => match c with ResponseQuery _ => False | _ => True end
  | Versioned n => byte_to_Z SOCKS5_INITIAL_INTERFACE_VERSION <= byte_to_Z n
  end.
Proof.
  destruct v as [|n]; [destruct c; try done; apply legacy_query_response_is_misread|].
  unfold response_into_bytes, response_try_from_bytes. cbn [res_protocol_version Version.as_u8 res_content].
  intros Hr. apply obind_Ok_inv in Hr as (c' & _ & Hr). injection Hr as Hv _. by apply from_versioned in Hv as [_ Hv].
Qed.

Lemma provider_request_exact r :
  request_typed r -> provider_request_try_from_bytes (provider_request_into_bytes r) = Ok r -> provider_request_ok r.
Proof.
  destruct r as [[|n] [c|[v c]]]; unfold request_typed, provider_request_ok; cbn [content interface_version req_protocol_version req_content]; intros Ht Hr.
  - done.
  - apply legacy_content in Hr as (b & bs & Eb & Hlt & Hr). destruct (request_version v c Hr) as [->| ->]; [split; [done|split; [by left|done]]|].
    cbn in Eb. injection Eb as <- _. done.
  - apply envelope_version in Hr. cbn in Hr. by symmetry in Hr; apply from_versioned in Hr as [_ ?].
  - apply versioned_content in Hr as [Hn Hr]. split; [done|]. split; [exact (request_version v c Hr)|done].
Qed.

Lemma provider_response_exact r :
  response_typed r -> provider_response_try_from_bytes (provider_response_into_bytes r) = Ok r -> provider_response_ok r.
Proof.
  destruct r as [[|n] [c|[v c]]]; unfold response_typed, provider_response_ok; cbn [content interface_version res_protocol_version res_content]; intros Ht Hr.
  - done.
  - apply legacy_content in Hr as (b & bs & Eb & Hlt & Hr). pose proof (response_version v c Hr) as Hv. destruct v as [|m]; [done|].
    cbn in Eb. injection Eb as <- _. unfold SOCKS5_INITIAL_INTERFACE_VERSION, INITIAL_INTERFACE_VERSION in *. lia.
  - apply envelope_version in Hr. cbn in Hr. by symmetry in Hr; apply from_versioned in Hr as [_ ?].
  - apply versioned_content in Hr as [Hn Hr]. split; [done|]. split; [done|]. exact (response_version v c Hr).
Qed.

(** C27: which requests and responses of socks5 clients and network requesters are read back from
    their bytes as they were.  For messages with the values that their types can have, and with a
    remote address of less than 65536 bytes, these are exactly: in an envelope of a version
    that is not taken for legacy, control messages, requests that are legacy or of the protocol
    version in use, and responses that are legacy and do not answer a query or of a version that is
    not taken for legacy; in a legacy envelope, legacy requests, and legacy responses that do not
    answer a query.  No bytes at all
    make a reader of either side abort. *)
Theorem socks_messages_roundtrip (request : Envelope ControlRequest Socks5Request) (response : Envelope ControlResponse Socks5Response) :
  request_typed request -> response_typed response ->
  (provider_request_try_from_bytes (provider_request_into_bytes request) = Ok request <-> provider_request_ok request) /\
  (provider_response_try_from_bytes (provider_response_into_bytes response) = Ok response <-> provider_response_ok response) /\
  forall b p, provider_request_try_from_bytes b <> Panic p /\ provider_response_try_from_bytes b <> Panic p.
Proof.
  intros Hq Hr. split_and!; [split; [by apply provider_request_exact|apply provider_request_roundtrip]
    |split; [by apply provider_response_exact|apply provider_response_roundtrip]|].
  intros b p. destruct (provider_checked b) as [H1 H2]. split; intros E; [by rewrite E in H1|by rewrite E in H2].
Qed.

End Formats.

(** ** Instances *)

(** Keys and text formats for examples: every 32 bytes are a key, and text is
    the bytes in hexadecimal digits. *)
Definition hex_digit (n : Z) : byte := if n <? 10 then byte_of_Z (48 + n) else byte_of_Z (87 + n).
Definition hex_value (b : byte) : Z := if byte_to_Z b <? 58 then byte_to_Z b - 48 else byte_to_Z b - 87.

Fixpoint hex_encode (b : list byte) : list byte :=
  match b with
  | [] => []
  | x :: b => hex_digit (byte_to_Z x / 16) :: hex_digit (byte_to_Z x mod 16) :: hex_encode b
  end.

Fixpoint hex_decode (b : list byte) : option (list byte) :=
  match b with
  | [] => Some []
  | x :: y :: b => match hex_decode b with Some r => Some (byte_of_Z (16 * hex_value x + hex_value y) :: r) | None => None end
  | _ => None
  end.

#[export] Instance sample_keys : KeyApi := {|
  ed25519_valid := fun _ => true; base58_encode := hex_encode; base58_decode := hex_decode
|}.

(** Countable types have a format: their number, bit by bit. *)
Fixpoint pos_to_bytes (p : positive) : list byte :=
  match p with xH => [] | xO p => x00 :: pos_to_bytes p | xI p => x01 :: pos_to_bytes p end.

Fixpoint bytes_to_pos (b : list byte) : positive :=
  match b with [] => xH | x :: b => if bool_decide (x = x00) then xO (bytes_to_pos b) else xI (bytes_to_pos b) end.

Lemma bytes_to_pos_to_bytes p : bytes_to_pos (pos_to_bytes p) = p.
Proof. induction p; simpl; congruence. Qed.

Definition number_codec (A : Type) `{Countable A} : Codec A := {|
  encode := fun a => pos_to_bytes (countable.encode a);
  decode := fun b => countable.decode (bytes_to_pos b)
|}.

Definition number_bincode (A : Type) `{Countable A} : Bincode A := {|
  serialize := fun a => Some (pos_to_bytes (countable.encode a));
  deserialize := fun b => countable.decode (bytes_to_pos b)
|}.

Lemma number_codec_laws (A : Type) `{Countable A} : @CodecLaws A (number_codec A).
Proof. intros a. simpl. by rewrite bytes_to_pos_to_bytes, countable.decode_encode. Qed.

Lemma number_bincode_laws (A : Type) `{Countable A} ok : @BincodeLaws A (number_bincode A) ok.
Proof. intros a _. simpl. eexists; split; [done|]. by rewrite bytes_to_pos_to_bytes, countable.decode_encode. Qed.

#[export] Instance QueryRequest_countable : Countable QueryRequest.
Proof.
  refine (inj_countable' (fun q => match q with QueryOpenProxy => 0 | QueryDescription => 1 | QueryExitPolicy => 2 end)
    (fun n => if n =? 0 then QueryOpenProxy else if n =? 1 then QueryDescription else QueryExitPolicy) _).
  by intros [].
Defined.

#[export] Instance AddressPolicyAction_countable : Countable AddressPolicyAction.
Proof.
  refine (inj_countable' (fun a => match a with Accept => 0 | Reject => 1 | Accept6 => 2 | Reject6 => 3 end)
    (fun n => if n =? 0 then Accept else if n =? 1 then Reject else if n =? 2 then Accept6 else Reject6) _).
  by intros [].
Defined.

#[export] Instance IpPattern_countable : Countable IpPatternT.
Proof.
  refine (inj_countable'
    (fun p => match p with
              | Star => (0, [], 0) | V4Star => (1, [], 0) | V6Star => (2, [], 0)
              | PatternV4 o m => (3, o, m) | PatternV6 o m => (4, o, m)
              end)
    (fun t => let '(n, o, m) := t in
              if n =? 0 then Star else if n =? 1 then V4Star else if n =? 2 then V6Star
              else if n =? 3 then PatternV4 o m else PatternV6 o m) _).
  by intros [].
Defined.

#[export] Instance AddressPolicy_eq_dec : EqDecision AddressPolicy.t.
Proof. solve_decision. Defined.

#[export] Instance AddressPolicy_countable : Countable AddressPolicy.t.
Proof.
  refine (inj_countable'
    (fun p => (fun r : AddressPolicyRule.t =>
       let 'AddressPolicyRule.mk a (AddressPortPattern.mk ip (PortRange.mk lo hi)) := r in (a, ip, lo, hi)) <$> AddressPolicy.rules p)
    (fun l => AddressPolicy.mk ((fun t => let '(a, ip, lo, hi) := t in
       AddressPolicyRule.mk a (AddressPortPattern.mk ip (PortRange.mk lo hi))) <$> l)) _).
  intros [rs]. simpl. f_equal. rewrite <- list_fmap_compose. rewrite <- (list_fmap_id rs) at 2.
  apply list_fmap_ext. by intros _ [? [? []]] _.
Defined.

#[export] Instance QueryResponse_eq_dec : EqDecision QueryResponse.
Proof. solve_decision. Defined.

#[export] Instance QueryResponse_countable : Countable QueryResponse.
Proof.
  refine (inj_countable'
    (fun q => match q with
              | OpenProxy b => (0, b, [], None) | Description s => (1, false, s, None)
              | ExitPolicyResponse b s p => (2, b, s, p) | QueryError s => (3, false, s, None)
              end)
    (fun t => let '(n, b, s, p) := t in
              if n =? 0 then OpenProxy b else if n =? 1 then Description s
              else if n =? 2 then ExitPolicyResponse b s p else QueryError s) _).
  by intros [].
Defined.

#[export] Instance SupportedVersions_eq_dec : EqDecision SupportedVersions.
Proof. solve_decision. Defined.

#[export] Instance SupportedVersions_countable : Countable SupportedVersions.
Proof.
  refine (inj_countable' (fun v => (sv_interface_version v, sv_provider_version v)) (fun t => mkSupportedVersions t.1 t.2) _).
  by intros [].
Defined.

#[export] Instance ErrorResponse_eq_dec : EqDecision ErrorResponse.
Proof. solve_decision. Defined.

#[export] Instance ErrorResponse_countable : Countable ErrorResponse.
Proof. refine (inj_countable' er_message mkErrorResponse _). by intros []. Defined.

#[export] Instance BinaryBuildInformation_eq_dec : EqDecision BinaryBuildInformation.
Proof. solve_decision. Defined.

#[export] Instance BinaryInformation_eq_dec : EqDecision BinaryInformation.
Proof. solve_decision. Defined.

#[export] Instance BinaryInformation_countable : Countable BinaryInformation.
Proof.
  refine (inj_countable'
    (fun i => let 'mkBinaryInformation n (mkBuildInformation a b c d e f g h k) := i in (n, a, b, c, d, e, f, g, h, k))
    (fun t => let '(n, a, b, c, d, e, f, g, h, k) := t in mkBinaryInformation n (mkBuildInformation a b c d e f g h k)) _).
  by intros [? []].
Defined.

(** A request to connect and the data that comes back. *)
Definition sample_key : list byte := replicate 32 x07.

Definition sample_connect : Envelope ControlRequest Socks5Request :=
  mkEnvelope (Versioned x03) (ProviderData (mkSocks5Request (Versioned x03)
    (Connect (mkConnect 42 [x6e; x79; x6d; x3a; x38; x30] (Some (Recipient.mk sample_key sample_key sample_key)))))).

Definition sample_answer : Envelope ControlResponse Socks5Response :=
  mkEnvelope Legacy (ProviderData (mkSocks5Response Legacy (NetworkData (SocketData.new 7 42 true [x01; x02])))).

#[export] Instance sample_query_request : Bincode QueryRequest := number_bincode QueryRequest.
#[export] Instance sample_query_response : Bincode QueryResponse := number_bincode QueryResponse.
#[export] Instance sample_binary_information : Codec BinaryInformation := number_codec BinaryInformation.
#[export] Instance sample_supported_versions : Codec SupportedVersions := number_codec SupportedVersions.
#[export] Instance sample_error_response : Codec ErrorResponse := number_codec ErrorResponse.

#[local] Existing Instances number_codec_laws number_bincode_laws.

Lemma socks_messages_roundtrip_witness :
  provider_request_try_from_bytes (provider_request_into_bytes sample_connect) = Ok sample_connect /\
  provider_response_try_from_bytes (provider_response_into_bytes sample_answer) = Ok sample_answer /\
  forall b p, provider_request_try_from_bytes b <> Panic p /\ provider_response_try_from_bytes b <> Panic p.
Proof.
  destruct (socks_messages_roundtrip sample_connect sample_answer) as ([_ Hq] & [_ Hr] & Hp); [vm_compute; done|vm_compute; done|].
  split; [apply Hq|split; [apply Hr|exact Hp]].
  - unfold provider_request_ok; simpl. split; [done|]. split; [by right|]. vm_compute. done.
  - unfold provider_response_ok; simpl. split; [done|]. split; [|done]. vm_compute. done.
Defined.
