(* ===== verification/OrderedBuffer.v ===== *)
(** * The buffer of proxied connections

    Models [common/socks5/ordered-buffer/src/buffer.rs].  The messages of a
    connection are numbered by their sender and arrive in any order; the
    buffer gives them out in order and without gaps. *)

From S2P Require Import Prelude Bytes.
From Stdlib.Strings Require Import Byte.
#[local] Open Scope Z_scope.

Inductive OrderedMessageError : Type :=
| MessageSequenceTooLarge (current received : Z)
| MessageAlreadyReconstructed (current received : Z)
| AttemptedToOverwriteSequence (received : Z).

Record ReadContiguousData : Type := mkReadData { read_data : list byte; last_sequence : Z }.

Definition MAX_REASONABLE_OFFSET : Z := 1000.

Module OrderedMessageBuffer.

Record t : Type := mk { next_sequence : Z; messages : gmap Z (list byte) }.

Definition new : t := mk 0 ∅.

Definition contains_key (b : t) (sequence : Z) : bool := bool_decide (is_Some (messages b !! sequence)).

Definition write (b : t) (sequence : Z) (data : list byte) : outcome OrderedMessageError t :=
  let? bound := u64_add (next_sequence b) MAX_REASONABLE_OFFSET in
  if bound <? sequence then Err (MessageSequenceTooLarge (next_sequence b) sequence)
  else if contains_key b sequence then Err (AttemptedToOverwriteSequence sequence)
  else if sequence <? next_sequence b then Err (MessageAlreadyReconstructed (next_sequence b) sequence)
  else Ok (mk (next_sequence b) (<[sequence := data]> (messages b))).

Definition can_read_until (b : t) (target : Z) : bool :=
  forallb (contains_key b) (zrange (next_sequence b) (target + 1)).

(** The loop of [read]. *)
Fixpoint read_loop (fuel : nat) (messages : gmap Z (list byte)) (seq : Z) (contiguous_messages : list byte)
    : outcome OrderedMessageError (list byte * Z * gmap Z (list byte)) :=
  match fuel with
  | O => Panic Diverges
  | S fuel =>
      match messages !! seq with
      | Some data =>
          let? next := u64_add seq 1 in
          read_loop fuel (delete seq messages) next (contiguous_messages ++ data)
      | None => Ok (contiguous_messages, seq, messages)
      end
  end.

Definition read (b : t) : outcome OrderedMessageError (option ReadContiguousData * t) :=
  if contains_key b (next_sequence b) then
    let? (data, seq, messages) := read_loop (S (size (messages b))) (messages b) (next_sequence b) [] in
    Ok (Some (mkReadData data (seq - 1)), mk seq messages)
  else Ok (None, b).

End OrderedMessageBuffer.

(** ** The buffer holds what has arrived of a stream *)

Import OrderedMessageBuffer.

Section Stream.
Context (msgs : list (list byte)).

Definition total : Z := len msgs.

(** The first [n] messages of the stream, as bytes. *)
Definition prefix (n : Z) : list byte := concat (take (Z.to_nat n) msgs).

(** The messages from [lo] up to, but not including, [hi]. *)
Definition segment (lo hi : Z) : list byte := concat (take (Z.to_nat (hi - lo)) (drop (Z.to_nat lo) msgs)).

(** The numbers that have arrived. *)
Implicit Types (arrived : gset Z) (b : t).

(** Everything before the next number has arrived and was read, the next one has not arrived, and
    what has arrived after it is in the buffer. *)
Record holds arrived b : Prop := {
  holds_range : 0 <= next_sequence b <= total;
  holds_arrived i : i ∈ arrived -> 0 <= i < total;
  holds_read i : 0 <= i < next_sequence b -> i ∈ arrived;
  holds_next : next_sequence b ∉ arrived;
  holds_messages i : messages b !! i = if bool_decide (i ∈ arrived /\ next_sequence b < i) then msgs !! Z.to_nat i else None
}.

Lemma holds_new : holds ∅ new.
Proof.
  split; simpl; [unfold total; pose proof (len_nonneg msgs); lia|set_solver|lia|set_solver|].
  intros i. rewrite lookup_empty, bool_decide_false; [done|set_solver].
Qed.

(** Between a write and the next read the next number may have arrived. *)
Record holds_unread arrived b : Prop := {
  unread_range : 0 <= next_sequence b <= total;
  unread_arrived i : i ∈ arrived -> 0 <= i < total;
  unread_read i : 0 <= i < next_sequence b -> i ∈ arrived;
  unread_messages i : messages b !! i = if bool_decide (i ∈ arrived /\ next_sequence b <= i) then msgs !! Z.to_nat i else None
}.

Lemma holds_unread_holds arrived b : holds_unread arrived b -> next_sequence b ∉ arrived -> holds arrived b.
Proof.
  intros [U1 U2 U3 U4] Hn. split; try done. intros i. rewrite U4.
  erewrite bool_decide_ext; [reflexivity|]. split; intros [Hi Hle]; (split; [done|]); [|lia].
  destruct (decide (i = next_sequence b)) as [->|]; [done|lia].
Qed.

Lemma contains_key_unread arrived b i :
  holds_unread arrived b -> contains_key b i = true <-> i ∈ arrived /\ next_sequence b <= i.
Proof.
  intros [U1 U2 U3 U4]. unfold contains_key. rewrite bool_decide_eq_true, U4. split.
  - case_bool_decide as Hi; [done|intros [? [=]]].
  - intros Hi. rewrite bool_decide_true by done. apply lookup_lt_is_Some. specialize (U2 i (proj1 Hi)).
    unfold total, len in U2. lia.
Qed.

(** ** Writing *)

Lemma holds_weaken arrived b : holds arrived b -> holds_unread arrived b.
Proof.
  intros [U1 U2 U3 U4 U5]. split; try done. intros i. rewrite U5.
  erewrite bool_decide_ext; [reflexivity|]. split; intros [Hi Hle]; (split; [done|]); [lia|].
  destruct (decide (i = next_sequence b)) as [->|]; [done|lia].
Qed.

Lemma write_new arrived b i data :
  holds arrived b -> total <= u64_max - MAX_REASONABLE_OFFSET -> msgs !! Z.to_nat i = Some data ->
  0 <= i <= next_sequence b + MAX_REASONABLE_OFFSET -> i ∉ arrived ->
  exists b', write b i data = Ok b' /\ holds_unread ({[i]} ∪ arrived) b' /\ next_sequence b' = next_sequence b.
Proof.
  intros Hh Ht Hd Hi Hn. pose proof (contains_key_unread _ _ i (holds_weaken _ _ Hh)) as Hk.
  destruct Hh as [U1 U2 U3 U4 U5]. unfold write.
  assert (u64_add (next_sequence b) MAX_REASONABLE_OFFSET = Ok (E := OrderedMessageError) (next_sequence b + MAX_REASONABLE_OFFSET))
    as -> by (apply u64_add_Ok; lia). cbn [obind].
  destruct (Z.ltb_spec (next_sequence b + MAX_REASONABLE_OFFSET) i); [lia|].
  destruct (contains_key b i); [by destruct (proj1 Hk eq_refl)|].
  assert (next_sequence b <= i) by (destruct (Z_lt_ge_dec i (next_sequence b)); [destruct Hn; apply U3; lia|lia]).
  destruct (Z.ltb_spec i (next_sequence b)); [lia|]. eexists. split; [done|]. split; [|done].
  assert (0 <= i < total) by (apply lookup_lt_Some in Hd; unfold total, len; lia).
  split; simpl; [done|set_solver|set_solver|]. intros j. destruct (decide (j = i)) as [->|Hj].
  - rewrite lookup_insert_eq, bool_decide_true; [done|]. split; [set_solver|done].
  - rewrite lookup_insert_ne, U5 by done. erewrite bool_decide_ext; [reflexivity|].
    split; intros [Hj1 Hj2]; (split; [set_solver|]); [lia|]. apply elem_of_union in Hj1 as [Hj1|Hj1]; [set_solver|].
    destruct (decide (j = next_sequence b)) as [->|]; [done|lia].
Qed.

(** A message that arrives again is refused. *)
Lemma write_again arrived b i data :
  holds arrived b -> total <= u64_max - MAX_REASONABLE_OFFSET -> i ∈ arrived -> exists e, write b i data = Err e.
Proof.
  intros Hh Ht Hi. pose proof (contains_key_unread _ _ i (holds_weaken _ _ Hh)) as Hk.
  destruct Hh as [U1 U2 U3 U4 U5]. unfold write.
  assert (u64_add (next_sequence b) MAX_REASONABLE_OFFSET = Ok (E := OrderedMessageError) (next_sequence b + MAX_REASONABLE_OFFSET))
    as -> by (apply u64_add_Ok; lia). cbn [obind].
  destruct (_ <? i); [eauto|]. destruct (contains_key b i); [eauto|].
  destruct (Z.ltb_spec i (next_sequence b)); [eauto|]. assert (false = true) by (apply Hk; split; [done|lia]). done.
Qed.

(** ** Reading *)

Lemma segment_step lo hi data :
  0 <= lo < hi -> msgs !! Z.to_nat lo = Some data -> segment lo hi = data ++ segment (lo + 1) hi.
Proof.
  intros Hlo Hd. unfold segment. erewrite (drop_S msgs data (Z.to_nat lo)) by done.
  replace (Z.to_nat (hi - lo)) with (S (Z.to_nat (hi - (lo + 1)))) by lia.
  replace (Z.to_nat (lo + 1)) with (S (Z.to_nat lo)) by lia. done.
Qed.

Lemma segment_empty lo : segment lo lo = [].
Proof. unfold segment. by rewrite Z.sub_diag. Qed.

(** The loop gives out the arrived messages up to the first one that is missing. *)
Lemma read_loop_holds fuel arrived m seq acc :
  holds_unread arrived (mk seq m) -> total < u64_max -> (size m < fuel)%nat ->
  exists seq' m', read_loop fuel m seq acc = Ok (acc ++ segment seq seq', seq', m') /\
    seq <= seq' /\ holds arrived (mk seq' m').
Proof.
  revert m seq acc. induction fuel as [|fuel IH]; intros m seq acc Hu Ht Hf; [lia|]. cbn [read_loop].
  pose proof Hu as [U1 U2 U3 U4]. simpl in *. rewrite U4. case_bool_decide as Hs.
  - destruct Hs as [Hs _]. pose proof (U2 _ Hs).
    destruct (lookup_lt_is_Some_2 msgs (Z.to_nat seq)) as [data Hd]; [unfold total, len in *; lia|].
    rewrite Hd. assert (u64_add seq 1 = Ok (E := OrderedMessageError) (seq + 1)) as -> by (apply u64_add_Ok; lia). cbn [obind].
    assert (m !! seq = Some data) as Hm by (rewrite U4, bool_decide_true by (split; [done|lia]); done).
    destruct (IH (delete seq m) (seq + 1) (acc ++ data)) as (seq' & m' & -> & Hle & Hh); [|done| |].
    + split; simpl; [lia|done| |].
      * intros i Hi. destruct (decide (i = seq)) as [->|]; [done|apply U3; lia].
      * intros i. destruct (decide (i = seq)) as [->|Hi].
        -- rewrite lookup_delete_eq, bool_decide_false by lia. done.
        -- rewrite lookup_delete_ne, U4 by done. erewrite bool_decide_ext; [reflexivity|]. split; intros [? ?]; (split; [done|lia]).
    + rewrite map_size_delete_Some by eauto. assert (size m <> 0%nat); [|lia].
      intros ->%map_size_empty_inv. by rewrite lookup_empty in Hm.
    + exists seq', m'. split_and!; [|lia|done]. by rewrite (segment_step seq seq' data), app_assoc by (done || lia).
  - exists seq, m. rewrite segment_empty, app_nil_r. split_and!; [done|lia|]. apply holds_unread_holds; [done|]. simpl.
    intros Hin. apply Hs. split; [done|lia].
Qed.

(** A read gives out the messages up to the first one that is missing, and nothing if that is the next one. *)
Lemma read_holds arrived b :
  holds_unread arrived b -> total < u64_max ->
  exists b', holds arrived b' /\ next_sequence b <= next_sequence b' /\
    read b = Ok (if bool_decide (next_sequence b' = next_sequence b) then None
                 else Some (mkReadData (segment (next_sequence b) (next_sequence b')) (next_sequence b' - 1)), b').
Proof.
  intros Hu Ht. pose proof (contains_key_unread _ _ (next_sequence b) Hu) as Hk. unfold read.
  destruct (contains_key b (next_sequence b)).
  - destruct (proj1 Hk eq_refl) as [Hin _]. destruct b as [seq m]; cbn [next_sequence messages] in *.
    destruct (read_loop_holds (S (size m)) arrived m seq [] Hu Ht ltac:(lia)) as (seq' & m' & -> & Hle & Hh).
    exists (mk seq' m'). simpl. split_and!; [done|done|]. rewrite bool_decide_false; [done|].
    intros ->. by destruct (holds_next _ _ Hh).
  - exists b. split_and!; [|lia|by rewrite bool_decide_true]. apply holds_unread_holds; [done|].
    intros Hin. assert (false = true) by (apply Hk; split; [done|lia]). done.
Qed.

End Stream.
