(* ===== verification/SocksConnections.v ===== *)
(** * Proxied connections

    Models [common/socks5/proxy-helpers/src]: the side that reads a socket and
    numbers the messages it sends into the mixnet ([ordered_sender.rs],
    [proxy_runner/inbound.rs]), and the controller that receives the messages
    of all connections, in any order, and hands each connection its data
    ([connection_controller.rs]). *)

From Stdlib.Strings Require Import Byte.
From S2P Require Import Prelude Bytes OrderedBuffer SocksMessages.
#[local] Open Scope Z_scope.

(** Nothing here returns errors: the handlers log them. *)
Inductive Never : Type := .

(** ** Sending, [ordered_sender.rs] *)

Module OrderedMessageSender.

Record t : Type := mk { connection_id : Z; next_message_seq : Z }.

Definition new (connection_id : Z) : t := mk connection_id 0.

Definition sequence (s : t) : outcome Never (Z * t) :=
  let? next := u64_add (next_message_seq s) 1 in
  Ok (next_message_seq s, mk (connection_id s) next).

Definition construct_message (s : t) (data : list byte) (local_socket_closed : bool) : outcome Never (SocketData.t * t) :=
  let? (seq, s) := sequence s in
  Ok (SocketData.new seq (connection_id s) local_socket_closed data, s).

Definition send_empty_close (s : t) : outcome Never (SocketData.t * t) := construct_message s [] true.

Definition send_empty_keepalive (s : t) : outcome Never (SocketData.t * t) := construct_message s [] false.

(** What a read of the socket gives: some bytes, an error or the end. *)
Inductive SocketRead : Type := ReadBytes (data : list byte) | ReadError | ReadEnd.

Record ProcessedData : Type := mkProcessed { processed_data : list byte; is_done : bool }.

Definition process_data (read_data : SocketRead) : ProcessedData :=
  match read_data with
  | ReadBytes data => mkProcessed data false
  | ReadError => mkProcessed [] true
  | ReadEnd => mkProcessed [] true
  end.

Definition send_data (s : t) (data : ProcessedData) : outcome Never (SocketData.t * t) :=
  construct_message s (processed_data data) (is_done data).

End OrderedMessageSender.

(** ** The inbound half of a proxy, [proxy_runner/inbound.rs] *)

Module Inbound.
Import OrderedMessageSender.

(** The branches of the loop's [select!]. *)
Inductive Event : Type :=
| OutboundClosed
| Shutdown
| LaneEmptied
| KeepaliveTick
| SocketReady (read : SocketRead).

Record State : Type := mkState {
  sender : OrderedMessageSender.t;
  we_are_closed : bool;
  exited : bool;
  sent : list SocketData.t
}.

Definition init (connection_id : Z) : State := mkState (OrderedMessageSender.new connection_id) false false [].

(** One turn of the loop. The socket is read until it is closed, and the wait
    for the lane starts then: before and after, those branches are disabled. *)
Definition turn (s : State) (e : Event) : outcome Never State :=
  if exited s then Ok s
  else
    match e with
    | OutboundClosed =>
        let? (m, sd) := send_empty_close (sender s) in
        Ok (mkState sd (we_are_closed s) true (sent s ++ [m]))
    | Shutdown => Ok (mkState (sender s) (we_are_closed s) true (sent s))
    | LaneEmptied => if we_are_closed s then Ok (mkState (sender s) true true (sent s)) else Ok s
    | KeepaliveTick =>
        let? (m, sd) := send_empty_keepalive (sender s) in
        Ok (mkState sd (we_are_closed s) false (sent s ++ [m]))
    | SocketReady read =>
        if we_are_closed s then Ok s
        else
          let processed := process_data read in
          let? (m, sd) := send_data (sender s) processed in
          Ok (mkState sd (is_done processed) false (sent s ++ [m]))
    end.

Fixpoint run_inbound (s : State) (events : list Event) : outcome Never State :=
  match events with
  | [] => Ok s
  | e :: events => let? s := turn s e in run_inbound s events
  end.

End Inbound.

(** ** Receiving, [connection_controller.rs] *)

Record ConnectionMessage : Type := mkConnectionMessage { payload : list byte; socket_closed : bool }.

(** [ConnectionSender]: a channel, named by a number. *)
Inductive ControllerCommand : Type :=
| Insert (connection_id : Z) (connection_sender : Z)
| Remove (connection_id : Z)
| SendCommand (data : SocketData.t).

(** What leaves the controller: messages on the channels of connections, and
    announcements of closed connections. *)
Inductive Output : Type :=
| ToConnection (connection_sender : Z) (message : ConnectionMessage)
| CloseCommand (connection_id : Z).

Module ActiveConnection.

Record t : Type := mk {
  is_closed : bool;
  closed_at_index : option Z;
  connection_sender : option Z;
  ordered_buffer : OrderedMessageBuffer.t
}.

(** An error of the buffer is logged, and the message dropped. *)
Definition write_to_buf (a : t) (seq : Z) (payload : list byte) (closed : bool) : outcome Never t :=
  let closed_at := if closed then Some seq else closed_at_index a in
  match OrderedMessageBuffer.write (ordered_buffer a) seq payload with
  | Ok b => Ok (mk (is_closed a) closed_at (connection_sender a) b)
  | Err _ => Ok (mk (is_closed a) closed_at (connection_sender a) (ordered_buffer a))
  | Panic p => Panic p
  end.

Definition read_from_buf (a : t) : outcome Never (option ReadContiguousData * t) :=
  match OrderedMessageBuffer.read (ordered_buffer a) with
  | Ok (d, b) => Ok (d, mk (is_closed a) (closed_at_index a) (connection_sender a) b)
  | Err _ => Panic Diverges
  | Panic p => Panic p
  end.

Definition set_closed (a : t) : t := mk true (closed_at_index a) (connection_sender a) (ordered_buffer a).

End ActiveConnection.

Module Controller.
Import ActiveConnection.

Record t : Type := mk {
  active_connections : gmap Z ActiveConnection.t;
  recently_closed : gset Z;
  pending_messages : gmap Z (list SocketData.t)
}.

Definition new : t := mk ∅ ∅ ∅.

(** The data that was read is given to the connection, unless it is empty and
    does not close it. *)
Definition hand_over (a : ActiveConnection.t) (data : ReadContiguousData) : outcome Never (ActiveConnection.t * list Output) :=
  let a :=
    match closed_at_index a with
    | Some closed_at_index => if closed_at_index <=? last_sequence data then set_closed a else a
    | None => a
    end in
  if bool_decide (read_data data = []) && negb (is_closed a) then Ok (a, [])
  else
    match connection_sender a with
    | Some sender => Ok (a, [ToConnection sender (mkConnectionMessage (read_data data) (is_closed a))])
    | None => Panic UnwrapNone
    end.

Definition send_to_connection (c : t) (message : SocketData.t) : outcome Never (t * list Output) :=
  let hdr := SocketData.header message in
  let id := SocketDataHeader.connection_id hdr in
  match active_connections c !! id with
  | Some a =>
      let? a := write_to_buf a (SocketDataHeader.seq hdr) (SocketData.data message) (SocketDataHeader.local_socket_closed hdr) in
      let? (read, a) := read_from_buf a in
      let? (a, out) := match read with Some data => hand_over a data | None => Ok (a, []) end in
      Ok (mk (<[id := a]> (active_connections c)) (recently_closed c) (pending_messages c), out)
  | None =>
      if bool_decide (id ∈ recently_closed c) then Ok (c, [])
      else
        let pending := default [] (pending_messages c !! id) in
        Ok (mk (active_connections c) (recently_closed c) (<[id := pending ++ [message]]> (pending_messages c)), [])
  end.

Fixpoint send_all (c : t) (messages : list SocketData.t) : outcome Never (t * list Output) :=
  match messages with
  | [] => Ok (c, [])
  | m :: messages =>
      let? (c, out) := send_to_connection c m in
      let? (c, rest) := send_all c messages in
      Ok (c, out ++ rest)
  end.

(** A second [Insert] replaces the connection; the first one gets the messages that came before it. *)
Definition insert_connection (c : t) (conn_id connection_sender : Z) : outcome Never (t * list Output) :=
  let a := ActiveConnection.mk false None (Some connection_sender) OrderedMessageBuffer.new in
  let active := <[conn_id := a]> (active_connections c) in
  match active_connections c !! conn_id with
  | Some _ => Ok (mk active (recently_closed c) (pending_messages c), [])
  | None =>
      match pending_messages c !! conn_id with
      | Some pending => send_all (mk active (recently_closed c) (delete conn_id (pending_messages c))) pending
      | None => Ok (mk active (recently_closed c) (pending_messages c), [])
      end
  end.

Definition remove_connection (c : t) (conn_id : Z) : t * list Output :=
  (mk (delete conn_id (active_connections c)) ({[conn_id]} ∪ recently_closed c) (pending_messages c), [CloseCommand conn_id]).

Definition handle (c : t) (command : ControllerCommand) : outcome Never (t * list Output) :=
  match command with
  | SendCommand data => send_to_connection c data
  | Insert connection_id connection_sender => insert_connection c connection_id connection_sender
  | Remove connection_id => Ok (remove_connection c connection_id)
  end.

Fixpoint run (c : t) (commands : list ControllerCommand) : outcome Never (t * list Output) :=
  match commands with
  | [] => Ok (c, [])
  | command :: commands =>
      let? (c, out) := handle c command in
      let? (c, rest) := run c commands in
      Ok (c, out ++ rest)
  end.

End Controller.

(** ** The outbound half of a proxy, [proxy_runner/outbound.rs] *)

Module Outbound.

(** The branches of the loop's [select!]; a message comes with the outcome of
    writing it to the socket. *)
Inductive Event : Type :=
| Received (message : option ConnectionMessage) (write_ok : bool)
| MixTimeout
| InboundClosed
| Shutdown.

(** The bytes on the socket afterwards, and whether the loop ends. *)
Definition deal_with_message (written : list byte) (m : ConnectionMessage) (write_ok : bool) : list byte * bool :=
  if write_ok then (written ++ payload m, socket_closed m) else (written, true).

Fixpoint run_outbound (written : list byte) (events : list Event) : list byte :=
  match events with
  | [] => written
  | Received (Some m) write_ok :: events =>
      let '(written, stop) := deal_with_message written m write_ok in
      if stop then written else run_outbound written events
  | Received None _ :: _ | MixTimeout :: _ | InboundClosed :: _ | Shutdown :: _ => written
  end.

End Outbound.
