(* ===== verification/SocksDelivery.v ===== *)
(** * Proxied connections deliver their data

    The bytes read from a socket on one side are written to the socket on the
    other side, whatever order the mixnet delivers the messages in. *)

From Stdlib.Strings Require Import Byte.
From S2P Require Import Prelude Bytes OrderedBuffer SocksMessages SocksConnections.
#[local] Open Scope Z_scope.

Lemma union_swap (x : Z) (A B : gset Z) : {[x]} ∪ A ∪ B = A ∪ ({[x]} ∪ B).
Proof. set_solver. Qed.

(** ** The sender numbers its messages *)

Definition data_of (msgs : list SocketData.t) : list (list byte) := SocketData.data <$> msgs.
Definition closing (m : SocketData.t) : bool := SocketDataHeader.local_socket_closed (SocketData.header m).
Definition seq_of (m : SocketData.t) : Z := SocketDataHeader.seq (SocketData.header m).
Definition id_of (m : SocketData.t) : Z := SocketDataHeader.connection_id (SocketData.header m).

(** The messages of a stream are numbered from 0, belong to the connection, and
    carry no data once one of them closed it. *)
Record stream (id : Z) (msgs : list SocketData.t) : Prop := {
  stream_numbered k m : msgs !! k = Some m -> seq_of m = Z.of_nat k /\ id_of m = id;
  stream_closed k k' m m' : msgs !! k = Some m -> closing m = true -> (k < k')%nat -> msgs !! k' = Some m' -> SocketData.data m' = []
}.

Module SenderFacts.
Import OrderedMessageSender Inbound.

(** The bytes that were read from the socket: until the end, an error or the end of the loop. *)
Fixpoint bytes_read (closed : bool) (events : list Event) : list byte :=
  match events with
  | [] => []
  | (OutboundClosed | Shutdown) :: _ => []
  | LaneEmptied :: events => if closed then [] else bytes_read closed events
  | KeepaliveTick :: events => bytes_read closed events
  | SocketReady (ReadBytes data) :: events => if closed then bytes_read closed events else data ++ bytes_read closed events
  | SocketReady (ReadError | ReadEnd) :: events => bytes_read true events
  end.

Record sending (id : Z) (s : State) : Prop := {
  sending_id : connection_id (sender s) = id;
  sending_next : next_message_seq (sender s) = len (sent s);
  sending_stream : stream id (sent s);
  sending_open : exited s = false -> we_are_closed s = false -> Forall (fun m => closing m = false) (sent s)
}.

Lemma stream_snoc id msgs data closed :
  stream id msgs -> (data = [] \/ Forall (fun m => closing m = false) msgs) ->
  stream id (msgs ++ [SocketData.new (len msgs) id closed data]).
Proof.
  intros [Hn Hc] Hd. split.
  - intros k m [Hk|[Hk Hm]]%lookup_app_Some; [by apply Hn|]. apply list_lookup_singleton_Some in Hm as [Hk' <-].
    unfold seq_of, id_of, len; simpl. split; [lia|done].
  - intros k k' m m' Hk Hcl Hlt [Hk'|[Hk' Hm']]%lookup_app_Some.
    + apply lookup_app_Some in Hk as [Hk|[Hk _]]; [exact (Hc k k' m m' Hk Hcl Hlt Hk')|]. apply lookup_lt_Some in Hk'. lia.
    + apply list_lookup_singleton_Some in Hm' as [? <-]. simpl. destruct Hd as [->|Hd]; [done|].
      apply lookup_app_Some in Hk as [Hk|[Hk Hm]]; [|apply list_lookup_singleton_Some in Hm; lia].
      rewrite Forall_forall in Hd. rewrite Hd in Hcl; [done|]. by eapply list_elem_of_lookup_2.
Qed.

Lemma construct_Ok id s data closed :
  connection_id s = id -> next_message_seq s + 1 <= u64_max ->
  construct_message s data closed = Ok (SocketData.new (next_message_seq s) id closed data, mk id (next_message_seq s + 1)).
Proof.
  intros <- Hn. unfold construct_message, sequence.
  assert (u64_add (next_message_seq s) 1 = Ok (E := Never) (next_message_seq s + 1)) as -> by (by apply u64_add_Ok). done.
Qed.

Lemma sending_send id s data closed ex cl :
  sending id s -> exited s = false -> (data = [] \/ we_are_closed s = false) ->
  (closed = true -> ex = true \/ cl = true) -> (cl = false -> we_are_closed s = false) ->
  sending id (mkState (mk id (next_message_seq (sender s) + 1)) cl ex (sent s ++ [SocketData.new (next_message_seq (sender s)) id closed data])).
Proof.
  intros [H1 H2 H3 H4] He Hd Hc Hcl. split; simpl; [done|rewrite len_app, H2; done| |].
  - rewrite H2. apply stream_snoc; [done|]. destruct Hd; [by left|right; by apply H4].
  - intros -> ->. apply Forall_app; split; [by apply H4, Hcl|]. repeat constructor. unfold closing; simpl.
    destruct closed; [destruct (Hc eq_refl); done|done].
Qed.

Lemma turn_sending id s e :
  sending id s -> len (sent s) + 1 <= u64_max ->
  exists s', turn s e = Ok s' /\ sending id s' /\ (len (sent s') <= len (sent s) + 1) /\
    forall events, concat (data_of (sent s')) ++ (if exited s' then [] else bytes_read (we_are_closed s') events) =
                   concat (data_of (sent s)) ++ (if exited s then [] else bytes_read (we_are_closed s) (e :: events)).
Proof.
  intros Hs Hl. pose proof Hs as [H1 H2 H3 H4]. unfold turn. destruct (exited s) eqn:He.
  { exists s. rewrite He. split_and!; [done|done|lia|done]. }
  assert (forall data closed, data_of (sent s ++ [SocketData.new (next_message_seq (sender s)) id closed data]) = data_of (sent s) ++ [data]) as Hdata
    by (intros; unfold data_of; rewrite fmap_app; done).
  destruct e as [| | | |read].
  - unfold send_empty_close. rewrite (construct_Ok id) by (done || lia). cbn [obind]. eexists; split_and!; [done| | |].
    + apply sending_send; try done; by left.
    + simpl. rewrite len_app. done.
    + intros events. simpl. rewrite Hdata, concat_app. simpl. rewrite !app_nil_r. done.
  - eexists; split_and!; [done| |simpl; lia|done]. split; done.
  - destruct (we_are_closed s) eqn:Ew; eexists; split_and!; [done| |simpl; lia|done|done|done|lia|].
    + split; done.
    + intros events. rewrite He, Ew. done.
  - unfold send_empty_keepalive. rewrite (construct_Ok id) by (done || lia). cbn [obind]. eexists; split_and!; [done| | |].
    + apply sending_send; try done; by left.
    + simpl. rewrite len_app. done.
    + intros events. simpl. rewrite Hdata, concat_app. simpl. rewrite !app_nil_r. done.
  - destruct (we_are_closed s) eqn:Ew.
    + exists s. rewrite He, Ew. split_and!; [done|done|lia|]. by intros events; destruct read.
    + unfold send_data. rewrite (construct_Ok id) by (done || lia). cbn [obind]. eexists; split_and!; [done| | |].
      * apply sending_send; try done; [by right|]. intros ->. by right.
      * simpl. rewrite len_app. done.
      * intros events. simpl. rewrite Hdata, concat_app. destruct read; simpl; by rewrite ?app_nil_r, <- ?app_assoc.
Qed.

(** The messages of the inbound half are a stream of the bytes that were read. *)
Lemma run_inbound_stream id events :
  len events <= u64_max ->
  exists s, run_inbound (init id) events = Ok s /\ stream id (sent s) /\ concat (data_of (sent s)) = bytes_read false events /\
    len (sent s) <= len events.
Proof.
  assert (forall s, sending id s -> len (sent s) + len events <= u64_max ->
    exists s', run_inbound s events = Ok s' /\ sending id s' /\ len (sent s') <= len (sent s) + len events /\
      concat (data_of (sent s')) = concat (data_of (sent s)) ++ (if exited s then [] else bytes_read (we_are_closed s) events)) as Hrun.
  { induction events as [|e events IH]; intros s Hs Hl.
    - exists s. split_and!; [done|done|rewrite len_nil; lia|]. destruct (exited s); by rewrite app_nil_r.
    - rewrite len_cons in Hl |- *. pose proof (len_nonneg events). cbn [run_inbound].
      destruct (turn_sending id s e Hs) as (s' & -> & Hs' & Hl' & Hd); [lia|]. cbn [obind].
      destruct (IH s' Hs') as (s'' & -> & Hs'' & Hl'' & Hd''); [lia|].
      exists s''. split_and!; [done|done|lia|]. by rewrite Hd'', Hd. }
  intros Hl. destruct (Hrun (init id)) as (s & E & Hs & Hl' & Hd).
  - split; simpl; [done|done| |done]. split; intros *; by rewrite lookup_nil.
  - simpl. rewrite len_nil; lia.
  - exists s. split_and!; [done|apply Hs|done|]. simpl in Hl'. rewrite len_nil in Hl'. lia.
Qed.

End SenderFacts.

(** ** Buffers do not overflow before they have seen that many messages *)

Module BufferFacts.
Import OrderedMessageBuffer.

(** The messages a buffer has given out and still holds. *)
Definition seen (b : t) : Z := next_sequence b + Z.of_nat (size (messages b)).

Lemma write_total b i data :
  0 <= next_sequence b -> seen b <= u64_max - MAX_REASONABLE_OFFSET ->
  (exists e, write b i data = Err e) \/
  (exists b', write b i data = Ok b' /\ next_sequence b' = next_sequence b /\ seen b' = seen b + 1).
Proof.
  intros Hn Hb. unfold write, seen in *.
  assert (u64_add (next_sequence b) MAX_REASONABLE_OFFSET = Ok (E := OrderedMessageError) (next_sequence b + MAX_REASONABLE_OFFSET))
    as -> by (apply u64_add_Ok; lia). cbn [obind]. destruct (_ <? i); [eauto|].
  unfold contains_key. case_bool_decide as Hk; [eauto|]. destruct (i <? _); [eauto|]. right. eexists; split_and!; [done|done|].
  simpl. rewrite map_size_insert_None by (by apply eq_None_not_Some). lia.
Qed.

Lemma read_loop_total fuel m seq acc :
  (size m < fuel)%nat -> seq + Z.of_nat (size m) <= u64_max ->
  exists data seq' m', read_loop fuel m seq acc = Ok (data, seq', m') /\ seq <= seq' /\ seq' + Z.of_nat (size m') = seq + Z.of_nat (size m).
Proof.
  revert m seq acc; induction fuel as [|fuel IH]; intros m seq acc Hf Hb; [lia|]. cbn [read_loop].
  destruct (m !! seq) as [data|] eqn:Hm; [|eexists _, _, _; split_and!; [done|lia|done]].
  assert (size (delete seq m) = Nat.pred (size m)) as Hd by (apply map_size_delete_Some; eauto).
  assert (size m <> 0%nat) by (intros ->%map_size_empty_inv; by rewrite lookup_empty in Hm).
  assert (u64_add seq 1 = Ok (E := OrderedMessageError) (seq + 1)) as -> by (apply u64_add_Ok; lia). cbn [obind].
  destruct (IH (delete seq m) (seq + 1) (acc ++ data)) as (d & seq' & m' & -> & Hle & He); [lia|lia|].
  eexists _, _, _. split_and!; [done|lia|lia].
Qed.

Lemma read_total b :
  0 <= next_sequence b -> seen b <= u64_max ->
  exists d b', read b = Ok (d, b') /\ 0 <= next_sequence b' /\ seen b' = seen b.
Proof.
  intros Hn Hb. unfold read, seen in *. destruct (contains_key b (next_sequence b)); [|by eexists _, _].
  destruct (read_loop_total (S (size (messages b))) (messages b) (next_sequence b) []) as (data & seq' & m' & -> & Hle & He); [lia|lia|].
  eexists _, _. split; [done|]. simpl. lia.
Qed.

End BufferFacts.

(** ** The controller keeps connections apart *)

Module ControllerFacts.
Import ActiveConnection Controller BufferFacts.

(** A connection has seen at most [n] messages and has none waiting; one that is
    not there yet has at most [n] waiting. *)
Definition within (n : Z -> Z) (c : Controller.t) : Prop :=
  forall id, match active_connections c !! id with
             | Some a => pending_messages c !! id = None /\ 0 <= OrderedMessageBuffer.next_sequence (ordered_buffer a) /\
                         seen (ordered_buffer a) <= n id /\ is_Some (connection_sender a)
             | None => len (default [] (pending_messages c !! id)) <= n id /\
                       Forall (fun m => id_of m = id) (default [] (pending_messages c !! id))
             end.

Lemma within_mono n m c : within n c -> (forall id, n id <= m id) -> within m c.
Proof. intros Hw Hle id. specialize (Hw id). specialize (Hle id). destruct (active_connections c !! id); intuition lia. Qed.

Definition count_one (n : Z -> Z) (id : Z) : Z -> Z := fun i => if bool_decide (i = id) then n i + 1 else n i.

Lemma count_one_same n id : count_one n id id = n id + 1.
Proof. unfold count_one. by rewrite bool_decide_true. Qed.

Lemma count_one_other n id i : i <> id -> count_one n id i = n i.
Proof. intros. unfold count_one. by rewrite bool_decide_false. Qed.

Lemma count_one_le n id i : n i <= count_one n id i.
Proof. unfold count_one. case_bool_decide; lia. Qed.

Definition small (n : Z) : Prop := n <= u64_max - MAX_REASONABLE_OFFSET.

Lemma write_read_total a i data closed :
  0 <= OrderedMessageBuffer.next_sequence (ordered_buffer a) -> small (seen (ordered_buffer a)) -> is_Some (connection_sender a) ->
  exists a' read a'' out, write_to_buf a i data closed = Ok a' /\ read_from_buf a' = Ok (read, a'') /\
    match read with Some data => hand_over a'' data | None => Ok (a'', []) end = Ok out /\
    0 <= OrderedMessageBuffer.next_sequence (ordered_buffer out.1) /\
    seen (ordered_buffer out.1) <= seen (ordered_buffer a) + 1 /\ connection_sender out.1 = connection_sender a /\
    Forall (fun o => exists m, o = ToConnection (default 0 (connection_sender a)) m) out.2.
Proof.
  intros Hn Hs [ch Hch].
  assert (exists a', write_to_buf a i data closed = Ok a' /\ 0 <= OrderedMessageBuffer.next_sequence (ordered_buffer a') /\
    seen (ordered_buffer a') <= seen (ordered_buffer a) + 1 /\ connection_sender a' = connection_sender a) as (a' & Ew & Hn' & Hs' & Hc').
  { unfold write_to_buf. destruct (write_total (ordered_buffer a) i data Hn Hs) as [[e ->]|(b' & -> & Hn' & Hs')];
      eexists; (split; [done|]); simpl; split_and!; done || lia. }
  destruct (read_total (ordered_buffer a') Hn') as (d & b' & Er & Hn'' & Hs''); [unfold small, MAX_REASONABLE_OFFSET in *; lia|].
  set (a'' := ActiveConnection.mk (is_closed a') (closed_at_index a') (connection_sender a') b').
  assert (exists out, match d with Some data => hand_over a'' data | None => Ok (a'', []) end = Ok out /\ ordered_buffer out.1 = b' /\
    connection_sender out.1 = connection_sender a /\ Forall (fun o => exists m, o = ToConnection ch m) out.2) as (out & Eo & Hb & Hc & Ho).
  { destruct d as [rd|]; [|exists (a'', []); split_and!; done].
    unfold hand_over. cbn [closed_at_index a''].
    set (a3 := match closed_at_index a' with Some k => if k <=? last_sequence rd then set_closed a'' else a'' | None => a'' end).
    assert (connection_sender a3 = Some ch /\ ordered_buffer a3 = b') as [H1 H2]
      by (subst a3; repeat case_match; simpl; rewrite Hc', Hch; done).
    destruct (_ && _); [exists (a3, []); rewrite Hch; split_and!; done|]. rewrite H1. eexists; split_and!; [done|done|simpl; congruence|].
    repeat constructor; eauto. }
  exists a', d, a'', out. unfold read_from_buf. rewrite Er, Hb, Hch. split_and!; try done; [lia|congruence].
Qed.

(** What a command for the connection [id] may change. *)
Definition only (id : Z) (c c' : Controller.t) : Prop :=
  forall id', id' <> id -> active_connections c' !! id' = active_connections c !! id' /\
                           pending_messages c' !! id' = pending_messages c !! id' /\
                           (id' ∈ recently_closed c' <-> id' ∈ recently_closed c).

Lemma only_trans id c c' c'' : only id c c' -> only id c' c'' -> only id c c''.
Proof. intros H1 H2 id' Hne. destruct (H2 id' Hne) as (-> & -> & E), (H1 id' Hne) as (-> & -> & <-). done. Qed.

(** The channel of a connection. *)
Definition channel (c : Controller.t) (id : Z) : option Z :=
  match active_connections c !! id with Some a => connection_sender a | None => None end.

Definition on_channel (ch : option Z) (o : Output) : Prop :=
  match o with ToConnection ch' _ => ch = Some ch' | CloseCommand _ => True end.

(** A message never aborts the controller, changes its own connection only,
    and makes output only on that connection's channel. *)
Lemma send_total n c m :
  within n c -> small (n (id_of m)) ->
  exists c' out, send_to_connection c m = Ok (c', out) /\ within (count_one n (id_of m)) c' /\ only (id_of m) c c' /\
    channel c' (id_of m) = channel c (id_of m) /\ Forall (on_channel (channel c (id_of m))) out /\
    (is_Some (active_connections c !! id_of m) -> is_Some (active_connections c' !! id_of m)).
Proof.
  intros Hw Hn. pose proof (Hw (id_of m)) as Hid. unfold send_to_connection, channel. fold (id_of m).
  assert (forall c', only (id_of m) c c' -> forall id, id <> id_of m ->
    match active_connections c' !! id with
    | Some a => pending_messages c' !! id = None /\ 0 <= OrderedMessageBuffer.next_sequence (ordered_buffer a) /\
                seen (ordered_buffer a) <= count_one n (id_of m) id /\ is_Some (connection_sender a)
    | None => len (default [] (pending_messages c' !! id)) <= count_one n (id_of m) id /\
              Forall (fun m => id_of m = id) (default [] (pending_messages c' !! id))
    end) as Hothers.
  { intros c' Ho id Hne. destruct (Ho id Hne) as (-> & -> & _). rewrite count_one_other by done. apply Hw. }
  destruct (active_connections c !! id_of m) as [a|] eqn:Ha.
  - destruct Hid as (Hp & Hnext & Hseen & Hch).
    destruct (write_read_total a (seq_of m) (SocketData.data m) (closing m) Hnext) as (a' & read & a'' & out & Ew & Er & Eo & Hn' & Hs' & Hc & Ho);
      [unfold small in *; lia|done|].
    unfold closing, seq_of in Ew. rewrite Ew. cbn [obind]. rewrite Er. cbn [obind]. rewrite Eo. destruct out as [a3 out]; cbn [obind fst snd] in *.
    set (c' := Controller.mk (<[id_of m := a3]> (active_connections c)) (recently_closed c) (pending_messages c)).
    assert (only (id_of m) c c') as Honly by (intros id Hne; simpl; rewrite lookup_insert_ne by done; done).
    exists c', out. subst c'. simpl. rewrite lookup_insert_eq. split_and!; [done| |done|done| |done].
    + intros id. destruct (decide (id = id_of m)) as [->|Hne]; [|by apply Hothers].
      simpl. rewrite lookup_insert_eq, count_one_same. split_and!; [done|done|lia|by rewrite Hc].
    + eapply Forall_impl; [exact Ho|]. intros o [m' ->]. destruct Hch as [ch ->]. done.
  - destruct Hid as [Hp Hf]. case_bool_decide as Hrc.
    + exists c, []. rewrite Ha. split_and!; [done| |done|done|done|done]. apply within_mono with n; [done|apply count_one_le].
    + set (c' := Controller.mk (active_connections c) (recently_closed c) (<[id_of m := default [] (pending_messages c !! id_of m) ++ [m]]> (pending_messages c))).
      assert (only (id_of m) c c') as Honly by (intros id Hne; simpl; rewrite lookup_insert_ne by done; done).
      exists c', []. subst c'. simpl. rewrite Ha. split_and!; [done| |done|done|done|done].
      intros id. destruct (decide (id = id_of m)) as [->|Hne]; [|by apply Hothers].
      simpl. rewrite Ha, lookup_insert_eq, count_one_same. simpl. rewrite len_app. change (len [m]) with 1.
      split; [lia|]. apply Forall_app; split; [done|]. by repeat constructor.
Qed.

(** The messages that waited for a connection. *)
Lemma send_all_total msgs : forall n c id,
  within n c -> Forall (fun m => id_of m = id) msgs -> small (n id + len msgs) -> is_Some (active_connections c !! id) ->
  exists c' out, send_all c msgs = Ok (c', out) /\
    within (fun i => if bool_decide (i = id) then n i + len msgs else n i) c' /\ only id c c' /\
    channel c' id = channel c id /\ Forall (on_channel (channel c id)) out.
Proof.
  induction msgs as [|m msgs IH]; intros n c id Hw Hms Hs Ha.
  - exists c, []. split_and!; try done. apply within_mono with n; [done|]. intros i. rewrite len_nil. case_bool_decide; lia.
  - apply Forall_cons in Hms as [<- Hms]. rewrite len_cons in Hs. pose proof (len_nonneg msgs). cbn [send_all].
    destruct (send_total n c m Hw) as (c1 & o1 & -> & Hw1 & Ho1 & Hc1 & Hf1 & Ha1); [unfold small in *; lia|]. cbn [obind].
    destruct (IH (count_one n (id_of m)) c1 (id_of m) Hw1 Hms) as (c2 & o2 & -> & Hw2 & Ho2 & Hc2 & Hf2);
      [rewrite count_one_same; unfold small in *; lia|by apply Ha1|]. cbn [obind].
    exists c2, (o1 ++ o2). split_and!; [done| |by eapply only_trans|congruence|].
    + eapply within_mono; [exact Hw2|]. intros i. simpl. unfold count_one. rewrite len_cons. case_bool_decide; lia.
    + apply Forall_app; split; [done|]. by rewrite <- Hc1.
Qed.

Definition command_id (cmd : ControllerCommand) : Z :=
  match cmd with Insert id _ | Remove id => id | SendCommand m => id_of m end.

(** No command aborts the controller, and a command changes its own connection only. *)
Lemma handle_total n c cmd :
  within n c -> (forall id, 0 <= n id /\ small (n id)) ->
  exists c' out, handle c cmd = Ok (c', out) /\ within (count_one n (command_id cmd)) c' /\ only (command_id cmd) c c' /\
    channel c' (command_id cmd) =
      match cmd with Insert _ ch => Some ch | Remove _ => None | SendCommand m => channel c (id_of m) end /\
    Forall (on_channel (channel c' (command_id cmd))) out.
Proof.
  intros Hw Hn. destruct cmd as [id ch|id|m]; simpl.
  - pose proof (Hw id) as Hid. pose proof (Hn id) as [Hn0 Hns]. unfold insert_connection.
    set (a := ActiveConnection.mk false None (Some ch) OrderedMessageBuffer.new).
    assert (0 <= OrderedMessageBuffer.next_sequence (ordered_buffer a) /\ seen (ordered_buffer a) = 0) as [Ha1 Ha2] by done.
    destruct (active_connections c !! id) as [a0|] eqn:E.
    + destruct Hid as (Hp & _). eexists _, _. split; [done|]. split_and!; [| |unfold channel; simpl; by rewrite lookup_insert_eq|done].
      * intros i. simpl. destruct (decide (i = id)) as [->|Hne].
        -- rewrite lookup_insert_eq, count_one_same. split_and!; [done|done|lia|done].
        -- rewrite lookup_insert_ne, count_one_other by done. apply Hw.
      * intros i Hne. simpl. rewrite lookup_insert_ne by done. done.
    + set (c1 := Controller.mk (<[id := a]> (active_connections c)) (recently_closed c) (delete id (pending_messages c))).
      assert (within (fun i => if bool_decide (i = id) then 0 else n i) c1) as Hw1.
      { intros i. simpl. destruct (decide (i = id)) as [->|Hne].
        - rewrite lookup_insert_eq, lookup_delete_eq, bool_decide_true by done. split_and!; [done|done|lia|done].
        - rewrite lookup_insert_ne, lookup_delete_ne, bool_decide_false by done. apply Hw. }
      assert (only id c c1) as Ho1 by (intros i Hne; simpl; rewrite lookup_insert_ne, lookup_delete_ne by done; done).
      destruct (pending_messages c !! id) as [pending|] eqn:Ep; simpl in Hid.
      * destruct Hid as [Hl Hf]. pose proof (len_nonneg pending).
        destruct (send_all_total pending _ c1 id Hw1 Hf) as (c2 & out & -> & Hw2 & Ho2 & Hc2 & Hf2);
          [rewrite bool_decide_true by done; unfold small in *; lia|subst c1; simpl; rewrite lookup_insert_eq; eauto|].
        exists c2, out. rewrite Hc2. split_and!; [done| |by eapply only_trans|unfold channel; simpl; by rewrite lookup_insert_eq|done].
        eapply within_mono; [exact Hw2|]. intros i. simpl. unfold count_one. case_bool_decide as Hi; [subst i; lia|lia].
      * assert (delete id (pending_messages c) = pending_messages c) as Ed by (by apply delete_id).
        subst c1. rewrite Ed in *. eexists _, _. split; [done|]. split_and!; [|done|unfold channel; simpl; by rewrite lookup_insert_eq|done].
        eapply within_mono; [exact Hw1|]. intros i. simpl. unfold count_one. case_bool_decide as Hi; [subst i; lia|lia].
  - pose proof (Hw id) as Hid. pose proof (Hn id) as [Hn0 _]. eexists _, _. split; [done|]. split_and!.
    + intros i. simpl. destruct (decide (i = id)) as [->|Hne].
      * rewrite lookup_delete_eq, count_one_same. destruct (active_connections c !! id).
        -- destruct Hid as (-> & _). simpl. rewrite len_nil. split; [lia|done].
        -- destruct Hid. split; [lia|done].
      * rewrite lookup_delete_ne, count_one_other by done. apply Hw.
    + intros i Hne. simpl. rewrite lookup_delete_ne by done. split_and!; [done|done|set_solver].
    + unfold channel; simpl. by rewrite lookup_delete_eq.
    + by repeat constructor.
  - destruct (send_total n c m Hw (proj2 (Hn _))) as (c' & out & -> & Hw' & Ho & Hc & Hf & _).
    exists c', out. rewrite Hc. done.
Qed.

End ControllerFacts.

(** ** One connection's messages *)

Lemma prefix_segment (msgs : list (list byte)) lo hi : 0 <= lo <= hi -> prefix msgs hi = prefix msgs lo ++ segment msgs lo hi.
Proof.
  intros H. unfold prefix, segment. rewrite <- concat_app. f_equal.
  rewrite take_take_drop_Z by lia. done.
Qed.

Lemma concat_all_nil {A} (l : list (list A)) : Forall (fun x => x = []) l -> concat l = [].
Proof. induction 1 as [|x l -> _ IH]; [done|]. apply IH. Qed.

Module Delivery.
Import ActiveConnection Controller ControllerFacts Outbound.

(** What the messages of a channel write to the socket, if every write succeeds. *)
Definition written (outs : list ConnectionMessage) : list byte :=
  run_outbound [] ((fun m => Received (Some m) true) <$> outs).

Definition any_closed (outs : list ConnectionMessage) : bool := existsb socket_closed outs.

Lemma written_snoc outs o : written (outs ++ [o]) = if any_closed outs then written outs else written outs ++ payload o.
Proof.
  unfold written. generalize (@nil byte) as w. induction outs as [|x outs IH]; intros w; simpl; [by destruct (socket_closed o)|].
  destruct (socket_closed x); simpl; [done|]. apply IH.
Qed.

Lemma any_closed_snoc outs o : any_closed (outs ++ [o]) = any_closed outs || socket_closed o.
Proof. unfold any_closed. rewrite existsb_app. simpl. by rewrite orb_false_r. Qed.

Section Connection.
Context (id ch : Z) (msgs : list SocketData.t) (Hstream : stream id msgs) (Hsmall : len msgs <= u64_max - MAX_REASONABLE_OFFSET).

Let datas := data_of msgs.

Lemma total_datas : total datas = len msgs.
Proof. unfold total, datas, data_of. by rewrite len_fmap. Qed.

(** The [k]th message closes the connection. *)
Definition closes (k : Z) : Prop := exists m, msgs !! Z.to_nat k = Some m /\ closing m = true.

Lemma prefix_closed k n : 0 <= k < n -> n <= len msgs -> closes k -> prefix datas n = prefix datas (len msgs).
Proof.
  intros Hk Hn (m & Hm & Hc). rewrite (prefix_segment datas n (len msgs)) by lia.
  assert (segment datas n (len msgs) = []) as ->; [|by rewrite app_nil_r].
  unfold segment. apply concat_all_nil. apply Forall_take, Forall_forall. intros d [j Hj]%list_elem_of_lookup.
  rewrite lookup_drop in Hj. unfold datas, data_of in Hj. rewrite list_lookup_fmap in Hj.
  destruct (msgs !! (Z.to_nat n + j)%nat) as [m'|] eqn:Hm'; simplify_eq/=.
  eapply (stream_closed id msgs Hstream (Z.to_nat k)); [done|done| |done]. lia.
Qed.

(** The state of the connection when the numbers [arrived] have come in and [outs] was handed over. *)
Record conn_inv (arrived : gset Z) (a : ActiveConnection.t) (outs : list ConnectionMessage) : Prop := {
  ci_channel : connection_sender a = Some ch;
  ci_holds : holds datas arrived (ordered_buffer a);
  ci_index : match closed_at_index a with
             | Some k => k ∈ arrived /\ closes k
             | None => forall k, k ∈ arrived -> ~ closes k
             end;
  ci_written : written outs = prefix datas (OrderedMessageBuffer.next_sequence (ordered_buffer a));
  ci_closed : any_closed outs = is_closed a;
  ci_is_closed : is_closed a = true -> exists k, 0 <= k < OrderedMessageBuffer.next_sequence (ordered_buffer a) /\ closes k;
  ci_all : OrderedMessageBuffer.next_sequence (ordered_buffer a) = len msgs -> (exists k, 0 <= k /\ closes k) -> is_closed a = true
}.

Lemma conn_inv_new : conn_inv ∅ (ActiveConnection.mk false None (Some ch) OrderedMessageBuffer.new) [].
Proof.
  split; simpl; try done; [apply holds_new|]. intros E (k & Hk & m & Hm & _).
  apply lookup_lt_Some in Hm. unfold len in E. lia.
Qed.

(** What was read next is handed over. *)
Lemma hand_over_inv arrived a outs b' :
  connection_sender a = Some ch -> holds datas arrived b' ->
  match closed_at_index a with Some k => k ∈ arrived /\ closes k | None => forall k, k ∈ arrived -> ~ closes k end ->
  let next := OrderedMessageBuffer.next_sequence (ordered_buffer a) in
  let next' := OrderedMessageBuffer.next_sequence b' in
  0 <= next < next' -> written outs = prefix datas next -> any_closed outs = is_closed a ->
  (is_closed a = true -> exists k, 0 <= k < next /\ closes k) ->
  exists a' out,
    hand_over (ActiveConnection.mk (is_closed a) (closed_at_index a) (connection_sender a) b')
      (mkReadData (segment datas next next') (next' - 1)) = Ok (a', out) /\
    exists o, out = ToConnection ch <$> o /\ conn_inv arrived a' (outs ++ o).
Proof.
  intros Hch Hh Hidx next next' Hlt Hw Hac Hcl. unfold hand_over. cbn [closed_at_index last_sequence read_data].
  set (a1 := match closed_at_index a with Some k => _ | None => _ end).
  assert (connection_sender a1 = Some ch /\ ordered_buffer a1 = b' /\ closed_at_index a1 = closed_at_index a /\
    (is_closed a1 = true -> exists k, 0 <= k < next' /\ closes k) /\ (is_closed a = true -> is_closed a1 = true) /\
    (next' = len msgs -> (exists k, 0 <= k /\ closes k) -> is_closed a1 = true)) as (H1 & H2 & H3 & H4 & H5 & H6).
  { assert (is_closed a = true -> exists k, 0 <= k < next' /\ closes k) as Hcl'
      by (intros E; destruct (Hcl E) as (k & ? & ?); exists k; split; [lia|done]).
    pose proof (holds_arrived _ _ _ Hh) as Harr. pose proof (holds_read _ _ _ Hh) as Hread. fold next' in Hread.
    subst a1. destruct (closed_at_index a) as [k|].
    - destruct Hidx as [Hk Hc]. destruct (Z.leb_spec k (next' - 1)); simpl; split_and!; try done.
      + intros _. exists k. split; [|done]. specialize (Harr k Hk). lia.
      + intros E. specialize (Harr k Hk). rewrite total_datas in Harr. lia.
    - simpl; split_and!; try done. intros E (k & Hk & Hc). exfalso. apply (Hidx k); [|done]. apply Hread.
      destruct Hc as (m & Hm & _). apply lookup_lt_Some in Hm. unfold len in E. lia. }
  clearbody a1. pose proof (prefix_segment datas next next' ltac:(lia)) as Hp.
  pose proof (holds_range _ _ _ Hh) as Hr. rewrite total_datas in Hr. fold next' in Hr.
  assert (forall o, any_closed (outs ++ o) = is_closed a1 -> written (outs ++ o) = prefix datas next' -> conn_inv arrived a1 (outs ++ o)) as Hinv.
  { intros o Ho Hwo. split; rewrite ?H2, ?H3; try done. }
  destruct (bool_decide (segment datas next next' = []) && negb (is_closed a1)) eqn:Hskip.
  - apply andb_true_iff in Hskip as [Hempty%bool_decide_eq_true Hopen]. exists a1, []. split; [done|]. exists []. split; [done|].
    apply Hinv; rewrite app_nil_r.
    + rewrite Hac. destruct (is_closed a) eqn:E; [by rewrite H5|]. by destruct (is_closed a1).
    + by rewrite Hw, Hp, Hempty, app_nil_r.
  - rewrite H1. eexists _, _. split; [done|]. eexists [_]. split; [done|]. apply Hinv.
    + rewrite any_closed_snoc, Hac. simpl. destruct (is_closed a) eqn:E; [by rewrite H5|done].
    + rewrite written_snoc, Hac. simpl. destruct (is_closed a) eqn:E; [|by rewrite Hw, Hp].
      destruct (Hcl eq_refl) as (k & Hk & Hc). rewrite Hw.
      rewrite (prefix_closed k next), (prefix_closed k next') by (done || lia). done.
Qed.

(** A message that arrives, again or for the first time, not too far ahead. *)
Lemma send_inv arrived c a outs m i :
  active_connections c !! id = Some a -> conn_inv arrived a outs -> msgs !! Z.to_nat i = Some m -> 0 <= i ->
  (forall j, 0 <= j -> j + MAX_REASONABLE_OFFSET < i -> j ∈ arrived) ->
  exists a' o, send_to_connection c m = Ok (Controller.mk (<[id := a']> (active_connections c)) (recently_closed c) (pending_messages c), ToConnection ch <$> o) /\
    conn_inv ({[i]} ∪ arrived) a' (outs ++ o).
Proof.
  intros Ha [Hch Hh Hidx Hw Hac Hcl Hall] Hm Hi Hnear.
  destruct (stream_numbered id msgs Hstream _ _ Hm) as [Hseq Hid]. assert (seq_of m = i) as Hseq' by lia.
  unfold send_to_connection. fold (id_of m) (seq_of m) (closing m). rewrite Hid, Ha, Hseq'.
  assert (datas !! Z.to_nat i = Some (SocketData.data m)) as Hd by (unfold datas, data_of; rewrite list_lookup_fmap, Hm; done).
  assert (total datas <= u64_max - MAX_REASONABLE_OFFSET) as Htot by (rewrite total_datas; lia).
  assert (total datas < u64_max) as Htot' by (unfold MAX_REASONABLE_OFFSET in *; lia).
  set (next := OrderedMessageBuffer.next_sequence (ordered_buffer a)) in *.
  assert (i <= next + MAX_REASONABLE_OFFSET) as Hoff.
  { destruct (Z_le_gt_dec i (next + MAX_REASONABLE_OFFSET)); [done|]. exfalso. apply (holds_next _ _ _ Hh). apply Hnear.
    - apply (holds_range _ _ _ Hh).
    - fold next. lia. }
  set (closed_at := if closing m then Some i else closed_at_index a).
  assert (match closed_at with Some k => k ∈ {[i]} ∪ arrived /\ closes k | None => forall k, k ∈ {[i]} ∪ arrived -> ~ closes k end) as Hidx'.
  { subst closed_at. destruct (closing m) eqn:Ecl; [split; [set_solver|by exists m]|].
    destruct (closed_at_index a); [split; [set_solver|apply Hidx]|].
    intros k [->%elem_of_singleton|Hk]%elem_of_union; [|by apply Hidx]. intros (m' & Hm' & Hc'). rewrite Hm in Hm'. simplify_eq. congruence. }
  destruct (decide (i ∈ arrived)) as [Hin|Hout].
  - destruct (write_again datas arrived (ordered_buffer a) i (SocketData.data m) Hh Htot Hin) as [e Ee].
    assert ({[i]} ∪ arrived = arrived) as Eset by set_solver. rewrite Eset in *.
    unfold write_to_buf. rewrite Ee. cbn [obind]. unfold read_from_buf. cbn [ordered_buffer].
    destruct (read_holds datas arrived (ordered_buffer a) (holds_weaken _ _ _ Hh) Htot') as (b' & Hh' & Hle & Er).
    assert (OrderedMessageBuffer.next_sequence b' = next) as Enext.
    { destruct (Z.eq_dec (OrderedMessageBuffer.next_sequence b') next) as [|Hne]; [done|]. exfalso.
      apply (holds_next _ _ _ Hh). apply (holds_read _ _ _ Hh'). pose proof (holds_range _ _ _ Hh) as Hr0; fold next in Hr0, Hle; lia. }
    rewrite Er, bool_decide_true by done. cbn [obind is_closed closed_at_index connection_sender].
    eexists _, []. split; [done|]. rewrite app_nil_r. split; simpl; rewrite ?Enext; done.
  - destruct (write_new datas arrived (ordered_buffer a) i (SocketData.data m) Hh Htot Hd ltac:(fold next; lia) Hout) as (b & Eb & Hu & Hn).
    unfold write_to_buf. rewrite Eb. cbn [obind]. unfold read_from_buf. cbn [ordered_buffer].
    destruct (read_holds datas _ b Hu Htot') as (b' & Hh' & Hle & Er). rewrite Er, Hn. rewrite Hn in Hle. fold next in Hle |- *. clear Er Eb.
    pose proof (holds_range _ _ _ Hh) as Hr. fold next in Hr.
    cbn [obind is_closed closed_at_index connection_sender]. case_bool_decide as Hsame; cbn [obind].
    + eexists _, []. split; [done|]. rewrite app_nil_r. split; simpl; rewrite ?Hsame; done.
    + destruct (hand_over_inv _ (ActiveConnection.mk (is_closed a) closed_at (connection_sender a) (ordered_buffer a)) outs b' Hch Hh' Hidx')
        as (a' & out & Eo & o & -> & Hinv); [simpl; fold next; lia|done|done|done|].
      cbn [is_closed closed_at_index connection_sender ordered_buffer] in Eo. fold next in Eo.
      subst closed_at. rewrite Eo. cbn [obind]. eexists _, _. split; done.
Qed.

(** The messages of this connection among the commands, in the order they come in. *)
Definition sends (cmds : list ControllerCommand) : list SocketData.t :=
  omap (fun cmd => match cmd with
                   | SendCommand m => if bool_decide (id_of m = id) then Some m else None
                   | _ => None
                   end) cmds.

Definition outputs_on (outs : list Output) : list ConnectionMessage :=
  omap (fun o => match o with
                 | ToConnection c m => if bool_decide (c = ch) then Some m else None
                 | CloseCommand _ => None
                 end) outs.

(** No message comes in more than [MAX_REASONABLE_OFFSET] ahead of one that is missing. *)
Fixpoint in_reach (arrived : gset Z) (ms : list SocketData.t) : Prop :=
  match ms with
  | [] => True
  | m :: ms => (forall j, 0 <= j -> j + MAX_REASONABLE_OFFSET < seq_of m -> j ∈ arrived) /\ in_reach ({[seq_of m]} ∪ arrived) ms
  end.

Definition seqs (ms : list SocketData.t) : gset Z := list_to_set (seq_of <$> ms).

Lemma in_reach_app ms ms' : forall arrived, in_reach arrived (ms ++ ms') <-> in_reach arrived ms /\ in_reach (seqs ms ∪ arrived) ms'.
Proof.
  induction ms as [|m ms IH]; intros arrived; [unfold seqs; simpl; rewrite (left_id_L ∅ (∪)); tauto|].
  cbn [app in_reach]. rewrite IH. unfold seqs. rewrite fmap_cons, list_to_set_cons.
  replace (list_to_set (seq_of <$> ms) ∪ ({[seq_of m]} ∪ arrived)) with ({[seq_of m]} ∪ list_to_set (seq_of <$> ms) ∪ arrived) by set_solver.
  tauto.
Qed.

(** A command that leaves the connection's registration and channel alone, and sends only what the other side sent. *)
Definition quiet (cmd : ControllerCommand) : Prop :=
  match cmd with
  | Insert i c => i <> id /\ c <> ch
  | Remove i => i <> id
  | SendCommand m => id_of m = id -> m ∈ msgs
  end.

Lemma sent_number m : m ∈ msgs -> 0 <= seq_of m /\ msgs !! Z.to_nat (seq_of m) = Some m.
Proof.
  intros [k Hk]%list_elem_of_lookup. destruct (stream_numbered id msgs Hstream _ _ Hk) as [-> _]. rewrite Nat2Z.id. split; [lia|done].
Qed.

Lemma send_all_inv ms : forall arrived c a outs,
  active_connections c !! id = Some a -> conn_inv arrived a outs -> Forall (fun m => m ∈ msgs) ms -> in_reach arrived ms ->
  exists a' o, send_all c ms = Ok (Controller.mk (<[id := a']> (active_connections c)) (recently_closed c) (pending_messages c), ToConnection ch <$> o) /\
    conn_inv (seqs ms ∪ arrived) a' (outs ++ o).
Proof.
  induction ms as [|m ms IH]; intros arrived c a outs Ha Hinv Hms Hr.
  - exists a, []. rewrite app_nil_r, insert_id by done. unfold seqs; simpl. rewrite (left_id_L ∅ (∪)). split; [by destruct c|done].
  - apply Forall_cons in Hms as [Hm Hms]. destruct (sent_number m Hm) as [Hpos Hnum]. destruct Hr as [Hnear Hr]. cbn [send_all].
    destruct (send_inv arrived c a outs m (seq_of m) Ha Hinv Hnum Hpos Hnear) as (a1 & o1 & -> & Hinv1). cbn [obind].
    edestruct (IH ({[seq_of m]} ∪ arrived)) as (a2 & o2 & -> & Hinv2); [simpl; apply lookup_insert_eq|exact Hinv1|done|done|].
    cbn [obind active_connections recently_closed pending_messages]. exists a2, (o1 ++ o2). rewrite insert_insert_eq, fmap_app, app_assoc. split; [done|].
    unfold seqs in *. rewrite fmap_cons, list_to_set_cons.
    replace ({[seq_of m]} ∪ list_to_set (seq_of <$> ms) ∪ arrived) with (list_to_set (seq_of <$> ms) ∪ ({[seq_of m]} ∪ arrived)) by (clear; set_solver). done.
Qed.

Lemma outputs_on_app o1 o2 : outputs_on (o1 ++ o2) = outputs_on o1 ++ outputs_on o2.
Proof. apply omap_app. Qed.

Lemma outputs_on_cons c m l : outputs_on (ToConnection c m :: l) = if bool_decide (c = ch) then m :: outputs_on l else outputs_on l.
Proof. unfold outputs_on. cbn. by case_bool_decide. Qed.

Lemma outputs_on_own o : outputs_on (ToConnection ch <$> o) = o.
Proof. induction o as [|m o IH]; [done|]. rewrite fmap_cons, outputs_on_cons, bool_decide_true, IH by done. done. Qed.

Lemma outputs_on_other o c : c <> Some ch -> Forall (on_channel c) o -> outputs_on o = [].
Proof.
  intros Hc. induction 1 as [|x o Hx Ho IH]; [done|]. destruct x as [c' m|]; [|done].
  simpl in Hx. rewrite outputs_on_cons, bool_decide_false by congruence. done.
Qed.

(** No other connection has the channel. *)
Definition exclusive (c : Controller.t) : Prop := forall i, i <> id -> channel c i <> Some ch.

(** A command of another connection. *)
Lemma handle_other n c cmd :
  within n c -> (forall i, 0 <= n i /\ small (n i)) -> exclusive c -> quiet cmd -> command_id cmd <> id ->
  exists c' out, handle c cmd = Ok (c', out) /\ within (count_one n (command_id cmd)) c' /\ exclusive c' /\
    active_connections c' !! id = active_connections c !! id /\ pending_messages c' !! id = pending_messages c !! id /\
    (id ∈ recently_closed c' <-> id ∈ recently_closed c) /\ outputs_on out = [].
Proof.
  intros Hw Hn He Hq Hid. destruct (handle_total n c cmd Hw Hn) as (c' & out & E & Hw' & Ho & Hc & Hf).
  exists c', out. destruct (Ho id ltac:(congruence)) as (E1 & E2 & E3). split_and!; try done.
  - intros i Hi. destruct (decide (i = command_id cmd)) as [->|Hne].
    + rewrite Hc. destruct cmd; simpl in *; [|done|by apply He]. destruct Hq as [_ Hq]. congruence.
    + unfold channel. destruct (Ho i Hne) as (-> & _). by apply He.
  - apply outputs_on_other with (channel c' (command_id cmd)); [|done]. rewrite Hc. destruct cmd; simpl in *; [|done|by apply He].
    destruct Hq as [_ Hq]. congruence.
Qed.

Lemma sends_cons_other cmd cmds : command_id cmd <> id -> sends (cmd :: cmds) = sends cmds.
Proof. intros Hid. unfold sends. destruct cmd; simpl in *; try done. by rewrite bool_decide_false. Qed.

Lemma sends_cons_own m cmds : id_of m = id -> sends (SendCommand m :: cmds) = m :: sends cmds.
Proof. intros Hid. unfold sends. simpl. by rewrite bool_decide_true. Qed.

Lemma count_bound n N i j : (forall i, 0 <= n i <= N) -> 0 <= count_one n j i <= N + 1.
Proof. intros H. specialize (H i). unfold count_one. case_bool_decide; lia. Qed.

(** Before the connection is there, its messages wait. *)
Lemma run_before cmds : forall n N c,
  within n c -> (forall i, 0 <= n i <= N) -> N + len cmds <= u64_max - MAX_REASONABLE_OFFSET -> exclusive c -> Forall quiet cmds ->
  active_connections c !! id = None -> id ∉ recently_closed c ->
  exists c' out n', run c cmds = Ok (c', out) /\ within n' c' /\ (forall i, 0 <= n' i <= N + len cmds) /\ exclusive c' /\
    active_connections c' !! id = None /\ (id ∉ recently_closed c') /\ outputs_on out = [] /\
    default [] (pending_messages c' !! id) = default [] (pending_messages c !! id) ++ sends cmds.
Proof.
  induction cmds as [|cmd cmds IH]; intros n N c Hw Hn Hl He Hq Ha Hrc.
  - exists c, [], n. split_and!; try done; [intros i; specialize (Hn i); unfold len; simpl; lia|]. symmetry; apply app_nil_r.
  - apply Forall_cons in Hq as [Hq Hqs]. rewrite len_cons in Hl |- *. pose proof (len_nonneg cmds).
    assert (forall i, 0 <= n i /\ small (n i)) as Hn' by (intros i; specialize (Hn i); unfold small; lia). cbn [run].
    destruct (decide (command_id cmd = id)) as [Hid|Hid].
    + destruct cmd as [i c0|i|m]; simpl in Hid, Hq; [by destruct Hq|done|]. cbn [handle].
      destruct (send_total n c m Hw) as (c1 & o1 & E & Hw1 & Ho1 & Hc1 & _); [apply Hn'|].
      unfold send_to_connection in E. fold (id_of m) in E. rewrite Hid, Ha, bool_decide_false in E by done. simplify_eq E; clear E; intros Ec1 Eo1.
      unfold send_to_connection. fold (id_of m). rewrite Hid, Ha, bool_decide_false by done. cbn [obind]. rewrite Ec1.
      destruct (IH (count_one n (id_of m)) (N + 1) c1 Hw1) as (c' & out & n' & -> & Hw' & Hb & He' & Ha' & Hrc' & Hout & Hp).
      * intros i. by apply count_bound.
      * lia.
      * intros i Hi. unfold channel. rewrite <- Ec1. simpl. by apply He.
      * done.
      * by rewrite <- Ec1.
      * by rewrite <- Ec1.
      * exists c', out, n'. split_and!; try done; [intros i; specialize (Hb i); lia|].
        rewrite sends_cons_own by done. rewrite Hp, <- Ec1. cbn [pending_messages]. rewrite lookup_insert_eq. symmetry. apply (app_assoc _ [m]).
    + destruct (handle_other n c cmd Hw Hn' He Hq Hid) as (c1 & o1 & -> & Hw1 & He1 & Ha1 & Hp1 & Hrc1 & Ho1). cbn [obind].
      destruct (IH (count_one n (command_id cmd)) (N + 1) c1 Hw1) as (c' & out & n' & -> & Hw' & Hb & He' & Ha' & Hrc' & Hout & Hp).
      * intros i. by apply count_bound.
      * lia.
      * done.
      * done.
      * by rewrite Ha1.
      * by rewrite Hrc1.
      * cbn [obind]. exists c', (o1 ++ out), n'. rewrite outputs_on_app, Ho1, Hout, sends_cons_other by done.
        split_and!; try done; [intros i; specialize (Hb i); lia|]. by rewrite Hp, Hp1.
Qed.

(** Once it is there, they are handed over. *)
Lemma run_after cmds : forall n N c a arrived outs,
  within n c -> (forall i, 0 <= n i <= N) -> N + len cmds <= u64_max - MAX_REASONABLE_OFFSET -> exclusive c -> Forall quiet cmds ->
  active_connections c !! id = Some a -> conn_inv arrived a outs -> in_reach arrived (sends cmds) ->
  exists c' out a', run c cmds = Ok (c', out) /\ active_connections c' !! id = Some a' /\
    conn_inv (seqs (sends cmds) ∪ arrived) a' (outs ++ outputs_on out).
Proof.
  induction cmds as [|cmd cmds IH]; intros n N c a arrived outs Hw Hn Hl He Hq Ha Hinv Hr.
  - exists c, [], a. unfold seqs; simpl. rewrite (left_id_L ∅ (∪)), app_nil_r. done.
  - apply Forall_cons in Hq as [Hq Hqs]. rewrite len_cons in Hl. pose proof (len_nonneg cmds).
    assert (forall i, 0 <= n i /\ small (n i)) as Hn' by (intros i; specialize (Hn i); unfold small; lia). cbn [run].
    destruct (decide (command_id cmd = id)) as [Hid|Hid].
    + destruct cmd as [i c0|i|m]; simpl in Hid, Hq; [by destruct Hq|done|]. cbn [handle].
      rewrite sends_cons_own in Hr |- * by done. destruct Hr as [Hnear Hr]. destruct (sent_number m (Hq Hid)) as [Hpos Hnum].
      destruct (send_total n c m Hw) as (c1 & o1 & E & Hw1 & Ho1 & Hc1 & _); [apply Hn'|].
      destruct (send_inv arrived c a outs m (seq_of m) Ha Hinv Hnum Hpos Hnear) as (a1 & o & E' & Hinv1).
      rewrite E' in E. simplify_eq E; intros Ec1 Eo1. rewrite E'. cbn [obind]. rewrite Ec1.
      destruct (IH (count_one n (id_of m)) (N + 1) c1 a1 ({[seq_of m]} ∪ arrived) (outs ++ o) Hw1) as (c' & out & a' & -> & Ha' & Hinv').
      * intros i. by apply count_bound.
      * lia.
      * intros i Hi. rewrite <- Hid in Hi. unfold channel. destruct (Ho1 i Hi) as (-> & _). apply He. congruence.
      * done.
      * rewrite <- Ec1. simpl. apply lookup_insert_eq.
      * done.
      * done.
      * cbn [obind]. exists c', ((ToConnection ch <$> o) ++ out), a'. rewrite outputs_on_app, outputs_on_own, app_assoc. split_and!; [done|done|].
        unfold seqs in *. rewrite fmap_cons, list_to_set_cons.
        by rewrite union_swap.
    + rewrite sends_cons_other in Hr |- * by done.
      destruct (handle_other n c cmd Hw Hn' He Hq Hid) as (c1 & o1 & -> & Hw1 & He1 & Ha1 & Hp1 & Hrc1 & Ho1). cbn [obind].
      destruct (IH (count_one n (command_id cmd)) (N + 1) c1 a arrived outs Hw1) as (c' & out & a' & -> & Ha' & Hinv').
      * intros i. by apply count_bound.
      * lia.
      * done.
      * done.
      * by rewrite Ha1.
      * done.
      * done.
      * cbn [obind]. exists c', (o1 ++ out), a'. rewrite outputs_on_app, Ho1. done.
Qed.

(** The connection is made: it gets what waited for it. *)
Lemma insert_inv c :
  active_connections c !! id = None -> Forall (fun m => m ∈ msgs) (default [] (pending_messages c !! id)) ->
  in_reach ∅ (default [] (pending_messages c !! id)) ->
  exists c' a o, insert_connection c id ch = Ok (c', ToConnection ch <$> o) /\ active_connections c' !! id = Some a /\
    conn_inv (seqs (default [] (pending_messages c !! id))) a o.
Proof.
  intros Ha Hp Hr. unfold insert_connection. rewrite Ha. pose proof conn_inv_new as Hinv.
  destruct (pending_messages c !! id) as [pending|]; cycle 1.
  - eexists _, _, []. split; [done|]. simpl. split; [apply lookup_insert_eq|done].
  - edestruct (send_all_inv pending ∅) as (a' & o & -> & Hinv'); [simpl; apply lookup_insert_eq|exact Hinv|done|done|].
    eexists _, _, _. split; [done|]. simpl. rewrite insert_insert_eq, lookup_insert_eq. split; [done|].
    rewrite (right_id_L ∅ (∪)) in Hinv'. done.
Qed.

Lemma run_app c l l' :
  run c (l ++ l') = let? (c, o) := run c l in let? (c, o') := run c l' in Ok (c, o ++ o').
Proof.
  revert c; induction l as [|cmd l IH]; intros c; simpl; [by destruct (run c l') as [[]| |]|].
  destruct (handle c cmd) as [[c1 o1]| |]; simpl; [|done|done]. rewrite IH. destruct (run c1 l) as [[c2 o2]| |]; simpl; [|done|done].
  destruct (run c2 l') as [[c3 o3]| |]; simpl; [|done|done]. by rewrite app_assoc.
Qed.

Lemma sends_app l l' : sends (l ++ l') = sends l ++ sends l'.
Proof. apply omap_app. Qed.

Lemma sends_sent cmds : Forall quiet cmds -> Forall (fun m => m ∈ msgs) (sends cmds).
Proof.
  induction 1 as [|cmd cmds Hq Hqs IH]; [done|]. destruct (decide (command_id cmd = id)) as [Hid|Hid]; [|by rewrite sends_cons_other].
  destruct cmd as [i c|i|m]; simpl in Hid, Hq; [by destruct Hq|done|]. rewrite sends_cons_own by done. constructor; [by apply Hq|done].
Qed.

Lemma controller_delivers pre post :
  Forall quiet (pre ++ post) -> in_reach ∅ (sends (pre ++ post)) -> len (pre ++ post) < u64_max - MAX_REASONABLE_OFFSET ->
  exists c outs a, run Controller.new (pre ++ Insert id ch :: post) = Ok (c, outs) /\
    conn_inv (seqs (sends (pre ++ post))) a (outputs_on outs).
Proof.
  intros Hq Hr Hl. apply Forall_app in Hq as [Hq1 Hq2]. rewrite sends_app, in_reach_app, (right_id_L ∅ (∪)) in Hr. destruct Hr as [Hr1 Hr2].
  rewrite len_app in Hl. pose proof (len_nonneg pre). pose proof (len_nonneg post).
  destruct (run_before pre (fun _ => 0) 0 Controller.new) as (c1 & o1 & n1 & E1 & Hw1 & Hb1 & He1 & Ha1 & Hrc1 & Ho1 & Hp1);
    [by intros i|lia|lia|by intros i Hi|done|done|done|]. simpl in Hp1.
  rewrite run_app, E1. cbn [obind run].
  destruct (insert_inv c1 Ha1) as (c2 & a2 & o2 & E2 & Ha2 & Hinv2); [rewrite Hp1; by apply sends_sent|by rewrite Hp1|].
  destruct (handle_total n1 c1 (Insert id ch) Hw1) as (c2' & o2' & E2' & Hw2 & Honly & _); [intros i; specialize (Hb1 i); unfold small; lia|].
  cbn [handle] in E2' |- *. rewrite E2 in E2'. simplify_eq E2'; intros <- <-. rewrite E2. cbn [obind].
  destruct (run_after post (count_one n1 id) (len pre + 1) c2 a2 (seqs (sends pre)) o2 Hw2) as (c3 & o3 & a3 & E3 & Ha3 & Hinv3).
  - intros i. apply count_bound. intros j. specialize (Hb1 j). lia.
  - lia.
  - intros i Hi. unfold channel. destruct (Honly i Hi) as (-> & _). by apply He1.
  - done.
  - done.
  - by rewrite Hp1 in Hinv2.
  - done.
  - rewrite E3. cbn [obind]. eexists _, _, _. split; [done|].
    rewrite !outputs_on_app, Ho1, outputs_on_own, sends_app. cbn [app].
    unfold seqs in *. rewrite fmap_app, list_to_set_app_L, (comm_L (∪)). done.
Qed.

End Connection.

End Delivery.

Import SenderFacts Delivery.

(** C11: what a proxy reads from its socket comes out on the other side. The
    messages may arrive in any order and several times, before or after the
    connection is registered and between those of other connections, as long
    as none is a thousand ahead of one that is missing. Then the controller
    never aborts; what is written to the other socket is the data of the
    messages up to the first one that is missing; and once all have arrived it
    is exactly what was read, and the connection is closed if and only if the
    sender closed it. *)
Theorem proxied_bytes_are_delivered (id ch : Z) (events : list Inbound.Event) (pre post : list ControllerCommand) (s : Inbound.State) :
  Inbound.run_inbound (Inbound.init id) events = Ok s ->
  len events <= u64_max - MAX_REASONABLE_OFFSET -> len (pre ++ post) < u64_max - MAX_REASONABLE_OFFSET ->
  Forall (quiet id ch (Inbound.sent s)) (pre ++ post) -> in_reach ∅ (sends id (pre ++ post)) ->
  exists c outs next,
    Controller.run Controller.new (pre ++ Insert id ch :: post) = Ok (c, outs) /\
    (forall j, 0 <= j < next -> j ∈ seqs (sends id (pre ++ post))) /\ (next ∉ seqs (sends id (pre ++ post))) /\
    written (outputs_on ch outs) = concat (take (Z.to_nat next) (data_of (Inbound.sent s))) /\
    ((forall m, m ∈ Inbound.sent s -> m ∈ sends id (pre ++ post)) ->
     written (outputs_on ch outs) = bytes_read false events /\ any_closed (outputs_on ch outs) = existsb closing (Inbound.sent s)).
Proof.
  intros Es Hev Hcmds Hq Hr.
  destruct (run_inbound_stream id events) as (s' & Es' & Hstream & Hdata & Hlen); [unfold MAX_REASONABLE_OFFSET in *; lia|].
  rewrite Es in Es'. simplify_eq Es'; intros <-. set (msgs := Inbound.sent s) in *.
  destruct (controller_delivers id ch msgs Hstream ltac:(lia) pre post Hq Hr Hcmds) as (c & outs & a & E & [_ Hh Hidx Hw Hac Hcl Hall]).
  set (next := OrderedMessageBuffer.next_sequence (ActiveConnection.ordered_buffer a)) in *.
  exists c, outs, next. split_and!; [done|apply (holds_read _ _ _ Hh)|apply (holds_next _ _ _ Hh)|exact Hw|]. intros Harr.
  pose proof (holds_range _ _ _ Hh) as Hrange. rewrite total_datas in Hrange. fold next in Hrange.
  assert (next = len msgs) as Enext.
  { destruct (Z.eq_dec next (len msgs)) as [|Hne]; [done|]. exfalso. apply (holds_next _ _ _ Hh). fold next.
    destruct (lookup_lt_is_Some_2 msgs (Z.to_nat next)) as [m Hm]; [unfold len in *; lia|].
    destruct (stream_numbered _ _ Hstream _ _ Hm) as [Hseq _]. unfold seqs. rewrite elem_of_list_to_set.
    replace next with (seq_of m) by lia. apply list_elem_of_fmap_2, Harr. by eapply list_elem_of_lookup_2. }
  split.
  - rewrite Hw, Enext, <- Hdata. unfold prefix, len. rewrite Nat2Z.id, take_ge; [done|]. unfold data_of. by rewrite length_fmap.
  - rewrite Hac. apply eq_true_iff_eq. rewrite existsb_exists. split.
    + intros Hc. destruct (Hcl Hc) as (k & _ & m & Hm & Hm'). exists m. split; [|done]. apply list_elem_of_In. by eapply list_elem_of_lookup_2.
    + intros (m & [k Hk]%list_elem_of_In%list_elem_of_lookup & Hm). apply Hall; [done|]. exists (Z.of_nat k). split; [lia|].
      exists m. rewrite Nat2Z.id. done.
Qed.

(** A chunk, a keepalive, another chunk and the end of the socket; on the
    other side the second chunk and the end come in before the connection, the
    first chunk twice, between messages of another connection. *)
Definition sample_events : list Inbound.Event := [
  Inbound.SocketReady (OrderedMessageSender.ReadBytes [x01; x02]); Inbound.KeepaliveTick;
  Inbound.SocketReady (OrderedMessageSender.ReadBytes [x03]); Inbound.SocketReady OrderedMessageSender.ReadEnd; Inbound.LaneEmptied].

Definition sample_sent : list SocketData.t := [
  SocketData.new 0 42 false [x01; x02]; SocketData.new 1 42 false []; SocketData.new 2 42 false [x03]; SocketData.new 3 42 true []].

Definition sample_before : list ControllerCommand := [
  SendCommand (SocketData.new 2 42 false [x03]); Insert 7 70; SendCommand (SocketData.new 3 42 true [])].

Definition sample_after : list ControllerCommand := [
  SendCommand (SocketData.new 0 42 false [x01; x02]); SendCommand (SocketData.new 0 7 true [x09]);
  SendCommand (SocketData.new 0 42 false [x01; x02]); Remove 7; SendCommand (SocketData.new 1 42 false [])].

Lemma proxied_bytes_are_delivered_witness :
  exists s c outs,
    Inbound.run_inbound (Inbound.init 42) sample_events = Ok s /\
    Controller.run Controller.new (sample_before ++ Insert 42 99 :: sample_after) = Ok (c, outs) /\
    written (outputs_on 99 outs) = [x01; x02; x03] /\ any_closed (outputs_on 99 outs) = true.
Proof.
  assert (Inbound.run_inbound (Inbound.init 42) sample_events =
    Ok (Inbound.mkState (OrderedMessageSender.mk 42 4) true true sample_sent)) as Es by reflexivity.
  destruct (proxied_bytes_are_delivered 42 99 sample_events sample_before sample_after _ Es)
    as (c & outs & next & E & _ & _ & _ & Hall).
  - vm_compute. discriminate.
  - vm_compute. reflexivity.
  - repeat constructor; simpl; try done; intros _; repeat (first [apply elem_of_list_here | apply elem_of_list_further]).
  - simpl. repeat split; intros j Hj Hlt; exfalso; unfold seq_of, MAX_REASONABLE_OFFSET in *; simpl in *; lia.
  - destruct Hall as [H1 H2].
    + intros m Hm. apply list_elem_of_In. apply list_elem_of_In in Hm. simpl in Hm |- *. tauto.
    + eexists _, c, outs. split; [exact Es|]. split; [exact E|]. split; [exact H1|exact H2].
Defined.
