(* ===== verification/Cosmwasm.v ===== *)
(** * The contracts' environment

    The smart contracts are built on libraries that are not part of the
    repository: [cosmwasm_std] (fixed-point decimals, 128-bit integers,
    addresses, the chain's api), [time] and [bs58].  This file states what
    the contracts use of them as type classes: the operations are parameters
    of every definition that uses them, their documented behaviour is the
    class [CosmMathLaws], and [fixed_point] shows the laws can hold.

    It also models the contracts' shared types of
    [common/cosmwasm-smart-contracts/contracts-common/src/types.rs] and
    [.../mixnet-contract/src/helpers.rs]. *)

From S2P Require Import Prelude Bytes.
From Stdlib.Strings Require Import Byte.
From stdpp Require Export strings.
#[global] Open Scope Z_scope.

(** ** Numbers *)

Definition u128_max : Z := 2 ^ 128 - 1.
Definition is_u128 (z : Z) : Prop := 0 <= z <= u128_max.

(** [Uint128], [Addr] and [Decimal] with its number of atomics: a decimal
    [d] stands for [d / 10 ^ 18]. *)
Abbreviation Uint128 := Z.
Abbreviation Decimal := Z.
Abbreviation Addr := string.

Definition DECIMAL_FRACTIONAL : Z := 10 ^ 18.

(** [Decimal::zero] and [Decimal::one]. *)
Definition dec_zero : Decimal := 0.
Definition dec_one : Decimal := DECIMAL_FRACTIONAL.

(** The operators of [Decimal] and [Uint128]; [None] is a panic, except for
    [dec_from_atomics], where it is the error. *)
Class CosmMath : Type := {
  dec_add : Decimal -> Decimal -> option Decimal;
  dec_sub : Decimal -> Decimal -> option Decimal;
  dec_mul : Decimal -> Decimal -> option Decimal;
  dec_div : Decimal -> Decimal -> option Decimal;
  (** [Decimal::from_ratio]. *)
  dec_from_ratio : Uint128 -> Uint128 -> option Decimal;
  (** [Decimal::from_atomics] with no decimal places. *)
  dec_from_atomics : Uint128 -> option Decimal;
  (** [Decimal * Uint128]. *)
  dec_mul_uint : Decimal -> Uint128 -> option Uint128;
  uint_add : Uint128 -> Uint128 -> option Uint128;
  uint_sub : Uint128 -> Uint128 -> option Uint128
}.

(** The documented behaviour: results are exact for sums and differences,
    truncated towards zero for products and quotients, and an operation
    whose result does not fit in 128 bits of atomics does not return. *)
Class CosmMathLaws `{CosmMath} : Prop := {
  dec_add_spec a b c : dec_add a b = Some c <-> c = a + b /\ is_u128 c;
  dec_sub_spec a b c : dec_sub a b = Some c <-> c = a - b /\ is_u128 c;
  dec_mul_spec a b c : dec_mul a b = Some c <-> c = a * b / DECIMAL_FRACTIONAL /\ is_u128 c;
  dec_div_spec a b c : dec_div a b = Some c <-> b <> 0 /\ c = a * DECIMAL_FRACTIONAL / b /\ is_u128 c;
  dec_from_ratio_spec a b c :
    dec_from_ratio a b = Some c <-> b <> 0 /\ c = a * DECIMAL_FRACTIONAL / b /\ is_u128 c;
  dec_from_atomics_spec a c : dec_from_atomics a = Some c <-> c = a * DECIMAL_FRACTIONAL /\ is_u128 c;
  dec_mul_uint_spec a b c : dec_mul_uint a b = Some c <-> c = a * b / DECIMAL_FRACTIONAL /\ is_u128 c;
  uint_add_spec a b c : uint_add a b = Some c <-> c = a + b /\ is_u128 c;
  uint_sub_spec a b c : uint_sub a b = Some c <-> c = a - b /\ is_u128 c
}.

(** A result that is returned when it fits. *)
Definition fit (z : Z) : option Z := if (0 <=? z) && (z <=? u128_max) then Some z else None.

Lemma fit_spec z c : fit z = Some c <-> c = z /\ is_u128 c.
Proof.
  unfold fit, is_u128. destruct (Z.leb_spec 0 z), (Z.leb_spec z u128_max); simpl; split;
    try (intros [= ->]; lia); try (intros (-> & ?); done || lia).
Qed.

(** An arithmetic with the documented behaviour. *)
Definition fixed_point : CosmMath := {|
  dec_add a b := fit (a + b);
  dec_sub a b := fit (a - b);
  dec_mul a b := fit (a * b / DECIMAL_FRACTIONAL);
  dec_div a b := if b =? 0 then None else fit (a * DECIMAL_FRACTIONAL / b);
  dec_from_ratio a b := if b =? 0 then None else fit (a * DECIMAL_FRACTIONAL / b);
  dec_from_atomics a := fit (a * DECIMAL_FRACTIONAL);
  dec_mul_uint a b := fit (a * b / DECIMAL_FRACTIONAL);
  uint_add a b := fit (a + b);
  uint_sub a b := fit (a - b)
|}.

Lemma fixed_point_laws : @CosmMathLaws fixed_point.
Proof.
  split; intros; simpl; try apply fit_spec;
    (destruct (Z.eqb_spec b 0) as [->|]; [split; [done|intros (? & _); done]|rewrite fit_spec; tauto]).
Qed.

(** ** Panicking operators *)

Definition or_panic {E A} (o : option A) (p : panic) : outcome E A :=
  match o with Some x => Ok x | None => Panic p end.

Definition or_err {E A} (o : option A) (e : E) : outcome E A :=
  match o with Some x => Ok x | None => Err e end.

(** Early return of an error unless a condition holds. *)
Definition ensure {E} (b : bool) (e : E) : outcome E unit := if b then Ok tt else Err e.

Lemma or_panic_Ok {E A} (o : option A) p (x : A) : @or_panic E A o p = Ok x <-> o = Some x.
Proof. destruct o; simpl; split; congruence. Qed.

Lemma or_err_Ok {E A} (o : option A) (e : E) (x : A) : or_err o e = Ok x <-> o = Some x.
Proof. destruct o; simpl; split; congruence. Qed.

Lemma ensure_Ok {E} b (e : E) u : ensure b e = Ok u <-> b = true.
Proof. destruct b, u; simpl; split; congruence. Qed.

Section Operators.
Context `{CosmMath} {E : Type}.

Definition dadd (a b : Decimal) : outcome E Decimal := or_panic (dec_add a b) Overflow.
Definition dsub (a b : Decimal) : outcome E Decimal := or_panic (dec_sub a b) Overflow.
Definition dmul (a b : Decimal) : outcome E Decimal := or_panic (dec_mul a b) Overflow.
Definition ddiv (a b : Decimal) : outcome E Decimal :=
  or_panic (dec_div a b) (if b =? 0 then DivisionByZero else Overflow).
Definition dratio (a b : Uint128) : outcome E Decimal :=
  or_panic (dec_from_ratio a b) (if b =? 0 then DivisionByZero else Overflow).
Definition dmulu (a : Decimal) (b : Uint128) : outcome E Uint128 := or_panic (dec_mul_uint a b) Overflow.
Definition uadd (a b : Uint128) : outcome E Uint128 := or_panic (uint_add a b) Overflow.
Definition usub (a b : Uint128) : outcome E Uint128 := or_panic (uint_sub a b) Overflow.

(** [contracts_common::truncate_decimal]: the integer part. *)
Definition truncate_decimal (amount : Decimal) : outcome E Uint128 := dmulu amount 1.

Context `{!CosmMathLaws}.

Lemma dadd_Ok a b c : dadd a b = Ok c <-> c = a + b /\ is_u128 c.
Proof. unfold dadd. rewrite or_panic_Ok. apply dec_add_spec. Qed.
Lemma dsub_Ok a b c : dsub a b = Ok c <-> c = a - b /\ is_u128 c.
Proof. unfold dsub. rewrite or_panic_Ok. apply dec_sub_spec. Qed.
Lemma dmul_Ok a b c : dmul a b = Ok c <-> c = a * b / DECIMAL_FRACTIONAL /\ is_u128 c.
Proof. unfold dmul. rewrite or_panic_Ok. apply dec_mul_spec. Qed.
Lemma ddiv_Ok a b c : ddiv a b = Ok c <-> b <> 0 /\ c = a * DECIMAL_FRACTIONAL / b /\ is_u128 c.
Proof. unfold ddiv. rewrite or_panic_Ok. apply dec_div_spec. Qed.
Lemma dratio_Ok a b c : dratio a b = Ok c <-> b <> 0 /\ c = a * DECIMAL_FRACTIONAL / b /\ is_u128 c.
Proof. unfold dratio. rewrite or_panic_Ok. apply dec_from_ratio_spec. Qed.
Lemma uadd_Ok a b c : uadd a b = Ok c <-> c = a + b /\ is_u128 c.
Proof. unfold uadd. rewrite or_panic_Ok. apply uint_add_spec. Qed.
Lemma usub_Ok a b c : usub a b = Ok c <-> c = a - b /\ is_u128 c.
Proof. unfold usub. rewrite or_panic_Ok. apply uint_sub_spec. Qed.
Lemma truncate_decimal_Ok a c : truncate_decimal a = Ok c <-> c = a / DECIMAL_FRACTIONAL /\ is_u128 c.
Proof. unfold truncate_decimal, dmulu. rewrite or_panic_Ok, dec_mul_uint_spec, Z.mul_1_r. done. Qed.

Lemma dadd_total a b : is_u128 (a + b) -> dadd a b = Ok (a + b).
Proof. intros. by apply dadd_Ok. Qed.
Lemma dsub_total a b : is_u128 (a - b) -> dsub a b = Ok (a - b).
Proof. intros. by apply dsub_Ok. Qed.

(** Truncation never fails on a decimal. *)
Lemma truncate_decimal_total a : is_u128 a -> truncate_decimal a = Ok (a / DECIMAL_FRACTIONAL).
Proof.
  intros [? ?]. apply truncate_decimal_Ok. split; [done|]. unfold is_u128, DECIMAL_FRACTIONAL. split.
  - apply Z.div_pos; lia.
  - etransitivity; [|eassumption]. apply Z.div_le_upper_bound; lia.
Qed.

End Operators.

(** ** Errors of the libraries *)

Inductive StdError : Type :=
| DecimalRangeExceeded (atomics : Uint128)
| NotFound
| UniqueConstraint
| InvalidAddress (input : string).

(** ** [Percent] of [contracts-common] *)

Inductive ContractsCommonError : Type :=
| InvalidPercent (value : Decimal)
| CommonStdErr (source : StdError).

Module Percent.

(** A wrapped [Decimal], at most [Decimal::one]; see [valid]. *)
Record t : Type := mk { value : Decimal }.

Definition new (v : Decimal) : outcome ContractsCommonError t :=
  if dec_one <? v then Err (InvalidPercent v) else Ok (mk v).

Definition is_zero (p : t) : bool := value p =? dec_zero.
Definition zero : t := mk dec_zero.
Definition hundred : t := mk dec_one.

(** What [new], and the deserialiser with the same test, let through. *)
Definition valid (p : t) : Prop := 0 <= value p <= dec_one.

Section Operations.
Context `{CosmMath} {E : Type}.

Definition round_to_integer (p : t) : outcome E Z :=
  let? hundred := dratio 100 1 in
  let? scaled := dmul hundred (value p) in
  let? n := truncate_decimal scaled in
  Ok (as_u8 n).

(** [Percent * Decimal] and [Decimal * Percent]. *)
Definition mul (p : t) (rhs : Decimal) : outcome E Decimal := dmul (value p) rhs.

End Operations.

End Percent.

(** ** The chain *)

Record Coin : Type := mkCoin { denom : string; amount : Uint128 }.

#[export] Instance Coin_eq_dec : EqDecision Coin.
Proof. solve_decision. Defined.

(** [Env], with the block's height and its time: seconds, and nanoseconds within the second. *)
Record Env : Type := mkEnv { block_height : Z; block_time_secs : Z; block_time_subsec : Z }.

Record MessageInfo : Type := mkInfo { sender : Addr; funds : list Coin }.

(** The rest of the chain's api the contracts call. *)
Class ChainApi : Type := {
  (** [Api::addr_validate]. *)
  addr_validate : string -> option Addr;
  (** [bs58::encode] and [bs58::decode] of bytes. *)
  bs58_encode : list byte -> string;
  bs58_decode : string -> option (list byte);
  (** [OffsetDateTime::from_unix_timestamp] and [OffsetDateTime + Duration],
      with times and durations in nanoseconds. *)
  datetime_from_unix : Z -> option Z;
  datetime_add : Z -> Z -> option Z
}.

(** The documented behaviour of dates: whole seconds are converted exactly
    and addition is exact, within the range of dates. *)
Definition NANOS : Z := 10 ^ 9.

Class ChainApiLaws `{ChainApi} : Prop := {
  datetime_from_unix_spec s t : datetime_from_unix s = Some t -> t = s * NANOS;
  datetime_add_spec t d t' : datetime_add t d = Some t' -> t' = t + d
}.

(** Conversions of an integer to a decimal of the same value,
    [IntoBaseDecimal::into_base_decimal]. *)
Definition into_base_decimal `{CosmMath} (v : Uint128) : outcome StdError Decimal :=
  or_err (dec_from_atomics v) (DecimalRangeExceeded v).

Lemma into_base_decimal_Ok `{CosmMath} `{!CosmMathLaws} v c :
  into_base_decimal v = Ok c <-> c = v * DECIMAL_FRACTIONAL /\ is_u128 c.
Proof. unfold into_base_decimal. rewrite or_err_Ok. apply dec_from_atomics_spec. Qed.

(** ** Inversion of successful runs *)

(** Replaces the results of arithmetic by their values. *)
Ltac math_inv :=
  repeat match goal with
  | H : dadd _ _ = Ok _ |- _ => apply dadd_Ok in H as [-> H]
  | H : dsub _ _ = Ok _ |- _ => apply dsub_Ok in H as [-> H]
  | H : dmul _ _ = Ok _ |- _ => apply dmul_Ok in H as [-> H]
  | H : ddiv _ _ = Ok _ |- _ => let Hz := fresh "Hz" in apply ddiv_Ok in H as (Hz & -> & H)
  | H : dratio _ _ = Ok _ |- _ => let Hz := fresh "Hz" in apply dratio_Ok in H as (Hz & -> & H)
  | H : uadd _ _ = Ok _ |- _ => apply uadd_Ok in H as [-> H]
  | H : usub _ _ = Ok _ |- _ => apply usub_Ok in H as [-> H]
  | H : truncate_decimal _ = Ok _ |- _ => apply truncate_decimal_Ok in H as [-> H]
  | H : into_base_decimal _ = Ok _ |- _ => apply into_base_decimal_Ok in H as [-> H]
  end.

(** One step of taking apart the runs among the hypotheses. *)
Ltac run_step :=
  match goal with
  | H : obind _ _ = Ok _ |- _ => let x := fresh "x" in let E := fresh "E" in
      apply obind_Ok_inv in H as (x & E & H)
  | H : Ok _ = Ok _ |- _ => injection H; clear H; intros; subst
  | H : Err _ = Ok _ |- _ => discriminate H
  | H : Panic _ = Ok _ |- _ => discriminate H
  | H : ensure _ _ = Ok _ |- _ => apply ensure_Ok in H
  | H : or_err _ _ = Ok _ |- _ => apply or_err_Ok in H
  | H : or_panic _ _ = Ok _ |- _ => apply or_panic_Ok in H
  | H : (if ?b then _ else _) = Ok _ |- _ => let E := fresh "C" in destruct b eqn:E
  end.

Ltac run_inv := repeat run_step.
