(* ===== verification/MixnetTypes.v ===== *)
(** * Data of the mixnet contract

    Models the types of [common/cosmwasm-smart-contracts/mixnet-contract/src]
    that the contract stores and exchanges: the errors, nodes and bonds,
    delegations, gateways, families, pending events and parameters, with the
    operations on layers and on storage keys. *)

From S2P Require Import Prelude Bytes Cosmwasm.
From Stdlib.Strings Require Import Byte.

Abbreviation MixId := Z.
Abbreviation EpochId := Z.
Abbreviation IntervalId := Z.
Abbreviation EpochEventId := Z.
Abbreviation IntervalEventId := Z.
Abbreviation BlockHeight := Z.
Abbreviation IdentityKey := string.
Abbreviation SphinxKey := string.

(** ** The epoch's state, [EpochState] of [interval.rs] *)

Inductive EpochState : Type :=
| InProgress
| Rewarding (last_rewarded final_node_id : MixId)
| ReconcilingEvents
| AdvancingEpoch.

(** ** Errors *)

Inductive ApiVerifierError : Type :=
| Verification
| ApiStd (source : StdError).

Inductive MixnetContractError : Type :=
| FailedMigration (comment : string)
| StdErr (source : StdError)
| OverflowDecimalSubtraction (minuend subtrahend : Decimal)
| OverflowSubtraction (minuend subtrahend : Z)
| InsufficientPledge (received minimum : Coin)
| InvalidPledgeReduction (current decrease_by minimum : Uint128) (denom : string)
| PendingPledgeChange (pending_event_id : EpochEventId)
| InsufficientDelegation (received minimum : Coin)
| MixNodeBondNotFound (mix_id : MixId)
| NoAssociatedMixNodeBond (owner : Addr)
| NoAssociatedGatewayBond (owner : Addr)
| AlreadyOwnsMixnode
| AlreadyOwnsGateway
| DuplicateGateway (owner : Addr)
| Unauthorized
| NoBondFound
| EmptyDelegation
| WrongDenom (received expected : string)
| MultipleDenoms
| ProxyMismatch (existing incoming : string)
| ProxyIsNotVestingContract (received vesting_contract : Addr)
| SenderIsNotVestingContract (received vesting_contract : Addr)
| MalformedEd25519IdentityKey
| MalformedEd25519Signature
| InvalidEd25519Signature
| EpochInProgress (current_block_time epoch_start epoch_end : Z)
| MixnodeAlreadyRewarded (mix_id : MixId) (absolute_epoch_id : EpochId)
| MixnodeNotInRewardedSet (mix_id : MixId) (absolute_epoch_id : EpochId)
| MixnodeIsUnbonding (mix_id : MixId)
| MixnodeHasUnbonded (mix_id : MixId)
| InconsistentState
| NoMixnodeDelegationFound (mix_id : MixId) (address : string) (proxy : option string)
| EmptyParamsChangeMsg
| InvalidActiveSetSize
| InvalidRewardedSetSize
| ZeroActiveSet
| ZeroRewardedSet
| UnexpectedActiveSetSize (received expected : Z)
| UnexpectedRewardedSetSize (received expected : Z)
| DuplicateRewardedSetNode (mix_id : MixId)
| FamilyDoesNotExist (head : string)
| FamilyLabelDoesNotExist (label : string)
| FamilyWithLabelExists (label : string)
| InvalidLayer (layer : Z)
| FamilyCanHaveOnlyOne
| AlreadyMemberOfFamily (head : string)
| CantJoinOwnFamily (head member : IdentityKey)
| CantLeaveOwnFamily (head member : IdentityKey)
| NotAMember (head member : IdentityKey)
| NotImplemented
| EpochsInIntervalZero
| EpochDurationZero
| ZeroCoinAmount
| RewardingValidatorMismatch (current_validator chosen_validator : Addr)
| EpochAdvancementInProgress (current_state : EpochState)
| UnexpectedNonRewardingEpochState (current_state : EpochState)
| RewardingOutOfOrder (last_rewarded attempted_to_reward : MixId)
| EpochNotInEventReconciliationState (current_state : EpochState)
| EpochNotInAdvancementState (current_state : EpochState)
| SemVerFailure (value error_message : string)
| SignatureVerificationFailure (source : ApiVerifierError).

Abbreviation result := (outcome MixnetContractError).

(** [?] on a library's result: the error is wrapped. *)
Definition lift_std {A} (r : outcome StdError A) : result A :=
  match r with
  | Ok x => Ok x
  | Err e => Err (StdErr e)
  | Panic p => Panic p
  end.

Lemma lift_std_Ok {A} (r : outcome StdError A) (x : A) : lift_std r = Ok x <-> r = Ok x.
Proof. destruct r; simpl; split; congruence. Qed.

(** ** Layers *)

Inductive Layer : Type := One | Two | Three.

#[export] Instance Layer_eq_dec : EqDecision Layer.
Proof. solve_decision. Defined.

(** [TryFrom<u8> for Layer] and [From<Layer> for u8]. *)
Definition layer_of_u8 (i : Z) : result Layer :=
  if i =? 1 then Ok One else if i =? 2 then Ok Two else if i =? 3 then Ok Three else Err (InvalidLayer i).

Definition layer_to_u8 (layer : Layer) : Z :=
  match layer with One => 1 | Two => 2 | Three => 3 end.

Record LayerAssignment : Type := mkAssignment { la_mix_id : MixId; la_layer : Layer }.

Module LayerDistribution.

Record t : Type := mk { layer1 : Z; layer2 : Z; layer3 : Z }.

Definition default : t := mk 0 0 0.

(** The [Index] implementation. *)
Definition index (d : t) (layer : Layer) : Z :=
  match layer with One => layer1 d | Two => layer2 d | Three => layer3 d end.

(** [min_by_key] returns the first of several minimal elements. *)
Definition choose_with_fewest (d : t) : Layer :=
  if (layer1 d <=? layer2 d) && (layer1 d <=? layer3 d) then One
  else if layer2 d <=? layer3 d then Two else Three.

Definition increment_layer_count (d : t) (layer : Layer) : result t :=
  match layer with
  | One => let? n := u64_add (layer1 d) 1 in Ok (mk n (layer2 d) (layer3 d))
  | Two => let? n := u64_add (layer2 d) 1 in Ok (mk (layer1 d) n (layer3 d))
  | Three => let? n := u64_add (layer3 d) 1 in Ok (mk (layer1 d) (layer2 d) n)
  end.

Definition decrement_layer_count (d : t) (layer : Layer) : result t :=
  let checked_sub n := if 1 <=? n then Ok (n - 1) else Err (OverflowSubtraction n 1) in
  match layer with
  | One => let? n := checked_sub (layer1 d) in Ok (mk n (layer2 d) (layer3 d))
  | Two => let? n := checked_sub (layer2 d) in Ok (mk (layer1 d) n (layer3 d))
  | Three => let? n := checked_sub (layer3 d) in Ok (mk (layer1 d) (layer2 d) n)
  end.

End LayerDistribution.

(** ** Nodes *)

Inductive RewardedSetNodeStatus : Type := Active | Standby.

#[export] Instance RewardedSetNodeStatus_eq_dec : EqDecision RewardedSetNodeStatus.
Proof. solve_decision. Defined.

Definition is_active (s : RewardedSetNodeStatus) : bool :=
  match s with Active => true | Standby => false end.

Record MixNode : Type := mkMixNode {
  host : string;
  mix_port : Z;
  verloc_port : Z;
  http_api_port : Z;
  sphinx_key : SphinxKey;
  identity_key : IdentityKey;
  version : string
}.

Record MixNodeConfigUpdate : Type := mkMixNodeConfigUpdate {
  new_host : string;
  new_mix_port : Z;
  new_verloc_port : Z;
  new_http_api_port : Z;
  new_version : string
}.

Record MixNodeCostParams : Type := mkCostParams {
  profit_margin_percent : Percent.t;
  interval_operating_cost : Coin
}.

Module MixNodeBond.

Record t : Type := mk {
  mix_id : MixId;
  owner : Addr;
  original_pledge : Coin;
  layer : Layer;
  mix_node : MixNode;
  proxy : option Addr;
  bonding_height : BlockHeight;
  is_unbonding : bool
}.

Definition new (mix_id : MixId) (owner : Addr) (original_pledge : Coin) (layer : Layer) (mix_node : MixNode)
    (proxy : option Addr) (bonding_height : BlockHeight) : t :=
  mk mix_id owner original_pledge layer mix_node proxy bonding_height false.

Definition identity (b : t) : IdentityKey := identity_key (mix_node b).

(** Updates of single fields. *)
Definition set_pledge (b : t) (c : Coin) : t :=
  mk (mix_id b) (owner b) c (layer b) (mix_node b) (proxy b) (bonding_height b) (is_unbonding b).
Definition set_layer (b : t) (l : Layer) : t :=
  mk (mix_id b) (owner b) (original_pledge b) l (mix_node b) (proxy b) (bonding_height b) (is_unbonding b).
Definition set_mix_node (b : t) (n : MixNode) : t :=
  mk (mix_id b) (owner b) (original_pledge b) (layer b) n (proxy b) (bonding_height b) (is_unbonding b).
Definition set_unbonding (b : t) : t :=
  mk (mix_id b) (owner b) (original_pledge b) (layer b) (mix_node b) (proxy b) (bonding_height b) true.

End MixNodeBond.

(** [PendingMixNodeChanges]: the identifier of a pending pledge change. *)
Record PendingMixNodeChanges : Type := mkChanges { pledge_change : option EpochEventId }.

Definition new_empty_changes : PendingMixNodeChanges := mkChanges None.

Record UnbondedMixnode : Type := mkUnbonded {
  um_identity_key : IdentityKey;
  um_owner : Addr;
  um_proxy : option Addr;
  unbonding_height : BlockHeight
}.

(** ** Delegations *)

Definition TOKEN_SUPPLY : Uint128 := 1_000_000_000_000_000.

(** [UNIT_DELEGATION_BASE], [Decimal::raw(1_000_000_000 * 10 ^ 18)]. *)
Definition UNIT_DELEGATION_BASE : Decimal := 1_000_000_000 * DECIMAL_FRACTIONAL.

(** The bytes of a string. *)
Definition string_bytes (s : string) : list byte := String.list_byte_of_string s.

(** The key of a delegation under its node: the owner's address, or, for a
    delegation made through the vesting contract, the exclusive or of the
    two addresses. *)
Definition generate_owner_storage_subkey `{ChainApi} (address : Addr) (maybe_vesting_contract : option Addr)
    : string :=
  match maybe_vesting_contract with
  | Some vesting_contract =>
      bs58_encode (zip_with (fun x y => byte_of_Z (Z.lxor (byte_to_Z x) (byte_to_Z y)))
                            (string_bytes address) (string_bytes vesting_contract))
  | None => address
  end.

Abbreviation StorageKey := (Z * string)%type.

Module Delegation.

Record t : Type := mk {
  owner : Addr;
  mix_id : MixId;
  cumulative_reward_ratio : Decimal;
  amount : Coin;
  height : BlockHeight;
  proxy : option Addr
}.

Definition new (owner : Addr) (mix_id : MixId) (cumulative_reward_ratio : Decimal) (amt : Coin)
    (height : BlockHeight) (proxy : option Addr) : result t :=
  if Cosmwasm.amount amt <=? TOKEN_SUPPLY
  then Ok (mk owner mix_id cumulative_reward_ratio amt height proxy)
  else Panic ExplicitPanic.

Definition generate_storage_key `{ChainApi} (mix_id : MixId) (owner_address : Addr) (proxy : option Addr)
    : StorageKey :=
  (mix_id, generate_owner_storage_subkey owner_address proxy).

Definition storage_key `{ChainApi} (d : t) : StorageKey :=
  generate_storage_key (mix_id d) (owner d) (proxy d).

Definition dec_amount `{CosmMath} (d : t) : outcome StdError Decimal :=
  into_base_decimal (Cosmwasm.amount (amount d)).

Definition set_ratio (d : t) (r : Decimal) : t :=
  mk (owner d) (mix_id d) r (amount d) (height d) (proxy d).

End Delegation.

(** ** Gateways *)

Record Gateway : Type := mkGateway {
  gw_host : string;
  gw_mix_port : Z;
  gw_clients_port : Z;
  gw_location : string;
  gw_sphinx_key : SphinxKey;
  gw_identity_key : IdentityKey;
  gw_version : string
}.

Record GatewayConfigUpdate : Type := mkGatewayConfigUpdate {
  gwc_host : string;
  gwc_mix_port : Z;
  gwc_clients_port : Z;
  gwc_location : string;
  gwc_version : string
}.

Module GatewayBond.

Record t : Type := mk {
  pledge_amount : Coin;
  owner : Addr;
  block_height : BlockHeight;
  gateway : Gateway;
  proxy : option Addr
}.

Definition identity (b : t) : IdentityKey := gw_identity_key (gateway b).

Definition set_gateway (b : t) (g : Gateway) : t :=
  mk (pledge_amount b) (owner b) (block_height b) g (proxy b).

End GatewayBond.

(** ** Families; a [FamilyHead] is the identity key of the head *)

Abbreviation FamilyHead := IdentityKey.

Record Family : Type := mkFamily {
  fam_head : FamilyHead;
  fam_proxy : option string;
  fam_label : string
}.

(** ** Parameters *)

Record ContractStateParams : Type := mkStateParams {
  minimum_mixnode_delegation : option Coin;
  minimum_mixnode_pledge : Coin;
  minimum_gateway_pledge : Coin
}.

Record ContractState : Type := mkContractState {
  cs_owner : Addr;
  rewarding_validator_address : Addr;
  vesting_contract_address : Addr;
  rewarding_denom : string;
  params : ContractStateParams
}.

Record IntervalRewardingParamsUpdate : Type := mkParamsUpdate {
  upd_reward_pool : option Decimal;
  upd_staking_supply : option Decimal;
  upd_staking_supply_scale_factor : option Percent.t;
  upd_sybil_resistance_percent : option Percent.t;
  upd_active_set_work_factor : option Decimal;
  upd_interval_pool_emission : option Percent.t;
  upd_rewarded_set_size : option Z
}.

(** [RewardPoolChange] of [contracts/mixnet/src/rewards/models.rs]. *)
Record RewardPoolChange : Type := mkPoolChange { removed : Decimal; added : Decimal }.

Definition default_pool_change : RewardPoolChange := mkPoolChange dec_zero dec_zero.

(** ** Pending events *)

Inductive PendingEpochEventKind : Type :=
| Delegate (owner : Addr) (mix_id : MixId) (amount : Coin) (proxy : option Addr)
| Undelegate (owner : Addr) (mix_id : MixId) (proxy : option Addr)
| PledgeMore (mix_id : MixId) (amount : Coin)
| DecreasePledge (mix_id : MixId) (decrease_by : Coin)
| UnbondMixnode (mix_id : MixId)
| UpdateActiveSetSize (new_size : Z).

Record PendingEpochEventData : Type := mkEpochEvent {
  epoch_created_at : BlockHeight;
  epoch_kind : PendingEpochEventKind
}.

Inductive PendingIntervalEventKind : Type :=
| ChangeMixCostParams (mix_id : MixId) (new_costs : MixNodeCostParams)
| UpdateRewardingParams (update : IntervalRewardingParamsUpdate)
| UpdateIntervalConfig (epochs_in_interval epoch_duration_secs : Z).

Record PendingIntervalEventData : Type := mkIntervalEvent {
  interval_created_at : BlockHeight;
  interval_kind : PendingIntervalEventKind
}.

(** ** Signed messages, [signing_types.rs]

    The contents a node owner or a family head signs; the [message_type] of
    the source is the constructor. *)

Inductive SignedContent : Type :=
| MixnodeBondingPayload (sender : Addr) (proxy : option Addr) (funds : list Coin) (mix_node : MixNode)
    (cost_params : MixNodeCostParams)
| GatewayBondingPayload (sender : Addr) (proxy : option Addr) (funds : list Coin) (gateway : Gateway)
| FamilyJoinPermit (family_head : FamilyHead) (proxy : option Addr) (member_node : IdentityKey).

Record SignableMessage : Type := mkSignable { nonce : Z; content : SignedContent }.

Definition construct_mixnode_bonding_sign_payload (nonce : Z) (sender : Addr) (proxy : option Addr)
    (pledge : Coin) (mix_node : MixNode) (cost_params : MixNodeCostParams) : SignableMessage :=
  mkSignable nonce (MixnodeBondingPayload sender proxy [pledge] mix_node cost_params).

Definition construct_gateway_bonding_sign_payload (nonce : Z) (sender : Addr) (proxy : option Addr)
    (pledge : Coin) (gateway : Gateway) : SignableMessage :=
  mkSignable nonce (GatewayBondingPayload sender proxy [pledge] gateway).

Definition construct_family_join_permit (nonce : Z) (family_head : FamilyHead) (proxy : option Addr)
    (member_node : IdentityKey) : SignableMessage :=
  mkSignable nonce (FamilyJoinPermit family_head proxy member_node).

(** The JSON encoding of a message and the chain's signature check. *)
Class SignatureApi : Type := {
  to_plaintext : SignableMessage -> outcome StdError (list byte);
  ed25519_verify : list byte -> list byte -> list byte -> option bool
}.

(** [Verifier::verify_message] for the algorithm of [SignableMessage::new]. *)
Definition verify_message `{SignatureApi} (message : SignableMessage) (signature public_key : list byte)
    : result bool :=
  match to_plaintext message with
  | Ok plaintext =>
      match ed25519_verify plaintext signature public_key with
      | Some b => Ok b
      | None => Err (SignatureVerificationFailure Verification)
      end
  | Err e => Err (SignatureVerificationFailure (ApiStd e))
  | Panic p => Panic p
  end.

(** ** Messages a transaction emits

    [BankMsg::Send] and the messages to the vesting contract, which carry no
    funds. *)

Inductive VestingMsg : Type :=
| TrackReward (amount : Coin) (address : string)
| TrackUndelegation (owner : string) (mix_id : MixId) (amount : Coin)
| TrackUnbondMixnode (owner : string) (amount : Coin)
| TrackDecreasePledge (owner : string) (amount : Coin)
| TrackUnbondGateway (owner : string) (amount : Coin).

Inductive CosmosMsg : Type :=
| BankSend (to_address : string) (amount : list Coin)
| WasmExecute (contract : Addr) (msg : VestingMsg).

(** [Response]: its messages; events and attributes are not modelled. *)
Abbreviation Response := (list CosmosMsg).

(** ** Inversion of successful runs *)

Ltac run_inv_std :=
  repeat first [run_step | match goal with H : lift_std _ = Ok _ |- _ => apply lift_std_Ok in H end].

Ltac num_inv :=
  math_inv;
  repeat match goal with
  | H : u32_add _ _ = Ok _ |- _ => apply u32_add_Ok in H as [-> H]
  | H : u64_add _ _ = Ok _ |- _ => apply u64_add_Ok in H as [-> H]
  | H : u32_sub _ _ = Ok _ |- _ => apply u32_sub_Ok in H as [-> H]
  end.

(** Everything a successful run of the goal's hypotheses says. *)
Ltac run_all := run_inv_std; num_inv.
