(* ===== verification/Rewarding.v ===== *)
(** * Rewarding of mixnodes

    Models [reward_params.rs], [mixnode.rs] (the rewarding part),
    [rewarding/mod.rs], [rewarding/helpers.rs] and the initial parameters of
    [msg.rs] in [common/cosmwasm-smart-contracts/mixnet-contract/src]: the
    parameters of the reward function, the tokens of a node's operator and
    delegators, and how an epoch's reward is computed, split and claimed. *)

From S2P Require Import Prelude Bytes Cosmwasm MixnetTypes.

(** [truncate_reward]: the whole coins of a decimal amount. *)
Definition truncate_reward `{CosmMath} (reward : Decimal) (denom : string) : result Coin :=
  let? amount := truncate_decimal reward in
  Ok (mkCoin denom amount).

(** ** Parameters *)

Record IntervalRewardParams : Type := mkIntervalParams {
  reward_pool : Decimal;
  staking_supply : Decimal;
  staking_supply_scale_factor : Percent.t;
  epoch_reward_budget : Decimal;
  stake_saturation_point : Decimal;
  sybil_resistance : Percent.t;
  active_set_work_factor : Decimal;
  interval_pool_emission : Percent.t
}.

(** [NodeRewardParams]. *)
Record NodeRewardParams : Type := mkNodeParams { performance : Percent.t; in_active_set : bool }.

Definition contains_updates (u : IntervalRewardingParamsUpdate) : bool :=
  bool_decide (is_Some (upd_reward_pool u)) || bool_decide (is_Some (upd_staking_supply u))
  || bool_decide (is_Some (upd_staking_supply_scale_factor u))
  || bool_decide (is_Some (upd_sybil_resistance_percent u))
  || bool_decide (is_Some (upd_active_set_work_factor u))
  || bool_decide (is_Some (upd_interval_pool_emission u))
  || bool_decide (is_Some (upd_rewarded_set_size u)).

(** A field that is overwritten when the update has a value for it. *)
Definition overwrite {A} (o : option A) (x : A) : A := default x o.

Module RewardingParams.

Record t : Type := mk {
  interval : IntervalRewardParams;
  rewarded_set_size : Z;
  active_set_size : Z
}.

Definition set_active_set_size (p : t) (n : Z) : t := mk (interval p) (rewarded_set_size p) n.

(** The interval's parameters with new computed values. *)
Definition set_budget (i : IntervalRewardParams) (budget : Decimal) : IntervalRewardParams :=
  mkIntervalParams (reward_pool i) (staking_supply i) (staking_supply_scale_factor i) budget
    (stake_saturation_point i) (sybil_resistance i) (active_set_work_factor i) (interval_pool_emission i).

Definition set_saturation_point (i : IntervalRewardParams) (point : Decimal) : IntervalRewardParams :=
  mkIntervalParams (reward_pool i) (staking_supply i) (staking_supply_scale_factor i) (epoch_reward_budget i)
    point (sybil_resistance i) (active_set_work_factor i) (interval_pool_emission i).

Section Operations.
Context `{CosmMath}.

(** [.into_base_decimal().unwrap()]. *)
Definition base_decimal (n : Z) : result Decimal := unwrap (into_base_decimal n).

Definition dec_rewarded_set_size (p : t) : result Decimal := base_decimal (rewarded_set_size p).

Definition dec_standby_set_size (p : t) : result Decimal :=
  let? n := u32_sub (rewarded_set_size p) (active_set_size p) in
  base_decimal n.

Definition standby_node_work (p : t) : result Decimal :=
  let f := active_set_work_factor (interval p) in
  let? k := dec_rewarded_set_size p in
  let one := dec_one in
  let? k_r := dec_standby_set_size p in
  let? fk := dmul f k in
  let? f1 := dsub f one in
  let? f1kr := dmul f1 k_r in
  let? d := dsub fk f1kr in
  ddiv one d.

Definition active_node_work (p : t) : result Decimal :=
  let? w := standby_node_work p in
  dmul (active_set_work_factor (interval p)) w.

Definition apply_epochs_in_interval_change (p : t) (new_epochs_in_interval : Z) : result t :=
  let? n := base_decimal new_epochs_in_interval in
  let? per_epoch := ddiv (reward_pool (interval p)) n in
  let? budget := Percent.mul (interval_pool_emission (interval p)) per_epoch in
  Ok (mk (set_budget (interval p) budget) (rewarded_set_size p) (active_set_size p)).

Definition try_change_active_set_size (p : t) (new_active_set_size : Z) : result t :=
  if new_active_set_size =? 0 then Err ZeroActiveSet
  else if rewarded_set_size p <? new_active_set_size then Err InvalidActiveSetSize
  else Ok (set_active_set_size p new_active_set_size).

(** The plain fields of an update. *)
Definition apply_interval_fields (i : IntervalRewardParams) (u : IntervalRewardingParamsUpdate)
    : IntervalRewardParams :=
  mkIntervalParams
    (overwrite (upd_reward_pool u) (reward_pool i))
    (overwrite (upd_staking_supply u) (staking_supply i))
    (overwrite (upd_staking_supply_scale_factor u) (staking_supply_scale_factor i))
    (epoch_reward_budget i) (stake_saturation_point i)
    (overwrite (upd_sybil_resistance_percent u) (sybil_resistance i))
    (overwrite (upd_active_set_work_factor u) (active_set_work_factor i))
    (overwrite (upd_interval_pool_emission u) (interval_pool_emission i)).

(** The new size of the rewarded set, if it may be set. *)
Definition apply_rewarded_set_size (p : t) (u : IntervalRewardingParamsUpdate) : result Z :=
  match upd_rewarded_set_size u with
  | Some n =>
      if n =? 0 then Err ZeroRewardedSet
      else if n <? active_set_size p then Err InvalidRewardedSetSize
      else Ok n
  | None => Ok (rewarded_set_size p)
  end.

Definition try_apply_updates (p : t) (u : IntervalRewardingParamsUpdate) (epochs_in_interval : Z) : result t :=
  let? _ := ensure (contains_updates u) EmptyParamsChangeMsg in
  let i := apply_interval_fields (interval p) u in
  let? size := apply_rewarded_set_size p u in
  let recompute_epoch_budget :=
    bool_decide (is_Some (upd_reward_pool u)) || bool_decide (is_Some (upd_interval_pool_emission u)) in
  let recompute_saturation_point :=
    bool_decide (is_Some (upd_staking_supply u)) || bool_decide (is_Some (upd_rewarded_set_size u)) in
  let? i :=
    (if recompute_epoch_budget then
       let? n := lift_std (into_base_decimal epochs_in_interval) in
       let? per_epoch := ddiv (reward_pool i) n in
       let? budget := Percent.mul (interval_pool_emission i) per_epoch in
       Ok (set_budget i budget)
     else Ok i) in
  let? i :=
    (if recompute_saturation_point then
       let? n := lift_std (into_base_decimal size) in
       let? point := ddiv (staking_supply i) n in
       Ok (set_saturation_point i point)
     else Ok i) in
  Ok (mk i size (active_set_size p)).

End Operations.

End RewardingParams.

(** [InitialRewardingParams] of [msg.rs]. *)
Record InitialRewardingParams : Type := mkInitialParams {
  initial_reward_pool : Decimal;
  initial_staking_supply : Decimal;
  init_staking_supply_scale_factor : Percent.t;
  init_sybil_resistance : Percent.t;
  init_active_set_work_factor : Decimal;
  init_interval_pool_emission : Percent.t;
  init_rewarded_set_size : Z;
  init_active_set_size : Z
}.

Definition into_rewarding_params `{CosmMath} (p : InitialRewardingParams) (epochs_in_interval : Z)
    : result RewardingParams.t :=
  let? n := lift_std (into_base_decimal epochs_in_interval) in
  let? per_epoch := ddiv (initial_reward_pool p) n in
  let? epoch_reward_budget := Percent.mul (init_interval_pool_emission p) per_epoch in
  let? size := lift_std (into_base_decimal (init_rewarded_set_size p)) in
  let? stake_saturation_point := ddiv (initial_staking_supply p) size in
  Ok (RewardingParams.mk
        (mkIntervalParams (initial_reward_pool p) (initial_staking_supply p)
           (init_staking_supply_scale_factor p) epoch_reward_budget stake_saturation_point
           (init_sybil_resistance p) (init_active_set_work_factor p) (init_interval_pool_emission p))
        (init_rewarded_set_size p) (init_active_set_size p)).

(** [RewardDistribution]. *)
Record RewardDistribution : Type := mkDistribution { rd_operator : Decimal; rd_delegates : Decimal }.

(** [MixNodeCostParams::epoch_operating_cost]. *)
Definition epoch_operating_cost `{CosmMath} (c : MixNodeCostParams) (epochs_in_interval : Z) : result Decimal :=
  dratio (amount (interval_operating_cost c)) epochs_in_interval.

(** ** A node's tokens *)

Module MixNodeRewarding.

Record t : Type := mk {
  cost_params : MixNodeCostParams;
  operator : Decimal;
  delegates : Decimal;
  total_unit_reward : Decimal;
  unit_delegation : Decimal;
  last_rewarded_epoch : EpochId;
  unique_delegations : Z
}.

Definition set_operator (n : t) (x : Decimal) : t :=
  mk (cost_params n) x (delegates n) (total_unit_reward n) (unit_delegation n) (last_rewarded_epoch n)
    (unique_delegations n).
Definition set_delegates (n : t) (x : Decimal) : t :=
  mk (cost_params n) (operator n) x (total_unit_reward n) (unit_delegation n) (last_rewarded_epoch n)
    (unique_delegations n).
Definition set_cost_params (n : t) (c : MixNodeCostParams) : t :=
  mk c (operator n) (delegates n) (total_unit_reward n) (unit_delegation n) (last_rewarded_epoch n)
    (unique_delegations n).
Definition set_last_rewarded (n : t) (e : EpochId) : t :=
  mk (cost_params n) (operator n) (delegates n) (total_unit_reward n) (unit_delegation n) e
    (unique_delegations n).
Definition set_unique_delegations (n : t) (k : Z) : t :=
  mk (cost_params n) (operator n) (delegates n) (total_unit_reward n) (unit_delegation n)
    (last_rewarded_epoch n) k.

Definition still_bonded (n : t) : bool := negb (operator n =? dec_zero).

Definition full_reward_ratio (n : t) : Decimal := total_unit_reward n.

Section Operations.
Context `{CosmMath}.

Definition initialise_new (cost_params : MixNodeCostParams) (initial_pledge : Coin) (current_epoch : EpochId)
    : result t :=
  if amount initial_pledge <=? TOKEN_SUPPLY then
    let? operator := lift_std (into_base_decimal (amount initial_pledge)) in
    Ok (mk cost_params operator dec_zero dec_zero UNIT_DELEGATION_BASE current_epoch 0)
  else Panic ExplicitPanic.

Definition operator_pledge_with_reward (n : t) (denom : string) : result Coin :=
  truncate_reward (operator n) denom.

Definition pending_operator_reward (n : t) (original_pledge : Coin) : result Coin :=
  let? reward_with_pledge := truncate_reward (operator n) (denom original_pledge) in
  let? rest := usub (amount reward_with_pledge) (amount original_pledge) in
  Ok (mkCoin (denom reward_with_pledge) rest).

Definition pending_detailed_operator_reward (n : t) (original_pledge : Coin) : result Decimal :=
  let? initial_dec := lift_std (into_base_decimal (amount original_pledge)) in
  if operator n <? initial_dec then Panic ExplicitPanic else dsub (operator n) initial_dec.

Definition withdraw_operator_reward (n : t) (original_pledge : Coin) : result (Coin * t) :=
  let? initial_dec := lift_std (into_base_decimal (amount original_pledge)) in
  if operator n <? initial_dec then Panic ExplicitPanic
  else
    let? diff := dsub (operator n) initial_dec in
    let? reward := truncate_reward diff (denom original_pledge) in
    Ok (reward, set_operator n initial_dec).

Definition node_bond (n : t) : result Decimal := dadd (operator n) (delegates n).

Definition pledge_saturation (n : t) (p : RewardingParams.t) : result Decimal :=
  let point := stake_saturation_point (RewardingParams.interval p) in
  if point <? operator n then Ok dec_one else ddiv (operator n) point.

Definition bond_saturation (n : t) (p : RewardingParams.t) : result Decimal :=
  let point := stake_saturation_point (RewardingParams.interval p) in
  let? bond := node_bond n in
  if point <? bond then Ok dec_one else ddiv bond point.

Definition uncapped_bond_saturation (n : t) (p : RewardingParams.t) : result Decimal :=
  let? bond := node_bond n in
  ddiv bond (stake_saturation_point (RewardingParams.interval p)).

Definition node_reward (n : t) (p : RewardingParams.t) (node_params : NodeRewardParams) : result Decimal :=
  let? work := (if in_active_set node_params then RewardingParams.active_node_work p
                else RewardingParams.standby_node_work p) in
  let alpha := Percent.value (sybil_resistance (RewardingParams.interval p)) in
  let? r := dmul (epoch_reward_budget (RewardingParams.interval p)) (Percent.value (performance node_params)) in
  let? bond_sat := bond_saturation n p in
  let? r := dmul r bond_sat in
  let? pledge_sat := pledge_saturation n p in
  let? a := dmul alpha pledge_sat in
  let? k := RewardingParams.dec_rewarded_set_size p in
  let? a := ddiv a k in
  let? w := dadd work a in
  let? r := dmul r w in
  let? d := dadd dec_one alpha in
  ddiv r d.

Definition determine_reward_split (n : t) (node_reward : Decimal) (node_performance : Percent.t)
    (epochs_in_interval : Z) : result RewardDistribution :=
  let? cost := epoch_operating_cost (cost_params n) epochs_in_interval in
  let? node_cost := dmul cost (Percent.value node_performance) in
  if node_cost <? node_reward then
    let? profit := dsub node_reward node_cost in
    let profit_margin := Percent.value (profit_margin_percent (cost_params n)) in
    let one := dec_one in
    let? bond := node_bond n in
    let? operator_share := ddiv (operator n) bond in
    let? rest := dsub one profit_margin in
    let? rest := dmul rest operator_share in
    let? share := dadd profit_margin rest in
    let? operator := dmul profit share in
    let? delegates := dsub profit operator in
    let? operator := dadd operator node_cost in
    Ok (mkDistribution operator delegates)
  else Ok (mkDistribution node_reward dec_zero).

Definition calculate_epoch_reward (n : t) (p : RewardingParams.t) (node_params : NodeRewardParams)
    (epochs_in_interval : Z) : result RewardDistribution :=
  let? r := node_reward n p node_params in
  determine_reward_split n r (performance node_params) epochs_in_interval.

Definition delegator_share (n : t) (amount : Decimal) : result Decimal :=
  if delegates n =? 0 then Ok dec_zero else ddiv amount (delegates n).

Definition distribute_rewards (n : t) (distribution : RewardDistribution) (absolute_epoch_id : EpochId)
    : result t :=
  let? unit := dadd (unit_delegation n) (total_unit_reward n) in
  let? share := delegator_share n unit in
  let? unit_delegation_reward := dmul (rd_delegates distribution) share in
  let? op := dadd (operator n) (rd_operator distribution) in
  let? del := dadd (delegates n) (rd_delegates distribution) in
  let? total := dadd (total_unit_reward n) unit_delegation_reward in
  Ok (mk (cost_params n) op del total (unit_delegation n) absolute_epoch_id (unique_delegations n)).

Definition epoch_rewarding (n : t) (p : RewardingParams.t) (node_params : NodeRewardParams)
    (epochs_in_interval : Z) (absolute_epoch_id : EpochId) : result t :=
  let? distribution := calculate_epoch_reward n p node_params epochs_in_interval in
  distribute_rewards n distribution absolute_epoch_id.

Definition determine_delegation_reward (n : t) (d : Delegation.t) : result Decimal :=
  let starting_ratio := Delegation.cumulative_reward_ratio d in
  let ending_ratio := full_reward_ratio n in
  let? adjust := dadd starting_ratio (unit_delegation n) in
  let? gain := dsub ending_ratio starting_ratio in
  let? amount := lift_std (Delegation.dec_amount d) in
  let? r := dmul gain amount in
  ddiv r adjust.

Definition pending_delegator_reward (n : t) (d : Delegation.t) : result Coin :=
  let? delegator_reward := determine_delegation_reward n d in
  truncate_reward delegator_reward (denom (Delegation.amount d)).

Definition increase_operator_uint128 (n : t) (amount : Uint128) : result t :=
  let? a := lift_std (into_base_decimal amount) in
  let? op := dadd (operator n) a in
  Ok (set_operator n op).

Definition decrease_operator_decimal (n : t) (amount : Decimal) : result t :=
  if operator n <? amount then Err (OverflowDecimalSubtraction (operator n) amount)
  else
    let? op := dsub (operator n) amount in
    Ok (set_operator n op).

Definition decrease_operator_uint128 (n : t) (amount : Uint128) : result t :=
  let? amount_decimal := lift_std (into_base_decimal amount) in
  if operator n <? amount_decimal then Err (OverflowDecimalSubtraction (operator n) amount_decimal)
  else
    let? op := dsub (operator n) amount_decimal in
    Ok (set_operator n op).

Definition increase_delegates_uint128 (n : t) (amount : Uint128) : result t :=
  let? a := lift_std (into_base_decimal amount) in
  let? del := dadd (delegates n) a in
  Ok (set_delegates n del).

Definition add_base_delegation (n : t) (amount : Uint128) : result t :=
  let? n := increase_delegates_uint128 n amount in
  let? k := u32_add (unique_delegations n) 1 in
  Ok (set_unique_delegations n k).

Definition decrease_delegates_decimal (n : t) (amount : Decimal) : result t :=
  if delegates n <? amount then Err (OverflowDecimalSubtraction (delegates n) amount)
  else
    let? del := dsub (delegates n) amount in
    Ok (set_delegates n del).

Definition decrease_delegates_uint128 (n : t) (amount : Uint128) : result t :=
  let? amount_dec := lift_std (into_base_decimal amount) in
  decrease_delegates_decimal n amount_dec.

Definition decrement_unique_delegations (n : t) : result t :=
  if unique_delegations n =? 0 then Err (OverflowSubtraction 0 1)
  else
    let? k := u32_sub (unique_delegations n) 1 in
    Ok (set_unique_delegations n k).

Definition remove_delegation_uint128 (n : t) (amount : Uint128) : result t :=
  let? n := decrease_delegates_uint128 n amount in
  decrement_unique_delegations n.

Definition remove_delegation_decimal (n : t) (amount : Decimal) : result t :=
  let? n := decrease_delegates_decimal n amount in
  let? n := decrement_unique_delegations n in
  if unique_delegations n =? 0 then
    let? op := dadd (operator n) (delegates n) in
    Ok (set_delegates (set_operator n op) dec_zero)
  else Ok n.

Definition undelegate (n : t) (d : Delegation.t) : result (Coin * t) :=
  let? reward := determine_delegation_reward n d in
  let? amount := lift_std (Delegation.dec_amount d) in
  let? full_amount := dadd reward amount in
  let? n := remove_delegation_decimal n full_amount in
  let? coin := truncate_reward full_amount (denom (Delegation.amount d)) in
  Ok (coin, n).

(** The coin, the node and the delegation, which starts afresh. *)
Definition withdraw_delegator_reward (n : t) (d : Delegation.t) : result (Coin * t * Delegation.t) :=
  let? reward := determine_delegation_reward n d in
  let? n := decrease_delegates_decimal n reward in
  let d' := Delegation.set_ratio d (full_reward_ratio n) in
  let? coin := truncate_reward reward (denom (Delegation.amount d)) in
  Ok (coin, n, d').

End Operations.

End MixNodeRewarding.

Import MixNodeRewarding.

(** ** Conservation *)

Section Conservation.
Context `{CosmMath} `{!CosmMathLaws}.

(** The tokens of a node. *)
Definition tokens (n : t) : Z := operator n + delegates n.

Lemma split_conserves n r perf k d :
  determine_reward_split n r perf k = Ok d -> rd_operator d + rd_delegates d = r.
Proof.
  intros Hd. unfold determine_reward_split in Hd. run_inv; math_inv; simpl; unfold dec_zero; lia.
Qed.

Lemma distribute_conserves n d e n' :
  distribute_rewards n d e = Ok n' -> tokens n' = tokens n + rd_operator d + rd_delegates d.
Proof.
  intros Hd. unfold distribute_rewards in Hd. run_inv. math_inv. unfold tokens; simpl. lia.
Qed.

Lemma split_nonneg n r perf k d :
  0 <= r -> determine_reward_split n r perf k = Ok d -> 0 <= rd_operator d /\ 0 <= rd_delegates d.
Proof.
  intros Hr Hd. unfold determine_reward_split in Hd. run_inv; math_inv; simpl; unfold is_u128, dec_zero in *; lia.
Qed.

Lemma node_reward_nonneg n p np r : node_reward n p np = Ok r -> 0 <= r.
Proof.
  intros Hr. unfold node_reward in Hr. run_inv; math_inv;
    by match goal with H : is_u128 (_ * _ / (_ + _)) |- _ => destruct H end.
Qed.

(** The reward of a node for an epoch goes to its operator and its delegators in full, neither
    loses tokens, and the value of a unit of delegation does not fall. *)
Theorem epoch_reward_is_conserved n p node_params epochs_in_interval epoch r n' :
  node_reward n p node_params = Ok r -> epoch_rewarding n p node_params epochs_in_interval epoch = Ok n' ->
  tokens n' = tokens n + r /\ operator n <= operator n' /\ delegates n <= delegates n' /\
  total_unit_reward n <= total_unit_reward n' /\ last_rewarded_epoch n' = epoch.
Proof.
  intros Hr Hn. unfold epoch_rewarding, calculate_epoch_reward in Hn. rewrite Hr in Hn. cbn [obind] in Hn.
  run_step. pose proof (split_conserves _ _ _ _ _ E) as Hsum. pose proof (distribute_conserves _ _ _ _ Hn) as Htok.
  apply node_reward_nonneg in Hr. destruct (split_nonneg _ _ _ _ _ Hr E) as [Ho Hd].
  unfold distribute_rewards in Hn. run_inv. math_inv. simpl in *. unfold is_u128 in *. lia.
Qed.

End Conservation.

(** ** The budget of an epoch *)

Abbreviation F := DECIMAL_FRACTIONAL.

Lemma F_pos : 0 < F.
Proof. unfold DECIMAL_FRACTIONAL. lia. Qed.

Lemma div_mul_le a b : 0 < b -> a / b * b <= a.
Proof. intros. rewrite Z.mul_comm. by apply Z.mul_div_le. Qed.

(** Scaling by a fraction of at most one. *)
Lemma scale_le a b c : 0 <= a -> 0 <= b <= c -> 0 < c -> 0 <= a * b / c <= a.
Proof.
  intros Ha Hb Hc. split; [apply Z.div_pos; nia|]. apply Z.div_le_upper_bound; nia.
Qed.

Section Budget.
Context `{CosmMath} `{!CosmMathLaws} (p : RewardingParams.t).

#[local] Abbreviation budget := (epoch_reward_budget (RewardingParams.interval p)).
#[local] Abbreviation alpha := (Percent.value (sybil_resistance (RewardingParams.interval p))).
#[local] Abbreviation f := (active_set_work_factor (RewardingParams.interval p)).
#[local] Abbreviation k := (RewardingParams.rewarded_set_size p).
#[local] Abbreviation ka := (RewardingParams.active_set_size p).

Lemma base_decimal_Ok n c : RewardingParams.base_decimal n = Ok c -> c = n * F /\ is_u128 c.
Proof.
  unfold RewardingParams.base_decimal, unwrap.
  destruct (into_base_decimal n) as [c'| |] eqn:E; try done. intros [= <-]. by apply into_base_decimal_Ok in E.
Qed.

(** The work shares: the active set and the standby set together do at most all of it. *)
Lemma standby_node_work_Ok w :
  RewardingParams.standby_node_work p = Ok w ->
  F <= f /\ ka <= k /\ 0 < f * ka + F * (k - ka) /\ 0 <= w /\ w * (f * ka + F * (k - ka)) <= F * F.
Proof.
  intros Hw. unfold RewardingParams.standby_node_work, RewardingParams.dec_standby_set_size,
    RewardingParams.dec_rewarded_set_size in Hw. run_inv.
  apply base_decimal_Ok in E as [-> _], E0 as [-> _]. num_inv. rename E5 into Hk. unfold dec_one in *. pose proof F_pos as HF.
  rewrite (Z.mul_assoc f k), Z.div_mul in * by lia.
  rewrite (Z.mul_assoc (f - F) (k - ka)), Z.div_mul in * by lia.
  replace (f * k - (f - F) * (k - ka)) with (f * ka + F * (k - ka)) in * by ring.
  split_and!; [|lia| | |].
  - destruct E2 as [? _]. unfold is_u128 in *. lia.
  - destruct E4 as [? _]. lia.
  - destruct Hw as [? _]. done.
  - apply div_mul_le. destruct E4 as [? _]. lia.
Qed.

Lemma active_node_work_Ok w :
  RewardingParams.active_node_work p = Ok w ->
  exists sw, RewardingParams.standby_node_work p = Ok sw /\ sw <= w /\ w * F <= f * sw.
Proof.
  intros Ha. unfold RewardingParams.active_node_work in Ha. run_inv. math_inv.
  exists x. split; [done|]. apply standby_node_work_Ok in E as (Hf & _ & _ & Hw & _). pose proof F_pos.
  split; [apply Z.div_le_lower_bound; nia|]. apply div_mul_le. lia.
Qed.

(** Values that any node and any epoch have. *)
Definition node_nonneg (n : t) : Prop := 0 <= operator n /\ 0 <= delegates n.
Definition budget_params_ok : Prop := 0 <= budget /\ 0 <= alpha.

Lemma bond_saturation_le n x : node_nonneg n -> bond_saturation n p = Ok x -> 0 <= x <= F.
Proof.
  intros [? ?] Hx. unfold bond_saturation, node_bond in Hx. pose proof F_pos. run_inv; math_inv.
  - unfold dec_one. lia.
  - apply Z.ltb_ge in C. unfold is_u128 in *. rewrite Z.mul_comm. apply scale_le; lia.
Qed.

Lemma pledge_saturation_le n x : node_nonneg n -> pledge_saturation n p = Ok x -> 0 <= x <= F.
Proof.
  intros [? ?] Hx. unfold pledge_saturation in Hx. pose proof F_pos. run_inv; math_inv.
  - unfold dec_one. lia.
  - apply Z.ltb_ge in C. unfold is_u128 in *. rewrite Z.mul_comm. apply scale_le; lia.
Qed.

(** The work of a node, by its status. *)
Definition node_work (np : NodeRewardParams) : result Decimal :=
  if in_active_set np then RewardingParams.active_node_work p else RewardingParams.standby_node_work p.

Lemma node_reward_bound n np r :
  budget_params_ok -> node_nonneg n -> Percent.valid (performance np) -> node_reward n p np = Ok r ->
  exists w a, node_work np = Ok w /\ 0 < k /\ a * k <= alpha /\ r * (F + alpha) <= budget * (w + a).
Proof.
  intros [Hb Ha] Hn Hperf Hr. unfold node_reward in Hr. fold (node_work np) in Hr. pose proof F_pos as HF.
  run_inv. unfold RewardingParams.dec_rewarded_set_size in E5. apply base_decimal_Ok in E5 as [-> Hk].
  apply bond_saturation_le in E1; [|done]. apply pledge_saturation_le in E3; [|done].
  math_inv. unfold Percent.valid, dec_one, is_u128 in *.
  set (B := budget * Percent.value (performance np) / F * x1 / F).
  set (A := alpha * x3 / F) in *. set (a := A * F / (k * F)) in *. set (X := B * (x + a) / F) in *.
  assert (0 <= B <= budget) as HB.
  { unfold B. pose proof (scale_le budget (Percent.value (performance np)) F) as H1.
    pose proof (scale_le (budget * Percent.value (performance np) / F) x1 F) as H2. lia. }
  assert (0 <= A <= alpha) as HA by (apply scale_le; lia).
  assert (0 < k) as Hk0 by nia.
  exists x, a. split_and!; [done|done| |].
  - unfold a. rewrite Z.div_mul_cancel_r by lia. pose proof (div_mul_le A k Hk0). lia.
  - pose proof (div_mul_le (X * F) (F + alpha)) as H3. pose proof (div_mul_le (B * (x + a)) F HF) as H4.
    fold X in H4. etransitivity; [apply H3; lia|]. etransitivity; [exact H4|]. apply Z.mul_le_mono_nonneg_r; lia.
Qed.

(** With the work of a standby node, that of an active one. *)
Definition active_or (sw : Decimal) : Decimal :=
  match RewardingParams.active_node_work p with Ok aw => aw | _ => sw end.

Lemma active_or_bounds sw :
  RewardingParams.standby_node_work p = Ok sw -> sw <= active_or sw /\ active_or sw * F <= f * sw.
Proof.
  intros Hsw. unfold active_or. destruct (RewardingParams.active_node_work p) as [aw| |] eqn:E.
  - apply active_node_work_Ok in E as (sw' & Hsw' & ?). rewrite Hsw in Hsw'. by simplify_eq.
  - apply standby_node_work_Ok in Hsw. nia.
  - apply standby_node_work_Ok in Hsw. nia.
Qed.

Lemma node_work_Ok np w sw :
  node_work np = Ok w -> RewardingParams.standby_node_work p = Ok sw ->
  w = if in_active_set np then active_or sw else sw.
Proof.
  unfold node_work, active_or. destruct (in_active_set np); [|congruence]. by intros ->.
Qed.

Lemma node_work_standby np w : node_work np = Ok w -> exists sw, RewardingParams.standby_node_work p = Ok sw.
Proof.
  unfold node_work. destruct (in_active_set np); [|eauto].
  intros (sw & ? & _)%active_node_work_Ok. eauto.
Qed.

(** The total work of a set of nodes that is not larger than the rewarded set. *)
Lemma total_work_le nps ws :
  Forall2 (fun np w => node_work np = Ok w) nps ws ->
  len (filter (fun np => in_active_set np = true) nps) <= ka -> len nps <= k -> zsum ws <= F.
Proof.
  intros Hall Hact Hlen. pose proof F_pos as HF.
  destruct nps as [|np nps]; [apply Forall2_nil_inv_l in Hall as ->; simpl; lia|].
  assert (exists sw, RewardingParams.standby_node_work p = Ok sw) as (sw & Hsw).
  { destruct ws; inversion Hall; subst. by eapply node_work_standby. }
  revert Hact Hlen Hall. generalize (np :: nps). clear np nps. intros nps Hact Hlen Hall.
  pose proof (len_nonneg (filter (fun np => in_active_set np = true) nps)) as Hna.
  assert (zsum ws = sw * len nps + (active_or sw - sw) * len (filter (fun np => in_active_set np = true) nps)) as ->.
  { clear Hact Hlen Hna. induction Hall as [|np w nps ws Hw Hall IH]; [unfold len; simpl; lia|].
    rewrite zsum_cons, IH, filter_cons, len_cons, (node_work_Ok np w sw Hw Hsw).
    destruct (in_active_set np); [rewrite decide_True by done|rewrite decide_False by done]; autorewrite with len; ring. }
  pose proof (active_or_bounds sw Hsw) as [H1 H2].
  apply standby_node_work_Ok in Hsw as (Hf & Hk & Hd & Hw0 & Hw).
  assert (sw * k + (active_or sw - sw) * ka <= F) by nia. nia.
Qed.

(** C22: an epoch never pays out more than its budget.  For any nodes of a rewarded set, of which
    at most [active_set_size] are active and there are at most [rewarded_set_size], the rewards
    computed by [node_reward] add up to at most the epoch's reward budget, whatever their stake
    and performance and in spite of the roundings. *)
Theorem epoch_rewards_within_budget (nodes : list (t * NodeRewardParams)) (rs : list Decimal) :
  budget_params_ok -> Forall (fun '(n, np) => node_nonneg n /\ Percent.valid (performance np)) nodes ->
  Forall2 (fun '(n, np) r => node_reward n p np = Ok r) nodes rs ->
  len (filter (fun '(n, np) => in_active_set np = true) nodes) <= ka -> len nodes <= k ->
  zsum rs <= budget.
Proof.
  intros Hp Hok Hr Hact Hlen. destruct Hp as [Hb Ha] eqn:Ep. clear Ep. pose proof F_pos as HF.
  assert (exists ws, Forall2 (fun np w => node_work np = Ok w) (snd <$> nodes) ws /\
    zsum rs * (F + alpha) * k <= budget * (zsum ws * k + len nodes * alpha)) as (ws & Hws & Hsum).
  { clear Hact Hlen. induction Hr as [|[n np] r nodes rs Hr Hrs IH].
    { exists []. split; [constructor|]. unfold len; simpl. lia. }
    apply Forall_cons in Hok as [[Hn Hperf] Hok']. destruct (IH Hok') as (ws & Hws & Hsum).
    destruct (node_reward_bound n np r Hp Hn Hperf Hr) as (w & a & Hw & Hk & Hak & Hra).
    exists (w :: ws). split; [by constructor|]. rewrite !zsum_cons, len_cons.
    assert (r * (F + alpha) * k <= budget * (w * k + alpha)); [|lia].
    transitivity (budget * (w + a) * k); [by apply Z.mul_le_mono_nonneg_r; lia|].
    rewrite <- Z.mul_assoc. apply Z.mul_le_mono_nonneg_l; lia. }
  assert (zsum ws <= F) as HwF.
  { eapply total_work_le; [exact Hws| |]; [|by rewrite len_fmap].
    etransitivity; [|exact Hact]. clear. induction nodes as [|[n np] nodes IH]; [done|].
    rewrite fmap_cons, !filter_cons. simpl. repeat case_decide; try done; autorewrite with len; lia. }
  destruct (decide (nodes = [])) as [->|Hne]; [inversion Hr; simpl; lia|].
  assert (0 < k) as Hk by (destruct nodes; [done|rewrite len_cons in Hlen; pose proof (len_nonneg nodes); lia]).
  assert (zsum rs * (F + alpha) <= budget * (F + alpha)); [|nia].
  apply (Zorder.Zmult_lt_0_le_reg_r _ _ k); [done|]. etransitivity; [exact Hsum|].
  rewrite <- Z.mul_assoc. apply Z.mul_le_mono_nonneg_l; [done|].
  pose proof (Z.mul_le_mono_nonneg_r (zsum ws) F k). pose proof (Z.mul_le_mono_nonneg_r (len nodes) k alpha). lia.
Qed.

End Budget.

(** Two saturated nodes, one active and one on standby, with a reward budget of 1000 tokens. *)
Definition sample_params : RewardingParams.t :=
  RewardingParams.mk
    (mkIntervalParams (250_000_000 * F) (100_000_000 * F) (Percent.mk dec_one) (1000 * F) (1_000_000 * F)
       (Percent.mk (3 * F / 10)) (10 * F) (Percent.mk (2 * F / 100))) 2 1.

Definition sample_node : t :=
  mk (mkCostParams (Percent.mk (F / 10)) (mkCoin "unym" 40)) (600_000 * F) (400_000 * F) 0
    UNIT_DELEGATION_BASE 0 3.

Lemma epoch_reward_is_conserved_witness :
  exists r n', @node_reward fixed_point sample_node sample_params (mkNodeParams Percent.hundred true) = Ok r /\
    @epoch_rewarding fixed_point sample_node sample_params (mkNodeParams Percent.hundred true) 720 9 = Ok n' /\
    tokens n' = tokens sample_node + r /\ 0 < r.
Proof.
  do 2 eexists. split; [vm_compute; reflexivity|]. split; [vm_compute; reflexivity|]. split; [|vm_compute; reflexivity].
  eapply (@epoch_reward_is_conserved fixed_point fixed_point_laws sample_node sample_params
    (mkNodeParams Percent.hundred true) 720 9); vm_compute; reflexivity.
Defined.

Lemma epoch_rewards_within_budget_witness :
  exists r1 r2,
    @node_reward fixed_point sample_node sample_params (mkNodeParams Percent.hundred true) = Ok r1 /\
    @node_reward fixed_point sample_node sample_params (mkNodeParams Percent.hundred false) = Ok r2 /\
    0 < r1 /\ 0 < r2 /\ zsum [r1; r2] <= 1000 * F.
Proof.
  do 2 eexists. split; [vm_compute; reflexivity|]. split; [vm_compute; reflexivity|].
  split; [lia|]. split; [lia|].
  apply (@epoch_rewards_within_budget fixed_point fixed_point_laws sample_params
    [(sample_node, mkNodeParams Percent.hundred true); (sample_node, mkNodeParams Percent.hundred false)]).
  - split; vm_compute; discriminate.
  - repeat constructor; vm_compute; discriminate.
  - constructor; [vm_compute; reflexivity|]. constructor; [vm_compute; reflexivity|constructor].
  - vm_compute. discriminate.
  - vm_compute. discriminate.
Defined.
