(* ===== verification/Backing.v ===== *)
(** * Delegations are backed by the node's tokens

    The rewarding state of a node ([mixnode.rs]) keeps one figure for all
    delegations, [delegates], and computes what each delegation is worth from
    ratios that are rounded at every step.  This file shows that the figure
    always covers the delegations: rounding never creates a claim.  So every
    delegator can withdraw at least what they put in, in any order, and the
    subtractions of the source do not underflow. *)

From S2P Require Import Prelude Bytes Cosmwasm MixnetTypes Rewarding.
From Stdlib Require Import QArith Lqa.
#[local] Open Scope Z_scope.
Import MixNodeRewarding.

(** ** Sums of rationals *)

Definition qsum (l : list Q) : Q := foldr Qplus 0%Q l.

Lemma qsum_perm l k : l ≡ₚ k -> (qsum l == qsum k)%Q.
Proof. induction 1; simpl; [reflexivity|lra|lra|etransitivity; eassumption]. Qed.

Lemma qsum_nonneg l : Forall (fun q => 0 <= q)%Q l -> (0 <= qsum l)%Q.
Proof. induction 1; simpl; lra. Qed.

Lemma inject_nonneg z : 0 <= z -> (0 <= inject_Z z)%Q.
Proof. intros. change 0%Q with (inject_Z 0). by rewrite <- Zle_Qle. Qed.

Lemma inject_pos z : 0 < z -> (0 < inject_Z z)%Q.
Proof. intros. change 0%Q with (inject_Z 0). by rewrite <- Zlt_Qlt. Qed.

(** A bound on a product is a bound on a quotient. *)
Lemma inject_le_div a b c : 0 < b -> a * b <= c -> (inject_Z a <= inject_Z c / inject_Z b)%Q.
Proof.
  intros Hb Hc. apply Qle_shift_div_l; [by apply inject_pos|]. by rewrite <- inject_Z_mult, <- Zle_Qle.
Qed.

(** ** The invariant *)

(** The atomics delegated, and the weight of a delegation: what it is worth per unit of the
    node's unit delegation with its rewards. *)
Definition atomics (d : Delegation.t) : Z := amount (Delegation.amount d) * F.

Definition weight (d : Delegation.t) : Q :=
  (inject_Z (atomics d) / inject_Z (UNIT_DELEGATION_BASE + Delegation.cumulative_reward_ratio d))%Q.

(** The unit delegation with its rewards. *)
Definition unit_value (n : t) : Z := UNIT_DELEGATION_BASE + total_unit_reward n.

Definition delegation_ok (n : t) (d : Delegation.t) : Prop :=
  0 <= Delegation.cumulative_reward_ratio d <= total_unit_reward n /\ 0 <= amount (Delegation.amount d).

(** The node's tokens cover its delegations [ds]. *)
Record backed (n : t) (ds : list Delegation.t) : Prop := {
  backed_unit : unit_delegation n = UNIT_DELEGATION_BASE;
  backed_total : 0 <= total_unit_reward n;
  backed_operator : 0 <= operator n;
  backed_count : unique_delegations n = len ds;
  backed_each : Forall (delegation_ok n) ds;
  backed_cover : (qsum (weight <$> ds) * inject_Z (unit_value n) <= inject_Z (delegates n))%Q
}.

Lemma UNIT_pos : 0 < UNIT_DELEGATION_BASE.
Proof. unfold UNIT_DELEGATION_BASE, DECIMAL_FRACTIONAL. lia. Qed.

Lemma unit_value_pos n ds : backed n ds -> 0 < unit_value n.
Proof. intros [_ ? _ _ _ _]. unfold unit_value. pose proof UNIT_pos. lia. Qed.

Lemma atomics_nonneg n d : delegation_ok n d -> 0 <= atomics d.
Proof. intros [_ ?]. unfold atomics. pose proof F_pos. nia. Qed.

Lemma weight_nonneg n d : delegation_ok n d -> (0 <= weight d)%Q.
Proof.
  intros Hd. pose proof (atomics_nonneg n d Hd). destruct Hd as [[? _] _]. pose proof UNIT_pos.
  unfold weight. apply Qle_shift_div_l; [apply inject_pos; lia|]. rewrite Qmult_0_l. by apply inject_nonneg.
Qed.

Lemma weights_nonneg n ds : Forall (delegation_ok n) ds -> (0 <= qsum (weight <$> ds))%Q.
Proof.
  intros H. apply qsum_nonneg, Forall_fmap. eapply Forall_impl; [exact H|]. intros d. apply weight_nonneg.
Qed.

Lemma backed_delegates n ds : backed n ds -> 0 <= delegates n.
Proof.
  intros Hb. pose proof (unit_value_pos n ds Hb). destruct Hb as [_ _ _ _ He Hc].
  apply weights_nonneg in He. rewrite Zle_Qle. eapply Qle_trans; [|exact Hc].
  change (inject_Z 0) with 0%Q. apply Qmult_le_0_compat; [done|]. apply inject_nonneg. lia.
Qed.

Lemma backed_perm n ds ds' : ds ≡ₚ ds' -> backed n ds -> backed n ds'.
Proof.
  intros Hp [? ? ? Hk He Hc]. split; [done|done|done| | |].
  - rewrite Hk. unfold len. by rewrite Hp.
  - by rewrite <- Hp.
  - rewrite <- (qsum_perm (weight <$> ds) (weight <$> ds')); [done|]. by rewrite Hp.
Qed.

(** Changes that leave the delegations alone. *)
Lemma backed_same n n' ds :
  backed n ds -> unit_delegation n' = unit_delegation n -> total_unit_reward n' = total_unit_reward n ->
  delegates n' = delegates n -> unique_delegations n' = unique_delegations n -> 0 <= operator n' -> backed n' ds.
Proof.
  intros [? ? ? ? He ?] E1 E2 E3 E4 ?. split; unfold unit_value, delegation_ok in *; rewrite ?E1, ?E2, ?E3, ?E4; done.
Qed.

Lemma backed_new c pledge e n `{CosmMath} `{!CosmMathLaws} : initialise_new c pledge e = Ok n -> backed n [].
Proof.
  unfold initialise_new. intros Hn. run_inv_std. math_inv. split; simpl; try done. by destruct E.
Qed.

Lemma weights_cons d ds : qsum (weight <$> d :: ds) = (weight d + qsum (weight <$> ds))%Q.
Proof. done. Qed.

(** The delegated tokens cover each principal. *)
Lemma backed_principal n d ds : backed n (d :: ds) -> atomics d <= delegates n.
Proof.
  intros Hb. pose proof (unit_value_pos n _ Hb) as HV. destruct Hb as [_ Ht _ _ He Hc].
  apply Forall_cons in He as [Hd He]. pose proof (weights_nonneg _ _ He) as HS. pose proof (weight_nonneg _ _ Hd) as Hw.
  rewrite weights_cons in Hc. destruct Hd as [Hq _]. pose proof UNIT_pos as HU.
  assert (0 < UNIT_DELEGATION_BASE + Delegation.cumulative_reward_ratio d) as Hadj by lia.
  apply inject_pos in Hadj, HV.
  assert (inject_Z (UNIT_DELEGATION_BASE + Delegation.cumulative_reward_ratio d) <= inject_Z (unit_value n))%Q as Hle
    by (rewrite <- Zle_Qle; unfold unit_value; lia).
  assert (inject_Z (atomics d) == weight d * inject_Z (UNIT_DELEGATION_BASE + Delegation.cumulative_reward_ratio d))%Q as Ha
    by (unfold weight; field; lra).
  rewrite Zle_Qle, Ha. pose proof (Qmult_le_0_compat _ _ HS (Qlt_le_weak _ _ HV)).
  apply Qle_trans with (weight d * inject_Z (unit_value n))%Q; [|lra].
  rewrite !(Qmult_comm (weight d)). by apply Qmult_le_compat_r.
Qed.

Section Steps.
Context `{CosmMath} `{!CosmMathLaws}.

(** What a delegation has earned, rounded down twice. *)
Lemma delegation_reward_bound n d r :
  unit_delegation n = UNIT_DELEGATION_BASE -> delegation_ok n d -> determine_delegation_reward n d = Ok r ->
  0 <= r /\ r * (UNIT_DELEGATION_BASE + Delegation.cumulative_reward_ratio d)
            <= atomics d * (total_unit_reward n - Delegation.cumulative_reward_ratio d).
Proof.
  intros Hu Hd Hr. pose proof (atomics_nonneg n d Hd). destruct Hd as [Hq _]. pose proof UNIT_pos. pose proof F_pos as HF.
  unfold determine_delegation_reward, Delegation.dec_amount, full_reward_ratio in Hr. run_inv_std. math_inv.
  rewrite Hu in *. fold (atomics d) in *. destruct Hr as [Hr _]. split; [done|].
  set (q := (total_unit_reward n - Delegation.cumulative_reward_ratio d) * atomics d / F) in *.
  pose proof (div_mul_le (q * F) (Delegation.cumulative_reward_ratio d + UNIT_DELEGATION_BASE)) as Hx.
  pose proof (div_mul_le ((total_unit_reward n - Delegation.cumulative_reward_ratio d) * atomics d) F HF) as Hy.
  fold q in Hy. rewrite (Z.add_comm UNIT_DELEGATION_BASE). lia.
Qed.

(** With the principal it is at most the delegation's share of the unit value. *)
Lemma delegation_value_bound n d r :
  unit_delegation n = UNIT_DELEGATION_BASE -> delegation_ok n d -> determine_delegation_reward n d = Ok r ->
  (inject_Z (r + atomics d) <= weight d * inject_Z (unit_value n))%Q.
Proof.
  intros Hu Hd Hr. pose proof (delegation_reward_bound n d r Hu Hd Hr) as [_ Hb]. destruct Hd as [Hq _].
  pose proof UNIT_pos as HU.
  assert (inject_Z (r + atomics d) <= inject_Z (atomics d * unit_value n) /
    inject_Z (UNIT_DELEGATION_BASE + Delegation.cumulative_reward_ratio d))%Q as Hx.
  { apply inject_le_div; [lia|]. unfold unit_value. lia. }
  eapply Qle_trans; [exact Hx|]. unfold weight. rewrite inject_Z_mult. apply Qle_lteq. right. field.
  intros E. pose proof (inject_pos (UNIT_DELEGATION_BASE + Delegation.cumulative_reward_ratio d)) as Hp.
  rewrite E in Hp. specialize (Hp ltac:(lia)). lra.
Qed.

(** The rewards of an epoch raise the unit value in proportion to the delegated tokens at most. *)
Lemma distribute_unit_bound n dist e n' ds :
  backed n ds -> 0 <= rd_delegates dist -> distribute_rewards n dist e = Ok n' ->
  0 <= total_unit_reward n' - total_unit_reward n /\
  (total_unit_reward n' - total_unit_reward n) * delegates n <= rd_delegates dist * unit_value n.
Proof.
  intros Hb Hd Hn'. pose proof (backed_delegates n ds Hb). pose proof (unit_value_pos n ds Hb). pose proof F_pos as HF.
  unfold distribute_rewards, delegator_share in Hn'. run_inv; math_inv; simpl; rewrite (backed_unit _ _ Hb) in *;
    fold (unit_value n) in *.
  - apply Z.eqb_eq in C. unfold dec_zero. rewrite Z.mul_0_r, Zdiv_0_l. nia.
  - apply Z.eqb_neq in C. set (q := unit_value n * F / delegates n) in *.
    pose proof (div_mul_le (unit_value n * F) (delegates n)) as Hx. fold q in Hx.
    pose proof (div_mul_le (rd_delegates dist * q) F HF) as Hy.
    assert (0 <= q) by (apply Z.div_pos; nia).
    assert (0 <= rd_delegates dist * q / F) by (apply Z.div_pos; nia).
    split; [lia|]. apply (Zorder.Zmult_lt_0_le_reg_r _ _ F HF).
    transitivity (rd_delegates dist * q * delegates n); nia.
Qed.

Lemma backed_distribute n dist e n' ds :
  backed n ds -> 0 <= rd_operator dist -> 0 <= rd_delegates dist -> distribute_rewards n dist e = Ok n' ->
  backed n' ds.
Proof.
  intros Hb Ho Hd Hn'. pose proof (distribute_unit_bound n dist e n' ds Hb Hd Hn') as [Hup Hle].
  pose proof (backed_delegates n ds Hb) as HD. pose proof (unit_value_pos n ds Hb) as HV.
  assert (delegates n' = delegates n + rd_delegates dist /\ operator n' = operator n + rd_operator dist /\
    unit_delegation n' = unit_delegation n /\ unique_delegations n' = unique_delegations n) as (E1 & E2 & E3 & E4).
  { unfold distribute_rewards in Hn'. run_inv. math_inv. done. }
  destruct Hb as [? ? ? Hk He Hc]. split; [congruence|lia|lia|congruence| |].
  - eapply Forall_impl; [exact He|]. intros d [? ?]. split; [lia|done].
  - rewrite E1, inject_Z_plus. pose proof (weights_nonneg _ _ He) as HS.
    assert (unit_value n' = unit_value n + (total_unit_reward n' - total_unit_reward n)) as EV by (unfold unit_value; lia).
    rewrite EV, inject_Z_plus. rewrite Zle_Qle, !inject_Z_mult in Hle.
    apply inject_nonneg in HD, Hup. apply inject_pos in HV. apply inject_nonneg in Hd.
    set (S := qsum (weight <$> ds)) in *. set (V := inject_Z (unit_value n)) in *. set (D := inject_Z (delegates n)) in *.
    set (u := inject_Z (total_unit_reward n' - total_unit_reward n)) in *. set (r := inject_Z (rd_delegates dist)) in *.
    (** With no delegated tokens the weights vanish; otherwise scale by [D]. *)
    assert (S * u <= r)%Q; [|lra].
    apply (Qmult_le_r _ _ V HV). apply Qle_trans with (u * D)%Q; [|lra].
    apply Qle_trans with (u * (S * V))%Q; [lra|]. rewrite !(Qmult_comm u). by apply Qmult_le_compat_r.
Qed.

Lemma backed_add n a n' d ds :
  backed n ds -> 0 <= a -> add_base_delegation n a = Ok n' ->
  amount (Delegation.amount d) = a -> Delegation.cumulative_reward_ratio d = total_unit_reward n ->
  backed n' (d :: ds).
Proof.
  intros Hb Ha Hn' Hda Hdr. pose proof (unit_value_pos n ds Hb) as HV. destruct Hb as [? ? ? Hk He Hc].
  unfold add_base_delegation, increase_delegates_uint128 in Hn'. run_all. simpl in *. split; [done|done|done| | |].
  - simpl. rewrite len_cons. lia.
  - constructor; [split; simpl; lia|done].
  - rewrite weights_cons. simpl delegates. rewrite inject_Z_plus. change (unit_value _) with (unit_value n).
    assert (weight d * inject_Z (unit_value n) == inject_Z (amount (Delegation.amount d) * F))%Q as Hw.
    { unfold weight, atomics, unit_value. rewrite Hdr. field. apply inject_pos in HV. unfold unit_value in HV. lra. }
    lra.
Qed.

Lemma count_zero ds : len (ds : list Delegation.t) = 0 -> ds = [].
Proof. destruct ds; [done|]. rewrite len_cons. pose proof (len_nonneg ds). lia. Qed.

(** What undelegating does: the node gives up at most the delegation's share, the delegator
    gets the principal back with the whole coins of the reward. *)
Lemma backed_undelegate n d ds c n' :
  backed n (d :: ds) -> undelegate n d = Ok (c, n') ->
  backed n' ds /\ amount (Delegation.amount d) <= amount c /\ tokens n' + amount c * F <= tokens n /\
  denom c = denom (Delegation.amount d).
Proof.
  intros Hb Hn'. pose proof (unit_value_pos n _ Hb) as HV. destruct Hb as [Hu Ht Ho Hk He Hc].
  apply Forall_cons in He as [Hd He]. unfold undelegate, Delegation.dec_amount, truncate_reward in Hn'. run_inv_std.
  pose proof (delegation_value_bound n d x Hu Hd E) as Hval.
  pose proof (delegation_reward_bound n d x Hu Hd E) as [Hx _]. pose proof F_pos as HF.
  math_inv. fold (atomics d) in *.
  assert (amount (Delegation.amount d) <= (x + atomics d) / F) as Hcoin
    by (apply Z.div_le_lower_bound; [done|]; unfold atomics; lia).
  pose proof (div_mul_le (x + atomics d) F HF) as Hpay. rewrite weights_cons in Hc. rewrite len_cons in Hk.
  unfold remove_delegation_decimal, decrease_delegates_decimal, decrement_unique_delegations in E2.
  run_all; simpl in *; (split_and!; [|done|unfold tokens, dec_zero; simpl; lia|done]).
  - apply Z.eqb_eq in C. assert (ds = []) as -> by (apply count_zero; lia).
    destruct E6 as [? _]. split; simpl; try done; unfold qsum, len; simpl; lia || lra.
  - split; [done|done|done|simpl; lia|done|]. simpl delegates. change (unit_value _) with (unit_value n).
    unfold Z.sub. rewrite inject_Z_plus, inject_Z_opp. lra.
Qed.

(** Undelegating cannot fail for lack of tokens. *)
Lemma undelegate_succeeds n d ds r :
  backed n (d :: ds) -> determine_delegation_reward n d = Ok r -> is_u128 (tokens n) ->
  exists c n', undelegate n d = Ok (c, n').
Proof.
  intros Hb Hr Htok. pose proof (unit_value_pos n _ Hb) as HV. pose proof (backed_delegates n _ Hb) as HD.
  destruct Hb as [Hu Ht Ho Hk He Hc].
  apply Forall_cons in He as [Hd He]. pose proof (delegation_value_bound n d r Hu Hd Hr) as Hval.
  pose proof (delegation_reward_bound n d r Hu Hd Hr) as [Hr0 _]. pose proof (atomics_nonneg n d Hd) as Ha0.
  rewrite weights_cons in Hc. rewrite len_cons in Hk. pose proof (len_nonneg ds) as Hlen.
  pose proof (weights_nonneg n ds He) as HS.
  assert (Delegation.dec_amount d = Ok (atomics d)) as Hamt.
  { clear - Hr H0. unfold determine_delegation_reward, Delegation.dec_amount in *. run_inv_std.
    pose proof E1 as E1'. apply into_base_decimal_Ok in E1' as [-> _]. exact E1. }
  assert (r + atomics d <= delegates n) as Hle.
  { rewrite Zle_Qle. apply inject_pos in HV. pose proof (Qmult_le_0_compat _ _ HS (Qlt_le_weak _ _ HV)). lra. }
  unfold tokens, is_u128 in Htok.
  unfold undelegate. rewrite Hr, Hamt. cbn [obind lift_std]. rewrite dadd_total by (unfold is_u128; lia).
  cbn [obind]. unfold remove_delegation_decimal, decrease_delegates_decimal, decrement_unique_delegations.
  destruct (Z.ltb_spec (delegates n) (r + atomics d)); [lia|]. rewrite dsub_total by (unfold is_u128; lia).
  cbn [obind set_delegates unique_delegations]. destruct (Z.eqb_spec (unique_delegations n) 0); [lia|].
  unfold u32_sub. destruct (Z.leb_spec 1 (unique_delegations n)); [|lia]. cbn [obind set_unique_delegations unique_delegations].
  unfold truncate_reward. rewrite truncate_decimal_total by (unfold is_u128; lia).
  destruct (Z.eqb_spec (unique_delegations n - 1) 0); [|cbn [obind]; eauto].
  simpl. rewrite dadd_total by (unfold is_u128; lia). cbn [obind]. eauto.
Qed.

Lemma backed_withdraw n d ds c n' d' :
  backed n (d :: ds) -> withdraw_delegator_reward n d = Ok (c, n', d') ->
  backed n' (d' :: ds) /\ tokens n' + amount c * F <= tokens n /\
  d' = Delegation.set_ratio d (total_unit_reward n) /\ 0 <= amount c.
Proof.
  intros Hb Hn'. pose proof (unit_value_pos n _ Hb) as HV. destruct Hb as [Hu Ht Ho Hk He Hc].
  apply Forall_cons in He as [Hd He]. unfold withdraw_delegator_reward, truncate_reward in Hn'. run_inv_std.
  rewrite weights_cons in Hc. rewrite len_cons in Hk.
  pose proof (delegation_value_bound n d x Hu Hd E) as Hval.
  pose proof (delegation_reward_bound n d x Hu Hd E) as [Hx _]. pose proof F_pos as HF.
  unfold decrease_delegates_decimal in E0. run_all. unfold full_reward_ratio; simpl in *.
  pose proof (div_mul_le x F HF) as Hpay.
  split_and!; [|unfold tokens; simpl; lia|done|by apply Z.div_pos].
  destruct Hd as [? ?]. split; [done|done|done|simpl; rewrite len_cons; lia| |].
  - constructor; [split; simpl; lia|done].
  - rewrite weights_cons. simpl delegates. change (unit_value _) with (unit_value n).
    assert (weight (Delegation.set_ratio d (total_unit_reward n)) * inject_Z (unit_value n) == inject_Z (atomics d))%Q as Hw.
    { unfold weight, unit_value; simpl. change (atomics (Delegation.set_ratio _ _)) with (atomics d). field.
      apply inject_pos in HV. unfold unit_value in HV. lra. }
    unfold Z.sub. rewrite inject_Z_plus, inject_Z_opp. rewrite inject_Z_plus in Hval. lra.
Qed.

End Steps.
