(* ===== verification/Interval.v ===== *)
(** * Epochs and intervals

    Models [common/cosmwasm-smart-contracts/mixnet-contract/src/interval.rs]:
    the clock of the mixnet contract, which counts epochs and intervals, and
    the status of the epoch while it is being advanced.

    Dates and durations are in nanoseconds, as in the [time] crate; block
    times are in seconds. *)

From S2P Require Import Prelude Bytes Cosmwasm MixnetTypes.

(** ** The status of an epoch *)

Module EpochStatus.

Record t : Type := mk { being_advanced_by : Addr; state : EpochState }.

Definition new (being_advanced_by : Addr) : t := mk being_advanced_by InProgress.

Definition set_state (s : t) (st : EpochState) : t := mk (being_advanced_by s) st.

(** The new status, and whether the final node has been rewarded. *)
Definition update_last_rewarded (s : t) (new_last_rewarded : MixId) : result (t * bool) :=
  match state s with
  | Rewarding last_rewarded final_node_id =>
      if new_last_rewarded <=? last_rewarded then Err (RewardingOutOfOrder last_rewarded new_last_rewarded)
      else Ok (set_state s (Rewarding new_last_rewarded final_node_id), new_last_rewarded =? final_node_id)
  | st => Err (UnexpectedNonRewardingEpochState st)
  end.

Definition last_rewarded (s : t) : result MixId :=
  match state s with
  | Rewarding last _ => Ok last
  | st => Err (UnexpectedNonRewardingEpochState st)
  end.

Definition is_in_progress (s : t) : bool := match state s with InProgress => true | _ => false end.
Definition is_rewarding (s : t) : bool := match state s with Rewarding _ _ => true | _ => false end.
Definition is_reconciling (s : t) : bool := match state s with ReconcilingEvents => true | _ => false end.
Definition is_advancing (s : t) : bool := match state s with AdvancingEpoch => true | _ => false end.

Definition ensure_is_in_event_reconciliation_state (s : t) : result unit :=
  ensure (is_reconciling s) (EpochNotInEventReconciliationState (state s)).

Definition ensure_is_in_advancement_state (s : t) : result unit :=
  ensure (is_advancing s) (EpochNotInAdvancementState (state s)).

End EpochStatus.

(** ** The interval *)

(** [env.block.time.seconds() as i64]. *)
Definition block_secs (env : Env) : Z := (block_time_secs env + 2 ^ 63) mod 2 ^ 64 - 2 ^ 63.

Module Interval.

Record t : Type := mk {
  id : IntervalId;
  epochs_in_interval : Z;
  current_epoch_start : Z;
  current_epoch_id : EpochId;
  epoch_length : Z;
  total_elapsed_epochs : EpochId
}.

Definition current_epoch_absolute_id (i : t) : EpochId := total_elapsed_epochs i.

(** [Duration::from_secs]. *)
Definition from_secs (secs : Z) : Z := secs * NANOS.

(** [OffsetDateTime::unix_timestamp]. *)
Definition unix_timestamp (t : Z) : Z := t / NANOS.

Definition change_epoch_length (i : t) (epoch_length : Z) : t :=
  mk (id i) (epochs_in_interval i) (current_epoch_start i) (current_epoch_id i) epoch_length
    (total_elapsed_epochs i).

Definition force_change_epochs_in_interval (i : t) (epochs_in_interval : Z) : result t :=
  if epochs_in_interval <=? current_epoch_id i then
    if epochs_in_interval =? 0 then Panic DivisionByZero
    else
      let? id := u32_add (id i) (current_epoch_id i / epochs_in_interval) in
      Ok (mk id epochs_in_interval (current_epoch_start i) (current_epoch_id i mod epochs_in_interval)
            (epoch_length i) (total_elapsed_epochs i))
  else
    Ok (mk (id i) epochs_in_interval (current_epoch_start i) (current_epoch_id i) (epoch_length i)
          (total_elapsed_epochs i)).

Section Clock.
Context `{ChainApi}.

Definition init_interval (epochs_in_interval epoch_length : Z) (env : Env) : result t :=
  let? current_epoch_start := or_panic (datetime_from_unix (block_secs env)) UnwrapErr in
  Ok (mk 0 epochs_in_interval current_epoch_start 0 epoch_length 0).

Definition current_epoch_end (i : t) : result Z :=
  or_panic (datetime_add (current_epoch_start i) (epoch_length i)) Overflow.

Definition epochs_until_interval_end (i : t) : result Z :=
  u32_sub (epochs_in_interval i) (current_epoch_id i).

(** The product of a [u32] and a [Duration] panics when its seconds do not fit in 64 bits. *)
Definition duration_mul (n d : Z) : result Z :=
  if n * d / NANOS <=? u64_max then Ok (n * d) else Panic Overflow.

Definition current_interval_end (i : t) : result Z :=
  let? n := epochs_until_interval_end i in
  let? d := duration_mul n (epoch_length i) in
  or_panic (datetime_add (current_epoch_start i) d) Overflow.

Definition current_epoch_start_unix_timestamp (i : t) : Z := unix_timestamp (current_epoch_start i).

Definition current_epoch_end_unix_timestamp (i : t) : result Z :=
  let? e := current_epoch_end i in Ok (unix_timestamp e).

Definition current_interval_end_unix_timestamp (i : t) : result Z :=
  let? e := current_interval_end i in Ok (unix_timestamp e).

Definition is_current_epoch_over (i : t) (env : Env) : result bool :=
  let? e := current_epoch_end_unix_timestamp i in Ok (e <=? block_secs env).

Definition secs_until_current_epoch_end (i : t) (env : Env) : result Z :=
  let? over := is_current_epoch_over i env in
  if over then Ok 0
  else let? e := current_epoch_end_unix_timestamp i in Ok (e - block_secs env).

Definition is_current_interval_over (i : t) (env : Env) : result bool :=
  let? e := current_interval_end_unix_timestamp i in Ok (e <=? block_secs env).

Definition secs_until_current_interval_end (i : t) (env : Env) : result Z :=
  let? over := is_current_interval_over i env in
  if over then Ok 0
  else let? e := current_interval_end_unix_timestamp i in Ok (e - block_secs env).

Definition current_epoch_in_progress (i : t) (env : Env) : result bool :=
  let? e := current_epoch_end_unix_timestamp i in
  Ok ((current_epoch_start_unix_timestamp i <=? block_secs env) && (block_secs env <? e)).

Definition advance_epoch (i : t) : result t :=
  let? last := u32_sub (epochs_in_interval i) 1 in
  if current_epoch_id i =? last then
    let? id := u32_add (id i) 1 in
    let? start := current_epoch_end i in
    let? total := u32_add (total_elapsed_epochs i) 1 in
    Ok (mk id (epochs_in_interval i) start 0 (epoch_length i) total)
  else
    let? start := current_epoch_end i in
    let? cur := u32_add (current_epoch_id i) 1 in
    let? total := u32_add (total_elapsed_epochs i) 1 in
    Ok (mk (id i) (epochs_in_interval i) start cur (epoch_length i) total).

End Clock.

End Interval.

(** ** The clock's invariant *)

Record interval_ok (i : Interval.t) : Prop := {
  interval_epochs : 0 <= Interval.current_epoch_id i < Interval.epochs_in_interval i;
  interval_length : 0 <= Interval.epoch_length i
}.

(** The position of an epoch in the order of intervals and epochs. *)
Definition before (i j : Interval.t) : Prop :=
  Interval.id i < Interval.id j \/
  Interval.id i = Interval.id j /\ Interval.current_epoch_id i < Interval.current_epoch_id j.

Section Clock.
Context `{ChainApi} `{!ChainApiLaws}.

Lemma advance_epoch_ok i j :
  interval_ok i -> Interval.advance_epoch i = Ok j ->
  interval_ok j /\ before i j /\
  Interval.total_elapsed_epochs j = Interval.total_elapsed_epochs i + 1 /\
  Interval.epochs_in_interval j = Interval.epochs_in_interval i /\
  Interval.current_epoch_start j = Interval.current_epoch_start i + Interval.epoch_length i.
Proof.
  intros [Hc Hl] Hj. unfold Interval.advance_epoch, Interval.current_epoch_end in Hj. run_all; simpl in *;
    repeat match goal with E : datetime_add _ _ = Some _ |- _ => apply datetime_add_spec in E as -> end;
    (split_and!; [split; simpl|unfold before; simpl| | |]); try lia.
Qed.

(** The end of the interval is the end of its last epoch: advancing keeps it as long as the
    interval lasts. *)
Lemma advance_epoch_interval_end i j e :
  interval_ok i -> Interval.advance_epoch i = Ok j -> Interval.id j = Interval.id i ->
  Interval.current_interval_end i = Ok e -> Interval.current_interval_end j = Ok e \/
    exists p, Interval.current_interval_end j = Panic p.
Proof.
  intros Hi Hj Hid He. destruct (Interval.current_interval_end j) as [e'| |] eqn:E'; [left|exfalso|eauto].
  - f_equal. unfold Interval.current_interval_end, Interval.epochs_until_interval_end, Interval.duration_mul,
      Interval.advance_epoch, Interval.current_epoch_end in *. run_all; simpl in *;
    repeat match goal with E : datetime_add _ _ = Some _ |- _ => apply datetime_add_spec in E as -> end; lia.
  - unfold Interval.current_interval_end, Interval.epochs_until_interval_end, Interval.duration_mul, u32_sub, or_panic in E'.
    repeat (case_match; simpl in *; try done).
Qed.

Lemma force_change_ok i n j :
  interval_ok i -> 0 < n -> Interval.force_change_epochs_in_interval i n = Ok j ->
  interval_ok j /\ Interval.epochs_in_interval j = n /\
  Interval.total_elapsed_epochs j = Interval.total_elapsed_epochs i /\
  (i = j \/ Interval.id i * n + Interval.current_epoch_id i = Interval.id j * n + Interval.current_epoch_id j).
Proof.
  intros [Hc Hl] Hn Hj. unfold Interval.force_change_epochs_in_interval in Hj. run_all; simpl in *.
  - apply Z.leb_le in C. pose proof (Z.mod_pos_bound (Interval.current_epoch_id i) n Hn).
    pose proof (Z.div_mod (Interval.current_epoch_id i) n ltac:(lia)).
    split_and!; [split; simpl; lia|done|done|right; lia].
  - apply Z.leb_gt in C. split_and!; [split; simpl; lia|done|done|right; lia].
Qed.

End Clock.
