(* ===== verification/MixnetStorage.v ===== *)
(** * Storage of the mixnet contract

    The contract's persistent state and the functions that read and change
    single parts of it: [contracts/mixnet/src/*/storage.rs], the helper
    modules [mixnodes/helpers.rs], [rewards/helpers.rs],
    [delegations/helpers.rs], [gateways/helpers.rs], [interval/helpers.rs],
    [support/helpers.rs] and the signature helpers.

    The chain's key-value store is a record with one field per item or map of
    the source; items are written by [instantiate] before anything else runs,
    so they are plain values.  A map is a finite map; its [load] of a missing
    key is an error.  A unique index is a search of the map by the indexed
    field, and saving a record whose indexed field another record already has
    is an error. *)

From S2P Require Import Prelude Bytes Cosmwasm MixnetTypes Rewarding Interval.
From Stdlib.Strings Require Import Byte.

(** ** The store *)

Record Store : Type := mkStore {
  contract_state : ContractState;
  rewarding_params : RewardingParams.t;
  pending_reward_pool_change : RewardPoolChange;
  mixnode_rewarding : gmap MixId MixNodeRewarding.t;
  epoch_status : EpochStatus.t;
  interval : Interval.t;
  rewarded_set : gmap MixId RewardedSetNodeStatus;
  epoch_event_id_counter : EpochEventId;
  interval_event_id_counter : IntervalEventId;
  last_processed_epoch_event : EpochEventId;
  last_processed_interval_event : IntervalEventId;
  pending_epoch_events : gmap EpochEventId PendingEpochEventData;
  pending_interval_events : gmap IntervalEventId PendingIntervalEventData;
  layers : LayerDistribution.t;
  mixnode_id_counter : MixId;
  pending_mixnode_changes : gmap MixId PendingMixNodeChanges;
  unbonded_mixnodes : gmap MixId UnbondedMixnode;
  mixnode_bonds : gmap MixId MixNodeBond.t;
  delegations : gmap StorageKey Delegation.t;
  gateways : gmap IdentityKey GatewayBond.t;
  families : gmap IdentityKey Family;
  members : gmap IdentityKey FamilyHead;
  nonces : gmap Addr Z
}.

Definition set_contract_state (s : Store) (x : ContractState) : Store :=
  mkStore x (rewarding_params s) (pending_reward_pool_change s) (mixnode_rewarding s) (epoch_status s)
    (interval s) (rewarded_set s) (epoch_event_id_counter s) (interval_event_id_counter s)
    (last_processed_epoch_event s) (last_processed_interval_event s) (pending_epoch_events s)
    (pending_interval_events s) (layers s) (mixnode_id_counter s) (pending_mixnode_changes s) (unbonded_mixnodes
    s) (mixnode_bonds s) (delegations s) (gateways s) (families s) (members s) (nonces s).
Definition set_rewarding_params (s : Store) (x : RewardingParams.t) : Store :=
  mkStore (contract_state s) x (pending_reward_pool_change s) (mixnode_rewarding s) (epoch_status s) (interval
    s) (rewarded_set s) (epoch_event_id_counter s) (interval_event_id_counter s) (last_processed_epoch_event s)
    (last_processed_interval_event s) (pending_epoch_events s) (pending_interval_events s) (layers s)
    (mixnode_id_counter s) (pending_mixnode_changes s) (unbonded_mixnodes s) (mixnode_bonds s) (delegations s)
    (gateways s) (families s) (members s) (nonces s).
Definition set_pending_reward_pool_change (s : Store) (x : RewardPoolChange) : Store :=
  mkStore (contract_state s) (rewarding_params s) x (mixnode_rewarding s) (epoch_status s) (interval s)
    (rewarded_set s) (epoch_event_id_counter s) (interval_event_id_counter s) (last_processed_epoch_event s)
    (last_processed_interval_event s) (pending_epoch_events s) (pending_interval_events s) (layers s)
    (mixnode_id_counter s) (pending_mixnode_changes s) (unbonded_mixnodes s) (mixnode_bonds s) (delegations s)
    (gateways s) (families s) (members s) (nonces s).
Definition set_mixnode_rewarding (s : Store) (x : gmap MixId MixNodeRewarding.t) : Store :=
  mkStore (contract_state s) (rewarding_params s) (pending_reward_pool_change s) x (epoch_status s) (interval
    s) (rewarded_set s) (epoch_event_id_counter s) (interval_event_id_counter s) (last_processed_epoch_event s)
    (last_processed_interval_event s) (pending_epoch_events s) (pending_interval_events s) (layers s)
    (mixnode_id_counter s) (pending_mixnode_changes s) (unbonded_mixnodes s) (mixnode_bonds s) (delegations s)
    (gateways s) (families s) (members s) (nonces s).
Definition set_epoch_status (s : Store) (x : EpochStatus.t) : Store :=
  mkStore (contract_state s) (rewarding_params s) (pending_reward_pool_change s) (mixnode_rewarding s) x
    (interval s) (rewarded_set s) (epoch_event_id_counter s) (interval_event_id_counter s)
    (last_processed_epoch_event s) (last_processed_interval_event s) (pending_epoch_events s)
    (pending_interval_events s) (layers s) (mixnode_id_counter s) (pending_mixnode_changes s) (unbonded_mixnodes
    s) (mixnode_bonds s) (delegations s) (gateways s) (families s) (members s) (nonces s).
Definition set_interval (s : Store) (x : Interval.t) : Store :=
  mkStore (contract_state s) (rewarding_params s) (pending_reward_pool_change s) (mixnode_rewarding s)
    (epoch_status s) x (rewarded_set s) (epoch_event_id_counter s) (interval_event_id_counter s)
    (last_processed_epoch_event s) (last_processed_interval_event s) (pending_epoch_events s)
    (pending_interval_events s) (layers s) (mixnode_id_counter s) (pending_mixnode_changes s) (unbonded_mixnodes
    s) (mixnode_bonds s) (delegations s) (gateways s) (families s) (members s) (nonces s).
Definition set_rewarded_set (s : Store) (x : gmap MixId RewardedSetNodeStatus) : Store :=
  mkStore (contract_state s) (rewarding_params s) (pending_reward_pool_change s) (mixnode_rewarding s)
    (epoch_status s) (interval s) x (epoch_event_id_counter s) (interval_event_id_counter s)
    (last_processed_epoch_event s) (last_processed_interval_event s) (pending_epoch_events s)
    (pending_interval_events s) (layers s) (mixnode_id_counter s) (pending_mixnode_changes s) (unbonded_mixnodes
    s) (mixnode_bonds s) (delegations s) (gateways s) (families s) (members s) (nonces s).
Definition set_epoch_event_id_counter (s : Store) (x : EpochEventId) : Store :=
  mkStore (contract_state s) (rewarding_params s) (pending_reward_pool_change s) (mixnode_rewarding s)
    (epoch_status s) (interval s) (rewarded_set s) x (interval_event_id_counter s) (last_processed_epoch_event
    s) (last_processed_interval_event s) (pending_epoch_events s) (pending_interval_events s) (layers s)
    (mixnode_id_counter s) (pending_mixnode_changes s) (unbonded_mixnodes s) (mixnode_bonds s) (delegations s)
    (gateways s) (families s) (members s) (nonces s).
Definition set_interval_event_id_counter (s : Store) (x : IntervalEventId) : Store :=
  mkStore (contract_state s) (rewarding_params s) (pending_reward_pool_change s) (mixnode_rewarding s)
    (epoch_status s) (interval s) (rewarded_set s) (epoch_event_id_counter s) x (last_processed_epoch_event s)
    (last_processed_interval_event s) (pending_epoch_events s) (pending_interval_events s) (layers s)
    (mixnode_id_counter s) (pending_mixnode_changes s) (unbonded_mixnodes s) (mixnode_bonds s) (delegations s)
    (gateways s) (families s) (members s) (nonces s).
Definition set_last_processed_epoch_event (s : Store) (x : EpochEventId) : Store :=
  mkStore (contract_state s) (rewarding_params s) (pending_reward_pool_change s) (mixnode_rewarding s)
    (epoch_status s) (interval s) (rewarded_set s) (epoch_event_id_counter s) (interval_event_id_counter s) x
    (last_processed_interval_event s) (pending_epoch_events s) (pending_interval_events s) (layers s)
    (mixnode_id_counter s) (pending_mixnode_changes s) (unbonded_mixnodes s) (mixnode_bonds s) (delegations s)
    (gateways s) (families s) (members s) (nonces s).
Definition set_last_processed_interval_event (s : Store) (x : IntervalEventId) : Store :=
  mkStore (contract_state s) (rewarding_params s) (pending_reward_pool_change s) (mixnode_rewarding s)
    (epoch_status s) (interval s) (rewarded_set s) (epoch_event_id_counter s) (interval_event_id_counter s)
    (last_processed_epoch_event s) x (pending_epoch_events s) (pending_interval_events s) (layers s)
    (mixnode_id_counter s) (pending_mixnode_changes s) (unbonded_mixnodes s) (mixnode_bonds s) (delegations s)
    (gateways s) (families s) (members s) (nonces s).
Definition set_pending_epoch_events (s : Store) (x : gmap EpochEventId PendingEpochEventData) : Store :=
  mkStore (contract_state s) (rewarding_params s) (pending_reward_pool_change s) (mixnode_rewarding s)
    (epoch_status s) (interval s) (rewarded_set s) (epoch_event_id_counter s) (interval_event_id_counter s)
    (last_processed_epoch_event s) (last_processed_interval_event s) x (pending_interval_events s) (layers s)
    (mixnode_id_counter s) (pending_mixnode_changes s) (unbonded_mixnodes s) (mixnode_bonds s) (delegations s)
    (gateways s) (families s) (members s) (nonces s).
Definition set_pending_interval_events (s : Store) (x : gmap IntervalEventId PendingIntervalEventData) : Store :=
  mkStore (contract_state s) (rewarding_params s) (pending_reward_pool_change s) (mixnode_rewarding s)
    (epoch_status s) (interval s) (rewarded_set s) (epoch_event_id_counter s) (interval_event_id_counter s)
    (last_processed_epoch_event s) (last_processed_interval_event s) (pending_epoch_events s) x (layers s)
    (mixnode_id_counter s) (pending_mixnode_changes s) (unbonded_mixnodes s) (mixnode_bonds s) (delegations s)
    (gateways s) (families s) (members s) (nonces s).
Definition set_layers (s : Store) (x : LayerDistribution.t) : Store :=
  mkStore (contract_state s) (rewarding_params s) (pending_reward_pool_change s) (mixnode_rewarding s)
    (epoch_status s) (interval s) (rewarded_set s) (epoch_event_id_counter s) (interval_event_id_counter s)
    (last_processed_epoch_event s) (last_processed_interval_event s) (pending_epoch_events s)
    (pending_interval_events s) x (mixnode_id_counter s) (pending_mixnode_changes s) (unbonded_mixnodes s)
    (mixnode_bonds s) (delegations s) (gateways s) (families s) (members s) (nonces s).
Definition set_mixnode_id_counter (s : Store) (x : MixId) : Store :=
  mkStore (contract_state s) (rewarding_params s) (pending_reward_pool_change s) (mixnode_rewarding s)
    (epoch_status s) (interval s) (rewarded_set s) (epoch_event_id_counter s) (interval_event_id_counter s)
    (last_processed_epoch_event s) (last_processed_interval_event s) (pending_epoch_events s)
    (pending_interval_events s) (layers s) x (pending_mixnode_changes s) (unbonded_mixnodes s) (mixnode_bonds s)
    (delegations s) (gateways s) (families s) (members s) (nonces s).
Definition set_pending_mixnode_changes (s : Store) (x : gmap MixId PendingMixNodeChanges) : Store :=
  mkStore (contract_state s) (rewarding_params s) (pending_reward_pool_change s) (mixnode_rewarding s)
    (epoch_status s) (interval s) (rewarded_set s) (epoch_event_id_counter s) (interval_event_id_counter s)
    (last_processed_epoch_event s) (last_processed_interval_event s) (pending_epoch_events s)
    (pending_interval_events s) (layers s) (mixnode_id_counter s) x (unbonded_mixnodes s) (mixnode_bonds s)
    (delegations s) (gateways s) (families s) (members s) (nonces s).
Definition set_unbonded_mixnodes (s : Store) (x : gmap MixId UnbondedMixnode) : Store :=
  mkStore (contract_state s) (rewarding_params s) (pending_reward_pool_change s) (mixnode_rewarding s)
    (epoch_status s) (interval s) (rewarded_set s) (epoch_event_id_counter s) (interval_event_id_counter s)
    (last_processed_epoch_event s) (last_processed_interval_event s) (pending_epoch_events s)
    (pending_interval_events s) (layers s) (mixnode_id_counter s) (pending_mixnode_changes s) x (mixnode_bonds
    s) (delegations s) (gateways s) (families s) (members s) (nonces s).
Definition set_mixnode_bonds (s : Store) (x : gmap MixId MixNodeBond.t) : Store :=
  mkStore (contract_state s) (rewarding_params s) (pending_reward_pool_change s) (mixnode_rewarding s)
    (epoch_status s) (interval s) (rewarded_set s) (epoch_event_id_counter s) (interval_event_id_counter s)
    (last_processed_epoch_event s) (last_processed_interval_event s) (pending_epoch_events s)
    (pending_interval_events s) (layers s) (mixnode_id_counter s) (pending_mixnode_changes s) (unbonded_mixnodes
    s) x (delegations s) (gateways s) (families s) (members s) (nonces s).
Definition set_delegations (s : Store) (x : gmap StorageKey Delegation.t) : Store :=
  mkStore (contract_state s) (rewarding_params s) (pending_reward_pool_change s) (mixnode_rewarding s)
    (epoch_status s) (interval s) (rewarded_set s) (epoch_event_id_counter s) (interval_event_id_counter s)
    (last_processed_epoch_event s) (last_processed_interval_event s) (pending_epoch_events s)
    (pending_interval_events s) (layers s) (mixnode_id_counter s) (pending_mixnode_changes s) (unbonded_mixnodes
    s) (mixnode_bonds s) x (gateways s) (families s) (members s) (nonces s).
Definition set_gateways (s : Store) (x : gmap IdentityKey GatewayBond.t) : Store :=
  mkStore (contract_state s) (rewarding_params s) (pending_reward_pool_change s) (mixnode_rewarding s)
    (epoch_status s) (interval s) (rewarded_set s) (epoch_event_id_counter s) (interval_event_id_counter s)
    (last_processed_epoch_event s) (last_processed_interval_event s) (pending_epoch_events s)
    (pending_interval_events s) (layers s) (mixnode_id_counter s) (pending_mixnode_changes s) (unbonded_mixnodes
    s) (mixnode_bonds s) (delegations s) x (families s) (members s) (nonces s).
Definition set_families (s : Store) (x : gmap IdentityKey Family) : Store :=
  mkStore (contract_state s) (rewarding_params s) (pending_reward_pool_change s) (mixnode_rewarding s)
    (epoch_status s) (interval s) (rewarded_set s) (epoch_event_id_counter s) (interval_event_id_counter s)
    (last_processed_epoch_event s) (last_processed_interval_event s) (pending_epoch_events s)
    (pending_interval_events s) (layers s) (mixnode_id_counter s) (pending_mixnode_changes s) (unbonded_mixnodes
    s) (mixnode_bonds s) (delegations s) (gateways s) x (members s) (nonces s).
Definition set_members (s : Store) (x : gmap IdentityKey FamilyHead) : Store :=
  mkStore (contract_state s) (rewarding_params s) (pending_reward_pool_change s) (mixnode_rewarding s)
    (epoch_status s) (interval s) (rewarded_set s) (epoch_event_id_counter s) (interval_event_id_counter s)
    (last_processed_epoch_event s) (last_processed_interval_event s) (pending_epoch_events s)
    (pending_interval_events s) (layers s) (mixnode_id_counter s) (pending_mixnode_changes s) (unbonded_mixnodes
    s) (mixnode_bonds s) (delegations s) (gateways s) (families s) x (nonces s).
Definition set_nonces (s : Store) (x : gmap Addr Z) : Store :=
  mkStore (contract_state s) (rewarding_params s) (pending_reward_pool_change s) (mixnode_rewarding s)
    (epoch_status s) (interval s) (rewarded_set s) (epoch_event_id_counter s) (interval_event_id_counter s)
    (last_processed_epoch_event s) (last_processed_interval_event s) (pending_epoch_events s)
    (pending_interval_events s) (layers s) (mixnode_id_counter s) (pending_mixnode_changes s) (unbonded_mixnodes
    s) (mixnode_bonds s) (delegations s) (gateways s) (families s) (members s) x.

(** ** Maps with unique indexes *)

(** [index.item(key)]: the record with the given indexed field. *)
Definition find_by {K V} `{Countable K} (f : V -> bool) (m : gmap K V) : option V :=
  snd <$> head (filter (fun kv => f (snd kv) = true) (map_to_list m)).

(** Some record under another key has the property. *)
Definition clashes {K V} `{Countable K} (k : K) (f : V -> bool) (m : gmap K V) : bool :=
  bool_decide (filter (fun kv => fst kv <> k /\ f (snd kv) = true) (map_to_list m) <> []).

Definition addr_eqb (a b : string) : bool := bool_decide (a = b).

(** [mixnode_bonds().save] and [.replace] with a new value. *)
Definition save_bond (s : Store) (mix_id : MixId) (b : MixNodeBond.t) : result Store :=
  let same f := clashes mix_id (fun b' => addr_eqb (f b') (f b)) (mixnode_bonds s) in
  if same MixNodeBond.owner || same MixNodeBond.identity
     || same (fun b => sphinx_key (MixNodeBond.mix_node b))
  then Err (StdErr UniqueConstraint)
  else Ok (set_mixnode_bonds s (<[mix_id := b]> (mixnode_bonds s))).

(** [gateways().save] and [.replace] with a new value. *)
Definition save_gateway (s : Store) (identity : IdentityKey) (b : GatewayBond.t) : result Store :=
  if clashes identity (fun b' => addr_eqb (GatewayBond.owner b') (GatewayBond.owner b)) (gateways s)
  then Err (StdErr UniqueConstraint)
  else Ok (set_gateways s (<[identity := b]> (gateways s))).

Definition mixnode_by_owner (s : Store) (owner : Addr) : option MixNodeBond.t :=
  find_by (fun b => addr_eqb (MixNodeBond.owner b) owner) (mixnode_bonds s).

Definition mixnode_by_identity (s : Store) (identity : IdentityKey) : option MixNodeBond.t :=
  find_by (fun b => addr_eqb (MixNodeBond.identity b) identity) (mixnode_bonds s).

Definition gateway_by_owner (s : Store) (owner : Addr) : option GatewayBond.t :=
  find_by (fun b => addr_eqb (GatewayBond.owner b) owner) (gateways s).

(** ** Pending events, [interval/storage.rs] *)

Definition next_epoch_event_id_counter (s : Store) : result (EpochEventId * Store) :=
  let? id := u32_add (epoch_event_id_counter s) 1 in
  Ok (id, set_epoch_event_id_counter s id).

Definition next_interval_event_id_counter (s : Store) : result (IntervalEventId * Store) :=
  let? id := u32_add (interval_event_id_counter s) 1 in
  Ok (id, set_interval_event_id_counter s id).

Definition push_new_epoch_event (s : Store) (env : Env) (event : PendingEpochEventKind)
    : result (EpochEventId * Store) :=
  let? (event_id, s) := next_epoch_event_id_counter s in
  let event_data := mkEpochEvent (block_height env) event in
  Ok (event_id, set_pending_epoch_events s (<[event_id := event_data]> (pending_epoch_events s))).

Definition push_new_interval_event (s : Store) (env : Env) (event : PendingIntervalEventKind)
    : result (IntervalEventId * Store) :=
  let? (event_id, s) := next_interval_event_id_counter s in
  let event_data := mkIntervalEvent (block_height env) event in
  Ok (event_id, set_pending_interval_events s (<[event_id := event_data]> (pending_interval_events s))).

(** One iteration of the loop of [update_rewarded_set] over the new set: the
    stored set and the entries of the old set not seen again so far. *)
Definition update_rewarded_set_step (active_set_size : Z) (i : Z) (node_id : MixId)
    (acc : gmap MixId RewardedSetNodeStatus * gmap MixId RewardedSetNodeStatus)
    : gmap MixId RewardedSetNodeStatus * gmap MixId RewardedSetNodeStatus :=
  let '(stored, old_nodes) := acc in
  let set_status := if i <? active_set_size then Active else Standby in
  let stored := if bool_decide (old_nodes !! node_id = Some set_status) then stored
                else <[node_id := set_status]> stored in
  (stored, delete node_id old_nodes).

Fixpoint update_rewarded_set_loop (active_set_size : Z) (i : Z) (new_set : list MixId)
    (acc : gmap MixId RewardedSetNodeStatus * gmap MixId RewardedSetNodeStatus)
    : gmap MixId RewardedSetNodeStatus * gmap MixId RewardedSetNodeStatus :=
  match new_set with
  | [] => acc
  | node_id :: new_set' =>
      update_rewarded_set_loop active_set_size (i + 1) new_set'
        (update_rewarded_set_step active_set_size i node_id acc)
  end.

Definition storage_update_rewarded_set (s : Store) (active_set_size : Z) (new_set : list MixId) : Store :=
  let '(stored, old_nodes) :=
    update_rewarded_set_loop active_set_size 0 new_set (rewarded_set s, rewarded_set s) in
  set_rewarded_set s (foldr (fun old_node_id m => delete old_node_id m) stored ((map_to_list old_nodes).*1)).

(** ** Layers and identifiers, [mixnodes/storage.rs] *)

Definition storage_decrement_layer_count (s : Store) (layer : Layer) : result Store :=
  let? l := LayerDistribution.decrement_layer_count (layers s) layer in
  Ok (set_layers s l).

Definition assign_layer (s : Store) : result (Layer * Store) :=
  let fewest := LayerDistribution.choose_with_fewest (layers s) in
  let? l := LayerDistribution.increment_layer_count (layers s) fewest in
  Ok (fewest, set_layers s l).

Definition next_mixnode_id_counter (s : Store) : result (MixId * Store) :=
  let? id := u32_add (mixnode_id_counter s) 1 in
  Ok (id, set_mixnode_id_counter s id).

(** ** Nonces, [signing/storage.rs] *)

Definition get_signing_nonce (s : Store) (address : Addr) : Z := default 0 (nonces s !! address).

Definition increment_signing_nonce (s : Store) (address : Addr) : result Store :=
  let? n := u32_add (get_signing_nonce s address) 1 in
  Ok (set_nonces s (<[address := n]> (nonces s))).
