(* ===== verification/MixnetSupport.v ===== *)
(** * Helpers of the mixnet contract

    The checks and multi-part updates the contract's transactions share:
    [contracts/mixnet/src/support/helpers.rs], [mixnodes/helpers.rs],
    [gateways/helpers.rs], [rewards/helpers.rs], [rewards/storage.rs],
    [delegations/helpers.rs], [interval/helpers.rs] and the signature
    helpers of mixnodes, gateways and families. *)

From S2P Require Import Prelude Bytes Cosmwasm MixnetTypes Rewarding Interval MixnetStorage.
From Stdlib.Strings Require Import Byte.

(** ** Responses, [support/helpers.rs] *)

Definition send_to_proxy_or_owner (proxy : option Addr) (owner : Addr) (coins : list Coin) : CosmosMsg :=
  BankSend (default owner proxy) coins.

(** The messages that tell the vesting contract about returned tokens.  They
    fail when the proxy is not the vesting contract. *)
Definition maybe_add_track_message (s : Store) (response : Response) (proxy : option Addr) (msg : VestingMsg)
    : result Response :=
  match proxy with
  | Some proxy =>
      let vesting_contract := vesting_contract_address (contract_state s) in
      if addr_eqb proxy vesting_contract then Ok (response ++ [WasmExecute proxy msg])
      else Err (ProxyIsNotVestingContract proxy vesting_contract)
  | None => Ok response
  end.

Definition maybe_add_track_vesting_undelegation_message (s : Store) (response : Response) (proxy : option Addr)
    (owner : string) (mix_id : MixId) (coin : Coin) : result Response :=
  maybe_add_track_message s response proxy (TrackUndelegation owner mix_id coin).

Definition maybe_add_track_vesting_unbond_mixnode_message (s : Store) (response : Response)
    (proxy : option Addr) (owner : string) (coin : Coin) : result Response :=
  maybe_add_track_message s response proxy (TrackUnbondMixnode owner coin).

Definition maybe_add_track_vesting_decrease_mixnode_pledge (s : Store) (response : Response)
    (proxy : option Addr) (owner : string) (coin : Coin) : result Response :=
  maybe_add_track_message s response proxy (TrackDecreasePledge owner coin).

(** ** Checks, [support/helpers.rs] *)

Definition validate_pledge (pledge : list Coin) (minimum_pledge : Coin) : result Coin :=
  match pledge with
  | [] => Err NoBondFound
  | [c] =>
      if negb (addr_eqb (denom c) (denom minimum_pledge)) then Err (WrongDenom (denom c) (denom minimum_pledge))
      else if amount c <? amount minimum_pledge then Err (InsufficientPledge c minimum_pledge)
      else Ok c
  | _ => Err MultipleDenoms
  end.

Definition validate_delegation_stake (delegation : list Coin) (minimum_delegation : option Coin)
    (expected_denom : string) : result Coin :=
  match delegation with
  | [] => Err EmptyDelegation
  | [c] =>
      if negb (addr_eqb (denom c) expected_denom) then Err (WrongDenom (denom c) expected_denom)
      else
        match minimum_delegation with
        | Some minimum => if amount c <? amount minimum then Err (InsufficientDelegation c minimum) else Ok c
        | None => if amount c =? 0 then Err EmptyDelegation else Ok c
        end
  | _ => Err MultipleDenoms
  end.

Definition ensure_epoch_in_progress_state (s : Store) : result unit :=
  ensure (EpochStatus.is_in_progress (epoch_status s))
    (EpochAdvancementInProgress (EpochStatus.state (epoch_status s))).

Definition ensure_is_authorized (sender : Addr) (s : Store) : result unit :=
  ensure (addr_eqb sender (rewarding_validator_address (contract_state s))) Unauthorized.

Definition ensure_can_advance_epoch (sender : Addr) (s : Store) : result EpochStatus.t :=
  let status := epoch_status s in
  if addr_eqb sender (EpochStatus.being_advanced_by status) then Ok status
  else
    let? _ := ensure_is_authorized sender s in
    Err (RewardingValidatorMismatch sender (EpochStatus.being_advanced_by status)).

Definition ensure_is_owner (sender : Addr) (s : Store) : result unit :=
  ensure (addr_eqb sender (cs_owner (contract_state s))) Unauthorized.

Definition proxy_string (p : option Addr) : string := default "None"%string p.

Definition ensure_proxy_match (actual expected : option Addr) : result unit :=
  ensure (bool_decide (actual = expected)) (ProxyMismatch (proxy_string expected) (proxy_string actual)).

Definition ensure_sent_by_vesting_contract (info : MessageInfo) (s : Store) : result unit :=
  let v := vesting_contract_address (contract_state s) in
  ensure (addr_eqb (sender info) v) (SenderIsNotVestingContract (sender info) v).

Definition ensure_bonded (bond : MixNodeBond.t) : result unit :=
  ensure (negb (MixNodeBond.is_unbonding bond)) (MixnodeIsUnbonding (MixNodeBond.mix_id bond)).

Definition ensure_no_pending_pledge_changes (c : PendingMixNodeChanges) : result unit :=
  match pledge_change c with
  | Some pending_event_id => Err (PendingPledgeChange pending_event_id)
  | None => Ok tt
  end.

Definition ensure_no_existing_bond (sender : Addr) (s : Store) : result unit :=
  let? _ := ensure (bool_decide (mixnode_by_owner s sender = None)) AlreadyOwnsMixnode in
  ensure (bool_decide (gateway_by_owner s sender = None)) AlreadyOwnsGateway.

Section Helpers.
Context `{CosmMath} `{ChainApi} `{SignatureApi}.

(** ** Signatures *)

Definition decode_ed25519_identity_key (encoded : IdentityKey) : result (list byte) :=
  match bs58_decode encoded with
  | Some key => if len key =? 32 then Ok key else Err MalformedEd25519IdentityKey
  | None => Err MalformedEd25519IdentityKey
  end.

(** A message that must carry a valid signature. *)
Definition check_signature (msg : SignableMessage) (signature public_key : list byte) : result unit :=
  let? valid := verify_message msg signature public_key in
  ensure valid InvalidEd25519Signature.

Definition verify_mixnode_bonding_signature (s : Store) (sender : Addr) (proxy : option Addr) (pledge : Coin)
    (mixnode : MixNode) (cost_params : MixNodeCostParams) (signature : list byte) : result unit :=
  let? public_key := decode_ed25519_identity_key (identity_key mixnode) in
  let nonce := get_signing_nonce s sender in
  let msg := construct_mixnode_bonding_sign_payload nonce sender proxy pledge mixnode cost_params in
  check_signature msg signature public_key.

Definition verify_gateway_bonding_signature (s : Store) (sender : Addr) (proxy : option Addr) (pledge : Coin)
    (gateway : Gateway) (signature : list byte) : result unit :=
  let? public_key := decode_ed25519_identity_key (gw_identity_key gateway) in
  let nonce := get_signing_nonce s sender in
  let msg := construct_gateway_bonding_sign_payload nonce sender proxy pledge gateway in
  check_signature msg signature public_key.

Definition verify_family_join_permit (s : Store) (granter : FamilyHead) (proxy : option Addr)
    (member : IdentityKey) (signature : list byte) : result unit :=
  let? public_key := decode_ed25519_identity_key granter in
  let? head_mixnode := or_err (mixnode_by_identity s granter) (FamilyDoesNotExist granter) in
  let nonce := get_signing_nonce s (MixNodeBond.owner head_mixnode) in
  let msg := construct_family_join_permit nonce granter proxy member in
  check_signature msg signature public_key.

(** ** Mixnodes, [mixnodes/helpers.rs] *)

(** [MixNodeDetails]. *)
Record MixNodeDetails : Type := mkDetails {
  bond_information : MixNodeBond.t;
  rewarding_details : MixNodeRewarding.t;
  pending_changes : PendingMixNodeChanges
}.

Definition must_get_mixnode_bond_by_owner (s : Store) (owner : Addr) : result MixNodeBond.t :=
  or_err (mixnode_by_owner s owner) (NoAssociatedMixNodeBond owner).

Definition pending_changes_of (s : Store) (mix_id : MixId) : PendingMixNodeChanges :=
  default new_empty_changes (pending_mixnode_changes s !! mix_id).

Definition attach_mix_details (s : Store) (bond : MixNodeBond.t) : result MixNodeDetails :=
  let? rewarding := or_err (mixnode_rewarding s !! MixNodeBond.mix_id bond) (StdErr NotFound) in
  Ok (mkDetails bond rewarding (pending_changes_of s (MixNodeBond.mix_id bond))).

Definition get_mixnode_details_by_id (s : Store) (mix_id : MixId) : result (option MixNodeDetails) :=
  match mixnode_bonds s !! mix_id with
  | Some bond => let? d := attach_mix_details s bond in Ok (Some d)
  | None => Ok None
  end.

Definition get_mixnode_details_by_owner (s : Store) (address : Addr) : result (option MixNodeDetails) :=
  match mixnode_by_owner s address with
  | Some bond => let? d := attach_mix_details s bond in Ok (Some d)
  | None => Ok None
  end.

Definition save_rewarding (s : Store) (mix_id : MixId) (n : MixNodeRewarding.t) : Store :=
  set_mixnode_rewarding s (<[mix_id := n]> (mixnode_rewarding s)).

Definition save_new_mixnode (s : Store) (env : Env) (mixnode : MixNode) (cost_params : MixNodeCostParams)
    (owner : Addr) (proxy : option Addr) (pledge : Coin) : result (MixId * Layer * Store) :=
  let? (layer, s) := assign_layer s in
  let? (mix_id, s) := next_mixnode_id_counter s in
  let current_epoch := Interval.current_epoch_absolute_id (interval s) in
  let? mixnode_rewarding := MixNodeRewarding.initialise_new cost_params pledge current_epoch in
  let mixnode_bond := MixNodeBond.new mix_id owner pledge layer mixnode proxy (block_height env) in
  let? s := save_bond s mix_id mixnode_bond in
  Ok (mix_id, layer, save_rewarding s mix_id mixnode_rewarding).

Definition cleanup_post_unbond_mixnode_storage (s : Store) (env : Env) (details : MixNodeDetails) : result Store :=
  let bond := bond_information details in
  let mix_id := MixNodeBond.mix_id bond in
  let s := set_mixnode_bonds s (delete mix_id (mixnode_bonds s)) in
  let s :=
    if MixNodeRewarding.unique_delegations (rewarding_details details) =? 0
    then set_mixnode_rewarding s (delete mix_id (mixnode_rewarding s))
    else save_rewarding s mix_id (MixNodeRewarding.set_operator (rewarding_details details) dec_zero) in
  let s := set_unbonded_mixnodes s
    (<[mix_id := mkUnbonded (MixNodeBond.identity bond) (MixNodeBond.owner bond) (MixNodeBond.proxy bond)
                   (block_height env)]> (unbonded_mixnodes s)) in
  storage_decrement_layer_count s (MixNodeBond.layer bond).

(** [mixnodes/transactions.rs]. *)
Definition update_mixnode_layer (s : Store) (mix_id : MixId) (layer : Layer) : result Store :=
  let? bond := or_err (mixnode_bonds s !! mix_id) (MixNodeBondNotFound mix_id) in
  save_bond s (MixNodeBond.mix_id bond) (MixNodeBond.set_layer bond layer).

(** ** Gateways, [gateways/helpers.rs] *)

Definition must_get_gateway_bond_by_owner (s : Store) (owner : Addr) : result GatewayBond.t :=
  or_err (gateway_by_owner s owner) (NoAssociatedGatewayBond owner).

(** ** Rewards, [rewards/storage.rs] and [rewards/helpers.rs] *)

Definition reward_accounting (s : Store) (amount : Decimal) : result Store :=
  let change := pending_reward_pool_change s in
  let? r := dadd (removed change) amount in
  Ok (set_pending_reward_pool_change s (mkPoolChange r (added change))).

Definition update_and_save_last_rewarded (s : Store) (status : EpochStatus.t) (new_last_rewarded : MixId)
    : result Store :=
  let? (status, is_done) := EpochStatus.update_last_rewarded status new_last_rewarded in
  let status := if is_done : bool then EpochStatus.set_state status ReconcilingEvents else status in
  Ok (set_epoch_status s status).

Definition apply_reward_pool_changes (s : Store) : result Store :=
  let p := rewarding_params s in
  let i := RewardingParams.interval p in
  let change := pending_reward_pool_change s in
  let? pool := dsub (reward_pool i) (removed change) in
  let? pool := dadd pool (added change) in
  let? scaled := Percent.mul (staking_supply_scale_factor i) (removed change) in
  let? supply := dadd (staking_supply i) scaled in
  let? epochs := lift_std (into_base_decimal (Interval.epochs_in_interval (interval s))) in
  let? per_epoch := ddiv pool epochs in
  let? budget := Percent.mul (interval_pool_emission i) per_epoch in
  let? size := lift_std (into_base_decimal (RewardingParams.rewarded_set_size p)) in
  let? point := ddiv supply size in
  let i' := mkIntervalParams pool supply (staking_supply_scale_factor i) budget point (sybil_resistance i)
              (active_set_work_factor i) (interval_pool_emission i) in
  let s := set_pending_reward_pool_change s default_pool_change in
  Ok (set_rewarding_params s
        (RewardingParams.mk i' (RewardingParams.rewarded_set_size p) (RewardingParams.active_set_size p))).

Definition withdraw_operator_reward (s : Store) (details : MixNodeDetails) : result (Coin * Store) :=
  let mix_id := MixNodeBond.mix_id (bond_information details) in
  let? (reward, n) := MixNodeRewarding.withdraw_operator_reward (rewarding_details details)
                        (MixNodeBond.original_pledge (bond_information details)) in
  Ok (reward, save_rewarding s mix_id n).

(** [delegations().replace] with a new value. *)
Definition save_delegation (s : Store) (key : StorageKey) (d : Delegation.t) : Store :=
  set_delegations s (<[key := d]> (delegations s)).

Definition withdraw_delegator_reward (s : Store) (d : Delegation.t) (n : MixNodeRewarding.t)
    : result (Coin * Store) :=
  let mix_id := Delegation.mix_id d in
  let? (reward, n, updated) := MixNodeRewarding.withdraw_delegator_reward n d in
  let s := save_delegation s (Delegation.storage_key d) updated in
  Ok (reward, save_rewarding s mix_id n).

(** ** Delegations, [delegations/helpers.rs] *)

Definition helper_undelegate (s : Store) (d : Delegation.t) (n : MixNodeRewarding.t) : result (Coin * Store) :=
  let? (coin, n) := MixNodeRewarding.undelegate n d in
  let s := save_rewarding s (Delegation.mix_id d) n in
  Ok (coin, set_delegations s (delete (Delegation.storage_key d) (delegations s))).

(** ** Intervals, [interval/helpers.rs] *)

Definition change_interval_config (s : Store) (i : Interval.t) (epochs_in_interval epoch_duration_secs : Z)
    : result Store :=
  let i := Interval.change_epoch_length i (Interval.from_secs epoch_duration_secs) in
  let? p := RewardingParams.apply_epochs_in_interval_change (rewarding_params s) epochs_in_interval in
  let s := set_rewarding_params s p in
  let? i := Interval.force_change_epochs_in_interval i epochs_in_interval in
  Ok (set_interval s i).

End Helpers.
