(* ===== verification/MixnetEvents.v ===== *)
(** * Execution of pending events

    Models [contracts/mixnet/src/interval/pending_events.rs] and the two
    loops of [interval/transactions.rs] that work off the queues of epoch and
    interval events. *)

From S2P Require Import Prelude Bytes Cosmwasm MixnetTypes Rewarding Interval MixnetStorage MixnetSupport.

Section Events.
Context `{CosmMath} `{ChainApi}.

(** ** Epoch events *)

Definition delegate (s : Store) (env : Env) (created_at : BlockHeight) (owner : Addr) (mix_id : MixId)
    (coin : Coin) (proxy : option Addr) : result (Store * Response) :=
  let? details := get_mixnode_details_by_id s mix_id in
  match details with
  | Some d =>
      if MixNodeRewarding.still_bonded (rewarding_details d)
         && negb (MixNodeBond.is_unbonding (bond_information d))
      then
        let n := rewarding_details d in
        let storage_key := Delegation.generate_storage_key mix_id owner proxy in
        let? (n, stored_delegation_amount) :=
          (match delegations s !! storage_key with
           | Some existing_delegation =>
               let? (og_with_reward, n) := MixNodeRewarding.undelegate n existing_delegation in
               let? a := uadd (amount coin) (amount og_with_reward) in
               Ok (n, mkCoin (denom coin) a)
           | None => Ok (n, coin)
           end) in
        let? n := MixNodeRewarding.add_base_delegation n (amount stored_delegation_amount) in
        let? delegation := Delegation.new owner mix_id (MixNodeRewarding.total_unit_reward n)
                             stored_delegation_amount (block_height env) proxy in
        let s := save_delegation s storage_key delegation in
        Ok (save_rewarding s mix_id n, [])
      else
        let? r := maybe_add_track_vesting_undelegation_message s
                    [send_to_proxy_or_owner proxy owner [coin]] proxy owner mix_id coin in
        Ok (s, r)
  | None =>
      let? r := maybe_add_track_vesting_undelegation_message s
                  [send_to_proxy_or_owner proxy owner [coin]] proxy owner mix_id coin in
      Ok (s, r)
  end.

Definition undelegate (s : Store) (created_at : BlockHeight) (owner : Addr) (mix_id : MixId)
    (proxy : option Addr) : result (Store * Response) :=
  let storage_key := Delegation.generate_storage_key mix_id owner proxy in
  match delegations s !! storage_key with
  | None => Ok (s, [])
  | Some delegation =>
      let? n := or_err (mixnode_rewarding s !! mix_id) InconsistentState in
      let? (tokens_to_return, s) := helper_undelegate s delegation n in
      let? r := maybe_add_track_vesting_undelegation_message s
                  [send_to_proxy_or_owner proxy owner [tokens_to_return]] proxy owner mix_id tokens_to_return in
      Ok (s, r)
  end.

Definition unbond_mixnode (s : Store) (env : Env) (created_at : BlockHeight) (mix_id : MixId)
    : result (Store * Response) :=
  let? details := get_mixnode_details_by_id s mix_id in
  let? d := or_err details InconsistentState in
  let? _ := ensure (bool_decide (pledge_change (pending_changes d) = None)) InconsistentState in
  let bond := bond_information d in
  let? tokens := MixNodeRewarding.operator_pledge_with_reward (rewarding_details d)
                   (denom (MixNodeBond.original_pledge bond)) in
  let return_tokens := send_to_proxy_or_owner (MixNodeBond.proxy bond) (MixNodeBond.owner bond) [tokens] in
  let? s := cleanup_post_unbond_mixnode_storage s env d in
  let? r := maybe_add_track_vesting_unbond_mixnode_message s [return_tokens] (MixNodeBond.proxy bond)
              (MixNodeBond.owner bond) tokens in
  Ok (s, r).

Definition update_active_set_size (s : Store) (created_at : BlockHeight) (active_set_size : Z)
    : result (Store * Response) :=
  let? p := RewardingParams.try_change_active_set_size (rewarding_params s) active_set_size in
  Ok (set_rewarding_params s p, []).

Definition increase_pledge (s : Store) (created_at : BlockHeight) (mix_id : MixId) (increase : Coin)
    : result (Store * Response) :=
  let? details := get_mixnode_details_by_id s mix_id in
  let? d := or_err details InconsistentState in
  let? _ := ensure (negb (bool_decide (pledge_change (pending_changes d) = None))) InconsistentState in
  let bond := bond_information d in
  let pledge := MixNodeBond.original_pledge bond in
  let? new_amount := uadd (amount pledge) (amount increase) in
  let updated_bond := MixNodeBond.set_pledge bond (mkCoin (denom pledge) new_amount) in
  let? n := MixNodeRewarding.increase_operator_uint128 (rewarding_details d) (amount increase) in
  let? s := save_bond s mix_id updated_bond in
  let s := save_rewarding s mix_id n in
  Ok (set_pending_mixnode_changes s (<[mix_id := mkChanges None]> (pending_mixnode_changes s)), []).

Definition decrease_pledge (s : Store) (created_at : BlockHeight) (mix_id : MixId) (decrease_by : Coin)
    : result (Store * Response) :=
  let? details := get_mixnode_details_by_id s mix_id in
  let? d := or_err details InconsistentState in
  let? _ := ensure (negb (bool_decide (pledge_change (pending_changes d) = None))) InconsistentState in
  let bond := bond_information d in
  let pledge := MixNodeBond.original_pledge bond in
  let? new_amount := usub (amount pledge) (amount decrease_by) in
  let updated_bond := MixNodeBond.set_pledge bond (mkCoin (denom pledge) new_amount) in
  let? n := MixNodeRewarding.decrease_operator_uint128 (rewarding_details d) (amount decrease_by) in
  let return_tokens := send_to_proxy_or_owner (MixNodeBond.proxy bond) (MixNodeBond.owner bond) [decrease_by] in
  let? s := save_bond s mix_id updated_bond in
  let s := save_rewarding s mix_id n in
  let s := set_pending_mixnode_changes s (<[mix_id := mkChanges None]> (pending_mixnode_changes s)) in
  let? r := maybe_add_track_vesting_decrease_mixnode_pledge s [return_tokens] (MixNodeBond.proxy bond)
              (MixNodeBond.owner bond) decrease_by in
  Ok (s, r).

Definition execute_epoch_event (e : PendingEpochEventData) (s : Store) (env : Env) : result (Store * Response) :=
  match epoch_kind e with
  | Delegate owner mix_id coin proxy => delegate s env (epoch_created_at e) owner mix_id coin proxy
  | Undelegate owner mix_id proxy => undelegate s (epoch_created_at e) owner mix_id proxy
  | PledgeMore mix_id coin => increase_pledge s (epoch_created_at e) mix_id coin
  | DecreasePledge mix_id decrease_by => decrease_pledge s (epoch_created_at e) mix_id decrease_by
  | UnbondMixnode mix_id => unbond_mixnode s env (epoch_created_at e) mix_id
  | UpdateActiveSetSize new_size => update_active_set_size s (epoch_created_at e) new_size
  end.

(** ** Interval events *)

Definition change_mix_cost_params (s : Store) (created_at : BlockHeight) (mix_id : MixId)
    (new_costs : MixNodeCostParams) : result (Store * Response) :=
  match mixnode_rewarding s !! mix_id with
  | Some n =>
      if MixNodeRewarding.still_bonded n
      then Ok (save_rewarding s mix_id (MixNodeRewarding.set_cost_params n new_costs), [])
      else Ok (s, [])
  | None => Ok (s, [])
  end.

Definition update_rewarding_params (s : Store) (created_at : BlockHeight)
    (updated_params : IntervalRewardingParamsUpdate) : result (Store * Response) :=
  let? p := RewardingParams.try_apply_updates (rewarding_params s) updated_params
              (Interval.epochs_in_interval (interval s)) in
  Ok (set_rewarding_params s p, []).

Definition update_interval_config (s : Store) (created_at : BlockHeight)
    (epochs_in_interval epoch_duration_secs : Z) : result (Store * Response) :=
  let? s := change_interval_config s (interval s) epochs_in_interval epoch_duration_secs in
  Ok (s, []).

Definition execute_interval_event (e : PendingIntervalEventData) (s : Store) : result (Store * Response) :=
  match interval_kind e with
  | ChangeMixCostParams mix_id new_costs => change_mix_cost_params s (interval_created_at e) mix_id new_costs
  | UpdateRewardingParams update => update_rewarding_params s (interval_created_at e) update
  | UpdateIntervalConfig epochs_in_interval epoch_duration_secs =>
      update_interval_config s (interval_created_at e) epochs_in_interval epoch_duration_secs
  end.

(** ** The queues, [interval/transactions.rs] *)

(** The identifier of the last event to execute. *)
Definition last_to_execute (last_executed last_inserted : Z) (limit : option Z) : result Z :=
  let? pending := u32_sub last_inserted last_executed in
  match limit with
  | Some limit => if pending <=? limit then Ok last_inserted else u32_add last_executed limit
  | None => Ok last_inserted
  end.

(** The bodies of the loops over the events [event_id], [event_id + 1], ... *)
Fixpoint epoch_events_loop (n : nat) (event_id : Z) (s : Store) (env : Env) : result (Store * Response) :=
  match n with
  | O => Ok (s, [])
  | S n' =>
      let? event := or_err (pending_epoch_events s !! event_id) (StdErr NotFound) in
      let? (s, sub_response) := execute_epoch_event event s env in
      let s := set_pending_epoch_events s (delete event_id (pending_epoch_events s)) in
      let? (s, rest) := epoch_events_loop n' (event_id + 1) s env in
      Ok (s, sub_response ++ rest)
  end.

Fixpoint interval_events_loop (n : nat) (event_id : Z) (s : Store) : result (Store * Response) :=
  match n with
  | O => Ok (s, [])
  | S n' =>
      let? event := or_err (pending_interval_events s !! event_id) (StdErr NotFound) in
      let? (s, sub_response) := execute_interval_event event s in
      let s := set_pending_interval_events s (delete event_id (pending_interval_events s)) in
      let? (s, rest) := interval_events_loop n' (event_id + 1) s in
      Ok (s, sub_response ++ rest)
  end.

Definition perform_pending_epoch_actions (s : Store) (env : Env) (limit : option Z)
    : result (Store * Response * Z) :=
  let last_executed := last_processed_epoch_event s in
  let last_inserted := epoch_event_id_counter s in
  if last_executed =? last_inserted then Ok (s, [], 0)
  else
    let? last := last_to_execute last_executed last_inserted limit in
    let? (s, response) := epoch_events_loop (Z.to_nat (last - last_executed)) (last_executed + 1) s env in
    Ok (set_last_processed_epoch_event s last, response, last - last_executed).

Definition perform_pending_interval_actions (s : Store) (limit : option Z) : result (Store * Response * Z) :=
  let last_executed := last_processed_interval_event s in
  let last_inserted := interval_event_id_counter s in
  if last_executed =? last_inserted then Ok (s, [], 0)
  else
    let? last := last_to_execute last_executed last_inserted limit in
    let? (s, response) := interval_events_loop (Z.to_nat (last - last_executed)) (last_executed + 1) s in
    Ok (set_last_processed_interval_event s last, response, last - last_executed).

End Events.
