(* ===== verification/MixnetTransactions.v ===== *)
(** * Transactions of the mixnet contract

    Models the entry points of [contracts/mixnet/src/contract.rs] and every
    transaction they dispatch to: [mixnodes/transactions.rs],
    [delegations/transactions.rs], [gateways/transactions.rs],
    [families/transactions.rs], [rewards/transactions.rs],
    [interval/transactions.rs] and [mixnet_contract_settings/transactions.rs].

    A transaction takes the store, the block and the message's sender and
    funds to a new store and the messages it emits, or fails, and then the
    chain keeps the old store. *)

From S2P Require Import Prelude Bytes Cosmwasm MixnetTypes Rewarding Interval MixnetStorage MixnetSupport MixnetEvents.
From Stdlib.Strings Require Import Byte.

Section Transactions.
Context `{CosmMath} `{ChainApi} `{SignatureApi}.

Definition validate_address (a : string) : result Addr := or_err (addr_validate a) (StdErr (InvalidAddress a)).

(** ** Mixnodes *)

Definition assign_mixnode_layer (s : Store) (info : MessageInfo) (mix_id : MixId) (layer : Layer)
    : result (Store * Response) :=
  let? _ := ensure_is_authorized (sender info) s in
  let? s := update_mixnode_layer s mix_id layer in
  Ok (s, []).

Definition _try_add_mixnode (s : Store) (env : Env) (mixnode : MixNode) (cost_params : MixNodeCostParams)
    (pledge : list Coin) (owner : Addr) (owner_signature : list byte) (proxy : option Addr)
    : result (Store * Response) :=
  let minimum_pledge := minimum_mixnode_pledge (params (contract_state s)) in
  let? pledge := validate_pledge pledge minimum_pledge in
  let? _ := ensure_no_existing_bond owner s in
  let? _ := verify_mixnode_bonding_signature s owner proxy pledge mixnode cost_params owner_signature in
  let? s := increment_signing_nonce s owner in
  let? (_, s) := save_new_mixnode s env mixnode cost_params owner proxy pledge in
  Ok (s, []).

Definition try_add_mixnode (s : Store) (env : Env) (info : MessageInfo) (mix_node : MixNode)
    (cost_params : MixNodeCostParams) (owner_signature : list byte) : result (Store * Response) :=
  _try_add_mixnode s env mix_node cost_params (funds info) (sender info) owner_signature None.

Definition try_add_mixnode_on_behalf (s : Store) (env : Env) (info : MessageInfo) (mix_node : MixNode)
    (cost_params : MixNodeCostParams) (owner : string) (owner_signature : list byte) : result (Store * Response) :=
  let? _ := ensure_sent_by_vesting_contract info s in
  let proxy := sender info in
  let? owner := validate_address owner in
  _try_add_mixnode s env mix_node cost_params (funds info) owner owner_signature (Some proxy).

Definition _try_increase_pledge (s : Store) (env : Env) (increase : list Coin) (owner : Addr)
    (proxy : option Addr) : result (Store * Response) :=
  let? details := get_mixnode_details_by_owner s owner in
  let? d := or_err details (NoAssociatedMixNodeBond owner) in
  let mix_id := MixNodeBond.mix_id (bond_information d) in
  let? _ := ensure_epoch_in_progress_state s in
  let? _ := ensure_proxy_match proxy (MixNodeBond.proxy (bond_information d)) in
  let? _ := ensure_bonded (bond_information d) in
  let? _ := ensure_no_pending_pledge_changes (pending_changes d) in
  let? pledge_increase := validate_pledge increase (mkCoin (rewarding_denom (contract_state s)) 1) in
  let? (epoch_event_id, s) := push_new_epoch_event s env (PledgeMore mix_id pledge_increase) in
  Ok (set_pending_mixnode_changes s (<[mix_id := mkChanges (Some epoch_event_id)]> (pending_mixnode_changes s)), []).

Definition try_increase_pledge (s : Store) (env : Env) (info : MessageInfo) : result (Store * Response) :=
  _try_increase_pledge s env (funds info) (sender info) None.

Definition try_increase_pledge_on_behalf (s : Store) (env : Env) (info : MessageInfo) (owner : string)
    : result (Store * Response) :=
  let? _ := ensure_sent_by_vesting_contract info s in
  let proxy := sender info in
  let? owner := validate_address owner in
  _try_increase_pledge s env (funds info) owner (Some proxy).

Definition _try_decrease_pledge (s : Store) (env : Env) (decrease_by : Coin) (owner : Addr)
    (proxy : option Addr) : result (Store * Response) :=
  let? details := get_mixnode_details_by_owner s owner in
  let? d := or_err details (NoAssociatedMixNodeBond owner) in
  let mix_id := MixNodeBond.mix_id (bond_information d) in
  let? _ := ensure_epoch_in_progress_state s in
  let? _ := ensure_proxy_match proxy (MixNodeBond.proxy (bond_information d)) in
  let? _ := ensure_bonded (bond_information d) in
  let? _ := ensure_no_pending_pledge_changes (pending_changes d) in
  let minimum_pledge := minimum_mixnode_pledge (params (contract_state s)) in
  let? _ := ensure (addr_eqb (denom decrease_by) (denom minimum_pledge))
              (WrongDenom (denom decrease_by) (denom minimum_pledge)) in
  let? _ := ensure (negb (amount decrease_by =? 0)) ZeroCoinAmount in
  let current := amount (MixNodeBond.original_pledge (bond_information d)) in
  let new_pledge_amount := Z.max 0 (current - amount decrease_by) in
  let? _ := ensure (negb (new_pledge_amount <? amount minimum_pledge))
              (InvalidPledgeReduction current (amount decrease_by) (amount minimum_pledge) (denom minimum_pledge)) in
  let? (epoch_event_id, s) := push_new_epoch_event s env (DecreasePledge mix_id decrease_by) in
  Ok (set_pending_mixnode_changes s (<[mix_id := mkChanges (Some epoch_event_id)]> (pending_mixnode_changes s)), []).

Definition try_decrease_pledge (s : Store) (env : Env) (info : MessageInfo) (decrease_by : Coin)
    : result (Store * Response) :=
  _try_decrease_pledge s env decrease_by (sender info) None.

Definition try_decrease_pledge_on_behalf (s : Store) (env : Env) (info : MessageInfo) (decrease_by : Coin)
    (owner : string) : result (Store * Response) :=
  let? _ := ensure_sent_by_vesting_contract info s in
  let proxy := sender info in
  let? owner := validate_address owner in
  _try_decrease_pledge s env decrease_by owner (Some proxy).

Definition _try_remove_mixnode (s : Store) (env : Env) (owner : Addr) (proxy : option Addr)
    : result (Store * Response) :=
  let? existing_bond := must_get_mixnode_bond_by_owner s owner in
  let mix_id := MixNodeBond.mix_id existing_bond in
  let changes := pending_changes_of s mix_id in
  let? _ := ensure_epoch_in_progress_state s in
  let? _ := ensure_proxy_match proxy (MixNodeBond.proxy existing_bond) in
  let? _ := ensure_bonded existing_bond in
  let? _ := ensure_no_pending_pledge_changes changes in
  let? s := save_bond s mix_id (MixNodeBond.set_unbonding existing_bond) in
  let? (_, s) := push_new_epoch_event s env (UnbondMixnode mix_id) in
  Ok (s, []).

Definition try_remove_mixnode (s : Store) (env : Env) (info : MessageInfo) : result (Store * Response) :=
  _try_remove_mixnode s env (sender info) None.

Definition try_remove_mixnode_on_behalf (s : Store) (env : Env) (info : MessageInfo) (owner : string)
    : result (Store * Response) :=
  let? _ := ensure_sent_by_vesting_contract info s in
  let proxy := sender info in
  let? owner := validate_address owner in
  _try_remove_mixnode s env owner (Some proxy).

Definition _try_update_mixnode_config (s : Store) (new_config : MixNodeConfigUpdate) (owner : Addr)
    (proxy : option Addr) : result (Store * Response) :=
  let? existing_bond := must_get_mixnode_bond_by_owner s owner in
  let? _ := ensure_bonded existing_bond in
  let? _ := ensure_proxy_match proxy (MixNodeBond.proxy existing_bond) in
  let old := MixNodeBond.mix_node existing_bond in
  let node := mkMixNode (new_host new_config) (new_mix_port new_config) (new_verloc_port new_config)
                (new_http_api_port new_config) (sphinx_key old) (identity_key old) (new_version new_config) in
  let? s := save_bond s (MixNodeBond.mix_id existing_bond) (MixNodeBond.set_mix_node existing_bond node) in
  Ok (s, []).

Definition try_update_mixnode_config (s : Store) (info : MessageInfo) (new_config : MixNodeConfigUpdate)
    : result (Store * Response) :=
  _try_update_mixnode_config s new_config (sender info) None.

Definition try_update_mixnode_config_on_behalf (s : Store) (info : MessageInfo) (new_config : MixNodeConfigUpdate)
    (owner : string) : result (Store * Response) :=
  let? _ := ensure_sent_by_vesting_contract info s in
  let? owner := validate_address owner in
  let proxy := sender info in
  _try_update_mixnode_config s new_config owner (Some proxy).

Definition _try_update_mixnode_cost_params (s : Store) (env : Env) (new_costs : MixNodeCostParams)
    (owner : Addr) (proxy : option Addr) : result (Store * Response) :=
  let? existing_bond := must_get_mixnode_bond_by_owner s owner in
  let? _ := ensure_epoch_in_progress_state s in
  let? _ := ensure_proxy_match proxy (MixNodeBond.proxy existing_bond) in
  let? _ := ensure_bonded existing_bond in
  let? (_, s) := push_new_interval_event s env
                   (ChangeMixCostParams (MixNodeBond.mix_id existing_bond) new_costs) in
  Ok (s, []).

Definition try_update_mixnode_cost_params (s : Store) (env : Env) (info : MessageInfo)
    (new_costs : MixNodeCostParams) : result (Store * Response) :=
  _try_update_mixnode_cost_params s env new_costs (sender info) None.

Definition try_update_mixnode_cost_params_on_behalf (s : Store) (env : Env) (info : MessageInfo)
    (new_costs : MixNodeCostParams) (owner : string) : result (Store * Response) :=
  let? _ := ensure_sent_by_vesting_contract info s in
  let? owner := validate_address owner in
  let proxy := sender info in
  _try_update_mixnode_cost_params s env new_costs owner (Some proxy).

(** ** Delegations *)

Definition _try_delegate_to_mixnode (s : Store) (env : Env) (mix_id : MixId) (delegate : Addr)
    (coins : list Coin) (proxy : option Addr) : result (Store * Response) :=
  let? _ := ensure_epoch_in_progress_state s in
  let? delegation := validate_delegation_stake coins
                       (minimum_mixnode_delegation (params (contract_state s)))
                       (rewarding_denom (contract_state s)) in
  let? bond := or_err (mixnode_bonds s !! mix_id) (MixNodeBondNotFound mix_id) in
  let? _ := ensure (negb (MixNodeBond.is_unbonding bond)) (MixnodeIsUnbonding mix_id) in
  let? (_, s) := push_new_epoch_event s env (Delegate delegate mix_id delegation proxy) in
  Ok (s, []).

Definition try_delegate_to_mixnode (s : Store) (env : Env) (info : MessageInfo) (mix_id : MixId)
    : result (Store * Response) :=
  _try_delegate_to_mixnode s env mix_id (sender info) (funds info) None.

Definition try_delegate_to_mixnode_on_behalf (s : Store) (env : Env) (info : MessageInfo) (mix_id : MixId)
    (delegate : string) : result (Store * Response) :=
  let? _ := ensure_sent_by_vesting_contract info s in
  let? delegate := validate_address delegate in
  _try_delegate_to_mixnode s env mix_id delegate (funds info) (Some (sender info)).

Definition _try_remove_delegation_from_mixnode (s : Store) (env : Env) (mix_id : MixId) (delegate : Addr)
    (proxy : option Addr) : result (Store * Response) :=
  let? _ := ensure_epoch_in_progress_state s in
  let storage_key := Delegation.generate_storage_key mix_id delegate proxy in
  match delegations s !! storage_key with
  | None => Err (NoMixnodeDelegationFound mix_id delegate proxy)
  | Some _ =>
      let? (_, s) := push_new_epoch_event s env (Undelegate delegate mix_id proxy) in
      Ok (s, [])
  end.

Definition try_remove_delegation_from_mixnode (s : Store) (env : Env) (info : MessageInfo) (mix_id : MixId)
    : result (Store * Response) :=
  _try_remove_delegation_from_mixnode s env mix_id (sender info) None.

Definition try_remove_delegation_from_mixnode_on_behalf (s : Store) (env : Env) (info : MessageInfo)
    (mix_id : MixId) (delegate : string) : result (Store * Response) :=
  let? _ := ensure_sent_by_vesting_contract info s in
  let? delegate := validate_address delegate in
  _try_remove_delegation_from_mixnode s env mix_id delegate (Some (sender info)).

(** ** Gateways *)

Definition _try_add_gateway (s : Store) (env : Env) (gateway : Gateway) (pledge : list Coin) (owner : Addr)
    (owner_signature : list byte) (proxy : option Addr) : result (Store * Response) :=
  let? pledge := validate_pledge pledge (minimum_gateway_pledge (params (contract_state s))) in
  let? _ := ensure_no_existing_bond owner s in
  let? _ :=
    (match gateways s !! gw_identity_key gateway with
     | Some existing_bond =>
         ensure (addr_eqb (GatewayBond.owner existing_bond) owner)
           (DuplicateGateway (GatewayBond.owner existing_bond))
     | None => Ok tt
     end) in
  let? _ := verify_gateway_bonding_signature s owner proxy pledge gateway owner_signature in
  let? s := increment_signing_nonce s owner in
  let bond := GatewayBond.mk pledge owner (block_height env) gateway proxy in
  let? s := save_gateway s (GatewayBond.identity bond) bond in
  Ok (s, []).

Definition try_add_gateway (s : Store) (env : Env) (info : MessageInfo) (gateway : Gateway)
    (owner_signature : list byte) : result (Store * Response) :=
  _try_add_gateway s env gateway (funds info) (sender info) owner_signature None.

Definition try_add_gateway_on_behalf (s : Store) (env : Env) (info : MessageInfo) (gateway : Gateway)
    (owner : string) (owner_signature : list byte) : result (Store * Response) :=
  let? _ := ensure_sent_by_vesting_contract info s in
  let proxy := sender info in
  let? owner := validate_address owner in
  _try_add_gateway s env gateway (funds info) owner owner_signature (Some proxy).

Definition _try_remove_gateway (s : Store) (owner : Addr) (proxy : option Addr) : result (Store * Response) :=
  let? bond := or_err (gateway_by_owner s owner) (NoAssociatedGatewayBond owner) in
  let? _ := ensure (bool_decide (proxy = GatewayBond.proxy bond))
              (ProxyMismatch (proxy_string (GatewayBond.proxy bond)) (proxy_string proxy)) in
  let return_tokens := BankSend (default owner proxy) [GatewayBond.pledge_amount bond] in
  let s := set_gateways s (delete (GatewayBond.identity bond) (gateways s)) in
  let track :=
    match proxy with
    | Some proxy => [WasmExecute proxy (TrackUnbondGateway owner (GatewayBond.pledge_amount bond))]
    | None => []
    end in
  Ok (s, return_tokens :: track).

Definition try_remove_gateway (s : Store) (info : MessageInfo) : result (Store * Response) :=
  _try_remove_gateway s (sender info) None.

Definition try_remove_gateway_on_behalf (s : Store) (info : MessageInfo) (owner : string)
    : result (Store * Response) :=
  let? _ := ensure_sent_by_vesting_contract info s in
  let proxy := sender info in
  let? owner := validate_address owner in
  _try_remove_gateway s owner (Some proxy).

Definition _try_update_gateway_config (s : Store) (new_config : GatewayConfigUpdate) (owner : Addr)
    (proxy : option Addr) : result (Store * Response) :=
  let? existing_bond := must_get_gateway_bond_by_owner s owner in
  let? _ := ensure_proxy_match proxy (GatewayBond.proxy existing_bond) in
  let old := GatewayBond.gateway existing_bond in
  let gateway := mkGateway (gwc_host new_config) (gwc_mix_port new_config) (gwc_clients_port new_config)
                   (gwc_location new_config) (gw_sphinx_key old) (gw_identity_key old) (gwc_version new_config) in
  let? s := save_gateway s (GatewayBond.identity existing_bond) (GatewayBond.set_gateway existing_bond gateway) in
  Ok (s, []).

Definition try_update_gateway_config (s : Store) (info : MessageInfo) (new_config : GatewayConfigUpdate)
    : result (Store * Response) :=
  _try_update_gateway_config s new_config (sender info) None.

Definition try_update_gateway_config_on_behalf (s : Store) (info : MessageInfo) (new_config : GatewayConfigUpdate)
    (owner : string) : result (Store * Response) :=
  let? _ := ensure_sent_by_vesting_contract info s in
  let? owner := validate_address owner in
  let proxy := sender info in
  _try_update_gateway_config s new_config owner (Some proxy).

(** ** Families *)

Definition must_get_family (s : Store) (head : FamilyHead) : result Family :=
  or_err (families s !! head) (FamilyDoesNotExist head).

Definition get_family_by_label (s : Store) (label : string) : option Family :=
  find_by (fun f => addr_eqb (fam_label f) label) (families s).

Definition save_family (s : Store) (f : Family) : result Store :=
  if clashes (fam_head f) (fun f' => addr_eqb (fam_label f') (fam_label f)) (families s)
  then Err (StdErr UniqueConstraint)
  else Ok (set_families s (<[fam_head f := f]> (families s))).

Definition add_family_member (s : Store) (f : Family) (member : IdentityKey) : Store :=
  set_members s (<[member := fam_head f]> (members s)).

Definition remove_family_member (s : Store) (member : IdentityKey) : Store :=
  set_members s (delete member (members s)).

Definition is_family_member (s : Store) (f : Family) (member : IdentityKey) : bool :=
  bool_decide (members s !! member = Some (fam_head f)).

Definition is_any_member (s : Store) (member : IdentityKey) : option FamilyHead := members s !! member.

Definition _try_create_family (s : Store) (owner : Addr) (label : string) (proxy : option Addr)
    : result (Store * Response) :=
  let? existing_bond := must_get_mixnode_bond_by_owner s owner in
  let? _ := ensure_bonded existing_bond in
  let family_head := MixNodeBond.identity existing_bond in
  match must_get_family s family_head with
  | Ok _ => Err FamilyCanHaveOnlyOne
  | _ =>
      match get_family_by_label s label with
      | Some _ => Err (FamilyWithLabelExists label)
      | None =>
          let? s := save_family s (mkFamily family_head proxy label) in
          Ok (s, [])
      end
  end.

Definition try_create_family (s : Store) (info : MessageInfo) (label : string) : result (Store * Response) :=
  _try_create_family s (sender info) label None.

Definition try_create_family_on_behalf (s : Store) (info : MessageInfo) (owner_address label : string)
    : result (Store * Response) :=
  let? _ := ensure_sent_by_vesting_contract info s in
  let? owner_address := validate_address owner_address in
  _try_create_family s owner_address label (Some (sender info)).

Definition _try_join_family (s : Store) (owner : Addr) (join_permit : list byte) (family_head : FamilyHead)
    (proxy : option Addr) : result (Store * Response) :=
  let? existing_bond := must_get_mixnode_bond_by_owner s owner in
  let? _ := ensure_bonded existing_bond in
  let member := MixNodeBond.identity existing_bond in
  let? _ := ensure (negb (addr_eqb family_head member)) (CantJoinOwnFamily family_head member) in
  match is_any_member s member with
  | Some family => Err (AlreadyMemberOfFamily family)
  | None =>
      let? _ := verify_family_join_permit s family_head proxy member join_permit in
      let? family := must_get_family s family_head in
      Ok (add_family_member s family member, [])
  end.

Definition try_join_family (s : Store) (info : MessageInfo) (join_permit : list byte) (family_head : FamilyHead)
    : result (Store * Response) :=
  _try_join_family s (sender info) join_permit family_head None.

Definition try_join_family_on_behalf (s : Store) (info : MessageInfo) (member_address : string)
    (join_permit : list byte) (family_head : FamilyHead) : result (Store * Response) :=
  let? _ := ensure_sent_by_vesting_contract info s in
  let? member_address := validate_address member_address in
  _try_join_family s member_address join_permit family_head (Some (sender info)).

Definition _try_leave_family (s : Store) (owner : Addr) (family_head : FamilyHead) : result (Store * Response) :=
  let? existing_bond := must_get_mixnode_bond_by_owner s owner in
  let? _ := ensure_bonded existing_bond in
  let member := MixNodeBond.identity existing_bond in
  let? _ := ensure (negb (addr_eqb family_head member)) (CantLeaveOwnFamily family_head member) in
  let? family := must_get_family s family_head in
  let? _ := ensure (is_family_member s family member) (NotAMember family_head member) in
  Ok (remove_family_member s member, []).

Definition try_leave_family (s : Store) (info : MessageInfo) (family_head : FamilyHead)
    : result (Store * Response) :=
  _try_leave_family s (sender info) family_head.

Definition try_leave_family_on_behalf (s : Store) (info : MessageInfo) (member_address : string)
    (family_head : FamilyHead) : result (Store * Response) :=
  let? _ := ensure_sent_by_vesting_contract info s in
  let? member_address := validate_address member_address in
  _try_leave_family s member_address family_head.

Definition _try_head_kick_member (s : Store) (owner : Addr) (member : IdentityKey) : result (Store * Response) :=
  let? head_bond := must_get_mixnode_bond_by_owner s owner in
  let? _ := ensure_bonded head_bond in
  let family_head := MixNodeBond.identity head_bond in
  let? _ := ensure (negb (addr_eqb member family_head)) (CantLeaveOwnFamily family_head member) in
  let? family := must_get_family s family_head in
  let? _ := ensure (is_family_member s family member) (NotAMember family_head member) in
  Ok (remove_family_member s member, []).

Definition try_head_kick_member (s : Store) (info : MessageInfo) (member : IdentityKey)
    : result (Store * Response) :=
  _try_head_kick_member s (sender info) member.

Definition try_head_kick_member_on_behalf (s : Store) (info : MessageInfo) (head_address : string)
    (member : IdentityKey) : result (Store * Response) :=
  let? _ := ensure_sent_by_vesting_contract info s in
  let? head_address := validate_address head_address in
  _try_head_kick_member s head_address member.

(** ** Rewards *)

(** The error of an epoch that is not over yet. *)
Definition epoch_in_progress_error {A} (i : Interval.t) (env : Env) : result A :=
  let? epoch_end := Interval.current_epoch_end_unix_timestamp i in
  Err (EpochInProgress (block_time_secs env) (Interval.current_epoch_start_unix_timestamp i) epoch_end).

Definition ensure_epoch_over (s : Store) (env : Env) : result unit :=
  let? over := Interval.is_current_epoch_over (interval s) env in
  if over then Ok tt else epoch_in_progress_error (interval s) env.

Definition try_reward_mixnode (s : Store) (env : Env) (info : MessageInfo) (mix_id : MixId)
    (node_performance : Percent.t) : result (Store * Response) :=
  let? status := ensure_can_advance_epoch (sender info) s in
  let? _ := ensure_epoch_over s env in
  let absolute_epoch_id := Interval.current_epoch_absolute_id (interval s) in
  let? _ :=
    (match EpochStatus.state status with
     | Rewarding last_rewarded _ =>
         ensure (negb (last_rewarded =? mix_id)) (MixnodeAlreadyRewarded mix_id absolute_epoch_id)
     | _ => Ok tt
     end) in
  let? s := update_and_save_last_rewarded s status mix_id in
  match mixnode_rewarding s !! mix_id with
  | Some n =>
      if MixNodeRewarding.still_bonded n then
        let? _ := ensure (negb (absolute_epoch_id =? MixNodeRewarding.last_rewarded_epoch n))
                    (MixnodeAlreadyRewarded mix_id absolute_epoch_id) in
        let? node_status := or_err (rewarded_set s !! mix_id) (MixnodeNotInRewardedSet mix_id absolute_epoch_id) in
        if Percent.is_zero node_performance then
          Ok (save_rewarding s mix_id (MixNodeRewarding.set_last_rewarded n absolute_epoch_id), [])
        else
          let p := rewarding_params s in
          let node_reward_params := mkNodeParams node_performance (is_active node_status) in
          let? node_reward := MixNodeRewarding.node_reward n p node_reward_params in
          let? reward_distribution := MixNodeRewarding.determine_reward_split n node_reward node_performance
                                        (Interval.epochs_in_interval (interval s)) in
          let? n := MixNodeRewarding.distribute_rewards n reward_distribution absolute_epoch_id in
          let s := save_rewarding s mix_id n in
          let? s := reward_accounting s node_reward in
          Ok (s, [])
      else Ok (s, [])
  | None => Ok (s, [])
  end.

(** The messages for a withdrawn reward: none for a reward of zero coins. *)
Definition reward_messages (s : Store) (owner : Addr) (proxy : option Addr) (reward : Coin) : Response :=
  if amount reward =? 0 then []
  else
    send_to_proxy_or_owner proxy owner [reward] ::
    match proxy with
    | Some p => if addr_eqb p (vesting_contract_address (contract_state s))
                then [WasmExecute p (TrackReward reward owner)] else []
    | None => []
    end.

Definition _try_withdraw_operator_reward (s : Store) (owner : Addr) (proxy : option Addr)
    : result (Store * Response) :=
  let? details := get_mixnode_details_by_owner s owner in
  let? d := or_err details (NoAssociatedMixNodeBond owner) in
  let? _ := ensure_proxy_match proxy (MixNodeBond.proxy (bond_information d)) in
  let? _ := ensure_bonded (bond_information d) in
  let? (reward, s) := withdraw_operator_reward s d in
  Ok (s, reward_messages s owner proxy reward).

Definition try_withdraw_operator_reward (s : Store) (info : MessageInfo) : result (Store * Response) :=
  _try_withdraw_operator_reward s (sender info) None.

Definition try_withdraw_operator_reward_on_behalf (s : Store) (info : MessageInfo) (owner : string)
    : result (Store * Response) :=
  let? _ := ensure_sent_by_vesting_contract info s in
  let proxy := sender info in
  let? owner := validate_address owner in
  _try_withdraw_operator_reward s owner (Some proxy).

Definition _try_withdraw_delegator_reward (s : Store) (mix_id : MixId) (owner : Addr) (proxy : option Addr)
    : result (Store * Response) :=
  let storage_key := Delegation.generate_storage_key mix_id owner proxy in
  let? delegation := or_err (delegations s !! storage_key) (NoMixnodeDelegationFound mix_id owner proxy) in
  let? n := or_err (mixnode_rewarding s !! mix_id) InconsistentState in
  let? _ :=
    (match mixnode_bonds s !! mix_id with
     | Some bond => ensure (negb (MixNodeBond.is_unbonding bond)) (MixnodeIsUnbonding mix_id)
     | None => Err (MixnodeHasUnbonded mix_id)
     end) in
  let? _ := ensure_proxy_match proxy (Delegation.proxy delegation) in
  let? (reward, s) := withdraw_delegator_reward s delegation n in
  Ok (s, reward_messages s owner proxy reward).

Definition try_withdraw_delegator_reward (s : Store) (info : MessageInfo) (mix_id : MixId)
    : result (Store * Response) :=
  _try_withdraw_delegator_reward s mix_id (sender info) None.

Definition try_withdraw_delegator_reward_on_behalf (s : Store) (info : MessageInfo) (mix_id : MixId)
    (owner : string) : result (Store * Response) :=
  let? _ := ensure_sent_by_vesting_contract info s in
  let proxy := sender info in
  let? owner := validate_address owner in
  _try_withdraw_delegator_reward s mix_id owner (Some proxy).

Definition try_update_active_set_size (s : Store) (env : Env) (info : MessageInfo) (active_set_size : Z)
    (force_immediately : bool) : result (Store * Response) :=
  let? _ := ensure_is_owner (sender info) s in
  let? _ := ensure (negb (active_set_size =? 0)) ZeroActiveSet in
  let? _ := ensure (negb (RewardingParams.rewarded_set_size (rewarding_params s) <? active_set_size))
              InvalidActiveSetSize in
  let? now := (if force_immediately then Ok true else Interval.is_current_epoch_over (interval s) env) in
  if now : bool then
    let? p := RewardingParams.try_change_active_set_size (rewarding_params s) active_set_size in
    Ok (set_rewarding_params s p, [])
  else
    let? _ := ensure_epoch_in_progress_state s in
    let? (_, s) := push_new_epoch_event s env (UpdateActiveSetSize active_set_size) in
    let? _ := Interval.secs_until_current_interval_end (interval s) env in
    Ok (s, []).

Definition try_update_rewarding_params (s : Store) (env : Env) (info : MessageInfo)
    (updated_params : IntervalRewardingParamsUpdate) (force_immediately : bool) : result (Store * Response) :=
  let? _ := ensure_is_owner (sender info) s in
  let? _ := ensure (contains_updates updated_params) EmptyParamsChangeMsg in
  let? now := (if force_immediately then Ok true else Interval.is_current_interval_over (interval s) env) in
  if now : bool then
    let? p := RewardingParams.try_apply_updates (rewarding_params s) updated_params
                (Interval.epochs_in_interval (interval s)) in
    Ok (set_rewarding_params s p, [])
  else
    let? _ := ensure_epoch_in_progress_state s in
    let? (_, s) := push_new_interval_event s env (UpdateRewardingParams updated_params) in
    let? _ := Interval.secs_until_current_interval_end (interval s) env in
    Ok (s, []).

(** ** Intervals *)

(** [query_number_of_pending_events] of [interval/queries.rs]: epoch and interval events. *)
Definition query_number_of_pending_events (s : Store) : result (Z * Z) :=
  let? epoch_events := u32_sub (epoch_event_id_counter s) (last_processed_epoch_event s) in
  let? interval_events := u32_sub (interval_event_id_counter s) (last_processed_interval_event s) in
  Ok (epoch_events, interval_events).

Definition try_reconcile_epoch_events (s : Store) (env : Env) (info : MessageInfo) (limit : option Z)
    : result (Store * Response) :=
  let? status := ensure_can_advance_epoch (sender info) s in
  let? _ := EpochStatus.ensure_is_in_event_reconciliation_state status in
  let i := interval s in
  let? _ := ensure_epoch_over s env in
  let? (s, response, executed) := perform_pending_epoch_actions s env limit in
  let? limit := (match limit with
                 | Some l => let? l := u32_sub l executed in Ok (Some l)
                 | None => Ok None
                 end) in
  let? interval_over := Interval.is_current_interval_over i env in
  let? (s, response) :=
    (if interval_over : bool then
       let? (s, sub_response, _) := perform_pending_interval_actions s limit in
       Ok (s, response ++ sub_response)
     else Ok (s, response)) in
  let? (epoch_events, interval_events) := query_number_of_pending_events s in
  let progress :=
    (epoch_events =? 0) && (if interval_over : bool then interval_events =? 0 else true) in
  if progress then Ok (set_epoch_status s (EpochStatus.set_state status AdvancingEpoch), response)
  else Ok (s, response).

(** The first identifier that occurs twice, as the loop with the [BTreeSet] finds it. *)
Fixpoint first_duplicate (seen : gset MixId) (l : list MixId) : option MixId :=
  match l with
  | [] => None
  | node_id :: l' => if bool_decide (node_id ∈ seen) then Some node_id else first_duplicate ({[node_id]} ∪ seen) l'
  end.

Definition update_rewarded_set (s : Store) (new_rewarded_set : list MixId) (expected_active_set_size : Z)
    : result Store :=
  let p := rewarding_params s in
  let? _ := ensure (expected_active_set_size =? RewardingParams.active_set_size p)
              (UnexpectedActiveSetSize expected_active_set_size (RewardingParams.active_set_size p)) in
  let n := as_u32 (len new_rewarded_set) in
  let? _ := ensure (negb (RewardingParams.rewarded_set_size p <? n))
              (UnexpectedRewardedSetSize n (RewardingParams.rewarded_set_size p)) in
  match first_duplicate ∅ new_rewarded_set with
  | Some mix_id => Err (DuplicateRewardedSetNode mix_id)
  | None => Ok (storage_update_rewarded_set s expected_active_set_size new_rewarded_set)
  end.

(** The greatest key of the rewarded set: the last one in ascending order. *)
Definition last_rewarded_node (m : gmap MixId RewardedSetNodeStatus) : option MixId :=
  foldr (fun k acc => Some (match acc with Some k' => Z.max k k' | None => k end)) None ((map_to_list m).*1).

Definition try_begin_epoch_transition (s : Store) (env : Env) (info : MessageInfo) : result (Store * Response) :=
  let? _ := ensure_is_authorized (sender info) s in
  let? _ := ensure_epoch_over s env in
  let? _ := ensure_epoch_in_progress_state s in
  let new_epoch_state :=
    match last_rewarded_node (rewarded_set s) with
    | Some final_node_id => Rewarding 0 final_node_id
    | None => ReconcilingEvents
    end in
  Ok (set_epoch_status s (EpochStatus.mk (sender info) new_epoch_state), []).

Fixpoint update_mixnode_layers (s : Store) (assignments : list LayerAssignment) : result Store :=
  match assignments with
  | [] => Ok s
  | a :: assignments' =>
      let? s := update_mixnode_layer s (la_mix_id a) (la_layer a) in
      update_mixnode_layers s assignments'
  end.

Definition try_advance_epoch (s : Store) (env : Env) (info : MessageInfo)
    (layer_assignments : list LayerAssignment) (expected_active_set_size : Z) : result (Store * Response) :=
  let? status := ensure_can_advance_epoch (sender info) s in
  let? _ := EpochStatus.ensure_is_in_advancement_state status in
  let i := interval s in
  let? _ := ensure_epoch_over s env in
  let? interval_over := Interval.is_current_interval_over i env in
  let? s := (if interval_over : bool then apply_reward_pool_changes s else Ok s) in
  let? updated_interval := Interval.advance_epoch i in
  let new_rewarded_set := la_mix_id <$> layer_assignments in
  let s := set_interval s updated_interval in
  let? s := update_rewarded_set s new_rewarded_set expected_active_set_size in
  let? s := update_mixnode_layers s layer_assignments in
  Ok (set_epoch_status s (EpochStatus.set_state status InProgress), []).

Definition try_update_interval_config (s : Store) (env : Env) (info : MessageInfo)
    (epochs_in_interval epoch_duration_secs : Z) (force_immediately : bool) : result (Store * Response) :=
  let? _ := ensure_is_owner (sender info) s in
  let? _ := ensure (negb (epochs_in_interval =? 0)) EpochsInIntervalZero in
  let? _ := ensure (negb (epoch_duration_secs =? 0)) EpochDurationZero in
  let? now := (if force_immediately then Ok true else Interval.is_current_interval_over (interval s) env) in
  if now : bool then
    let? s := change_interval_config s (interval s) epochs_in_interval epoch_duration_secs in
    Ok (s, [])
  else
    let? _ := ensure_epoch_in_progress_state s in
    let? (_, s) := push_new_interval_event s env (UpdateIntervalConfig epochs_in_interval epoch_duration_secs) in
    let? _ := Interval.secs_until_current_interval_end (interval s) env in
    Ok (s, []).

(** ** Settings *)

Definition try_update_rewarding_validator_address (s : Store) (info : MessageInfo) (address : string)
    : result (Store * Response) :=
  let st := contract_state s in
  let? _ := ensure (addr_eqb (sender info) (cs_owner st)) Unauthorized in
  let? new_address := validate_address address in
  Ok (set_contract_state s (mkContractState (cs_owner st) new_address (vesting_contract_address st)
                              (rewarding_denom st) (params st)), []).

Definition try_update_contract_settings (s : Store) (info : MessageInfo) (new_params : ContractStateParams)
    : result (Store * Response) :=
  let st := contract_state s in
  let? _ := ensure (addr_eqb (sender info) (cs_owner st)) Unauthorized in
  Ok (set_contract_state s (mkContractState (cs_owner st) (rewarding_validator_address st)
                              (vesting_contract_address st) (rewarding_denom st) new_params), []).

(** ** Entry points *)

Inductive ExecuteMsg : Type :=
| MsgAssignNodeLayer (mix_id : MixId) (layer : Layer)
| MsgCreateFamily (label : string)
| MsgJoinFamily (join_permit : list byte) (family_head : FamilyHead)
| MsgLeaveFamily (family_head : FamilyHead)
| MsgKickFamilyMember (member : IdentityKey)
| MsgCreateFamilyOnBehalf (owner_address label : string)
| MsgJoinFamilyOnBehalf (member_address : string) (join_permit : list byte) (family_head : FamilyHead)
| MsgLeaveFamilyOnBehalf (member_address : string) (family_head : FamilyHead)
| MsgKickFamilyMemberOnBehalf (head_address : string) (member : IdentityKey)
| MsgUpdateRewardingValidatorAddress (address : string)
| MsgUpdateContractStateParams (updated_parameters : ContractStateParams)
| MsgUpdateActiveSetSize (active_set_size : Z) (force_immediately : bool)
| MsgUpdateRewardingParams (updated_params : IntervalRewardingParamsUpdate) (force_immediately : bool)
| MsgUpdateIntervalConfig (epochs_in_interval epoch_duration_secs : Z) (force_immediately : bool)
| MsgBeginEpochTransition
| MsgAdvanceCurrentEpoch (new_rewarded_set : list LayerAssignment) (expected_active_set_size : Z)
| MsgReconcileEpochEvents (limit : option Z)
| MsgBondMixnode (mix_node : MixNode) (cost_params : MixNodeCostParams) (owner_signature : list byte)
| MsgBondMixnodeOnBehalf (mix_node : MixNode) (cost_params : MixNodeCostParams) (owner_signature : list byte)
    (owner : string)
| MsgPledgeMore
| MsgPledgeMoreOnBehalf (owner : string)
| MsgDecreasePledge (decrease_by : Coin)
| MsgDecreasePledgeOnBehalf (owner : string) (decrease_by : Coin)
| MsgUnbondMixnode
| MsgUnbondMixnodeOnBehalf (owner : string)
| MsgUpdateMixnodeCostParams (new_costs : MixNodeCostParams)
| MsgUpdateMixnodeCostParamsOnBehalf (new_costs : MixNodeCostParams) (owner : string)
| MsgUpdateMixnodeConfig (new_config : MixNodeConfigUpdate)
| MsgUpdateMixnodeConfigOnBehalf (new_config : MixNodeConfigUpdate) (owner : string)
| MsgBondGateway (gateway : Gateway) (owner_signature : list byte)
| MsgBondGatewayOnBehalf (gateway : Gateway) (owner : string) (owner_signature : list byte)
| MsgUnbondGateway
| MsgUnbondGatewayOnBehalf (owner : string)
| MsgUpdateGatewayConfig (new_config : GatewayConfigUpdate)
| MsgUpdateGatewayConfigOnBehalf (new_config : GatewayConfigUpdate) (owner : string)
| MsgDelegateToMixnode (mix_id : MixId)
| MsgDelegateToMixnodeOnBehalf (mix_id : MixId) (delegate : string)
| MsgUndelegateFromMixnode (mix_id : MixId)
| MsgUndelegateFromMixnodeOnBehalf (mix_id : MixId) (delegate : string)
| MsgRewardMixnode (mix_id : MixId) (performance : Percent.t)
| MsgWithdrawOperatorReward
| MsgWithdrawOperatorRewardOnBehalf (owner : string)
| MsgWithdrawDelegatorReward (mix_id : MixId)
| MsgWithdrawDelegatorRewardOnBehalf (mix_id : MixId) (owner : string).

Definition execute (s : Store) (env : Env) (info : MessageInfo) (msg : ExecuteMsg) : result (Store * Response) :=
  match msg with
  | MsgAssignNodeLayer mix_id layer => assign_mixnode_layer s info mix_id layer
  | MsgCreateFamily label => try_create_family s info label
  | MsgJoinFamily join_permit family_head => try_join_family s info join_permit family_head
  | MsgLeaveFamily family_head => try_leave_family s info family_head
  | MsgKickFamilyMember member => try_head_kick_member s info member
  | MsgCreateFamilyOnBehalf owner_address label => try_create_family_on_behalf s info owner_address label
  | MsgJoinFamilyOnBehalf member_address join_permit family_head =>
      try_join_family_on_behalf s info member_address join_permit family_head
  | MsgLeaveFamilyOnBehalf member_address family_head => try_leave_family_on_behalf s info member_address family_head
  | MsgKickFamilyMemberOnBehalf head_address member => try_head_kick_member_on_behalf s info head_address member
  | MsgUpdateRewardingValidatorAddress address => try_update_rewarding_validator_address s info address
  | MsgUpdateContractStateParams updated_parameters => try_update_contract_settings s info updated_parameters
  | MsgUpdateActiveSetSize active_set_size force => try_update_active_set_size s env info active_set_size force
  | MsgUpdateRewardingParams updated_params force => try_update_rewarding_params s env info updated_params force
  | MsgUpdateIntervalConfig epochs secs force => try_update_interval_config s env info epochs secs force
  | MsgBeginEpochTransition => try_begin_epoch_transition s env info
  | MsgAdvanceCurrentEpoch new_rewarded_set expected =>
      try_advance_epoch s env info new_rewarded_set expected
  | MsgReconcileEpochEvents limit => try_reconcile_epoch_events s env info limit
  | MsgBondMixnode mix_node cost_params sig => try_add_mixnode s env info mix_node cost_params sig
  | MsgBondMixnodeOnBehalf mix_node cost_params sig owner =>
      try_add_mixnode_on_behalf s env info mix_node cost_params owner sig
  | MsgPledgeMore => try_increase_pledge s env info
  | MsgPledgeMoreOnBehalf owner => try_increase_pledge_on_behalf s env info owner
  | MsgDecreasePledge decrease_by => try_decrease_pledge s env info decrease_by
  | MsgDecreasePledgeOnBehalf owner decrease_by => try_decrease_pledge_on_behalf s env info decrease_by owner
  | MsgUnbondMixnode => try_remove_mixnode s env info
  | MsgUnbondMixnodeOnBehalf owner => try_remove_mixnode_on_behalf s env info owner
  | MsgUpdateMixnodeCostParams new_costs => try_update_mixnode_cost_params s env info new_costs
  | MsgUpdateMixnodeCostParamsOnBehalf new_costs owner =>
      try_update_mixnode_cost_params_on_behalf s env info new_costs owner
  | MsgUpdateMixnodeConfig new_config => try_update_mixnode_config s info new_config
  | MsgUpdateMixnodeConfigOnBehalf new_config owner => try_update_mixnode_config_on_behalf s info new_config owner
  | MsgBondGateway gateway sig => try_add_gateway s env info gateway sig
  | MsgBondGatewayOnBehalf gateway owner sig => try_add_gateway_on_behalf s env info gateway owner sig
  | MsgUnbondGateway => try_remove_gateway s info
  | MsgUnbondGatewayOnBehalf owner => try_remove_gateway_on_behalf s info owner
  | MsgUpdateGatewayConfig new_config => try_update_gateway_config s info new_config
  | MsgUpdateGatewayConfigOnBehalf new_config owner => try_update_gateway_config_on_behalf s info new_config owner
  | MsgDelegateToMixnode mix_id => try_delegate_to_mixnode s env info mix_id
  | MsgDelegateToMixnodeOnBehalf mix_id delegate => try_delegate_to_mixnode_on_behalf s env info mix_id delegate
  | MsgUndelegateFromMixnode mix_id => try_remove_delegation_from_mixnode s env info mix_id
  | MsgUndelegateFromMixnodeOnBehalf mix_id delegate =>
      try_remove_delegation_from_mixnode_on_behalf s env info mix_id delegate
  | MsgRewardMixnode mix_id performance => try_reward_mixnode s env info mix_id performance
  | MsgWithdrawOperatorReward => try_withdraw_operator_reward s info
  | MsgWithdrawOperatorRewardOnBehalf owner => try_withdraw_operator_reward_on_behalf s info owner
  | MsgWithdrawDelegatorReward mix_id => try_withdraw_delegator_reward s info mix_id
  | MsgWithdrawDelegatorRewardOnBehalf mix_id owner => try_withdraw_delegator_reward_on_behalf s info mix_id owner
  end.

Record InstantiateMsg : Type := mkInstantiate {
  im_rewarding_validator_address : string;
  im_vesting_contract_address : string;
  im_rewarding_denom : string;
  im_epochs_in_interval : Z;
  im_epoch_duration : Z;
  im_initial_rewarding_params : InitialRewardingParams
}.

Definition INITIAL_GATEWAY_PLEDGE_AMOUNT : Uint128 := 100_000_000.
Definition INITIAL_MIXNODE_PLEDGE_AMOUNT : Uint128 := 100_000_000.

Definition default_initial_state (owner rewarding_validator_address : Addr) (rewarding_denom : string)
    (vesting_contract_address : Addr) : ContractState :=
  mkContractState owner rewarding_validator_address vesting_contract_address rewarding_denom
    (mkStateParams None (mkCoin rewarding_denom INITIAL_MIXNODE_PLEDGE_AMOUNT)
       (mkCoin rewarding_denom INITIAL_GATEWAY_PLEDGE_AMOUNT)).

Definition instantiate (env : Env) (info : MessageInfo) (msg : InstantiateMsg) : result Store :=
  let? _ := ensure (negb (im_epochs_in_interval msg =? 0)) EpochsInIntervalZero in
  let? _ := ensure (negb (im_epoch_duration msg / NANOS =? 0)) EpochDurationZero in
  let? validator := validate_address (im_rewarding_validator_address msg) in
  let? vesting := validate_address (im_vesting_contract_address msg) in
  let st := default_initial_state (sender info) validator (im_rewarding_denom msg) vesting in
  let? starting_interval := Interval.init_interval (im_epochs_in_interval msg) (im_epoch_duration msg) env in
  let? reward_params := into_rewarding_params (im_initial_rewarding_params msg) (im_epochs_in_interval msg) in
  Ok (mkStore st reward_params default_pool_change ∅ (EpochStatus.new validator) starting_interval ∅ 0 0 0 0 ∅ ∅
        LayerDistribution.default 0 ∅ ∅ ∅ ∅ ∅ ∅ ∅ ∅).

End Transactions.
