(* ===== verification/Accounting.v ===== *)
(** * What the mixnet contract owes, and its invariant

    The tokens the contract keeps for others: the tokens of node operators
    and delegators, pledges of gateways, funds of pending events, and the
    reward pool.  [inv] is the invariant of the contract's storage, which
    every transaction preserves (see [Solvency]). *)

From S2P Require Import Prelude Bytes Cosmwasm MixnetTypes Rewarding Backing Interval MixnetStorage.

(** ** Sums over finite maps *)

Section Sums.
Context {K V : Type} `{Countable K}.

(** The sum of a function of the keys and values. *)
Definition ksum (f : K -> V -> Z) (m : gmap K V) : Z := zsum ((fun kv => f (fst kv) (snd kv)) <$> map_to_list m).

Lemma ksum_empty f : ksum f ∅ = 0.
Proof. unfold ksum. by rewrite map_to_list_empty. Qed.

Lemma ksum_delete f m k : ksum f (delete k m) = ksum f m - from_option (f k) 0 (m !! k).
Proof.
  unfold ksum. destruct (m !! k) as [v|] eqn:E; simpl.
  - pose proof (zsum_perm _ _ (fmap_Permutation (fun kv => f (fst kv) (snd kv)) _ _ (map_to_list_delete m k v E))) as Hp.
    rewrite fmap_cons, zsum_cons in Hp. cbn [fst snd] in Hp. lia.
  - rewrite delete_id by done. lia.
Qed.

Lemma ksum_insert f m k v : ksum f (<[k := v]> m) = ksum f m - from_option (f k) 0 (m !! k) + f k v.
Proof.
  rewrite <- insert_delete_eq, <- ksum_delete. unfold ksum.
  pose proof (zsum_perm _ _ (fmap_Permutation (fun kv => f (fst kv) (snd kv)) _ _
    (map_to_list_insert (delete k m) k v (lookup_delete_eq m k)))) as Hp.
  rewrite fmap_cons, zsum_cons in Hp. rewrite Hp. simpl. lia.
Qed.

Lemma ksum_nonneg f m : (forall k v, m !! k = Some v -> 0 <= f k v) -> 0 <= ksum f m.
Proof.
  intros Hm. unfold ksum. assert (Forall (fun kv => 0 <= f (fst kv) (snd kv)) (map_to_list m)) as Hf.
  { apply Forall_forall. intros [k v] Hkv%elem_of_map_to_list. by eapply Hm. }
  induction Hf as [|kv l Hkv _ IH]; [done|]. rewrite fmap_cons, zsum_cons. lia.
Qed.

Lemma ksum_zero f m : (forall k v, m !! k = Some v -> f k v = 0) -> ksum f m = 0.
Proof.
  intros Hm. unfold ksum. assert (Forall (fun kv => f (fst kv) (snd kv) = 0) (map_to_list m)) as Hf.
  { apply Forall_forall. intros [k v] Hkv%elem_of_map_to_list. by eapply Hm. }
  induction Hf as [|kv l Hkv _ IH]; [done|]. rewrite fmap_cons, zsum_cons. lia.
Qed.

(** The sum of a function of the values. *)
Definition msum (f : V -> Z) (m : gmap K V) : Z := ksum (fun _ => f) m.

(** The contribution of one key. *)
Definition at_key (f : V -> Z) (m : gmap K V) (k : K) : Z := from_option f 0 (m !! k).

Lemma msum_empty f : msum f ∅ = 0.
Proof. apply ksum_empty. Qed.

Lemma msum_delete f m k : msum f (delete k m) = msum f m - at_key f m k.
Proof. apply ksum_delete. Qed.

Lemma msum_insert f m k v : msum f (<[k := v]> m) = msum f m - at_key f m k + f v.
Proof. apply ksum_insert. Qed.

Lemma msum_nonneg f m : (forall k v, m !! k = Some v -> 0 <= f v) -> 0 <= msum f m.
Proof. apply ksum_nonneg. Qed.

End Sums.

(** ** Amounts in one denomination *)

Definition coin_in (d : string) (c : Coin) : Z := if addr_eqb (denom c) d then amount c else 0.

Definition coins_in (d : string) (cs : list Coin) : Z := zsum (coin_in d <$> cs).

Definition msg_sent_in (d : string) (m : CosmosMsg) : Z :=
  match m with BankSend _ cs => coins_in d cs | WasmExecute _ _ => 0 end.

(** What a response sends out. *)
Definition sent_in (d : string) (r : Response) : Z := zsum (msg_sent_in d <$> r).

Lemma sent_in_app d r1 r2 : sent_in d (r1 ++ r2) = sent_in d r1 + sent_in d r2.
Proof. unfold sent_in. by rewrite fmap_app, zsum_app. Qed.

Lemma coin_in_le d c : 0 <= amount c -> 0 <= coin_in d c <= amount c.
Proof. unfold coin_in. case_match; lia. Qed.

Lemma sent_in_send d a c : sent_in d [BankSend a [c]] = coin_in d c.
Proof. unfold sent_in. cbn. unfold coins_in. cbn. lia. Qed.

(** ** The delegations of a node *)

Definition delegations_of (i : MixId) (m : gmap StorageKey Delegation.t) : list Delegation.t :=
  snd <$> filter (fun kv => fst (fst kv) = i) (map_to_list m).

Lemma delegations_of_insert i sub d m :
  m !! (i, sub) = None -> delegations_of i (<[(i, sub) := d]> m) ≡ₚ d :: delegations_of i m.
Proof.
  intros Hm. unfold delegations_of. rewrite map_to_list_insert by done.
  rewrite filter_cons_True by done. done.
Qed.

Lemma delegations_of_delete i sub d m :
  m !! (i, sub) = Some d -> delegations_of i m ≡ₚ d :: delegations_of i (delete (i, sub) m).
Proof.
  intros Hm. unfold delegations_of. rewrite <- (map_to_list_delete m (i, sub) d Hm).
  rewrite filter_cons_True by done. done.
Qed.

Lemma delegations_of_insert_ne i j sub d m :
  i <> j -> delegations_of i (<[(j, sub) := d]> m) ≡ₚ delegations_of i (delete (j, sub) m).
Proof.
  intros Hij. unfold delegations_of. rewrite <- insert_delete_eq.
  rewrite map_to_list_insert by apply lookup_delete_eq.
  rewrite filter_cons_False by (simpl; congruence). done.
Qed.

Lemma delegations_of_delete_ne i j sub m :
  i <> j -> delegations_of i (delete (j, sub) m) ≡ₚ delegations_of i m.
Proof.
  intros Hij. destruct (m !! (j, sub)) as [d|] eqn:E; [|by rewrite delete_id].
  unfold delegations_of. rewrite <- (map_to_list_delete m (j, sub) d E).
  rewrite filter_cons_False by (simpl; congruence). done.
Qed.

Lemma delegations_of_empty i : delegations_of i ∅ = [].
Proof. done. Qed.

(** No delegation, no entry under the node's keys. *)
Lemma delegations_of_none i m : (forall sub, m !! (i, sub) = None) -> delegations_of i m = [].
Proof.
  intros Hm. unfold delegations_of. destruct (filter _ _) as [|[[j sub] d] l] eqn:E; [done|].
  assert (((j, sub), d) ∈ filter (fun kv => kv.1.1 = i) (map_to_list m)) as Hin by (rewrite E; constructor).
  apply list_elem_of_filter in Hin as [Hj Hin]. simpl in Hj. subst j. apply elem_of_map_to_list in Hin.
  rewrite Hm in Hin. done.
Qed.

(** ** What is owed *)

(** The coins an event keeps until it is executed, and the coins it mentions. *)
Definition event_coins (e : PendingEpochEventKind) : list Coin :=
  match e with
  | Delegate _ _ c _ => [c]
  | PledgeMore _ c => [c]
  | DecreasePledge _ c => [c]
  | _ => []
  end.

Definition event_funds (e : PendingEpochEventKind) : Z :=
  match e with
  | Delegate _ _ c _ => amount c
  | PledgeMore _ c => amount c
  | _ => 0
  end.

Definition gateway_funds (g : GatewayBond.t) : Z := amount (GatewayBond.pledge_amount g).

(** What is left of the reward pool. *)
Definition pool_left (s : Store) : Z :=
  reward_pool (RewardingParams.interval (rewarding_params s)) - removed (pending_reward_pool_change s)
  + added (pending_reward_pool_change s).

(** Owed to operators, delegators and gateways, in atomics. *)
Definition owed (s : Store) : Z :=
  msum tokens (mixnode_rewarding s)
  + F * (msum (fun e => event_funds (epoch_kind e)) (pending_epoch_events s) + msum gateway_funds (gateways s)).

Definition liabilities (s : Store) : Z := owed s + pool_left s.

(** The denomination of everything above. *)
Definition denom_of (s : Store) : string := rewarding_denom (contract_state s).

(** ** The invariant *)

Definition event_ok (e : PendingEpochEventKind) : Prop := Forall (fun c => 0 <= amount c) (event_coins e).

(** The administrator does not set the size of the reward pool by hand. *)
Definition keeps_pool (e : PendingIntervalEventKind) : Prop :=
  match e with UpdateRewardingParams u => upd_reward_pool u = None | _ => True end.

(** A bond is stored under its identifier, and the operator's tokens include its pledge. *)
Definition bond_ok (nodes : gmap MixId MixNodeRewarding.t) (i : MixId) (b : MixNodeBond.t) : Prop :=
  MixNodeBond.mix_id b = i /\ 0 <= amount (MixNodeBond.original_pledge b) /\
  exists n, nodes !! i = Some n /\ amount (MixNodeBond.original_pledge b) * F <= MixNodeRewarding.operator n.

Section Invariant.
Context `{ChainApi}.

Record inv (s : Store) : Prop := {
  inv_denoms :
    denom (minimum_mixnode_pledge (params (contract_state s))) = denom_of s /\
    denom (minimum_gateway_pledge (params (contract_state s))) = denom_of s;
  inv_epoch_events i e : pending_epoch_events s !! i = Some e -> event_ok (epoch_kind e);
  inv_interval_events i e : pending_interval_events s !! i = Some e -> keeps_pool (interval_kind e);
  inv_bonds i b : mixnode_bonds s !! i = Some b -> bond_ok (mixnode_rewarding s) i b;
  inv_nodes i n : mixnode_rewarding s !! i = Some n ->
    i <= mixnode_id_counter s /\ backed n (delegations_of i (delegations s));
  inv_delegations k d : delegations s !! k = Some d ->
    Delegation.storage_key d = k /\ is_Some (mixnode_rewarding s !! k.1);
  inv_gateways k g : gateways s !! k = Some g -> GatewayBond.identity g = k /\ 0 <= gateway_funds g
}.

(** A transaction keeps the invariant and what it pays out is covered by what it received and
    what the contract owes less. *)
Record tx_ok (s : Store) (received : Z) (s' : Store) (r : Response) : Prop := {
  tx_inv : inv s';
  tx_denom : denom_of s' = denom_of s;
  tx_balance : liabilities s' + F * sent_in (denom_of s) r <= liabilities s + F * received
}.

Lemma tx_ok_refl s : inv s -> tx_ok s 0 s [].
Proof. intros Hi. split; [done|done|]. unfold sent_in; simpl. lia. Qed.

Lemma tx_ok_trans s f1 s1 r1 f2 s2 r2 :
  tx_ok s f1 s1 r1 -> tx_ok s1 f2 s2 r2 -> tx_ok s (f1 + f2) s2 (r1 ++ r2).
Proof.
  intros [H1 H2 H3] [H4 H5 H6]. split; [done|congruence|]. rewrite sent_in_app. rewrite H2 in H6. lia.
Qed.

Lemma tx_ok_more s f f' s' r : tx_ok s f s' r -> f <= f' -> tx_ok s f' s' r.
Proof. intros [? ? ?] ?. pose proof F_pos. split; [done|done|]. nia. Qed.

(** The parts of the store the invariant and the accounting depend on. *)
Definition core (s : Store) :=
  (contract_state s, reward_pool (RewardingParams.interval (rewarding_params s)), pending_reward_pool_change s,
   mixnode_rewarding s, pending_epoch_events s, pending_interval_events s,
   mixnode_id_counter s, mixnode_bonds s, delegations s, gateways s).

Lemma tx_ok_core s f s1 s2 r : tx_ok s f s1 r -> core s2 = core s1 -> tx_ok s f s2 r.
Proof.
  intros [[I1 I2 I3 I4 I5 I6 I7] Hd Hb] [= E1 E2 E3 E4 E5 E6 E7 E8 E9 E10]. split.
  - split; unfold denom_of in *; rewrite ?E1, ?E4, ?E5, ?E6, ?E7, ?E8, ?E9, ?E10; done.
  - unfold denom_of in *. by rewrite E1.
  - unfold liabilities, owed, pool_left in *. by rewrite E2, E3, E4, E5, E10.
Qed.

Lemma tx_ok_frame s s' : inv s -> core s' = core s -> tx_ok s 0 s' [].
Proof. intros Hi. by apply tx_ok_core, tx_ok_refl. Qed.

(** ** Pending events *)

Lemma event_funds_nonneg e : event_ok e -> 0 <= event_funds e.
Proof. destruct e; simpl; intros He; try lia; by apply Forall_inv in He. Qed.

Lemma at_key_nonneg {K V} `{Countable K} (f : V -> Z) (m : gmap K V) k :
  (forall v, m !! k = Some v -> 0 <= f v) -> 0 <= at_key f m k.
Proof. intros Hm. unfold at_key. destruct (m !! k) as [v|]; simpl; [by apply Hm|done]. Qed.

Lemma push_epoch_event_ok s env k id s' :
  inv s -> push_new_epoch_event s env k = Ok (id, s') -> event_ok k -> tx_ok s (event_funds k) s' [].
Proof.
  intros Hi Hp Hk. unfold push_new_epoch_event, next_epoch_event_id_counter in Hp. run_all.
  destruct Hi as [I1 I2 I3 I4 I5 I6 I7]. split; [|done|].
  - split; simpl; try done. intros i e. rewrite lookup_insert_Some. intros [[<- <-]|[_ Hl]]; [done|by eapply I2].
  - unfold liabilities, owed, pool_left; simpl. rewrite msum_insert. simpl.
    pose proof (at_key_nonneg (fun e => event_funds (epoch_kind e)) (pending_epoch_events s) (epoch_event_id_counter s + 1)) as Hn.
    specialize (Hn (fun v Hv => event_funds_nonneg _ (I2 _ _ Hv))). pose proof F_pos.
    unfold sent_in; simpl. nia.
Qed.

Lemma push_interval_event_ok s env k id s' :
  inv s -> push_new_interval_event s env k = Ok (id, s') -> keeps_pool k -> tx_ok s 0 s' [].
Proof.
  intros Hi Hp Hk. unfold push_new_interval_event, next_interval_event_id_counter in Hp. run_all.
  pose proof Hi as [I1 I2 I3 I4 I5 I6 I7]. split; [|done|].
  - split; simpl; try done. intros i e. rewrite lookup_insert_Some. intros [[<- <-]|[_ Hl]]; [done|by eapply I3].
  - apply tx_ok_refl in Hi. apply Hi.
Qed.

Lemma delete_epoch_event_ok s id e :
  inv s -> pending_epoch_events s !! id = Some e ->
  tx_ok s (- event_funds (epoch_kind e)) (set_pending_epoch_events s (delete id (pending_epoch_events s))) [].
Proof.
  intros [I1 I2 I3 I4 I5 I6 I7] He. split; [|done|].
  - split; simpl; try done. intros i e'. rewrite lookup_delete_Some. intros [_ Hl]. by eapply I2.
  - unfold liabilities, owed, pool_left; simpl. rewrite msum_delete. unfold at_key. rewrite He.
    unfold sent_in; simpl. lia.
Qed.

Lemma delete_interval_event_ok s id :
  inv s -> tx_ok s 0 (set_pending_interval_events s (delete id (pending_interval_events s))) [].
Proof.
  intros Hi. pose proof Hi as [I1 I2 I3 I4 I5 I6 I7]. split; [|done|].
  - split; simpl; try done. intros i e'. rewrite lookup_delete_Some. intros [_ Hl]. by eapply I3.
  - apply tx_ok_refl in Hi. apply Hi.
Qed.

(** ** Nodes, their delegations and bonds *)

(** The tokens, delegations and bond of the node [i] change. *)
Definition change_node (s : Store) (i : MixId) (n : MixNodeRewarding.t)
    (ds : gmap StorageKey Delegation.t) (bs : gmap MixId MixNodeBond.t) : Store :=
  set_mixnode_bonds (set_delegations (set_mixnode_rewarding s (<[i := n]> (mixnode_rewarding s))) ds) bs.

(** What the change must respect: [ds] and [bs] differ from the stored maps at [i] only. *)
Record change_fits (s : Store) (i : MixId) (n' : MixNodeRewarding.t)
    (ds : gmap StorageKey Delegation.t) (bs : gmap MixId MixNodeBond.t) : Prop := {
  fits_key k d : ds !! k = Some d -> k.1 = i /\ Delegation.storage_key d = k \/ delegations s !! k = Some d;
  fits_others j : j <> i -> delegations_of j ds ≡ₚ delegations_of j (delegations s);
  fits_backed : backed n' (delegations_of i ds);
  fits_bonds j b : bs !! j = Some b ->
    j <> i /\ mixnode_bonds s !! j = Some b \/
    j = i /\ MixNodeBond.mix_id b = i /\ 0 <= amount (MixNodeBond.original_pledge b) /\
      amount (MixNodeBond.original_pledge b) * F <= MixNodeRewarding.operator n'
}.

Lemma change_node_inv s i n' ds bs :
  inv s -> i <= mixnode_id_counter s -> change_fits s i n' ds bs -> inv (change_node s i n' ds bs).
Proof.
  intros [I1 I2 I3 I4 I5 I6 I7] Hc [F1 F2 F3 F4]. split; simpl; try done.
  - intros j b Hj. destruct (F4 _ _ Hj) as [[Hne Hb]|(-> & Hm & Hp & Ho)].
    + destruct (I4 _ _ Hb) as (? & ? & n0 & ? & ?). split_and!; [done|done|]. exists n0.
      by rewrite lookup_insert_ne by done.
    + split_and!; [done|done|]. exists n'. by rewrite lookup_insert_eq.
  - intros j n0. rewrite lookup_insert_Some. intros [[<- <-]|[Hne Hj]]; [done|].
    destruct (I5 _ _ Hj) as [? Hb]. split; [done|]. eapply backed_perm; [|exact Hb]. by rewrite F2.
  - intros k d Hk. destruct (F1 _ _ Hk) as [[Hi Hkey]|Hd].
    + split; [done|]. rewrite Hi, lookup_insert_eq. by eexists.
    + destruct (I6 _ _ Hd) as [? ?]. split; [done|]. by apply lookup_insert_is_Some'; right.
Qed.

Lemma change_node_liabilities s i n' ds bs :
  liabilities (change_node s i n' ds bs) = liabilities s - at_key tokens (mixnode_rewarding s) i + tokens n'.
Proof. unfold liabilities, owed, pool_left. simpl. rewrite msum_insert. lia. Qed.

(** A change of a node's tokens against what is received and sent. *)
Lemma change_node_ok s i n n' ds bs f r :
  inv s -> mixnode_rewarding s !! i = Some n -> change_fits s i n' ds bs ->
  tokens n' + F * sent_in (denom_of s) r <= tokens n + F * f ->
  tx_ok s f (change_node s i n' ds bs) r.
Proof.
  intros Hi Hn Hf Ht. split; [|done|].
  - apply change_node_inv; [done|by eapply inv_nodes|done].
  - rewrite change_node_liabilities. unfold at_key. rewrite Hn. simpl. lia.
Qed.

(** The bonds stay while the operator loses none of the pledge. *)
Lemma same_bonds_fit s i n' :
  inv s ->
  (forall b, mixnode_bonds s !! i = Some b ->
     amount (MixNodeBond.original_pledge b) * F <= MixNodeRewarding.operator n') ->
  forall j b, mixnode_bonds s !! j = Some b ->
    j <> i /\ mixnode_bonds s !! j = Some b \/
    j = i /\ MixNodeBond.mix_id b = i /\ 0 <= amount (MixNodeBond.original_pledge b) /\
      amount (MixNodeBond.original_pledge b) * F <= MixNodeRewarding.operator n'.
Proof.
  intros Hi Hbond j b Hj. destruct (decide (j = i)) as [->|]; [right|by left].
  destruct (inv_bonds _ Hi _ _ Hj) as (? & ? & _). auto.
Qed.

Lemma pledge_covered s i n b :
  inv s -> mixnode_rewarding s !! i = Some n -> mixnode_bonds s !! i = Some b ->
  amount (MixNodeBond.original_pledge b) * F <= MixNodeRewarding.operator n.
Proof. intros Hi Hn Hb. destruct (inv_bonds _ Hi _ _ Hb) as (_ & _ & n0 & Hn0 & Ho). by simplify_eq. Qed.

(** Nothing but the tokens changes. *)
Lemma change_tokens_fits s i n' :
  inv s -> backed n' (delegations_of i (delegations s)) ->
  (forall b, mixnode_bonds s !! i = Some b ->
     amount (MixNodeBond.original_pledge b) * F <= MixNodeRewarding.operator n') ->
  change_fits s i n' (delegations s) (mixnode_bonds s).
Proof. intros Hi Hb Hbond. split; [by auto|done|done|]. by apply same_bonds_fit. Qed.

(** A delegation is stored, possibly over an older one. *)
Lemma change_delegation_fits s i sub n n' d' :
  inv s -> mixnode_rewarding s !! i = Some n -> Delegation.storage_key d' = (i, sub) ->
  backed n' (d' :: delegations_of i (delete (i, sub) (delegations s))) ->
  MixNodeRewarding.operator n <= MixNodeRewarding.operator n' ->
  change_fits s i n' (<[(i, sub) := d']> (delegations s)) (mixnode_bonds s).
Proof.
  intros Hi Hn Hk Hb Ho. split.
  - intros k d. rewrite lookup_insert_Some. intros [[<- <-]|[_ ?]]; auto.
  - intros j Hj. by rewrite delegations_of_insert_ne, delegations_of_delete_ne.
  - eapply backed_perm; [|exact Hb]. rewrite <- insert_delete_eq.
    by rewrite delegations_of_insert by apply lookup_delete_eq.
  - apply same_bonds_fit; [done|]. intros b Hbd. pose proof (pledge_covered _ _ _ _ Hi Hn Hbd). lia.
Qed.

(** A delegation is removed. *)
Lemma remove_delegation_fits s i sub n n' :
  inv s -> mixnode_rewarding s !! i = Some n ->
  backed n' (delegations_of i (delete (i, sub) (delegations s))) ->
  MixNodeRewarding.operator n <= MixNodeRewarding.operator n' ->
  change_fits s i n' (delete (i, sub) (delegations s)) (mixnode_bonds s).
Proof.
  intros Hi Hn Hb Ho. split.
  - intros k d. rewrite lookup_delete_Some. intros [_ ?]; auto.
  - intros j Hj. by rewrite delegations_of_delete_ne.
  - done.
  - apply same_bonds_fit; [done|]. intros b Hbd. pose proof (pledge_covered _ _ _ _ Hi Hn Hbd). lia.
Qed.

(** The bond changes with the tokens. *)
Lemma change_bond_fits s i n' b' :
  backed n' (delegations_of i (delegations s)) -> MixNodeBond.mix_id b' = i ->
  0 <= amount (MixNodeBond.original_pledge b') ->
  amount (MixNodeBond.original_pledge b') * F <= MixNodeRewarding.operator n' ->
  change_fits s i n' (delegations s) (<[i := b']> (mixnode_bonds s)).
Proof.
  intros Hb Hm Hp Ho. split; [by auto|done|done|].
  intros j b. rewrite lookup_insert_Some. intros [[<- <-]|[? ?]]; auto.
Qed.

(** The bond goes, the tokens of the delegators stay. *)
Lemma remove_bond_fits s i n' :
  backed n' (delegations_of i (delegations s)) ->
  change_fits s i n' (delegations s) (delete i (mixnode_bonds s)).
Proof.
  intros Hb. split; [by auto|done|done|]. intros j b. rewrite lookup_delete_Some. intros [? ?]; auto.
Qed.

(** A node without delegations goes with its bond. *)
Lemma remove_node_ok s i n f r :
  inv s -> mixnode_rewarding s !! i = Some n -> MixNodeRewarding.unique_delegations n = 0 ->
  F * sent_in (denom_of s) r <= tokens n + F * f ->
  tx_ok s f (set_mixnode_rewarding (set_mixnode_bonds s (delete i (mixnode_bonds s)))
               (delete i (mixnode_rewarding s))) r.
Proof.
  intros Hi Hn Hu Ht. pose proof Hi as [I1 I2 I3 I4 I5 I6 I7].
  assert (delegations_of i (delegations s) = []) as Hnil.
  { apply count_zero. destruct (I5 _ _ Hn) as [_ Hb]. by rewrite <- (backed_count _ _ Hb). }
  split; [|done|].
  - split; simpl; try done.
    + intros j b. rewrite lookup_delete_Some. intros [Hne Hj].
      destruct (I4 _ _ Hj) as (? & ? & n0 & ? & ?). split_and!; [done|done|]. exists n0.
      by rewrite lookup_delete_ne by done.
    + intros j n0. rewrite lookup_delete_Some. intros [_ Hj]. by apply I5.
    + intros [j sub] d Hk. destruct (I6 _ _ Hk) as [? Hs]. split; [done|]. simpl in *.
      destruct (decide (j = i)) as [->|]; [|by rewrite lookup_delete_ne].
      pose proof (delegations_of_delete i sub d _ Hk) as Hp. rewrite Hnil in Hp.
      by apply Permutation_nil_cons in Hp.
  - unfold liabilities, owed, pool_left in *; simpl. rewrite msum_delete. unfold at_key. rewrite Hn. simpl. lia.
Qed.

(** A new node under a fresh identifier. *)
Lemma new_node_ok s i n b :
  inv s -> mixnode_id_counter s < i -> backed n [] -> MixNodeBond.mix_id b = i ->
  0 <= amount (MixNodeBond.original_pledge b) ->
  amount (MixNodeBond.original_pledge b) * F <= MixNodeRewarding.operator n ->
  tokens n = amount (MixNodeBond.original_pledge b) * F ->
  tx_ok s (amount (MixNodeBond.original_pledge b))
    (set_mixnode_id_counter (change_node s i n (delegations s) (<[i := b]> (mixnode_bonds s))) i) [].
Proof.
  intros Hi Hc Hb Hm Hp Ho Ht.
  assert (mixnode_rewarding s !! i = None) as Hnone.
  { destruct (mixnode_rewarding s !! i) as [n0|] eqn:E; [|done]. apply inv_nodes in E; [lia|done]. }
  assert (delegations_of i (delegations s) = []) as Hds.
  { apply delegations_of_none. intros sub. destruct (delegations s !! (i, sub)) eqn:E; [|done].
    apply inv_delegations in E as [_ [? E]]; [|done]. simpl in E. congruence. }
  set (s1 := set_mixnode_id_counter s i).
  assert (inv s1) as Hi1.
  { destruct Hi as [I1 I2 I3 I4 I5 I6 I7]. split; try done. intros j nj Hj. destruct (I5 _ _ Hj). split; [simpl; lia|done]. }
  split; [|done|].
  - apply (change_node_inv s1 i n (delegations s) (<[i := b]> (mixnode_bonds s))); [done|simpl; lia|].
    apply (change_bond_fits s1); [|done|done|done]. simpl. by rewrite Hds.
  - change (liabilities (set_mixnode_id_counter ?x i)) with (liabilities x).
    rewrite change_node_liabilities. unfold at_key. rewrite Hnone. unfold sent_in; simpl. lia.
Qed.

(** ** Gateways *)

Lemma insert_gateway_ok s k g :
  inv s -> GatewayBond.identity g = k -> 0 <= gateway_funds g ->
  tx_ok s (gateway_funds g - at_key gateway_funds (gateways s) k) (set_gateways s (<[k := g]> (gateways s))) [].
Proof.
  intros [I1 I2 I3 I4 I5 I6 I7] Hk Hg. split; [|done|].
  - split; simpl; try done. intros k' g'. rewrite lookup_insert_Some. intros [[<- <-]|[_ ?]]; auto.
  - unfold liabilities, owed, pool_left; simpl. rewrite msum_insert. unfold sent_in; simpl. lia.
Qed.

Lemma delete_gateway_ok s k g r :
  inv s -> gateways s !! k = Some g -> sent_in (denom_of s) r <= gateway_funds g ->
  tx_ok s 0 (set_gateways s (delete k (gateways s))) r.
Proof.
  intros [I1 I2 I3 I4 I5 I6 I7] Hk Hr. split; [|done|].
  - split; simpl; try done. intros k' g'. rewrite lookup_delete_Some. intros [_ ?]; auto.
  - unfold liabilities, owed, pool_left; simpl. rewrite msum_delete. unfold at_key. rewrite Hk. simpl.
    pose proof F_pos. nia.
Qed.

End Invariant.
