(* ===== verification/Solvency.v ===== *)
(** * The mixnet contract stays solvent

    Every transaction of the mixnet contract keeps the invariant of
    [Accounting] and pays out at most what it receives and what it owes less.
    So the contract's balance covers what it owes at any time. *)

From S2P Require Import Prelude Bytes Cosmwasm MixnetTypes Rewarding Backing Interval MixnetStorage MixnetSupport.
From S2P Require Import MixnetEvents MixnetTransactions Accounting.

(** ** Lookups and responses *)

Lemma find_by_Some {K V} `{Countable K} (f : V -> bool) (m : gmap K V) v :
  find_by f m = Some v -> exists k, m !! k = Some v /\ f v = true.
Proof.
  unfold find_by. destruct (filter _ _) as [|[k v'] l] eqn:E; simpl; [done|]. intros [= ->].
  assert ((k, v) ∈ filter (fun kv => f kv.2 = true) (map_to_list m)) as Hin by (rewrite E; constructor).
  apply list_elem_of_filter in Hin as [Hf Hin]. apply elem_of_map_to_list in Hin. eauto.
Qed.

Lemma track_sent d s r p m r' : maybe_add_track_message s r p m = Ok r' -> sent_in d r' = sent_in d r.
Proof.
  unfold maybe_add_track_message. destruct p; intros Hr; run_inv; [|done]. rewrite sent_in_app.
  unfold sent_in; simpl. lia.
Qed.

(** Coins sent back are covered by their amount, whatever their denomination. *)
Lemma send_back_le d p o c : 0 <= amount c -> 0 <= sent_in d [send_to_proxy_or_owner p o [c]] <= amount c.
Proof. intros Hc. unfold send_to_proxy_or_owner. rewrite sent_in_send. by apply coin_in_le. Qed.

Lemma reward_messages_sent d s o p c : 0 <= amount c -> 0 <= sent_in d (reward_messages s o p c) <= amount c.
Proof.
  intros Hc. unfold reward_messages. case_match; [done|].
  pose proof (send_back_le d p o c Hc) as Hs. revert Hs. unfold sent_in.
  destruct p as [q|]; [case_match|]; simpl; lia.
Qed.

Lemma save_bond_Ok s i b s' :
  save_bond s i b = Ok s' -> s' = set_mixnode_bonds s (<[i := b]> (mixnode_bonds s)).
Proof. unfold save_bond. intros Hs. by run_inv. Qed.

Lemma save_gateway_Ok s k g s' : save_gateway s k g = Ok s' -> s' = set_gateways s (<[k := g]> (gateways s)).
Proof. unfold save_gateway. intros Hs. by run_inv. Qed.

(** The store results from a change of one node. *)
Ltac by_change_node s :=
  eapply (tx_ok_core s _ (change_node s _ _ _ _)); swap 1 2;
  [unfold core, change_node; simpl; reflexivity | eapply change_node_ok; [done| | |] ].

(** Takes runs apart, pairs included. *)
Ltac run_pairs :=
  repeat first
    [ run_step
    | match goal with
      | x : prod _ _ |- _ => destruct x
      | H : lift_std _ = Ok _ |- _ => apply lift_std_Ok in H
      | H : save_bond _ _ _ = Ok _ |- _ => apply save_bond_Ok in H
      | H : save_gateway _ _ _ = Ok _ |- _ => apply save_gateway_Ok in H
      end ];
  num_inv; simplify_eq/=.

(** The outer layer of the handlers. *)
Ltac unfold_handlers :=
  unfold assign_mixnode_layer, try_add_mixnode, try_add_mixnode_on_behalf, try_increase_pledge,
    try_increase_pledge_on_behalf, try_decrease_pledge, try_decrease_pledge_on_behalf, try_remove_mixnode,
    try_remove_mixnode_on_behalf, try_update_mixnode_config, try_update_mixnode_config_on_behalf,
    try_update_mixnode_cost_params, try_update_mixnode_cost_params_on_behalf, try_delegate_to_mixnode,
    try_delegate_to_mixnode_on_behalf, try_remove_delegation_from_mixnode,
    try_remove_delegation_from_mixnode_on_behalf, try_add_gateway, try_add_gateway_on_behalf,
    try_remove_gateway, try_remove_gateway_on_behalf, try_update_gateway_config,
    try_update_gateway_config_on_behalf, try_withdraw_operator_reward, try_withdraw_operator_reward_on_behalf,
    try_withdraw_delegator_reward, try_withdraw_delegator_reward_on_behalf,
    try_update_rewarding_validator_address, try_update_contract_settings in *.

(** The queues of pending events. *)
Definition epoch_queue (s : Store) := (epoch_event_id_counter s, last_processed_epoch_event s, pending_epoch_events s).
Definition interval_queue (s : Store) :=
  (interval_event_id_counter s, last_processed_interval_event s, pending_interval_events s).
Definition queues (s : Store) := (epoch_queue s, interval_queue s).

Lemma pay_le x a : x <= a / F -> F * x <= a.
Proof. intros Hx. pose proof F_pos as HF. pose proof (div_mul_le a F HF). nia. Qed.

Section Solvency.
Context `{CosmMath} `{!CosmMathLaws} `{ChainApi} `{SignatureApi}.

Lemma undelegate_operator n d c n' :
  0 <= MixNodeRewarding.delegates n -> MixNodeRewarding.undelegate n d = Ok (c, n') ->
  MixNodeRewarding.operator n <= MixNodeRewarding.operator n'.
Proof.
  intros Hd Hn. unfold MixNodeRewarding.undelegate, MixNodeRewarding.remove_delegation_decimal,
    MixNodeRewarding.decrease_delegates_decimal, MixNodeRewarding.decrement_unique_delegations in Hn.
  run_all; simpl in *; unfold is_u128 in *; lia.
Qed.

(** ** Epoch events *)

Lemma get_details_by_id s i d :
  get_mixnode_details_by_id s i = Ok (Some d) -> inv s ->
  mixnode_bonds s !! i = Some (bond_information d) /\ mixnode_rewarding s !! i = Some (rewarding_details d) /\
  MixNodeBond.mix_id (bond_information d) = i.
Proof.
  intros Hd Hi. unfold get_mixnode_details_by_id, attach_mix_details in Hd.
  destruct (mixnode_bonds s !! i) as [b|] eqn:E; run_inv; simplify_eq/=.
  destruct (inv_bonds _ Hi _ _ E) as (Hm & _). rewrite Hm in *. done.
Qed.

Lemma refund_ok s p o c m r i :
  inv s -> 0 <= amount c ->
  maybe_add_track_vesting_undelegation_message s [send_to_proxy_or_owner p o [c]] p m i c = Ok r ->
  tx_ok s (amount c) s r.
Proof.
  intros Hi Hc Hr. apply (track_sent (denom_of s)) in Hr. pose proof (send_back_le (denom_of s) p o c Hc).
  pose proof F_pos. split; [done|done|]. rewrite Hr. nia.
Qed.

(** What a delegation on top of an existing one does to the node. *)
Lemma redelegate_ok s i sub n n1 c stored :
  inv s -> mixnode_rewarding s !! i = Some n -> 0 <= amount c ->
  (match delegations s !! (i, sub) with
   | Some existing =>
       let? (og, n) := MixNodeRewarding.undelegate n existing in
       let? a := uadd (amount c) (amount og) in
       Ok (n, mkCoin (denom c) a)
   | None => Ok (n, c)
   end) = @Ok MixnetContractError _ (n1, stored) ->
  backed n1 (delegations_of i (delete (i, sub) (delegations s))) /\
  MixNodeRewarding.operator n <= MixNodeRewarding.operator n1 /\
  0 <= amount stored /\ tokens n1 + F * amount stored <= tokens n + F * amount c.
Proof.
  intros Hi Hn Hc Hr. destruct (inv_nodes _ Hi _ _ Hn) as [_ Hb]. pose proof (backed_delegates _ _ Hb) as Hd.
  destruct (delegations s !! (i, sub)) as [d|] eqn:E.
  - run_step. destruct x as [og n2]. run_all.
    apply (backed_perm _ _ _ (delegations_of_delete i sub d _ E)) in Hb.
    pose proof (undelegate_operator _ _ _ _ Hd E0).
    destruct (backed_undelegate _ _ _ _ _ Hb E0) as (? & ? & ? & _).
    unfold is_u128 in *. simpl. split_and!; [done|done|lia|lia].
  - run_inv. rewrite delete_id by done. split_and!; [done|lia|done|lia].
Qed.

Lemma delegate_ok s env t o i c p s' r :
  inv s -> 0 <= amount c -> delegate s env t o i c p = Ok (s', r) -> tx_ok s (amount c) s' r.
Proof.
  intros Hi Hc Hr. unfold delegate in Hr. run_step. destruct x as [d|]; [|run_inv; by eapply refund_ok].
  apply get_details_by_id in E as (Hb & Hn & _); [|done].
  destruct (_ && _); [|run_inv; by eapply refund_ok].
  run_step. destruct x as [n1 stored]. apply redelegate_ok in E as (Hb1 & Ho & Hs & Ht); [|done..].
  run_inv. unfold Delegation.new in *. run_inv.
  assert (MixNodeRewarding.operator x = MixNodeRewarding.operator n1 /\ tokens x = tokens n1 + F * amount stored /\
    MixNodeRewarding.total_unit_reward x = MixNodeRewarding.total_unit_reward n1) as (Eo & Et & Er).
  { clear -H0 E. unfold MixNodeRewarding.add_base_delegation, MixNodeRewarding.increase_delegates_uint128 in E.
    run_all. unfold tokens; simpl. split_and!; [done|lia|done]. }
  by_change_node s; [exact Hn|eapply change_delegation_fits; [done|exact Hn|done| |lia]|].
  - eapply backed_add; [done|exact Hs|exact E|done|done].
  - unfold sent_in; simpl. lia.
Qed.

Lemma undelegate_ok s t o i p s' r : inv s -> undelegate s t o i p = Ok (s', r) -> tx_ok s 0 s' r.
Proof.
  intros Hi Hr. unfold undelegate, helper_undelegate in Hr.
  destruct (delegations s !! _) as [d|] eqn:Ed; [|run_inv; by apply tx_ok_refl].
  run_pairs. destruct (inv_delegations _ Hi _ _ Ed) as [Hk _]. rewrite Hk in *.
  assert (Delegation.mix_id d = i) as Hd by (unfold Delegation.storage_key, Delegation.generate_storage_key in Hk; congruence).
  rewrite Hd in *. apply (track_sent (denom_of s)) in E0. unfold Delegation.generate_storage_key in *.
  destruct (inv_nodes _ Hi _ _ E) as [_ Hb]. pose proof (backed_delegates _ _ Hb) as HD.
  apply (backed_perm _ _ _ (delegations_of_delete _ _ _ _ Ed)) in Hb.
  pose proof (undelegate_operator _ _ _ _ HD E1).
  destruct (backed_undelegate _ _ _ _ _ Hb E1) as (? & ? & ? & _).
  by_change_node s; [exact E|by eapply remove_delegation_fits|].
  pose proof (Forall_inv (backed_each _ _ Hb)) as [_ Hpos]. pose proof F_pos.
  rewrite E0. match goal with |- context [send_to_proxy_or_owner p o [?c]] =>
    pose proof (send_back_le (denom_of s) p o c ltac:(lia)) end. nia.
Qed.

(** A bond is replaced by one with the same identifier and pledge. *)
Lemma save_bond_ok s i b b' s' :
  inv s -> mixnode_bonds s !! i = Some b -> MixNodeBond.mix_id b' = i ->
  MixNodeBond.original_pledge b' = MixNodeBond.original_pledge b -> save_bond s i b' = Ok s' -> tx_ok s 0 s' [].
Proof.
  intros Hi Hb Hm Hp Hs. apply save_bond_Ok in Hs as ->. subst i.
  destruct (inv_bonds _ Hi _ _ Hb) as (_ & Hnn & n & Hn & Ho).
  assert (inv (set_mixnode_bonds s (<[MixNodeBond.mix_id b' := b']> (mixnode_bonds s)))) as Hinv.
  { destruct Hi as [I1 I2 I3 I4 I5 I6 I7]. split; simpl; try done.
    intros j b0. rewrite lookup_insert_Some. intros [[<- <-]|[? ?]]; [|by apply I4].
    split_and!; [done|by rewrite Hp|]. exists n. by rewrite Hp. }
  split; [done|done|]. apply tx_ok_refl in Hi. apply Hi.
Qed.

(** Removing a bonded node frees the operator's tokens. *)
Lemma cleanup_ok s env d i s' r :
  inv s -> mixnode_bonds s !! i = Some (bond_information d) -> mixnode_rewarding s !! i = Some (rewarding_details d) ->
  MixNodeBond.mix_id (bond_information d) = i -> cleanup_post_unbond_mixnode_storage s env d = Ok s' ->
  F * sent_in (denom_of s) r <= MixNodeRewarding.operator (rewarding_details d) -> tx_ok s 0 s' r.
Proof.
  intros Hi Hb Hn Hm Hs Hr. destruct (inv_nodes _ Hi _ _ Hn) as [_ Hbk]. pose proof (backed_delegates _ _ Hbk).
  unfold cleanup_post_unbond_mixnode_storage, storage_decrement_layer_count in Hs. rewrite Hm in Hs. run_inv.
  clear E. destruct (Z.eqb_spec (MixNodeRewarding.unique_delegations (rewarding_details d)) 0) as [Hz|Hz].
  - eapply tx_ok_core; [eapply remove_node_ok; [done|exact Hn|exact Hz|]|reflexivity]. unfold tokens. lia.
  - by_change_node s; [exact Hn|apply remove_bond_fits|].
    + eapply backed_same; [exact Hbk|done|done|done|done|]. simpl. unfold dec_zero. lia.
    + unfold tokens, dec_zero; simpl. lia.
Qed.

Lemma unbond_mixnode_ok s env t i s' r : inv s -> unbond_mixnode s env t i = Ok (s', r) -> tx_ok s 0 s' r.
Proof.
  intros Hi Hr. unfold unbond_mixnode in Hr. run_pairs. apply get_details_by_id in E as (Hb & Hn & Hm); [|done].
  eapply cleanup_ok; [done|exact Hb|exact Hn|exact Hm|eassumption|].
  destruct (inv_nodes _ Hi _ _ Hn) as [_ Hbk]. pose proof (backed_operator _ _ Hbk) as Hop. pose proof F_pos as HF.
  unfold MixNodeRewarding.operator_pledge_with_reward, truncate_reward in *. run_all.
  erewrite track_sent by eassumption.
  pose proof (div_mul_le (MixNodeRewarding.operator (rewarding_details x0)) F HF).
  assert (0 <= MixNodeRewarding.operator (rewarding_details x0) / F) by (by apply Z.div_pos).
  match goal with |- context [send_to_proxy_or_owner ?p ?o [?c]] =>
    pose proof (send_back_le (denom_of s) p o c ltac:(done)) as Hs; simpl amount in Hs end. nia.
Qed.

Lemma increase_pledge_ok s t i c s' r :
  inv s -> 0 <= amount c -> increase_pledge s t i c = Ok (s', r) -> tx_ok s (amount c) s' r.
Proof.
  intros Hi Hc Hr. unfold increase_pledge, MixNodeRewarding.increase_operator_uint128 in Hr. run_pairs.
  apply get_details_by_id in E as (Hb & Hn & Hm); [|done].
  destruct (inv_nodes _ Hi _ _ Hn) as [_ Hbk]. pose proof (pledge_covered _ _ _ _ Hi Hn Hb).
  destruct (inv_bonds _ Hi _ _ Hb) as (_ & Hp & _). pose proof (backed_operator _ _ Hbk). pose proof F_pos.
  by_change_node s; [exact Hn|apply change_bond_fits; simpl; [|done|lia|lia]|].
  - eapply backed_same; [exact Hbk|done..|]. simpl. nia.
  - unfold tokens, sent_in; simpl. lia.
Qed.

Lemma decrease_pledge_ok s t i c s' r :
  inv s -> 0 <= amount c -> decrease_pledge s t i c = Ok (s', r) -> tx_ok s 0 s' r.
Proof.
  intros Hi Hc Hr. unfold decrease_pledge, MixNodeRewarding.decrease_operator_uint128 in Hr. run_pairs.
  apply get_details_by_id in E as (Hb & Hn & Hm); [|done].
  destruct (inv_nodes _ Hi _ _ Hn) as [_ Hbk]. pose proof (pledge_covered _ _ _ _ Hi Hn Hb).
  pose proof (backed_operator _ _ Hbk). pose proof F_pos. unfold is_u128 in *.
  by_change_node s; [exact Hn|apply change_bond_fits; simpl; [|done|lia|lia]|].
  - eapply backed_same; [exact Hbk|done..|]. simpl. lia.
  - erewrite track_sent by eassumption. unfold tokens; simpl.
    match goal with |- context [send_to_proxy_or_owner ?p ?o _] =>
      pose proof (send_back_le (denom_of s) p o c Hc) end. nia.
Qed.

(** The accounting does not depend on the parameters but the reward pool. *)
Lemma set_params_ok s p :
  inv s -> reward_pool (RewardingParams.interval p) = reward_pool (RewardingParams.interval (rewarding_params s)) ->
  tx_ok s 0 (set_rewarding_params s p) [].
Proof. intros Hi Hp. apply tx_ok_frame; [done|]. unfold core. simpl. by rewrite Hp. Qed.

Lemma try_change_active_set_size_pool p n p' :
  RewardingParams.try_change_active_set_size p n = Ok p' ->
  RewardingParams.interval p' = RewardingParams.interval p.
Proof. unfold RewardingParams.try_change_active_set_size. intros Hp. by run_inv. Qed.

Lemma try_apply_updates_pool p u k p' :
  RewardingParams.try_apply_updates p u k = Ok p' -> upd_reward_pool u = None ->
  reward_pool (RewardingParams.interval p') = reward_pool (RewardingParams.interval p).
Proof.
  unfold RewardingParams.try_apply_updates. intros Hp Hu. run_inv_std; simpl; by rewrite Hu.
Qed.

Lemma execute_epoch_event_ok e s env s' r :
  inv s -> event_ok (epoch_kind e) -> execute_epoch_event e s env = Ok (s', r) ->
  tx_ok s (event_funds (epoch_kind e)) s' r.
Proof.
  intros Hi He Hr. unfold execute_epoch_event in Hr. destruct (epoch_kind e) as [o i c p|o i p|i c|i c|i|n]; simpl in *.
  - apply Forall_inv in He. by eapply delegate_ok.
  - by eapply undelegate_ok.
  - apply Forall_inv in He. by eapply increase_pledge_ok.
  - apply Forall_inv in He. by eapply decrease_pledge_ok.
  - by eapply unbond_mixnode_ok.
  - unfold update_active_set_size in Hr. run_inv. apply set_params_ok; [done|].
    by erewrite try_change_active_set_size_pool.
Qed.

(** ** The queue of epoch events *)

Lemma cleanup_queues s env d s' :
  cleanup_post_unbond_mixnode_storage s env d = Ok s' -> queues s' = queues s /\ epoch_status s' = epoch_status s.
Proof.
  unfold cleanup_post_unbond_mixnode_storage, storage_decrement_layer_count. intros Hs. run_inv. by case_match.
Qed.

(** Executing an event leaves the queues alone. *)
Lemma execute_epoch_event_queues e s env s' r :
  execute_epoch_event e s env = Ok (s', r) -> queues s' = queues s /\ epoch_status s' = epoch_status s.
Proof.
  unfold execute_epoch_event. destruct (epoch_kind e) as [o i c p|o i p|i c|i c|i|n]; intros Hr.
  - unfold delegate in Hr. run_step. destruct x as [d|]; [|by run_pairs]. by run_pairs.
  - unfold undelegate, helper_undelegate in Hr. case_match; by run_pairs.
  - unfold increase_pledge in Hr. by run_pairs.
  - unfold decrease_pledge in Hr. by run_pairs.
  - unfold unbond_mixnode in Hr. run_pairs. by eapply cleanup_queues.
  - unfold update_active_set_size in Hr. by run_pairs.
Qed.

Lemma epoch_events_loop_ok n id s env s' r :
  inv s -> epoch_events_loop n id s env = Ok (s', r) -> tx_ok s 0 s' r.
Proof.
  revert id s s' r. induction n as [|n IH]; intros id s s' r Hi Hr; simpl in Hr.
  { run_inv. by apply tx_ok_refl. }
  run_step. run_step. destruct x0 as [s1 r1]. run_step. destruct x0 as [s2 r2]. run_inv.
  pose proof (execute_epoch_event_queues _ _ _ _ _ E0) as [[= _ _ Hq _ _ _] _].
  apply execute_epoch_event_ok in E0; [|done|by eapply inv_epoch_events].
  assert (tx_ok s1 (- event_funds (epoch_kind x))
    (set_pending_epoch_events s1 (delete id (pending_epoch_events s1))) []) as Hd.
  { apply delete_epoch_event_ok; [by eapply tx_inv|congruence]. }
  pose proof (tx_ok_trans _ _ _ _ _ _ _ E0 Hd) as Ht. apply IH in E1; [|by eapply tx_inv].
  pose proof (tx_ok_trans _ _ _ _ _ _ _ Ht E1) as Ht'. rewrite app_nil_r in Ht'.
  eapply tx_ok_more; [exact Ht'|lia].
Qed.

Lemma perform_epoch_ok s env l s' r k :
  inv s -> perform_pending_epoch_actions s env l = Ok (s', r, k) -> tx_ok s 0 s' r.
Proof.
  intros Hi Hr. unfold perform_pending_epoch_actions in Hr. destruct (_ =? _) eqn:?; [run_inv; by apply tx_ok_refl|].
  run_pairs. eapply tx_ok_core; [by eapply epoch_events_loop_ok|done].
Qed.

(** ** The queue of interval events *)

Lemma change_interval_config_ok s i a b s' :
  inv s -> change_interval_config s i a b = Ok s' -> tx_ok s 0 s' [].
Proof.
  intros Hi Hr. unfold change_interval_config, RewardingParams.apply_epochs_in_interval_change in Hr. run_pairs.
  by apply tx_ok_frame.
Qed.

Lemma execute_interval_event_ok e s s' r :
  inv s -> keeps_pool (interval_kind e) -> execute_interval_event e s = Ok (s', r) -> tx_ok s 0 s' r.
Proof.
  intros Hi He Hr. unfold execute_interval_event in Hr. destruct (interval_kind e) as [i c|u|a b]; simpl in *.
  - unfold change_mix_cost_params in Hr. destruct (mixnode_rewarding s !! i) as [n|] eqn:E;
      [|run_inv; by apply tx_ok_refl]. run_inv; [|by apply tx_ok_refl].
    destruct (inv_nodes _ Hi _ _ E) as [_ Hb].
    by_change_node s; [exact E|apply change_tokens_fits; [done| |]|].
    + eapply backed_same; [exact Hb|done..|]. by apply backed_operator in Hb.
    + intros b Hbd. by apply (pledge_covered _ _ _ _ Hi E Hbd).
    + unfold tokens, sent_in; simpl. lia.
  - unfold update_rewarding_params in Hr. run_inv. apply set_params_ok; [done|]. by eapply try_apply_updates_pool.
  - unfold update_interval_config in Hr. run_inv. by eapply change_interval_config_ok.
Qed.

Lemma execute_interval_event_queues e s s' r :
  execute_interval_event e s = Ok (s', r) -> queues s' = queues s /\ epoch_status s' = epoch_status s.
Proof.
  unfold execute_interval_event. destruct (interval_kind e) as [i c|u|a b]; intros Hr.
  - unfold change_mix_cost_params in Hr. case_match; by run_pairs.
  - unfold update_rewarding_params in Hr. by run_pairs.
  - unfold update_interval_config, change_interval_config in Hr. by run_pairs.
Qed.

Lemma interval_events_loop_ok n id s s' r :
  inv s -> interval_events_loop n id s = Ok (s', r) -> tx_ok s 0 s' r.
Proof.
  revert id s s' r. induction n as [|n IH]; intros id s s' r Hi Hr; simpl in Hr.
  { run_inv. by apply tx_ok_refl. }
  run_step. run_step. destruct x0 as [s1 r1]. run_step. destruct x0 as [s2 r2]. run_inv.
  apply execute_interval_event_ok in E0; [|done|by eapply inv_interval_events].
  pose proof (delete_interval_event_ok s1 id (tx_inv _ _ _ _ E0)) as Hd.
  pose proof (tx_ok_trans _ _ _ _ _ _ _ E0 Hd) as Ht. apply IH in E1; [|by eapply tx_inv].
  pose proof (tx_ok_trans _ _ _ _ _ _ _ Ht E1) as Ht'. rewrite app_nil_r in Ht'. exact Ht'.
Qed.

Lemma perform_interval_ok s l s' r k :
  inv s -> perform_pending_interval_actions s l = Ok (s', r, k) -> tx_ok s 0 s' r.
Proof.
  intros Hi Hr. unfold perform_pending_interval_actions in Hr. destruct (_ =? _) eqn:?; [run_inv; by apply tx_ok_refl|].
  run_pairs. eapply tx_ok_core; [by eapply interval_events_loop_ok|done].
Qed.

(** ** Funds of a message *)

Lemma coins_in_one d c : denom c = d -> coins_in d [c] = amount c.
Proof. intros <-. unfold coins_in; simpl. unfold coin_in, addr_eqb. rewrite bool_decide_eq_true_2 by done. lia. Qed.

Lemma coins_in_nonneg d cs : Forall (fun c => 0 <= amount c) cs -> 0 <= coins_in d cs.
Proof.
  induction 1 as [|c cs Hc _ IH]; [done|]. unfold coins_in in *. rewrite fmap_cons, zsum_cons.
  pose proof (coin_in_le d c Hc). lia.
Qed.

Lemma validate_pledge_Ok cs m c :
  validate_pledge cs m = Ok c -> cs = [c] /\ denom c = denom m /\ amount m <= amount c.
Proof.
  unfold validate_pledge, addr_eqb. destruct cs as [|c0 [|? ?]]; try done. intros Hv. run_inv.
  apply negb_false_iff, bool_decide_eq_true in C. split_and!; [done|done|lia].
Qed.

Lemma validate_delegation_Ok cs m d c :
  validate_delegation_stake cs m d = Ok c -> cs = [c] /\ denom c = d.
Proof.
  unfold validate_delegation_stake, addr_eqb. destruct cs as [|c0 [|? ?]]; try done. intros Hv. run_inv.
  apply negb_false_iff, bool_decide_eq_true in C. destruct m; run_inv; done.
Qed.

(** ** Mixnodes *)

Lemma get_details_by_owner s o d :
  get_mixnode_details_by_owner s o = Ok (Some d) -> inv s ->
  exists i, mixnode_bonds s !! i = Some (bond_information d) /\ mixnode_rewarding s !! i = Some (rewarding_details d) /\
  MixNodeBond.mix_id (bond_information d) = i.
Proof.
  intros Hd Hi. unfold get_mixnode_details_by_owner, attach_mix_details, mixnode_by_owner in Hd.
  destruct (find_by _ _) as [b|] eqn:E; run_inv; simplify_eq/=. apply find_by_Some in E as (i & Hb & _).
  exists i. destruct (inv_bonds _ Hi _ _ Hb) as (Hm & _). rewrite Hm in *. done.
Qed.

Lemma bond_by_owner s o b :
  mixnode_by_owner s o = Some b -> inv s -> mixnode_bonds s !! MixNodeBond.mix_id b = Some b.
Proof.
  intros Hb Hi. apply find_by_Some in Hb as (i & Hb & _). destruct (inv_bonds _ Hi _ _ Hb) as (Hm & _).
  by rewrite Hm.
Qed.

Lemma update_mixnode_layer_ok s i l s' : inv s -> update_mixnode_layer s i l = Ok s' -> tx_ok s 0 s' [].
Proof.
  intros Hi Hr. unfold update_mixnode_layer in Hr. run_inv. destruct (inv_bonds _ Hi _ _ E) as (Hm & _).
  rewrite Hm in Hr. by apply (save_bond_ok _ _ _ _ _ Hi E) in Hr.
Qed.

Lemma add_mixnode_ok s env m c cs o sig p s' r :
  inv s -> Forall (fun c => 0 <= amount c) cs -> _try_add_mixnode s env m c cs o sig p = Ok (s', r) ->
  tx_ok s (coins_in (denom_of s) cs) s' r.
Proof.
  intros Hi Hcs Hr. unfold _try_add_mixnode, increment_signing_nonce, save_new_mixnode, assign_layer,
    next_mixnode_id_counter, MixNodeRewarding.initialise_new in Hr. run_pairs.
  apply validate_pledge_Ok in E as (-> & Hd & _). apply Forall_inv in Hcs.
  rewrite coins_in_one by (rewrite Hd; apply (inv_denoms _ Hi)).
  eapply (tx_ok_core s _ (set_mixnode_id_counter (change_node s _ _ _ _) _)); swap 1 2;
    [unfold core, change_node; simpl; reflexivity|].
  apply (new_node_ok s (mixnode_id_counter s + 1) _ (MixNodeBond.new _ o x _ m p _)); simpl; [done|lia| |done..|].
  - split; simpl; try done; unfold is_u128 in *; lia || (by destruct E2) || (unfold qsum; simpl; Lqa.lra).
  - unfold tokens, dec_zero; simpl. lia.
Qed.

Lemma increase_pledge_tx_ok s env cs o p s' r :
  inv s -> Forall (fun c => 0 <= amount c) cs -> _try_increase_pledge s env cs o p = Ok (s', r) ->
  tx_ok s (coins_in (denom_of s) cs) s' r.
Proof.
  intros Hi Hcs Hr. unfold _try_increase_pledge in Hr. run_pairs.
  match goal with H : validate_pledge _ _ = Ok _ |- _ => apply validate_pledge_Ok in H as (-> & Hd & _) end.
  rewrite coins_in_one by done.
  match goal with H : push_new_epoch_event _ _ _ = Ok _ |- _ => apply push_epoch_event_ok in H; [|done|done] end.
  by eapply tx_ok_core.
Qed.

Lemma decrease_pledge_tx_ok s env c o p s' r :
  inv s -> 0 <= amount c -> _try_decrease_pledge s env c o p = Ok (s', r) -> tx_ok s 0 s' r.
Proof.
  intros Hi Hc Hr. unfold _try_decrease_pledge in Hr. run_pairs.
  match goal with H : push_new_epoch_event _ _ _ = Ok _ |- _ =>
    apply push_epoch_event_ok in H; [|done|by constructor] end.
  by eapply tx_ok_core.
Qed.

Lemma remove_mixnode_tx_ok s env o p s' r :
  inv s -> _try_remove_mixnode s env o p = Ok (s', r) -> tx_ok s 0 s' r.
Proof.
  intros Hi Hr. unfold _try_remove_mixnode, must_get_mixnode_bond_by_owner in Hr. do 5 run_step. run_step.
  apply or_err_Ok in E. apply bond_by_owner in E; [|done].
  match goal with H : save_bond _ _ _ = Ok _ |- _ =>
    apply (save_bond_ok _ _ _ _ _ Hi E) in H as Hs; [|done|done] end.
  run_pairs. match goal with H : push_new_epoch_event _ _ _ = Ok _ |- _ =>
    apply push_epoch_event_ok in H as Hp; [|by eapply tx_inv|by constructor] end.
  pose proof (tx_ok_trans _ _ _ _ _ _ _ Hs Hp) as Ht. exact Ht.
Qed.

Lemma update_mixnode_config_ok s c o p s' r :
  inv s -> _try_update_mixnode_config s c o p = Ok (s', r) -> tx_ok s 0 s' r.
Proof.
  intros Hi Hr. unfold _try_update_mixnode_config, must_get_mixnode_bond_by_owner in Hr. run_inv.
  apply bond_by_owner in E; [|done].
  match goal with H : save_bond _ _ _ = Ok _ |- _ => by apply (save_bond_ok _ _ _ _ _ Hi E) in H end.
Qed.

Lemma update_cost_params_ok s env c o p s' r :
  inv s -> _try_update_mixnode_cost_params s env c o p = Ok (s', r) -> tx_ok s 0 s' r.
Proof.
  intros Hi Hr. unfold _try_update_mixnode_cost_params in Hr. run_pairs. by eapply push_interval_event_ok.
Qed.

(** ** Delegations *)

Lemma delegate_tx_ok s env i o cs p s' r :
  inv s -> Forall (fun c => 0 <= amount c) cs -> _try_delegate_to_mixnode s env i o cs p = Ok (s', r) ->
  tx_ok s (coins_in (denom_of s) cs) s' r.
Proof.
  intros Hi Hcs Hr. unfold _try_delegate_to_mixnode in Hr. run_pairs.
  match goal with H : validate_delegation_stake _ _ _ = Ok _ |- _ => apply validate_delegation_Ok in H as (-> & Hd) end.
  rewrite coins_in_one by done.
  match goal with H : push_new_epoch_event _ _ _ = Ok _ |- _ => by apply push_epoch_event_ok in H end.
Qed.

Lemma undelegate_tx_ok s env i o p s' r :
  inv s -> _try_remove_delegation_from_mixnode s env i o p = Ok (s', r) -> tx_ok s 0 s' r.
Proof.
  intros Hi Hr. unfold _try_remove_delegation_from_mixnode in Hr. run_step.
  case_match; run_pairs.
  match goal with H : push_new_epoch_event _ _ _ = Ok _ |- _ => apply push_epoch_event_ok in H; [done|done|by constructor] end.
Qed.

(** ** Gateways *)

Lemma add_gateway_ok s env g cs o sig p s' r :
  inv s -> Forall (fun c => 0 <= amount c) cs -> _try_add_gateway s env g cs o sig p = Ok (s', r) ->
  tx_ok s (coins_in (denom_of s) cs) s' r.
Proof.
  intros Hi Hcs Hr. unfold _try_add_gateway, increment_signing_nonce in Hr. run_pairs.
  apply validate_pledge_Ok in E as (-> & Hd & _). apply Forall_inv in Hcs.
  rewrite coins_in_one by (rewrite Hd; apply (inv_denoms _ Hi)).
  set (b := GatewayBond.mk x o (block_height env) g p).
  pose proof (at_key_nonneg gateway_funds (gateways s) (GatewayBond.identity b)
    (fun v Hv => proj2 (inv_gateways _ Hi _ _ Hv))) as Hold.
  eapply tx_ok_more; [|enough (gateway_funds b - at_key gateway_funds (gateways s) (GatewayBond.identity b) <= amount x)
    by eassumption; unfold gateway_funds at 1; simpl; lia].
  eapply tx_ok_core; [by apply (insert_gateway_ok s (GatewayBond.identity b) b)|done].
Qed.

Lemma gateway_at s o g : gateway_by_owner s o = Some g -> inv s -> gateways s !! GatewayBond.identity g = Some g.
Proof.
  intros Hg Hi. apply find_by_Some in Hg as (k & Hk & _). destruct (inv_gateways _ Hi _ _ Hk) as [Hid _].
  by rewrite Hid.
Qed.

Lemma remove_gateway_ok s o p s' r : inv s -> _try_remove_gateway s o p = Ok (s', r) -> tx_ok s 0 s' r.
Proof.
  intros Hi Hr. unfold _try_remove_gateway in Hr. run_inv. apply gateway_at in E; [|done].
  eapply delete_gateway_ok; [done|exact E|]. destruct (inv_gateways _ Hi _ _ E) as [_ Hp]. unfold gateway_funds in *.
  pose proof (send_back_le (denom_of s) p o _ Hp) as Hs. unfold send_to_proxy_or_owner in Hs.
  destruct p; unfold sent_in in *; simpl in *; lia.
Qed.

Lemma update_gateway_config_ok s c o p s' r :
  inv s -> _try_update_gateway_config s c o p = Ok (s', r) -> tx_ok s 0 s' r.
Proof.
  intros Hi Hr. unfold _try_update_gateway_config, must_get_gateway_bond_by_owner in Hr. run_pairs.
  apply gateway_at in E; [|done]. destruct (inv_gateways _ Hi _ _ E) as [_ Hp].
  eapply tx_ok_more; [apply (insert_gateway_ok s); [done|done|done]|].
  unfold at_key. rewrite E. unfold gateway_funds; simpl. lia.
Qed.

(** ** Rewards *)

Lemma distribute_operator n d e n' :
  MixNodeRewarding.distribute_rewards n d e = Ok n' ->
  MixNodeRewarding.operator n' = MixNodeRewarding.operator n + rd_operator d.
Proof. intros Hn. unfold MixNodeRewarding.distribute_rewards in Hn. by run_all. Qed.

(** Rewarding a node moves tokens from the pool to the node. *)
Lemma reward_node_ok s i n r perf k d e n' s' :
  inv s -> mixnode_rewarding s !! i = Some n -> 0 <= r ->
  MixNodeRewarding.determine_reward_split n r perf k = Ok d ->
  MixNodeRewarding.distribute_rewards n d e = Ok n' ->
  reward_accounting (save_rewarding s i n') r = Ok s' -> tx_ok s 0 s' [].
Proof.
  intros Hi Hn Hr Hd Hn' Hs. unfold reward_accounting in Hs. run_all.
  destruct (split_nonneg _ _ _ _ _ Hr Hd) as [Ho Hdel]. pose proof (split_conserves _ _ _ _ _ Hd) as Hsum.
  pose proof (distribute_conserves _ _ _ _ Hn') as Htok. pose proof (distribute_operator _ _ _ _ Hn') as Hop.
  destruct (inv_nodes _ Hi _ _ Hn) as [Hc Hb].
  assert (inv (change_node s i n' (delegations s) (mixnode_bonds s))) as Hi'.
  { apply change_node_inv; [done|done|]. apply change_tokens_fits; [done|by eapply backed_distribute|].
    intros b Hbd. pose proof (pledge_covered _ _ _ _ Hi Hn Hbd). lia. }
  split; [by destruct Hi'; split|done|].
  unfold liabilities, owed, pool_left; simpl. rewrite msum_insert. unfold at_key. rewrite Hn. simpl.
  unfold sent_in; simpl. lia.
Qed.

Lemma update_last_rewarded_Ok s st i s' :
  update_and_save_last_rewarded s st i = Ok s' -> exists st', s' = set_epoch_status s st'.
Proof. unfold update_and_save_last_rewarded. intros Hs. run_pairs. by eexists. Qed.

Lemma reward_mixnode_ok s env info i perf s' r :
  inv s -> try_reward_mixnode s env info i perf = Ok (s', r) -> tx_ok s 0 s' r.
Proof.
  intros Hi Hr. unfold try_reward_mixnode in Hr. do 4 run_step. apply update_last_rewarded_Ok in E2 as [st ->].
  assert (tx_ok s 0 (set_epoch_status s st) []) as Hst by by apply tx_ok_frame.
  pose proof (tx_inv _ _ _ _ Hst) as Hi1.
  destruct (mixnode_rewarding _ !! i) as [n|] eqn:En; [|by run_inv].
  run_inv; [| |done].
  - eapply (tx_ok_trans _ 0 _ []); [exact Hst|].
    destruct (inv_nodes _ Hi1 _ _ En) as [_ Hb].
    by_change_node (set_epoch_status s st); [exact En|apply (change_tokens_fits (set_epoch_status s st)); [done| |]|].
    + eapply backed_same; [exact Hb|done..|]. by apply backed_operator in Hb.
    + intros b Hbd. by apply (pledge_covered _ _ _ _ Hi En Hbd).
    + unfold tokens, sent_in; simpl. lia.
  - eapply (tx_ok_trans _ 0 _ []); [exact Hst|].
    match goal with H : MixNodeRewarding.node_reward _ _ _ = Ok _ |- _ => apply node_reward_nonneg in H end.
    eapply reward_node_ok; [exact Hi1|exact En|eassumption..].
Qed.

Lemma withdraw_operator_ok s o p s' r :
  inv s -> _try_withdraw_operator_reward s o p = Ok (s', r) -> tx_ok s 0 s' r.
Proof.
  intros Hi Hr. unfold _try_withdraw_operator_reward, withdraw_operator_reward,
    MixNodeRewarding.withdraw_operator_reward, truncate_reward in Hr. run_pairs.
  apply get_details_by_owner in E as (i & Hb & Hn & Hm); [|done]. rewrite Hm.
  destruct (inv_nodes _ Hi _ _ Hn) as [_ Hbk]. destruct (inv_bonds _ Hi _ _ Hb) as (_ & Hp & _). pose proof F_pos as HF.
  by_change_node s; [exact Hn|apply change_tokens_fits; [done| |]|].
  - eapply backed_same; [exact Hbk|done..|]. simpl. lia.
  - intros b Hbd. simplify_eq/=. lia.
  - set (a := MixNodeRewarding.operator _ - _) in *.
    match goal with |- context [reward_messages ?s0 ?o ?p ?c] =>
      pose proof (reward_messages_sent (denom_of s) s0 o p c ltac:(simpl; apply Z.div_pos; unfold is_u128 in *; lia)) as Hs end.
    apply proj2, pay_le in Hs. unfold tokens; simpl in *. lia.
Qed.

Lemma withdraw_delegator_ok s i o p s' r :
  inv s -> _try_withdraw_delegator_reward s i o p = Ok (s', r) -> tx_ok s 0 s' r.
Proof.
  intros Hi Hr. unfold _try_withdraw_delegator_reward, withdraw_delegator_reward in Hr. run_pairs.
  rename x into d, x0 into n. destruct (inv_delegations _ Hi _ _ E) as [Hk _]. rewrite Hk in *.
  assert (Delegation.mix_id d = i) as Hd by (unfold Delegation.storage_key, Delegation.generate_storage_key in Hk; congruence).
  rewrite Hd in *. unfold Delegation.generate_storage_key in *.
  destruct (inv_nodes _ Hi _ _ E0) as [_ Hb].
  apply (backed_perm _ _ _ (delegations_of_delete _ _ _ _ E)) in Hb.
  match goal with H : MixNodeRewarding.withdraw_delegator_reward _ _ = Ok _ |- _ =>
    pose proof H as Ho; apply (backed_withdraw _ _ _ _ _ _ Hb) in H as (Hb' & Ht & -> & Hc) end.
  by_change_node s; [exact E0|eapply change_delegation_fits; [done|exact E0|exact Hk|exact Hb'|]|].
  - unfold MixNodeRewarding.withdraw_delegator_reward, MixNodeRewarding.decrease_delegates_decimal in Ho. run_all.
    simpl. lia.
  - match goal with |- context [reward_messages ?s0 ?o ?p ?c] =>
      pose proof (reward_messages_sent (denom_of s) s0 o p c Hc) as Hs end. pose proof F_pos. nia.
Qed.

(** ** The epoch *)

Lemma reconcile_ok s env info l s' r :
  inv s -> try_reconcile_epoch_events s env info l = Ok (s', r) -> tx_ok s 0 s' r.
Proof.
  intros Hi Hr. unfold try_reconcile_epoch_events in Hr. do 4 run_step. destruct x2 as [[s1 r1] k].
  apply perform_epoch_ok in E2; [|done]. do 3 run_step. destruct x4 as [s2 r2].
  assert (tx_ok s 0 s2 r2) as Htx.
  { clear Hr. destruct x3; run_pairs; [|done]. match goal with H : perform_pending_interval_actions _ _ = Ok _ |- _ =>
      apply perform_interval_ok in H; [|by eapply tx_inv] end.
    by eapply (tx_ok_trans _ 0 _ _ 0). }
  run_pairs; first [exact Htx | by eapply tx_ok_core].
Qed.

Lemma storage_update_rewarded_set_core s a l : core (storage_update_rewarded_set s a l) = core s.
Proof. unfold storage_update_rewarded_set. by destruct (update_rewarded_set_loop _ _ _ _). Qed.

Lemma update_layers_ok s l s' : inv s -> update_mixnode_layers s l = Ok s' -> tx_ok s 0 s' [].
Proof.
  revert s. induction l as [|a l IH]; intros s Hi Hr; simpl in Hr; run_inv; [by apply tx_ok_refl|].
  apply update_mixnode_layer_ok in E; [|done]. apply IH in Hr; [|by eapply tx_inv].
  by eapply (tx_ok_trans _ 0 _ [] 0).
Qed.

Lemma apply_pool_ok s s' : inv s -> apply_reward_pool_changes s = Ok s' -> tx_ok s 0 s' [].
Proof.
  intros Hi Hr. unfold apply_reward_pool_changes in Hr. run_all. destruct Hi as [I1 I2 I3 I4 I5 I6 I7].
  split; [done|done|]. unfold liabilities, owed, pool_left, sent_in, default_pool_change, dec_zero; simpl. lia.
Qed.

Lemma advance_epoch_tx_ok s env info l a s' r :
  inv s -> try_advance_epoch s env info l a = Ok (s', r) -> tx_ok s 0 s' r.
Proof.
  intros Hi Hr. unfold try_advance_epoch in Hr. do 5 run_step.
  assert (tx_ok s 0 x3 []) as Htx by (clear Hr; destruct x2; [by apply apply_pool_ok|run_inv; by apply tx_ok_refl]).
  clear E3. unfold update_rewarded_set in Hr. run_inv. destruct (first_duplicate _ _); run_inv.
  match goal with H : update_mixnode_layers (storage_update_rewarded_set ?s1 ?n ?new) _ = Ok _ |- _ =>
    assert (tx_ok s 0 (storage_update_rewarded_set s1 n new) []) as Hs1
      by (eapply tx_ok_core; [exact Htx|by rewrite storage_update_rewarded_set_core]);
    apply update_layers_ok in H as Hl; [|by eapply tx_inv] end.
  eapply tx_ok_core; [by eapply (tx_ok_trans _ 0 _ [] 0)|done].
Qed.

(** ** Any message *)

(** What the theorems assume of messages: numbers are unsigned, and the administrator neither
    sets the reward pool by hand nor asks for pledges in another denomination. *)
Definition msg_ok (d : string) (msg : ExecuteMsg) : Prop :=
  match msg with
  | MsgDecreasePledge c | MsgDecreasePledgeOnBehalf _ c => 0 <= amount c
  | MsgReconcileEpochEvents (Some limit) => 0 <= limit
  | MsgUpdateIntervalConfig epochs_in_interval epoch_duration_secs _ =>
      0 <= epochs_in_interval /\ 0 <= epoch_duration_secs
  | MsgUpdateRewardingParams u _ => upd_reward_pool u = None
  | MsgUpdateContractStateParams p =>
      denom (minimum_mixnode_pledge p) = d /\ denom (minimum_gateway_pledge p) = d
  | _ => True
  end.

Definition funds_ok (info : MessageInfo) : Prop := Forall (fun c => 0 <= amount c) (funds info).

Lemma update_settings_ok s st :
  inv s -> rewarding_denom st = denom_of s -> denom (minimum_mixnode_pledge (params st)) = denom_of s ->
  denom (minimum_gateway_pledge (params st)) = denom_of s -> tx_ok s 0 (set_contract_state s st) [].
Proof.
  intros Hi Hd Hm Hg. pose proof Hi as [I1 I2 I3 I4 I5 I6 I7]. split; [|done|].
  - split; try done. unfold denom_of; simpl. rewrite Hd. done.
  - apply tx_ok_refl in Hi. apply Hi.
Qed.

(** Transactions that change nothing the accounting depends on. *)
Lemma execute_frame_ok s env info msg s' r :
  inv s -> execute s env info msg = Ok (s', r) ->
  match msg with
  | MsgCreateFamily _ | MsgJoinFamily _ _ | MsgLeaveFamily _ | MsgKickFamilyMember _
  | MsgCreateFamilyOnBehalf _ _ | MsgJoinFamilyOnBehalf _ _ _ | MsgLeaveFamilyOnBehalf _ _
  | MsgKickFamilyMemberOnBehalf _ _ | MsgBeginEpochTransition => tx_ok s 0 s' r
  | _ => True
  end.
Proof.
  intros Hi Hr. destruct msg; try done; simpl in Hr;
    unfold try_create_family, try_create_family_on_behalf, try_join_family, try_join_family_on_behalf,
      try_leave_family, try_leave_family_on_behalf, try_head_kick_member, try_head_kick_member_on_behalf,
      try_begin_epoch_transition, _try_create_family, _try_join_family, _try_leave_family,
      _try_head_kick_member, save_family, must_get_family in Hr;
    run_pairs; repeat (case_match; run_pairs); by apply tx_ok_frame.
Qed.

Lemma update_active_set_size_ok s env info n f s' r :
  inv s -> try_update_active_set_size s env info n f = Ok (s', r) -> tx_ok s 0 s' r.
Proof.
  intros Hi Hr. unfold try_update_active_set_size in Hr. do 4 run_step. clear E2. destruct x2; run_pairs.
  - apply set_params_ok; [done|]. by erewrite try_change_active_set_size_pool.
  - match goal with H : push_new_epoch_event _ _ _ = Ok _ |- _ =>
      apply push_epoch_event_ok in H; [done|done|by constructor] end.
Qed.

Lemma update_rewarding_params_tx_ok s env info u f s' r :
  inv s -> upd_reward_pool u = None -> try_update_rewarding_params s env info u f = Ok (s', r) -> tx_ok s 0 s' r.
Proof.
  intros Hi Hu Hr. unfold try_update_rewarding_params in Hr. do 3 run_step. clear E1. destruct x1; run_pairs.
  - apply set_params_ok; [done|]. by eapply try_apply_updates_pool.
  - by eapply push_interval_event_ok.
Qed.

Lemma update_interval_config_tx_ok s env info a b f s' r :
  inv s -> try_update_interval_config s env info a b f = Ok (s', r) -> tx_ok s 0 s' r.
Proof.
  intros Hi Hr. unfold try_update_interval_config in Hr. do 4 run_step. clear E2. destruct x2; run_pairs.
  - by eapply change_interval_config_ok.
  - by eapply push_interval_event_ok.
Qed.

Lemma execute_ok s env info msg s' r :
  inv s -> funds_ok info -> msg_ok (denom_of s) msg -> execute s env info msg = Ok (s', r) ->
  tx_ok s (coins_in (denom_of s) (funds info)) s' r.
Proof.
  intros Hi Hf Hm Hr. pose proof (coins_in_nonneg (denom_of s) _ Hf) as Hc.
  pose proof (execute_frame_ok _ _ _ _ _ _ Hi Hr) as Hframe.
  assert (tx_ok s 0 s' r -> tx_ok s (coins_in (denom_of s) (funds info)) s' r) as Hz by (intros; by eapply tx_ok_more).
  destruct msg; simpl in *; try (by apply Hz); unfold_handlers.
  all: try (apply Hz; run_inv; first
    [ by eapply update_mixnode_layer_ok | by eapply decrease_pledge_tx_ok | by eapply remove_mixnode_tx_ok
    | by eapply update_mixnode_config_ok | by eapply update_cost_params_ok | by eapply undelegate_tx_ok
    | by eapply remove_gateway_ok | by eapply update_gateway_config_ok | by eapply withdraw_operator_ok
    | by eapply withdraw_delegator_ok | by eapply reward_mixnode_ok | by eapply reconcile_ok
    | by eapply advance_epoch_tx_ok | by eapply update_active_set_size_ok | by eapply update_rewarding_params_tx_ok
    | by eapply update_interval_config_tx_ok ]).
  all: run_inv; first
    [ by eapply add_mixnode_ok | by eapply increase_pledge_tx_ok | by eapply delegate_tx_ok
    | by eapply add_gateway_ok | apply Hz; apply update_settings_ok; [done|done|by apply Hi..]
    | apply Hz; apply update_settings_ok; [done|done|by apply Hm..] ].
Qed.

End Solvency.
