(* ===== verification/MixnetChain.v ===== *)
(** * The mixnet contract on the chain

    The contract and the balance of its account under any sequence of
    messages and deposits.  A message that fails leaves both as they were;
    one that succeeds moves its funds to the account and pays what it sends. *)

From S2P Require Import Prelude Bytes Cosmwasm MixnetTypes Rewarding Backing Interval MixnetStorage MixnetSupport.
From S2P Require Import MixnetEvents MixnetTransactions Accounting Solvency.
From Stdlib.Strings Require Import Byte.

(** The store of the contract and its account's balance in the rewarding denomination. *)
Record Chain : Type := mkChain { chain_store : Store; chain_balance : Z }.

Inductive ChainEvent : Type :=
| Message (env : Env) (info : MessageInfo) (msg : ExecuteMsg)
| Deposit (coins : Z).

(** Amounts are unsigned, and the administrator's messages keep to [msg_ok]. *)
Definition chain_event_ok (d : string) (e : ChainEvent) : Prop :=
  match e with
  | Message _ info msg => funds_ok info /\ msg_ok d msg
  | Deposit coins => 0 <= coins
  end.

Section Chain.
Context `{CosmMath} `{ChainApi} `{SignatureApi}.

Definition deliver (c : Chain) (e : ChainEvent) : Chain :=
  match e with
  | Message env info msg =>
      match execute (chain_store c) env info msg with
      | Ok (s', r) =>
          let d := denom_of (chain_store c) in
          mkChain s' (chain_balance c + coins_in d (funds info) - sent_in d r)
      | _ => c
      end
  | Deposit coins => mkChain (chain_store c) (chain_balance c + coins)
  end.

Definition deliver_all (c : Chain) (es : list ChainEvent) : Chain := foldl deliver c es.

(** An invariant of all chains that start with [instantiate]. *)
Lemma deliver_all_ind (P : Chain -> Prop) d c es :
  Forall (chain_event_ok d) es -> P c ->
  (forall c e, chain_event_ok d e -> P c -> P (deliver c e)) -> P (deliver_all c es).
Proof. intros Hes Hc Hstep. revert c Hc. induction Hes as [|e es He _ IH]; intros c Hc; simpl; auto. Qed.

Context `{!CosmMathLaws}.

(** The books are kept and the account covers what the contract owes. *)
Record solvent (d : string) (c : Chain) : Prop := {
  solvent_inv : inv (chain_store c);
  solvent_denom : denom_of (chain_store c) = d;
  solvent_balance : liabilities (chain_store c) <= F * chain_balance c
}.

Lemma instantiate_solvent env info m s b :
  instantiate env info m = Ok s -> initial_reward_pool (im_initial_rewarding_params m) <= F * b ->
  solvent (im_rewarding_denom m) (mkChain s b).
Proof.
  intros Hs Hb. unfold instantiate, into_rewarding_params in Hs. run_pairs. split; simpl; [|done|].
  - split; simpl; try done.
  - unfold liabilities, owed, pool_left, default_pool_change, dec_zero; simpl. rewrite !msum_empty. lia.
Qed.

Lemma deliver_solvent d c e : chain_event_ok d e -> solvent d c -> solvent d (deliver c e).
Proof.
  intros He [Hi Hd Hb]. pose proof F_pos. destruct e as [env info msg|a]; simpl in *.
  - destruct (execute _ _ _ _) as [[s' r]| |] eqn:E; [|done|done]. destruct He as [Hf Hm].
    rewrite <- Hd in Hm. pose proof (execute_ok _ _ _ _ _ _ Hi Hf Hm E) as [Hi' Hd' Hb'].
    split; simpl; [done|congruence|]. lia.
  - split; simpl; [done|done|]. nia.
Qed.

Lemma chain_solvent env info m s b es :
  instantiate env info m = Ok s -> initial_reward_pool (im_initial_rewarding_params m) <= F * b ->
  Forall (chain_event_ok (im_rewarding_denom m)) es ->
  solvent (im_rewarding_denom m) (deliver_all (mkChain s b) es).
Proof.
  intros Hs Hb Hes. eapply deliver_all_ind; [done|by eapply instantiate_solvent|]. apply deliver_solvent.
Qed.

(** The numbers of the first message are unsigned. *)
Definition instantiate_ok (m : InstantiateMsg) : Prop := 0 <= im_epochs_in_interval m /\ 0 <= im_epoch_duration m.

(** A chain that starts with [instantiate] and an account that holds the reward pool. *)
Definition reachable (d : string) (c : Chain) : Prop :=
  exists env info m s b es,
    d = im_rewarding_denom m /\ instantiate_ok m /\ instantiate env info m = Ok s /\
    initial_reward_pool (im_initial_rewarding_params m) <= F * b /\
    Forall (chain_event_ok d) es /\ c = deliver_all (mkChain s b) es.

Lemma reachable_solvent d c : reachable d c -> solvent d c.
Proof. intros (env & info & m & s & b & es & -> & _ & Hs & Hb & Hes & ->). by eapply chain_solvent. Qed.

Lemma owed_nonneg s : inv s -> 0 <= owed s.
Proof.
  intros [I1 I2 I3 I4 I5 I6 I7]. unfold owed. pose proof F_pos.
  assert (0 <= msum tokens (mixnode_rewarding s)).
  { apply msum_nonneg. intros i n Hn. destruct (I5 _ _ Hn) as [_ Hb].
    pose proof (backed_operator _ _ Hb). pose proof (backed_delegates _ _ Hb). unfold tokens. lia. }
  assert (0 <= msum (fun e => event_funds (epoch_kind e)) (pending_epoch_events s)).
  { apply msum_nonneg. intros i e He. by eapply event_funds_nonneg, I2. }
  assert (0 <= msum gateway_funds (gateways s)) by (apply msum_nonneg; intros k g Hg; by apply (I7 k g)).
  nia.
Qed.

End Chain.
