(* ===== verification/MixnetSample.v ===== *)
(** * A sample run of the mixnet contract

    Concrete instances of the chain's interfaces and a run of the contract: a
    node bonds, two delegators delegate, the epoch is advanced, one delegator
    asks for the tokens back, the node is rewarded and the epoch advanced
    again. *)

From S2P Require Import Prelude Bytes Cosmwasm MixnetTypes Rewarding Interval MixnetStorage MixnetSupport.
From S2P Require Import MixnetEvents MixnetTransactions Accounting Solvency MixnetChain.
From Stdlib.Strings Require Import Byte.

#[local] Open Scope Z_scope.

(** Every address is valid, keys are written as they are, and dates are unbounded. *)
Definition sample_api : ChainApi := {|
  addr_validate := Some;
  bs58_encode := String.string_of_list_byte;
  bs58_decode := fun s => Some (String.list_byte_of_string s);
  datetime_from_unix := fun secs => Some (secs * NANOS);
  datetime_add := fun t d => Some (t + d)
|}.

Lemma sample_api_laws : @ChainApiLaws sample_api.
Proof. split; simpl; congruence. Qed.

(** Every signature is valid. *)
Definition sample_signatures : SignatureApi := {|
  to_plaintext := fun _ => Ok [];
  ed25519_verify := fun _ _ _ => Some true
|}.

#[local] Existing Instances fixed_point sample_api sample_signatures.

Definition nym (a : Z) : Coin := mkCoin "unym" a.

Definition sample_instantiate : InstantiateMsg :=
  mkInstantiate "validator" "vesting" "unym" 10 (3600 * NANOS)
    (mkInitialParams (250_000_000_000_000 * F) (100_000_000_000_000 * F) Percent.hundred (Percent.mk (3 * F / 10))
       (10 * F) (Percent.mk (2 * F / 100)) 2 1).

Definition at_time (t : Z) : Env := mkEnv (1000 + t / 6) t 0.

Definition sample_mixnode (key : string) : MixNode := mkMixNode "1.2.3.4" 1789 1790 8000 key key "1.1.0".


Definition key_of (c : string) : string := String.append c "000000000000000000000000000000".

Definition sample_cost : MixNodeCostParams := mkCostParams (Percent.mk (F / 10)) (nym 40_000_000).

Definition bond (t : Z) (who key : string) (a : Z) : ChainEvent :=
  Message (at_time t) (mkInfo who [nym a]) (MsgBondMixnode (sample_mixnode key) sample_cost []).

Definition delegate_to (t : Z) (who : string) (i a : Z) : ChainEvent :=
  Message (at_time t) (mkInfo who [nym a]) (MsgDelegateToMixnode i).

Definition from (t : Z) (who : string) (m : ExecuteMsg) : ChainEvent := Message (at_time t) (mkInfo who []) m.

(** The messages of the validator at the end of an epoch. *)
Definition advance (t : Z) (reward : list ExecuteMsg) (assignment : list LayerAssignment) : list ChainEvent :=
  from t "validator" <$>
    ([MsgBeginEpochTransition] ++ reward ++ [MsgReconcileEpochEvents None; MsgAdvanceCurrentEpoch assignment 1]).

Definition sample_events : list ChainEvent :=
  [bond 100 "alice" (key_of "a0") 100_000_000;
   delegate_to 100 "bob" 1 5_000_000_000; delegate_to 100 "carol" 1 7_000_000_000]
  ++ advance 3600 [] [mkAssignment 1 One]
  ++ [from 3700 "bob" (MsgUndelegateFromMixnode 1)]
  ++ advance 7200 [MsgRewardMixnode 1 Percent.hundred] [mkAssignment 1 One].

(** The store after [instantiate]. *)
Definition sample_store : Store :=
  ltac:(let s := eval vm_compute in (instantiate (at_time 0) (mkInfo "admin" []) sample_instantiate) in
        match s with Ok ?x => exact x end).

Lemma sample_instantiated : instantiate (at_time 0) (mkInfo "admin" []) sample_instantiate = Ok sample_store.
Proof. vm_compute. reflexivity. Qed.

Lemma sample_events_ok : Forall (chain_event_ok "unym") sample_events.
Proof. repeat constructor; vm_compute; discriminate. Qed.

(** The account starts with the reward pool. *)
Definition sample_balance : Z := 250_000_000_000_000.

Definition sample_chain : Chain := deliver_all (mkChain sample_store sample_balance) sample_events.

#[local] Existing Instance fixed_point_laws.

Lemma sample_reachable : reachable "unym" sample_chain.
Proof.
  exists (at_time 0), (mkInfo "admin" []), sample_instantiate, sample_store, sample_balance, sample_events.
  split_and!; [done|split; vm_compute; discriminate|exact sample_instantiated|vm_compute; discriminate|exact sample_events_ok|done].
Qed.
