(* ===== verification/MixnetSafety.v ===== *)
(** * Safety of the tokens in the mixnet contract

    What the invariant of [Accounting] means for the participants, on every
    chain that starts with [instantiate]: the contract's account covers what
    it owes and pays, delegators can leave with what they put in, and
    operators can withdraw their rewards. *)

From S2P Require Import Prelude Bytes Cosmwasm MixnetTypes Rewarding Backing Interval MixnetStorage MixnetSupport.
From S2P Require Import MixnetEvents MixnetTransactions Accounting Solvency MixnetChain MixnetSample.
#[local] Open Scope Z_scope.

Section Safety.
Context `{CosmMath} `{ChainApi} `{SignatureApi} `{!CosmMathLaws}.

(** C3: whatever messages and deposits reach the contract after [instantiate], what it owes to
    operators, delegators, gateways and pending events, and what is left of the reward pool, is
    covered by the balance of its account.  Assumed, as part of [reachable], are that the account
    held the initial reward pool when [instantiate] ran, which the contract does not check, and that
    the owner neither sets the reward pool by hand nor asks for pledges in another denomination. *)
Theorem contract_stays_solvent (d : string) (c : Chain) :
  reachable d c ->
  0 <= owed (chain_store c) /\ owed (chain_store c) + pool_left (chain_store c) <= F * chain_balance c.
Proof. intros [Hi _ Hb]%reachable_solvent. split; [by apply owed_nonneg|exact Hb]. Qed.

(** C21: a message that succeeds never sends more than the account holds with the message's funds,
    as long as the rewards handed out do not exceed the reward pool. *)
Theorem payouts_covered (d : string) (c : Chain) env info msg s' r :
  reachable d c -> funds_ok info -> msg_ok d msg ->
  execute (chain_store c) env info msg = Ok (s', r) -> 0 <= pool_left s' ->
  sent_in d r <= chain_balance c + coins_in d (funds info).
Proof.
  intros [Hi Hd Hb]%reachable_solvent Hf Hm Hr Hp. rewrite <- Hd in *.
  destruct (execute_ok _ _ _ _ _ _ Hi Hf Hm Hr) as [Hi' _ Hb']. apply owed_nonneg in Hi'.
  unfold liabilities in *. pose proof F_pos. nia.
Qed.

(** What a delegation has earned can be computed without overflow. *)
Lemma delegation_reward_total n d :
  MixNodeRewarding.unit_delegation n = UNIT_DELEGATION_BASE -> delegation_ok n d -> is_u128 (unit_value n) ->
  is_u128 (atomics d) ->
  (MixNodeRewarding.total_unit_reward n - Delegation.cumulative_reward_ratio d) * amount (Delegation.amount d) <= u128_max ->
  exists r, MixNodeRewarding.determine_delegation_reward n d = Ok r.
Proof.
  intros Hu [Hq Ha] Hv Hat Hg. pose proof F_pos as HF. pose proof UNIT_pos as HU.
  set (g := MixNodeRewarding.total_unit_reward n - Delegation.cumulative_reward_ratio d) in *.
  set (adjust := Delegation.cumulative_reward_ratio d + UNIT_DELEGATION_BASE).
  assert (0 <= g * amount (Delegation.amount d)) as Hg0 by (apply Z.mul_nonneg_nonneg; lia).
  exists (g * amount (Delegation.amount d) * F / adjust).
  unfold MixNodeRewarding.determine_delegation_reward, MixNodeRewarding.full_reward_ratio, Delegation.dec_amount.
  unfold unit_value, is_u128 in *. rewrite Hu.
  assert (into_base_decimal (amount (Delegation.amount d)) = Ok (atomics d)) as -> by (by apply into_base_decimal_Ok).
  rewrite dadd_total by (unfold is_u128; lia). cbn [obind]. rewrite dsub_total by (unfold is_u128; lia). cbn [obind lift_std].
  assert (dmul g (atomics d) = Ok (g * amount (Delegation.amount d))) as ->.
  { apply dmul_Ok. split; [|unfold is_u128; lia]. unfold atomics. rewrite Z.mul_assoc, Z.div_mul; lia. }
  cbn [obind]. apply ddiv_Ok. fold adjust. split_and!; [lia|done|]. split; [apply Z.div_pos; lia|].
  apply Z.div_le_upper_bound; [lia|]. assert (F <= adjust) by (unfold adjust, UNIT_DELEGATION_BASE; lia).
  transitivity (u128_max * F); [apply Z.mul_le_mono_nonneg_r; lia|].
  rewrite (Z.mul_comm adjust). apply Z.mul_le_mono_nonneg_l; lia.
Qed.

(** C10: on any reachable chain a stored delegation can be undone, and returns at least what was
    delegated, unless a figure of the computation exceeds 128 bits. *)
Theorem delegator_gets_principal_back (c : Chain) d key dg :
  reachable d c -> delegations (chain_store c) !! key = Some dg ->
  exists n, mixnode_rewarding (chain_store c) !! Delegation.mix_id dg = Some n /\
  (is_u128 (tokens n) -> is_u128 (unit_value n) ->
   (MixNodeRewarding.total_unit_reward n - Delegation.cumulative_reward_ratio dg) * amount (Delegation.amount dg)
     <= u128_max ->
   exists coin s', helper_undelegate (chain_store c) dg n = Ok (coin, s') /\
     amount (Delegation.amount dg) <= amount coin /\ denom coin = denom (Delegation.amount dg) /\
     delegations s' !! key = None).
Proof.
  intros [Hi _ _]%reachable_solvent Hk. destruct key as [i sub].
  destruct (inv_delegations _ Hi _ _ Hk) as [Hkey [n Hn]]. simpl in Hn.
  assert (Delegation.mix_id dg = i) as Hd by (unfold Delegation.storage_key, Delegation.generate_storage_key in Hkey; congruence).
  rewrite Hd. exists n. split; [done|]. intros Ht Hv Hg.
  destruct (inv_nodes _ Hi _ _ Hn) as [_ Hb]. apply (backed_perm _ _ _ (delegations_of_delete _ _ _ _ Hk)) in Hb.
  pose proof (Forall_inv (backed_each _ _ Hb)) as Hok. pose proof (backed_principal _ _ _ Hb) as Hp.
  pose proof (atomics_nonneg _ _ Hok) as Ha. pose proof (backed_operator _ _ Hb).
  destruct (delegation_reward_total n dg (backed_unit _ _ Hb) Hok Hv) as [r Hr];
    [unfold is_u128, tokens in *; lia|done|].
  destruct (undelegate_succeeds _ _ _ _ Hb Hr Ht) as (coin & n' & Hund).
  destruct (backed_undelegate _ _ _ _ _ Hb Hund) as (_ & Hle & _ & Hden).
  unfold helper_undelegate. rewrite Hund. cbn [obind]. do 2 eexists. split_and!; [reflexivity|done|done|].
  simpl. rewrite Hkey. apply lookup_delete_eq.
Qed.

(** C31: on any reachable chain the operator of a bonded node can withdraw their rewards, whole
    coins of everything above the pledge, and the panic for a lost pledge never occurs. *)
Theorem operator_can_withdraw (c : Chain) d i b :
  reachable d c -> mixnode_bonds (chain_store c) !! i = Some b ->
  exists n, mixnode_rewarding (chain_store c) !! i = Some n /\
    (is_u128 (MixNodeRewarding.operator n) ->
     withdraw_operator_reward (chain_store c) (mkDetails b n (pending_changes_of (chain_store c) i)) =
     let pledge := amount (MixNodeBond.original_pledge b) in
     Ok (mkCoin (denom (MixNodeBond.original_pledge b)) ((MixNodeRewarding.operator n - pledge * F) / F),
         save_rewarding (chain_store c) i (MixNodeRewarding.set_operator n (pledge * F)))).
Proof.
  intros [Hi _ _]%reachable_solvent Hb. destruct (inv_bonds _ Hi _ _ Hb) as (Hm & Hp & n & Hn & Ho).
  exists n. split; [done|]. intros Hu. unfold is_u128 in Hu. pose proof F_pos as HF.
  unfold withdraw_operator_reward, MixNodeRewarding.withdraw_operator_reward, truncate_reward. simpl. rewrite Hm.
  assert (into_base_decimal (amount (MixNodeBond.original_pledge b)) = Ok (amount (MixNodeBond.original_pledge b) * F)) as ->.
  { apply into_base_decimal_Ok. split; [done|]. split; [|lia]. apply Z.mul_nonneg_nonneg; lia. }
  cbn [obind lift_std]. destruct (Z.ltb_spec (MixNodeRewarding.operator n) (amount (MixNodeBond.original_pledge b) * F)); [lia|].
  assert (0 <= amount (MixNodeBond.original_pledge b) * F) by (apply Z.mul_nonneg_nonneg; lia).
  rewrite dsub_total by (unfold is_u128; lia). cbn [obind]. rewrite truncate_decimal_total by (unfold is_u128; lia). done.
Qed.


End Safety.

(** ** The sample run *)

#[local] Existing Instances fixed_point fixed_point_laws sample_api sample_signatures.

Lemma contract_stays_solvent_witness :
  0 < owed (chain_store sample_chain) /\
  owed (chain_store sample_chain) + pool_left (chain_store sample_chain) <= F * chain_balance sample_chain.
Proof. split; [vm_compute; reflexivity|]. apply (contract_stays_solvent "unym" sample_chain sample_reachable). Defined.

Lemma payouts_covered_witness :
  exists s' r, execute (chain_store sample_chain) (at_time 7300) (mkInfo "alice" []) MsgWithdrawOperatorReward = Ok (s', r) /\
    0 < sent_in "unym" r <= chain_balance sample_chain + 0.
Proof.
  do 2 eexists. split; [vm_compute; reflexivity|]. split; [vm_compute; reflexivity|].
  eapply (payouts_covered "unym" sample_chain (at_time 7300) (mkInfo "alice" []) MsgWithdrawOperatorReward).
  - exact sample_reachable.
  - constructor.
  - exact I.
  - vm_compute. reflexivity.
  - vm_compute. discriminate.
Defined.

Lemma delegator_gets_principal_back_witness :
  exists dg n coin s', delegations (chain_store sample_chain) !! (1, "carol"%string) = Some dg /\
    helper_undelegate (chain_store sample_chain) dg n = Ok (coin, s') /\ 7_000_000_000 <= amount coin.
Proof.
  eexists.
  destruct (delegator_gets_principal_back sample_chain "unym" (1, "carol"%string) _ sample_reachable
    ltac:(vm_compute; reflexivity)) as (n & Hn & Hund).
  vm_compute in Hn. injection Hn as <-.
  destruct Hund as (coin & s' & Hs & Hle & _); [split; vm_compute; discriminate|split; vm_compute; discriminate|vm_compute; discriminate|].
  do 3 eexists. split; [vm_compute; reflexivity|]. split; [exact Hs|exact Hle].
Defined.

Lemma operator_can_withdraw_witness :
  exists b n s', mixnode_bonds (chain_store sample_chain) !! 1 = Some b /\
    withdraw_operator_reward (chain_store sample_chain) (mkDetails b n (mkChanges None)) = Ok (nym 12_661_160, s').
Proof.
  eexists.
  destruct (operator_can_withdraw sample_chain "unym" 1 _ sample_reachable ltac:(vm_compute; reflexivity)) as (n & Hn & Hw).
  vm_compute in Hn. injection Hn as <-.
  do 2 eexists. split; [vm_compute; reflexivity|]. etransitivity; [apply Hw; split; vm_compute; discriminate|].
  vm_compute. reflexivity.
Defined.
