(* ===== verification/MixnetEpoch.v ===== *)
(** * The epoch of the mixnet contract

    The contract moves through the phases of an epoch: users act while it is
    in progress, then the validator rewards the nodes in ascending order,
    works off the pending events and starts the next epoch.  This file states
    these phases as a transition relation and shows that every message
    follows it, that the queues of pending events have no gaps, and that the
    clock only moves forward. *)

From S2P Require Import Prelude Bytes Cosmwasm MixnetTypes Rewarding Backing Interval MixnetStorage MixnetSupport.
From S2P Require Import MixnetEvents MixnetTransactions Accounting Solvency MixnetChain MixnetSample.
From Stdlib Require Import Sorting.Sorted.
#[local] Open Scope Z_scope.

(** ** Phases *)

Definition phase (s : Store) : EpochState := EpochStatus.state (epoch_status s).

(** Messages that put an event in a queue, and so only while the epoch is in progress. *)
Definition queues_event (msg : ExecuteMsg) : bool :=
  match msg with
  | MsgPledgeMore | MsgPledgeMoreOnBehalf _ | MsgDecreasePledge _ | MsgDecreasePledgeOnBehalf _ _
  | MsgUnbondMixnode | MsgUnbondMixnodeOnBehalf _ | MsgUpdateMixnodeCostParams _
  | MsgUpdateMixnodeCostParamsOnBehalf _ _ | MsgDelegateToMixnode _ | MsgDelegateToMixnodeOnBehalf _ _
  | MsgUndelegateFromMixnode _ | MsgUndelegateFromMixnodeOnBehalf _ _ => true
  | _ => false
  end.

(** Messages that move the epoch. *)
Definition moves_epoch (msg : ExecuteMsg) : bool :=
  match msg with
  | MsgBeginEpochTransition | MsgRewardMixnode _ _ | MsgReconcileEpochEvents _ | MsgAdvanceCurrentEpoch _ _ => true
  | _ => false
  end.

Inductive phase_step : EpochState -> ExecuteMsg -> EpochState -> Prop :=
| phase_begin final : phase_step InProgress MsgBeginEpochTransition (Rewarding 0 final)
| phase_begin_no_nodes : phase_step InProgress MsgBeginEpochTransition ReconcilingEvents
| phase_reward last final i perf : last < i -> i <> final ->
    phase_step (Rewarding last final) (MsgRewardMixnode i perf) (Rewarding i final)
| phase_reward_final last final perf : last < final ->
    phase_step (Rewarding last final) (MsgRewardMixnode final perf) ReconcilingEvents
| phase_reconcile limit : phase_step ReconcilingEvents (MsgReconcileEpochEvents limit) ReconcilingEvents
| phase_reconciled limit : phase_step ReconcilingEvents (MsgReconcileEpochEvents limit) AdvancingEpoch
| phase_advance l n : phase_step AdvancingEpoch (MsgAdvanceCurrentEpoch l n) InProgress
| phase_queue msg : queues_event msg = true -> phase_step InProgress msg InProgress
| phase_any st msg : queues_event msg = false -> moves_epoch msg = false -> phase_step st msg st.

(** ** What the messages do to the clock, the phase and the queues *)

(** The fields the epoch depends on. *)
Definition control (s : Store) := (epoch_status s, interval s, queues s).

Ltac unfold_messages :=
  unfold_handlers;
  unfold try_create_family, try_create_family_on_behalf, try_join_family, try_join_family_on_behalf,
    try_leave_family, try_leave_family_on_behalf, try_head_kick_member, try_head_kick_member_on_behalf,
    _try_create_family, _try_join_family, _try_leave_family, _try_head_kick_member, save_family,
    _try_add_mixnode, save_new_mixnode,
    _try_update_mixnode_config, _try_add_gateway, _try_remove_gateway, _try_update_gateway_config,
    _try_withdraw_operator_reward, withdraw_operator_reward, _try_withdraw_delegator_reward,
    withdraw_delegator_reward, update_mixnode_layer, assign_layer, next_mixnode_id_counter,
    increment_signing_nonce in *.

Section Epoch.
Context `{CosmMath} `{!CosmMathLaws} `{ChainApi} `{SignatureApi}.

(** A message that neither queues an event nor moves the epoch nor changes the settings of the
    clock. *)
Definition plain (msg : ExecuteMsg) : bool :=
  match msg with
  | MsgUpdateActiveSetSize _ _ | MsgUpdateRewardingParams _ _ | MsgUpdateIntervalConfig _ _ _ => false
  | _ => negb (queues_event msg) && negb (moves_epoch msg)
  end.

Lemma plain_control s env info msg s' r :
  plain msg = true -> execute s env info msg = Ok (s', r) -> control s' = control s.
Proof.
  intros Hp Hr. destruct msg; try discriminate Hp; clear Hp; simpl in Hr; unfold_messages;
    run_pairs; repeat (case_match; run_pairs); reflexivity.
Qed.

(** A pending change of the clock leaves an interval with epochs. *)
Definition clock_event_ok (k : PendingIntervalEventKind) : Prop :=
  match k with UpdateIntervalConfig epochs secs => 0 < epochs /\ 0 <= secs | _ => True end.

(** At most one event is appended to a queue. *)
Inductive queue_step (s s' : Store) : Prop :=
| queue_same : queues s' = queues s -> queue_step s s'
| queue_epoch e :
    epoch_queue s' = (epoch_event_id_counter s + 1, last_processed_epoch_event s,
                      <[epoch_event_id_counter s + 1 := e]> (pending_epoch_events s)) ->
    interval_queue s' = interval_queue s -> queue_step s s'
| queue_interval e :
    interval_queue s' = (interval_event_id_counter s + 1, last_processed_interval_event s,
                         <[interval_event_id_counter s + 1 := e]> (pending_interval_events s)) ->
    epoch_queue s' = epoch_queue s -> clock_event_ok (interval_kind e) -> queue_step s s'.

Lemma push_epoch_Ok s env e id s' :
  push_new_epoch_event s env e = Ok (id, s') ->
  queue_step s s' /\ epoch_status s' = epoch_status s /\ interval s' = interval s.
Proof.
  unfold push_new_epoch_event, next_epoch_event_id_counter. intros Hp. run_pairs.
  split_and!; [by eapply queue_epoch|done|done].
Qed.

Lemma push_interval_Ok s env e id s' :
  push_new_interval_event s env e = Ok (id, s') -> clock_event_ok e ->
  queue_step s s' /\ epoch_status s' = epoch_status s /\ interval s' = interval s.
Proof.
  unfold push_new_interval_event, next_interval_event_id_counter. intros Hp He. run_pairs.
  split_and!; [by eapply queue_interval|done|done].
Qed.

Lemma queue_step_frame s s1 s1' s' :
  queue_step s1 s1' -> queues s1 = queues s -> queues s' = queues s1' -> queue_step s s'.
Proof.
  intros Hq [= E1 E2 E3 E4 E5 E6] [= E1' E2' E3' E4' E5' E6'].
  destruct Hq as [[= F1 F2 F3 F4 F5 F6]|e [= F1 F2 F3] [= F4 F5 F6]|e [= F1 F2 F3] [= F4 F5 F6] Fe].
  - apply queue_same. unfold queues, epoch_queue, interval_queue. congruence.
  - apply (queue_epoch _ _ e); unfold epoch_queue, interval_queue; congruence.
  - apply (queue_interval _ _ e); [unfold interval_queue; congruence|unfold epoch_queue; congruence|done].
Qed.

Lemma in_progress s u : ensure_epoch_in_progress_state s = Ok u -> phase s = InProgress.
Proof.
  unfold ensure_epoch_in_progress_state, EpochStatus.is_in_progress, phase. intros He. run_inv. by case_match.
Qed.

(** Messages that queue an event need an epoch in progress. *)
Lemma queueing_control s env info msg s' r :
  queues_event msg = true -> execute s env info msg = Ok (s', r) ->
  phase s = InProgress /\ queue_step s s' /\ epoch_status s' = epoch_status s /\ interval s' = interval s.
Proof.
  intros Hp Hr. destruct msg; try discriminate Hp; clear Hp; simpl in Hr; unfold_messages;
    unfold _try_increase_pledge, _try_decrease_pledge, _try_remove_mixnode, _try_update_mixnode_cost_params,
      _try_delegate_to_mixnode, _try_remove_delegation_from_mixnode in *;
    run_pairs; repeat (case_match; run_pairs);
    match goal with H : ensure_epoch_in_progress_state _ = Ok _ |- _ => apply in_progress in H; split; [exact H|] end;
    match goal with
    | H : push_new_epoch_event _ _ _ = Ok _ |- _ => apply push_epoch_Ok in H as (Hq & Hs & Hi)
    | H : push_new_interval_event _ _ _ = Ok _ |- _ => apply push_interval_Ok in H as (Hq & Hs & Hi); [|done]
    end; (split_and!; [by eapply queue_step_frame|done|done]).
Qed.

(** Parameters changed by the administrator, at once or by an event. *)
Definition changes_params (msg : ExecuteMsg) : bool :=
  match msg with MsgUpdateActiveSetSize _ _ | MsgUpdateRewardingParams _ _ | MsgUpdateIntervalConfig _ _ _ => true | _ => false end.

(** The new settings of the clock are unsigned. *)
Definition clock_msg_ok (msg : ExecuteMsg) : Prop :=
  match msg with MsgUpdateIntervalConfig epochs secs _ => 0 <= epochs /\ 0 <= secs | _ => True end.

Lemma change_interval_config_interval s i a b s' :
  interval_ok i -> 0 < a -> 0 <= b -> change_interval_config s i a b = Ok s' ->
  interval_ok (interval s') /\ Interval.total_elapsed_epochs (interval s') = Interval.total_elapsed_epochs i.
Proof.
  intros [Hc Hl] Ha Hb Hs. unfold change_interval_config in Hs. run_pairs.
  match goal with H : Interval.force_change_epochs_in_interval _ _ = Ok _ |- _ =>
    apply force_change_ok in H as (Hok & _ & Ht & _); [|split; [done|simpl; unfold Interval.from_secs, NANOS; lia]|done] end.
  done.
Qed.

Lemma params_status s env info msg s' r :
  changes_params msg = true -> execute s env info msg = Ok (s', r) -> epoch_status s' = epoch_status s.
Proof.
  intros Hp Hr. destruct msg; try discriminate Hp; clear Hp; simpl in Hr;
    unfold try_update_active_set_size, try_update_rewarding_params, try_update_interval_config,
      change_interval_config, push_new_epoch_event, push_new_interval_event, next_epoch_event_id_counter,
      next_interval_event_id_counter in Hr; by run_pairs.
Qed.

Lemma params_control s env info msg s' r :
  changes_params msg = true -> clock_msg_ok msg -> execute s env info msg = Ok (s', r) ->
  queue_step s s' /\
  (interval_ok (interval s) -> interval_ok (interval s') /\
     Interval.total_elapsed_epochs (interval s') = Interval.total_elapsed_epochs (interval s)).
Proof.
  intros Hp Hm Hr. destruct msg; try discriminate Hp; clear Hp; simpl in Hr, Hm;
    unfold try_update_active_set_size, try_update_rewarding_params, try_update_interval_config in Hr; run_pairs;
    repeat match goal with H : negb (_ =? _) = true |- _ => apply negb_true_iff, Z.eqb_neq in H end;
    match goal with
    | H : push_new_epoch_event _ _ _ = Ok _ |- _ => by apply push_epoch_Ok in H as (? & _ & ->)
    | H : push_new_interval_event _ _ _ = Ok _ |- _ =>
        apply push_interval_Ok in H as (? & _ & ->); [done|simpl; lia || done]
    | H : change_interval_config _ _ _ _ = Ok _ |- _ =>
        split; [unfold change_interval_config in H; run_pairs; by apply queue_same|];
        intros Hi; apply change_interval_config_interval in H; [done|done|lia|lia]
    | _ => split; [by apply queue_same|done]
    end.
Qed.

(** ** Working off the queues *)

(** The events [lo], ..., [hi - 1] are gone from the queue. *)
Definition removed_events {V} (m m' : gmap Z V) (lo hi : Z) : Prop :=
  forall i, m' !! i = if (lo <=? i) && (i <? hi) then None else m !! i.

Lemma removed_events_none {V} (m : gmap Z V) lo : removed_events m m lo lo.
Proof. intros i. by zcases; simpl; try lia. Qed.

Lemma removed_events_cons {V} (m m' : gmap Z V) lo hi :
  lo < hi -> removed_events (delete lo m) m' (lo + 1) hi -> removed_events m m' lo hi.
Proof.
  intros Hlt Hr i. rewrite Hr. destruct (decide (i = lo)) as [->|Hne].
  - rewrite lookup_delete_eq. zcases; simpl; done || lia.
  - rewrite lookup_delete_ne by done. zcases; simpl; done || lia.
Qed.

Lemma epoch_events_loop_control n id s env s' r :
  epoch_events_loop n id s env = Ok (s', r) ->
  removed_events (pending_epoch_events s) (pending_epoch_events s') id (id + Z.of_nat n) /\
  epoch_event_id_counter s' = epoch_event_id_counter s /\ last_processed_epoch_event s' = last_processed_epoch_event s /\
  interval_queue s' = interval_queue s /\ epoch_status s' = epoch_status s /\
  (forall i, id <= i < id + Z.of_nat n -> is_Some (pending_epoch_events s !! i)).
Proof.
  revert id s s' r. induction n as [|n IH]; intros id s s' r Hr; simpl in Hr.
  { run_inv. rewrite Z.add_0_r. split_and!; [apply removed_events_none|done..|lia]. }
  run_step. run_step. destruct x0 as [s1 r1]. run_step. destruct x0 as [s2 r2]. run_inv.
  apply execute_epoch_event_queues in E0 as [[= Q1 Q2 Q3 Q4 Q5 Q6] Qst].
  apply IH in E1 as (Hrem & Hc & Hl & Hq & Hst & Hsome). simpl in *. rewrite Q3 in *.
  split_and!; [|congruence|congruence|unfold interval_queue in *; simpl in *; congruence|congruence|].
  - eapply removed_events_cons; [lia|]. by replace (id + Z.of_nat (S n)) with (id + 1 + Z.of_nat n) by lia.
  - intros i Hi. destruct (decide (i = id)) as [->|Hne]; [by eexists|].
    specialize (Hsome i ltac:(lia)). by rewrite lookup_delete_ne in Hsome.
Qed.

Lemma interval_events_loop_control n id s s' r :
  interval_events_loop n id s = Ok (s', r) ->
  removed_events (pending_interval_events s) (pending_interval_events s') id (id + Z.of_nat n) /\
  interval_event_id_counter s' = interval_event_id_counter s /\
  last_processed_interval_event s' = last_processed_interval_event s /\ epoch_queue s' = epoch_queue s /\
  epoch_status s' = epoch_status s.
Proof.
  revert id s s' r. induction n as [|n IH]; intros id s s' r Hr; simpl in Hr.
  { run_inv. rewrite Z.add_0_r. split_and!; [apply removed_events_none|done..]. }
  run_step. run_step. destruct x0 as [s1 r1]. run_step. destruct x0 as [s2 r2]. run_inv.
  apply execute_interval_event_queues in E0 as [[= Q1 Q2 Q3 Q4 Q5 Q6] Qst].
  apply IH in E1 as (Hrem & Hc & Hl & Hq & Hst). simpl in *. rewrite Q6 in *.
  split_and!; [|congruence|congruence|unfold epoch_queue in *; simpl in *; congruence|congruence].
  eapply removed_events_cons; [lia|]. by replace (id + Z.of_nat (S n)) with (id + 1 + Z.of_nat n) by lia.
Qed.

(** A queue holds exactly the events after the last processed one. *)
Definition queue_ok {V} (q : Z * Z * gmap Z V) : Prop :=
  let '(counter, last, pending) := q in
  last <= counter /\ forall i, is_Some (pending !! i) <-> last < i <= counter.
#[local] Arguments queue_ok : simpl never.

Lemma queue_ok_push {V} c l (m : gmap Z V) e : queue_ok (c, l, m) -> queue_ok (c + 1, l, <[c + 1 := e]> m).
Proof.
  intros [Hle Hq]. split; [lia|]. intros i. destruct (decide (i = c + 1)) as [->|].
  - rewrite lookup_insert_eq. split; [lia|by eexists].
  - rewrite lookup_insert_ne by done. rewrite Hq. lia.
Qed.

Lemma queue_ok_remove {V} c l l' (m m' : gmap Z V) :
  queue_ok (c, l, m) -> l <= l' <= c -> removed_events m m' (l + 1) (l' + 1) -> queue_ok (c, l', m').
Proof.
  intros [Hle Hq] Hl Hr. split; [lia|]. intros i. rewrite Hr. pose proof (Hq i) as Hqi. zcases; simpl; rewrite ?Hqi; try lia.
  split; [intros [? ?]; done|lia].
Qed.

Definition queues_ok (s : Store) : Prop := queue_ok (epoch_queue s) /\ queue_ok (interval_queue s).

Lemma queue_step_ok s s' : queues_ok s -> queue_step s s' -> queues_ok s'.
Proof.
  intros [Hok1 Hok2] [Hq|e Hq Hi|e Hi Hq _]; unfold queues_ok.
  - change (queue_ok (fst (queues s')) /\ queue_ok (snd (queues s'))). by rewrite Hq.
  - rewrite Hq, Hi. split; [by apply queue_ok_push|done].
  - rewrite Hq, Hi. split; [done|by apply queue_ok_push].
Qed.

Lemma last_to_execute_Ok a b l k : last_to_execute a b l = Ok k -> (forall n, l = Some n -> 0 <= n) -> a <= k <= b.
Proof.
  unfold last_to_execute. intros Hl Hn. run_pairs; destruct l as [n|]; run_pairs; try specialize (Hn _ eq_refl); lia.
Qed.

Lemma perform_epoch_control s env l s' r k :
  queues_ok s -> (forall n, l = Some n -> 0 <= n) -> perform_pending_epoch_actions s env l = Ok (s', r, k) ->
  queues_ok s'.
Proof.
  intros [Hok1 Hok2] Hl Hr. unfold perform_pending_epoch_actions in Hr. destruct (_ =? _) eqn:?; [by run_inv|].
  run_step. apply last_to_execute_Ok in E; [|done]. run_pairs. rename E0 into Eloop.
  apply epoch_events_loop_control in Eloop as (Hrem & Hc & _ & Hq & _ & _). split; [|by rewrite <- Hq in Hok2].
  unfold epoch_queue. simpl. rewrite Hc. eapply queue_ok_remove; [exact Hok1|done|].
  by replace (x + 1) with (last_processed_epoch_event s + 1 + Z.of_nat (Z.to_nat (x - last_processed_epoch_event s))) by lia.
Qed.

Lemma perform_interval_control s l s' r k :
  queues_ok s -> (forall n, l = Some n -> 0 <= n) -> perform_pending_interval_actions s l = Ok (s', r, k) ->
  queues_ok s'.
Proof.
  intros [Hok1 Hok2] Hl Hr. unfold perform_pending_interval_actions in Hr. destruct (_ =? _) eqn:?; [by run_inv|].
  run_step. apply last_to_execute_Ok in E; [|done]. run_pairs. rename E0 into Eloop.
  apply interval_events_loop_control in Eloop as (Hrem & Hc & _ & Hq & _). split; [by rewrite <- Hq in Hok1|].
  unfold interval_queue. simpl. rewrite Hc. eapply queue_ok_remove; [exact Hok2|done|].
  by replace (x + 1) with (last_processed_interval_event s + 1 + Z.of_nat (Z.to_nat (x - last_processed_interval_event s))) by lia.
Qed.

Lemma queue_empty {V} c l (m : gmap Z V) : queue_ok (c, l, m) -> c - l = 0 -> m = ∅.
Proof.
  intros [_ Hq] Hc. apply map_empty. intros i. destruct (m !! i) as [e|] eqn:E; [|done].
  assert (l < i <= c); [|lia]. apply Hq. by eexists.
Qed.

Lemma can_advance_status sender s st : ensure_can_advance_epoch sender s = Ok st ->
  st = epoch_status s /\ sender = EpochStatus.being_advanced_by (epoch_status s).
Proof.
  unfold ensure_can_advance_epoch, addr_eqb. intros Hs. run_inv. apply bool_decide_eq_true in C. done.
Qed.

Lemma perform_epoch_status s env l s' r k :
  perform_pending_epoch_actions s env l = Ok (s', r, k) -> epoch_status s' = epoch_status s.
Proof.
  intros Hr. unfold perform_pending_epoch_actions in Hr. destruct (_ =? _) eqn:?; [by run_inv|].
  run_step. run_pairs. rename E0 into Eloop. by apply epoch_events_loop_control in Eloop as (_ & _ & _ & _ & Hst & _).
Qed.

Lemma perform_interval_status s l s' r k :
  perform_pending_interval_actions s l = Ok (s', r, k) -> epoch_status s' = epoch_status s.
Proof.
  intros Hr. unfold perform_pending_interval_actions in Hr. destruct (_ =? _) eqn:?; [by run_inv|].
  run_step. run_pairs. rename E0 into Eloop. by apply interval_events_loop_control in Eloop as (_ & _ & _ & _ & Hst).
Qed.

(** A reconciliation: the store [s2] after the events, and the phase it ends in. *)
Lemma reconcile_inv s env info l s' r :
  try_reconcile_epoch_events s env info l = Ok (s', r) ->
  phase s = ReconcilingEvents /\ sender info = EpochStatus.being_advanced_by (epoch_status s) /\
  exists s2 over,
    Interval.is_current_interval_over (interval s) env = Ok over /\ epoch_status s2 = epoch_status s /\
    (queues_ok s -> (forall n, l = Some n -> 0 <= n) -> queues_ok s2) /\
    (s' = s2 \/ s' = set_epoch_status s2 (EpochStatus.set_state (epoch_status s) AdvancingEpoch) /\
       epoch_event_id_counter s2 - last_processed_epoch_event s2 = 0 /\
       (over = true -> interval_event_id_counter s2 - last_processed_interval_event s2 = 0)).
Proof.
  intros Hr. unfold try_reconcile_epoch_events in Hr. do 4 run_step. destruct x2 as [[s1 r1] k].
  apply can_advance_status in E as [-> Hs]. unfold EpochStatus.ensure_is_in_event_reconciliation_state in E0.
  apply ensure_Ok in E0. split_and!; [unfold phase, EpochStatus.is_reconciling in *; by destruct (EpochStatus.state (epoch_status s))|done|].
  pose proof (perform_epoch_status _ _ _ _ _ _ E2) as Hst1. do 3 run_step. destruct x3 as [s2 r2]. exists s2, x2.
  assert (epoch_status s2 = epoch_status s /\ (queues_ok s -> (forall n, l = Some n -> 0 <= n) -> queues_ok s2)) as [Hst2 Hq2].
  { clear Hr. destruct x2; run_pairs; [|split; [done|intros Hq Hl; by eapply perform_epoch_control]].
    split; [match goal with H : perform_pending_interval_actions _ _ = Ok _ |- _ => apply perform_interval_status in H end; congruence|].
    intros Hq Hl. eapply perform_interval_control; [by eapply perform_epoch_control| |eassumption].
    intros n' Hn'. destruct l as [n|]; run_pairs; lia. }
  split_and!; [done|done|done|]. clear E0 E1 E2 E E4 Hst1. unfold query_number_of_pending_events in Hr.
  run_step. destruct x3 as [n1 n2]. run_pairs; [|by left].
  right. apply andb_true_iff in C as [C1 C2]. split_and!; [done|lia|]. intros ->. lia.
Qed.

(** The greatest key is the last to be rewarded. *)
Lemma last_rewarded_node_in m k : last_rewarded_node m = Some k -> is_Some (m !! k).
Proof.
  unfold last_rewarded_node. intros Hk.
  enough (forall l k, foldr (fun k acc => Some (match acc with Some k' => Z.max k k' | None => k end)) None l = Some k ->
    k ∈ (l : list Z)) as Hin.
  { apply Hin, list_elem_of_fmap in Hk as ([k' v] & -> & Hkv). apply elem_of_map_to_list in Hkv. by eexists. }
  clear. induction l as [|a l IH]; intros k Hk; [done|]. simpl in Hk.
  destruct (foldr _ None l) as [k'|]; injection Hk as <-; [|constructor].
  destruct (Z.max_spec a k') as [[_ ->]|[_ ->]]; [|constructor]. constructor. by apply IH.
Qed.

Lemma begin_inv s env info s' r :
  try_begin_epoch_transition s env info = Ok (s', r) ->
  phase s = InProgress /\ sender info = rewarding_validator_address (contract_state s) /\
  Interval.is_current_epoch_over (interval s) env = Ok true /\
  s' = set_epoch_status s (EpochStatus.mk (sender info)
         (match last_rewarded_node (rewarded_set s) with Some final => Rewarding 0 final | None => ReconcilingEvents end)).
Proof.
  intros Hr. unfold try_begin_epoch_transition, ensure_is_authorized, addr_eqb, ensure_epoch_over, epoch_in_progress_error in Hr.
  run_pairs. match goal with H : ensure_epoch_in_progress_state _ = Ok _ |- _ => apply in_progress in H end.
  match goal with H : bool_decide _ = true |- _ => apply bool_decide_eq_true in H end. done.
Qed.

Lemma update_layers_control s l s' : update_mixnode_layers s l = Ok s' -> control s' = control s.
Proof.
  revert s. induction l as [|a l IH]; intros s Hr; simpl in Hr; [by run_inv|]. run_step. apply IH in Hr. rewrite Hr.
  unfold update_mixnode_layer in E. by run_pairs.
Qed.

Lemma apply_pool_control s s' : apply_reward_pool_changes s = Ok s' -> control s' = control s.
Proof. unfold apply_reward_pool_changes. intros Hr. by run_pairs. Qed.

Lemma storage_update_rewarded_set_control s n l : control (storage_update_rewarded_set s n l) = control s.
Proof. unfold storage_update_rewarded_set. by destruct (update_rewarded_set_loop _ _ _ _). Qed.

Lemma advance_inv s env info l n s' r :
  try_advance_epoch s env info l n = Ok (s', r) ->
  phase s = AdvancingEpoch /\ sender info = EpochStatus.being_advanced_by (epoch_status s) /\
  Interval.is_current_epoch_over (interval s) env = Ok true /\
  Interval.advance_epoch (interval s) = Ok (interval s') /\ phase s' = InProgress /\ queues s' = queues s.
Proof.
  intros Hr. unfold try_advance_epoch in Hr. do 3 run_step. apply can_advance_status in E as [-> Hs].
  apply ensure_Ok in E0. unfold ensure_epoch_over, epoch_in_progress_error in E1. do 2 run_step.
  assert (control x2 = control s) as Hc by (clear Hr E1; destruct x; [by apply apply_pool_control|by run_inv]).
  clear E2. unfold update_rewarded_set in Hr. run_pairs. destruct (first_duplicate _ _); run_pairs.
  match goal with H : update_mixnode_layers _ _ = Ok _ |- _ => apply update_layers_control in H as Hl end.
  rewrite storage_update_rewarded_set_control in Hl.
  injection Hl as _ L2 L3 L4 L5 L6 L7 L8. simpl in *.
  split_and!; [|done|done|congruence|done|unfold queues, epoch_queue, interval_queue; simpl; congruence].
  unfold phase, EpochStatus.is_advancing in *. by destruct (EpochStatus.state (epoch_status s)).
Qed.

(** The status after a reward. *)
Lemma reward_inv s env info i perf s' r :
  try_reward_mixnode s env info i perf = Ok (s', r) ->
  exists last final, phase s = Rewarding last final /\ last < i /\
    sender info = EpochStatus.being_advanced_by (epoch_status s) /\
    phase s' = (if i =? final then ReconcilingEvents else Rewarding i final) /\
    interval s' = interval s /\ queues s' = queues s.
Proof.
  intros Hr. unfold try_reward_mixnode in Hr. do 3 run_step. clear E1. apply can_advance_status in E as [-> Hs].
  run_step. unfold update_and_save_last_rewarded, EpochStatus.update_last_rewarded in E.
  destruct (EpochStatus.state (epoch_status s)) as [|last final| |] eqn:Est; [by run_inv| |by run_inv..].
  exists last, final. assert (last < i /\ exists st, EpochStatus.state st = (if i =? final then ReconcilingEvents else Rewarding i final)
    /\ x = set_epoch_status s st) as (Hlt & st & Hst & ->).
  { clear Hr. run_pairs. split; [lia|]. eexists. split; [|done]. by destruct (i =? final). }
  split_and!; [done|done|done|..]; destruct (mixnode_rewarding _ !! i); unfold reward_accounting in Hr; by run_pairs.
Qed.

(** Everything at once: the phase of the epoch, the queues and the clock after a message. *)
Lemma execute_phase s env info msg s' r :
  execute s env info msg = Ok (s', r) -> phase_step (phase s) msg (phase s').
Proof.
  intros Hr. destruct (plain msg) eqn:Hp.
  { apply plain_control in Hr as [= Hst _ _ _ _ _ _ _]; [|done]. unfold phase. rewrite Hst.
    apply phase_any; destruct msg; done. }
  destruct (queues_event msg) eqn:Hq.
  { apply queueing_control in Hr as (Hph & _ & Hst & _); [|done]. unfold phase in *. rewrite Hst, Hph. by apply phase_queue. }
  destruct (changes_params msg) eqn:Hc.
  { apply params_status in Hr as Hst; [|done]. unfold phase. rewrite Hst. apply phase_any; destruct msg; done. }
  destruct msg; try discriminate; clear Hp Hq Hc; simpl in Hr.
  - apply begin_inv in Hr as (-> & _ & _ & ->). unfold phase; simpl. case_match; constructor.
  - apply advance_inv in Hr as (-> & _ & _ & _ & -> & _). constructor.
  - apply reconcile_inv in Hr as (Hph & _ & s2 & o & _ & Hst & _ & [->|(-> & _)]); rewrite Hph.
    + replace (phase s2) with ReconcilingEvents by (unfold phase in *; congruence). constructor.
    + constructor.
  - apply reward_inv in Hr as (last & final & -> & Hlt & _ & -> & _). destruct (Z.eqb_spec mix_id final) as [->|]; by constructor.
Qed.

(** ** The clock *)

(** The interval has epochs left, also after any pending change of it. *)
Definition clock_ok (s : Store) : Prop :=
  interval_ok (interval s) /\
  forall i e, pending_interval_events s !! i = Some e -> clock_event_ok (interval_kind e).

Lemma queue_step_clock s s' :
  clock_ok s -> queue_step s s' -> interval_ok (interval s') -> clock_ok s'.
Proof.
  intros [_ Hp] Hq Hi. split; [done|]. destruct Hq as [[= _ _ _ _ _ Q]|e _ [= _ _ Q]|e [= _ _ Q] _ He]; rewrite Q; [done|done|].
  intros i e'. rewrite lookup_insert_Some. intros [[_ <-]|[_ ?]]; [done|by eapply Hp].
Qed.

Lemma execute_epoch_event_interval e s env s' r : execute_epoch_event e s env = Ok (s', r) -> interval s' = interval s.
Proof.
  unfold execute_epoch_event. destruct (epoch_kind e) as [o i c p|o i p|i c|i c|i|n]; intros Hr.
  - unfold delegate in Hr. run_step. destruct x as [d|]; [|by run_pairs]. by run_pairs.
  - unfold undelegate, helper_undelegate in Hr. case_match; by run_pairs.
  - unfold increase_pledge in Hr. by run_pairs.
  - unfold decrease_pledge in Hr. by run_pairs.
  - unfold unbond_mixnode, cleanup_post_unbond_mixnode_storage, storage_decrement_layer_count in Hr. run_pairs. by case_match.
  - unfold update_active_set_size in Hr. by run_pairs.
Qed.

Lemma epoch_events_loop_interval n id s env s' r : epoch_events_loop n id s env = Ok (s', r) -> interval s' = interval s.
Proof.
  revert id s s' r. induction n as [|n IH]; intros id s s' r Hr; simpl in Hr; [by run_inv|].
  run_step. run_step. destruct x0 as [s1 r1]. run_step. destruct x0 as [s2 r2]. run_inv.
  apply execute_epoch_event_interval in E0. apply IH in E1. by rewrite E1.
Qed.

Lemma execute_interval_event_interval e s s' r :
  interval_ok (interval s) -> clock_event_ok (interval_kind e) -> execute_interval_event e s = Ok (s', r) ->
  interval_ok (interval s') /\ Interval.total_elapsed_epochs (interval s') = Interval.total_elapsed_epochs (interval s).
Proof.
  intros Hi He Hr. unfold execute_interval_event in Hr. destruct (interval_kind e) as [i c|u|a b].
  - unfold change_mix_cost_params in Hr. case_match; by run_pairs.
  - unfold update_rewarding_params in Hr. by run_pairs.
  - unfold update_interval_config in Hr. run_inv. destruct He. by apply change_interval_config_interval in E.
Qed.

Lemma interval_events_loop_interval n id s s' r :
  clock_ok s -> interval_events_loop n id s = Ok (s', r) ->
  interval_ok (interval s') /\ Interval.total_elapsed_epochs (interval s') = Interval.total_elapsed_epochs (interval s).
Proof.
  revert id s s' r. induction n as [|n IH]; intros id s s' r [Hi Hp] Hr; simpl in Hr; [by run_inv|].
  run_step. run_step. destruct x0 as [s1 r1]. run_step. destruct x0 as [s2 r2]. run_inv.
  pose proof (execute_interval_event_queues _ _ _ _ E0) as [[= _ _ _ _ _ Q] _].
  apply execute_interval_event_interval in E0 as [Hi1 Ht1]; [|done|by eapply Hp].
  apply IH in E1 as [Hi2 Ht2]; [split; [done|simpl in *; congruence]|]. split; [done|]. simpl. rewrite Q.
  intros i e [_ ?]%lookup_delete_Some. by eapply Hp.
Qed.

Lemma removed_events_sub {V} (m m' : gmap Z V) lo hi i e : removed_events m m' lo hi -> m' !! i = Some e -> m !! i = Some e.
Proof. intros Hr He. rewrite Hr in He. by destruct (_ && _). Qed.

Lemma perform_epoch_clock s env l s' r k :
  clock_ok s -> perform_pending_epoch_actions s env l = Ok (s', r, k) -> clock_ok s' /\ interval s' = interval s.
Proof.
  intros [Hi Hp] Hr. unfold perform_pending_epoch_actions in Hr. destruct (_ =? _) eqn:?; [by run_inv|].
  run_pairs. rename E0 into Eloop. pose proof (epoch_events_loop_interval _ _ _ _ _ _ Eloop) as Hint.
  apply epoch_events_loop_control in Eloop as (_ & _ & _ & [= _ _ Q] & _). unfold clock_ok; simpl. rewrite Hint, Q. done.
Qed.

Lemma perform_interval_clock s l s' r k :
  clock_ok s -> perform_pending_interval_actions s l = Ok (s', r, k) ->
  clock_ok s' /\ Interval.total_elapsed_epochs (interval s') = Interval.total_elapsed_epochs (interval s).
Proof.
  intros Hc Hr. unfold perform_pending_interval_actions in Hr. destruct (_ =? _) eqn:?; [by run_inv|].
  run_pairs. rename E0 into Eloop. pose proof (interval_events_loop_interval _ _ _ _ _ Hc Eloop) as [Hint Ht].
  apply interval_events_loop_control in Eloop as (Hrem & _). split; [|done]. split; [done|]. simpl.
  intros i e He. eapply removed_events_sub in He; [|exact Hrem]. by eapply Hc.
Qed.

Lemma reconcile_clock s env info l s' r :
  clock_ok s -> try_reconcile_epoch_events s env info l = Ok (s', r) ->
  clock_ok s' /\ Interval.total_elapsed_epochs (interval s') = Interval.total_elapsed_epochs (interval s).
Proof.
  intros Hc Hr. unfold try_reconcile_epoch_events in Hr. do 4 run_step. destruct x2 as [[s1 r1] k].
  apply perform_epoch_clock in E2 as [Hc1 Hi1]; [|done]. do 3 run_step. destruct x4 as [s2 r2].
  assert (clock_ok s2 /\ Interval.total_elapsed_epochs (interval s2) = Interval.total_elapsed_epochs (interval s)) as [Hc2 Ht2].
  { clear Hr. destruct x3; run_pairs; [|by rewrite Hi1]. match goal with H : perform_pending_interval_actions _ _ = Ok _ |- _ =>
      apply perform_interval_clock in H as [? ?]; [split; [done|congruence]|done] end. }
  clear E2 E3 E4. run_pairs; done.
Qed.

Context `{!ChainApiLaws}.

Lemma execute_clock s env info msg s' r :
  clock_ok s -> clock_msg_ok msg -> execute s env info msg = Ok (s', r) ->
  clock_ok s' /\
  Interval.total_elapsed_epochs (interval s') =
    Interval.total_elapsed_epochs (interval s) + match msg with MsgAdvanceCurrentEpoch _ _ => 1 | _ => 0 end.
Proof.
  intros Hc Hm Hr. pose proof Hc as [Hi Hp].
  destruct (plain msg) eqn:Hpl.
  { apply plain_control in Hr as [= _ E _ _ _ _ _ Q]; [|done]. split; [by (split; [rewrite E|rewrite Q])|].
    rewrite E. destruct msg; try discriminate; lia. }
  destruct (queues_event msg) eqn:Hq.
  { apply queueing_control in Hr as (_ & Hqs & _ & E); [|done]. split; [by eapply queue_step_clock; [| |rewrite E]|].
    rewrite E. destruct msg; try discriminate; lia. }
  destruct (changes_params msg) eqn:Hch.
  { apply params_control in Hr as [Hqs Hint]; [|done|done]. destruct (Hint Hi) as [Hi' Ht]. split; [by eapply queue_step_clock|].
    rewrite Ht. destruct msg; try discriminate; lia. }
  destruct msg; try discriminate; clear Hpl Hq Hch; simpl in Hr.
  - apply begin_inv in Hr as (_ & _ & _ & ->). split; [done|]. simpl. lia.
  - apply advance_inv in Hr as (_ & _ & _ & Hadv & _ & [= _ _ _ _ _ Q]).
    apply advance_epoch_ok in Hadv as (Hi' & _ & Ht & _); [|done]. split; [split; [done|by rewrite Q]|done].
  - apply reconcile_clock in Hr as [? ->]; [|done]. split; [done|lia].
  - apply reward_inv in Hr as (? & ? & _ & _ & _ & _ & E & [= _ _ _ _ _ Q]). split; [by (split; [rewrite E|rewrite Q])|]. rewrite E. lia.
Qed.

Lemma execute_queues s env info msg s' r :
  queues_ok s -> clock_msg_ok msg -> (forall n, msg = MsgReconcileEpochEvents (Some n) -> 0 <= n) ->
  execute s env info msg = Ok (s', r) -> queues_ok s'.
Proof.
  intros Hok Hm Hl Hr.
  assert (queues s' = queues s -> queues_ok s') as Hsame by (intros; eapply queue_step_ok; [done|by apply queue_same]).
  destruct (plain msg) eqn:Hpl. { apply Hsame. apply plain_control in Hr; [|done]. exact (f_equal snd Hr). }
  destruct (queues_event msg) eqn:Hq. { apply queueing_control in Hr as (_ & Hqs & _); [|done]. by eapply queue_step_ok. }
  destruct (changes_params msg) eqn:Hch. { apply params_control in Hr as [Hqs _]; [|done|done]. by eapply queue_step_ok. }
  destruct msg; try discriminate; clear Hpl Hq Hch; simpl in Hr.
  - by apply begin_inv in Hr as (_ & _ & _ & ->).
  - apply advance_inv in Hr as (_ & _ & _ & _ & _ & Q). by apply Hsame.
  - apply reconcile_inv in Hr as (_ & _ & s2 & o & _ & _ & Hq2 & Hs').
    assert (queues_ok s2) by (apply Hq2; [done|intros n ->; by apply Hl]). by destruct Hs' as [->|[-> _]].
  - apply reward_inv in Hr as (? & ? & _ & _ & _ & _ & _ & Q). by apply Hsame.
Qed.

Lemma reachable_control d c : reachable d c -> queues_ok (chain_store c) /\ clock_ok (chain_store c).
Proof.
  intros (env & info & m & s & b & es & -> & [Hm1 Hm2] & Hs & _ & Hes & ->).
  apply (deliver_all_ind (fun c => queues_ok (chain_store c) /\ clock_ok (chain_store c)) (im_rewarding_denom m)); [done| |].
  - unfold instantiate, Interval.init_interval in Hs. run_pairs. apply negb_true_iff, Z.eqb_neq in E.
    split; [split; (split; [simpl; lia|]); intros i; simpl; rewrite lookup_empty; (split; [by intros [? ?]|lia])|].
    split; [split; simpl; lia|done].
  - intros c' e He [Hq Hc]. destruct e as [env' info' msg|a]; simpl; [|done].
    destruct (execute _ _ _ _) as [[s' r]| |] eqn:E; [|done|done]. destruct He as [_ Hmsg].
    assert (clock_msg_ok msg) as Hcm by (destruct msg; done). split; simpl.
    + eapply execute_queues; [exact Hq|exact Hcm| |exact E]. by intros n ->.
    + by eapply execute_clock.
Qed.

(** ** Sequences of messages *)

(** A sequence of messages that all succeed. *)
Inductive executes : Store -> list (Env * MessageInfo * ExecuteMsg) -> Store -> Prop :=
| executes_nil s : executes s [] s
| executes_cons s env info msg s1 r ms s' :
    execute s env info msg = Ok (s1, r) -> executes s1 ms s' -> executes s ((env, info, msg) :: ms) s'.

(** The nodes a sequence rewards, in order. *)
Fixpoint rewarded_nodes (ms : list (Env * MessageInfo * ExecuteMsg)) : list MixId :=
  match ms with
  | [] => []
  | (_, _, MsgRewardMixnode i _) :: ms' => i :: rewarded_nodes ms'
  | _ :: ms' => rewarded_nodes ms'
  end.

Definition advances_epoch (m : Env * MessageInfo * ExecuteMsg) : Prop :=
  match snd m with MsgAdvanceCurrentEpoch _ _ => True | _ => False end.

(** The rewards still possible in a phase of an epoch. *)
Definition rewards_fit (p : EpochState) (l : list MixId) : Prop :=
  match p with
  | InProgress => True
  | Rewarding last _ => Forall (fun i => last < i) l
  | ReconcilingEvents | AdvancingEpoch => l = []
  end.

Lemma rewards_ordered s ms s' :
  executes s ms s' -> Forall (fun m => ~ advances_epoch m) ms ->
  StronglySorted Z.lt (rewarded_nodes ms) /\ rewards_fit (phase s) (rewarded_nodes ms).
Proof.
  induction 1 as [s|s env info msg s1 r ms s' Hr Hrun IH]; intros Hno.
  { split; [constructor|]. unfold rewards_fit. by destruct (phase s); constructor || done. }
  apply Forall_cons in Hno as [Hn Hno]. destruct (IH Hno) as [Hs Hf]. clear IH Hrun Hno. apply execute_phase in Hr.
  inversion Hr as [f E1 E2 E3|E1 E2 E3|l f i pf Hlt Hne E1 E2 E3|l f pf Hlt E1 E2 E3|lim E1 E2 E3|lim E1 E2 E3|la n E1 E2 E3
    |m Hq E1 E2 E3|st m Hq Hv E1 E2 E3]; subst; simpl in *;
    rewrite <- ?E1, <- ?E3 in *; simpl in *; try done.
  - split; [by constructor|]. constructor; [done|]. eapply Forall_impl; [exact Hf|]. simpl. lia.
  - rewrite Hf. split; repeat constructor. done.
  - destruct msg; try discriminate; done.
  - destruct msg; try discriminate; done.
Qed.

(** C24: the phases of an epoch: a message that succeeds follows [phase_step], and only the
    rewarding validator begins an epoch's end and only whoever began it carries it on. *)
Theorem epoch_follows_phases s env info msg s' r :
  execute s env info msg = Ok (s', r) ->
  phase_step (phase s) msg (phase s') /\
  (moves_epoch msg = true ->
   sender info = match msg with
                 | MsgBeginEpochTransition => rewarding_validator_address (contract_state s)
                 | _ => EpochStatus.being_advanced_by (epoch_status s)
                 end).
Proof.
  intros Hr. split; [by eapply execute_phase|]. destruct msg; try discriminate; intros _; simpl in Hr.
  - by apply begin_inv in Hr as (_ & ? & _).
  - by apply advance_inv in Hr as (_ & ? & _).
  - by apply reconcile_inv in Hr as (_ & ? & _).
  - by apply reward_inv in Hr as (? & ? & _ & _ & ? & _).
Qed.

(** C28: within an epoch nodes are rewarded in ascending order, and so each at most once. *)
Theorem nodes_rewarded_at_most_once s ms s' :
  executes s ms s' -> Forall (fun m => ~ advances_epoch m) ms ->
  StronglySorted Z.lt (rewarded_nodes ms) /\ NoDup (rewarded_nodes ms).
Proof.
  intros Hr Hno. destruct (rewards_ordered _ _ _ Hr Hno) as [Hs _]. split; [done|].
  clear -Hs. induction Hs as [|i l _ IH Hl]; constructor; [|done].
  intros Hin. rewrite Forall_forall in Hl. specialize (Hl _ Hin). simpl in Hl. lia.
Qed.

(** The queues of pending events have no gaps: they hold exactly the events after the last
    one executed, so that no reconciliation misses an event or finds one missing. *)
Theorem event_queues_have_no_gaps d c :
  reachable d c ->
  let s := chain_store c in
  (forall i, is_Some (pending_epoch_events s !! i) <-> last_processed_epoch_event s < i <= epoch_event_id_counter s) /\
  (forall i, is_Some (pending_interval_events s !! i) <->
     last_processed_interval_event s < i <= interval_event_id_counter s).
Proof. intros [[[_ Hok1] [_ Hok2]] _]%reachable_control. done. Qed.

(** A reconciliation ends the phase only when no event of the epoch is pending, and none of
    the interval if it is over. *)
Theorem advancing_requires_empty_queues d c env info limit s' r :
  reachable d c -> (forall n, limit = Some n -> 0 <= n) ->
  execute (chain_store c) env info (MsgReconcileEpochEvents limit) = Ok (s', r) -> phase s' = AdvancingEpoch ->
  pending_epoch_events s' = ∅ /\
  (Interval.is_current_interval_over (interval (chain_store c)) env = Ok true -> pending_interval_events s' = ∅).
Proof.
  intros [Hq _]%reachable_control Hl Hr Hph. simpl in Hr.
  apply reconcile_inv in Hr as (Hp & _ & s2 & o & Ho & Hst & Hq2 & [->|(-> & Hz1 & Hz2)]).
  { unfold phase in *. rewrite Hst in Hph. congruence. }
  destruct (Hq2 Hq Hl) as [Hok1 Hok2]. split; [by eapply queue_empty|]. intros Ho'. simpl.
  rewrite Ho' in Ho. injection Ho as <-. eapply queue_empty; [exact Hok2|by apply Hz2].
Qed.

(** The clock is sound on any reachable chain: the interval always has an epoch left, so
    the computation of its end does not underflow; and every message keeps the number of elapsed
    epochs, except the advance of the epoch, which adds one. *)
Theorem clock_is_sound d c env info msg s' r :
  reachable d c -> clock_msg_ok msg -> execute (chain_store c) env info msg = Ok (s', r) ->
  (exists k, Interval.epochs_until_interval_end (interval (chain_store c)) = Ok k /\ 0 < k) /\
  (exists k, Interval.epochs_until_interval_end (interval s') = Ok k /\ 0 < k) /\
  Interval.total_elapsed_epochs (interval s') = Interval.total_elapsed_epochs (interval (chain_store c)) +
    match msg with MsgAdvanceCurrentEpoch _ _ => 1 | _ => 0 end.
Proof.
  intros [_ Hc]%reachable_control Hm Hr.
  assert (forall i, interval_ok i -> exists k, Interval.epochs_until_interval_end i = Ok k /\ 0 < k) as Hend.
  { intros i [Hk _]. exists (Interval.epochs_in_interval i - Interval.current_epoch_id i). split; [|lia].
    apply u32_sub_Ok. split; [done|lia]. }
  destruct (execute_clock _ _ _ _ _ _ Hc Hm Hr) as [Hc' Ht]. split_and!; [by apply Hend, Hc|by apply Hend, Hc'|done].
Qed.

End Epoch.

(** ** The sample run *)

#[local] Existing Instances fixed_point fixed_point_laws sample_api sample_api_laws sample_signatures.

(** The validator begins the end of the third epoch. *)
Definition sample_transition : Store :=
  ltac:(let s := eval vm_compute in
          (execute (chain_store sample_chain) (at_time 10800) (mkInfo "validator"%string []) MsgBeginEpochTransition) in
        match s with Ok (?x, _) => exact x end).

Lemma epoch_follows_phases_witness :
  execute (chain_store sample_chain) (at_time 10800) (mkInfo "validator" []) MsgBeginEpochTransition =
    Ok (sample_transition, []) /\
  phase_step InProgress MsgBeginEpochTransition (Rewarding 0 1).
Proof.
  assert (execute (chain_store sample_chain) (at_time 10800) (mkInfo "validator" []) MsgBeginEpochTransition =
    Ok (sample_transition, [])) as Hr by (vm_compute; reflexivity).
  split; [exact Hr|]. exact (proj1 (epoch_follows_phases _ _ _ _ _ _ Hr)).
Defined.

Lemma nodes_rewarded_at_most_once_witness :
  exists s', executes sample_transition [(at_time 10800, mkInfo "validator"%string [], MsgRewardMixnode 1 Percent.hundred)] s' /\
    NoDup [1].
Proof.
  assert (exists s', executes sample_transition
    [(at_time 10800, mkInfo "validator"%string [], MsgRewardMixnode 1 Percent.hundred)] s') as [s' Hr].
  { eexists. econstructor; [vm_compute; reflexivity|constructor]. }
  exists s'. split; [exact Hr|].
  apply (nodes_rewarded_at_most_once _ _ _ Hr). repeat constructor. intros [].
Defined.

(** A chain in the phase of reconciliation: the sample run up to the second reward. *)
Definition sample_reconciling : Chain :=
  deliver_all (mkChain sample_store sample_balance) (take 9 sample_events).

Lemma sample_reconciling_reachable : reachable "unym" sample_reconciling.
Proof.
  exists (at_time 0), (mkInfo "admin" []), sample_instantiate, sample_store, sample_balance, (take 9 sample_events).
  split_and!; [done|split; vm_compute; discriminate|exact sample_instantiated|vm_compute; discriminate| |done].
  apply Forall_take, sample_events_ok.
Qed.

Lemma event_queues_have_no_gaps_witness :
  (is_Some (pending_epoch_events (chain_store sample_reconciling) !! 3) <-> 2 < 3 <= 3) /\
  (is_Some (pending_epoch_events (chain_store sample_reconciling) !! 4) <-> 2 < 4 <= 3).
Proof.
  split; apply (event_queues_have_no_gaps "unym" sample_reconciling sample_reconciling_reachable).
Defined.

Lemma advancing_requires_empty_queues_witness :
  is_Some (pending_epoch_events (chain_store sample_reconciling) !! 3) /\
  exists s' r, execute (chain_store sample_reconciling) (at_time 7200) (mkInfo "validator" []) (MsgReconcileEpochEvents None) = Ok (s', r) /\
    pending_epoch_events s' = ∅.
Proof.
  split; [vm_compute; by eexists|]. do 2 eexists. split; [vm_compute; reflexivity|].
  eapply (advancing_requires_empty_queues "unym" sample_reconciling (at_time 7200) (mkInfo "validator" []) None).
  - exact sample_reconciling_reachable.
  - discriminate.
  - vm_compute. reflexivity.
  - vm_compute. reflexivity.
Defined.

Lemma clock_is_sound_witness :
  exists k, Interval.epochs_until_interval_end (interval (chain_store sample_chain)) = Ok k /\ 0 < k.
Proof.
  apply (clock_is_sound "unym" sample_chain (at_time 10800) (mkInfo "validator" []) MsgBeginEpochTransition sample_transition []).
  - exact sample_reachable.
  - exact I.
  - vm_compute. reflexivity.
Defined.
