(* ===== verification/RewardedSet.v ===== *)
(** * The rewarded set

    [update_rewarded_set] of [contracts/mixnet/src/interval/storage.rs] writes
    only the entries that change.  The result is the set built from scratch. *)

From S2P Require Import Prelude Bytes Cosmwasm MixnetTypes Rewarding Interval MixnetStorage MixnetSupport.
From S2P Require Import MixnetEvents MixnetTransactions MixnetChain MixnetSample.
#[local] Open Scope Z_scope.

(** The status of the node at a position of the new set. *)
Definition status_at (active_set_size i : Z) : RewardedSetNodeStatus := if i <? active_set_size then Active else Standby.

(** The set built from scratch, from position [i] on. *)
Fixpoint fresh_set (active_set_size i : Z) (l : list MixId) : gmap MixId RewardedSetNodeStatus :=
  match l with
  | [] => ∅
  | node_id :: l' => <[node_id := status_at active_set_size i]> (fresh_set active_set_size (i + 1) l')
  end.

Lemma in_cons_eq {A} (k : MixId) l (x y : A) : (if decide (k ∈ k :: l) then x else y) = x.
Proof. by rewrite decide_True by constructor. Qed.

Lemma in_cons_ne {A} (k n : MixId) l (x y : A) :
  k <> n -> (if decide (k ∈ n :: l) then x else y) = if decide (k ∈ l) then x else y.
Proof.
  intros Hk. apply decide_ext. rewrite elem_of_cons. split; [intros [?|?]; done|by right].
Qed.

Lemma fresh_set_None a i l k : fresh_set a i l !! k = None <-> k ∉ l.
Proof.
  revert i. induction l as [|n l IH]; intros i; simpl; [by rewrite lookup_empty; split; [intros _; apply not_elem_of_nil|]|].
  rewrite lookup_insert_None, IH, not_elem_of_cons.
  split; intros [Hk Hne]; (split; [congruence|done]) || (split; [done|congruence]).
Qed.

Lemma fresh_set_lookup a i l j k :
  NoDup l -> l !! j = Some k -> fresh_set a i l !! k = Some (status_at a (i + Z.of_nat j)).
Proof.
  intros Hd. revert i j. induction Hd as [|n l Hn _ IH]; intros i j Hj; [done|]. simpl.
  destruct j as [|j]; simpl in Hj.
  - injection Hj as ->. by rewrite lookup_insert_eq, Z.add_0_r.
  - rewrite lookup_insert_ne, (IH (i + 1) j) by (done || (intros ->; apply Hn; by eapply list_elem_of_lookup_2)).
    do 2 f_equal. lia.
Qed.

(** The loop: what is stored for the nodes of the new set is what the set from scratch says, the
    rest is as before, and the old entries left over are those not in the new set. *)
Lemma update_loop_spec a i l old stored :
  NoDup l -> (forall k v, k ∈ l -> old !! k = Some v -> stored !! k = Some v) ->
  let acc := update_rewarded_set_loop a i l (stored, old) in
  (forall k, fst acc !! k = if decide (k ∈ l) then fresh_set a i l !! k else stored !! k) /\
  (forall k, snd acc !! k = if decide (k ∈ l) then None else old !! k).
Proof.
  intros Hd. revert i old stored. induction Hd as [|n l Hn _ IH]; intros i old stored Hold; simpl; [done|].
  set (st := status_at a i). set (stored' := if bool_decide (old !! n = Some st) then stored else <[n := st]> stored).
  assert (stored' !! n = Some st) as Hst.
  { unfold stored'. case_bool_decide as Ho; [apply Hold; [constructor|done]|by rewrite lookup_insert_eq]. }
  assert (forall k, k <> n -> stored' !! k = stored !! k) as Hne.
  { intros k Hk. unfold stored'. case_bool_decide; [done|]. by rewrite lookup_insert_ne. }
  destruct (IH (i + 1) (delete n old) stored') as [I1 I2].
  { intros k v Hk. rewrite lookup_delete_Some. intros [Hkn Hv]. rewrite Hne by done. apply Hold; [by constructor|done]. }
  split; intros k; [rewrite I1|rewrite I2].
  - destruct (decide (k = n)) as [->|Hkn].
    + by rewrite lookup_insert_eq, in_cons_eq, decide_False.
    + by rewrite lookup_insert_ne, Hne, in_cons_ne.
  - destruct (decide (k = n)) as [->|Hkn].
    + by rewrite lookup_delete_eq, in_cons_eq, decide_False.
    + by rewrite lookup_delete_ne, in_cons_ne.
Qed.

Lemma foldr_delete_lookup {V} (ks : list MixId) (m : gmap MixId V) k :
  foldr (fun k m => delete k m) m ks !! k = if decide (k ∈ ks) then None else m !! k.
Proof.
  induction ks as [|k' ks IH]; simpl; [done|]. destruct (decide (k = k')) as [->|Hk].
  - by rewrite lookup_delete_eq, in_cons_eq.
  - by rewrite lookup_delete_ne, IH, in_cons_ne.
Qed.

Lemma storage_update_fresh s a l :
  NoDup l -> rewarded_set (storage_update_rewarded_set s a l) = fresh_set a 0 l.
Proof.
  intros Hd. unfold storage_update_rewarded_set.
  pose proof (update_loop_spec a 0 l (rewarded_set s) (rewarded_set s) Hd ltac:(done)) as [H1 H2].
  destruct (update_rewarded_set_loop _ _ _ _) as [stored old]. simpl in *. apply map_eq. intros k.
  rewrite foldr_delete_lookup, H1. assert (k ∈ (map_to_list old).*1 <-> is_Some (old !! k)) as Hk.
  { rewrite list_elem_of_fmap. split; [intros ([k' v] & -> & ?%elem_of_map_to_list); by eexists|].
    intros [v Hv]. exists (k, v). split; [done|by apply elem_of_map_to_list]. }
  destruct (decide (k ∈ l)) as [Hin|Hout].
  - rewrite decide_False; [done|]. rewrite Hk, H2, decide_True by done. by intros [? ?].
  - rewrite H2, (decide_False (P := k ∈ l)) in Hk by done.
    transitivity (@None RewardedSetNodeStatus); [|symmetry; by apply fresh_set_None].
    case_decide as Hc; [done|]. destruct (rewarded_set s !! k); [|done]. destruct Hc. rewrite Hk. by eexists.
Qed.

Lemma first_duplicate_None seen l :
  first_duplicate seen l = None <-> NoDup l /\ (forall k, k ∈ l -> k ∉ seen).
Proof.
  revert seen. induction l as [|n l IH]; intros seen; simpl.
  { split; [|done]. intros _. split; [constructor|]. intros k Hk. by apply elem_of_nil in Hk. }
  case_bool_decide as Hs.
  - split; [done|]. intros [_ Hn]. destruct (Hn n); [constructor|done].
  - rewrite IH, NoDup_cons. split.
    + intros [Hd Hseen]. split_and!; [|done|].
      * intros Hn. apply (Hseen n Hn), elem_of_union_l, elem_of_singleton. done.
      * intros k [->|Hk]%elem_of_cons; [done|]. intros Hks. apply (Hseen k Hk), elem_of_union_r. done.
    + intros [[Hn Hd] Hseen]. split; [done|]. intros k Hk [->%elem_of_singleton|Hks]%elem_of_union; [done|].
      apply (Hseen k); [by constructor|done].
Qed.

(** Replacing the rewarded set succeeds only for a list without duplicates and the current
    size of the active set, and then exactly the listed nodes are in the set: the first ones
    active, the rest on standby. *)
Theorem rewarded_set_is_replaced s l n s' :
  update_rewarded_set s l n = Ok s' ->
  NoDup l /\ n = RewardingParams.active_set_size (rewarding_params s) /\
  (len l < 2 ^ 32 -> len l <= RewardingParams.rewarded_set_size (rewarding_params s)) /\
  (forall j k, l !! j = Some k -> rewarded_set s' !! k = Some (status_at n (Z.of_nat j))) /\
  (forall k, k ∉ l -> rewarded_set s' !! k = None).
Proof.
  unfold update_rewarded_set. intros Hr. run_inv. destruct (first_duplicate _ _) eqn:Hd; run_inv.
  apply first_duplicate_None in Hd as [Hd _]. rewrite storage_update_fresh by done. split_and!; [done|lia| | |].
  - intros Hlen. unfold as_u32 in E0. rewrite Z.mod_small in E0 by (pose proof (len_nonneg l); lia). lia.
  - intros j k Hj. by rewrite (fresh_set_lookup _ _ _ _ _ Hd Hj).
  - intros k Hk. by apply fresh_set_None.
Qed.

Lemma rewarded_set_is_replaced_witness :
  exists s', update_rewarded_set (chain_store sample_chain) [7; 1] 1 = Ok s' /\
    rewarded_set s' !! 7 = Some Active /\ rewarded_set s' !! 1 = Some Standby /\ rewarded_set s' !! 2 = None.
Proof.
  eexists. split; [vm_compute; reflexivity|].
  destruct (rewarded_set_is_replaced (chain_store sample_chain) [7; 1] 1 _ ltac:(vm_compute; reflexivity)) as (_ & _ & _ & H1 & H2).
  split_and!; [by apply (H1 0%nat)|by apply (H1 1%nat)|apply H2]. by intros [?|[?|?%elem_of_nil]%elem_of_cons]%elem_of_cons.
Defined.
