(* ===== verification/MixnetFindings.v ===== *)
(** * Runs of the mixnet contract that go wrong

    Concrete runs, from [instantiate] on and with ordinary messages, in which
    the contract does not do what its comments promise. *)

From S2P Require Import Prelude Bytes Cosmwasm MixnetTypes Rewarding Backing Interval MixnetStorage MixnetSupport.
From S2P Require Import MixnetEvents MixnetTransactions Accounting Solvency MixnetChain MixnetSample.
#[local] Open Scope Z_scope.
#[local] Existing Instances fixed_point fixed_point_laws sample_api sample_signatures.

Definition run_sample (es : list ChainEvent) : Store := chain_store (deliver_all (mkChain sample_store sample_balance) es).

(** The validator's last steps, on a store. *)
Definition reconcile (s : Store) (t : Z) : result (Store * Response) :=
  execute s (at_time t) (mkInfo "validator" []) (MsgReconcileEpochEvents None).

(** ** Layers *)

(** A node bonds and is put in the first layer, the validator moves it to the second one when it
    advances the epoch, and the node unbonds. *)
Definition moved_node : Store :=
  run_sample
    ([bond 100 "alice" (key_of "a0") 100_000_000]
     ++ advance 3600 [] [mkAssignment 1 Two]
     ++ [from 3700 "alice" MsgUnbondMixnode; from 7200 "validator" MsgBeginEpochTransition;
         from 7200 "validator" (MsgRewardMixnode 1 Percent.hundred)]).

(** [update_mixnode_layer] changes the layer of a bond but not the number of nodes per
    layer.  In the run above the unbonding then takes a node from a layer that counts none, so
    the reconciliation fails and the epoch cannot be advanced. *)
Theorem moved_node_blocks_the_epoch :
  (forall s i l s', update_mixnode_layer s i l = Ok s' -> layers s' = layers s) /\
  MixNodeBond.layer <$> (mixnode_bonds moved_node !! 1) = Some Two /\
  layers moved_node = LayerDistribution.mk 1 0 0 /\
  EpochStatus.state (epoch_status moved_node) = ReconcilingEvents /\
  reconcile moved_node 7200 = Err (OverflowSubtraction 0 1).
Proof.
  split; [|split_and!; vm_compute; reflexivity].
  intros s i l s' Hs. unfold update_mixnode_layer in Hs. by run_pairs.
Qed.

(** ** Dust *)

(** A node with one delegation unbonds, and then the delegator leaves. *)
Definition dust_node : Store :=
  run_sample
    ([bond 100 "alice" (key_of "a0") 100_000_000; delegate_to 100 "bob" 1 5_000_000_001]
     ++ advance 3600 [] [mkAssignment 1 One]
     ++ [from 3700 "alice" MsgUnbondMixnode]
     ++ advance 7200 [MsgRewardMixnode 1 Percent.hundred] []
     ++ [from 7300 "bob" (MsgUndelegateFromMixnode 1)]
     ++ advance 10800 [] []).

(** The last delegator to leave an unbonded node leaves the fractions of a coin to its
    operator, and the node then counts as bonded again: it has neither a bond nor delegations, but
    tokens that nobody can withdraw. *)
Theorem dust_makes_unbonded_node_bonded :
  mixnode_bonds dust_node !! 1 = None /\ delegations dust_node = ∅ /\
  exists n, mixnode_rewarding dust_node !! 1 = Some n /\ MixNodeRewarding.still_bonded n = true /\
    MixNodeRewarding.unique_delegations n = 0 /\ 0 < tokens n < F.
Proof.
  split_and!; [vm_compute; reflexivity|vm_compute; reflexivity|]. eexists. split_and!; [vm_compute; reflexivity..].
Qed.

(** ** The active set *)

(** The administrator plans a larger active set, and then shrinks the rewarded set at once. *)
Definition planned_active_set : Store :=
  run_sample
    [from 100 "admin" (MsgUpdateActiveSetSize 2 false);
     from 200 "admin" (MsgUpdateRewardingParams (mkParamsUpdate None None None None None None (Some 1)) true);
     from 3600 "validator" MsgBeginEpochTransition].

(** A planned change of the active set's size can be invalid when it is executed, and then
    the reconciliation fails. *)
Theorem planned_active_set_blocks_the_epoch :
  EpochStatus.state (epoch_status planned_active_set) = ReconcilingEvents /\
  reconcile planned_active_set 3600 = Err InvalidActiveSetSize.
Proof. split; vm_compute; reflexivity. Qed.

(** ** Large rewards *)

(** A delegation of a million tokens (10^12 coins) that has earned 35%. *)
Definition large_delegation : Delegation.t := Delegation.mk "bob" 1 0 (nym 1_000_000_000_000) 0 None.

Definition rich_node : MixNodeRewarding.t :=
  MixNodeRewarding.mk sample_cost (100_000_000 * F) (1_350_000_000_000 * F)
    (35 * UNIT_DELEGATION_BASE / 100) UNIT_DELEGATION_BASE 0 1.

(** The product of the accumulated ratio and the delegation does not fit in a decimal once a
    delegation has earned some 340,000 tokens.  The delegator then can neither withdraw nor leave:
    both panic, although the node's tokens cover the delegation. *)
Theorem large_reward_cannot_be_withdrawn :
  backed rich_node [large_delegation] /\ is_u128 (tokens rich_node) /\
  MixNodeRewarding.withdraw_delegator_reward rich_node large_delegation = Panic Overflow /\
  MixNodeRewarding.undelegate rich_node large_delegation = Panic Overflow.
Proof.
  split; [|split; [split; vm_compute; discriminate|split; vm_compute; reflexivity]].
  split; [vm_compute; reflexivity|vm_compute; discriminate|vm_compute; discriminate|vm_compute; reflexivity| |vm_compute; discriminate].
  repeat constructor; vm_compute; discriminate.
Qed.
