(* ===== verification/MixnetAccess.v ===== *)
(** * Who may do what in the mixnet contract

    The senders of privileged messages, and the owners of nodes: an address
    owns at most one mixnode or gateway. *)

From S2P Require Import Prelude Bytes Cosmwasm MixnetTypes Rewarding Backing Interval MixnetStorage MixnetSupport.
From S2P Require Import MixnetEvents MixnetTransactions Accounting Solvency MixnetChain MixnetSample MixnetEpoch.
#[local] Open Scope Z_scope.

(** ** Privileged messages *)

(** Messages the vesting contract sends for an account. *)
Definition on_behalf (msg : ExecuteMsg) : bool :=
  match msg with
  | MsgCreateFamilyOnBehalf _ _ | MsgJoinFamilyOnBehalf _ _ _ | MsgLeaveFamilyOnBehalf _ _
  | MsgKickFamilyMemberOnBehalf _ _ | MsgBondMixnodeOnBehalf _ _ _ _ | MsgPledgeMoreOnBehalf _
  | MsgDecreasePledgeOnBehalf _ _ | MsgUnbondMixnodeOnBehalf _ | MsgUpdateMixnodeCostParamsOnBehalf _ _
  | MsgUpdateMixnodeConfigOnBehalf _ _ | MsgBondGatewayOnBehalf _ _ _ | MsgUnbondGatewayOnBehalf _
  | MsgUpdateGatewayConfigOnBehalf _ _ | MsgDelegateToMixnodeOnBehalf _ _
  | MsgUndelegateFromMixnodeOnBehalf _ _ | MsgWithdrawOperatorRewardOnBehalf _
  | MsgWithdrawDelegatorRewardOnBehalf _ _ => true
  | _ => false
  end.

(** Messages of the contract's owner. *)
Definition administrative (msg : ExecuteMsg) : bool :=
  match msg with
  | MsgUpdateRewardingValidatorAddress _ | MsgUpdateContractStateParams _ | MsgUpdateActiveSetSize _ _
  | MsgUpdateRewardingParams _ _ | MsgUpdateIntervalConfig _ _ _ => true
  | _ => false
  end.

Section Access.
Context `{CosmMath} `{ChainApi} `{SignatureApi}.

(** ** Owners *)

(** An address owns at most one node. *)
Record owners_ok (s : Store) : Prop := {
  one_mixnode i j b b' : mixnode_bonds s !! i = Some b -> mixnode_bonds s !! j = Some b' ->
    MixNodeBond.owner b = MixNodeBond.owner b' -> i = j;
  one_gateway i j g g' : gateways s !! i = Some g -> gateways s !! j = Some g' ->
    GatewayBond.owner g = GatewayBond.owner g' -> i = j;
  not_both i k b g : mixnode_bonds s !! i = Some b -> gateways s !! k = Some g ->
    MixNodeBond.owner b <> GatewayBond.owner g
}.

(** No node appears or changes hands. *)
Definition owners_kept (s s' : Store) : Prop :=
  (forall i b', mixnode_bonds s' !! i = Some b' ->
     exists b, mixnode_bonds s !! i = Some b /\ MixNodeBond.owner b = MixNodeBond.owner b') /\
  (forall k g', gateways s' !! k = Some g' ->
     exists g, gateways s !! k = Some g /\ GatewayBond.owner g = GatewayBond.owner g').

Lemma owners_kept_ok s s' : owners_ok s -> owners_kept s s' -> owners_ok s'.
Proof.
  intros [O1 O2 O3] [Hm Hg]. split.
  - intros i j b b' (b0 & Hb0 & E0)%Hm (b1 & Hb1 & E1)%Hm E. eapply O1; [exact Hb0|exact Hb1|congruence].
  - intros i j g g' (g0 & Hg0 & E0)%Hg (g1 & Hg1 & E1)%Hg E. eapply O2; [exact Hg0|exact Hg1|congruence].
  - intros i k b g (b0 & Hb0 & E0)%Hm (g0 & Hg0 & E1)%Hg E. eapply O3; [exact Hb0|exact Hg0|congruence].
Qed.

Lemma owners_kept_same s s' : mixnode_bonds s' = mixnode_bonds s -> gateways s' = gateways s -> owners_kept s s'.
Proof. intros E1 E2. split; [intros i b; rewrite E1|intros k g; rewrite E2]; eauto. Qed.

Lemma owners_kept_trans s1 s2 s3 : owners_kept s1 s2 -> owners_kept s2 s3 -> owners_kept s1 s3.
Proof.
  intros [A1 A2] [B1 B2]. split.
  - intros i b (b2 & (b1 & ? & ?)%A1 & ?)%B1. exists b1. split; [done|congruence].
  - intros k g (g2 & (g1 & ? & ?)%A2 & ?)%B2. exists g1. split; [done|congruence].
Qed.

(** The bond of a node is replaced by one of the same owner, or removed. *)
Lemma owners_kept_bond s s' i b b' :
  mixnode_bonds s !! i = Some b -> MixNodeBond.owner b' = MixNodeBond.owner b ->
  mixnode_bonds s' = <[i := b']> (mixnode_bonds s) -> gateways s' = gateways s -> owners_kept s s'.
Proof.
  intros Hb Ho E1 E2. split; [intros j b0; rewrite E1|intros k g; rewrite E2; eauto].
  rewrite lookup_insert_Some. intros [[<- <-]|[_ ?]]; eauto.
Qed.

Lemma owners_kept_unbond s s' i :
  mixnode_bonds s' = delete i (mixnode_bonds s) -> gateways s' = gateways s -> owners_kept s s'.
Proof.
  intros E1 E2. split; [intros j b; rewrite E1|intros k g; rewrite E2; eauto].
  rewrite lookup_delete_Some. intros [_ ?]. eauto.
Qed.

Lemma find_by_None {K V} `{Countable K} (f : V -> bool) (m : gmap K V) k v :
  find_by f m = None -> m !! k = Some v -> f v = false.
Proof.
  unfold find_by. intros Hf Hk. destruct (f v) eqn:E; [|done].
  assert ((k, v) ∈ filter (fun kv => f kv.2 = true) (map_to_list m)) as Hin.
  { apply list_elem_of_filter. split; [done|by apply elem_of_map_to_list]. }
  destruct (filter _ _); [by apply elem_of_nil in Hin|done].
Qed.

(** An address without a node may get one. *)
Lemma no_existing_bond s o u :
  ensure_no_existing_bond o s = Ok u ->
  (forall i b, mixnode_bonds s !! i = Some b -> MixNodeBond.owner b <> o) /\
  (forall k g, gateways s !! k = Some g -> GatewayBond.owner g <> o).
Proof.
  unfold ensure_no_existing_bond, mixnode_by_owner, gateway_by_owner. intros Hu. run_inv.
  apply bool_decide_eq_true in E, Hu. split.
  - intros i b Hb Ho. apply (find_by_None _ _ _ _ E) in Hb. unfold addr_eqb in Hb. by apply bool_decide_eq_false in Hb.
  - intros k g Hg Ho. apply (find_by_None _ _ _ _ Hu) in Hg. unfold addr_eqb in Hg. by apply bool_decide_eq_false in Hg.
Qed.

Lemma add_mixnode_owners s env m c cs o sig p s' r :
  owners_ok s -> _try_add_mixnode s env m c cs o sig p = Ok (s', r) -> owners_ok s'.
Proof.
  intros [O1 O2 O3] Hr. unfold _try_add_mixnode, save_new_mixnode, increment_signing_nonce, assign_layer,
    next_mixnode_id_counter in Hr. run_pairs.
  match goal with H : ensure_no_existing_bond _ _ = Ok _ |- _ => apply no_existing_bond in H as [N1 N2] end.
  split; simpl; [| done|].
  - intros i j b b'. rewrite !lookup_insert_Some. intros [[<- <-]|[Hi Hb]] [[<- <-]|[Hj Hb']] Eo; simpl in *.
    + done.
    + by destruct (N1 _ _ Hb').
    + by destruct (N1 _ _ Hb).
    + by eapply O1.
  - intros i k b g. rewrite lookup_insert_Some. intros [[<- <-]|[Hi Hb]] Hg Eo; simpl in *.
    + by destruct (N2 _ _ Hg).
    + by apply (O3 _ _ _ _ Hb Hg).
Qed.

Lemma add_gateway_owners s env g cs o sig p s' r :
  owners_ok s -> _try_add_gateway s env g cs o sig p = Ok (s', r) -> owners_ok s'.
Proof.
  intros [O1 O2 O3] Hr. unfold _try_add_gateway, increment_signing_nonce in Hr. run_pairs.
  match goal with H : ensure_no_existing_bond _ _ = Ok _ |- _ => apply no_existing_bond in H as [N1 N2] end.
  split; simpl; [done| |].
  - intros i j b b'. rewrite !lookup_insert_Some. intros [[<- <-]|[Hi Hb]] [[<- <-]|[Hj Hb']] Eo; simpl in *.
    + done.
    + by destruct (N2 _ _ Hb').
    + by destruct (N2 _ _ Hb).
    + by eapply O2.
  - intros i k b g'. rewrite lookup_insert_Some. intros Hb [[<- <-]|[Hi Hg]] Eo; simpl in *.
    + by destruct (N1 _ _ Hb).
    + by apply (O3 _ _ _ _ Hb Hg).
Qed.

Context `{!CosmMathLaws}.

(** ** Events and messages that keep the owners *)

Lemma execute_epoch_event_owners e s env s' r : execute_epoch_event e s env = Ok (s', r) -> owners_kept s s'.
Proof.
  unfold execute_epoch_event. destruct (epoch_kind e) as [o i c p|o i p|i c|i c|i|n]; intros Hr.
  - unfold delegate in Hr. run_step. destruct x as [d|]; run_pairs; by apply owners_kept_same.
  - unfold undelegate, helper_undelegate in Hr. case_match; run_pairs; by apply owners_kept_same.
  - unfold increase_pledge, get_mixnode_details_by_id, attach_mix_details in Hr. run_pairs. destruct (mixnode_bonds s !! i) as [b|] eqn:Eb; run_pairs.
    eapply (owners_kept_bond _ _ _ _ _ Eb); [|reflexivity|reflexivity]; reflexivity.
  - unfold decrease_pledge, get_mixnode_details_by_id, attach_mix_details in Hr. run_pairs. destruct (mixnode_bonds s !! i) as [b|] eqn:Eb; run_pairs.
    eapply (owners_kept_bond _ _ _ _ _ Eb); [|reflexivity|reflexivity]; reflexivity.
  - unfold unbond_mixnode, cleanup_post_unbond_mixnode_storage, storage_decrement_layer_count in Hr. run_pairs.
    case_match; by eapply owners_kept_unbond.
  - unfold update_active_set_size in Hr. run_pairs. by apply owners_kept_same.
Qed.

Lemma execute_interval_event_owners e s s' r : execute_interval_event e s = Ok (s', r) -> owners_kept s s'.
Proof.
  unfold execute_interval_event. destruct (interval_kind e) as [i c|u|a b]; intros Hr.
  - unfold change_mix_cost_params in Hr. case_match; run_pairs; by apply owners_kept_same.
  - unfold update_rewarding_params in Hr. run_pairs. by apply owners_kept_same.
  - unfold update_interval_config, change_interval_config in Hr. run_pairs. by apply owners_kept_same.
Qed.

Lemma epoch_events_loop_owners n id s env s' r : epoch_events_loop n id s env = Ok (s', r) -> owners_kept s s'.
Proof.
  revert id s s' r. induction n as [|n IH]; intros id s s' r Hr; simpl in Hr; [run_inv; by apply owners_kept_same|].
  run_step. run_step. destruct x0 as [s1 r1]. run_step. destruct x0 as [s2 r2]. run_inv.
  apply execute_epoch_event_owners in E0. apply IH in E1. by eapply owners_kept_trans.
Qed.

Lemma interval_events_loop_owners n id s s' r : interval_events_loop n id s = Ok (s', r) -> owners_kept s s'.
Proof.
  revert id s s' r. induction n as [|n IH]; intros id s s' r Hr; simpl in Hr; [run_inv; by apply owners_kept_same|].
  run_step. run_step. destruct x0 as [s1 r1]. run_step. destruct x0 as [s2 r2]. run_inv.
  apply execute_interval_event_owners in E0. apply IH in E1. by eapply owners_kept_trans.
Qed.

Lemma reconcile_owners s env info l s' r : try_reconcile_epoch_events s env info l = Ok (s', r) -> owners_kept s s'.
Proof.
  intros Hr. unfold try_reconcile_epoch_events in Hr. do 4 run_step. destruct x2 as [[s1 r1] k].
  assert (owners_kept s s1) as Hk1.
  { clear Hr. unfold perform_pending_epoch_actions in E2. run_pairs; [by apply owners_kept_same|].
    match goal with H : epoch_events_loop _ _ _ _ = Ok _ |- _ => by apply epoch_events_loop_owners in H end. }
  do 3 run_step. destruct x4 as [s2 r2]. assert (owners_kept s s2) as Hk2.
  { clear Hr. unfold perform_pending_interval_actions in E5. destruct x3; run_pairs; [done| |done].
    match goal with H : interval_events_loop _ _ _ = Ok _ |- _ => apply interval_events_loop_owners in H end.
    by eapply owners_kept_trans. }
  clear E2 E3 E4 E5. run_pairs; done.
Qed.

Lemma update_layer_owners s i l s' : inv s -> update_mixnode_layer s i l = Ok s' -> owners_kept s s'.
Proof.
  intros Hi E. unfold update_mixnode_layer in E. run_pairs.
  match goal with H : mixnode_bonds s !! _ = Some ?b |- _ =>
    destruct (inv_bonds _ Hi _ _ H) as (Hm & _); rewrite <- Hm in H;
    eapply (owners_kept_bond _ _ _ _ _ H); [|reflexivity|reflexivity]; reflexivity end.
Qed.

Lemma update_layers_owners s l s' : inv s -> update_mixnode_layers s l = Ok s' -> owners_kept s s'.
Proof.
  revert s. induction l as [|a l IH]; intros s Hi Hr; simpl in Hr; [run_inv; by apply owners_kept_same|].
  run_step. pose proof (update_mixnode_layer_ok _ _ _ _ Hi E) as Htx. apply IH in Hr; [|by eapply tx_inv].
  eapply owners_kept_trans; [|exact Hr]. by eapply update_layer_owners.
Qed.

Lemma advance_owners s env info l n s' r : inv s -> try_advance_epoch s env info l n = Ok (s', r) -> owners_kept s s'.
Proof.
  intros Hi Hr. unfold try_advance_epoch in Hr. do 5 run_step.
  assert (tx_ok s 0 x3 [] /\ owners_kept s x3) as [Htx Hk].
  { clear Hr. destruct x2; [|run_inv; split; [by apply tx_ok_refl|by apply owners_kept_same]].
    split; [by apply apply_pool_ok|]. unfold apply_reward_pool_changes in E3. run_pairs. by apply owners_kept_same. }
  clear E3. unfold update_rewarded_set in Hr. run_inv. destruct (first_duplicate _ _); run_inv.
  match goal with H : update_mixnode_layers (storage_update_rewarded_set ?s1 ?n ?new) _ = Ok _ |- _ =>
    assert (tx_ok s 0 (storage_update_rewarded_set s1 n new) []) as Hs1
      by (eapply tx_ok_core; [exact Htx|by rewrite storage_update_rewarded_set_core]);
    apply update_layers_owners in H as Hl; [|by eapply tx_inv] end.
  eapply owners_kept_trans; [exact Hk|]. eapply owners_kept_trans; [|exact Hl].
  apply owners_kept_same; unfold storage_update_rewarded_set; by destruct (update_rewarded_set_loop _ _ _ _).
Qed.

(** Bonding is the only way to get a node. *)
Definition bonds_node (msg : ExecuteMsg) : bool :=
  match msg with
  | MsgBondMixnode _ _ _ | MsgBondMixnodeOnBehalf _ _ _ _ | MsgBondGateway _ _ | MsgBondGatewayOnBehalf _ _ _ => true
  | _ => false
  end.

Lemma mixnode_config_owners s c o p s' r :
  inv s -> _try_update_mixnode_config s c o p = Ok (s', r) -> owners_kept s s'.
Proof.
  intros Hi Hr. unfold _try_update_mixnode_config, must_get_mixnode_bond_by_owner in Hr. run_pairs.
  apply bond_by_owner in E; [|done]. eapply (owners_kept_bond _ _ _ _ _ E); [|reflexivity|reflexivity]; reflexivity.
Qed.

Lemma remove_mixnode_owners s env o p s' r :
  inv s -> _try_remove_mixnode s env o p = Ok (s', r) -> owners_kept s s'.
Proof.
  intros Hi Hr. unfold _try_remove_mixnode, must_get_mixnode_bond_by_owner, push_new_epoch_event,
    next_epoch_event_id_counter in Hr. run_pairs.
  apply bond_by_owner in E; [|done]. eapply (owners_kept_bond _ _ _ _ _ E); [|reflexivity|reflexivity]; reflexivity.
Qed.

Lemma remove_gateway_owners s o p s' r : _try_remove_gateway s o p = Ok (s', r) -> owners_kept s s'.
Proof.
  intros Hr. unfold _try_remove_gateway in Hr. run_pairs. split; simpl; [eauto|].
  intros k g. rewrite lookup_delete_Some. intros [_ ?]. eauto.
Qed.

Lemma gateway_config_owners s c o p s' r :
  inv s -> _try_update_gateway_config s c o p = Ok (s', r) -> owners_kept s s'.
Proof.
  intros Hi Hr. unfold _try_update_gateway_config, must_get_gateway_bond_by_owner in Hr. run_pairs.
  apply gateway_at in E; [|done]. split; simpl; [eauto|]. intros k g. rewrite lookup_insert_Some.
  intros [[<- <-]|[_ ?]]; eauto.
Qed.

Lemma reward_owners s env info i p s' r : try_reward_mixnode s env info i p = Ok (s', r) -> owners_kept s s'.
Proof.
  intros Hr. unfold try_reward_mixnode in Hr. do 4 run_step. apply update_last_rewarded_Ok in E2 as [st ->].
  destruct (mixnode_rewarding _ !! i); unfold reward_accounting in Hr; run_pairs; by apply owners_kept_same.
Qed.

Lemma execute_owners s env info msg s' r :
  inv s -> bonds_node msg = false -> execute s env info msg = Ok (s', r) -> owners_kept s s'.
Proof.
  intros Hi Hb Hr. destruct msg; try discriminate Hb; clear Hb; simpl in Hr; unfold_handlers.
  all: try (run_inv; first
    [ by eapply mixnode_config_owners | by eapply remove_mixnode_owners | by eapply remove_gateway_owners
    | by eapply gateway_config_owners | by eapply reward_owners | by eapply advance_owners
    | by eapply reconcile_owners | by eapply update_layer_owners ]).
  all: unfold try_create_family, try_create_family_on_behalf, try_join_family, try_join_family_on_behalf,
      try_leave_family, try_leave_family_on_behalf, try_head_kick_member, try_head_kick_member_on_behalf,
      _try_create_family, _try_join_family, _try_leave_family, _try_head_kick_member, save_family,
      _try_increase_pledge, _try_decrease_pledge, _try_update_mixnode_cost_params,
      _try_delegate_to_mixnode, _try_remove_delegation_from_mixnode, _try_withdraw_operator_reward,
      withdraw_operator_reward, _try_withdraw_delegator_reward, withdraw_delegator_reward,
      try_begin_epoch_transition, try_update_active_set_size, try_update_rewarding_params,
      try_update_interval_config, change_interval_config, push_new_epoch_event, push_new_interval_event,
      next_epoch_event_id_counter, next_interval_event_id_counter in *;
    run_pairs; repeat (case_match; run_pairs); by apply owners_kept_same.
Qed.

(** C40: on any reachable chain an address owns at most one node: one mixnode or one gateway, never
    both, whatever messages are sent. *)
Theorem one_node_per_owner d c : reachable d c -> owners_ok (chain_store c).
Proof.
  intros (env & info & m & s & b & es & -> & _ & Hs & Hb & Hes & ->).
  apply (deliver_all_ind (fun c => solvent (im_rewarding_denom m) c /\ owners_ok (chain_store c)) (im_rewarding_denom m)); [done| |].
  - split; [by eapply instantiate_solvent|]. unfold instantiate in Hs. run_pairs. by split.
  - intros c e He [Hsol Ho]. split; [by apply deliver_solvent|]. destruct e as [env' info' msg|a]; simpl; [|done].
    destruct (execute _ _ _ _) as [[s' r]| |] eqn:E; [|done|done]. simpl. apply solvent_inv in Hsol as Hi.
    destruct (bonds_node msg) eqn:Hbn; [|by eapply owners_kept_ok, execute_owners].
    destruct msg; try discriminate Hbn; simpl in E; unfold_handlers; run_inv;
      first [by eapply add_mixnode_owners | by eapply add_gateway_owners].
Qed.

(** ** What only the privileged change *)

(** The address that moves the epoch forward, while it does. *)
Definition advances (s : Store) (a : Addr) : Prop :=
  a = EpochStatus.being_advanced_by (epoch_status s) /\ EpochStatus.state (epoch_status s) <> InProgress.

(** Pending changes of parameters. *)
Definition epoch_order (e : PendingEpochEventData) : bool :=
  match epoch_kind e with UpdateActiveSetSize _ => true | _ => false end.
Definition interval_order (e : PendingIntervalEventData) : bool :=
  match interval_kind e with UpdateRewardingParams _ | UpdateIntervalConfig _ _ => true | _ => false end.

(** The settings stay and no change of parameters is queued. *)
Record settings_kept (s s' : Store) : Prop := {
  state_kept : contract_state s' = contract_state s;
  epoch_orders_kept i e : epoch_order e = true -> pending_epoch_events s' !! i = Some e -> pending_epoch_events s !! i = Some e;
  interval_orders_kept i e :
    interval_order e = true -> pending_interval_events s' !! i = Some e -> pending_interval_events s !! i = Some e
}.

(** No node that stays bonded moves to another layer. *)
Definition layers_kept (s s' : Store) : Prop :=
  forall i b b', mixnode_bonds s !! i = Some b -> mixnode_bonds s' !! i = Some b' -> MixNodeBond.layer b' = MixNodeBond.layer b.

Lemma settings_kept_trans s1 s2 s3 : settings_kept s1 s2 -> settings_kept s2 s3 -> settings_kept s1 s3.
Proof. intros [A1 A2 A3] [B1 B2 B3]. split; [congruence|eauto|eauto]. Qed.

Lemma settings_kept_same s s' : contract_state s' = contract_state s ->
  pending_epoch_events s' = pending_epoch_events s -> pending_interval_events s' = pending_interval_events s -> settings_kept s s'.
Proof. intros E1 E2 E3. split; [done|intros i e _; by rewrite E2|intros i e _; by rewrite E3]. Qed.

Lemma layers_kept_same s s' : mixnode_bonds s' = mixnode_bonds s -> layers_kept s s'.
Proof. intros E i b b'. rewrite E. congruence. Qed.

Lemma layers_kept_bond s s' i b b' :
  mixnode_bonds s !! i = Some b -> MixNodeBond.layer b' = MixNodeBond.layer b ->
  mixnode_bonds s' = <[i := b']> (mixnode_bonds s) -> layers_kept s s'.
Proof.
  intros Hb Hl E j c c'. rewrite E, lookup_insert_Some. intros Hc [[<- <-]|[_ ?]]; congruence.
Qed.

(** *** Events change no settings *)

Lemma execute_epoch_event_settings e s env s' r : execute_epoch_event e s env = Ok (s', r) -> settings_kept s s'.
Proof.
  unfold execute_epoch_event. destruct (epoch_kind e) as [o i c p|o i p|i c|i c|i|n]; intros Hr;
    unfold delegate, undelegate, helper_undelegate, increase_pledge, decrease_pledge, get_mixnode_details_by_id, attach_mix_details,
      unbond_mixnode, cleanup_post_unbond_mixnode_storage, storage_decrement_layer_count, update_active_set_size in Hr;
    run_pairs; repeat (case_match; run_pairs); by apply settings_kept_same.
Qed.

Lemma execute_interval_event_settings e s s' r : execute_interval_event e s = Ok (s', r) -> settings_kept s s'.
Proof.
  unfold execute_interval_event. destruct (interval_kind e) as [i c|u|a b]; intros Hr;
    unfold change_mix_cost_params, update_rewarding_params, update_interval_config, change_interval_config in Hr;
    repeat (case_match; run_pairs); run_pairs; by apply settings_kept_same.
Qed.

Lemma epoch_events_loop_settings n id s env s' r : epoch_events_loop n id s env = Ok (s', r) -> settings_kept s s'.
Proof.
  revert id s s' r. induction n as [|n IH]; intros id s s' r Hr; simpl in Hr; [run_inv; by apply settings_kept_same|].
  run_step. run_step. destruct x0 as [s1 r1]. run_step. destruct x0 as [s2 r2]. run_inv.
  apply execute_epoch_event_settings in E0. apply IH in E1. eapply settings_kept_trans; [exact E0|].
  eapply settings_kept_trans; [|exact E1]. split; simpl; [done| |done]. intros i e _. rewrite lookup_delete_Some. by intros [_ ?].
Qed.

Lemma interval_events_loop_settings n id s s' r : interval_events_loop n id s = Ok (s', r) -> settings_kept s s'.
Proof.
  revert id s s' r. induction n as [|n IH]; intros id s s' r Hr; simpl in Hr; [run_inv; by apply settings_kept_same|].
  run_step. run_step. destruct x0 as [s1 r1]. run_step. destruct x0 as [s2 r2]. run_inv.
  apply execute_interval_event_settings in E0. apply IH in E1. eapply settings_kept_trans; [exact E0|].
  eapply settings_kept_trans; [|exact E1]. split; simpl; [done|done|]. intros i e _. rewrite lookup_delete_Some. by intros [_ ?].
Qed.

Lemma reconcile_settings s env info l s' r : try_reconcile_epoch_events s env info l = Ok (s', r) -> settings_kept s s'.
Proof.
  intros Hr. unfold try_reconcile_epoch_events in Hr. do 4 run_step. destruct x2 as [[s1 r1] k].
  assert (settings_kept s s1) as Hk1.
  { clear Hr. unfold perform_pending_epoch_actions in E2. run_pairs; [by apply settings_kept_same|].
    match goal with H : epoch_events_loop _ _ _ _ = Ok _ |- _ => apply epoch_events_loop_settings in H end.
    eapply settings_kept_trans; [eassumption|by apply settings_kept_same]. }
  do 3 run_step. destruct x4 as [s2 r2]. assert (settings_kept s s2) as Hk2.
  { clear Hr. unfold perform_pending_interval_actions in E5. destruct x3; run_pairs; [done| |done].
    match goal with H : interval_events_loop _ _ _ = Ok _ |- _ => apply interval_events_loop_settings in H end.
    eapply settings_kept_trans; [exact Hk1|]. eapply settings_kept_trans; [eassumption|by apply settings_kept_same]. }
  clear E2 E3 E4 E5. run_pairs; [|done]. eapply settings_kept_trans; [exact Hk2|by apply settings_kept_same].
Qed.

Lemma update_layers_settings s l s' : update_mixnode_layers s l = Ok s' -> settings_kept s s'.
Proof.
  revert s. induction l as [|a l IH]; intros s Hr; simpl in Hr; [run_inv; by apply settings_kept_same|].
  run_step. apply IH in Hr. eapply settings_kept_trans; [|exact Hr]. unfold update_mixnode_layer in E. run_pairs.
  by apply settings_kept_same.
Qed.

Lemma advance_settings s env info l n s' r : try_advance_epoch s env info l n = Ok (s', r) -> settings_kept s s'.
Proof.
  intros Hr. unfold try_advance_epoch in Hr. do 5 run_step.
  assert (settings_kept s x3) as Hk.
  { clear Hr. unfold apply_reward_pool_changes in E3. destruct x2; run_pairs; by apply settings_kept_same. }
  clear E3. unfold update_rewarded_set in Hr. run_inv. destruct (first_duplicate _ _); run_inv.
  match goal with H : update_mixnode_layers _ _ = Ok _ |- _ => apply update_layers_settings in H as Hl end.
  eapply settings_kept_trans; [exact Hk|]. eapply settings_kept_trans; [|eapply settings_kept_trans; [exact Hl|by apply settings_kept_same]].
  unfold storage_update_rewarded_set. destruct (update_rewarded_set_loop _ _ _ _). by apply settings_kept_same.
Qed.

(** *** Messages of users *)

Ltac unfold_all_messages :=
  unfold_messages;
  unfold _try_increase_pledge, _try_decrease_pledge, _try_remove_mixnode, _try_update_mixnode_cost_params,
    _try_delegate_to_mixnode, _try_remove_delegation_from_mixnode, must_get_mixnode_bond_by_owner,
    push_new_epoch_event, push_new_interval_event, next_epoch_event_id_counter, next_interval_event_id_counter in *.

Lemma queued_kept {V} (order : V -> bool) (m : gmap Z V) j e0 i e :
  order e0 = false -> order e = true -> <[j := e0]> m !! i = Some e -> m !! i = Some e.
Proof. intros Ho Ho'. rewrite lookup_insert_Some. intros [[<- <-]|[_ ?]]; congruence. Qed.

Lemma user_message_kept s env info msg s' r :
  administrative msg = false -> moves_epoch msg = false -> execute s env info msg = Ok (s', r) ->
  settings_kept s s' /\ rewarding_params s' = rewarding_params s /\ interval s' = interval s /\
  rewarded_set s' = rewarded_set s /\ epoch_status s' = epoch_status s.
Proof.
  intros Ha He Hr. destruct msg; try discriminate Ha; try discriminate He; clear Ha He; simpl in Hr; unfold_all_messages;
    run_pairs; repeat (case_match; run_pairs);
    (split; [first [by apply settings_kept_same
                   |split; simpl; [done|intros i' e'; try done; by apply (queued_kept epoch_order)|intros i' e'; try done; by apply (queued_kept interval_order)]]|done]).
Qed.

Lemma new_mixnode_layers s env m c cs o sig p s' r :
  inv s -> _try_add_mixnode s env m c cs o sig p = Ok (s', r) -> layers_kept s s'.
Proof.
  intros Hi Hr. unfold _try_add_mixnode, save_new_mixnode, increment_signing_nonce, assign_layer, next_mixnode_id_counter in Hr. run_pairs.
  intros i b b' Hb. simpl. rewrite lookup_insert_Some. intros [[<- _]|[_ ?]]; [|congruence]. exfalso.
  destruct (inv_bonds _ Hi _ _ Hb) as (_ & _ & n & Hn & _). apply (inv_nodes _ Hi) in Hn as [? _]. lia.
Qed.

Lemma message_layers s env info msg s' r :
  inv s -> moves_epoch msg = false -> (forall i l, msg <> MsgAssignNodeLayer i l) ->
  execute s env info msg = Ok (s', r) -> layers_kept s s'.
Proof.
  intros Hi He Hn Hr. destruct msg; try discriminate He; try (by destruct (Hn mix_id layer)); clear He Hn; simpl in Hr; unfold_handlers.
  all: try (run_inv; by eapply new_mixnode_layers).
  all: unfold_all_messages; unfold try_update_active_set_size, try_update_rewarding_params, try_update_interval_config,
      change_interval_config, push_new_epoch_event, push_new_interval_event,
      next_epoch_event_id_counter, next_interval_event_id_counter in *;
    run_pairs; repeat (case_match; run_pairs); try (by apply layers_kept_same).
  all: match goal with H : mixnode_by_owner _ _ = Some _ |- _ => apply bond_by_owner in H; [|done] end;
    eapply layers_kept_bond; [eassumption| |reflexivity]; reflexivity.
Qed.

Lemma privileged_senders s env info msg s' r :
  execute s env info msg = Ok (s', r) ->
  (on_behalf msg = true -> sender info = vesting_contract_address (contract_state s)) /\
  (administrative msg = true -> sender info = cs_owner (contract_state s)) /\
  (forall i l, msg = MsgAssignNodeLayer i l -> sender info = rewarding_validator_address (contract_state s)).
Proof.
  intros Hr. split_and!; [intros Hb|intros Hb|intros i l Hb]; destruct msg; try discriminate Hb; clear Hb; simpl in Hr;
    unfold_handlers;
    unfold try_create_family_on_behalf, try_join_family_on_behalf, try_leave_family_on_behalf,
      try_head_kick_member_on_behalf, try_update_active_set_size, try_update_rewarding_params,
      try_update_interval_config in Hr; run_step;
    unfold ensure_sent_by_vesting_contract, ensure_is_owner, ensure_is_authorized, addr_eqb in *;
    match goal with H : ensure (bool_decide _) _ = Ok _ |- _ =>
      apply ensure_Ok, bool_decide_eq_true in H; exact H end.
Qed.

(** A change of parameters leaves the rewarded set and the phase. *)
Lemma administrative_kept s env info msg s' r :
  administrative msg = true -> execute s env info msg = Ok (s', r) ->
  rewarded_set s' = rewarded_set s /\ epoch_status s' = epoch_status s.
Proof.
  intros Ha Hr. destruct msg; try discriminate Ha; clear Ha; simpl in Hr; unfold_handlers;
    unfold try_update_active_set_size, try_update_rewarding_params, try_update_interval_config, change_interval_config,
      push_new_epoch_event, push_new_interval_event, next_epoch_event_id_counter, next_interval_event_id_counter in Hr;
    run_pairs; repeat (case_match; run_pairs); done.
Qed.

(** Who moves the epoch, and that doing so changes no settings. *)
Lemma epoch_message_kept s env info msg s' r :
  moves_epoch msg = true -> execute s env info msg = Ok (s', r) ->
  settings_kept s s' /\
  (advances s (sender info) \/
   sender info = rewarding_validator_address (contract_state s) /\ rewarding_params s' = rewarding_params s /\
   interval s' = interval s /\ rewarded_set s' = rewarded_set s).
Proof.
  intros He Hr. unfold advances. destruct msg; try discriminate He; clear He; simpl in Hr.
  - apply begin_inv in Hr as (_ & Hs & _ & ->). split; [by apply settings_kept_same|by right].
  - pose proof (advance_inv _ _ _ _ _ _ _ Hr) as (Hph & Hs & _). unfold phase in Hph. apply advance_settings in Hr.
    split; [done|]. left. by rewrite Hph.
  - pose proof (reconcile_inv _ _ _ _ _ _ Hr) as (Hph & Hs & _). unfold phase in Hph. apply reconcile_settings in Hr.
    split; [done|]. left. by rewrite Hph.
  - pose proof (reward_inv _ _ _ _ _ _ _ Hr) as (last & final & Hph & _ & Hs & _). unfold phase in Hph.
    split; [|left; by rewrite Hph]. unfold try_reward_mixnode in Hr. do 4 run_step. apply update_last_rewarded_Ok in E2 as [st ->].
    destruct (mixnode_rewarding _ !! mix_id); unfold reward_accounting in Hr; run_pairs; by apply settings_kept_same.
Qed.

(** C36: who changes what in the mixnet contract, for every message that
    succeeds.  A message on behalf of another comes from the vesting contract,
    a change of settings or parameters from the owner, an assignment of a
    layer from the rewarding validator.  And by its effects: the contract's
    settings change, and changes of the reward parameters and of the interval
    are queued, only by the owner; the reward parameters and the interval
    change only by the owner or by the address that moves the epoch forward;
    the rewarded set changes only by that address; the state of the epoch,
    which names it, and the layer of a node that stays bonded change only by
    it or by the rewarding validator.  (Layers: in a store that satisfies the
    contract's invariant, as all reachable ones do.) *)
Theorem privileged_messages_are_authorized s env info msg s' r :
  execute s env info msg = Ok (s', r) ->
  (on_behalf msg = true -> sender info = vesting_contract_address (contract_state s)) /\
  (administrative msg = true -> sender info = cs_owner (contract_state s)) /\
  (forall i l, msg = MsgAssignNodeLayer i l -> sender info = rewarding_validator_address (contract_state s)) /\
  (settings_kept s s' \/ sender info = cs_owner (contract_state s)) /\
  (rewarding_params s' = rewarding_params s /\ interval s' = interval s \/
   sender info = cs_owner (contract_state s) \/ advances s (sender info)) /\
  (rewarded_set s' = rewarded_set s \/ advances s (sender info)) /\
  (epoch_status s' = epoch_status s \/
   sender info = rewarding_validator_address (contract_state s) \/ advances s (sender info)) /\
  (inv s -> layers_kept s s' \/
   sender info = rewarding_validator_address (contract_state s) \/ advances s (sender info)).
Proof.
  intros Hr. destruct (privileged_senders _ _ _ _ _ _ Hr) as (Hb & Ha & Hl). split; [done|]. split; [done|]. split; [done|].
  assert (inv s -> layers_kept s s' \/ sender info = rewarding_validator_address (contract_state s) \/ moves_epoch msg = true) as Hlay.
  { intros Hi. destruct (moves_epoch msg) eqn:He; [by right; right|].
    destruct msg; try (left; by eapply message_layers; [| | |exact Hr]). right; left. by eapply Hl. }
  destruct (moves_epoch msg) eqn:He.
  - apply epoch_message_kept in Hr as [Hs [Hadv|(Hv & Hp & Hi & Hrs)]]; [| |done]; split_and!; auto.
  - assert (inv s -> layers_kept s s' \/ sender info = rewarding_validator_address (contract_state s)) as Hlay'
      by (intros Hi; destruct (Hlay Hi) as [?|[?|?]]; [by left|by right|done]).
    destruct (administrative msg) eqn:Had.
    + apply administrative_kept in Hr as [Hrs Hst]; [|done]. specialize (Ha eq_refl). split_and!; auto.
      intros Hi. destruct (Hlay' Hi); auto.
    + apply user_message_kept in Hr as (Hs & Hp & Hin & Hrs & Hst); [|done|done]. split_and!; auto.
      intros Hi. destruct (Hlay' Hi); auto.
Qed.

End Access.

(** ** The sample run *)

#[local] Existing Instances fixed_point fixed_point_laws sample_api sample_signatures.

(** The vesting contract bonds a node for an account; the settings stay. *)
Lemma privileged_messages_are_authorized_witness :
  exists s' r, execute (chain_store sample_chain) (at_time 7300) (mkInfo "vesting" [nym 100_000_000])
      (MsgBondMixnodeOnBehalf (sample_mixnode (key_of "b0")) sample_cost [] "dave") = Ok (s', r) /\
    "vesting"%string = vesting_contract_address (contract_state (chain_store sample_chain)) /\
    settings_kept (chain_store sample_chain) s'.
Proof.
  do 2 eexists. split; [vm_compute; reflexivity|].
  edestruct (privileged_messages_are_authorized (chain_store sample_chain) (at_time 7300) (mkInfo "vesting" [nym 100_000_000])
    (MsgBondMixnodeOnBehalf (sample_mixnode (key_of "b0")) sample_cost [] "dave")) as (Hb & _ & _ & Hs & _); [vm_compute; reflexivity|].
  split; [by apply Hb|]. destruct Hs as [Hs|Hs]; [exact Hs|]. vm_compute in Hs. discriminate Hs.
Defined.

Lemma one_node_per_owner_witness :
  (exists b, mixnode_bonds (chain_store sample_chain) !! 1 = Some b) /\ owners_ok (chain_store sample_chain).
Proof. split; [eexists; vm_compute; reflexivity|]. apply (one_node_per_owner "unym" sample_chain sample_reachable). Defined.
