(* ===== verification/VestingTypes.v ===== *)
(** * Data of the vesting contract

    Models [common/cosmwasm-smart-contracts/vesting-contract/src]: the errors
    of [error.rs], the types of [types.rs], the messages of [messages.rs] and
    the account of [account.rs] with the schedule of its vesting.  The
    contract keeps tokens for accounts that are released period by period and
    lets the accounts stake them in the mixnet contract. *)

From S2P Require Import Prelude Bytes Cosmwasm MixnetTypes MixnetTransactions.
From Stdlib.Strings Require Import Byte.

Abbreviation VestingAccountStorageKey := Z (only parsing).
Abbreviation BlockTimestampSecs := Z (only parsing).

(** ** Numbers *)

(** [u64] and [u128] arithmetic with the overflow checks of the contract's build. *)
Definition u64_mul {E} (a b : Z) : outcome E Z := if a * b <=? u64_max then Ok (a * b) else Panic Overflow.
Definition u128_add {E} (a b : Z) : outcome E Z := if a + b <=? u128_max then Ok (a + b) else Panic Overflow.
Definition u128_sub {E} (a b : Z) : outcome E Z := if b <=? a then Ok (a - b) else Panic Overflow.
Definition u128_mul {E} (a b : Z) : outcome E Z := if a * b <=? u128_max then Ok (a * b) else Panic Overflow.

(** [Uint128::saturating_sub]. *)
Definition saturating_sub (a b : Z) : Z := Z.max 0 (a - b).

Lemma u64_mul_Ok {E} a b c : @u64_mul E a b = Ok c <-> c = a * b /\ a * b <= u64_max.
Proof. unfold u64_mul. destruct (Z.leb_spec (a * b) u64_max); split; try (intros [= <-]; lia); intros [-> ?]; done || lia. Qed.
Lemma u128_add_Ok {E} a b c : @u128_add E a b = Ok c <-> c = a + b /\ a + b <= u128_max.
Proof. unfold u128_add. destruct (Z.leb_spec (a + b) u128_max); split; try (intros [= <-]; lia); intros [-> ?]; done || lia. Qed.
Lemma u128_sub_Ok {E} a b c : @u128_sub E a b = Ok c <-> c = a - b /\ b <= a.
Proof. unfold u128_sub. destruct (Z.leb_spec b a); split; try (intros [= <-]; lia); intros [-> ?]; done || lia. Qed.
Lemma u128_mul_Ok {E} a b c : @u128_mul E a b = Ok c <-> c = a * b /\ a * b <= u128_max.
Proof. unfold u128_mul. destruct (Z.leb_spec (a * b) u128_max); split; try (intros [= <-]; lia); intros [-> ?]; done || lia. Qed.

(** ** Times *)

(** [Timestamp], in nanoseconds. *)
Abbreviation Timestamp := Z (only parsing).

(** [Timestamp::from_seconds] and [Timestamp::seconds] of [cosmwasm_std]; [None] is a panic. *)
Class TimestampApi : Type := {
  timestamp_from_seconds : Z -> option Timestamp;
  timestamp_seconds : Timestamp -> Z
}.

(** The documented behaviour: nanoseconds in 64 bits, and whole seconds rounded down. *)
Class TimestampApiLaws `{TimestampApi} : Prop := {
  timestamp_from_seconds_spec s t : timestamp_from_seconds s = Some t <-> t = s * NANOS /\ 0 <= t <= u64_max;
  timestamp_seconds_spec t : timestamp_seconds t = t / NANOS
}.

Definition nanosecond_clock : TimestampApi := {|
  timestamp_from_seconds := fun s => if (0 <=? s * NANOS) && (s * NANOS <=? u64_max) then Some (s * NANOS) else None;
  timestamp_seconds := fun t => t / NANOS
|}.

Lemma nanosecond_clock_laws : @TimestampApiLaws nanosecond_clock.
Proof.
  split; [|done]. intros s t. simpl. destruct (Z.leb_spec 0 (s * NANOS)), (Z.leb_spec (s * NANOS) u64_max); simpl;
    split; try (intros [= <-]; lia); intros [-> ?]; done || lia.
Qed.

(** [env.block.time]. *)
Definition env_time (env : Env) : Timestamp := block_time_secs env * NANOS + block_time_subsec env.

(** ** Errors, [error.rs] *)

Module VestingError.

Inductive t : Type :=
| Std (source : StdError)
| OverflowError
| NoAccountForAddress (address : string)
| NotAdmin (address : string)
| NoBalanceForAddress (address : string)
| InsufficientBalance (address : string) (balance : Z)
| InsufficientSpendable (address : string) (spendable : Z)
| NotDelegate (address : string)
| ImprobableVestingAmount (amount : Z)
| AlreadyBonded (address : string)
| EmptyFunds
| WrongDenom (received expected : string)
| MultipleDenoms
| NoSuchDelegation (address : Addr) (mix_id : MixId)
| NotMixnetContract (address : Addr)
| Underflow
| NoBondFound (address : string)
| InvalidBondPledgeReduction (current decrease_by : Coin)
| NotOwner (address : string)
| InvalidAddress (address : string)
| AccountAlreadyExists (address : string)
| StakingAccountAlreadyExists (address : string)
| MinVestingFunds (sent need : Z)
| LockedPledgeCapReached (current cap : Uint128)
| UnpopulatedVestingPeriods (owner : Addr)
| StakingAccountExists (address : string)
| InvalidStakingAccount (address for_account : Addr)
| TooManyDelegations (address : Addr) (acc_id : VestingAccountStorageKey) (mix_id : MixId) (num cap : Z)
| SemVerFailure (value error_message : string)
| Other (message : string).

End VestingError.

Abbreviation vresult := (outcome VestingError.t).

(** ** Types, [types.rs] *)

Inductive Period : Type :=
| Before
| In (index : Z)
| After.

Record PledgeData : Type := mkPledge { pledge_amount : Coin; pledge_block_time : Timestamp }.

Inductive PledgeCap : Type :=
| CapPercent (p : Percent.t)
| CapAbsolute (cap : Uint128).

(** [PledgeCap::default]: ten percent. *)
Definition default_pledge_cap : PledgeCap := CapPercent (Percent.mk (10 * 10 ^ 16)).

Record VestingPeriod : Type := mkPeriod { start_time : Z; period_seconds : Z }.

Record VestingSpecification : Type := mkSpecification {
  spec_start_time : option Z;
  spec_period_seconds : option Z;
  spec_num_periods : option Z
}.

Definition default_specification : VestingSpecification := mkSpecification None None None.

Definition period_seconds_of (spec : VestingSpecification) : Z := default (3 * 30 * 86400) (spec_period_seconds spec).
Definition num_periods_of (spec : VestingSpecification) : Z := default 8 (spec_num_periods spec).

(** [VestingSpecification::populate_vesting_periods], a loop that pushes a period per index. *)
Definition populate_vesting_periods (start_time : Z) (spec : VestingSpecification) : vresult (list VestingPeriod) :=
  mapM_outcome (fun i =>
    let? offset := u64_mul i (period_seconds_of spec) in
    let? start := u64_add start_time offset in
    Ok (mkPeriod start (period_seconds_of spec))) (zrange 0 (num_periods_of spec)).

(** [OriginalVestingResponse]. *)
Record OriginalVestingResponse : Type := mkOriginal {
  ov_amount : Coin;
  ov_number_of_periods : Z;
  ov_period_duration : Z
}.

Record VestingDelegation : Type := mkVestingDelegation {
  vd_account_id : VestingAccountStorageKey;
  vd_mix_id : MixId;
  vd_block_timestamp : BlockTimestampSecs;
  vd_amount : Uint128
}.

(** ** The account, [account.rs] *)

Module Account.

Record t : Type := mk {
  owner_address : Addr;
  staking_address : option Addr;
  start_time : Timestamp;
  periods : list VestingPeriod;
  coin : Coin;
  storage_key : VestingAccountStorageKey;
  pledge_cap_of : option PledgeCap
}.

Definition set_owner (a : t) (o : Addr) : t :=
  mk o (staking_address a) (start_time a) (periods a) (coin a) (storage_key a) (pledge_cap_of a).
Definition set_staking (a : t) (o : option Addr) : t :=
  mk (owner_address a) o (start_time a) (periods a) (coin a) (storage_key a) (pledge_cap_of a).
Definition set_cap (a : t) (c : PledgeCap) : t :=
  mk (owner_address a) (staking_address a) (start_time a) (periods a) (coin a) (storage_key a) (Some c).

Definition pledge_cap (a : t) : PledgeCap := default default_pledge_cap (pledge_cap_of a).

Definition num_vesting_periods (a : t) : Z := len (periods a).

Definition unpopulated (a : t) : VestingError.t := VestingError.UnpopulatedVestingPeriods (owner_address a).

Definition period_duration (a : t) : vresult Z :=
  let? p := or_err (head (periods a)) (unpopulated a) in Ok (period_seconds p).

Definition tokens_per_period (a : t) : vresult Z :=
  let n := num_vesting_periods a in
  if amount (coin a) <? n then Err (VestingError.ImprobableVestingAmount (amount (coin a)))
  else if n =? 0 then Panic DivisionByZero
  else Ok (amount (coin a) / n).

Section Times.
Context `{TimestampApi}.

(** [VestingPeriod::end_time]. *)
Definition end_time (p : VestingPeriod) : vresult Timestamp :=
  let? e := u64_add (VestingTypes.start_time p) (period_seconds p) in
  or_panic (timestamp_from_seconds e) Overflow.

(** The loop of [get_current_vesting_period]: the number of periods before the first that has not ended. *)
Fixpoint period_index (block_time : Timestamp) (index : Z) (ps : list VestingPeriod) : vresult Z :=
  match ps with
  | [] => Ok index
  | p :: ps =>
      let? e := end_time p in
      if block_time <? e then Ok index else period_index block_time (index + 1) ps
  end.

Definition get_current_vesting_period (a : t) (block_time : Timestamp) : vresult Period :=
  let? first_period := or_err (head (periods a)) (unpopulated a) in
  let? last_period := or_err (last (periods a)) (unpopulated a) in
  if timestamp_seconds block_time <? VestingTypes.start_time first_period then Ok Before
  else
    let? e := end_time last_period in
    if e <? block_time then Ok After
    else
      let? index := period_index block_time 0 (periods a) in
      Ok (In index).

End Times.

End Account.

(** ** Messages, [messages.rs] *)

Module VestingExecuteMsg.

Inductive t : Type :=
| CreateFamily (label : string)
| JoinFamily (join_permit : list byte) (family_head : FamilyHead)
| LeaveFamily (family_head : FamilyHead)
| KickFamilyMember (member : IdentityKey)
| TrackReward (coin : Coin) (address : string)
| ClaimOperatorReward
| ClaimDelegatorReward (mix_id : MixId)
| UpdateMixnodeCostParams (new_costs : MixNodeCostParams)
| UpdateMixnodeConfig (new_config : MixNodeConfigUpdate)
| UpdateMixnetAddress (address : string)
| DelegateToMixnode (mix_id : MixId) (coin : Coin) (on_behalf_of : option string)
| UndelegateFromMixnode (mix_id : MixId) (on_behalf_of : option string)
| CreateAccount (owner_address : string) (staking_address : option string)
    (vesting_spec : option VestingSpecification) (cap : option PledgeCap)
| WithdrawVestedCoins (coin : Coin)
| TrackUndelegation (owner : string) (mix_id : MixId) (coin : Coin)
| BondMixnode (mix_node : MixNode) (cost_params : MixNodeCostParams) (owner_signature : list byte) (coin : Coin)
| PledgeMore (coin : Coin)
| DecreasePledge (coin : Coin)
| UnbondMixnode
| TrackUnbondMixnode (owner : string) (coin : Coin)
| TrackDecreasePledge (owner : string) (coin : Coin)
| BondGateway (gateway : Gateway) (owner_signature : list byte) (coin : Coin)
| UnbondGateway
| TrackUnbondGateway (owner : string) (coin : Coin)
| UpdateGatewayConfig (new_config : GatewayConfigUpdate)
| TransferOwnership (to_address : string)
| UpdateStakingAddress (to_address : option string)
| UpdateLockedPledgeCap (address : string) (cap : PledgeCap).

(** The messages the mixnet contract sends. *)
Definition of_track (m : VestingMsg) : t :=
  match m with
  | MixnetTypes.TrackReward amount address => TrackReward amount address
  | MixnetTypes.TrackUndelegation owner mix_id amount => TrackUndelegation owner mix_id amount
  | MixnetTypes.TrackUnbondMixnode owner amount => TrackUnbondMixnode owner amount
  | MixnetTypes.TrackDecreasePledge owner amount => TrackDecreasePledge owner amount
  | MixnetTypes.TrackUnbondGateway owner amount => TrackUnbondGateway owner amount
  end.

End VestingExecuteMsg.

(** The messages of the vesting contract's responses: payments, and calls of the mixnet contract
    with funds. *)
Inductive VestingOut : Type :=
| PayOut (to_address : string) (coins : list Coin)
| CallMixnet (contract : Addr) (msg : ExecuteMsg) (coins : list Coin).

Record InitMsg : Type := mkInit { init_mixnet_contract_address : string; init_mix_denom : string }.

(** ** Inversion of successful runs *)

(** Takes runs apart and replaces the results of arithmetic by their values. *)
Ltac vesting_inv :=
  run_inv;
  repeat match goal with
  | H : u64_mul _ _ = Ok _ |- _ => apply u64_mul_Ok in H as [-> H]
  | H : u64_add _ _ = Ok _ |- _ => apply u64_add_Ok in H as [-> H]
  | H : u32_add _ _ = Ok _ |- _ => apply u32_add_Ok in H as [-> H]
  | H : u128_add _ _ = Ok _ |- _ => apply u128_add_Ok in H as [-> H]
  | H : u128_sub _ _ = Ok _ |- _ => apply u128_sub_Ok in H as [-> H]
  | H : u128_mul _ _ = Ok _ |- _ => apply u128_mul_Ok in H as [-> H]
  end;
  math_inv.
