(* ===== verification/VestingStorage.v ===== *)
(** * Storage of the vesting contract

    Models [contracts/vesting/src/storage.rs].  The store is a record with one
    field per item or map of the source; the items are written by
    [instantiate], except the counter of storage keys, which is absent until
    the first account is created.  A range over a map visits its keys in
    ascending order: here it is the sorted list of the entries. *)

From S2P Require Import Prelude Bytes Cosmwasm MixnetTypes MixnetTransactions VestingTypes Paging.
#[local] Open Scope Z_scope.

(** ** The store *)

Abbreviation DelegationKey := (VestingAccountStorageKey * MixId * BlockTimestampSecs)%type.

Record VestingStore : Type := mkVestingStore {
  storage_key_counter : option VestingAccountStorageKey;
  accounts : gmap Addr Account.t;
  balances : gmap VestingAccountStorageKey Uint128;
  withdrawns : gmap VestingAccountStorageKey Uint128;
  bond_pledges : gmap VestingAccountStorageKey PledgeData;
  gateway_pledges : gmap VestingAccountStorageKey PledgeData;
  vesting_delegations : gmap DelegationKey Uint128;
  admin : Addr;
  mixnet_contract_address : Addr;
  mix_denom : string
}.

Definition set_storage_key_counter (s : VestingStore) (x : option VestingAccountStorageKey) : VestingStore :=
  mkVestingStore x (accounts s) (balances s) (withdrawns s) (bond_pledges s) (gateway_pledges s)
    (vesting_delegations s) (admin s) (mixnet_contract_address s) (mix_denom s).
Definition set_accounts (s : VestingStore) (x : gmap Addr Account.t) : VestingStore :=
  mkVestingStore (storage_key_counter s) x (balances s) (withdrawns s) (bond_pledges s) (gateway_pledges s)
    (vesting_delegations s) (admin s) (mixnet_contract_address s) (mix_denom s).
Definition set_balances (s : VestingStore) (x : gmap VestingAccountStorageKey Uint128) : VestingStore :=
  mkVestingStore (storage_key_counter s) (accounts s) x (withdrawns s) (bond_pledges s) (gateway_pledges s)
    (vesting_delegations s) (admin s) (mixnet_contract_address s) (mix_denom s).
Definition set_withdrawns (s : VestingStore) (x : gmap VestingAccountStorageKey Uint128) : VestingStore :=
  mkVestingStore (storage_key_counter s) (accounts s) (balances s) x (bond_pledges s) (gateway_pledges s)
    (vesting_delegations s) (admin s) (mixnet_contract_address s) (mix_denom s).
Definition set_bond_pledges (s : VestingStore) (x : gmap VestingAccountStorageKey PledgeData) : VestingStore :=
  mkVestingStore (storage_key_counter s) (accounts s) (balances s) (withdrawns s) x (gateway_pledges s)
    (vesting_delegations s) (admin s) (mixnet_contract_address s) (mix_denom s).
Definition set_gateway_pledges (s : VestingStore) (x : gmap VestingAccountStorageKey PledgeData) : VestingStore :=
  mkVestingStore (storage_key_counter s) (accounts s) (balances s) (withdrawns s) (bond_pledges s) x
    (vesting_delegations s) (admin s) (mixnet_contract_address s) (mix_denom s).
Definition set_vesting_delegations (s : VestingStore) (x : gmap DelegationKey Uint128) : VestingStore :=
  mkVestingStore (storage_key_counter s) (accounts s) (balances s) (withdrawns s) (bond_pledges s)
    (gateway_pledges s) x (admin s) (mixnet_contract_address s) (mix_denom s).
Definition set_mixnet_contract_address (s : VestingStore) (x : Addr) : VestingStore :=
  mkVestingStore (storage_key_counter s) (accounts s) (balances s) (withdrawns s) (bond_pledges s)
    (gateway_pledges s) (vesting_delegations s) (admin s) x (mix_denom s).

(** ** Ranges *)

(** [DELEGATIONS.range(..)], in the order of the keys. *)
Definition delegation_range (s : VestingStore) : list (DelegationKey * Uint128) := ascending (vesting_delegations s).

(** [DELEGATIONS.prefix((key, mix_id))] and [DELEGATIONS.sub_prefix(key)]. *)
Definition delegations_to (s : VestingStore) (key : VestingAccountStorageKey) (mix_id : MixId)
    : list (DelegationKey * Uint128) :=
  filter (fun kv => kv.1.1 = (key, mix_id)) (delegation_range s).

Definition delegations_by (s : VestingStore) (key : VestingAccountStorageKey) : list (DelegationKey * Uint128) :=
  filter (fun kv => kv.1.1.1 = key) (delegation_range s).

Section Storage.
Context `{CosmMath} `{ChainApi}.

(** [fold(Uint128::zero(), |acc, val| acc + val)]. *)
Fixpoint fold_amounts (acc : Uint128) (l : list (DelegationKey * Uint128)) : vresult Uint128 :=
  match l with
  | [] => Ok acc
  | kv :: l => let? acc := uadd acc kv.2 in fold_amounts acc l
  end.

(** ** Delegations *)

Definition save_delegation (s : VestingStore) (key : DelegationKey) (amount : Uint128) : vresult VestingStore :=
  let existing_delegation_amount := default 0 (vesting_delegations s !! key) in
  let? new_delegations_amount := uadd existing_delegation_amount amount in
  Ok (set_vesting_delegations s (<[key := new_delegations_amount]> (vesting_delegations s))).

Definition remove_delegation (s : VestingStore) (key : DelegationKey) : VestingStore :=
  set_vesting_delegations s (delete key (vesting_delegations s)).

Definition load_delegation_timestamps (s : VestingStore) (key : VestingAccountStorageKey) (mix_id : MixId)
    : list BlockTimestampSecs := (fun kv => kv.1.2) <$> delegations_to s key mix_id.

Definition count_subdelegations_for_mix (s : VestingStore) (key : VestingAccountStorageKey) (mix_id : MixId) : Z :=
  len (delegations_to s key mix_id) mod 2 ^ 32.

(** ** Balances, withdrawals and pledges *)

Definition load_withdrawn (s : VestingStore) (key : VestingAccountStorageKey) : Uint128 := default 0 (withdrawns s !! key).
Definition load_balance (s : VestingStore) (key : VestingAccountStorageKey) : Uint128 := default 0 (balances s !! key).

Definition save_balance (s : VestingStore) (key : VestingAccountStorageKey) (value : Uint128) : VestingStore :=
  set_balances s (<[key := value]> (balances s)).
Definition save_withdrawn (s : VestingStore) (key : VestingAccountStorageKey) (value : Uint128) : VestingStore :=
  set_withdrawns s (<[key := value]> (withdrawns s)).

Definition load_bond_pledge (s : VestingStore) (key : VestingAccountStorageKey) : option PledgeData := bond_pledges s !! key.
Definition remove_bond_pledge (s : VestingStore) (key : VestingAccountStorageKey) : VestingStore :=
  set_bond_pledges s (delete key (bond_pledges s)).
Definition save_bond_pledge (s : VestingStore) (key : VestingAccountStorageKey) (value : PledgeData) : VestingStore :=
  set_bond_pledges s (<[key := value]> (bond_pledges s)).

Definition decrease_bond_pledge (s : VestingStore) (key : VestingAccountStorageKey) (coin : Coin) : vresult VestingStore :=
  let? existing := or_err (bond_pledges s !! key) (VestingError.Std NotFound) in
  let current := pledge_amount existing in
  if amount current <=? amount coin then Err (VestingError.InvalidBondPledgeReduction current coin)
  else
    let? reduced := usub (amount current) (amount coin) in
    Ok (save_bond_pledge s key (mkPledge (mkCoin (denom current) reduced) (pledge_block_time existing))).

Definition load_gateway_pledge (s : VestingStore) (key : VestingAccountStorageKey) : option PledgeData :=
  gateway_pledges s !! key.
Definition save_gateway_pledge (s : VestingStore) (key : VestingAccountStorageKey) (value : PledgeData) : VestingStore :=
  set_gateway_pledges s (<[key := value]> (gateway_pledges s)).
Definition remove_gateway_pledge (s : VestingStore) (key : VestingAccountStorageKey) : VestingStore :=
  set_gateway_pledges s (delete key (gateway_pledges s)).

(** ** Accounts *)

Definition save_account (s : VestingStore) (account : Account.t) : VestingStore :=
  set_accounts s (<[Account.owner_address account := account]> (accounts s)).
Definition load_account (s : VestingStore) (address : Addr) : option Account.t := accounts s !! address.
Definition delete_account (s : VestingStore) (address : Addr) : VestingStore :=
  set_accounts s (delete address (accounts s)).

Definition validate_account (s : VestingStore) (address : Addr) : vresult Account.t :=
  or_err (load_account s address) (VestingError.NoAccountForAddress address).

(** [Api::addr_validate] with the error of the vesting contract. *)
Definition vesting_addr_validate (address : string) : vresult Addr :=
  or_err (addr_validate address) (VestingError.Std (InvalidAddress address)).

Definition account_from_address (s : VestingStore) (address : string) : vresult Account.t :=
  let? a := vesting_addr_validate address in validate_account s a.

End Storage.
