(* ===== verification/VestingAccount.v ===== *)
(** * Accounts of the vesting contract

    Models [contracts/vesting/src/vesting/account/*.rs], the methods of an
    account that need the contract's storage: what is vested and spendable,
    staking in the mixnet contract, and the tracking of what the mixnet
    contract returns. *)

From S2P Require Import Prelude Bytes Cosmwasm MixnetTypes MixnetTransactions VestingTypes VestingStorage.
From Stdlib.Strings Require Import Byte.
#[local] Open Scope Z_scope.

Definition MAX_PER_MIX_DELEGATIONS : Z := 25.

(** Updates of the store, with the messages to send. *)
Abbreviation vtx := (vresult (VestingStore * list VestingOut)).

Module AccountExt.

Section Account.
Context `{CosmMath} `{TimestampApi}.

Implicit Types (a : Account.t) (s : VestingStore).

(** ** [account/mod.rs] *)

Definition generate_storage_key s : vresult (VestingAccountStorageKey * VestingStore) :=
  let? key := u32_add (default 0 (storage_key_counter s)) 1 in
  Ok (key, set_storage_key_counter s (Some key)).

Definition save_new s (owner_address : Addr) (staking_address : option Addr) (coin : Coin) (start_time : Timestamp)
    (periods : list VestingPeriod) (pledge_cap : option PledgeCap) : vresult (Account.t * VestingStore) :=
  let? (storage_key, s) := generate_storage_key s in
  let account := Account.mk owner_address staking_address start_time periods coin storage_key pledge_cap in
  let s := save_account s account in
  Ok (account, save_balance s storage_key (amount coin)).

Definition any_delegation_for_mix a (mix_id : MixId) s : bool :=
  negb (bool_decide (delegations_to s (Account.storage_key a) mix_id = [])).

Definition remove_delegations_for_mix a (mix_id : MixId) s : VestingStore :=
  foldl (fun s block_timestamp => remove_delegation s (Account.storage_key a, mix_id, block_timestamp)) s
    (load_delegation_timestamps s (Account.storage_key a) mix_id).

Definition total_delegations_for_mix a (mix_id : MixId) s : vresult Uint128 :=
  fold_amounts 0 (delegations_to s (Account.storage_key a) mix_id).

Definition total_delegations a s : vresult Uint128 := fold_amounts 0 (delegations_by s (Account.storage_key a)).

Definition total_delegations_at_timestamp a s (start_time : BlockTimestampSecs) : vresult Uint128 :=
  fold_amounts 0 (filter (fun kv => kv.1.2 <= start_time) (delegations_by s (Account.storage_key a))).

Definition total_pledged a s : Uint128 :=
  match load_bond_pledge s (Account.storage_key a), load_gateway_pledge s (Account.storage_key a) with
  | Some bond, _ => amount (pledge_amount bond)
  | None, Some bond => amount (pledge_amount bond)
  | None, None => 0
  end.

(** ** [account/vesting_account.rs] *)

Definition total_staked a s : vresult Uint128 :=
  let? delegated := total_delegations a s in uadd delegated (total_pledged a s).

Definition get_original_vesting a : vresult OriginalVestingResponse :=
  let? duration := Account.period_duration a in
  Ok (mkOriginal (Account.coin a) (Account.num_vesting_periods a) duration).

Definition get_vested_coins a (block_time : option Timestamp) (env : Env) s : vresult Coin :=
  let block_time := default (env_time env) block_time in
  let? period := Account.get_current_vesting_period a block_time in
  let denom := mix_denom s in
  match period with
  | Before => Ok (mkCoin denom 0)
  | In idx =>
      let? per_period := Account.tokens_per_period a in
      let? vested := u128_mul per_period idx in
      Ok (mkCoin denom vested)
  | After => Ok (mkCoin denom (amount (Account.coin a)))
  end.

Definition get_vesting_coins a (block_time : option Timestamp) (env : Env) s : vresult Coin :=
  let? original := get_original_vesting a in
  let? vested := get_vested_coins a block_time env s in
  let? vesting := usub (amount (ov_amount original)) (amount vested) in
  Ok (mkCoin (mix_denom s) vesting).

Definition locked_coins a (block_time : option Timestamp) (env : Env) s : vresult Coin :=
  let? still_vesting := get_vesting_coins a block_time env s in
  let? staked := total_staked a s in
  Ok (mkCoin (mix_denom s) (saturating_sub (amount still_vesting) staked)).

Definition spendable_coins a (block_time : option Timestamp) (env : Env) s : vresult Coin :=
  let? locked := locked_coins a block_time env s in
  Ok (mkCoin (mix_denom s) (saturating_sub (load_balance s (Account.storage_key a)) (amount locked))).

Definition spendable_vested_coins a (block_time : option Timestamp) (env : Env) s : vresult Coin :=
  let? vested := get_vested_coins a block_time env s in
  let withdrawn := load_withdrawn s (Account.storage_key a) in
  let not_withdrawn_vested := saturating_sub (amount vested) withdrawn in
  if not_withdrawn_vested =? 0 then Ok (mkCoin (denom vested) 0)
  else
    let? spendable := spendable_coins a block_time env s in
    Ok (mkCoin (denom spendable) (Z.min (amount spendable) not_withdrawn_vested)).

(** [checked_sub] with [?]. *)
Definition checked_sub (x y : Uint128) : vresult Uint128 := or_err (uint_sub x y) VestingError.OverflowError.

Definition spendable_reward_coins a (block_time : option Timestamp) (env : Env) s : vresult Coin :=
  let? spendable := spendable_coins a block_time env s in
  let? spendable_vested := spendable_vested_coins a block_time env s in
  let? rewards := checked_sub (amount spendable) (amount spendable_vested) in
  Ok (mkCoin (denom spendable) rewards).

Definition get_end_time a : vresult Timestamp :=
  match last (Account.periods a) with
  | Some p => Account.end_time p
  | None => Panic Overflow
  end.

Definition transfer_ownership a (to_address : Addr) s : VestingStore :=
  save_account (delete_account s (Account.owner_address a)) (Account.set_owner a to_address).

Definition update_staking_address a (to_address : option Addr) s : VestingStore :=
  let s :=
    match Account.staking_address a with
    | Some staking_address => delete_account s staking_address
    | None => s
    end in
  save_account s (Account.set_staking a to_address).

Definition track_reward a (coin : Coin) s : vresult VestingStore :=
  let? new_balance := uadd (load_balance s (Account.storage_key a)) (amount coin) in
  Ok (save_balance s (Account.storage_key a) new_balance).

Definition get_historical_vested_staking_rewards a s : vresult Coin :=
  let? staked := total_staked a s in
  let? total := uadd (load_balance s (Account.storage_key a)) (load_withdrawn s (Account.storage_key a)) in
  let? total := uadd total staked in
  let? rewards := checked_sub total (amount (Account.coin a)) in
  Ok (mkCoin (denom (Account.coin a)) rewards).

(** ** Staking, [account/mod.rs] *)

Definition absolute_pledge_cap a : vresult Uint128 :=
  match Account.pledge_cap a with
  | CapAbsolute cap => Ok cap
  | CapPercent p =>
      let? original := get_original_vesting a in
      dmulu (Percent.value p) (amount (ov_amount original))
  end.

Definition ensure_valid_additional_stake a (additional_stake : Coin) s : vresult Uint128 :=
  let current_balance := load_balance s (Account.storage_key a) in
  let? current_total_staked := total_staked a s in
  let? total_staked_after := uadd current_total_staked (amount additional_stake) in
  let? locked_pledge_cap := absolute_pledge_cap a in
  if locked_pledge_cap <? total_staked_after
  then Err (VestingError.LockedPledgeCapReached total_staked_after locked_pledge_cap)
  else if current_balance <? amount additional_stake
  then Err (VestingError.InsufficientBalance (Account.owner_address a) current_balance)
  else Ok current_balance.

Definition withdraw a (coin : Coin) s : vresult VestingStore :=
  let new_balance := saturating_sub (load_balance s (Account.storage_key a)) (amount coin) in
  let s := save_balance s (Account.storage_key a) new_balance in
  let? withdrawn := uadd (load_withdrawn s (Account.storage_key a)) (amount coin) in
  Ok (save_withdrawn s (Account.storage_key a) withdrawn).

(** A call of the mixnet contract. *)
Definition call_mixnet s (msg : ExecuteMsg) (coins : list Coin) : VestingOut :=
  CallMixnet (mixnet_contract_address s) msg coins.

(** ** [account/delegating_account.rs] *)

Definition try_claim_delegator_reward a (mix_id : MixId) s : vtx :=
  Ok (s, [call_mixnet s (MsgWithdrawDelegatorRewardOnBehalf mix_id (Account.owner_address a)) []]).

Definition track_delegation a (block_timestamp_secs : BlockTimestampSecs) (mix_id : MixId) (current_balance : Uint128)
    (delegation : Coin) s : vresult VestingStore :=
  let? s := save_delegation s (Account.storage_key a, mix_id, block_timestamp_secs) (amount delegation) in
  let? new_balance := u128_sub current_balance (amount delegation) in
  Ok (save_balance s (Account.storage_key a) new_balance).

Definition track_undelegation a (mix_id : MixId) (coin : Coin) s : vresult VestingStore :=
  let s := remove_delegations_for_mix a mix_id s in
  let? new_balance := u128_add (load_balance s (Account.storage_key a)) (amount coin) in
  Ok (save_balance s (Account.storage_key a) new_balance).

Definition try_delegate_to_mixnode a (mix_id : MixId) (coin : Coin) (env : Env) s : vtx :=
  let? current_balance := ensure_valid_additional_stake a coin s in
  let num_subdelegations := count_subdelegations_for_mix s (Account.storage_key a) mix_id in
  if MAX_PER_MIX_DELEGATIONS <=? num_subdelegations
  then Err (VestingError.TooManyDelegations (Account.owner_address a) (Account.storage_key a) mix_id
              num_subdelegations MAX_PER_MIX_DELEGATIONS)
  else
    let msg := call_mixnet s (MsgDelegateToMixnodeOnBehalf mix_id (Account.owner_address a)) [coin] in
    let? s := track_delegation a (block_time_secs env) mix_id current_balance coin s in
    Ok (s, [msg]).

Definition try_undelegate_from_mixnode a (mix_id : MixId) s : vtx :=
  if any_delegation_for_mix a mix_id s
  then Ok (s, [call_mixnet s (MsgUndelegateFromMixnodeOnBehalf mix_id (Account.owner_address a)) []])
  else Err (VestingError.NoSuchDelegation (Account.owner_address a) mix_id).

(** ** [account/mixnode_bonding_account.rs] *)

Definition try_claim_operator_reward a s : vtx :=
  Ok (s, [call_mixnet s (MsgWithdrawOperatorRewardOnBehalf (Account.owner_address a)) []]).

Definition try_bond_mixnode a (mix_node : MixNode) (cost_params : MixNodeCostParams) (owner_signature : list byte)
    (pledge : Coin) (env : Env) s : vtx :=
  let key := Account.storage_key a in
  let? current_balance := ensure_valid_additional_stake a pledge s in
  match load_bond_pledge s key with
  | Some _ => Err (VestingError.AlreadyBonded (Account.owner_address a))
  | None =>
      let pledge_data := mkPledge pledge (env_time env) in
      let msg := MsgBondMixnodeOnBehalf mix_node cost_params owner_signature (Account.owner_address a) in
      let? new_balance := u128_sub current_balance (amount pledge) in
      let out := call_mixnet s msg [pledge] in
      let s := save_balance s key new_balance in
      Ok (save_bond_pledge s key pledge_data, [out])
  end.

Definition try_pledge_additional_tokens a (additional_pledge : Coin) (env : Env) s : vtx :=
  let key := Account.storage_key a in
  let? current_balance := ensure_valid_additional_stake a additional_pledge s in
  let? pledge_data := or_err (load_bond_pledge s key) (VestingError.NoBondFound (Account.owner_address a)) in
  let current := pledge_amount pledge_data in
  let? increased := uadd (amount current) (amount additional_pledge) in
  let pledge_data := mkPledge (mkCoin (denom current) increased) (env_time env) in
  let? new_balance := u128_sub current_balance (amount additional_pledge) in
  let out := call_mixnet s (MsgPledgeMoreOnBehalf (Account.owner_address a)) [additional_pledge] in
  let s := save_balance s key new_balance in
  Ok (save_bond_pledge s key pledge_data, [out]).

Definition try_decrease_mixnode_pledge a (coin : Coin) s : vtx :=
  match load_bond_pledge s (Account.storage_key a) with
  | Some pledge =>
      if amount (pledge_amount pledge) <=? amount coin
      then Err (VestingError.InvalidBondPledgeReduction (pledge_amount pledge) coin)
      else Ok (s, [call_mixnet s (MsgDecreasePledgeOnBehalf (Account.owner_address a) coin) []])
  | None => Err (VestingError.NoBondFound (Account.owner_address a))
  end.

Definition try_track_decrease_mixnode_pledge a (coin : Coin) s : vresult VestingStore :=
  let? new_balance := u128_add (load_balance s (Account.storage_key a)) (amount coin) in
  let s := save_balance s (Account.storage_key a) new_balance in
  decrease_bond_pledge s (Account.storage_key a) coin.

Definition try_unbond_mixnode a s : vtx :=
  match load_bond_pledge s (Account.storage_key a) with
  | Some _ => Ok (s, [call_mixnet s (MsgUnbondMixnodeOnBehalf (Account.owner_address a)) []])
  | None => Err (VestingError.NoBondFound (Account.owner_address a))
  end.

Definition try_track_unbond_mixnode a (coin : Coin) s : vresult VestingStore :=
  let? new_balance := u128_add (load_balance s (Account.storage_key a)) (amount coin) in
  let s := save_balance s (Account.storage_key a) new_balance in
  Ok (remove_bond_pledge s (Account.storage_key a)).

Definition try_update_mixnode_config a (new_config : MixNodeConfigUpdate) s : vtx :=
  Ok (s, [call_mixnet s (MsgUpdateMixnodeConfigOnBehalf new_config (Account.owner_address a)) []]).

Definition try_update_mixnode_cost_params a (new_costs : MixNodeCostParams) s : vtx :=
  Ok (s, [call_mixnet s (MsgUpdateMixnodeCostParamsOnBehalf new_costs (Account.owner_address a)) []]).

(** ** [account/gateway_bonding_account.rs] *)

Definition try_bond_gateway a (gateway : Gateway) (owner_signature : list byte) (pledge : Coin) (env : Env) s : vtx :=
  let key := Account.storage_key a in
  let? current_balance := ensure_valid_additional_stake a pledge s in
  match load_gateway_pledge s key with
  | Some _ => Err (VestingError.AlreadyBonded (Account.owner_address a))
  | None =>
      let pledge_data := mkPledge pledge (env_time env) in
      let msg := MsgBondGatewayOnBehalf gateway (Account.owner_address a) owner_signature in
      let? new_balance := u128_sub current_balance (amount pledge) in
      let out := call_mixnet s msg [pledge] in
      let s := save_balance s key new_balance in
      Ok (save_gateway_pledge s key pledge_data, [out])
  end.

Definition try_unbond_gateway a s : vtx :=
  match load_gateway_pledge s (Account.storage_key a) with
  | Some _ => Ok (s, [call_mixnet s (MsgUnbondGatewayOnBehalf (Account.owner_address a)) []])
  | None => Err (VestingError.NoBondFound (Account.owner_address a))
  end.

Definition try_track_unbond_gateway a (coin : Coin) s : vresult VestingStore :=
  let? new_balance := u128_add (load_balance s (Account.storage_key a)) (amount coin) in
  let s := save_balance s (Account.storage_key a) new_balance in
  Ok (remove_gateway_pledge s (Account.storage_key a)).

Definition try_update_gateway_config a (new_config : GatewayConfigUpdate) s : vtx :=
  Ok (s, [call_mixnet s (MsgUpdateGatewayConfigOnBehalf new_config (Account.owner_address a)) []]).

(** ** [account/node_families.rs] *)

Definition try_create_family a s (label : string) : vtx :=
  Ok (s, [call_mixnet s (MsgCreateFamilyOnBehalf (Account.owner_address a) label) []]).

Definition try_join_family a s (join_permit : list byte) (family_head : FamilyHead) : vtx :=
  Ok (s, [call_mixnet s (MsgJoinFamilyOnBehalf (Account.owner_address a) join_permit family_head) []]).

Definition try_leave_family a s (family_head : FamilyHead) : vtx :=
  Ok (s, [call_mixnet s (MsgLeaveFamilyOnBehalf (Account.owner_address a) family_head) []]).

Definition try_head_kick_member a s (member : IdentityKey) : vtx :=
  Ok (s, [call_mixnet s (MsgKickFamilyMemberOnBehalf (Account.owner_address a) member) []]).

End Account.

End AccountExt.
