(* ===== verification/VestingTransactions.v ===== *)
(** * Transactions of the vesting contract

    Models [contracts/vesting/src/transactions.rs] and the entry points
    [instantiate] and [execute] of [contract.rs]. *)

From S2P Require Import Prelude Bytes Cosmwasm MixnetTypes MixnetStorage MixnetTransactions.
From S2P Require Import VestingTypes VestingStorage VestingAccount.
From Stdlib.Strings Require Import Byte.
#[local] Open Scope Z_scope.

Module Vesting.

Section Transactions.
Context `{CosmMath} `{ChainApi} `{TimestampApi}.

Implicit Types (s : VestingStore) (info : MessageInfo) (env : Env).

(** ** Checks, [contract.rs] *)

Definition validate_funds (funds : list Coin) (mix_denom : string) : vresult Coin :=
  match funds with
  | [] => Err VestingError.EmptyFunds
  | c :: rest =>
      if amount c =? 0 then Err VestingError.EmptyFunds
      else if 1 <? len (c :: rest) then Err VestingError.MultipleDenoms
      else if addr_eqb (denom c) mix_denom then Ok c
      else Err (VestingError.WrongDenom (denom c) mix_denom)
  end.

Definition ensure_staking_permission (addr : Addr) (account : Account.t) : vresult unit :=
  ensure (bool_decide (Account.staking_address account = Some addr))
    (VestingError.InvalidStakingAccount addr (Account.owner_address account)).

(** The sender must be the admin, or the mixnet contract. *)
Definition ensure_admin s info : vresult unit :=
  ensure (addr_eqb (sender info) (admin s)) (VestingError.NotAdmin (sender info)).

Definition ensure_mixnet_contract s info : vresult unit :=
  ensure (addr_eqb (sender info) (mixnet_contract_address s)) (VestingError.NotMixnetContract (sender info)).

(** ** Families *)

Definition try_create_family s info (label : string) : vtx :=
  let? account := account_from_address s (sender info) in
  AccountExt.try_create_family account s label.

Definition try_join_family s info (join_permit : list byte) (family_head : FamilyHead) : vtx :=
  let? account := account_from_address s (sender info) in
  AccountExt.try_join_family account s join_permit family_head.

Definition try_leave_family s info (family_head : FamilyHead) : vtx :=
  let? account := account_from_address s (sender info) in
  AccountExt.try_leave_family account s family_head.

Definition try_kick_family_member s info (member : string) : vtx :=
  let? account := account_from_address s (sender info) in
  AccountExt.try_head_kick_member account s member.

(** ** Settings *)

Definition try_update_locked_pledge_cap s info (address : string) (cap : PledgeCap) : vtx :=
  let? _ := ensure_admin s info in
  let? account := account_from_address s address in
  Ok (save_account s (Account.set_cap account cap), []).

Definition try_update_mixnode_config s info (new_config : MixNodeConfigUpdate) : vtx :=
  let? account := account_from_address s (sender info) in
  AccountExt.try_update_mixnode_config account new_config s.

Definition try_update_gateway_config s info (new_config : GatewayConfigUpdate) : vtx :=
  let? account := account_from_address s (sender info) in
  AccountExt.try_update_gateway_config account new_config s.

Definition try_update_mixnode_cost_params s info (new_costs : MixNodeCostParams) : vtx :=
  let? account := account_from_address s (sender info) in
  AccountExt.try_update_mixnode_cost_params account new_costs s.

Definition try_update_mixnet_address s info (address : string) : vtx :=
  let? _ := ensure_admin s info in
  let? mixnet_contract_address := vesting_addr_validate address in
  Ok (set_mixnet_contract_address s mixnet_contract_address, []).

(** ** Owners *)

Definition try_withdraw_vested_coins s env info (coin : Coin) : vtx :=
  let? _ := ensure (addr_eqb (denom coin) (mix_denom s)) (VestingError.WrongDenom (denom coin) (mix_denom s)) in
  let address := sender info in
  let? account := account_from_address s address in
  let? _ := ensure (addr_eqb address (Account.owner_address account))
              (VestingError.NotOwner (Account.owner_address account)) in
  let? spendable := AccountExt.spendable_coins account None env s in
  if amount coin <=? amount spendable then
    let? s := AccountExt.withdraw account coin s in
    Ok (s, [PayOut (Account.owner_address account) [coin]])
  else Err (VestingError.InsufficientSpendable (Account.owner_address account) (amount spendable)).

Definition try_transfer_ownership s info (to_address : string) : vtx :=
  let address := sender info in
  let? to_address := vesting_addr_validate to_address in
  let? account := account_from_address s address in
  let? _ := ensure (addr_eqb address (Account.owner_address account))
              (VestingError.NotOwner (Account.owner_address account)) in
  Ok (AccountExt.transfer_ownership account to_address s, []).

(** [account_from_address(..).is_ok()]. *)
Definition account_exists s (address : string) : bool :=
  match account_from_address s address with Ok _ => true | _ => false end.

Definition try_update_staking_address s info (to_address : option string) : vtx :=
  let? _ :=
    (match to_address with
     | Some to_address => ensure (negb (account_exists s to_address)) (VestingError.StakingAccountExists to_address)
     | None => Ok tt
     end) in
  let address := sender info in
  let to_address := to_address ≫= addr_validate in
  let? account := account_from_address s address in
  let? _ := ensure (addr_eqb address (Account.owner_address account))
              (VestingError.NotOwner (Account.owner_address account)) in
  Ok (AccountExt.update_staking_address account to_address s, []).

(** ** Gateways *)

Definition try_bond_gateway s env info (gateway : Gateway) (owner_signature : list byte) (coin : Coin) : vtx :=
  let? pledge := validate_funds [coin] (mix_denom s) in
  let? account := account_from_address s (sender info) in
  AccountExt.try_bond_gateway account gateway owner_signature pledge env s.

Definition try_unbond_gateway s info : vtx :=
  let? account := account_from_address s (sender info) in
  AccountExt.try_unbond_gateway account s.

Definition try_track_unbond_gateway s info (owner : string) (coin : Coin) : vtx :=
  let? _ := ensure_mixnet_contract s info in
  let? account := account_from_address s owner in
  let? s := AccountExt.try_track_unbond_gateway account coin s in
  Ok (s, []).

(** ** Mixnodes *)

Definition try_bond_mixnode s env info (mix_node : MixNode) (cost_params : MixNodeCostParams)
    (owner_signature : list byte) (coin : Coin) : vtx :=
  let? pledge := validate_funds [coin] (mix_denom s) in
  let? account := account_from_address s (sender info) in
  AccountExt.try_bond_mixnode account mix_node cost_params owner_signature pledge env s.

Definition try_pledge_more s env info (coin : Coin) : vtx :=
  let? additional_pledge := validate_funds [coin] (mix_denom s) in
  let? account := account_from_address s (sender info) in
  AccountExt.try_pledge_additional_tokens account additional_pledge env s.

Definition try_decrease_pledge s info (coin : Coin) : vtx :=
  let? decrease := validate_funds [coin] (mix_denom s) in
  let? account := account_from_address s (sender info) in
  AccountExt.try_decrease_mixnode_pledge account decrease s.

Definition try_unbond_mixnode s info : vtx :=
  let? account := account_from_address s (sender info) in
  AccountExt.try_unbond_mixnode account s.

Definition try_track_unbond_mixnode s info (owner : string) (coin : Coin) : vtx :=
  let? _ := ensure_mixnet_contract s info in
  let? account := account_from_address s owner in
  let? s := AccountExt.try_track_unbond_mixnode account coin s in
  Ok (s, []).

Definition try_track_decrease_mixnode_pledge s info (owner : string) (coin : Coin) : vtx :=
  let? _ := ensure_mixnet_contract s info in
  let? account := account_from_address s owner in
  let? s := AccountExt.try_track_decrease_mixnode_pledge account coin s in
  Ok (s, []).

(** ** Delegations and rewards *)

Definition try_track_reward s info (coin : Coin) (address : string) : vtx :=
  let? _ := ensure_mixnet_contract s info in
  let? account := account_from_address s address in
  let? s := AccountExt.track_reward account coin s in
  Ok (s, []).

Definition try_track_undelegation s info (address : string) (mix_id : MixId) (coin : Coin) : vtx :=
  let? _ := ensure_mixnet_contract s info in
  let? account := account_from_address s address in
  let? s := AccountExt.track_undelegation account mix_id coin s in
  Ok (s, []).

(** The account of the sender, or one whose staking the sender may manage. *)
Definition staking_account s info (on_behalf_of : option string) : vresult Account.t :=
  match on_behalf_of with
  | Some account_owner =>
      let? account := account_from_address s account_owner in
      let? _ := ensure_staking_permission (sender info) account in
      Ok account
  | None => account_from_address s (sender info)
  end.

Definition try_delegate_to_mixnode s env info (mix_id : MixId) (coin : Coin) (on_behalf_of : option string) : vtx :=
  let? coin := validate_funds [coin] (mix_denom s) in
  let? account := staking_account s info on_behalf_of in
  AccountExt.try_delegate_to_mixnode account mix_id coin env s.

Definition try_claim_operator_reward s info : vtx :=
  let? account := account_from_address s (sender info) in
  AccountExt.try_claim_operator_reward account s.

Definition try_claim_delegator_reward s info (mix_id : MixId) : vtx :=
  let? account := account_from_address s (sender info) in
  AccountExt.try_claim_delegator_reward account mix_id s.

Definition try_undelegate_from_mixnode s info (mix_id : MixId) (on_behalf_of : option string) : vtx :=
  let? account := staking_account s info on_behalf_of in
  AccountExt.try_undelegate_from_mixnode account mix_id s.

(** ** New accounts *)

Definition try_create_periodic_vesting_account s env info (owner_address : string) (staking_address : option string)
    (vesting_spec : option VestingSpecification) (cap : option PledgeCap) : vtx :=
  let? _ := ensure_admin s info in
  let? _ := ensure (negb (account_exists s owner_address)) (VestingError.AccountAlreadyExists owner_address) in
  let vesting_spec := default default_specification vesting_spec in
  let? coin := validate_funds (funds info) (mix_denom s) in
  let? owner_address := vesting_addr_validate owner_address in
  let? staking_address :=
    (match staking_address with
     | Some staking_address =>
         let? _ := ensure (negb (account_exists s staking_address))
                     (VestingError.StakingAccountAlreadyExists staking_address) in
         let? a := vesting_addr_validate staking_address in
         Ok (Some a)
     | None => Ok None
     end) in
  let start_time := default (block_time_secs env) (spec_start_time vesting_spec) in
  let? periods := populate_vesting_periods start_time vesting_spec in
  let? start_time := or_panic (timestamp_from_seconds start_time) Overflow in
  let? (_, s) := AccountExt.save_new s owner_address staking_address coin start_time periods cap in
  Ok (s, []).

(** ** Entry points, [contract.rs] *)

Definition execute s env info (msg : VestingExecuteMsg.t) : vtx :=
  match msg with
  | VestingExecuteMsg.CreateFamily label => try_create_family s info label
  | VestingExecuteMsg.JoinFamily join_permit family_head => try_join_family s info join_permit family_head
  | VestingExecuteMsg.LeaveFamily family_head => try_leave_family s info family_head
  | VestingExecuteMsg.KickFamilyMember member => try_kick_family_member s info member
  | VestingExecuteMsg.UpdateLockedPledgeCap address cap => try_update_locked_pledge_cap s info address cap
  | VestingExecuteMsg.TrackReward coin address => try_track_reward s info coin address
  | VestingExecuteMsg.ClaimOperatorReward => try_claim_operator_reward s info
  | VestingExecuteMsg.ClaimDelegatorReward mix_id => try_claim_delegator_reward s info mix_id
  | VestingExecuteMsg.UpdateMixnodeConfig new_config => try_update_mixnode_config s info new_config
  | VestingExecuteMsg.UpdateMixnodeCostParams new_costs => try_update_mixnode_cost_params s info new_costs
  | VestingExecuteMsg.UpdateMixnetAddress address => try_update_mixnet_address s info address
  | VestingExecuteMsg.DelegateToMixnode mix_id coin on_behalf_of =>
      try_delegate_to_mixnode s env info mix_id coin on_behalf_of
  | VestingExecuteMsg.UndelegateFromMixnode mix_id on_behalf_of =>
      try_undelegate_from_mixnode s info mix_id on_behalf_of
  | VestingExecuteMsg.CreateAccount owner_address staking_address vesting_spec cap =>
      try_create_periodic_vesting_account s env info owner_address staking_address vesting_spec cap
  | VestingExecuteMsg.WithdrawVestedCoins coin => try_withdraw_vested_coins s env info coin
  | VestingExecuteMsg.TrackUndelegation owner mix_id coin => try_track_undelegation s info owner mix_id coin
  | VestingExecuteMsg.BondMixnode mix_node cost_params owner_signature coin =>
      try_bond_mixnode s env info mix_node cost_params owner_signature coin
  | VestingExecuteMsg.PledgeMore coin => try_pledge_more s env info coin
  | VestingExecuteMsg.DecreasePledge coin => try_decrease_pledge s info coin
  | VestingExecuteMsg.UnbondMixnode => try_unbond_mixnode s info
  | VestingExecuteMsg.TrackUnbondMixnode owner coin => try_track_unbond_mixnode s info owner coin
  | VestingExecuteMsg.TrackDecreasePledge owner coin => try_track_decrease_mixnode_pledge s info owner coin
  | VestingExecuteMsg.BondGateway gateway owner_signature coin =>
      try_bond_gateway s env info gateway owner_signature coin
  | VestingExecuteMsg.UnbondGateway => try_unbond_gateway s info
  | VestingExecuteMsg.TrackUnbondGateway owner coin => try_track_unbond_gateway s info owner coin
  | VestingExecuteMsg.UpdateGatewayConfig new_config => try_update_gateway_config s info new_config
  | VestingExecuteMsg.TransferOwnership to_address => try_transfer_ownership s info to_address
  | VestingExecuteMsg.UpdateStakingAddress to_address => try_update_staking_address s info to_address
  end.

Definition instantiate info (msg : InitMsg) : vresult VestingStore :=
  let? mixnet_contract_address := vesting_addr_validate (init_mixnet_contract_address msg) in
  Ok (mkVestingStore None ∅ ∅ ∅ ∅ ∅ ∅ (sender info) mixnet_contract_address (init_mix_denom msg)).

End Transactions.

End Vesting.

(** The handlers, for taking their runs apart. *)
Create HintDb vesting.
#[export] Hint Unfold
  Vesting.try_create_family Vesting.try_join_family Vesting.try_leave_family Vesting.try_kick_family_member
  Vesting.try_update_locked_pledge_cap Vesting.try_update_mixnode_config Vesting.try_update_gateway_config
  Vesting.try_update_mixnode_cost_params Vesting.try_update_mixnet_address Vesting.try_withdraw_vested_coins
  Vesting.try_transfer_ownership Vesting.try_update_staking_address Vesting.try_bond_gateway
  Vesting.try_unbond_gateway Vesting.try_track_unbond_gateway Vesting.try_bond_mixnode Vesting.try_pledge_more
  Vesting.try_decrease_pledge Vesting.try_unbond_mixnode Vesting.try_track_unbond_mixnode
  Vesting.try_track_decrease_mixnode_pledge Vesting.try_track_reward Vesting.try_track_undelegation
  Vesting.try_delegate_to_mixnode Vesting.try_claim_operator_reward Vesting.try_claim_delegator_reward
  Vesting.try_undelegate_from_mixnode Vesting.try_create_periodic_vesting_account
  AccountExt.generate_storage_key AccountExt.save_new AccountExt.transfer_ownership
  AccountExt.update_staking_address AccountExt.track_reward AccountExt.try_claim_delegator_reward
  AccountExt.track_delegation AccountExt.track_undelegation AccountExt.try_delegate_to_mixnode
  AccountExt.try_undelegate_from_mixnode AccountExt.try_claim_operator_reward
  AccountExt.try_bond_mixnode AccountExt.try_pledge_additional_tokens
  AccountExt.try_decrease_mixnode_pledge AccountExt.try_track_decrease_mixnode_pledge
  AccountExt.try_unbond_mixnode AccountExt.try_track_unbond_mixnode
  AccountExt.try_update_mixnode_config AccountExt.try_update_mixnode_cost_params
  AccountExt.try_bond_gateway AccountExt.try_unbond_gateway AccountExt.try_track_unbond_gateway
  AccountExt.try_update_gateway_config AccountExt.try_create_family AccountExt.try_join_family
  AccountExt.try_leave_family AccountExt.try_head_kick_member : vesting.
