(* ===== verification/VestingBooks.v ===== *)
(** * The books of the vesting contract

    What the contract records for an account: its balance, its delegations
    and pledges in the mixnet contract, and what it has withdrawn.  Every
    message moves tokens between these, except for what the mixnet contract
    returns on top of what was staked. *)

From S2P Require Import Prelude Bytes Cosmwasm MixnetTypes MixnetStorage MixnetTransactions Accounting Paging.
From S2P Require Import VestingTypes VestingStorage VestingAccount VestingTransactions.
From stdpp Require Import sorting.
#[local] Open Scope Z_scope.

(** ** Sums of delegations *)

Definition delegated_to_mix (s : VestingStore) (key : VestingAccountStorageKey) (mix_id : MixId) : Z :=
  ksum (fun k v => if bool_decide (k.1 = (key, mix_id)) then v else 0) (vesting_delegations s).

Definition delegated (s : VestingStore) (key : VestingAccountStorageKey) : Z :=
  ksum (fun k v => if bool_decide (k.1.1 = key) then v else 0) (vesting_delegations s).

Lemma delegation_range_perm s : delegation_range s ≡ₚ map_to_list (vesting_delegations s).
Proof. apply ascending_perm. Qed.

(** The sum over a filtered range is a sum over the map. *)
Lemma filtered_range_sum (P : DelegationKey * Uint128 -> Prop) `{forall kv, Decision (P kv)} s :
  zsum (snd <$> filter P (delegation_range s)) =
  ksum (fun k v => if bool_decide (P (k, v)) then v else 0) (vesting_delegations s).
Proof.
  unfold ksum. rewrite <- (zsum_perm _ _ (fmap_Permutation _ _ _ (delegation_range_perm s))).
  induction (delegation_range s) as [|[k v] l IH]; [done|]. rewrite filter_cons, fmap_cons, zsum_cons, <- IH. simpl.
  destruct (decide (P (k, v))); [rewrite bool_decide_true by done|rewrite bool_decide_false by done]; done.
Qed.

Lemma delegations_to_sum s key i : zsum (snd <$> delegations_to s key i) = delegated_to_mix s key i.
Proof. apply filtered_range_sum. Qed.

Lemma delegations_by_sum s key : zsum (snd <$> delegations_by s key) = delegated s key.
Proof. apply filtered_range_sum. Qed.

(** ** The value of an account *)

Definition pledged (p : option PledgeData) : Z := from_option (fun p => amount (pledge_amount p)) 0 p.

(** What is in the contract or staked for an account. *)
Definition holdings (s : VestingStore) (key : VestingAccountStorageKey) : Z :=
  load_balance s key + delegated s key + pledged (bond_pledges s !! key) + pledged (gateway_pledges s !! key).

(** Amounts are unsigned. *)
Record amounts_ok (s : VestingStore) : Prop := {
  ok_balances key v : balances s !! key = Some v -> 0 <= v;
  ok_delegations k v : vesting_delegations s !! k = Some v -> 0 <= v;
  ok_bonds key p : bond_pledges s !! key = Some p -> 0 <= amount (pledge_amount p);
  ok_gateways key p : gateway_pledges s !! key = Some p -> 0 <= amount (pledge_amount p)
}.

Lemma delegated_nonneg s key : amounts_ok s -> 0 <= delegated s key.
Proof. intros Ha. apply ksum_nonneg. intros k v Hv. apply (ok_delegations _ Ha) in Hv. case_match; lia. Qed.

Lemma delegated_none s key : (forall i t, vesting_delegations s !! (key, i, t) = None) -> delegated s key = 0.
Proof.
  intros Hn. apply ksum_zero. intros [[k i] t] v Hv. simpl. case_bool_decide; [|done]. subst. by rewrite Hn in Hv.
Qed.

Lemma delegated_to_nonneg s key i : amounts_ok s -> 0 <= delegated_to_mix s key i.
Proof. intros Ha. apply ksum_nonneg. intros k v Hv. apply (ok_delegations _ Ha) in Hv. case_match; lia. Qed.

Lemma load_balance_nonneg s key : amounts_ok s -> 0 <= load_balance s key.
Proof. intros Ha. unfold load_balance. destruct (balances s !! key) eqn:E; simpl; [by eapply ok_balances|lia]. Qed.

Lemma pledged_nonneg s key : amounts_ok s -> 0 <= pledged (bond_pledges s !! key) /\ 0 <= pledged (gateway_pledges s !! key).
Proof.
  intros Ha. split.
  - destruct (bond_pledges s !! key) eqn:E; simpl; [by eapply ok_bonds|lia].
  - destruct (gateway_pledges s !! key) eqn:E; simpl; [by eapply ok_gateways|lia].
Qed.

Lemma load_balance_save s key key' v :
  load_balance (save_balance s key v) key' = if decide (key = key') then v else load_balance s key'.
Proof.
  unfold load_balance, save_balance; simpl. destruct (decide (key = key')) as [<-|Hk].
  - by rewrite lookup_insert_eq.
  - by rewrite lookup_insert_ne.
Qed.

Section Books.
Context `{CosmMath} `{!CosmMathLaws} `{ChainApi} `{TimestampApi}.

Lemma fold_amounts_Ok l acc t : fold_amounts acc l = Ok t -> t = acc + zsum (snd <$> l).
Proof.
  revert acc. induction l as [|kv l IH]; intros acc Ht; simpl in Ht; [run_inv; simpl; lia|].
  run_step. math_inv. apply IH in Ht. rewrite fmap_cons, zsum_cons. lia.
Qed.

Lemma total_delegations_Ok a s t : AccountExt.total_delegations a s = Ok t -> t = delegated s (Account.storage_key a).
Proof. unfold AccountExt.total_delegations. intros Ht%fold_amounts_Ok. rewrite delegations_by_sum in Ht. lia. Qed.

Lemma total_pledged_le a s :
  amounts_ok s ->
  0 <= AccountExt.total_pledged a s <=
    pledged (bond_pledges s !! Account.storage_key a) + pledged (gateway_pledges s !! Account.storage_key a).
Proof.
  intros Ha. unfold AccountExt.total_pledged, load_bond_pledge, load_gateway_pledge.
  pose proof (pledged_nonneg s (Account.storage_key a) Ha).
  destruct (bond_pledges s !! _), (gateway_pledges s !! _); simpl in *; lia.
Qed.

Lemma total_staked_le a s t :
  amounts_ok s -> AccountExt.total_staked a s = Ok t ->
  0 <= t <= holdings s (Account.storage_key a) - load_balance s (Account.storage_key a).
Proof.
  intros Ha Ht. unfold AccountExt.total_staked in Ht. run_inv. math_inv. apply total_delegations_Ok in E as ->.
  pose proof (total_pledged_le a s Ha). pose proof (delegated_nonneg s (Account.storage_key a) Ha). unfold holdings. lia.
Qed.

(** ** Changes of the delegations *)

(** Removing the entries of a list of keys one by one. *)
Lemma remove_delegations_sum key i ts s :
  NoDup ts -> (forall t, t ∈ ts -> is_Some (vesting_delegations s !! (key, i, t))) ->
  forall key', delegated (foldl (fun s t => remove_delegation s (key, i, t)) s ts) key' =
    delegated s key' - (if decide (key = key') then
      zsum ((fun t => default 0 (vesting_delegations s !! (key, i, t))) <$> ts) else 0).
Proof.
  revert s. induction ts as [|t ts IH]; intros s Hd Hin key'; [simpl; case_decide; lia|].
  cbn [foldl]. rewrite fmap_cons, zsum_cons. inversion Hd; subst. rewrite IH; [|done|].
  - unfold delegated, remove_delegation; simpl. rewrite ksum_delete.
    assert ((fun t0 => default 0 (delete (key, i, t) (vesting_delegations s) !! (key, i, t0))) <$> ts =
      (fun t0 => default 0 (vesting_delegations s !! (key, i, t0))) <$> ts) as ->.
    { apply list_fmap_ext. intros j t0 Hj. f_equal. apply lookup_delete_ne. intros [= ->].
      apply list_elem_of_lookup_2 in Hj. done. }
    destruct (Hin t) as [v Hv]; [constructor|]. rewrite Hv. simpl. case_decide as Hk.
    + rewrite bool_decide_true by done. lia.
    + rewrite bool_decide_false by done. lia.
  - intros t0 Ht0. unfold remove_delegation; simpl. rewrite lookup_delete_ne; [apply Hin; by constructor|].
    intros [= ->]. done.
Qed.

Lemma delegations_to_elem s key i k v :
  (k, v) ∈ delegations_to s key i <-> k.1 = (key, i) /\ vesting_delegations s !! k = Some v.
Proof. unfold delegations_to. rewrite list_elem_of_filter, delegation_range_perm, elem_of_map_to_list. done. Qed.

Lemma delegations_to_NoDup s key i : NoDup (load_delegation_timestamps s key i).
Proof.
  unfold load_delegation_timestamps. apply NoDup_fmap_2_strong.
  - intros [[k1 t1] v1] [[k2 t2] v2] In1 In2 Ht. simpl in Ht. subst t2.
    apply delegations_to_elem in In1 as [Hk1 Hv1], In2 as [Hk2 Hv2]. simpl in *. subst k1 k2. congruence.
  - apply NoDup_filter. rewrite delegation_range_perm. apply NoDup_map_to_list.
Qed.

Lemma timestamps_sum s key i :
  zsum ((fun t => default 0 (vesting_delegations s !! (key, i, t))) <$> load_delegation_timestamps s key i) =
  delegated_to_mix s key i.
Proof.
  rewrite <- delegations_to_sum. unfold load_delegation_timestamps. rewrite <- list_fmap_compose. f_equal.
  apply list_fmap_ext. intros j [[k t] v] Hj%list_elem_of_lookup_2. apply delegations_to_elem in Hj as [Hk Hv].
  simpl in *. subst k. by rewrite Hv.
Qed.

(** [remove_delegations_for_mix] takes what was delegated to the node off the books. *)
Lemma remove_delegations_delegated a i s key' :
  delegated (AccountExt.remove_delegations_for_mix a i s) key' =
  delegated s key' - (if decide (Account.storage_key a = key') then delegated_to_mix s (Account.storage_key a) i else 0).
Proof.
  unfold AccountExt.remove_delegations_for_mix. rewrite remove_delegations_sum.
  - by rewrite timestamps_sum.
  - apply delegations_to_NoDup.
  - intros t ([[k t'] v] & -> & Hin)%list_elem_of_fmap. apply delegations_to_elem in Hin as [Hk Hv]. simpl in *.
    subst k. by exists v.
Qed.

(** The rest of the store is untouched, and no delegation appears. *)
Lemma remove_delegations_frame a i s :
  exists m, AccountExt.remove_delegations_for_mix a i s = set_vesting_delegations s m /\ m ⊆ vesting_delegations s.
Proof.
  unfold AccountExt.remove_delegations_for_mix. generalize (load_delegation_timestamps s (Account.storage_key a) i).
  intros ts. revert s. induction ts as [|t ts IH]; intros s; simpl; [exists (vesting_delegations s); by destruct s|].
  destruct (IH (remove_delegation s (Account.storage_key a, i, t))) as (m & -> & Hm). exists m. split; [done|].
  etransitivity; [exact Hm|]. apply delete_subseteq.
Qed.

Lemma save_delegation_delegated s k v s' key :
  VestingStorage.save_delegation s k v = Ok s' ->
  delegated s' key = delegated s key + (if decide (k.1.1 = key) then v else 0).
Proof.
  intros Hs. unfold VestingStorage.save_delegation in Hs. run_inv. math_inv. unfold delegated; simpl. rewrite ksum_insert.
  destruct (vesting_delegations s !! k) as [w|]; simpl; case_decide as Hk;
    rewrite ?(bool_decide_true _ Hk), ?(bool_decide_false _ Hk); lia.
Qed.

End Books.
