(* ===== verification/VestingLocked.v ===== *)
(** * Vesting tokens stay locked

    The invariant of the vesting contract's books, the value of an account
    under every message, and the consequence for the tokens that are still
    vesting: an account always has them, in the contract or staked. *)

From S2P Require Import Prelude Bytes Cosmwasm MixnetTypes MixnetStorage MixnetTransactions Accounting Solvency.
From S2P Require Import VestingTypes VestingStorage VestingAccount VestingTransactions VestingBooks.
#[local] Open Scope Z_scope.

(** ** The invariant of the books *)

Definition key_counter (s : VestingStore) : Z := default 0 (storage_key_counter s).

Record books_ok (s : VestingStore) : Prop := {
  books_amounts : amounts_ok s;
  books_owner o a : accounts s !! o = Some a -> Account.owner_address a = o;
  books_coin o a : accounts s !! o = Some a -> 0 <= amount (Account.coin a);
  books_key o a : accounts s !! o = Some a -> Account.storage_key a <= key_counter s;
  books_keys_differ o o' a a' : accounts s !! o = Some a -> accounts s !! o' = Some a' ->
    Account.storage_key a = Account.storage_key a' -> o = o';
  books_fresh key : key_counter s < key ->
    balances s !! key = None /\ bond_pledges s !! key = None /\ gateway_pledges s !! key = None /\
    withdrawns s !! key = None /\ (forall i t, vesting_delegations s !! (key, i, t) = None)
}.

(** What is in the contract, staked or withdrawn for an account. *)
Definition value (s : VestingStore) (key : VestingAccountStorageKey) : Z := holdings s key + load_withdrawn s key.

(** ** Updates of the books *)

(** Keys beyond the counter stay without entries when an entry of a used key changes. *)
Ltac still_fresh F :=
  let k := fresh "k" in let Hlt := fresh in
  intros k Hlt; unfold key_counter in *; simpl in *; destruct (F k Hlt) as (? & ? & ? & ? & ?);
  rewrite lookup_insert_ne by lia; done.

Lemma books_save_balance s key v : books_ok s -> 0 <= v -> key <= key_counter s -> books_ok (save_balance s key v).
Proof.
  intros [[A1 A2 A3 A4] B1 B2 B3 B4 B5] Hv Hk. split; [split| | | | |]; simpl; try done.
  - intros k w. rewrite lookup_insert_Some. intros [[_ <-]|[_ ?]]; [done|by eapply A1].
  - still_fresh B5.
Qed.

Lemma books_save_withdrawn s key v : books_ok s -> key <= key_counter s -> books_ok (save_withdrawn s key v).
Proof.
  intros [[A1 A2 A3 A4] B1 B2 B3 B4 B5] Hk. split; [split| | | | |]; simpl; try done.
  still_fresh B5.
Qed.

Lemma books_save_bond s key p :
  books_ok s -> 0 <= amount (pledge_amount p) -> key <= key_counter s -> books_ok (save_bond_pledge s key p).
Proof.
  intros [[A1 A2 A3 A4] B1 B2 B3 B4 B5] Hp Hk. split; [split| | | | |]; simpl; try done.
  - intros k w. rewrite lookup_insert_Some. intros [[_ <-]|[_ ?]]; [done|by eapply A3].
  - still_fresh B5.
Qed.

Lemma books_save_gateway s key p :
  books_ok s -> 0 <= amount (pledge_amount p) -> key <= key_counter s -> books_ok (save_gateway_pledge s key p).
Proof.
  intros [[A1 A2 A3 A4] B1 B2 B3 B4 B5] Hp Hk. split; [split| | | | |]; simpl; try done.
  - intros k w. rewrite lookup_insert_Some. intros [[_ <-]|[_ ?]]; [done|by eapply A4].
  - still_fresh B5.
Qed.

(** Entries of a map are kept or removed. *)
Lemma books_shrink s s' :
  books_ok s -> accounts s' = accounts s -> storage_key_counter s' = storage_key_counter s ->
  balances s' = balances s -> withdrawns s' = withdrawns s ->
  bond_pledges s' ⊆ bond_pledges s -> gateway_pledges s' ⊆ gateway_pledges s ->
  vesting_delegations s' ⊆ vesting_delegations s -> books_ok s'.
Proof.
  intros [[A1 A2 A3 A4] B1 B2 B3 B4 B5] E1 E2 E3 E4 M1 M2 M3. split; [split| | | | |]; rewrite ?E1, ?E3; try done.
  - intros k v Hv. by eapply A2, lookup_weaken.
  - intros k v Hv. by eapply A3, lookup_weaken.
  - intros k v Hv. by eapply A4, lookup_weaken.
  - unfold key_counter. by rewrite E2.
  - intros k Hlt. unfold key_counter in *. rewrite E2 in Hlt. destruct (B5 k Hlt) as (N1 & N2 & N3 & N4 & N5). rewrite E4.
    split_and!; [done|exact (lookup_weaken_None _ _ _ N2 M1)|exact (lookup_weaken_None _ _ _ N3 M2)|done|].
    intros i t. exact (lookup_weaken_None _ _ _ (N5 i t) M3).
Qed.

(** An account is replaced, under the same key of the books. *)
Lemma books_save_account s a a' o :
  books_ok s -> accounts s !! o = Some a -> Account.storage_key a' = Account.storage_key a ->
  Account.coin a' = Account.coin a -> books_ok (save_account (delete_account s o) a').
Proof.
  intros [[A1 A2 A3 A4] B1 B2 B3 B4 B5] Ha Ek Ec. split; [split| | | | |]; simpl; try done.
  - intros o' x. rewrite lookup_insert_Some, lookup_delete_Some. intros [[<- <-]|[_ [_ Hx]]]; [done|by eapply B1].
  - intros o' x. rewrite lookup_insert_Some, lookup_delete_Some. intros [[_ <-]|[_ [_ Hx]]]; [rewrite Ec|]; by eapply B2.
  - intros o' x. rewrite lookup_insert_Some, lookup_delete_Some. intros [[_ <-]|[_ [_ Hx]]]; [rewrite Ek|]; by eapply B3.
  - intros o1 o2 x y. rewrite !lookup_insert_Some, !lookup_delete_Some.
    intros [[<- <-]|[N1 [D1 Hx]]] [[<- <-]|[N2 [D2 Hy]]] E; [done| | |by eapply B4].
    + rewrite Ek in E. by destruct D2; eapply B4.
    + rewrite Ek in E. by destruct D1; eapply B4.
Qed.

Lemma books_delete_account s o : books_ok s -> books_ok (delete_account s o).
Proof.
  intros [[A1 A2 A3 A4] B1 B2 B3 B4 B5]. split; [split| | | | |]; simpl; try done.
  - intros o' x [_ Hx]%lookup_delete_Some. by eapply B1.
  - intros o' x [_ Hx]%lookup_delete_Some. by eapply B2.
  - intros o' x [_ Hx]%lookup_delete_Some. by eapply B3.
  - intros o1 o2 x y [_ Hx]%lookup_delete_Some [_ Hy]%lookup_delete_Some. by eapply B4.
Qed.

Section Messages.
Context `{CosmMath} `{!CosmMathLaws} `{ChainApi} `{TimestampApi}.

Lemma books_save_delegation s key i t v s' :
  books_ok s -> 0 <= v -> key <= key_counter s -> VestingStorage.save_delegation s (key, i, t) v = Ok s' -> books_ok s'.
Proof.
  intros [[A1 A2 A3 A4] B1 B2 B3 B4 B5] Hv Hk Hs. unfold VestingStorage.save_delegation in Hs. run_inv. math_inv.
  split; [split| | | | |]; simpl; try done.
  - intros k w. rewrite lookup_insert_Some. intros [[_ <-]|[_ ?]]; [unfold is_u128 in *; lia|by eapply A2].
  - intros k Hlt. unfold key_counter in *; simpl in *. destruct (B5 k Hlt) as (? & ? & ? & ? & ?). split_and!; [done..|].
    intros j t'. rewrite lookup_insert_ne; [done|]. intros [= -> _ _]. lia.
Qed.

(** ** The value of an account under updates *)

Lemma value_save_balance s key v key' :
  value (save_balance s key v) key' = value s key' + (if decide (key = key') then v - load_balance s key else 0).
Proof.
  unfold value, holdings. rewrite load_balance_save. unfold load_withdrawn, delegated; simpl. case_decide; subst; lia.
Qed.

Lemma value_save_withdrawn s key v key' :
  value (save_withdrawn s key v) key' = value s key' + (if decide (key = key') then v - load_withdrawn s key else 0).
Proof.
  unfold value, holdings, load_balance, load_withdrawn, delegated; simpl. case_decide as Hk.
  - subst. rewrite lookup_insert_eq. simpl. lia.
  - rewrite lookup_insert_ne by done. lia.
Qed.

Lemma value_save_bond s key p key' :
  value (save_bond_pledge s key p) key' =
  value s key' + (if decide (key = key') then amount (pledge_amount p) - pledged (bond_pledges s !! key) else 0).
Proof.
  unfold value, holdings, load_balance, load_withdrawn, delegated; simpl. case_decide as Hk.
  - subst. rewrite lookup_insert_eq. simpl. lia.
  - rewrite lookup_insert_ne by done. lia.
Qed.

Lemma value_remove_bond s key key' :
  value (remove_bond_pledge s key) key' =
  value s key' - (if decide (key = key') then pledged (bond_pledges s !! key) else 0).
Proof.
  unfold value, holdings, load_balance, load_withdrawn, delegated; simpl. case_decide as Hk.
  - subst. rewrite lookup_delete_eq. simpl. lia.
  - rewrite lookup_delete_ne by done. lia.
Qed.

Lemma value_save_gateway s key p key' :
  value (save_gateway_pledge s key p) key' =
  value s key' + (if decide (key = key') then amount (pledge_amount p) - pledged (gateway_pledges s !! key) else 0).
Proof.
  unfold value, holdings, load_balance, load_withdrawn, delegated; simpl. case_decide as Hk.
  - subst. rewrite lookup_insert_eq. simpl. lia.
  - rewrite lookup_insert_ne by done. lia.
Qed.

Lemma value_remove_gateway s key key' :
  value (remove_gateway_pledge s key) key' =
  value s key' - (if decide (key = key') then pledged (gateway_pledges s !! key) else 0).
Proof.
  unfold value, holdings, load_balance, load_withdrawn, delegated; simpl. case_decide as Hk.
  - subst. rewrite lookup_delete_eq. simpl. lia.
  - rewrite lookup_delete_ne by done. lia.
Qed.

Lemma value_save_delegation s key i t v s' key' :
  VestingStorage.save_delegation s (key, i, t) v = Ok s' ->
  value s' key' = value s key' + (if decide (key = key') then v else 0).
Proof.
  intros Hs. pose proof (save_delegation_delegated _ _ _ _ key' Hs) as Hd. simpl in Hd.
  unfold VestingStorage.save_delegation in Hs. run_inv. unfold value, holdings. rewrite Hd.
  unfold load_balance, load_withdrawn; simpl. lia.
Qed.

Lemma value_remove_delegations a i s key' :
  value (AccountExt.remove_delegations_for_mix a i s) key' =
  value s key' - (if decide (Account.storage_key a = key') then delegated_to_mix s (Account.storage_key a) i else 0).
Proof.
  unfold value, holdings. rewrite remove_delegations_delegated. destruct (remove_delegations_frame a i s) as (m & -> & _).
  unfold load_balance, load_withdrawn; simpl. lia.
Qed.

(** ** The effect of a message *)

(** What the mixnet contract reports to have returned, and for which account. *)
Definition tracked (msg : VestingExecuteMsg.t) : option (string * Coin) :=
  match msg with
  | VestingExecuteMsg.TrackReward coin address => Some (address, coin)
  | VestingExecuteMsg.TrackUndelegation owner _ coin => Some (owner, coin)
  | VestingExecuteMsg.TrackUnbondMixnode owner coin => Some (owner, coin)
  | VestingExecuteMsg.TrackDecreasePledge owner coin => Some (owner, coin)
  | VestingExecuteMsg.TrackUnbondGateway owner coin => Some (owner, coin)
  | _ => None
  end.

(** The stake that such a message takes off the books. *)
Definition unstaked (s : VestingStore) (msg : VestingExecuteMsg.t) (key : VestingAccountStorageKey) : Z :=
  match msg with
  | VestingExecuteMsg.TrackUndelegation _ mix_id _ => delegated_to_mix s key mix_id
  | VestingExecuteMsg.TrackUnbondMixnode _ _ => pledged (bond_pledges s !! key)
  | VestingExecuteMsg.TrackDecreasePledge _ coin => amount coin
  | VestingExecuteMsg.TrackUnbondGateway _ _ => pledged (gateway_pledges s !! key)
  | _ => 0
  end.

(** What an account gains by a message. *)
Definition gain (s : VestingStore) (msg : VestingExecuteMsg.t) (key : VestingAccountStorageKey) : Z :=
  match tracked msg with
  | Some (address, coin) =>
      match account_from_address s address with
      | Ok a => if decide (Account.storage_key a = key) then amount coin - unstaked s msg key else 0
      | _ => 0
      end
  | None => 0
  end.

(** The amount a message mentions is unsigned. *)
Definition message_amount (msg : VestingExecuteMsg.t) : Z :=
  match msg with
  | VestingExecuteMsg.TrackReward coin _ | VestingExecuteMsg.TrackUndelegation _ _ coin
  | VestingExecuteMsg.TrackUnbondMixnode _ coin | VestingExecuteMsg.TrackDecreasePledge _ coin
  | VestingExecuteMsg.TrackUnbondGateway _ coin | VestingExecuteMsg.DelegateToMixnode _ coin _
  | VestingExecuteMsg.WithdrawVestedCoins coin | VestingExecuteMsg.BondMixnode _ _ _ coin
  | VestingExecuteMsg.PledgeMore coin | VestingExecuteMsg.DecreasePledge coin
  | VestingExecuteMsg.BondGateway _ _ coin => amount coin
  | _ => 0
  end.

(** Two versions of one account. *)
Definition same_terms (a a' : Account.t) : Prop :=
  Account.storage_key a' = Account.storage_key a /\ Account.coin a' = Account.coin a /\
  Account.periods a' = Account.periods a.

Record step_ok (s s' : VestingStore) (g : VestingAccountStorageKey -> Z) : Prop := {
  step_books : books_ok s';
  step_accounts o a' : accounts s' !! o = Some a' ->
    exists o0 a, accounts s !! o0 = Some a /\ same_terms a a';
  step_value key : value s' key = value s key + g key
}.

Lemma account_from_address_Ok s address a :
  account_from_address s address = Ok a -> exists o, addr_validate address = Some o /\ accounts s !! o = Some a.
Proof. unfold account_from_address, vesting_addr_validate, validate_account, load_account. intros Ha. run_inv. eauto. Qed.

Lemma validate_funds_Ok cs d c : Vesting.validate_funds cs d = Ok c -> cs = [c] /\ denom c = d /\ amount c <> 0.
Proof.
  unfold Vesting.validate_funds, addr_eqb. destruct cs as [|c0 rest]; [done|]. intros Hc. run_inv.
  apply bool_decide_eq_true in C1. split_and!; [|done|lia]. destruct rest; [done|].
  rewrite !len_cons in C0. pose proof (len_nonneg rest). lia.
Qed.

(** ** Steps *)

Lemma step_same_accounts s s' g :
  books_ok s' -> accounts s' = accounts s -> (forall key, value s' key = value s key + g key) -> step_ok s s' g.
Proof. intros Hb E Hv. split; [done| |done]. intros o a'. rewrite E. intros Ha. exists o, a'. done. Qed.

Lemma step_nothing s g : books_ok s -> (forall key, g key = 0) -> step_ok s s g.
Proof. intros Hb Hg. apply step_same_accounts; [done|done|]. intros key. rewrite Hg. lia. Qed.

Ltac num_cases := repeat case_decide; subst; unfold is_u128, saturating_sub in *; lia.

(** The balance after a valid stake. *)
Lemma stake_balance a c s b :
  AccountExt.ensure_valid_additional_stake a c s = Ok b -> b = load_balance s (Account.storage_key a) /\ amount c <= b.
Proof. unfold AccountExt.ensure_valid_additional_stake. intros Hb. run_inv. split; [done|lia]. Qed.

Section OneAccount.
Context (s : VestingStore) (o : Addr) (a : Account.t) (Hbooks : books_ok s) (Ha : accounts s !! o = Some a).

Let key_le : Account.storage_key a <= key_counter s.
Proof. by eapply books_key. Qed.

Let balance_pos : 0 <= load_balance s (Account.storage_key a).
Proof. by apply load_balance_nonneg, books_amounts. Qed.

Lemma delegate_step i c env s' out :
  0 <= amount c -> AccountExt.try_delegate_to_mixnode a i c env s = Ok (s', out) -> step_ok s s' (fun _ => 0).
Proof.
  intros Hc Hr. unfold AccountExt.try_delegate_to_mixnode, AccountExt.track_delegation in Hr.
  run_step. apply stake_balance in E as [-> Hle]. vesting_inv.
  match goal with E : VestingStorage.save_delegation _ _ _ = Ok _ |- _ => rename E into Es end.
  pose proof (books_save_delegation _ _ _ _ _ _ Hbooks Hc key_le Es) as Hb.
  apply step_same_accounts.
  - apply books_save_balance; [done|lia|]. revert Es. unfold VestingStorage.save_delegation. intros Es. by run_inv.
  - revert Es. unfold VestingStorage.save_delegation. intros Es. by run_inv.
  - intros key. rewrite value_save_balance, (value_save_delegation _ _ _ _ _ _ key Es).
    assert (load_balance x0 (Account.storage_key a) = load_balance s (Account.storage_key a)) as ->
      by (revert Es; unfold VestingStorage.save_delegation; intros Es; by run_inv). num_cases.
Qed.

Lemma bond_mixnode_step m cp sg c env s' out :
  0 <= amount c -> AccountExt.try_bond_mixnode a m cp sg c env s = Ok (s', out) -> step_ok s s' (fun _ => 0).
Proof.
  intros Hc Hr. unfold AccountExt.try_bond_mixnode, load_bond_pledge in Hr.
  run_step. apply stake_balance in E as [-> Hle]. destruct (bond_pledges s !! _) eqn:Eb; vesting_inv.
  apply step_same_accounts; [|done|].
  - apply books_save_bond; [apply books_save_balance; [done|lia|done]|done|done].
  - intros key. rewrite value_save_bond, value_save_balance. simpl. rewrite Eb. simpl. num_cases.
Qed.

Lemma bond_gateway_step g sg c env s' out :
  0 <= amount c -> AccountExt.try_bond_gateway a g sg c env s = Ok (s', out) -> step_ok s s' (fun _ => 0).
Proof.
  intros Hc Hr. unfold AccountExt.try_bond_gateway, load_gateway_pledge in Hr.
  run_step. apply stake_balance in E as [-> Hle]. destruct (gateway_pledges s !! _) eqn:Eb; vesting_inv.
  apply step_same_accounts; [|done|].
  - apply books_save_gateway; [apply books_save_balance; [done|lia|done]|done|done].
  - intros key. rewrite value_save_gateway, value_save_balance. simpl. rewrite Eb. simpl. num_cases.
Qed.

Lemma pledge_more_step c env s' out :
  0 <= amount c -> AccountExt.try_pledge_additional_tokens a c env s = Ok (s', out) -> step_ok s s' (fun _ => 0).
Proof.
  intros Hc Hr. unfold AccountExt.try_pledge_additional_tokens, load_bond_pledge in Hr.
  run_step. apply stake_balance in E as [-> Hle]. vesting_inv.
  pose proof (ok_bonds _ (books_amounts _ Hbooks) _ _ E). apply step_same_accounts; [|done|].
  - apply books_save_bond; [apply books_save_balance; [done|lia|done]|simpl; lia|done].
  - intros key. rewrite value_save_bond, value_save_balance. simpl. rewrite E. simpl. num_cases.
Qed.

Lemma withdraw_step c s' :
  0 <= amount c <= load_balance s (Account.storage_key a) -> AccountExt.withdraw a c s = Ok s' ->
  step_ok s s' (fun _ => 0) /\
  (forall key, holdings s' key = holdings s key - (if decide (Account.storage_key a = key) then amount c else 0)).
Proof.
  intros Hc Hr. unfold AccountExt.withdraw in Hr. run_inv. math_inv. split; [apply step_same_accounts; [|done|]|].
  - apply books_save_withdrawn; [apply books_save_balance; [done|unfold saturating_sub; lia|done]|done].
  - intros key. rewrite value_save_withdrawn, value_save_balance.
    unfold load_withdrawn, save_balance; simpl. num_cases.
  - intros key. unfold holdings, load_balance, delegated, save_balance, saturating_sub in *; simpl.
    case_decide as Hk; [subst; rewrite lookup_insert_eq|rewrite lookup_insert_ne by done]; simpl; lia.
Qed.

Lemma track_reward_step c s' :
  0 <= amount c -> AccountExt.track_reward a c s = Ok s' ->
  step_ok s s' (fun key => if decide (Account.storage_key a = key) then amount c else 0).
Proof.
  intros Hc Hr. unfold AccountExt.track_reward in Hr. run_inv. math_inv. apply step_same_accounts; [|done|].
  - apply books_save_balance; [done|lia|done].
  - intros key. rewrite value_save_balance. num_cases.
Qed.

Lemma track_undelegation_step i c s' :
  0 <= amount c -> AccountExt.track_undelegation a i c s = Ok s' ->
  step_ok s s' (fun key => if decide (Account.storage_key a = key) then amount c - delegated_to_mix s key i else 0).
Proof.
  intros Hc Hr. unfold AccountExt.track_undelegation in Hr. vesting_inv.
  destruct (remove_delegations_frame a i s) as (m & Em & Hm).
  assert (load_balance (AccountExt.remove_delegations_for_mix a i s) (Account.storage_key a) =
    load_balance s (Account.storage_key a)) as El by by rewrite Em.
  apply step_same_accounts.
  - apply books_save_balance; [rewrite Em; by eapply books_shrink|rewrite El; lia|by rewrite Em].
  - by rewrite Em.
  - intros key. rewrite value_save_balance, value_remove_delegations, El. num_cases.
Qed.

Lemma track_unbond_mixnode_step c s' :
  0 <= amount c -> AccountExt.try_track_unbond_mixnode a c s = Ok s' ->
  step_ok s s' (fun key => if decide (Account.storage_key a = key) then amount c - pledged (bond_pledges s !! key) else 0).
Proof.
  intros Hc Hr. unfold AccountExt.try_track_unbond_mixnode in Hr. vesting_inv.
  apply step_same_accounts; [|done|].
  - eapply books_shrink; [apply (books_save_balance s (Account.storage_key a)); [done| |done]|try done..]; [lia|].
    apply delete_subseteq.
  - intros key. rewrite value_remove_bond, value_save_balance. simpl. num_cases.
Qed.

Lemma track_unbond_gateway_step c s' :
  0 <= amount c -> AccountExt.try_track_unbond_gateway a c s = Ok s' ->
  step_ok s s' (fun key => if decide (Account.storage_key a = key) then amount c - pledged (gateway_pledges s !! key) else 0).
Proof.
  intros Hc Hr. unfold AccountExt.try_track_unbond_gateway in Hr. vesting_inv.
  apply step_same_accounts; [|done|].
  - eapply books_shrink; [apply (books_save_balance s (Account.storage_key a)); [done| |done]|try done..]; [lia|].
    apply delete_subseteq.
  - intros key. rewrite value_remove_gateway, value_save_balance. simpl. num_cases.
Qed.

Lemma track_decrease_step c s' :
  0 <= amount c -> AccountExt.try_track_decrease_mixnode_pledge a c s = Ok s' -> step_ok s s' (fun _ => 0).
Proof.
  intros Hc Hr. unfold AccountExt.try_track_decrease_mixnode_pledge, decrease_bond_pledge in Hr. vesting_inv.
  simpl in *. apply step_same_accounts; [|done|].
  - apply books_save_bond; [apply books_save_balance; [done|lia|done]|simpl; lia|done].
  - intros key. rewrite value_save_bond, value_save_balance. simpl. rewrite E0. simpl. num_cases.
Qed.

Lemma save_account_step a' :
  same_terms a a' -> step_ok s (save_account (delete_account s o) a') (fun _ => 0).
Proof.
  intros (Ek & Ec & Ep). split; [by eapply books_save_account| |].
  - intros o' x. simpl. rewrite lookup_insert_Some, lookup_delete_Some. intros [[_ <-]|[_ [_ Hx]]]; [|by exists o', x].
    exists o, a. done.
  - intros key. unfold value, holdings, load_balance, load_withdrawn, delegated; simpl. lia.
Qed.

End OneAccount.

(** ** Every message *)

(** The account in a run of a handler. *)
Ltac find_account :=
  match goal with
  | H : account_from_address _ _ = Ok _ |- _ =>
      destruct (account_from_address_Ok _ _ _ H) as (o & Hvalid & Ha); rename H into Hacc
  end.

Lemma staking_account_Ok s info p a :
  Vesting.staking_account s info p = Ok a -> exists o, accounts s !! o = Some a.
Proof.
  unfold Vesting.staking_account. destruct p; intros Ha; run_inv;
    match goal with H : account_from_address _ _ = Ok _ |- _ => apply account_from_address_Ok in H as (? & _ & ?) end; eauto.
Qed.

Lemma update_staking_step s o a p :
  books_ok s -> accounts s !! o = Some a -> step_ok s (AccountExt.update_staking_address a p s) (fun _ => 0).
Proof.
  intros Hb Ha. pose proof (books_owner _ Hb _ _ Ha) as Ho. unfold AccountExt.update_staking_address.
  assert (forall s, save_account s (Account.set_staking a p) =
    save_account (delete_account s o) (Account.set_staking a p)) as Es.
  { intros s1. unfold save_account, delete_account; simpl. rewrite Ho, insert_delete_eq. by destruct s1. }
  destruct (Account.staking_address a) as [st|]; [|rewrite Es; by eapply save_account_step].
  destruct (decide (st = o)) as [->|Hne]; [by eapply save_account_step|]. rewrite Es.
  assert (step_ok (delete_account s st) (save_account (delete_account (delete_account s st) o) (Account.set_staking a p))
    (fun _ => 0)) as [S1 S2 S3].
  { eapply save_account_step; [by apply books_delete_account|simpl; by rewrite lookup_delete_ne|done]. }
  split; [done| |exact S3]. intros o' x Hx. destruct (S2 _ _ Hx) as (o0 & a0 & H0' & ?).
  simpl in H0'. apply lookup_delete_Some in H0' as [_ H0']. by exists o0, a0.
Qed.

Lemma transfer_step s o a p :
  books_ok s -> accounts s !! o = Some a -> step_ok s (AccountExt.transfer_ownership a p s) (fun _ => 0).
Proof.
  intros Hb Ha. unfold AccountExt.transfer_ownership. rewrite (books_owner _ Hb _ _ Ha). by eapply save_account_step.
Qed.

Lemma update_cap_step s o a c :
  books_ok s -> accounts s !! o = Some a -> step_ok s (save_account s (Account.set_cap a c)) (fun _ => 0).
Proof.
  intros Hb Ha. assert (save_account s (Account.set_cap a c) = save_account (delete_account s o) (Account.set_cap a c)) as ->.
  { unfold save_account, delete_account; simpl. rewrite (books_owner _ Hb _ _ Ha), insert_delete_eq. by destruct s. }
  by eapply save_account_step.
Qed.

Lemma step_ext s s' g g' : step_ok s s' g -> (forall key, g key = g' key) -> step_ok s s' g'.
Proof. intros [? ? Hv] Hg. split; [done|done|]. intros key. by rewrite Hv, Hg. Qed.

(** A message other than [CreateAccount] keeps the books, and the value of an account changes by
    what the mixnet contract returns beyond the stake. *)
Lemma execute_step s env info msg s' out :
  books_ok s -> 0 <= message_amount msg ->
  (forall o st sp c, msg <> VestingExecuteMsg.CreateAccount o st sp c) ->
  Vesting.execute s env info msg = Ok (s', out) -> step_ok s s' (gain s msg).
Proof.
  intros Hb Hm Hnew Hr. destruct msg; simpl in Hr, Hm; try (by destruct (Hnew _ _ _ _ eq_refl));
    unfold Vesting.try_create_family, Vesting.try_join_family, Vesting.try_leave_family, Vesting.try_kick_family_member,
      AccountExt.try_create_family, AccountExt.try_join_family, AccountExt.try_leave_family,
      AccountExt.try_head_kick_member, Vesting.try_claim_operator_reward, AccountExt.try_claim_operator_reward,
      Vesting.try_claim_delegator_reward, AccountExt.try_claim_delegator_reward,
      Vesting.try_update_mixnode_cost_params, AccountExt.try_update_mixnode_cost_params,
      Vesting.try_update_mixnode_config, AccountExt.try_update_mixnode_config, Vesting.try_update_gateway_config,
      AccountExt.try_update_gateway_config in Hr;
    try (run_inv; by apply step_nothing).
  - unfold Vesting.try_track_reward in Hr. run_inv. find_account. eapply step_ext; [by eapply track_reward_step|].
    intros key. unfold gain; simpl. rewrite Hacc. case_decide; lia.
  - unfold Vesting.try_update_mixnet_address in Hr. run_inv. apply step_same_accounts; [by destruct Hb as [[] ? ? ? ? ?]|done|].
    intros key. unfold gain, value, holdings, load_balance, load_withdrawn, delegated; simpl. lia.
  - unfold Vesting.try_delegate_to_mixnode in Hr. run_inv. apply validate_funds_Ok in E as ([= ->] & _ & _).
    apply staking_account_Ok in E0 as [o Ha]. by eapply delegate_step.
  - unfold Vesting.try_undelegate_from_mixnode, AccountExt.try_undelegate_from_mixnode in Hr. run_inv.
    by apply step_nothing.
  - unfold Vesting.try_withdraw_vested_coins in Hr. run_inv. find_account.
    assert (amount x2 <= load_balance s (Account.storage_key x0)) as Hle.
    { match goal with H : AccountExt.spendable_coins _ _ _ _ = Ok _ |- _ => unfold AccountExt.spendable_coins in H end.
      run_inv. simpl. unfold saturating_sub, AccountExt.locked_coins in *. run_inv. simpl.
      pose proof (load_balance_nonneg s (Account.storage_key x0) (books_amounts _ Hb)). unfold saturating_sub. lia. }
    eapply (proj1 (withdraw_step s _ _ Hb Ha _ _ _ ltac:(eassumption))). Unshelve. lia.
  - unfold Vesting.try_track_undelegation in Hr. run_inv. find_account. eapply step_ext; [by eapply track_undelegation_step|].
    intros key. unfold gain; simpl. rewrite Hacc. done.
  - unfold Vesting.try_bond_mixnode in Hr. run_inv. apply validate_funds_Ok in E as ([= ->] & _ & _). find_account.
    by eapply bond_mixnode_step.
  - unfold Vesting.try_pledge_more in Hr. run_inv. apply validate_funds_Ok in E as ([= ->] & _ & _). find_account.
    by eapply pledge_more_step.
  - unfold Vesting.try_decrease_pledge, AccountExt.try_decrease_mixnode_pledge in Hr. run_inv. case_match; run_inv.
    by apply step_nothing.
  - unfold Vesting.try_unbond_mixnode, AccountExt.try_unbond_mixnode in Hr. run_inv.
    by apply step_nothing.
  - unfold Vesting.try_track_unbond_mixnode in Hr. run_inv. find_account. eapply step_ext; [by eapply track_unbond_mixnode_step|].
    intros key. unfold gain; simpl. rewrite Hacc. done.
  - unfold Vesting.try_track_decrease_mixnode_pledge in Hr. run_inv. find_account. eapply step_ext; [by eapply track_decrease_step|].
    intros key. unfold gain; simpl. rewrite Hacc. case_decide; lia.
  - unfold Vesting.try_bond_gateway in Hr. run_inv. apply validate_funds_Ok in E as ([= ->] & _ & _). find_account.
    by eapply bond_gateway_step.
  - unfold Vesting.try_unbond_gateway, AccountExt.try_unbond_gateway in Hr. run_inv.
    by apply step_nothing.
  - unfold Vesting.try_track_unbond_gateway in Hr. run_inv. find_account. eapply step_ext; [by eapply track_unbond_gateway_step|].
    intros key. unfold gain; simpl. rewrite Hacc. done.
  - unfold Vesting.try_transfer_ownership in Hr. run_inv. find_account. by eapply transfer_step.
  - unfold Vesting.try_update_staking_address in Hr. run_inv. find_account. by eapply update_staking_step.
  - unfold Vesting.try_update_locked_pledge_cap in Hr. run_inv. find_account. by eapply update_cap_step.
Qed.

Lemma execute_withdrawns s env info msg s' out :
  (forall c, msg <> VestingExecuteMsg.WithdrawVestedCoins c) ->
  Vesting.execute s env info msg = Ok (s', out) -> withdrawns s' = withdrawns s.
Proof.
  intros Hw Hr. destruct msg; simpl in Hr; try (by destruct (Hw _ eq_refl));
    autounfold with vesting in Hr; run_inv; try done; try (repeat case_match; by run_inv).
  - unfold VestingStorage.save_delegation in *. by run_inv.
  - simpl. by destruct (remove_delegations_frame x0 mix_id s) as (m & -> & _).
  - unfold decrease_bond_pledge in *. by run_inv.
Qed.

(** ** New accounts *)

Lemma create_step s env info o st sp cap s' out :
  books_ok s -> Forall (fun c => 0 <= amount c) (funds info) ->
  Vesting.execute s env info (VestingExecuteMsg.CreateAccount o st sp cap) = Ok (s', out) ->
  books_ok s' /\ (forall key, key <= key_counter s -> holdings s' key = holdings s key) /\
  exists a, funds info = [Account.coin a] /\ holdings s' (Account.storage_key a) = amount (Account.coin a) /\
    accounts s' = <[Account.owner_address a := a]> (accounts s).
Proof.
  intros Hb Hf Hr. pose proof Hb as [[A1 A2 A3 A4] B1 B2 B3 B4 B5]. simpl in Hr. autounfold with vesting in Hr. vesting_inv.
  match goal with H : Vesting.validate_funds _ _ = Ok _ |- _ => apply validate_funds_Ok in H as (Ef & _ & _) end.
  rewrite Ef in Hf. apply Forall_inv in Hf. vesting_inv. fold (key_counter s) in *.
  destruct (B5 (key_counter s + 1)) as (N1 & N2 & N3 & N4 & N5); [lia|]. split; [|split].
  - split; [split| | | | |]; simpl; try done.
    + intros k w. rewrite lookup_insert_Some. intros [[_ <-]|[_ ?]]; [done|by eapply A1].
    + intros o' a'. rewrite lookup_insert_Some. intros [[<- <-]|[_ ?]]; [done|by eapply B1].
    + intros o' a'. rewrite lookup_insert_Some. intros [[<- <-]|[_ ?]]; [done|by eapply B2].
    + intros o' a'. rewrite lookup_insert_Some.
      intros [[<- <-]|[_ Ha%B3]]; unfold key_counter in *; simpl; lia.
    + intros o1 o2 a1 a2. rewrite !lookup_insert_Some. intros [[<- <-]|[_ Ha1]] [[<- <-]|[_ Ha2]] E'; simpl in E'.
      * done.
      * apply B3 in Ha2. lia.
      * apply B3 in Ha1. lia.
      * by eapply B4.
    + intros k Hlt. assert (key_counter s + 1 < k) by exact Hlt. rewrite lookup_insert_ne by lia. apply B5. lia.
  - intros key Hkey. unfold holdings. rewrite load_balance_save. unfold load_balance, delegated; simpl.
    rewrite decide_False by lia. done.
  - match goal with |- exists _, _ /\ holdings (save_balance (save_account _ ?a) _ _) _ = _ /\ _ => exists a end.
    split; [exact Ef|]. simpl. split; [|done]. unfold holdings. rewrite load_balance_save, decide_True by done.
    unfold delegated; simpl. fold (delegated s (key_counter s + 1)). rewrite delegated_none by done. rewrite N2, N3. simpl. lia.
Qed.

(** ** The schedule only releases tokens *)

Lemma period_index_bounds t i ps j : Account.period_index t i ps = Ok j -> i <= j <= i + len ps.
Proof.
  revert i. induction ps as [|p ps IH]; intros i Hj; simpl in Hj; [run_inv; rewrite len_nil; lia|].
  rewrite len_cons. pose proof (len_nonneg ps). run_inv; [lia|]. apply IH in Hj. lia.
Qed.

Lemma period_index_mono t t' i ps j j' :
  t <= t' -> Account.period_index t i ps = Ok j -> Account.period_index t' i ps = Ok j' -> j <= j'.
Proof.
  intros Ht. revert i. induction ps as [|p ps IH]; intros i Hj Hj'; simpl in Hj, Hj'; [run_inv; lia|].
  destruct (Account.end_time p) as [e| |]; simpl in Hj, Hj'; [|done|done]. destruct (Z.ltb_spec t e).
  - run_inv; [lia|]. apply period_index_bounds in Hj'. lia.
  - destruct (Z.ltb_spec t' e); [lia|]. by eapply IH.
Qed.

Lemma tokens_per_period_bound a n : Account.tokens_per_period a = Ok n -> 0 <= amount (Account.coin a) ->
  0 <= n /\ forall j, 0 <= j <= Account.num_vesting_periods a -> 0 <= n * j <= amount (Account.coin a).
Proof.
  unfold Account.tokens_per_period, Account.num_vesting_periods. intros Hn Ha. run_inv. pose proof (len_nonneg (Account.periods a)).
  set (k := len (Account.periods a)) in *. assert (0 < k) by lia. pose proof (Z.div_pos (amount (Account.coin a)) k Ha ltac:(lia)).
  split; [done|]. intros j Hj. pose proof (Z.mul_div_le (amount (Account.coin a)) k ltac:(lia)). nia.
Qed.

Context `{!TimestampApiLaws}.

Lemma seconds_mono t t' : t <= t' -> timestamp_seconds t <= timestamp_seconds t'.
Proof. intros Ht. rewrite !timestamp_seconds_spec. apply Z.div_le_mono; [done|lia]. Qed.

Lemma vested_bounds a t env s c :
  AccountExt.get_vested_coins a (Some t) env s = Ok c -> 0 <= amount (Account.coin a) ->
  0 <= amount c <= amount (Account.coin a).
Proof.
  intros Hc Ha. unfold AccountExt.get_vested_coins in Hc. run_step. destruct x as [|j|]; run_inv; simpl; [lia| |lia].
  vesting_inv. apply tokens_per_period_bound in E0 as [_ Hb]; [|done]. apply Hb.
  unfold Account.get_current_vesting_period in E. run_inv; simplify_eq.
  match goal with H : Account.period_index _ _ _ = Ok _ |- _ => apply period_index_bounds in H end.
  unfold Account.num_vesting_periods. lia.
Qed.

Lemma vested_mono a t t' env env' s s' c c' :
  t <= t' -> 0 <= amount (Account.coin a) ->
  AccountExt.get_vested_coins a (Some t) env s = Ok c ->
  AccountExt.get_vested_coins a (Some t') env' s' = Ok c' -> amount c <= amount c'.
Proof.
  intros Ht Ha Hc Hc'. pose proof (vested_bounds _ _ _ _ _ Hc Ha). pose proof (vested_bounds _ _ _ _ _ Hc' Ha).
  unfold AccountExt.get_vested_coins, Account.get_current_vesting_period in Hc, Hc'.
  destruct (head (Account.periods a)) as [p|]; [|done]. destruct (last (Account.periods a)) as [q|]; [|done].
  pose proof (seconds_mono _ _ Ht). simpl in Hc, Hc'.
  destruct (Z.ltb_spec (timestamp_seconds t) (start_time p)); simpl in Hc; [run_inv; simpl in *; lia|].
  destruct (Z.ltb_spec (timestamp_seconds t') (start_time p)); [lia|].
  destruct (Account.end_time q) as [e| |]; simpl in Hc, Hc'; [|done|done].
  destruct (Z.ltb_spec e t'); simpl in Hc'; [run_inv; simpl in *; lia|].
  destruct (Z.ltb_spec e t); simpl in Hc; [lia|].
  destruct (Account.period_index t 0 (Account.periods a)) as [j| |] eqn:Ej; simpl in Hc; [|done|done].
  destruct (Account.period_index t' 0 (Account.periods a)) as [j'| |] eqn:Ej'; simpl in Hc'; [|done|done].
  destruct (Account.tokens_per_period a) as [n| |] eqn:En; simpl in Hc, Hc'; [|done|done]. vesting_inv. simpl.
  apply tokens_per_period_bound in En as [Hx _]; [|done]. pose proof (period_index_mono _ _ _ _ _ _ Ht Ej Ej'). nia.
Qed.

(** What is still vesting at a time. *)
Definition still_vesting (a : Account.t) (t : Timestamp) (v : Z) : Prop :=
  exists env s c, AccountExt.get_vesting_coins a (Some t) env s = Ok c /\ v = amount c.

Lemma still_vesting_Ok a t v :
  still_vesting a t v <-> exists env s c, AccountExt.get_vested_coins a (Some t) env s = Ok c /\
    v = amount (Account.coin a) - amount c /\ is_u128 v.
Proof.
  unfold still_vesting, AccountExt.get_vesting_coins, AccountExt.get_original_vesting, Account.period_duration. split.
  - intros (env & s & c & Hc & ->). run_inv. math_inv. simpl in *. exists env, s, x0. done.
  - intros (env & s & c & Hc & -> & Hu). exists env, s, (mkCoin (mix_denom s) (amount (Account.coin a) - amount c)).
    split; [|done]. assert (exists p, head (Account.periods a) = Some p) as [p Hp].
    { unfold AccountExt.get_vested_coins, Account.get_current_vesting_period in Hc. run_step.
      clear Hc. run_inv; eauto. }
    rewrite Hp. simpl. rewrite Hc. simpl. assert (usub (amount (Account.coin a)) (amount c) = Ok (E := VestingError.t) (amount (Account.coin a) - amount c)) as ->
      by (by apply usub_Ok). done.
Qed.

(** ** Runs of the contract *)

(** What the mixnet contract returns covers the stake it takes off the books. *)
Definition returns_enough (s : VestingStore) (msg : VestingExecuteMsg.t) : Prop := forall key, 0 <= gain s msg key.

Definition unsigned (info : MessageInfo) (msg : VestingExecuteMsg.t) : Prop :=
  Forall (fun c => 0 <= amount c) (funds info) /\ 0 <= message_amount msg.

(** The stores of the contract under messages in the order of their blocks. *)
Inductive vesting_run : VestingStore -> Timestamp -> Prop :=
| vesting_start info msg s t : Vesting.instantiate info msg = Ok s -> vesting_run s t
| vesting_step s t env info msg s' out :
    vesting_run s t -> t <= env_time env -> unsigned info msg -> returns_enough s msg ->
    Vesting.execute s env info msg = Ok (s', out) -> vesting_run s' (env_time env).

(** Every account has the tokens that are still vesting, now or later. *)
Definition locked_ok (s : VestingStore) (t : Timestamp) : Prop :=
  forall o a t' v, accounts s !! o = Some a -> t <= t' -> still_vesting a t' v -> v <= holdings s (Account.storage_key a).

Lemma instantiate_books info msg s : Vesting.instantiate info msg = Ok s -> books_ok s /\ accounts s = ∅.
Proof. unfold Vesting.instantiate. intros Hs. run_inv. split; [|done]. by repeat split. Qed.

Lemma still_vesting_mono a t t' v' :
  t <= t' -> 0 <= amount (Account.coin a) -> still_vesting a t' v' ->
  forall v, still_vesting a t v -> v' <= v.
Proof.
  intros Ht Ha (env' & s' & c' & Hc' & -> & _)%still_vesting_Ok v (env & s & c & Hc & -> & _)%still_vesting_Ok.
  pose proof (vested_mono _ _ _ _ _ _ _ _ _ Ht Ha Hc Hc'). lia.
Qed.

Lemma same_terms_vesting a a' t v : same_terms a a' -> still_vesting a' t v -> still_vesting a t v.
Proof.
  intros (Ek & Ec & Ep) Hv. apply still_vesting_Ok in Hv as (env & s & c & Hc & -> & Hu). apply still_vesting_Ok.
  unfold AccountExt.get_vested_coins, Account.get_current_vesting_period, Account.tokens_per_period,
    Account.num_vesting_periods, Account.unpopulated in *. rewrite Ep, Ec in *.
  destruct (head _), (last _); try done. simpl in *. exists env, s, c. done.
Qed.

Lemma locked_later s t t' : locked_ok s t -> t <= t' -> locked_ok s t'.
Proof. intros Hl Ht o a t'' v Ha Ht' Hv. apply (Hl o a t'' v); [done|lia|done]. Qed.

(** A withdrawal leaves what is still vesting. *)
Lemma withdraw_locked s env info c s' out :
  books_ok s -> 0 <= amount c -> locked_ok s (env_time env) ->
  Vesting.execute s env info (VestingExecuteMsg.WithdrawVestedCoins c) = Ok (s', out) -> locked_ok s' (env_time env).
Proof.
  intros Hb Hc Hl Hr. simpl in Hr. unfold Vesting.try_withdraw_vested_coins in Hr. run_inv. find_account.
  match goal with H : AccountExt.spendable_coins _ _ _ _ = Ok _ |- _ =>
    unfold AccountExt.spendable_coins, AccountExt.locked_coins in H end. run_inv. simpl in *.
  match goal with H : AccountExt.total_staked _ _ = Ok _ |- _ =>
    apply (total_staked_le _ _ _ (books_amounts _ Hb)) in H as Hst end.
  pose proof (load_balance_nonneg s (Account.storage_key x0) (books_amounts _ Hb)) as Hbal.
  match goal with H : AccountExt.withdraw _ _ _ = Ok _ |- _ =>
    destruct (withdraw_step s _ _ Hb Ha c _ ltac:(unfold saturating_sub in *; lia) H) as [[_ Hacc' _] Hh] end.
  intros o' a' t' v Ha' Ht' Hv. destruct (Hacc' _ _ Ha') as (o0 & a0 & Ha0 & Hsame).
  pose proof (same_terms_vesting _ _ _ _ Hsame Hv) as Hv0. destruct Hsame as (Ek & _ & _). rewrite Ek, Hh.
  case_decide as Hk; [|rewrite Z.sub_0_r; by apply (Hl o0 a0 t')].
  assert (o0 = o) as -> by (by apply (books_keys_differ _ Hb _ _ _ _ Ha0 Ha)). rewrite Ha in Ha0. simplify_eq.
  match goal with H : AccountExt.get_vesting_coins _ None _ _ = Ok ?x |- _ =>
    assert (still_vesting a0 (env_time env) (amount x)) as Hnow by (exists env, s, x; split; [exact H|done]) end.
  pose proof (still_vesting_mono _ _ _ _ Ht' (books_coin _ Hb _ _ Ha) Hv0 _ Hnow) as Hle.
  pose proof (Hl _ _ _ _ Ha Ht' Hv0). unfold saturating_sub in *. lia.
Qed.

Lemma vesting_run_ok s t : vesting_run s t -> books_ok s /\ locked_ok s t.
Proof.
  induction 1 as [info msg s t Hs|s t env info msg s' out _ [Hb Hl] Ht [Hf Hm] Hret Hr].
  - destruct (instantiate_books _ _ _ Hs) as [Hb Ea]. split; [done|]. intros o a t' v. rewrite Ea. done.
  - apply (locked_later _ _ _ Hl) in Ht as Hl'.
    assert ((exists o st sp c, msg = VestingExecuteMsg.CreateAccount o st sp c) \/
      (forall o st sp c, msg <> VestingExecuteMsg.CreateAccount o st sp c)) as [(o & st & sp & c & ->)|Hnew]
      by (destruct msg; eauto 10; right; congruence).
    { destruct (create_step _ _ _ _ _ _ _ _ _ Hb Hf Hr) as (Hb' & Hh & a & Ef & Hha & Ea). split; [done|].
      intros o' a' t' v Ha' Ht' Hv. rewrite Ea, lookup_insert_Some in Ha'. destruct Ha' as [[<- <-]|[_ Ha']].
      - rewrite Hha. apply still_vesting_Ok in Hv as (env' & s0 & c' & Hc' & -> & _).
        rewrite Ef in Hf. apply Forall_inv in Hf. pose proof (vested_bounds _ _ _ _ _ Hc' Hf). lia.
      - rewrite Hh by (by eapply books_key). by apply (Hl' o' a' t'). }
    pose proof (execute_step _ _ _ _ _ _ Hb Hm Hnew Hr) as [Hb' Hacc Hval]. split; [done|].
    assert ((exists c, msg = VestingExecuteMsg.WithdrawVestedCoins c) \/
      (forall c, msg <> VestingExecuteMsg.WithdrawVestedCoins c)) as [[c ->]|Hw]
      by (destruct msg; eauto; right; congruence); [exact (withdraw_locked _ _ _ _ _ _ Hb Hm Hl' Hr)|].
    intros o' a' t' v Ha' Ht' Hv. destruct (Hacc _ _ Ha') as (o0 & a & Ha & Hsame).
    pose proof (same_terms_vesting _ _ _ _ Hsame Hv) as Hv0. destruct Hsame as (Ek & _ & _). rewrite Ek.
    pose proof (Hl' _ _ _ _ Ha Ht' Hv0). pose proof (Hval (Account.storage_key a)) as Hval'.
    pose proof (Hret (Account.storage_key a)). unfold value, load_withdrawn in Hval'.
    rewrite (execute_withdrawns _ _ _ _ _ _ Hw Hr) in Hval'. lia.
Qed.

End Messages.
