(* ===== verification/VestingSchedule.v ===== *)
(** * The schedule of vesting

    The tokens of an account that has vested at a time, computed by the
    contract with a walk over the periods, in closed form; and the theorems
    on the tokens of accounts: they are released by the schedule, and what is
    still vesting stays with the account. *)

From S2P Require Import Prelude Bytes Cosmwasm MixnetTypes MixnetStorage MixnetTransactions Accounting MixnetSample.
From S2P Require Import VestingTypes VestingStorage VestingAccount VestingTransactions VestingBooks VestingLocked.
#[local] Open Scope Z_scope.

(** The amount vested at time [t], in nanoseconds, of [total] tokens over [n] periods of [p] seconds
    from [start] on: an equal share per completed period, and the remainder after the end. *)
Definition vested_at (start p n total t : Z) : Z :=
  if t / NANOS <? start then 0
  else if (start + n * p) * NANOS <? t then total
  else (t - start * NANOS) / (p * NANOS) * (total / n).

(** The periods of a schedule. *)
Definition schedule (start p n : Z) : list VestingPeriod := (fun i => mkPeriod (start + i * p) p) <$> zrange 0 n.

Lemma NANOS_pos : 0 < NANOS.
Proof. done. Qed.

Lemma vested_at_bounds start p n total t :
  0 < p -> 0 < n -> 0 <= total -> 0 <= vested_at start p n total t <= total.
Proof.
  intros Hp Hn Ht. pose proof NANOS_pos. unfold vested_at. destruct (Z.ltb_spec (t / NANOS) start) as [|Hs]; [lia|].
  destruct (Z.ltb_spec ((start + n * p) * NANOS) t) as [|He]; [lia|].
  assert (start * NANOS <= t) by (pose proof (Z.mul_div_le t NANOS ltac:(lia)); nia).
  assert (0 <= (t - start * NANOS) / (p * NANOS)) by (apply Z.div_pos; nia).
  assert ((t - start * NANOS) / (p * NANOS) <= n) by (apply Z.div_le_upper_bound; nia).
  pose proof (Z.mul_div_le total n ltac:(lia)). pose proof (Z.div_pos total n ltac:(lia) ltac:(lia)). nia.
Qed.

Section Schedule.
Context `{CosmMath} `{!CosmMathLaws} `{ChainApi} `{TimestampApi} `{!TimestampApiLaws}.

Lemma mapM_outcome_inv {E A B} (f : A -> outcome E B) (g : A -> B) l ys :
  (forall x y, x ∈ l -> f x = Ok y -> y = g x) -> mapM_outcome f l = Ok ys -> ys = g <$> l.
Proof.
  revert ys. induction l as [|x l IH]; intros ys Hg Hl; simpl in Hl; run_inv; [done|].
  rewrite fmap_cons. f_equal; [apply Hg; [constructor|done]|].
  apply IH; [|done]. intros z w Hz. apply Hg. by constructor.
Qed.

Lemma populate_schedule start spec ps :
  populate_vesting_periods start spec = Ok ps -> ps = schedule start (period_seconds_of spec) (num_periods_of spec).
Proof.
  unfold populate_vesting_periods, schedule. apply mapM_outcome_inv. intros i y _ Hy. by vesting_inv.
Qed.

(** The end of a period, before the year 2554. *)
Lemma end_time_Ok start p i :
  0 <= start + i * p + p -> (start + i * p + p) * NANOS <= u64_max ->
  Account.end_time (mkPeriod (start + i * p) p) = Ok ((start + i * p + p) * NANOS).
Proof.
  intros H0' Hle. pose proof NANOS_pos. unfold Account.end_time. simpl.
  assert (u64_add (start + i * p) p = Ok (E := VestingError.t) (start + i * p + p)) as -> by (apply u64_add_Ok; split; [done|nia]).
  simpl. apply or_panic_Ok, timestamp_from_seconds_spec. split; [done|nia].
Qed.

(** The walk over the remaining periods stops at the number of completed ones. *)
Lemma period_index_schedule start p n t k :
  0 < p -> 0 <= start -> (start + n * p) * NANOS <= u64_max -> start * NANOS <= t -> (Z.of_nat k <= n) ->
  (n - Z.of_nat k) * (p * NANOS) <= t - start * NANOS ->
  Account.period_index t (n - Z.of_nat k) ((fun i => mkPeriod (start + i * p) p) <$> zrange (n - Z.of_nat k) n) =
  Ok (Z.min n ((t - start * NANOS) / (p * NANOS))).
Proof.
  intros Hp Hs Hmax Ht. pose proof NANOS_pos. induction k as [|k IH]; intros Hk Hle.
  - rewrite Z.sub_0_r in *. rewrite zrange_nil by lia. simpl. f_equal.
    pose proof (Z.div_le_lower_bound (t - start * NANOS) (p * NANOS) n ltac:(nia) ltac:(nia)). lia.
  - rewrite zrange_cons by lia. rewrite fmap_cons. cbn [Account.period_index].
    set (i := n - Z.of_nat (S k)) in *. rewrite end_time_Ok; [|nia|nia]. cbn [obind].
    destruct (Z.ltb_spec t ((start + i * p + p) * NANOS)) as [Hlt|Hge].
    + f_equal. assert ((t - start * NANOS) / (p * NANOS) = i) as ->; [|lia].
      symmetry. apply (Z.div_unique _ _ i (t - start * NANOS - i * (p * NANOS))); nia.
    + replace (i + 1) with (n - Z.of_nat k) by lia. apply IH; [lia|]. unfold i in *. nia.
Qed.

(** The vested coins of an account with such a schedule. *)
Lemma vested_schedule a start p n t env s :
  Account.periods a = schedule start p n -> 0 < p -> 0 < n -> 0 <= start -> (start + n * p) * NANOS <= u64_max ->
  n <= amount (Account.coin a) <= u128_max ->
  AccountExt.get_vested_coins a (Some t) env s =
  Ok (mkCoin (mix_denom s) (vested_at start p n (amount (Account.coin a)) t)).
Proof.
  intros Ea Hp Hn Hs Hmax Ht. pose proof NANOS_pos.
  unfold AccountExt.get_vested_coins, Account.get_current_vesting_period, Account.unpopulated. rewrite Ea.
  assert (head (schedule start p n) = Some (mkPeriod (start + 0 * p) p)) as -> by (unfold schedule; by rewrite zrange_cons by lia).
  assert (last (schedule start p n) = Some (mkPeriod (start + (n - 1) * p) p)) as ->.
  { unfold schedule. rewrite <- (Z.sub_add 1 n) at 1. rewrite zrange_snoc by lia. by rewrite fmap_app, list_fmap_singleton, last_snoc. }
  cbn [or_err obind]. rewrite timestamp_seconds_spec. cbn [start_time from_option]. unfold id. rewrite Z.mul_0_l, Z.add_0_r.
  unfold vested_at. destruct (Z.ltb_spec (t / NANOS) start) as [|Hge]; [done|].
  rewrite end_time_Ok by nia. cbn [obind]. replace (start + (n - 1) * p + p) with (start + n * p) by lia.
  destruct (Z.ltb_spec ((start + n * p) * NANOS) t) as [|Hend]; [done|].
  assert (start * NANOS <= t) as Hst by (pose proof (Z.mul_div_le t NANOS ltac:(lia)); nia).
  pose proof (period_index_schedule start p n t (Z.to_nat n) Hp Hs Hmax Hst) as Hi.
  rewrite Z2Nat.id in Hi by lia. rewrite Z.sub_diag in Hi. unfold schedule. rewrite Hi by lia. cbn [obind].
  unfold Account.tokens_per_period, Account.num_vesting_periods. rewrite Ea. unfold schedule. rewrite len_fmap, len_zrange.
  replace (Z.max 0 (n - 0)) with n by lia.
  destruct (Z.ltb_spec (amount (Account.coin a)) n); [lia|]. destruct (Z.eqb_spec n 0); [lia|]. cbn [obind].
  set (j := (t - start * NANOS) / (p * NANOS)) in *.
  assert (0 <= j <= n) as Hj by (unfold j; split; [apply Z.div_pos; nia|apply Z.div_le_upper_bound; nia]).
  rewrite Z.min_r by lia. pose proof (Z.mul_div_le (amount (Account.coin a)) n ltac:(lia)).
  pose proof (Z.div_pos (amount (Account.coin a)) n ltac:(lia) ltac:(lia)).
  assert (u128_mul (amount (Account.coin a) / n) j = Ok (E := VestingError.t) (amount (Account.coin a) / n * j)) as ->
    by (apply u128_mul_Ok; split; [done|nia]).
  cbn [obind]. do 2 f_equal. lia.
Qed.

(** C32: the tokens of a new account are released by its schedule: at any time the contract reports
    as vested an equal share for every completed period, and everything after the last one; the rest
    is reported as still vesting.  Both are always between nothing and everything.  Assumed are at
    least one period of at least one second, a schedule that ends within the range of timestamps, and
    at least one unit per period. *)
Theorem vesting_follows_schedule s env info owner staking spec cap s' out t env' s1 :
  Vesting.execute s env info (VestingExecuteMsg.CreateAccount owner staking spec cap) = Ok (s', out) ->
  let spec := default default_specification spec in
  let start := default (block_time_secs env) (spec_start_time spec) in
  let p := period_seconds_of spec in
  let n := num_periods_of spec in
  0 <= start -> 0 < p -> 0 < n -> (start + n * p) * NANOS <= u64_max ->
  exists o a coin, addr_validate owner = Some o /\ accounts s' !! o = Some a /\ funds info = [coin] /\
    (n <= amount coin <= u128_max ->
     let vested := vested_at start p n (amount coin) t in
     0 <= vested <= amount coin /\
     AccountExt.get_vested_coins a (Some t) env' s1 = Ok (mkCoin (mix_denom s1) vested) /\
     AccountExt.get_vesting_coins a (Some t) env' s1 = Ok (mkCoin (mix_denom s1) (amount coin - vested))).
Proof.
  intros Hr sp start p n Hs Hp Hn Hmax. simpl in Hr. autounfold with vesting in Hr. run_inv.
  unfold vesting_addr_validate in *. run_inv.
  match goal with H : Vesting.validate_funds _ _ = Ok _ |- _ => apply validate_funds_Ok in H as (Ef & _ & _) end.
  match goal with H : populate_vesting_periods _ _ = Ok _ |- _ => apply populate_schedule in H as Eps end.
  match goal with |- context [save_account _ ?a] => set (acc := a) end.
  do 2 eexists. exists (Account.coin acc). split_and!; [eassumption|simpl; apply lookup_insert_eq|exact Ef|].
  intros Hc. assert (0 <= amount (Account.coin acc)) as H0' by lia.
  pose proof (vested_at_bounds start p n (amount (Account.coin acc)) t Hp Hn H0') as Hb.
  pose proof (vested_schedule acc start p n t env' s1 Eps Hp Hn Hs Hmax Hc) as Hv. split_and!; [lia|lia|exact Hv|].
  unfold AccountExt.get_vesting_coins, AccountExt.get_original_vesting, Account.period_duration.
  replace (head (Account.periods acc)) with (Some (mkPeriod (start + 0 * p) p)).
  2:{ change (Account.periods acc) with x4. rewrite Eps. unfold schedule. fold sp start n p. by rewrite zrange_cons by lia. }
  cbn [or_err obind]. rewrite Hv. cbn [obind ov_amount amount].
  assert (usub (amount (Account.coin acc)) (vested_at start p n (amount (Account.coin acc)) t) =
    Ok (E := VestingError.t) (amount (Account.coin acc) - vested_at start p n (amount (Account.coin acc)) t)) as ->
    by (apply usub_Ok; unfold is_u128; split; [done|lia]).
  done.
Qed.

(** C13: on every run of the contract in which the mixnet contract returns at least what was staked,
    an account has what is still vesting, now and later: in the contract, delegated or pledged.  So
    no sequence of withdrawals, staking, transfers and updates pays out unvested tokens. *)
Theorem vesting_tokens_stay_locked s t o a t' v :
  vesting_run s t -> accounts s !! o = Some a -> t <= t' -> still_vesting a t' v ->
  v <= holdings s (Account.storage_key a).
Proof. intros [_ Hl]%vesting_run_ok Ha Ht Hv. by apply (Hl o a t'). Qed.

End Schedule.

(** ** A sample run *)

#[local] Existing Instances fixed_point fixed_point_laws sample_api nanosecond_clock nanosecond_clock_laws.

Definition vesting_init : InitMsg := mkInit "mixnet" "unym".

(** Four periods of a thousand seconds from time 1000 on, and no cap on staking. *)
Definition sample_spec : VestingSpecification := mkSpecification (Some 1000) (Some 1000) (Some 4).

Definition create_sample : VestingExecuteMsg.t :=
  VestingExecuteMsg.CreateAccount "anna" None (Some sample_spec) (Some (CapAbsolute 1_000_000_000)).

Definition vesting_store (m : vresult VestingStore) : VestingStore :=
  match m with Ok s => s | _ => mkVestingStore None ∅ ∅ ∅ ∅ ∅ ∅ EmptyString EmptyString EmptyString end.

(** The store after a message. *)
Definition after (s : VestingStore) (t : Z) (who : string) (coins : list Coin) (msg : VestingExecuteMsg.t) : VestingStore :=
  vesting_store (let? (s', _) := Vesting.execute s (at_time t) (mkInfo who coins) msg in Ok s').

Definition vesting_s0 : VestingStore := vesting_store (Vesting.instantiate (mkInfo "admin" []) vesting_init).
Definition vesting_s1 : VestingStore := after vesting_s0 500 "admin" [nym 1_000_000_003] create_sample.
Definition vesting_s2 : VestingStore := after vesting_s1 2500 "anna" [] (VestingExecuteMsg.DelegateToMixnode 1 (nym 300_000_000) None).
Definition vesting_s3 : VestingStore := after vesting_s2 2500 "anna" [] (VestingExecuteMsg.WithdrawVestedCoins (nym 250_000_000)).

Lemma vesting_follows_schedule_witness :
  exists a, accounts vesting_s1 !! "anna"%string = Some a /\
    AccountExt.get_vested_coins a (Some (3500 * NANOS)) (at_time 0) vesting_s1 = Ok (nym 500_000_000) /\
    AccountExt.get_vested_coins a (Some (5000 * NANOS)) (at_time 0) vesting_s1 = Ok (nym 1_000_000_000) /\
    AccountExt.get_vested_coins a (Some (5000 * NANOS + 1)) (at_time 0) vesting_s1 = Ok (nym 1_000_000_003).
Proof.
  eexists. split; [vm_compute; reflexivity|]. split; [|split; vm_compute; reflexivity].
  destruct (@vesting_follows_schedule fixed_point fixed_point_laws sample_api nanosecond_clock nanosecond_clock_laws vesting_s0 (at_time 500) (mkInfo "admin" [nym 1_000_000_003]) "anna" None
    (Some sample_spec) (Some (CapAbsolute 1_000_000_000)) vesting_s1 [] (3500 * NANOS) (at_time 0) vesting_s1
    ltac:(vm_compute; reflexivity) ltac:(vm_compute; discriminate) ltac:(vm_compute; reflexivity)
    ltac:(vm_compute; reflexivity) ltac:(vm_compute; discriminate)) as (o & a & coin & Ho & Ha & Hc & Hv).
  vm_compute in Ho. injection Ho as <-. injection Hc as <-. vm_compute in Ha. injection Ha as <-.
  destruct Hv as (_ & Hv & _); [split; vm_compute; discriminate|]. etransitivity; [exact Hv|]. vm_compute. reflexivity.
Defined.

(** Without a message of the mixnet contract nothing is returned. *)
Lemma returns_nothing s msg : tracked msg = None -> returns_enough s msg.
Proof. intros Ht key. unfold gain. rewrite Ht. lia. Qed.

Lemma vesting_s3_run : vesting_run vesting_s3 (env_time (at_time 2500)).
Proof.
  eapply (vesting_step vesting_s2 (env_time (at_time 2500)) (at_time 2500) (mkInfo "anna" [])
    (VestingExecuteMsg.WithdrawVestedCoins (nym 250_000_000)));
    [|reflexivity|split; [cbn; repeat constructor; vm_compute; discriminate|vm_compute; discriminate]|by apply returns_nothing|vm_compute; reflexivity].
  eapply (vesting_step vesting_s1 (env_time (at_time 500)) (at_time 2500) (mkInfo "anna" [])
    (VestingExecuteMsg.DelegateToMixnode 1 (nym 300_000_000) None));
    [|vm_compute; discriminate|split; [cbn; repeat constructor; vm_compute; discriminate|vm_compute; discriminate]|by apply returns_nothing|vm_compute; reflexivity].
  eapply (vesting_step vesting_s0 0 (at_time 500) (mkInfo "admin" [nym 1_000_000_003])
    create_sample);
    [|vm_compute; discriminate|split; [cbn; repeat constructor; vm_compute; discriminate|vm_compute; discriminate]|by apply returns_nothing|vm_compute; reflexivity].
  eapply (vesting_start (mkInfo "admin" []) vesting_init). vm_compute. reflexivity.
Qed.

Lemma vesting_tokens_stay_locked_witness :
  exists a, accounts vesting_s3 !! "anna"%string = Some a /\ 750_000_003 <= holdings vesting_s3 (Account.storage_key a).
Proof.
  eexists. split; [vm_compute; reflexivity|].
  eapply (vesting_tokens_stay_locked vesting_s3 (env_time (at_time 2500)) "anna" _ (env_time (at_time 2500)));
    [exact vesting_s3_run|vm_compute; reflexivity|reflexivity|].
  exists (at_time 2500), vesting_s3, (nym 750_000_003). split; [vm_compute; reflexivity|reflexivity].
Defined.
