(* ===== verification/VestingTyping.v ===== *)
(** * Types of the vesting store

    Numbers of the model are integers; here is that the contract keeps every
    stored one within the type the source gives it, every entry under a
    storage key that was issued, and every stored or sent coin in its own
    denomination. *)

From S2P Require Import Prelude Bytes Cosmwasm MixnetTypes MixnetStorage MixnetTransactions Accounting MixnetSample.
From S2P Require Import VestingTypes VestingStorage VestingAccount VestingTransactions VestingBooks VestingLocked VestingSchedule.
#[local] Open Scope Z_scope.

(** A coin of the denomination [d]. *)
Definition typed_coin (d : string) (c : Coin) : Prop := is_u128 (amount c) /\ denom c = d.

Definition typed_period (p : VestingPeriod) : Prop := is_u64 (start_time p) /\ is_u64 (period_seconds p).

Definition typed_pledge (d : string) (p : PledgeData) : Prop :=
  typed_coin d (pledge_amount p) /\ is_u64 (pledge_block_time p).

(** A storage key, when [n] keys were issued. *)
Definition issued (n : Z) (key : VestingAccountStorageKey) : Prop := 1 <= key <= n.

Record typed_account (n : Z) (d : string) (a : Account.t) : Prop := {
  ta_coin : typed_coin d (Account.coin a);
  ta_key : issued n (Account.storage_key a);
  ta_start : is_u64 (Account.start_time a);
  ta_periods : Forall typed_period (Account.periods a)
}.

Record typed (s : VestingStore) : Prop := {
  typed_counter : is_u32 (key_counter s);
  typed_accounts o a : accounts s !! o = Some a -> Account.owner_address a = o /\ typed_account (key_counter s) (mix_denom s) a;
  typed_balances key v : balances s !! key = Some v -> issued (key_counter s) key /\ is_u128 v;
  typed_withdrawns key v : withdrawns s !! key = Some v -> issued (key_counter s) key /\ is_u128 v;
  typed_bonds key p : bond_pledges s !! key = Some p -> issued (key_counter s) key /\ typed_pledge (mix_denom s) p;
  typed_gateways key p : gateway_pledges s !! key = Some p -> issued (key_counter s) key /\ typed_pledge (mix_denom s) p;
  typed_delegations key i t v :
    vesting_delegations s !! (key, i, t) = Some v ->
    issued (key_counter s) key /\ is_u32 i /\ is_u64 t /\ is_u128 v
}.

(** What a response sends along. *)
Definition out_coins (o : VestingOut) : list Coin :=
  match o with PayOut _ coins => coins | CallMixnet _ _ coins => coins end.

(** What the types of the message, the environment and the funds guarantee. *)
Definition typed_spec (sp : VestingSpecification) : Prop :=
  (forall x, spec_start_time sp = Some x -> is_u64 x) /\ (forall x, spec_period_seconds sp = Some x -> is_u64 x).

Definition typed_msg (msg : VestingExecuteMsg.t) : Prop :=
  is_u128 (message_amount msg) /\
  match msg with
  | VestingExecuteMsg.DelegateToMixnode mix_id _ _ => is_u32 mix_id
  | VestingExecuteMsg.CreateAccount _ _ (Some spec) _ => typed_spec spec
  | _ => True
  end.

Definition typed_env (env : Env) : Prop := is_u64 (block_time_secs env) /\ is_u64 (env_time env).

Definition typed_input (env : Env) (info : MessageInfo) (msg : VestingExecuteMsg.t) : Prop :=
  typed_env env /\ Forall (fun c => is_u128 (amount c)) (funds info) /\ typed_msg msg.

(** What a message leaves: a typed store, the denomination, and coins of that denomination. *)
Definition step_typed (s s' : VestingStore) (out : list VestingOut) : Prop :=
  typed s' /\ mix_denom s' = mix_denom s /\ Forall (fun o => Forall (typed_coin (mix_denom s)) (out_coins o)) out.

(** ** Updates *)

Lemma typed_save_balance s key v : typed s -> issued (key_counter s) key -> is_u128 v -> typed (save_balance s key v).
Proof.
  intros [T1 T2 T3 T4 T5 T6 T7] Hk Hv. split; try done.
  intros k w. simpl. rewrite lookup_insert_Some. intros [[<- <-]|[_ ?]]; [done|by apply T3].
Qed.

Lemma typed_save_withdrawn s key v : typed s -> issued (key_counter s) key -> is_u128 v -> typed (save_withdrawn s key v).
Proof.
  intros [T1 T2 T3 T4 T5 T6 T7] Hk Hv. split; try done.
  intros k w. simpl. rewrite lookup_insert_Some. intros [[<- <-]|[_ ?]]; [done|by apply T4].
Qed.

Lemma typed_save_bond s key p :
  typed s -> issued (key_counter s) key -> typed_pledge (mix_denom s) p -> typed (save_bond_pledge s key p).
Proof.
  intros [T1 T2 T3 T4 T5 T6 T7] Hk Hp. split; try done.
  intros k w. simpl. rewrite lookup_insert_Some. intros [[<- <-]|[_ ?]]; [done|by apply T5].
Qed.

Lemma typed_save_gateway s key p :
  typed s -> issued (key_counter s) key -> typed_pledge (mix_denom s) p -> typed (save_gateway_pledge s key p).
Proof.
  intros [T1 T2 T3 T4 T5 T6 T7] Hk Hp. split; try done.
  intros k w. simpl. rewrite lookup_insert_Some. intros [[<- <-]|[_ ?]]; [done|by apply T6].
Qed.

Lemma typed_remove_bond s key : typed s -> typed (remove_bond_pledge s key).
Proof. intros [T1 T2 T3 T4 T5 T6 T7]. split; try done. intros k w. simpl. intros [_ ?]%lookup_delete_Some. by apply T5. Qed.

Lemma typed_remove_gateway s key : typed s -> typed (remove_gateway_pledge s key).
Proof. intros [T1 T2 T3 T4 T5 T6 T7]. split; try done. intros k w. simpl. intros [_ ?]%lookup_delete_Some. by apply T6. Qed.

Lemma typed_set_delegations s m : typed s -> m ⊆ vesting_delegations s -> typed (set_vesting_delegations s m).
Proof. intros [T1 T2 T3 T4 T5 T6 T7] Hm. split; try done. intros k i t w ?. by eapply T7, lookup_weaken. Qed.

Lemma typed_save_account s a :
  typed s -> typed_account (key_counter s) (mix_denom s) a -> typed (save_account s a).
Proof.
  intros [T1 T2 T3 T4 T5 T6 T7] Ha. split; try done.
  intros o b. simpl. rewrite lookup_insert_Some. intros [[<- <-]|[_ ?]]; [done|by apply T2].
Qed.

Lemma typed_delete_account s o : typed s -> typed (delete_account s o).
Proof. intros [T1 T2 T3 T4 T5 T6 T7]. split; try done. intros o' b. simpl. intros [_ ?]%lookup_delete_Some. by apply T2. Qed.

Lemma typed_set_mixnet s c : typed s -> typed (set_mixnet_contract_address s c).
Proof. intros [T1 T2 T3 T4 T5 T6 T7]. by split. Qed.

(** A key more. *)
Lemma typed_next_key s : typed s -> key_counter s + 1 <= u32_max -> typed (set_storage_key_counter s (Some (key_counter s + 1))).
Proof.
  intros [T1 T2 T3 T4 T5 T6 T7] Hn.
  assert (forall k, issued (key_counter s) k -> issued (key_counter s + 1) k) as Hi by (unfold issued; lia).
  split; simpl.
  - change (is_u32 (key_counter s + 1)). unfold is_u32 in *. lia.
  - intros o a Ha. destruct (T2 _ _ Ha) as [Ho [A1 A2 A3 A4]]. split; [done|]. split; [done|by apply Hi|done|done].
  - intros k v Hv. destruct (T3 _ _ Hv). by split; [apply Hi|].
  - intros k v Hv. destruct (T4 _ _ Hv). by split; [apply Hi|].
  - intros k v Hv. destruct (T5 _ _ Hv). by split; [apply Hi|].
  - intros k v Hv. destruct (T6 _ _ Hv). by split; [apply Hi|].
  - intros k i t v Hv. destruct (T7 _ _ _ _ Hv). by split; [apply Hi|].
Qed.

Lemma typed_load_balance s key : typed s -> is_u128 (load_balance s key).
Proof.
  intros Ht. unfold load_balance. destruct (balances s !! key) as [v|] eqn:E; simpl; [by eapply typed_balances|].
  split; [lia|]. by vm_compute.
Qed.

Section Messages.
Context `{CosmMath} `{!CosmMathLaws} `{ChainApi} `{TimestampApi} `{!TimestampApiLaws}.

Lemma typed_save_delegation s key i t v s' :
  typed s -> issued (key_counter s) key -> is_u32 i -> is_u64 t ->
  VestingStorage.save_delegation s (key, i, t) v = Ok s' ->
  typed s' /\ mix_denom s' = mix_denom s /\ key_counter s' = key_counter s.
Proof.
  intros [T1 T2 T3 T4 T5 T6 T7] Hk Hi Ht Hr. unfold VestingStorage.save_delegation in Hr. run_inv. math_inv.
  split_and!; [|done|done]. split; try done. intros k j u w. simpl. rewrite lookup_insert_Some.
  intros [[[= <- <- <-] <-]|[_ ?]]; [done|by apply T7].
Qed.

Lemma account_typed s address a :
  typed s -> account_from_address s address = Ok a -> typed_account (key_counter s) (mix_denom s) a.
Proof. intros Ht (o & _ & Ha)%account_from_address_Ok. by destruct (typed_accounts _ Ht _ _ Ha). Qed.

Lemma staking_account_typed s info p a :
  typed s -> Vesting.staking_account s info p = Ok a -> typed_account (key_counter s) (mix_denom s) a.
Proof. intros Ht [o Ha]%staking_account_Ok. by destruct (typed_accounts _ Ht _ _ Ha). Qed.

(** ** Operations of an account *)

Section OneAccount.
Context (s : VestingStore) (a : Account.t) (Ht : typed s) (Ha : typed_account (key_counter s) (mix_denom s) a).

Lemma step_same out : Forall (fun o => out_coins o = []) out -> step_typed s s out.
Proof. intros Ho. split_and!; [done|done|]. eapply Forall_impl; [exact Ho|]. intros o ->. constructor. Qed.

Lemma credit_typed v :
  is_u128 v -> typed (save_balance s (Account.storage_key a) v).
Proof. apply typed_save_balance; [done|apply Ha]. Qed.

Let balance_typed : is_u128 (load_balance s (Account.storage_key a)) := typed_load_balance _ _ Ht.

Let sent c m out : typed_coin (mix_denom s) c -> out = [AccountExt.call_mixnet s m [c]] ->
  Forall (fun o => Forall (typed_coin (mix_denom s)) (out_coins o)) out.
Proof. intros Hc ->. rewrite Forall_singleton. simpl. by rewrite Forall_singleton. Qed.

Lemma delegate_typed i c env s' out :
  typed_coin (mix_denom s) c -> is_u32 i -> typed_env env ->
  AccountExt.try_delegate_to_mixnode a i c env s = Ok (s', out) -> step_typed s s' out.
Proof.
  intros Hc Hi [He _] Hr. unfold AccountExt.try_delegate_to_mixnode, AccountExt.track_delegation in Hr.
  run_step. apply stake_balance in E as [-> Hle]. vesting_inv. destruct Hc as [Hc Hd].
  match goal with E : VestingStorage.save_delegation _ _ _ = Ok _ |- _ =>
    destruct (typed_save_delegation _ _ _ _ _ _ Ht (ta_key _ _ _ Ha) Hi He E) as (Ht' & Ed & Ek) end.
  split_and!; [|done|by eapply sent]. apply typed_save_balance; [done|rewrite Ek; apply Ha|].
  unfold is_u128 in *. lia.
Qed.

Lemma bond_mixnode_typed m cp sg c env s' out :
  typed_coin (mix_denom s) c -> typed_env env ->
  AccountExt.try_bond_mixnode a m cp sg c env s = Ok (s', out) -> step_typed s s' out.
Proof.
  intros Hc [_ He] Hr. unfold AccountExt.try_bond_mixnode in Hr.
  run_step. apply stake_balance in E as [-> Hle]. destruct (load_bond_pledge s _); vesting_inv.
  split_and!; [|done|by eapply sent]. apply typed_save_bond; [apply credit_typed|apply Ha|done].
  destruct Hc. unfold is_u128 in *. lia.
Qed.

Lemma bond_gateway_typed g sg c env s' out :
  typed_coin (mix_denom s) c -> typed_env env ->
  AccountExt.try_bond_gateway a g sg c env s = Ok (s', out) -> step_typed s s' out.
Proof.
  intros Hc [_ He] Hr. unfold AccountExt.try_bond_gateway in Hr.
  run_step. apply stake_balance in E as [-> Hle]. destruct (load_gateway_pledge s _); vesting_inv.
  split_and!; [|done|by eapply sent]. apply typed_save_gateway; [apply credit_typed|apply Ha|done].
  destruct Hc. unfold is_u128 in *. lia.
Qed.

Lemma pledge_more_typed c env s' out :
  typed_coin (mix_denom s) c -> typed_env env ->
  AccountExt.try_pledge_additional_tokens a c env s = Ok (s', out) -> step_typed s s' out.
Proof.
  intros Hc [_ He] Hr. unfold AccountExt.try_pledge_additional_tokens, load_bond_pledge in Hr.
  run_step. apply stake_balance in E as [-> Hle]. vesting_inv.
  destruct (typed_bonds _ Ht _ _ E) as [_ [[_ Hd] _]].
  split_and!; [|done|by eapply sent]. apply typed_save_bond; [apply credit_typed|apply Ha|done].
  destruct Hc. unfold is_u128 in *. lia.
Qed.

Lemma withdraw_typed c s' :
  is_u128 (amount c) -> AccountExt.withdraw a c s = Ok s' -> typed s' /\ mix_denom s' = mix_denom s.
Proof.
  intros Hc Hr. unfold AccountExt.withdraw in Hr. run_inv. math_inv. split; [|done].
  apply typed_save_withdrawn; [apply credit_typed|apply Ha|done]. unfold saturating_sub, is_u128 in *. lia.
Qed.

Lemma track_undelegation_typed i c s' :
  is_u128 (amount c) -> AccountExt.track_undelegation a i c s = Ok s' -> step_typed s s' [].
Proof.
  intros Hc Hr. unfold AccountExt.track_undelegation in Hr. vesting_inv.
  destruct (remove_delegations_frame a i s) as (m & Em & Hm). rewrite Em in *.
  split_and!; [|done|constructor]. apply typed_save_balance; [by apply typed_set_delegations|apply Ha|].
  unfold is_u128, load_balance in *. simpl in *. lia.
Qed.

Lemma track_decrease_typed c s' :
  is_u128 (amount c) -> AccountExt.try_track_decrease_mixnode_pledge a c s = Ok s' -> step_typed s s' [].
Proof.
  intros Hc Hr. unfold AccountExt.try_track_decrease_mixnode_pledge, decrease_bond_pledge in Hr. vesting_inv.
  match goal with E : bond_pledges _ !! _ = Some _ |- _ => simpl in E; destruct (typed_bonds _ Ht _ _ E) as [_ [[_ Hd] Hb]] end.
  split_and!; [|done|constructor]. apply typed_save_bond; [apply credit_typed|apply Ha|done].
  unfold is_u128 in *. lia.
Qed.

End OneAccount.

(** ** New accounts *)

Lemma periods_typed start spec ps :
  is_u64 start -> is_u64 (period_seconds_of spec) -> populate_vesting_periods start spec = Ok ps -> Forall typed_period ps.
Proof.
  unfold populate_vesting_periods. intros Hs Hp. assert (forall i, i ∈ zrange 0 (num_periods_of spec) -> 0 <= i) as Hi
    by (intros i; rewrite elem_of_zrange; lia).
  revert ps Hi. induction (zrange 0 (num_periods_of spec)) as [|i l IH]; intros ps Hi Hr; simpl in Hr; vesting_inv; [constructor|].
  constructor; [|apply IH; [intros j Hj; apply Hi; by constructor|done]].
  pose proof (Hi i ltac:(constructor)). unfold typed_period, is_u64 in *. simpl. nia.
Qed.

Lemma create_typed s env info owner st sp cap s' out :
  typed s -> typed_input env info (VestingExecuteMsg.CreateAccount owner st sp cap) ->
  Vesting.execute s env info (VestingExecuteMsg.CreateAccount owner st sp cap) = Ok (s', out) -> step_typed s s' out.
Proof.
  intros Ht ([He _] & Hfunds & _ & Hsp) Hr. simpl in Hr.
  assert (typed_spec (default default_specification sp)) as [Hs1 Hs2] by by destruct sp.
  autounfold with vesting in Hr. unfold ensure in Hr. vesting_inv.
  match goal with H : Vesting.validate_funds _ _ = Ok _ |- _ => apply validate_funds_Ok in H as (Ef & Hd & _) end.
  match goal with H : timestamp_from_seconds _ = Some _ |- _ => apply timestamp_from_seconds_spec in H as [Es Hts] end.
  rewrite Ef in Hfunds. apply Forall_inv in Hfunds as Hc.
  match goal with H : populate_vesting_periods _ _ = Ok _ |- _ => apply periods_typed in H as Hps end.
  - change (default 0 (storage_key_counter s)) with (key_counter s) in *.
    assert (issued (key_counter s + 1) (key_counter s + 1)) as Hk
      by (pose proof (typed_counter _ Ht) as Hk; unfold is_u32, issued in *; lia).
    split_and!; [|done|constructor].
    apply typed_save_balance; [apply typed_save_account; [by apply typed_next_key|]|exact Hk|done].
    by split; [split| |..].
  - destruct (spec_start_time _) as [x'|]; simpl; [by apply Hs1|done].
  - unfold period_seconds_of. destruct (spec_period_seconds _) as [x'|]; simpl; [by apply Hs2|]. by vm_compute.
Qed.

(** ** Every message *)

(** The account a handler works on. *)
Ltac typed_account_of :=
  match goal with
  | T : typed ?s, H : account_from_address ?s _ = Ok ?a |- _ => pose proof (account_typed s _ a T H) as Hta
  | T : typed ?s, H : Vesting.staking_account ?s _ _ = Ok ?a |- _ => pose proof (staking_account_typed s _ _ a T H) as Hta
  end.

(** The coin of a message, checked against the denomination. *)
Ltac typed_funds :=
  match goal with
  | H : Vesting.validate_funds _ _ = Ok _ |- _ => apply validate_funds_Ok in H as ([= ->] & Hdenom & _)
  end.

Lemma execute_typed s env info msg s' out :
  typed s -> typed_input env info msg -> Vesting.execute s env info msg = Ok (s', out) -> step_typed s s' out.
Proof.
  intros Ht Hin Hr. destruct msg; try (by eapply create_typed); destruct Hin as (He & _ & Hm & Hx); simpl in Hr, Hm, Hx;
    try (autounfold with vesting in Hr; run_inv; apply step_same; [done|by repeat constructor]).
  - unfold Vesting.try_track_reward, AccountExt.track_reward in Hr. vesting_inv. typed_account_of.
    split_and!; [by apply credit_typed|done|constructor].
  - unfold Vesting.try_update_mixnet_address in Hr. run_inv. split_and!; [by apply typed_set_mixnet|done|constructor].
  - unfold Vesting.try_delegate_to_mixnode in Hr. run_inv. typed_funds. typed_account_of. by eapply delegate_typed.
  - unfold Vesting.try_withdraw_vested_coins in Hr. run_inv. typed_account_of.
    match goal with H : AccountExt.withdraw _ _ _ = Ok _ |- _ => destruct (withdraw_typed _ _ Ht Hta _ _ Hm H) as [Ht' Ed] end.
    split_and!; [done|done|]. rewrite Forall_singleton. simpl. rewrite Forall_singleton. split; [done|].
    match goal with H : addr_eqb _ _ = true |- _ => by apply bool_decide_eq_true in H end.
  - unfold Vesting.try_track_undelegation in Hr. run_inv. typed_account_of. by eapply track_undelegation_typed.
  - unfold Vesting.try_bond_mixnode in Hr. run_inv. typed_funds. typed_account_of. by eapply bond_mixnode_typed.
  - unfold Vesting.try_pledge_more in Hr. run_inv. typed_funds. typed_account_of. by eapply pledge_more_typed.
  - unfold Vesting.try_decrease_pledge, AccountExt.try_decrease_mixnode_pledge in Hr. run_inv.
    destruct (load_bond_pledge _ _); run_inv. apply step_same; [done|by repeat constructor].
  - unfold Vesting.try_track_unbond_mixnode, AccountExt.try_track_unbond_mixnode in Hr. vesting_inv. typed_account_of.
    split_and!; [|done|constructor]. apply typed_remove_bond, credit_typed; [done|done|].
    pose proof (typed_load_balance s (Account.storage_key x0) Ht). unfold is_u128 in *. lia.
  - unfold Vesting.try_track_decrease_mixnode_pledge in Hr. run_inv. typed_account_of. by eapply track_decrease_typed.
  - unfold Vesting.try_bond_gateway in Hr. run_inv. typed_funds. typed_account_of. by eapply bond_gateway_typed.
  - unfold Vesting.try_track_unbond_gateway, AccountExt.try_track_unbond_gateway in Hr. vesting_inv. typed_account_of.
    split_and!; [|done|constructor]. apply typed_remove_gateway, credit_typed; [done|done|].
    pose proof (typed_load_balance s (Account.storage_key x0) Ht). unfold is_u128 in *. lia.
  - unfold Vesting.try_transfer_ownership, AccountExt.transfer_ownership in Hr. run_inv. typed_account_of.
    split_and!; [|done|constructor]. apply typed_save_account; [by apply typed_delete_account|by destruct Hta].
  - unfold Vesting.try_update_staking_address, AccountExt.update_staking_address in Hr. run_inv. typed_account_of.
    split_and!; [|by destruct (Account.staking_address _)|constructor].
    destruct (Account.staking_address _); (apply typed_save_account; [try by apply typed_delete_account|by destruct Hta]); done.
  - unfold Vesting.try_update_locked_pledge_cap in Hr. run_inv. typed_account_of.
    split_and!; [|done|constructor]. apply typed_save_account; [done|by destruct Hta].
Qed.

Lemma instantiate_typed info msg s : Vesting.instantiate info msg = Ok s -> typed s.
Proof. unfold Vesting.instantiate. intros Hs. run_inv. by split. Qed.

(** ** Runs *)

(** The stores of the contract under well-typed messages, with everything its responses sent. *)
Inductive typed_run : VestingStore -> list VestingOut -> Prop :=
| typed_start info msg s : Vesting.instantiate info msg = Ok s -> typed_run s []
| typed_step s sent env info msg s' out :
    typed_run s sent -> typed_input env info msg ->
    Vesting.execute s env info msg = Ok (s', out) -> typed_run s' (sent ++ out).

(** C16: whatever messages the vesting contract executes, in whatever order: every balance,
    withdrawal, pledge and delegation in its store is a number of its type under a storage key that was
    issued; the accounts are stored under their owners, with 64-bit times and periods and the tokens of the
    contract's denomination; the counter of keys is a 32-bit number; and every coin that a response
    sent is a 128-bit amount of that denomination.  No addition, subtraction or narrowing of a
    handler leaves its type. *)
Theorem vesting_store_is_typed s sent :
  typed_run s sent ->
  typed s /\ Forall (fun o => Forall (typed_coin (mix_denom s)) (out_coins o)) sent.
Proof.
  induction 1 as [info msg s Hs|s sent env info msg s' out _ [Ht Hsent] Hin Hr].
  - split; [by eapply instantiate_typed|constructor].
  - destruct (execute_typed _ _ _ _ _ _ Ht Hin Hr) as (Ht' & -> & Hout). split; [done|]. by apply Forall_app.
Qed.

End Messages.

(** ** A run *)

#[local] Existing Instances fixed_point fixed_point_laws sample_api nanosecond_clock nanosecond_clock_laws.

Lemma create_sample_typed : typed_msg create_sample.
Proof.
  split; [vm_compute; split; discriminate|]. split; cbn [spec_start_time spec_period_seconds sample_spec]; intros x Hx;
    injection Hx as <-; vm_compute; split; discriminate.
Qed.

Ltac typed_sample :=
  split_and!; [split; vm_compute; split; discriminate
    |cbn [funds]; first [exact (Forall_nil_2 _)|apply Forall_cons_2; [vm_compute; split; discriminate|exact (Forall_nil_2 _)]]
    |first [exact create_sample_typed|split; [vm_compute; split; discriminate|]; first [exact I|vm_compute; split; discriminate]]].

Lemma vesting_s3_typed_run : exists out, typed_run vesting_s3 out /\ 2 = len out.
Proof.
  eexists. split.
  { eapply (typed_step vesting_s2 _ (at_time 2500) (mkInfo "anna" []) (VestingExecuteMsg.WithdrawVestedCoins (nym 250_000_000)));
      [|typed_sample|vm_compute; reflexivity].
    eapply (typed_step vesting_s1 _ (at_time 2500) (mkInfo "anna" []) (VestingExecuteMsg.DelegateToMixnode 1 (nym 300_000_000) None));
      [|typed_sample|vm_compute; reflexivity].
    eapply (typed_step vesting_s0 _ (at_time 500) (mkInfo "admin" [nym 1_000_000_003]) create_sample);
      [|typed_sample|vm_compute; reflexivity].
    eapply (typed_start (mkInfo "admin" []) vesting_init). vm_compute. reflexivity. }
  reflexivity.
Qed.

Lemma vesting_store_is_typed_witness :
  exists out, 2 = len out /\ typed vesting_s3 /\
    Forall (fun o => Forall (typed_coin (mix_denom vesting_s3)) (out_coins o)) out.
Proof.
  destruct vesting_s3_typed_run as (out & Hrun & Hlen). exists out. split; [exact Hlen|].
  exact (vesting_store_is_typed vesting_s3 out Hrun).
Defined.
