(* ===== verification/VestingQueries.v ===== *)
(** * Queries of the vesting contract

    Models [contracts/vesting/src/queries.rs]. *)

From S2P Require Import Prelude Bytes Cosmwasm MixnetTypes MixnetStorage MixnetTransactions MixnetSample Accounting Paging.
From S2P Require Import VestingTypes VestingStorage VestingAccount VestingTransactions VestingBooks VestingLocked VestingSchedule.
#[local] Open Scope Z_scope.

Record BaseVestingAccountInfo : Type := mkBaseInfo { base_account_id : VestingAccountStorageKey; base_owner : Addr }.

Record AccountVestingCoins : Type := mkAccountCoins {
  coins_account_id : VestingAccountStorageKey;
  coins_owner : Addr;
  coins_still_vesting : Coin
}.

(** A page of accounts, or of delegations. *)
Record VestingPage (A K : Type) : Type := mkVestingPage { page_entries : list A; page_next : option K }.
Arguments mkVestingPage {_ _}.
Arguments page_entries {_ _}.
Arguments page_next {_ _}.

Record DelegationTimesResponse : Type := mkDelegationTimes {
  times_owner : Addr;
  times_account_id : VestingAccountStorageKey;
  times_mix_id : MixId;
  delegation_timestamps : list BlockTimestampSecs
}.

Module VestingQuery.

Section Queries.
Context `{CosmMath} `{ChainApi} `{TimestampApi}.

Implicit Types (s : VestingStore) (address : string) (env : Env).

(** ** Accounts *)

Definition try_get_current_vesting_period s address env : vresult Period :=
  let? account := account_from_address s address in
  Account.get_current_vesting_period account (env_time env).

Definition try_get_mixnode s address : vresult (option PledgeData) :=
  let? account := account_from_address s address in
  Ok (load_bond_pledge s (Account.storage_key account)).

Definition try_get_gateway s address : vresult (option PledgeData) :=
  let? account := account_from_address s address in
  Ok (load_gateway_pledge s (Account.storage_key account)).

Definition try_get_account s address : vresult Account.t := account_from_address s address.

(** [start_after.map(|raw| addr_validate(&raw)).transpose()?]. *)
Definition start_address (start_after : option string) : vresult (option Addr) :=
  match start_after with
  | Some raw => let? a := vesting_addr_validate raw in Ok (Some a)
  | None => Ok None
  end.

Definition try_get_all_accounts s (start_after : option string) (limit : option Z)
    : vresult (VestingPage BaseVestingAccountInfo Addr) :=
  let limit := page_limit limit 150 250 in
  let? start := start_address start_after in
  let accounts := (fun kv => mkBaseInfo (Account.storage_key kv.2) (Account.owner_address kv.2)) <$>
                    page start limit (ascending (accounts s)) in
  Ok (mkVestingPage accounts (base_owner <$> last accounts)).

Definition vesting_coins_of s env (account : Account.t) : vresult AccountVestingCoins :=
  let? still_vesting := AccountExt.get_vesting_coins account None env s in
  Ok (mkAccountCoins (Account.storage_key account) (Account.owner_address account) still_vesting).

Definition try_get_all_accounts_vesting_coins s env (start_after : option string) (limit : option Z)
    : vresult (VestingPage AccountVestingCoins Addr) :=
  let limit := page_limit limit 150 250 in
  let? start := start_address start_after in
  let? accounts := mapM_outcome (fun kv => vesting_coins_of s env kv.2) (page start limit (ascending (accounts s))) in
  Ok (mkVestingPage accounts (coins_owner <$> last accounts)).

(** ** Coins *)

Definition try_get_locked_coins s address (block_time : option Timestamp) env : vresult Coin :=
  let? account := account_from_address s address in
  AccountExt.locked_coins account block_time env s.

Definition try_get_spendable_coins s address (block_time : option Timestamp) env : vresult Coin :=
  let? account := account_from_address s address in
  AccountExt.spendable_coins account block_time env s.

Definition try_get_vested_coins s address (block_time : option Timestamp) env : vresult Coin :=
  let? account := account_from_address s address in
  AccountExt.get_vested_coins account block_time env s.

Definition try_get_vesting_coins s address (block_time : option Timestamp) env : vresult Coin :=
  let? account := account_from_address s address in
  AccountExt.get_vesting_coins account block_time env s.

Definition try_get_start_time s address : vresult Timestamp :=
  let? account := account_from_address s address in
  Ok (Account.start_time account).

Definition try_get_end_time s address : vresult Timestamp :=
  let? account := account_from_address s address in
  AccountExt.get_end_time account.

Definition try_get_original_vesting s address : vresult OriginalVestingResponse :=
  let? account := account_from_address s address in
  AccountExt.get_original_vesting account.

Definition try_get_historical_vesting_staking_reward s address : vresult Coin :=
  let? account := account_from_address s address in
  AccountExt.get_historical_vested_staking_rewards account s.

Definition try_get_spendable_vested_coins s address env : vresult Coin :=
  let? account := account_from_address s address in
  AccountExt.spendable_vested_coins account None env s.

Definition try_get_spendable_reward_coins s address env : vresult Coin :=
  let? account := account_from_address s address in
  AccountExt.spendable_reward_coins account None env s.

Definition try_get_delegated_coins s address : vresult Coin :=
  let? account := account_from_address s address in
  let? amount := AccountExt.total_delegations account s in
  Ok (mkCoin (mix_denom s) amount).

Definition try_get_pledged_coins s address : vresult Coin :=
  let? account := account_from_address s address in
  Ok (mkCoin (mix_denom s) (AccountExt.total_pledged account s)).

Definition try_get_staked_coins s address : vresult Coin :=
  let? account := account_from_address s address in
  let? amount := AccountExt.total_staked account s in
  Ok (mkCoin (mix_denom s) amount).

Definition try_get_withdrawn_coins s address : vresult Coin :=
  let? account := account_from_address s address in
  Ok (mkCoin (mix_denom s) (load_withdrawn s (Account.storage_key account))).

(** ** Delegations *)

Definition try_get_delegation_times s address (mix_id : MixId) : vresult DelegationTimesResponse :=
  let? owner := vesting_addr_validate address in
  let? account := account_from_address s address in
  let timestamps := load_delegation_timestamps s (Account.storage_key account) mix_id in
  Ok (mkDelegationTimes owner (Account.storage_key account) mix_id timestamps).

(** The limit decides only whether there is a next page. *)
Definition try_get_all_delegations s (start_after : option DelegationKey) (limit : option Z)
    : VestingPage VestingDelegation DelegationKey :=
  let limit := page_limit limit 100 200 in
  let entries := range_after start_after (ascending (vesting_delegations s)) in
  let delegations := (fun kv => mkVestingDelegation kv.1.1.1 kv.1.1.2 kv.1.2 kv.2) <$> entries in
  mkVestingPage delegations (if len delegations <? limit then None else fst <$> last entries).

Definition try_get_delegation s address (mix_id : MixId) (block_timestamp_secs : BlockTimestampSecs)
    : vresult VestingDelegation :=
  let? account := account_from_address s address in
  let? delegation_amount := or_err (vesting_delegations s !! (Account.storage_key account, mix_id, block_timestamp_secs))
                              (VestingError.Std NotFound) in
  Ok (mkVestingDelegation (Account.storage_key account) mix_id block_timestamp_secs delegation_amount).

Definition try_get_delegation_amount s address (mix_id : MixId) : vresult Coin :=
  let? account := account_from_address s address in
  let? amount := fold_amounts 0 (delegations_to s (Account.storage_key account) mix_id) in
  Ok (mkCoin (mix_denom s) amount).

End Queries.

End VestingQuery.

(** ** Listings *)

Section Listings.
Context `{CosmMath} `{!CosmMathLaws} `{ChainApi} `{TimestampApi}.

(** Following the pages lists every account once, where the stored addresses are valid ones. *)
Theorem accounts_are_listed s limit :
  books_ok s -> (forall n, limit = Some n -> 0 < n) -> (forall o, is_Some (accounts s !! o) -> addr_validate o = Some o) ->
  lists_all (fun start => let? r := VestingQuery.try_get_all_accounts s start limit in Ok (page_entries r, page_next r))
    (accounts s) (fun kv => Ok (E := VestingError.t) (mkBaseInfo (Account.storage_key kv.2) (Account.owner_address kv.2))).
Proof.
  intros Hb Hl Ha. eapply (query_lists_all _ _ (page_limit limit 150 250)).
  - unfold page_limit. destruct limit as [n|]; simpl; [specialize (Hl n eq_refl)|]; lia.
  - intros start Hk. unfold VestingQuery.try_get_all_accounts.
    assert (VestingQuery.start_address start = Ok start) as ->.
    { unfold VestingQuery.start_address, vesting_addr_validate. destruct start as [o|]; [|done]. by rewrite (Ha o (Hk o eq_refl)). }
    cbn [obind]. rewrite (mapM_outcome_Ok _ (fun kv => mkBaseInfo (Account.storage_key kv.2) (Account.owner_address kv.2))) by done.
    cbn [obind page_entries page_next]. rewrite !fmap_last. do 2 f_equal.
    destruct (last (page _ _ _)) as [[o a]|] eqn:E; simpl; [|done]. apply last_Some_elem_of, page_entry in E.
    f_equal. exact (books_owner _ Hb _ _ E).
  - by apply mapM_outcome_Ok.
Qed.

(** The limit does not bound the number of delegations in a response. *)
Theorem delegations_limit_is_ignored s start limit limit' :
  page_entries (VestingQuery.try_get_all_delegations s start limit) =
  page_entries (VestingQuery.try_get_all_delegations s start limit').
Proof. reflexivity. Qed.

End Listings.
