(* ===== verification/MixnetTracking.v ===== *)
(** * What the mixnet contract tells the vesting contract

    All coins the mixnet contract stores are in its denomination, and every
    message that tracks returned tokens in the vesting contract follows the
    payment of just these tokens. *)

From S2P Require Import Prelude Bytes Cosmwasm MixnetTypes Rewarding Backing Interval MixnetStorage MixnetSupport.
From S2P Require Import MixnetEvents MixnetTransactions Accounting Solvency.
#[local] Open Scope Z_scope.

(** The coins a tracking message reports. *)
Definition track_coin (m : VestingMsg) : Coin :=
  match m with
  | TrackReward c _ => c
  | TrackUndelegation _ _ c => c
  | TrackUnbondMixnode _ c => c
  | TrackDecreasePledge _ c => c
  | TrackUnbondGateway _ c => c
  end.

(** Responses of payments, each perhaps followed by its tracking message. *)
Inductive settled (v d : string) : Response -> Prop :=
| settled_nil : settled v d []
| settled_send a c r : 0 <= amount c -> settled v d r -> settled v d (BankSend a [c] :: r)
| settled_track m r : 0 <= amount (track_coin m) -> denom (track_coin m) = d -> settled v d r ->
    settled v d (BankSend v [track_coin m] :: WasmExecute v m :: r).

Lemma settled_app v d r1 r2 : settled v d r1 -> settled v d r2 -> settled v d (r1 ++ r2).
Proof. intros H1 H2. induction H1; simpl; [done|by constructor|by constructor]. Qed.

(** Every stored coin is in denomination [d]. *)
Record denoms_ok (d : string) (s : Store) : Prop := {
  dn_events i e : pending_epoch_events s !! i = Some e -> Forall (fun c => denom c = d) (event_coins (epoch_kind e));
  dn_bonds i b : mixnode_bonds s !! i = Some b -> denom (MixNodeBond.original_pledge b) = d;
  dn_delegations k dg : delegations s !! k = Some dg -> denom (Delegation.amount dg) = d;
  dn_gateways k g : gateways s !! k = Some g -> denom (GatewayBond.pledge_amount g) = d
}.

(** The part of the store the denominations depend on. *)
Definition coins_part (s : Store) :=
  (pending_epoch_events s, mixnode_bonds s, delegations s, gateways s, vesting_contract_address (contract_state s)).

(** The outcome of a transaction. *)
Record out_ok (d : string) (s s' : Store) (r : Response) : Prop := {
  out_denoms : denoms_ok d s';
  out_vesting : vesting_contract_address (contract_state s') = vesting_contract_address (contract_state s);
  out_settled : settled (vesting_contract_address (contract_state s)) d r
}.

Lemma denoms_same d s s' : denoms_ok d s -> coins_part s' = coins_part s -> denoms_ok d s'.
Proof. intros [D1 D2 D3 D4] E. injection E as E1 E2 E3 E4 _. split; rewrite ?E1, ?E2, ?E3, ?E4; done. Qed.

Lemma out_same d s s' : denoms_ok d s -> coins_part s' = coins_part s -> out_ok d s s' [].
Proof. intros Hd E. split; [by eapply denoms_same|by injection E|constructor]. Qed.

Lemma out_trans d s1 s2 s3 r1 r2 : out_ok d s1 s2 r1 -> out_ok d s2 s3 r2 -> out_ok d s1 s3 (r1 ++ r2).
Proof. intros [A1 A2 A3] [B1 B2 B3]. split; [done|congruence|]. apply settled_app; [done|]. by rewrite <- A2. Qed.

Lemma denoms_bond d s i b :
  denoms_ok d s -> denom (MixNodeBond.original_pledge b) = d ->
  denoms_ok d (set_mixnode_bonds s (<[i := b]> (mixnode_bonds s))).
Proof.
  intros [D1 D2 D3 D4] Hb. split; simpl; [done| |done|done].
  intros j b'. rewrite lookup_insert_Some. intros [[_ <-]|[_ ?]]; [done|by eapply D2].
Qed.

Lemma denoms_gateway d s k g :
  denoms_ok d s -> denom (GatewayBond.pledge_amount g) = d ->
  denoms_ok d (set_gateways s (<[k := g]> (gateways s))).
Proof.
  intros [D1 D2 D3 D4] Hb. split; simpl; [done|done|done|].
  intros j b'. rewrite lookup_insert_Some. intros [[_ <-]|[_ ?]]; [done|by eapply D4].
Qed.

Lemma denoms_delegation d s k dg :
  denoms_ok d s -> denom (Delegation.amount dg) = d -> denoms_ok d (save_delegation s k dg).
Proof.
  intros [D1 D2 D3 D4] Hb. split; simpl; [done|done| |done].
  intros j b'. rewrite lookup_insert_Some. intros [[_ <-]|[_ ?]]; [done|by eapply D3].
Qed.

(** Entries are removed. *)
Lemma denoms_shrink d s s' :
  denoms_ok d s -> pending_epoch_events s' ⊆ pending_epoch_events s -> mixnode_bonds s' ⊆ mixnode_bonds s ->
  delegations s' ⊆ delegations s -> gateways s' ⊆ gateways s -> denoms_ok d s'.
Proof.
  intros [D1 D2 D3 D4] M1 M2 M3 M4. split.
  - intros i e He. by eapply D1, lookup_weaken.
  - intros i e He. by eapply D2, lookup_weaken.
  - intros i e He. by eapply D3, lookup_weaken.
  - intros i e He. by eapply D4, lookup_weaken.
Qed.

Lemma push_epoch_event_denoms d s env e id s' :
  denoms_ok d s -> Forall (fun c => denom c = d) (event_coins e) ->
  push_new_epoch_event s env e = Ok (id, s') -> out_ok d s s' [].
Proof.
  intros [D1 D2 D3 D4] He Hp. unfold push_new_epoch_event, next_epoch_event_id_counter in Hp. run_pairs.
  split; [split; simpl; try done|done|constructor].
  intros i e'. rewrite lookup_insert_Some. intros [[_ <-]|[_ ?]]; [done|by eapply D1].
Qed.

Lemma push_interval_event_denoms d s env e id s' :
  denoms_ok d s -> push_new_interval_event s env e = Ok (id, s') -> out_ok d s s' [].
Proof.
  intros Hd Hp. unfold push_new_interval_event, next_interval_event_id_counter in Hp. run_pairs. by apply out_same.
Qed.

(** ** Responses *)

Lemma track_settled d v s o p c m r :
  maybe_add_track_message s [send_to_proxy_or_owner p o [c]] p m = Ok r ->
  vesting_contract_address (contract_state s) = v -> track_coin m = c -> 0 <= amount c -> denom c = d -> settled v d r.
Proof.
  intros Hr <- Hm Hc Hd. unfold maybe_add_track_message, send_to_proxy_or_owner, addr_eqb in Hr. subst c.
  destruct p as [q|]; run_inv; simpl; [|by repeat constructor].
  apply bool_decide_eq_true in C. subst q. by repeat constructor.
Qed.

Lemma reward_settled d s o p c :
  0 <= amount c -> denom c = d -> settled (vesting_contract_address (contract_state s)) d (reward_messages s o p c).
Proof.
  intros Hc Hd. unfold reward_messages, send_to_proxy_or_owner, addr_eqb. case_match; [constructor|].
  destruct p as [q|]; simpl; [|by repeat constructor]. case_match eqn:E; [|by repeat constructor].
  apply bool_decide_eq_true in E. subst q. by apply (settled_track _ _ (TrackReward c o)); [| |constructor].
Qed.

Section Tracking.
Context `{CosmMath} `{!CosmMathLaws} `{ChainApi} `{SignatureApi}.

(** ** Epoch events *)

Lemma delegate_out d s env t o i c p s' r :
  inv s -> denoms_ok d s -> 0 <= amount c -> denom c = d -> delegate s env t o i c p = Ok (s', r) -> out_ok d s s' r.
Proof.
  intros Hi Hd Hc Hdc Hr. unfold delegate in Hr. run_step.
  assert (forall r, maybe_add_track_vesting_undelegation_message s [send_to_proxy_or_owner p o [c]] p o i c = Ok r ->
    out_ok d s s r) as Hback.
  { intros r' Hr'. split; [done|done|].
    by eapply track_settled in Hr'. }
  destruct x as [dt|]; [|run_inv; by apply Hback]. destruct (_ && _); [|run_inv; by apply Hback].
  run_step. destruct x as [n stored]. assert (denom stored = d) as Hst.
  { clear Hr. case_match; run_pairs; done. }
  clear E0. unfold Delegation.new in Hr. run_pairs. split; [|done|constructor].
  eapply denoms_same; [apply (denoms_delegation _ s (Delegation.generate_storage_key i o p)
    (Delegation.mk o i (MixNodeRewarding.total_unit_reward x) stored (block_height env) p)); done|done].
Qed.

Lemma undelegate_out d s t o i p s' r :
  inv s -> denoms_ok d s -> undelegate s t o i p = Ok (s', r) -> out_ok d s s' r.
Proof.
  intros Hi Hd Hr. unfold undelegate, helper_undelegate in Hr.
  destruct (delegations s !! _) as [dg|] eqn:Ed; [|run_inv; by apply out_same].
  run_pairs. destruct (inv_delegations _ Hi _ _ Ed) as [Hk _].
  assert (Delegation.mix_id dg = i) as Hdi by (unfold Delegation.storage_key, Delegation.generate_storage_key in Hk; congruence).
  destruct (inv_nodes _ Hi _ _ E) as [_ Hb]. unfold Delegation.generate_storage_key in *.
  apply (backed_perm _ _ _ (delegations_of_delete _ _ _ _ Ed)) in Hb.
  pose proof (Forall_inv (backed_each _ _ Hb)) as [_ Hpos].
  destruct (backed_undelegate _ _ _ _ _ Hb E1) as (_ & Hle & _ & Hden).
  split; [|done|].
  - eapply (denoms_shrink d s); simpl; [done|done|done|apply delete_subseteq|done].
  - eapply track_settled in E0; [exact E0|done|done|lia|]. rewrite Hden. by eapply dn_delegations.
Qed.

Lemma details_bond s i dt :
  get_mixnode_details_by_id s i = Ok (Some dt) -> mixnode_bonds s !! i = Some (bond_information dt).
Proof. intros Hd. unfold get_mixnode_details_by_id, attach_mix_details in Hd. by case_match; run_inv; simplify_eq/=. Qed.

Lemma unbond_out d s env t i s' r :
  inv s -> denoms_ok d s -> unbond_mixnode s env t i = Ok (s', r) -> out_ok d s s' r.
Proof.
  intros Hi Hd Hr. unfold unbond_mixnode, cleanup_post_unbond_mixnode_storage, storage_decrement_layer_count,
    MixNodeRewarding.operator_pledge_with_reward, truncate_reward in Hr. run_pairs.
  match goal with H : get_mixnode_details_by_id _ _ = Ok _ |- _ => apply details_bond in H as Hb end.
  match goal with H : maybe_add_track_vesting_unbond_mixnode_message _ _ _ _ _ = Ok _ |- _ => rename H into Ht end.
  split.
  - eapply (denoms_shrink d s); case_match; simpl; try done; apply delete_subseteq.
  - by case_match.
  - eapply track_settled in Ht; [exact Ht|by case_match|done|simpl; unfold is_u128 in *; lia|]. simpl. by eapply dn_bonds.
Qed.

Lemma pledge_events_out d s e env s' r :
  inv s -> denoms_ok d s -> event_ok (epoch_kind e) -> Forall (fun c => denom c = d) (event_coins (epoch_kind e)) ->
  (exists i c, epoch_kind e = PledgeMore i c \/ epoch_kind e = DecreasePledge i c) ->
  execute_epoch_event e s env = Ok (s', r) -> out_ok d s s' r.
Proof.
  intros Hi Hd He Hdc (i & c & Hk) Hr. unfold execute_epoch_event, event_ok in *.
  destruct Hk as [Hk|Hk]; rewrite Hk in Hr, He, Hdc; simpl in He, Hdc; apply Forall_inv in He, Hdc.
  - unfold increase_pledge in Hr. run_pairs.
    match goal with H : get_mixnode_details_by_id _ _ = Ok _ |- _ => apply details_bond in H as Hb end.
    split; [|done|constructor].
    eapply denoms_same; [apply denoms_bond; [exact Hd|]|reflexivity]. simpl. by eapply dn_bonds.
  - unfold decrease_pledge in Hr. run_pairs.
    match goal with H : get_mixnode_details_by_id _ _ = Ok _ |- _ => apply details_bond in H as Hb end.
    match goal with H : maybe_add_track_vesting_decrease_mixnode_pledge _ _ _ _ _ = Ok _ |- _ => rename H into Ht end.
    split; [|done|].
    + eapply denoms_same; [apply denoms_bond; [exact Hd|]|reflexivity]. simpl. by eapply dn_bonds.
    + by eapply track_settled in Ht.
Qed.

Lemma execute_epoch_event_out d e s env s' r :
  inv s -> denoms_ok d s -> event_ok (epoch_kind e) -> Forall (fun c => denom c = d) (event_coins (epoch_kind e)) ->
  execute_epoch_event e s env = Ok (s', r) -> out_ok d s s' r.
Proof.
  intros Hi Hd He Hdc Hr. pose proof (pledge_events_out d s e env s' r Hi Hd He Hdc) as Hpl.
  unfold execute_epoch_event, event_ok in *. destruct (epoch_kind e) as [o i c p|o i p|i c|i c|i|n]; simpl in *.
  - apply Forall_inv in He, Hdc. by eapply delegate_out.
  - by eapply undelegate_out.
  - apply Hpl; [by eauto|done].
  - apply Hpl; [by eauto|done].
  - by eapply unbond_out.
  - unfold update_active_set_size in Hr. run_pairs. by apply out_same.
Qed.

Lemma execute_interval_event_out d e s s' r :
  denoms_ok d s -> execute_interval_event e s = Ok (s', r) -> out_ok d s s' r.
Proof.
  intros Hd Hr. unfold execute_interval_event in Hr. destruct (interval_kind e) as [i c|u|a b].
  - unfold change_mix_cost_params in Hr. case_match; run_pairs; by apply out_same.
  - unfold update_rewarding_params in Hr. run_pairs. by apply out_same.
  - unfold update_interval_config, change_interval_config in Hr. run_pairs. by apply out_same.
Qed.

(** ** The queues *)

Lemma epoch_events_loop_out d n id s env s' r :
  inv s -> denoms_ok d s -> epoch_events_loop n id s env = Ok (s', r) -> out_ok d s s' r.
Proof.
  revert id s s' r. induction n as [|n IH]; intros id s s' r Hi Hd Hr; simpl in Hr; [run_inv; by apply out_same|].
  run_step. run_step. destruct x0 as [s1 r1]. run_step. destruct x0 as [s2 r2]. run_inv.
  pose proof (execute_epoch_event_queues _ _ _ _ _ E0) as [[= _ _ Hq _ _ _] _].
  pose proof (execute_epoch_event_ok _ _ _ _ _ Hi (inv_epoch_events _ Hi _ _ E) E0) as Htx.
  assert (inv (set_pending_epoch_events s1 (delete id (pending_epoch_events s1)))) as Hi1.
  { eapply tx_inv, delete_epoch_event_ok; [by eapply tx_inv|]. by rewrite Hq. }
  pose proof (execute_epoch_event_out d _ _ _ _ _ Hi Hd (inv_epoch_events _ Hi _ _ E) (dn_events _ _ Hd _ _ E) E0) as Ho.
  eapply out_trans; [exact Ho|]. destruct Ho as [Hd1 Hv1 _].
  assert (out_ok d s1 (set_pending_epoch_events s1 (delete id (pending_epoch_events s1))) []) as Hdel.
  { split; [|done|constructor]. eapply (denoms_shrink d s1); simpl; [done|apply delete_subseteq|done..]. }
  eapply (out_trans d _ _ _ []); [exact Hdel|]. eapply IH; [exact Hi1|by destruct Hdel|exact E1].
Qed.

Lemma interval_events_loop_out d n id s s' r :
  denoms_ok d s -> interval_events_loop n id s = Ok (s', r) -> out_ok d s s' r.
Proof.
  revert id s s' r. induction n as [|n IH]; intros id s s' r Hd Hr; simpl in Hr; [run_inv; by apply out_same|].
  run_step. run_step. destruct x0 as [s1 r1]. run_step. destruct x0 as [s2 r2]. run_inv.
  pose proof (execute_interval_event_out d _ _ _ _ Hd E0) as Ho. eapply out_trans; [exact Ho|].
  destruct Ho as [Hd1 _ _]. assert (out_ok d s1 (set_pending_interval_events s1 (delete id (pending_interval_events s1))) []) as Hdel
    by by apply out_same.
  eapply (out_trans d _ _ _ []); [exact Hdel|]. eapply IH; [by destruct Hdel|exact E1].
Qed.

Lemma reconcile_out d s env info l s' r :
  inv s -> denoms_ok d s -> try_reconcile_epoch_events s env info l = Ok (s', r) -> out_ok d s s' r.
Proof.
  intros Hi Hd Hr. unfold try_reconcile_epoch_events in Hr. do 4 run_step. destruct x2 as [[s1 r1] k].
  assert (out_ok d s s1 r1) as Ho1.
  { clear Hr. unfold perform_pending_epoch_actions in E2. destruct (_ =? _); [run_inv; simplify_eq; by apply out_same|].
    run_pairs. match goal with H : epoch_events_loop _ _ _ _ = Ok _ |- _ => apply (epoch_events_loop_out d) in H; [|done|done] end.
    rewrite <- (app_nil_r r1). eapply out_trans; [eassumption|]. apply out_same; [by eapply out_denoms|done]. }
  do 3 run_step. destruct x4 as [s2 r2]. assert (out_ok d s s2 r2) as Ho2.
  { clear Hr. destruct x3; run_pairs; [|done].
    match goal with H : perform_pending_interval_actions _ _ = Ok _ |- _ => unfold perform_pending_interval_actions in H end.
    eapply out_trans; [exact Ho1|]. destruct (last_processed_interval_event _ =? _); [run_inv; simplify_eq; apply out_same; [by eapply out_denoms|done]|].
    run_pairs. match goal with H : interval_events_loop _ _ _ = Ok (_, ?r) |- _ =>
      apply (interval_events_loop_out d) in H; [|by eapply out_denoms]; rewrite <- (app_nil_r r) end.
    eapply out_trans; [eassumption|]. apply out_same; [by eapply out_denoms|done]. }
  clear Ho1 E2 E3 E4 E5. run_pairs; [|done].
  rewrite <- (app_nil_r r). eapply out_trans; [exact Ho2|]. apply out_same; [by eapply out_denoms|done].
Qed.

(** ** Layers *)

Lemma update_layer_out d s i l s' : denoms_ok d s -> update_mixnode_layer s i l = Ok s' -> out_ok d s s' [].
Proof.
  intros Hd E. unfold update_mixnode_layer in E. run_pairs. split; [|done|constructor].
  apply denoms_bond; [done|]. simpl. by eapply dn_bonds.
Qed.

Lemma update_layers_out d s l s' : denoms_ok d s -> update_mixnode_layers s l = Ok s' -> out_ok d s s' [].
Proof.
  revert s. induction l as [|a l IH]; intros s Hd Hr; simpl in Hr; [run_inv; by apply out_same|].
  run_step. pose proof (update_layer_out d _ _ _ _ Hd E) as Ho. eapply (out_trans d _ _ _ [] []); [exact Ho|].
  apply IH; [by destruct Ho|done].
Qed.

Lemma advance_out d s env info l n s' r :
  denoms_ok d s -> try_advance_epoch s env info l n = Ok (s', r) -> out_ok d s s' r.
Proof.
  intros Hd Hr. unfold try_advance_epoch in Hr. do 5 run_step.
  assert (coins_part x3 = coins_part s) as Hs.
  { clear Hr. destruct x2; [|by run_inv]. unfold apply_reward_pool_changes in E3. by run_pairs. }
  clear E3. unfold update_rewarded_set in Hr. run_inv. destruct (first_duplicate _ _); run_inv.
  match goal with H : update_mixnode_layers (storage_update_rewarded_set ?s1 ?n ?new) _ = Ok _ |- _ =>
    assert (coins_part (storage_update_rewarded_set s1 n new) = coins_part s) as Hc end.
  { unfold storage_update_rewarded_set. destruct (update_rewarded_set_loop _ _ _ _). exact Hs. }
  match goal with H : update_mixnode_layers _ _ = Ok _ |- _ => apply (update_layers_out d) in H as Hl; [|by eapply denoms_same] end.
  eapply (out_trans d _ _ _ [] []); [by apply (out_same d s _ Hd Hc)|]. eapply (out_trans d _ _ _ [] []); [exact Hl|].
  apply out_same; [by eapply out_denoms|done].
Qed.

(** ** Messages *)

Lemma bond_of_owner d s o b :
  denoms_ok d s -> mixnode_by_owner s o = Some b -> denom (MixNodeBond.original_pledge b) = d.
Proof. intros Hd (i & Hb & _)%find_by_Some. by eapply dn_bonds. Qed.

Lemma details_by_owner_bond s o dt :
  get_mixnode_details_by_owner s o = Ok (Some dt) -> mixnode_by_owner s o = Some (bond_information dt).
Proof. intros Hd. unfold get_mixnode_details_by_owner, attach_mix_details in Hd. by case_match; run_inv; simplify_eq/=. Qed.

Lemma add_mixnode_out s env m c cs o sig p s' r :
  inv s -> denoms_ok (denom_of s) s -> _try_add_mixnode s env m c cs o sig p = Ok (s', r) -> out_ok (denom_of s) s s' r.
Proof.
  intros Hi Hd Hr. unfold _try_add_mixnode, save_new_mixnode, increment_signing_nonce, assign_layer,
    next_mixnode_id_counter in Hr. run_pairs. apply validate_pledge_Ok in E as (-> & Hdn & _).
  split; [|done|constructor]. eapply (denoms_same _ (set_mixnode_bonds s (<[_ := _]> (mixnode_bonds s)))); [|reflexivity].
  apply denoms_bond; [done|]. simpl. rewrite Hdn. apply (inv_denoms _ Hi).
Qed.

Lemma pledge_out s env o p cs c s' r :
  inv s -> denoms_ok (denom_of s) s ->
  (_try_increase_pledge s env cs o p = Ok (s', r) \/ _try_decrease_pledge s env c o p = Ok (s', r)) ->
  out_ok (denom_of s) s s' r.
Proof.
  intros Hi Hd [Hr|Hr].
  - unfold _try_increase_pledge in Hr. run_pairs.
    match goal with H : validate_pledge _ _ = Ok _ |- _ => apply validate_pledge_Ok in H as (-> & Hdn & _) end.
    match goal with H : push_new_epoch_event _ _ _ = Ok _ |- _ =>
      apply (push_epoch_event_denoms (denom_of s)) in H as Ho; [|done|by repeat constructor] end.
    eapply (out_trans _ _ _ _ [] []); [exact Ho|]. apply out_same; [by destruct Ho|done].
  - unfold _try_decrease_pledge, addr_eqb in Hr. run_pairs.
    match goal with H : bool_decide (denom c = _) = true |- _ => apply bool_decide_eq_true in H as Hdn end.
    match goal with H : push_new_epoch_event _ _ _ = Ok _ |- _ =>
      apply (push_epoch_event_denoms (denom_of s)) in H as Ho; [|done|] end.
    2:{ repeat constructor. rewrite Hdn. apply (inv_denoms _ Hi). }
    eapply (out_trans _ _ _ _ [] []); [exact Ho|]. apply out_same; [by destruct Ho|done].
Qed.

Lemma remove_mixnode_out d s env o p s' r :
  denoms_ok d s -> _try_remove_mixnode s env o p = Ok (s', r) -> out_ok d s s' r.
Proof.
  intros Hd Hr. unfold _try_remove_mixnode, must_get_mixnode_bond_by_owner in Hr. run_pairs.
  match goal with H : push_new_epoch_event ?s1 _ _ = Ok _ |- _ =>
    apply (push_epoch_event_denoms d) in H as Ho; [| |by constructor]; [assert (out_ok d s s1 []) as Hs1|] end.
  - split; [|done|constructor]. apply denoms_bond; [done|]. simpl. by eapply bond_of_owner.
  - eapply (out_trans _ _ _ _ [] []); [exact Hs1|exact Ho].
  - apply denoms_bond; [done|]. simpl. by eapply bond_of_owner.
Qed.

Lemma delegation_out s env i o p cs s' r :
  denoms_ok (denom_of s) s ->
  (_try_delegate_to_mixnode s env i o cs p = Ok (s', r) \/ _try_remove_delegation_from_mixnode s env i o p = Ok (s', r)) ->
  out_ok (denom_of s) s s' r.
Proof.
  intros Hd [Hr|Hr].
  - unfold _try_delegate_to_mixnode in Hr. run_pairs.
    match goal with H : validate_delegation_stake _ _ _ = Ok _ |- _ => apply validate_delegation_Ok in H as (-> & Hdn) end.
    eapply push_epoch_event_denoms; [done| |eassumption]. by repeat constructor.
  - unfold _try_remove_delegation_from_mixnode in Hr. run_step. case_match; run_pairs.
    eapply push_epoch_event_denoms; [done| |eassumption]. by constructor.
Qed.

Lemma add_gateway_out s env g cs o sig p s' r :
  inv s -> denoms_ok (denom_of s) s -> _try_add_gateway s env g cs o sig p = Ok (s', r) -> out_ok (denom_of s) s s' r.
Proof.
  intros Hi Hd Hr. unfold _try_add_gateway, increment_signing_nonce in Hr. run_pairs.
  apply validate_pledge_Ok in E as (-> & Hdn & _). split; [|done|constructor].
  eapply (denoms_same _ (set_gateways s (<[_ := _]> (gateways s)))); [|reflexivity].
  apply denoms_gateway; [done|]. simpl. rewrite Hdn. apply (inv_denoms _ Hi).
Qed.

Lemma remove_gateway_out d s o p s' r :
  inv s -> denoms_ok d s -> (forall q, p = Some q -> q = vesting_contract_address (contract_state s)) ->
  _try_remove_gateway s o p = Ok (s', r) -> out_ok d s s' r.
Proof.
  intros Hi Hd Hp Hr. unfold _try_remove_gateway in Hr. run_inv. apply gateway_at in E as Hg; [|done].
  destruct (inv_gateways _ Hi _ _ Hg) as [_ Hpos]. pose proof (dn_gateways _ _ Hd _ _ Hg) as Hdn.
  split; [|done|].
  - eapply (denoms_shrink d s); simpl; [done|done|done|done|apply delete_subseteq].
  - destruct p as [q|]; simpl; [|by repeat constructor]. rewrite (Hp q eq_refl).
    by apply (settled_track _ _ (TrackUnbondGateway o (GatewayBond.pledge_amount x))); [| |constructor].
Qed.

Lemma config_out d s o p mc gc s' r :
  denoms_ok d s ->
  (_try_update_mixnode_config s mc o p = Ok (s', r) \/ _try_update_gateway_config s gc o p = Ok (s', r)) ->
  out_ok d s s' r.
Proof.
  intros Hd [Hr|Hr].
  - unfold _try_update_mixnode_config, must_get_mixnode_bond_by_owner in Hr. run_pairs.
    split; [|done|constructor]. apply denoms_bond; [done|]. simpl. by eapply bond_of_owner.
  - unfold _try_update_gateway_config, must_get_gateway_bond_by_owner in Hr. run_pairs.
    split; [|done|constructor]. apply denoms_gateway; [done|]. simpl.
    apply find_by_Some in E as (k & Hk & _). by eapply dn_gateways.
Qed.

Lemma withdraw_operator_out d s o p s' r :
  denoms_ok d s -> _try_withdraw_operator_reward s o p = Ok (s', r) -> out_ok d s s' r.
Proof.
  intros Hd Hr. unfold _try_withdraw_operator_reward, withdraw_operator_reward,
    MixNodeRewarding.withdraw_operator_reward, truncate_reward in Hr. run_pairs.
  apply details_by_owner_bond in E. apply (bond_of_owner d) in E; [|done].
  split; [by eapply denoms_same|done|]. apply (reward_settled d s); simpl; [unfold is_u128 in *; lia|done].
Qed.

Lemma withdraw_delegator_out d s i o p s' r :
  inv s -> denoms_ok d s -> _try_withdraw_delegator_reward s i o p = Ok (s', r) -> out_ok d s s' r.
Proof.
  intros Hi Hd Hr. unfold _try_withdraw_delegator_reward, withdraw_delegator_reward,
    MixNodeRewarding.withdraw_delegator_reward, truncate_reward in Hr. run_pairs.
  pose proof (dn_delegations _ _ Hd _ _ E) as Hdn. split; [|done|].
  - eapply (denoms_same _ (save_delegation s _ _)); [apply denoms_delegation; [done|]|reflexivity]. exact Hdn.
  - apply (reward_settled d s); simpl; [unfold is_u128 in *; lia|done].
Qed.

Lemma reward_mixnode_out d s env info i perf s' r :
  denoms_ok d s -> try_reward_mixnode s env info i perf = Ok (s', r) -> out_ok d s s' r.
Proof.
  intros Hd Hr. unfold try_reward_mixnode in Hr. do 4 run_step. apply update_last_rewarded_Ok in E2 as [st ->].
  case_match; run_pairs; try (unfold reward_accounting in *; run_pairs); by apply out_same.
Qed.

(** The sender of a message on behalf of an account is the vesting contract. *)
Lemma vesting_sender s info u : ensure_sent_by_vesting_contract info s = Ok u ->
  forall q, Some (sender info) = Some q -> q = vesting_contract_address (contract_state s).
Proof.
  unfold ensure_sent_by_vesting_contract, addr_eqb. intros Hu q [= <-]. by apply ensure_Ok, bool_decide_eq_true in Hu.
Qed.

Lemma execute_out s env info msg s' r :
  inv s -> denoms_ok (denom_of s) s -> execute s env info msg = Ok (s', r) -> out_ok (denom_of s) s s' r.
Proof.
  intros Hi Hd Hr. destruct msg; simpl in Hr; unfold_handlers;
    unfold try_create_family, try_create_family_on_behalf, try_join_family, try_join_family_on_behalf,
      try_leave_family, try_leave_family_on_behalf, try_head_kick_member, try_head_kick_member_on_behalf,
      try_begin_epoch_transition, _try_create_family, _try_join_family, _try_leave_family,
      _try_head_kick_member, save_family, must_get_family, try_update_active_set_size, try_update_rewarding_params,
      try_update_interval_config, _try_update_mixnode_cost_params in Hr;
    try (run_inv; first
      [ by eapply add_mixnode_out | by eapply remove_mixnode_out | by eapply add_gateway_out
      | by eapply withdraw_operator_out | by eapply withdraw_delegator_out | by eapply reward_mixnode_out
      | by eapply reconcile_out | by eapply advance_out | by eapply update_layer_out
      | by eapply (remove_gateway_out _ _ _ None); [| | |eassumption]
      | by eapply remove_gateway_out; [| |eapply vesting_sender|]
      | exact (pledge_out _ _ _ _ _ (mkCoin EmptyString 0) _ _ Hi Hd (or_introl Hr))
      | exact (pledge_out _ _ _ _ [] _ _ _ Hi Hd (or_intror Hr))
      | exact (delegation_out _ _ _ _ _ _ _ _ Hd (or_introl Hr))
      | exact (delegation_out _ _ _ _ _ [] _ _ Hd (or_intror Hr))
      | exact (config_out _ _ _ _ _ (mkGatewayConfigUpdate EmptyString 0 0 EmptyString EmptyString) _ _ Hd (or_introl Hr))
      | exact (config_out _ _ _ _ (mkMixNodeConfigUpdate EmptyString 0 0 0 EmptyString) _ _ _ Hd (or_intror Hr)) ]).
  all: try (run_pairs; repeat (case_match; run_pairs); by apply out_same).
  all: run_pairs; repeat (case_match; run_pairs); first
    [ by apply out_same | by eapply push_interval_event_denoms | unfold change_interval_config in *; run_pairs; by apply out_same
    | eapply push_epoch_event_denoms; [done| |eassumption]; by constructor ].
Qed.

End Tracking.
