(* ===== verification/MixnetQueries.v ===== *)
(** * Queries of the mixnet contract

    Models [contracts/mixnet/src/*/queries.rs], with the retrieval limits of
    [constants.rs]: the paged lists of everything the contract stores, single
    entries, and the rewards that are pending or to be expected. *)

From S2P Require Import Prelude Bytes Cosmwasm MixnetTypes Rewarding Backing Interval MixnetStorage MixnetSupport.
From S2P Require Import MixnetEvents MixnetTransactions Accounting Solvency MixnetChain MixnetSample MixnetTracking Paging.
#[local] Open Scope Z_scope.

(** ** Responses *)

(** A page: the entries, and the key to continue after. *)
Record Paged (A K : Type) : Type := mkPaged { items : list A; start_next_after : option K }.
Arguments mkPaged {_ _}.
Arguments items {_ _}.
Arguments start_next_after {_ _}.

(** A page with its limit, as of nodes and gateways. *)
Record PagedNodes (A K : Type) : Type := mkPagedNodes { nodes : list A; per_page : Z; nodes_start_next_after : option K }.
Arguments mkPagedNodes {_ _}.
Arguments nodes {_ _}.
Arguments nodes_start_next_after {_ _}.

Record PendingEventsResponse (A K : Type) : Type := mkPendingEvents {
  seconds_until_executable : Z;
  events : list A;
  events_start_next_after : option K
}.
Arguments mkPendingEvents {_ _}.
Arguments events {_ _}.
Arguments events_start_next_after {_ _}.

Record CurrentIntervalResponse : Type := mkCurrentInterval {
  ci_interval : Interval.t;
  current_blocktime : Z;
  ci_is_current_interval_over : bool;
  ci_is_current_epoch_over : bool
}.

Record PendingRewardResponse : Type := mkPendingReward {
  amount_staked : option Coin;
  amount_earned : option Coin;
  amount_earned_detailed : option Decimal;
  mixnode_still_fully_bonded : bool
}.

Definition no_pending_reward : PendingRewardResponse := mkPendingReward None None None false.

Record EstimatedCurrentEpochRewardResponse : Type := mkEstimated {
  original_stake : option Coin;
  current_stake_value : option Coin;
  current_stake_value_detailed_amount : option Decimal;
  estimation : option Coin;
  detailed_estimation_amount : option Decimal
}.

Definition empty_response : EstimatedCurrentEpochRewardResponse := mkEstimated None None None None None.

(** Current saturation and its value without the cap. *)
Record StakeSaturationResponse : Type := mkSaturation {
  sat_mix_id : MixId;
  current_saturation : option Decimal;
  uncapped_saturation : option Decimal
}.

(** ** Retrieval limits *)

Definition GATEWAY_BOND_DEFAULT_RETRIEVAL_LIMIT : Z := 100.
Definition GATEWAY_BOND_MAX_RETRIEVAL_LIMIT : Z := 150.
Definition MIXNODE_BOND_DEFAULT_RETRIEVAL_LIMIT : Z := 100.
Definition MIXNODE_BOND_MAX_RETRIEVAL_LIMIT : Z := 150.
Definition MIXNODE_DETAILS_DEFAULT_RETRIEVAL_LIMIT : Z := 75.
Definition MIXNODE_DETAILS_MAX_RETRIEVAL_LIMIT : Z := 100.
Definition UNBONDED_MIXNODES_DEFAULT_RETRIEVAL_LIMIT : Z := 250.
Definition UNBONDED_MIXNODES_MAX_RETRIEVAL_LIMIT : Z := 300.
Definition DELEGATION_PAGE_DEFAULT_RETRIEVAL_LIMIT : Z := 250.
Definition DELEGATION_PAGE_MAX_RETRIEVAL_LIMIT : Z := 300.
Definition EPOCH_EVENTS_DEFAULT_RETRIEVAL_LIMIT : Z := 200.
Definition EPOCH_EVENTS_MAX_RETRIEVAL_LIMIT : Z := 250.
Definition INTERVAL_EVENTS_DEFAULT_RETRIEVAL_LIMIT : Z := 200.
Definition INTERVAL_EVENTS_MAX_RETRIEVAL_LIMIT : Z := 250.
Definition REWARDED_SET_DEFAULT_RETRIEVAL_LIMIT : Z := 500.
Definition REWARDED_SET_MAX_RETRIEVAL_LIMIT : Z := 1000.
Definition FAMILIES_DEFAULT_RETRIEVAL_LIMIT : Z := 10.
Definition FAMILIES_MAX_RETRIEVAL_LIMIT : Z := 20.

Section Queries.
Context `{CosmMath} `{ChainApi}.

Implicit Types (s : Store) (limit : option Z).

(** ** Mixnodes, [mixnodes/queries.rs] *)

Definition query_mixnode_bonds_paged s (start_after : option MixId) limit : PagedNodes MixNodeBond.t MixId :=
  let limit := page_limit limit MIXNODE_BOND_DEFAULT_RETRIEVAL_LIMIT MIXNODE_BOND_MAX_RETRIEVAL_LIMIT in
  let nodes := snd <$> page start_after limit (ascending (mixnode_bonds s)) in
  mkPagedNodes nodes limit (MixNodeBond.mix_id <$> last nodes).

Definition attach_node_details s (read_bond : MixId * MixNodeBond.t) : result MixNodeDetails :=
  attach_mix_details s read_bond.2.

Definition query_mixnodes_details_paged s (start_after : option MixId) limit : result (PagedNodes MixNodeDetails MixId) :=
  let limit := page_limit limit MIXNODE_DETAILS_DEFAULT_RETRIEVAL_LIMIT MIXNODE_DETAILS_MAX_RETRIEVAL_LIMIT in
  let? nodes := mapM_outcome (attach_node_details s) (page start_after limit (ascending (mixnode_bonds s))) in
  Ok (mkPagedNodes nodes limit ((fun d => MixNodeBond.mix_id (bond_information d)) <$> last nodes)).

Definition query_unbonded_mixnodes_paged s (start_after : option MixId) limit
    : PagedNodes (MixId * UnbondedMixnode) MixId :=
  let limit := page_limit limit UNBONDED_MIXNODES_DEFAULT_RETRIEVAL_LIMIT UNBONDED_MIXNODES_MAX_RETRIEVAL_LIMIT in
  let nodes := page start_after limit (ascending (unbonded_mixnodes s)) in
  mkPagedNodes nodes limit (fst <$> last nodes).

Definition query_unbonded_mixnodes_by_owner_paged s (owner : string) (start_after : option MixId) limit
    : result (PagedNodes (MixId * UnbondedMixnode) MixId) :=
  let? owner := validate_address owner in
  let limit := page_limit limit UNBONDED_MIXNODES_DEFAULT_RETRIEVAL_LIMIT UNBONDED_MIXNODES_MAX_RETRIEVAL_LIMIT in
  let nodes := page start_after limit (filter (fun kv => um_owner kv.2 = owner) (ascending (unbonded_mixnodes s))) in
  Ok (mkPagedNodes nodes limit (fst <$> last nodes)).

Definition query_unbonded_mixnodes_by_identity_paged s (identity_key : string) (start_after : option MixId) limit
    : PagedNodes (MixId * UnbondedMixnode) MixId :=
  let limit := page_limit limit UNBONDED_MIXNODES_DEFAULT_RETRIEVAL_LIMIT UNBONDED_MIXNODES_MAX_RETRIEVAL_LIMIT in
  let nodes := page start_after limit
                 (filter (fun kv => um_identity_key kv.2 = identity_key) (ascending (unbonded_mixnodes s))) in
  mkPagedNodes nodes limit (fst <$> last nodes).

Definition query_owned_mixnode s (address : string) : result (Addr * option MixNodeDetails) :=
  let? validated_addr := validate_address address in
  let? mixnode_details := get_mixnode_details_by_owner s validated_addr in
  Ok (validated_addr, mixnode_details).

Definition query_mixnode_details s (mix_id : MixId) : result (MixId * option MixNodeDetails) :=
  let? mixnode_details := get_mixnode_details_by_id s mix_id in
  Ok (mix_id, mixnode_details).

Definition get_mixnode_details_by_identity s (mix_identity : IdentityKey) : result (option MixNodeDetails) :=
  match mixnode_by_identity s mix_identity with
  | Some bond => let? d := attach_mix_details s bond in Ok (Some d)
  | None => Ok None
  end.

Definition query_mixnode_details_by_identity s (identity_key : IdentityKey)
    : result (IdentityKey * option MixNodeDetails) :=
  let? mixnode_details := get_mixnode_details_by_identity s identity_key in
  Ok (identity_key, mixnode_details).

Definition query_mixnode_rewarding_details s (mix_id : MixId) : MixId * option MixNodeRewarding.t :=
  (mix_id, mixnode_rewarding s !! mix_id).

Definition query_unbonded_mixnode s (mix_id : MixId) : MixId * option UnbondedMixnode :=
  (mix_id, unbonded_mixnodes s !! mix_id).

Definition query_stake_saturation s (mix_id : MixId) : result StakeSaturationResponse :=
  match mixnode_rewarding s !! mix_id with
  | None => Ok (mkSaturation mix_id None None)
  | Some mix_rewarding =>
      let? current := MixNodeRewarding.bond_saturation mix_rewarding (rewarding_params s) in
      let? uncapped := MixNodeRewarding.uncapped_bond_saturation mix_rewarding (rewarding_params s) in
      Ok (mkSaturation mix_id (Some current) (Some uncapped))
  end.

Definition query_layer_distribution s : LayerDistribution.t := layers s.

(** ** Delegations, [delegations/queries.rs] *)

Definition delegation_limit limit : Z :=
  page_limit limit DELEGATION_PAGE_DEFAULT_RETRIEVAL_LIMIT DELEGATION_PAGE_MAX_RETRIEVAL_LIMIT.

Definition proxy_storage_key (d : Delegation.t) : string :=
  generate_owner_storage_subkey (Delegation.owner d) (Delegation.proxy d).

Definition query_mixnode_delegations_paged s (mix_id : MixId) (start_after : option string) limit
    : Paged Delegation.t string :=
  let start := (fun subkey => (mix_id, subkey)) <$> start_after in
  let delegations := snd <$> page start (delegation_limit limit)
                       (filter (fun kv => Delegation.mix_id kv.2 = mix_id) (ascending (delegations s))) in
  mkPaged delegations (proxy_storage_key <$> last delegations).

Definition query_delegator_delegations_paged s (delegation_owner : string) (start_after : option StorageKey) limit
    : result (Paged Delegation.t StorageKey) :=
  let? validated_owner := validate_address delegation_owner in
  let delegations := snd <$> page start_after (delegation_limit limit)
                       (filter (fun kv => Delegation.owner kv.2 = validated_owner) (ascending (delegations s))) in
  Ok (mkPaged delegations ((fun del => (Delegation.mix_id del, proxy_storage_key del)) <$> last delegations)).

(** [proxy.map(|proxy| addr_validate(&proxy)).transpose()?]. *)
Definition validate_optional (address : option string) : result (option Addr) :=
  match address with
  | Some a => let? a := validate_address a in Ok (Some a)
  | None => Ok None
  end.

(** The node has a bond and is not unbonding. *)
Definition fully_bonded s (mix_id : MixId) : bool :=
  match mixnode_bonds s !! mix_id with Some bond => negb (MixNodeBond.is_unbonding bond) | None => false end.

Definition query_mixnode_delegation s (mix_id : MixId) (delegation_owner : string) (proxy : option string)
    : result (option Delegation.t * bool) :=
  let? validated_owner := validate_address delegation_owner in
  let? validated_proxy := validate_optional proxy in
  let storage_key := Delegation.generate_storage_key mix_id validated_owner validated_proxy in
  Ok (delegations s !! storage_key, fully_bonded s mix_id).

Definition query_all_delegations_paged s (start_after : option StorageKey) limit : Paged Delegation.t StorageKey :=
  let delegations := snd <$> page start_after (delegation_limit limit) (ascending (delegations s)) in
  mkPaged delegations (Delegation.storage_key <$> last delegations).

(** ** Gateways, [gateways/queries.rs] *)

Definition query_gateways_paged s (start_after : option IdentityKey) limit : PagedNodes GatewayBond.t IdentityKey :=
  let limit := page_limit limit GATEWAY_BOND_DEFAULT_RETRIEVAL_LIMIT GATEWAY_BOND_MAX_RETRIEVAL_LIMIT in
  let nodes := snd <$> page start_after limit (ascending (gateways s)) in
  mkPagedNodes nodes limit (GatewayBond.identity <$> last nodes).

Definition query_owned_gateway s (address : string) : result (Addr * option GatewayBond.t) :=
  let? validated_addr := validate_address address in
  Ok (validated_addr, gateway_by_owner s validated_addr).

Definition query_gateway_bond s (identity : IdentityKey) : IdentityKey * option GatewayBond.t :=
  (identity, gateways s !! identity).

(** ** Families, [families/queries.rs] *)

Definition query_family_by_label s (label : string) : string * option Family := (label, get_family_by_label s label).

Definition get_family_by_head s (head : IdentityKey) : FamilyHead * option Family := (head, families s !! head).

Definition get_members s (family : Family) : list IdentityKey :=
  fst <$> filter (fun kv => kv.2 = fam_head family) (ascending (members s)).

Definition get_family_members_by_head s (head : IdentityKey) : result (FamilyHead * list IdentityKey) :=
  let? family := must_get_family s head in
  Ok (fam_head family, get_members s family).

Definition must_get_family_by_label s (label : string) : result Family :=
  or_err (get_family_by_label s label) (FamilyLabelDoesNotExist label).

Definition get_family_members_by_label s (label : string) : result (string * list IdentityKey) :=
  let? family := must_get_family_by_label s label in
  Ok (label, get_members s family).

Definition families_limit limit : Z := page_limit limit FAMILIES_DEFAULT_RETRIEVAL_LIMIT FAMILIES_MAX_RETRIEVAL_LIMIT.

Definition get_all_families_paged s (start_after : option string) limit : Paged Family string :=
  let response := snd <$> page start_after (families_limit limit) (ascending (families s)) in
  mkPaged response (fam_head <$> last response).

Definition get_all_members_paged s (start_after : option string) limit : Paged (IdentityKey * FamilyHead) string :=
  let response := page start_after (families_limit limit) (ascending (members s)) in
  mkPaged response (fst <$> last response).

(** ** The interval, [interval/queries.rs] *)

Definition query_epoch_status s : EpochStatus.t := epoch_status s.

Definition query_current_interval_details s (env : Env) : result CurrentIntervalResponse :=
  let? interval_over := Interval.is_current_interval_over (interval s) env in
  let? epoch_over := Interval.is_current_epoch_over (interval s) env in
  Ok (mkCurrentInterval (interval s) (block_time_secs env) interval_over epoch_over).

Definition query_rewarded_set_paged s (start_after : option MixId) limit : Paged (MixId * RewardedSetNodeStatus) MixId :=
  let limit := page_limit limit REWARDED_SET_DEFAULT_RETRIEVAL_LIMIT REWARDED_SET_MAX_RETRIEVAL_LIMIT in
  let nodes := page start_after limit (ascending (rewarded_set s)) in
  mkPaged nodes (fst <$> last nodes).

Definition query_pending_epoch_events_paged s (env : Env) (start_after : option EpochEventId) limit
    : result (PendingEventsResponse (EpochEventId * PendingEpochEventData) EpochEventId) :=
  let limit := page_limit limit EPOCH_EVENTS_DEFAULT_RETRIEVAL_LIMIT EPOCH_EVENTS_MAX_RETRIEVAL_LIMIT in
  let events := page start_after limit (ascending (pending_epoch_events s)) in
  let? secs := Interval.secs_until_current_epoch_end (interval s) env in
  Ok (mkPendingEvents secs events (fst <$> last events)).

Definition query_pending_interval_events_paged s (env : Env) (start_after : option IntervalEventId) limit
    : result (PendingEventsResponse (IntervalEventId * PendingIntervalEventData) IntervalEventId) :=
  let limit := page_limit limit INTERVAL_EVENTS_DEFAULT_RETRIEVAL_LIMIT INTERVAL_EVENTS_MAX_RETRIEVAL_LIMIT in
  let events := page start_after limit (ascending (pending_interval_events s)) in
  let? secs := Interval.secs_until_current_interval_end (interval s) env in
  Ok (mkPendingEvents secs events (fst <$> last events)).

Definition query_pending_epoch_event s (event_id : EpochEventId) : EpochEventId * option PendingEpochEventData :=
  (event_id, pending_epoch_events s !! event_id).

Definition query_pending_interval_event s (event_id : IntervalEventId)
    : IntervalEventId * option PendingIntervalEventData :=
  (event_id, pending_interval_events s !! event_id).

(** ** Settings and nonces *)

Definition query_contract_state s : ContractState := contract_state s.

Definition query_contract_settings_params s : ContractStateParams := params (contract_state s).

Definition query_rewarding_validator_address s : string := rewarding_validator_address (contract_state s).

Definition query_current_signing_nonce s (address : string) : result Z :=
  let? address := validate_address address in
  Ok (get_signing_nonce s address).

(** ** Rewards, [rewards/queries.rs] *)

Definition query_rewarding_params s : RewardingParams.t := rewarding_params s.

Definition pending_operator_reward (mix_details : option MixNodeDetails) : result PendingRewardResponse :=
  match mix_details with
  | Some d =>
      let pledge := MixNodeBond.original_pledge (bond_information d) in
      let? earned := MixNodeRewarding.pending_operator_reward (rewarding_details d) pledge in
      let? detailed := MixNodeRewarding.pending_detailed_operator_reward (rewarding_details d) pledge in
      Ok (mkPendingReward (Some pledge) (Some earned) (Some detailed) (negb (MixNodeBond.is_unbonding (bond_information d))))
  | None => Ok no_pending_reward
  end.

Definition query_pending_operator_reward s (owner : string) : result PendingRewardResponse :=
  let? owner_address := validate_address owner in
  let? mix_details := get_mixnode_details_by_owner s owner_address in
  pending_operator_reward mix_details.

Definition query_pending_mixnode_operator_reward s (mix_id : MixId) : result PendingRewardResponse :=
  let? mix_details := get_mixnode_details_by_id s mix_id in
  pending_operator_reward mix_details.

Definition query_pending_delegator_reward s (owner : string) (mix_id : MixId) (proxy : option string)
    : result PendingRewardResponse :=
  let? owner_address := validate_address owner in
  let? proxy := validate_optional proxy in
  match mixnode_rewarding s !! mix_id with
  | None => Ok no_pending_reward
  | Some mix_rewarding =>
      match delegations s !! Delegation.generate_storage_key mix_id owner_address proxy with
      | None => Ok no_pending_reward
      | Some delegation =>
          let? detailed_reward := MixNodeRewarding.determine_delegation_reward mix_rewarding delegation in
          let? delegator_reward := MixNodeRewarding.pending_delegator_reward mix_rewarding delegation in
          Ok (mkPendingReward (Some (Delegation.amount delegation)) (Some delegator_reward) (Some detailed_reward)
                (fully_bonded s mix_id))
      end
  end.

Definition zero_reward (original_stake : Coin) (current_value : Decimal) : result EstimatedCurrentEpochRewardResponse :=
  let? current_stake := truncate_reward current_value (denom original_stake) in
  Ok (mkEstimated (Some original_stake) (Some current_stake) (Some current_value)
        (Some (mkCoin (denom original_stake) 0)) (Some dec_zero)).

(** The rewards of a node in the current epoch. *)
Definition expected_distribution s (n : MixNodeRewarding.t) (node_status : RewardedSetNodeStatus)
    (estimated_performance : Percent.t) : result RewardDistribution :=
  let node_reward_params := mkNodeParams estimated_performance (is_active node_status) in
  let? node_reward := MixNodeRewarding.node_reward n (rewarding_params s) node_reward_params in
  MixNodeRewarding.determine_reward_split n node_reward estimated_performance (Interval.epochs_in_interval (interval s)).

Definition query_estimated_current_epoch_operator_reward s (mix_id : MixId) (estimated_performance : Percent.t)
    : result EstimatedCurrentEpochRewardResponse :=
  let? mix_details := get_mixnode_details_by_id s mix_id in
  match mix_details with
  | None => Ok empty_response
  | Some d =>
      let amount_staked := MixNodeBond.original_pledge (bond_information d) in
      let current_value := MixNodeRewarding.operator (rewarding_details d) in
      if MixNodeBond.is_unbonding (bond_information d) then zero_reward amount_staked current_value
      else
        match rewarded_set s !! mix_id with
        | None => zero_reward amount_staked current_value
        | Some node_status =>
            if Percent.is_zero estimated_performance then zero_reward amount_staked current_value
            else
              let? distribution := expected_distribution s (rewarding_details d) node_status estimated_performance in
              let? estimation := truncate_reward (rd_operator distribution) (denom amount_staked) in
              let? current_stake := truncate_reward current_value (denom amount_staked) in
              Ok (mkEstimated (Some amount_staked) (Some current_stake) (Some current_value) (Some estimation)
                    (Some (rd_operator distribution)))
        end
  end.

Definition query_estimated_current_epoch_delegator_reward s (owner : string) (mix_id : MixId) (proxy : option string)
    (estimated_performance : Percent.t) : result EstimatedCurrentEpochRewardResponse :=
  let? owner_address := validate_address owner in
  let? proxy := validate_optional proxy in
  match mixnode_rewarding s !! mix_id with
  | None => Ok empty_response
  | Some mix_rewarding =>
      match delegations s !! Delegation.generate_storage_key mix_id owner_address proxy with
      | None => Ok empty_response
      | Some delegation =>
          let amount_staked := Delegation.amount delegation in
          let? staked_dec := lift_std (into_base_decimal (amount amount_staked)) in
          let? reward := MixNodeRewarding.determine_delegation_reward mix_rewarding delegation in
          let? current_value := dadd staked_dec reward in
          if negb (fully_bonded s mix_id) then zero_reward amount_staked current_value
          else
            match rewarded_set s !! mix_id with
            | None => zero_reward amount_staked current_value
            | Some node_status =>
                if Percent.is_zero estimated_performance then zero_reward amount_staked current_value
                else
                  let? distribution := expected_distribution s mix_rewarding node_status estimated_performance in
                  if rd_delegates distribution =? dec_zero then zero_reward amount_staked current_value
                  else
                    let? share := ddiv current_value (MixNodeRewarding.delegates mix_rewarding) in
                    let? reward_share := dmul share (rd_delegates distribution) in
                    let? estimation := truncate_reward reward_share (denom amount_staked) in
                    let? current_stake := truncate_reward current_value (denom amount_staked) in
                    Ok (mkEstimated (Some amount_staked) (Some current_stake) (Some current_value) (Some estimation)
                          (Some reward_share))
            end
      end
  end.

End Queries.

(** ** Listings *)

Section Listings.
Context `{CosmMath} `{!CosmMathLaws} `{ChainApi} (s : Store) (limit : option Z).
Context (Hinv : inv s) (Hlimit : forall n, limit = Some n -> 0 < n).

Lemma page_limit_pos dflt max : 0 < dflt -> 0 < max -> 0 < page_limit limit dflt max.
Proof. intros Hd Hm. unfold page_limit. destruct limit as [n|]; simpl; [pose proof (Hlimit n eq_refl)|]; lia. Qed.

(** The key of the last entry is the last key. *)
Lemma last_key {K V} `{Countable K} `{!KeyOrder K} (m : gmap K V) (key_of : V -> K) start n :
  (forall k v, m !! k = Some v -> key_of v = k) ->
  key_of <$> last (snd <$> page start n (ascending m)) = fst <$> last (page start n (ascending m)).
Proof.
  intros Hk. rewrite fmap_last. destruct (last (page _ _ _)) as [[k v]|] eqn:El; simpl; [|done]. f_equal. apply Hk.
  by apply last_Some_elem_of, page_entry in El.
Qed.

(** A query whose response has the stored values. *)
Lemma values_listed {K V} `{Countable K} `{!KeyOrder K} (m : gmap K V) (key_of : V -> K) n
    (query : option K -> result (list V * option K)) :
  (forall start, query start =
    Ok (snd <$> page start n (ascending m), key_of <$> last (snd <$> page start n (ascending m)))) ->
  0 < n -> (forall k v, m !! k = Some v -> key_of v = k) -> lists_all query m (fun kv => Ok kv.2).
Proof.
  intros Hq Hn Hk. eapply query_lists_all; [exact Hn| |by apply mapM_outcome_Ok].
  intros start _. rewrite Hq, (last_key m key_of) by done. by rewrite (mapM_outcome_Ok _ snd).
Qed.

(** A query whose response has keys and values. *)
Lemma entries_listed {K V} `{Countable K} `{!KeyOrder K} (m : gmap K V) n (query : option K -> result (list (K * V) * option K)) :
  (forall start, query start = Ok (page start n (ascending m), fst <$> last (page start n (ascending m)))) ->
  0 < n -> lists_all query m Ok.
Proof.
  intros Hq Hn. eapply query_lists_all; [exact Hn| |by apply (mapM_outcome_Ok _ id)].
  intros start _. rewrite Hq, (mapM_outcome_Ok _ id) by done. by rewrite list_fmap_id.
Qed.

Lemma details_attached l :
  (forall kv, kv ∈ l -> mixnode_bonds s !! kv.1 = Some kv.2) ->
  exists entries, mapM_outcome (attach_node_details s) l = Ok entries /\
    (fun d => MixNodeBond.mix_id (bond_information d)) <$> last entries = fst <$> last l.
Proof.
  intros Hl. assert (exists entries, mapM_outcome (attach_node_details s) l = Ok entries /\
    (fun d => MixNodeBond.mix_id (bond_information d)) <$> entries = fst <$> l) as (es & Hes & Hk).
  { induction l as [|[k b] l IH]; [by exists []|]. destruct IH as (es & Hes & Hk).
    { intros kv Hkv. apply Hl. by right. }
    specialize (Hl (k, b) ltac:(by left)). simpl in Hl.
    destruct (inv_bonds _ Hinv _ _ Hl) as (Hid & _ & n & Hn & _).
    eexists. simpl. unfold attach_node_details at 1, attach_mix_details; simpl. rewrite Hid, Hn. simpl. rewrite Hes. simpl.
    split; [done|]. rewrite !fmap_cons, Hk. simpl. by rewrite Hid. }
  exists es. split; [done|]. by rewrite <- !fmap_last, Hk.
Qed.

(** A client that follows [start_next_after] from page to page, with any limit above zero, is
    given every bonded and unbonded node, delegation, gateway, node of the rewarded set and family
    member exactly once, in the order of their keys, after at most one request more than there are
    entries. *)
Theorem paged_listings_are_complete :
  lists_all (fun start => let r := query_mixnode_bonds_paged s start limit in Ok (nodes r, nodes_start_next_after r))
    (mixnode_bonds s) (fun kv => Ok (E := MixnetContractError) kv.2) /\
  lists_all (fun start => let? r := query_mixnodes_details_paged s start limit in Ok (nodes r, nodes_start_next_after r))
    (mixnode_bonds s) (fun kv => attach_mix_details s kv.2) /\
  lists_all (fun start => let r := query_unbonded_mixnodes_paged s start limit in Ok (nodes r, nodes_start_next_after r))
    (unbonded_mixnodes s) (Ok (E := MixnetContractError)) /\
  lists_all (fun start => let r := query_all_delegations_paged s start limit in Ok (items r, start_next_after r))
    (delegations s) (fun kv => Ok (E := MixnetContractError) kv.2) /\
  lists_all (fun start => let r := query_gateways_paged s start limit in Ok (nodes r, nodes_start_next_after r))
    (gateways s) (fun kv => Ok (E := MixnetContractError) kv.2) /\
  lists_all (fun start => let r := query_rewarded_set_paged s start limit in Ok (items r, start_next_after r))
    (rewarded_set s) (Ok (E := MixnetContractError)) /\
  lists_all (fun start => let r := get_all_members_paged s start limit in Ok (items r, start_next_after r))
    (members s) (Ok (E := MixnetContractError)).
Proof.
  split_and!.
  - eapply (values_listed _ MixNodeBond.mix_id); [done|by apply page_limit_pos|].
    intros k b Hb. by apply (inv_bonds _ Hinv).
  - destruct (details_attached (ascending (mixnode_bonds s))) as (es & Hes & _).
    { intros [k b]. rewrite ascending_perm. apply elem_of_map_to_list. }
    eapply (query_lists_all _ _ (page_limit limit MIXNODE_DETAILS_DEFAULT_RETRIEVAL_LIMIT MIXNODE_DETAILS_MAX_RETRIEVAL_LIMIT));
      [by apply page_limit_pos| |exact Hes]. intros start _. unfold query_mixnodes_details_paged.
    match goal with |- context [page start ?n ?l] => destruct (details_attached (page start n l)) as (ps & Hps & Hk) end.
    { intros kv. apply page_entry. }
    change (fun kv => attach_mix_details s kv.2) with (attach_node_details s). rewrite Hps. simpl. by rewrite Hk.
  - eapply entries_listed; [done|by apply page_limit_pos].
  - eapply (values_listed _ Delegation.storage_key); [done|by apply page_limit_pos|].
    intros k d Hd. by apply (inv_delegations _ Hinv).
  - eapply (values_listed _ GatewayBond.identity); [done|by apply page_limit_pos|].
    intros k g Hg. by apply (inv_gateways _ Hinv).
  - eapply entries_listed; [done|by apply page_limit_pos].
  - eapply entries_listed; [done|by apply page_limit_pos].
Qed.

End Listings.

(** ** Rewards *)

Section Rewards.
Context `{CosmMath} `{!CosmMathLaws} `{ChainApi} `{SignatureApi}.

(** The pledge is a whole number of coins, so it makes no difference whether the reward is truncated
    before or after it is taken off. *)
Lemma withdrawn_operator_reward n pledge c c' n' :
  0 <= amount pledge -> MixNodeRewarding.pending_operator_reward n pledge = Ok c ->
  MixNodeRewarding.withdraw_operator_reward n pledge = Ok (c', n') -> c' = c.
Proof.
  intros Hp Hc Hw. unfold MixNodeRewarding.pending_operator_reward, MixNodeRewarding.withdraw_operator_reward,
    truncate_reward in *. run_pairs. f_equal. pose proof F_pos.
  replace (MixNodeRewarding.operator n - amount pledge * F) with (MixNodeRewarding.operator n + - amount pledge * F) by lia.
  rewrite Z.div_add by lia. lia.
Qed.

(** What a node is given for the epoch. *)
Lemma rewarded_operator s env info i n perf s' r :
  mixnode_rewarding s !! i = Some n -> MixNodeRewarding.still_bonded n = true ->
  try_reward_mixnode s env info i perf = Ok (s', r) ->
  exists status n' x, rewarded_set s !! i = Some status /\ mixnode_rewarding s' !! i = Some n' /\
    MixNodeRewarding.operator n' = MixNodeRewarding.operator n + x /\
    if Percent.is_zero perf then x = 0 else exists d, expected_distribution s n status perf = Ok d /\ x = rd_operator d.
Proof.
  intros Hn Hb Hr. unfold try_reward_mixnode in Hr. do 4 run_step. apply update_last_rewarded_Ok in E2 as [st ->].
  simpl in Hr. rewrite Hn, Hb in Hr. unfold expected_distribution. destruct (Percent.is_zero perf).
  - run_pairs. eexists _, _, 0. split_and!; [done|by rewrite lookup_insert_eq|simpl; lia|done].
  - unfold reward_accounting in Hr. run_pairs. unfold MixNodeRewarding.distribute_rewards in *. run_pairs.
    eexists _, _, _. split_and!; [done|by rewrite lookup_insert_eq|done|]. rewrite E4. simpl. eauto.
Qed.

(** C34: what the queries say of rewards is what the contract does.  The pending reward of an operator
    or a delegator is what a withdrawal pays, and the estimate for the current epoch is what the
    operator of a node that is not unbonding gets when the node is rewarded with this performance. *)
Theorem queried_rewards_are_paid s :
  inv s ->
  (forall owner a proxy s' r q, addr_validate owner = Some a -> query_pending_operator_reward s owner = Ok q ->
    _try_withdraw_operator_reward s a proxy = Ok (s', r) ->
    exists c, amount_earned q = Some c /\ r = reward_messages s' a proxy c) /\
  (forall owner a mix_id proxy p s' r q, addr_validate owner = Some a -> validate_optional proxy = Ok p ->
    query_pending_delegator_reward s owner mix_id proxy = Ok q ->
    _try_withdraw_delegator_reward s mix_id a p = Ok (s', r) ->
    exists c, amount_earned q = Some c /\ r = reward_messages s' a p c) /\
  (forall env info mix_id b n perf s' r e, mixnode_bonds s !! mix_id = Some b -> MixNodeBond.is_unbonding b = false ->
    mixnode_rewarding s !! mix_id = Some n -> MixNodeRewarding.still_bonded n = true ->
    query_estimated_current_epoch_operator_reward s mix_id perf = Ok e ->
    try_reward_mixnode s env info mix_id perf = Ok (s', r) ->
    exists x n', detailed_estimation_amount e = Some x /\ mixnode_rewarding s' !! mix_id = Some n' /\
      MixNodeRewarding.operator n' = MixNodeRewarding.operator n + x).
Proof.
  intros Hi. split_and!.
  - intros owner a proxy s' r q Ha Hq Hw.
    unfold query_pending_operator_reward, validate_address in Hq. rewrite Ha in Hq. simpl in Hq.
    unfold _try_withdraw_operator_reward, withdraw_operator_reward in Hw.
    destruct (get_mixnode_details_by_owner s a) as [[d|]| |] eqn:Hd; [|by run_pairs..]. simpl in Hq. run_pairs.
    eexists. split; [done|].
    f_equal. eapply withdrawn_operator_reward; [|done|done].
    apply details_by_owner_bond, find_by_Some in Hd as (i & Hb & _). by destruct (inv_bonds _ Hi _ _ Hb) as (_ & ? & _).
  - intros owner a i proxy p s' r q Ha Hp Hq Hw.
    unfold query_pending_delegator_reward, validate_address in Hq. rewrite Ha, Hp in Hq. simpl in Hq.
    unfold _try_withdraw_delegator_reward, withdraw_delegator_reward, MixNodeRewarding.withdraw_delegator_reward in Hw.
    destruct (delegations s !! _) as [dg|]; [|by run_pairs]. destruct (mixnode_rewarding s !! i) as [n|]; [|by run_pairs].
    unfold MixNodeRewarding.pending_delegator_reward in Hq. run_pairs. eexists. split; [done|]. f_equal. congruence.
  - intros env info i b n perf s' r e Hb Hu Hn Hs He Hr.
    destruct (rewarded_operator _ _ _ _ _ _ _ _ Hn Hs Hr) as (status & n' & x & Hst & Hn' & Hop & Hx).
    unfold query_estimated_current_epoch_operator_reward, get_mixnode_details_by_id, attach_mix_details in He.
    rewrite Hb in He. destruct (inv_bonds _ Hi _ _ Hb) as (Hid & _). rewrite Hid, Hn in He. simpl in He. rewrite Hu, Hst in He.
    exists x, n'. split; [|done]. destruct (Percent.is_zero perf).
    + unfold zero_reward in He. run_pairs. done.
    + destruct Hx as (d & Hd & ->). rewrite Hd in He. simpl in He. by run_pairs.
Qed.

End Rewards.

(** ** Samples *)

#[local] Existing Instances fixed_point fixed_point_laws sample_api sample_signatures.

Lemma sample_inv : inv (chain_store sample_chain).
Proof. apply (reachable_solvent "unym"), sample_reachable. Qed.

(** Three pages of delegations, the last one empty. *)
Lemma paged_listings_are_complete_witness :
  exists l es, walk (S (size (delegations (chain_store sample_chain))))
      (fun start => let r := query_all_delegations_paged (chain_store sample_chain) start (Some 1) in
         Ok (E := MixnetContractError) (items r, start_next_after r)) None = Ok es /\
    mapM_outcome (fun kv => Ok (E := MixnetContractError) kv.2) l = Ok es /\
    Permutation l (map_to_list (delegations (chain_store sample_chain))) /\ in_order l.
Proof.
  destruct (paged_listings_are_complete (chain_store sample_chain) (Some 1) sample_inv ltac:(intros n [= <-]; lia))
    as (_ & _ & _ & Hd & _).
  exact Hd.
Defined.

(** The query of the operator's reward, and the withdrawal. *)
Lemma queried_rewards_are_paid_witness :
  exists q c s' r, query_pending_operator_reward (chain_store sample_chain) "alice" = Ok q /\
    amount_earned q = Some c /\ amount c = 12_661_160 /\
    _try_withdraw_operator_reward (chain_store sample_chain) "alice" None = Ok (s', r) /\
    r = reward_messages s' "alice" None c.
Proof.
  destruct (queried_rewards_are_paid (chain_store sample_chain) sample_inv) as [Hop _].
  destruct (query_pending_operator_reward (chain_store sample_chain) "alice") as [q| |] eqn:Hq; [|vm_compute in Hq; discriminate..].
  destruct (_try_withdraw_operator_reward (chain_store sample_chain) "alice" None) as [[s' r]| |] eqn:Hw; [|vm_compute in Hw; discriminate..].
  destruct (Hop "alice" "alice" None s' r q eq_refl Hq Hw)%string as (c & Hc & Hr).
  exists q, c, s', r. split_and!; [done|done| |done|done].
  vm_compute in Hq. injection Hq as <-. vm_compute in Hc. injection Hc as <-. reflexivity.
Defined.

(** A node that is unbonding at the end of an epoch. *)
Definition unbonding_node : Store :=
  chain_store (deliver_all (mkChain sample_store sample_balance)
    (sample_events ++ [from 7300 "alice" MsgUnbondMixnode; from 10800 "validator" MsgBeginEpochTransition])).

(** The estimate for a node that is unbonding is zero, but the node is rewarded for the epoch. *)
Theorem estimate_misses_unbonding_node :
  detailed_estimation_amount <$> (match query_estimated_current_epoch_operator_reward unbonding_node 1 Percent.hundred with
    Ok e => Some e | _ => None end) = Some (Some 0) /\
  exists s' r n n', try_reward_mixnode unbonding_node (at_time 10800) (mkInfo "validator" []) 1 Percent.hundred = Ok (s', r) /\
    mixnode_rewarding unbonding_node !! 1 = Some n /\ mixnode_rewarding s' !! 1 = Some n' /\
    MixNodeRewarding.operator n + 9_255_611 * F < MixNodeRewarding.operator n'.
Proof.
  split; [vm_compute; reflexivity|]. do 4 eexists. split; [vm_compute; reflexivity|].
  split_and!; [vm_compute; reflexivity|vm_compute; reflexivity|vm_compute; reflexivity].
Qed.
