(* ===== verification/Platform.v ===== *)
(** * The two contracts on one chain

    The mixnet contract and the vesting contract call each other: the vesting
    contract stakes on behalf of its accounts, and the mixnet contract tells
    it what it has returned.  This file is the chain's part of it: accounts
    with balances, the payment of a message's funds, and the messages of a
    response, which are handled in order within the same transaction.  A
    transaction in which anything fails has no effect. *)

From S2P Require Import Prelude Bytes Cosmwasm MixnetTypes MixnetStorage MixnetSupport MixnetEvents MixnetTransactions.
From S2P Require Import Accounting VestingTypes VestingStorage VestingAccount VestingTransactions.
#[local] Open Scope Z_scope.

(** Collecting state over a list, up to the first failure. *)
Fixpoint foldM {E A B} (f : A -> B -> outcome E A) (a : A) (l : list B) : outcome E A :=
  match l with
  | [] => Ok a
  | x :: l => let? a := f a x in foldM f a l
  end.

Inductive PlatformError : Type :=
| MixnetFailed (e : MixnetContractError)
| VestingFailed (e : VestingError.t)
| InsufficientFunds (a : Addr)
| UnknownContract (a : Addr).

Record Platform : Type := mkPlatform {
  mixnet : Store;
  vesting : VestingStore;
  bank : gmap Addr Z
}.

Definition set_bank (p : Platform) (b : gmap Addr Z) : Platform := mkPlatform (mixnet p) (vesting p) b.

(** A message to one of the contracts. *)
Inductive Call : Type :=
| ToMixnet (msg : ExecuteMsg)
| ToVesting (msg : VestingExecuteMsg.t).

Section Platform.
Context `{CosmMath} `{ChainApi} `{SignatureApi} `{TimestampApi}.

(** The addresses of the contracts and the denomination of the stake, the only one whose balances
    are kept here. *)
Context (mixnet_address vesting_address : Addr) (d : string).

Definition balance_of (b : gmap Addr Z) (a : Addr) : Z := default 0 (b !! a).

Definition transfer (p : Platform) (from to : Addr) (coins : list Coin) : outcome PlatformError Platform :=
  let n := coins_in d coins in
  if balance_of (bank p) from <? n then Err (InsufficientFunds from)
  else
    let b := <[from := balance_of (bank p) from - n]> (bank p) in
    Ok (set_bank p (<[to := balance_of b to + n]> b)).

(** A call with funds, and then the messages of the response. *)
Fixpoint call (fuel : nat) (env : Env) (p : Platform) (from : Addr) (coins : list Coin) (c : Call)
    : outcome PlatformError Platform :=
  match fuel with
  | O => Panic Diverges
  | S fuel =>
      match c with
      | ToMixnet msg =>
          let? p := transfer p from mixnet_address coins in
          let? (s, response) := map_err MixnetFailed (execute (mixnet p) env (mkInfo from coins) msg) in
          foldM (fun p m =>
            match m with
            | BankSend to coins => transfer p mixnet_address to coins
            | WasmExecute contract msg =>
                if addr_eqb contract vesting_address
                then call fuel env p mixnet_address [] (ToVesting (VestingExecuteMsg.of_track msg))
                else Err (UnknownContract contract)
            end) (mkPlatform s (vesting p) (bank p)) response
      | ToVesting msg =>
          let? p := transfer p from vesting_address coins in
          let? (s, response) := map_err VestingFailed (Vesting.execute (vesting p) env (mkInfo from coins) msg) in
          foldM (fun p m =>
            match m with
            | PayOut to coins => transfer p vesting_address to coins
            | CallMixnet contract msg coins =>
                if addr_eqb contract mixnet_address
                then call fuel env p vesting_address coins (ToMixnet msg)
                else Err (UnknownContract contract)
            end) (mkPlatform (mixnet p) s (bank p)) response
      end
  end.

(** The nesting of calls: a message of an account, the vesting contract's call of the mixnet
    contract, and that one's report. *)
Definition CALL_DEPTH : nat := 3.

(** Transactions of accounts: messages to the contracts, and transfers. *)
Inductive PlatformEvent : Type :=
| Transaction (env : Env) (from : Addr) (coins : list Coin) (c : Call)
| Transfer (from to : Addr) (coins : list Coin).

Definition platform_tx (p : Platform) (e : PlatformEvent) : outcome PlatformError Platform :=
  match e with
  | Transaction env from coins c => call CALL_DEPTH env p from coins c
  | Transfer from to coins => transfer p from to coins
  end.

Definition platform_deliver (p : Platform) (e : PlatformEvent) : Platform :=
  match platform_tx p e with Ok p' => p' | _ => p end.

Definition platform_deliver_all (p : Platform) (es : list PlatformEvent) : Platform := foldl platform_deliver p es.

End Platform.
