(* ===== verification/PlatformSafety.v ===== *)
(** * Both contracts stay solvent

    In any sequence of transactions the account of the mixnet contract covers
    what it owes, and the account of the vesting contract covers the balances
    it keeps for its accounts, whatever the contracts send each other. *)

From S2P Require Import Prelude Bytes Cosmwasm MixnetTypes Rewarding Backing Interval MixnetStorage MixnetSupport.
From S2P Require Import MixnetEvents MixnetTransactions Accounting Solvency MixnetChain MixnetSample MixnetTracking.
From S2P Require Import VestingTypes VestingStorage VestingAccount VestingTransactions VestingBooks VestingLocked Platform.
#[local] Open Scope Z_scope.

(** ** The deposits of the vesting contract *)

(** The balances of all accounts, those without an owner included. *)
Definition deposits (s : VestingStore) : Z := msum (fun v => v) (balances s).

Lemma deposits_save s key v : deposits (save_balance s key v) = deposits s - load_balance s key + v.
Proof.
  unfold deposits, load_balance, save_balance; simpl. rewrite msum_insert. unfold at_key.
  destruct (balances s !! key); simpl; lia.
Qed.

(** What a response of the vesting contract pays out. *)
Definition out_sent (d : string) (m : VestingOut) : Z :=
  match m with PayOut _ coins => coins_in d coins | CallMixnet _ _ coins => coins_in d coins end.

Definition outflow (d : string) (out : list VestingOut) : Z := zsum (out_sent d <$> out).

Definition tracked_amount (msg : VestingExecuteMsg.t) : Z := from_option (fun p => amount p.2) 0 (tracked msg).

(** The messages of a response: unsigned amounts, and calls of the mixnet contract only. *)
Definition out_msg_ok (m d : string) (x : VestingOut) : Prop :=
  match x with
  | PayOut _ coins => Forall (fun c => 0 <= amount c) coins
  | CallMixnet contract msg coins => contract = m /\ Forall (fun c => 0 <= amount c) coins /\ msg_ok d msg
  end.

Record vesting_tx_ok (s : VestingStore) (received : Z) (s' : VestingStore) (out : list VestingOut) : Prop := {
  vtx_deposits : deposits s' + outflow (mix_denom s) out <= deposits s + received;
  vtx_denom : mix_denom s' = mix_denom s;
  vtx_mixnet : mixnet_contract_address s' = mixnet_contract_address s;
  vtx_out : Forall (out_msg_ok (mixnet_contract_address s) (mix_denom s)) out
}.

Section Deposits.
Context `{CosmMath} `{!CosmMathLaws} `{ChainApi} `{TimestampApi}.

Lemma outflow_one d m : outflow d [m] = out_sent d m.
Proof. unfold outflow; simpl. lia. Qed.

(** A call of the mixnet contract that leaves the store as it is. *)
Lemma forward_ok s msg :
  msg_ok (mix_denom s) msg -> vesting_tx_ok s 0 s [AccountExt.call_mixnet s msg []].
Proof.
  intros Hm. split; [rewrite outflow_one; unfold coins_in; simpl; unfold coins_in; simpl; lia|done|done|].
  repeat constructor. done.
Qed.

(** The balance of one account changes. *)
Lemma balance_ok s s' key v received out :
  balances s' = <[key := v]> (balances s) -> mix_denom s' = mix_denom s ->
  mixnet_contract_address s' = mixnet_contract_address s ->
  v - load_balance s key + outflow (mix_denom s) out <= received ->
  Forall (out_msg_ok (mixnet_contract_address s) (mix_denom s)) out -> vesting_tx_ok s received s' out.
Proof.
  intros Eb Ed Em Hv Ho. split; [|done|done|done]. pose proof (deposits_save s key v) as Hs.
  unfold deposits in *; simpl in Hs. rewrite Eb. lia.
Qed.

(** The balances stay as they are, and nothing is sent. *)
Lemma settings_ok s s' :
  balances s' = balances s -> mix_denom s' = mix_denom s -> mixnet_contract_address s' = mixnet_contract_address s ->
  vesting_tx_ok s 0 s' [].
Proof. intros Eb Ed Em. split; [|done|done|done]. unfold deposits, outflow; simpl. rewrite Eb. lia. Qed.

(** A stake moves tokens from the balance to the mixnet contract. *)
Lemma stake_ok s key b c s' msg :
  b = load_balance s key -> balances s' = <[key := b - amount c]> (balances s) ->
  mix_denom s' = mix_denom s -> mixnet_contract_address s' = mixnet_contract_address s ->
  0 <= amount c -> denom c = mix_denom s -> msg_ok (mix_denom s) msg ->
  vesting_tx_ok s 0 s' [AccountExt.call_mixnet s msg [c]].
Proof.
  intros -> Eb Ed Em Hc Hdn Hmsg. eapply balance_ok; [done..| |by repeat constructor].
  rewrite outflow_one; simpl. rewrite coins_in_one by done. lia.
Qed.

(** Tokens come back. *)
Lemma track_ok s s' key v :
  balances s' = <[key := load_balance s key + v]> (balances s) -> mix_denom s' = mix_denom s ->
  mixnet_contract_address s' = mixnet_contract_address s -> vesting_tx_ok s v s' [].
Proof. intros Eb Ed Em. eapply balance_ok; [done..| |done]. unfold outflow; simpl. lia. Qed.

Lemma create_ok s env info o st sp cap s' out :
  books_ok s -> Vesting.execute s env info (VestingExecuteMsg.CreateAccount o st sp cap) = Ok (s', out) ->
  vesting_tx_ok s (coins_in (mix_denom s) (funds info)) s' out.
Proof.
  intros Hb Hr. simpl in Hr. autounfold with vesting in Hr. vesting_inv.
  match goal with H : Vesting.validate_funds _ _ = Ok _ |- _ => apply validate_funds_Ok in H as (-> & Hd & _) end.
  rewrite coins_in_one by done. vesting_inv. fold (key_counter s) in *.
  destruct (books_fresh _ Hb (key_counter s + 1)) as [N _]; [lia|].
  eapply balance_ok; [done..| |done]. unfold outflow, load_balance; simpl. rewrite N. simpl. lia.
Qed.

Lemma delegation_ok_tx a i c env s s' out :
  0 <= amount c -> denom c = mix_denom s -> AccountExt.try_delegate_to_mixnode a i c env s = Ok (s', out) ->
  vesting_tx_ok s 0 s' out.
Proof.
  intros Hc Hd Hr. unfold AccountExt.try_delegate_to_mixnode, AccountExt.track_delegation in Hr.
  run_step. apply stake_balance in E as [-> Hle]. unfold VestingStorage.save_delegation in Hr. vesting_inv.
  by eapply stake_ok.
Qed.

Lemma bond_ok a c env s s' out :
  0 <= amount c -> denom c = mix_denom s ->
  (exists m cp sg, AccountExt.try_bond_mixnode a m cp sg c env s = Ok (s', out)) \/
  (exists g sg, AccountExt.try_bond_gateway a g sg c env s = Ok (s', out)) \/
  AccountExt.try_pledge_additional_tokens a c env s = Ok (s', out) -> vesting_tx_ok s 0 s' out.
Proof.
  intros Hc Hd [(m & cp & sg & Hr)|[(g & sg & Hr)|Hr]]; unfold AccountExt.try_bond_mixnode, AccountExt.try_bond_gateway,
    AccountExt.try_pledge_additional_tokens in Hr; run_step; apply stake_balance in E as [-> Hle];
    try case_match; vesting_inv; by eapply stake_ok.
Qed.

Lemma withdraw_ok s env info c s' out :
  books_ok s -> 0 <= amount c -> Vesting.try_withdraw_vested_coins s env info c = Ok (s', out) -> vesting_tx_ok s 0 s' out.
Proof.
  intros Hb Hc Hr. unfold Vesting.try_withdraw_vested_coins, AccountExt.withdraw, addr_eqb in Hr. run_inv.
  apply bool_decide_eq_true in E. math_inv. unfold AccountExt.spendable_coins, AccountExt.locked_coins in *.
  run_inv. simpl in *.
  pose proof (load_balance_nonneg s (Account.storage_key x0) (books_amounts _ Hb)).
  eapply balance_ok; [done..| |by repeat constructor].
  rewrite outflow_one; simpl. rewrite coins_in_one by done. unfold saturating_sub in *. lia.
Qed.

Lemma track_undelegation_ok a i c s s' :
  AccountExt.track_undelegation a i c s = Ok s' -> vesting_tx_ok s (amount c) s' [].
Proof.
  intros Hr. unfold AccountExt.track_undelegation in Hr.
  destruct (remove_delegations_frame a i s) as (m & Em & _). rewrite Em in Hr. vesting_inv. by eapply track_ok.
Qed.

Lemma execute_deposits s env info msg s' out :
  books_ok s -> unsigned info msg -> (forall a, msg <> VestingExecuteMsg.UpdateMixnetAddress a) ->
  Vesting.execute s env info msg = Ok (s', out) ->
  vesting_tx_ok s (coins_in (mix_denom s) (funds info) + tracked_amount msg) s' out.
Proof.
  intros Hb [Hf Hm] Hup Hr. pose proof (coins_in_nonneg (mix_denom s) _ Hf) as Hc.
  assert (forall n, vesting_tx_ok s n s' out -> n <= coins_in (mix_denom s) (funds info) + tracked_amount msg ->
    vesting_tx_ok s (coins_in (mix_denom s) (funds info) + tracked_amount msg) s' out) as Hz.
  { intros n [? ? ? ?] ?. split; [lia|done|done|done]. }
  destruct msg; simpl in Hr, Hm; try (by destruct (Hup _ eq_refl)); cbn in Hz.
  all: try (autounfold with vesting in Hr; run_inv; apply (Hz 0); [by apply forward_ok|lia]).
  - unfold Vesting.try_track_reward, AccountExt.track_reward in Hr. vesting_inv.
    apply (Hz (amount coin)); [by eapply track_ok|lia].
  - unfold Vesting.try_delegate_to_mixnode in Hr. run_inv. apply validate_funds_Ok in E as ([= ->] & Hd & _).
    apply (Hz 0); [by eapply delegation_ok_tx|lia].
  - apply (Hz (coins_in (mix_denom s) (funds info))); [by eapply create_ok|lia].
  - apply (Hz 0); [by eapply withdraw_ok|lia].
  - unfold Vesting.try_track_undelegation in Hr. run_inv. apply (Hz (amount coin)); [by eapply track_undelegation_ok|lia].
  - unfold Vesting.try_bond_mixnode in Hr. run_inv. apply validate_funds_Ok in E as ([= ->] & Hd & _).
    apply (Hz 0); [|lia]. eapply bond_ok; [done|done|]. left. by do 3 eexists.
  - unfold Vesting.try_pledge_more in Hr. run_inv. apply validate_funds_Ok in E as ([= ->] & Hd & _).
    apply (Hz 0); [|lia]. eapply bond_ok; [done|done|]. right. by right.
  - unfold Vesting.try_decrease_pledge, AccountExt.try_decrease_mixnode_pledge in Hr. run_inv.
    apply validate_funds_Ok in E as ([= ->] & Hd & _). case_match; run_inv. apply (Hz 0); [by apply forward_ok|lia].
  - unfold Vesting.try_track_unbond_mixnode, AccountExt.try_track_unbond_mixnode in Hr. vesting_inv.
    apply (Hz (amount coin)); [by eapply track_ok|lia].
  - unfold Vesting.try_track_decrease_mixnode_pledge, AccountExt.try_track_decrease_mixnode_pledge,
      decrease_bond_pledge in Hr. vesting_inv. apply (Hz (amount coin)); [by eapply track_ok|lia].
  - unfold Vesting.try_bond_gateway in Hr. run_inv. apply validate_funds_Ok in E as ([= ->] & Hd & _).
    apply (Hz 0); [|lia]. eapply bond_ok; [done|done|]. right. left. by do 2 eexists.
  - unfold Vesting.try_track_unbond_gateway, AccountExt.try_track_unbond_gateway in Hr. vesting_inv.
    apply (Hz (amount coin)); [by eapply track_ok|lia].
  - unfold Vesting.try_transfer_ownership in Hr. run_inv. apply (Hz 0); [by apply settings_ok|lia].
  - unfold Vesting.try_update_staking_address in Hr. run_inv. apply (Hz 0); [|lia].
    unfold AccountExt.update_staking_address. by destruct (Account.staking_address x0); apply settings_ok.
  - unfold Vesting.try_update_locked_pledge_cap in Hr. run_inv. apply (Hz 0); [by apply settings_ok|lia].
Qed.

(** Only the mixnet contract reports returned tokens. *)
Lemma tracked_sender s env info msg s' out :
  Vesting.execute s env info msg = Ok (s', out) -> sender info <> mixnet_contract_address s -> tracked_amount msg = 0.
Proof.
  intros Hr Hs. destruct msg; try done; simpl in Hr;
    autounfold with vesting in Hr; unfold Vesting.ensure_mixnet_contract, addr_eqb in Hr; run_inv;
    apply bool_decide_eq_true in E; done.
Qed.

(** A report is answered by no messages. *)
Lemma track_response s env info m s' out :
  Vesting.execute s env info (VestingExecuteMsg.of_track m) = Ok (s', out) -> out = [].
Proof. intros Hr. destruct m; simpl in Hr; autounfold with vesting in Hr; by run_inv. Qed.

Lemma execute_books s env info msg s' out :
  books_ok s -> unsigned info msg -> Vesting.execute s env info msg = Ok (s', out) -> books_ok s'.
Proof.
  intros Hb [Hf Hm] Hr.
  assert ((exists o st sp c, msg = VestingExecuteMsg.CreateAccount o st sp c) \/
    forall o st sp c, msg <> VestingExecuteMsg.CreateAccount o st sp c) as [(o & st & sp & c & ->)|He]
    by (destruct msg; first [by right|left; by do 4 eexists]).
  - by eapply create_step.
  - eapply execute_step in Hr; [apply Hr|done|done|done].
Qed.

End Deposits.

(** ** Both contracts *)

Section Joint.
Context `{CosmMath} `{!CosmMathLaws} `{ChainApi} `{SignatureApi} `{TimestampApi}.
Context (M V : Addr) (d : string) (HMV : M <> V).

Implicit Types (p : Platform).

(** The books of both contracts are kept, and their accounts cover what the contracts owe and what
    they have still to send within the transaction, [m] and [v]. *)
Record joint (m v : Z) (p : Platform) : Prop := {
  j_inv : inv (mixnet p);
  j_denom : denom_of (mixnet p) = d;
  j_denoms : denoms_ok d (mixnet p);
  j_vesting : vesting_contract_address (contract_state (mixnet p)) = V;
  j_books : books_ok (vesting p);
  j_mixnet : mixnet_contract_address (vesting p) = M;
  j_mix_denom : mix_denom (vesting p) = d;
  j_liabilities : liabilities (mixnet p) + F * m <= F * balance_of (bank p) M;
  j_deposits : deposits (vesting p) + v <= balance_of (bank p) V
}.

(** A result in which the invariant holds, or a failure for other reasons than the vesting contract's means. *)
Definition safe (m v : Z) (r : outcome PlatformError Platform) : Prop :=
  match r with
  | Ok p => joint m v p
  | Err e => e <> InsufficientFunds V
  | Panic _ => True
  end.

Lemma joint_weaken m v m' v' p : joint m v p -> m' <= m -> v' <= v -> joint m' v' p.
Proof. intros [J1 J2 J3 J4 J5 J6 J7 J8 J9] Hm Hv. pose proof F_pos. split; try done; [nia|lia]. Qed.

Lemma safe_bind m v m' v' r (f : Platform -> outcome PlatformError Platform) :
  safe m v r -> (forall p, joint m v p -> safe m' v' (f p)) -> safe m' v' (let? p := r in f p).
Proof. intros Hr Hf. destruct r; simpl in *; [by apply Hf|done|done]. Qed.

Lemma deposits_nonneg s : books_ok s -> 0 <= deposits s.
Proof. intros Hb. apply msum_nonneg. intros k v Hv. by eapply (ok_balances _ (books_amounts _ Hb)). Qed.

Definition at_addr (a b : Addr) (n : Z) : Z := if decide (a = b) then n else 0.

Lemma transfer_safe m v p from to coins :
  joint m v p -> Forall (fun c => 0 <= amount c) coins -> (from = V -> coins_in d coins <= v) ->
  safe (m + at_addr to M (coins_in d coins) - at_addr from M (coins_in d coins))
    (v + at_addr to V (coins_in d coins) - at_addr from V (coins_in d coins)) (transfer d p from to coins).
Proof.
  intros [J1 J2 J3 J4 J5 J6 J7 J8 J9] Hc Hv. pose proof (coins_in_nonneg d _ Hc). pose proof (deposits_nonneg _ J5).
  unfold transfer. destruct (Z.ltb_spec (balance_of (bank p) from) (coins_in d coins)) as [Hlt|Hge]; simpl.
  - intros [= ->]. specialize (Hv eq_refl). lia.
  - set (n := coins_in d coins) in *.
    assert (forall a, balance_of (<[to:=balance_of (<[from:=balance_of (bank p) from - n]> (bank p)) to + n]>
      (<[from:=balance_of (bank p) from - n]> (bank p))) a =
      balance_of (bank p) a + at_addr to a n - at_addr from a n) as Hb.
    { intros a. unfold balance_of, at_addr. destruct (decide (to = a)) as [->|Hto], (decide (from = a)) as [->|Hfrom];
        rewrite ?lookup_insert_eq, ?lookup_insert_ne, ?lookup_insert_eq, ?lookup_insert_ne by done; simpl; lia. }
    split; simpl; try done; rewrite Hb; nia.
Qed.

(** ** The two contracts' transactions *)

Lemma vesting_joint m v p env info msg s' out :
  joint m v p -> unsigned info msg -> (forall a, msg <> VestingExecuteMsg.UpdateMixnetAddress a) ->
  Vesting.execute (vesting p) env info msg = Ok (s', out) ->
  joint m (v - coins_in d (funds info) - tracked_amount msg + outflow d out) (mkPlatform (mixnet p) s' (bank p)) /\
  Forall (out_msg_ok M d) out.
Proof.
  intros [J1 J2 J3 J4 J5 J6 J7 J8 J9] Hu Hn Hr.
  pose proof (execute_books _ _ _ _ _ _ J5 Hu Hr) as Hb.
  destruct (execute_deposits _ _ _ _ _ _ J5 Hu Hn Hr) as [T1 T2 T3 T4]. rewrite J6, J7 in *.
  split; [|done]. split; simpl; try done; lia.
Qed.

Lemma mixnet_joint v p env info msg s' r :
  joint (coins_in d (funds info)) v p -> funds_ok info -> msg_ok d msg ->
  execute (mixnet p) env info msg = Ok (s', r) ->
  joint (sent_in d r) v (mkPlatform s' (vesting p) (bank p)) /\ settled V d r.
Proof.
  intros [J1 J2 J3 J4 J5 J6 J7 J8 J9] Hf Hm Hr. rewrite <- J2 in Hm, J3.
  destruct (execute_ok _ _ _ _ _ _ J1 Hf Hm Hr) as [T1 T2 T3].
  destruct (execute_out _ _ _ _ _ _ J1 J3 Hr) as [O1 O2 O3]. rewrite J2 in *.
  split; [|by rewrite <- J4]. split; simpl; try done; [congruence|lia].
Qed.

Lemma at_addr_zero a b : at_addr a b 0 = 0.
Proof. unfold at_addr. by case_decide. Qed.

Lemma tracked_of_track t : tracked_amount (VestingExecuteMsg.of_track t) = amount (track_coin t).
Proof. by destruct t. Qed.

Lemma of_track_unsigned t : 0 <= amount (track_coin t) -> unsigned (mkInfo M []) (VestingExecuteMsg.of_track t).
Proof. intros Ht. split; [constructor|]. by destruct t. Qed.

Lemma sent_in_pay a cs r : sent_in d (BankSend a cs :: r) = coins_in d cs + sent_in d r.
Proof. done. Qed.

Lemma sent_in_report a t r : sent_in d (WasmExecute a t :: r) = sent_in d r.
Proof. done. Qed.

(** The mixnet contract's report of tokens it has paid. *)
Lemma track_call_safe fuel env p m v t :
  joint m (v + amount (track_coin t)) p -> 0 <= amount (track_coin t) ->
  safe m v (call M V d fuel env p M [] (ToVesting (VestingExecuteMsg.of_track t))).
Proof.
  intros Hj Ht. destruct fuel as [|fuel]; [done|]. cbn [call].
  eapply safe_bind; [apply (transfer_safe _ _ _ _ _ _ Hj); [constructor|intros E; by destruct HMV]|].
  intros p1 Hj1. change (coins_in d []) with 0 in Hj1. rewrite !at_addr_zero in Hj1.
  destruct (Vesting.execute _ _ _ _) as [[s' out]|e|] eqn:Hr; simpl; [|done|done].
  rewrite (track_response _ _ _ _ _ _ Hr) in Hr |- *.
  eapply vesting_joint in Hr as [Hj2 _]; [|exact Hj1|by apply of_track_unsigned|by destruct t].
  rewrite tracked_of_track in Hj2. eapply joint_weaken; [exact Hj2|lia|]. unfold outflow, coins_in; simpl. lia.
Qed.

(** The messages of a response of the mixnet contract. *)
Lemma mixnet_response_safe fuel env r :
  settled V d r -> forall p v, joint (sent_in d r) v p ->
  safe 0 v (foldM (fun p m =>
    match m with
    | BankSend to coins => transfer d p M to coins
    | WasmExecute contract msg =>
        if addr_eqb contract V then call M V d fuel env p M [] (ToVesting (VestingExecuteMsg.of_track msg))
        else Err (UnknownContract contract)
    end) p r).
Proof.
  induction 1 as [|a c r Hc Hr IH|t r Ht Hd Hr IH]; intros p v Hj; cbn [foldM]; [exact Hj| |].
  - pose proof (coins_in_nonneg d [c] ltac:(by repeat constructor)). eapply safe_bind.
    + apply (transfer_safe _ _ _ _ _ _ Hj); [by repeat constructor|intros E; by destruct HMV].
    + intros p1 Hj1. apply IH. eapply joint_weaken; [exact Hj1| |]; rewrite ?sent_in_pay; unfold at_addr;
        repeat case_decide; try done; lia.
  - eapply safe_bind.
    + apply (transfer_safe _ _ _ _ _ _ Hj); [by repeat constructor|intros E; by destruct HMV].
    + intros p1 Hj1. unfold addr_eqb. rewrite bool_decide_true by done. eapply safe_bind; [|intros p2 Hj2; by apply IH].
      apply track_call_safe; [|done]. rewrite coins_in_one in Hj1 by done.
      eapply joint_weaken; [exact Hj1| |]; rewrite ?sent_in_pay, ?coins_in_one by done; unfold at_addr;
        repeat case_decide; try done; rewrite ?sent_in_report; lia.
Qed.

(** A call of the mixnet contract, by an account or by the vesting contract. *)
Lemma mixnet_call_safe fuel env p from coins msg v :
  joint 0 v p -> from <> M -> Forall (fun c => 0 <= amount c) coins -> (from = V -> coins_in d coins <= v) ->
  msg_ok d msg -> safe 0 (v - at_addr from V (coins_in d coins)) (call M V d fuel env p from coins (ToMixnet msg)).
Proof.
  intros Hj HM Hc Hv Hm. destruct fuel as [|fuel]; [done|]. cbn [call].
  eapply safe_bind; [by apply (transfer_safe _ _ _ _ _ _ Hj)|]. intros p1 Hj1.
  destruct (execute _ _ _ _) as [[s' r]|e|] eqn:Hr; simpl; [|done|done].
  eapply (mixnet_joint (v - at_addr from V (coins_in d coins))) in Hr as [Hj2 Hs]; [|simpl|done|done].
  - by apply mixnet_response_safe.
  - eapply joint_weaken; [exact Hj1| |]; unfold at_addr; repeat case_decide; try done; lia.
Qed.

(** The messages of a response of the vesting contract. *)
Lemma vesting_response_safe fuel env out :
  Forall (out_msg_ok M d) out -> forall p, joint 0 (outflow d out) p ->
  safe 0 0 (foldM (fun p m =>
    match m with
    | PayOut to coins => transfer d p V to coins
    | CallMixnet contract msg coins =>
        if addr_eqb contract M then call M V d fuel env p V coins (ToMixnet msg) else Err (UnknownContract contract)
    end) p out).
Proof.
  induction 1 as [|m out Hm Hout IH]; intros p Hj; cbn [foldM]; [exact Hj|].
  assert (0 <= outflow d out) as Ho.
  { clear -Hout. induction Hout as [|m out Hm _ IH]; [done|]. unfold outflow in *. rewrite fmap_cons, zsum_cons.
    destruct m; simpl in *; [|destruct Hm as (_ & Hm & _)]; pose proof (coins_in_nonneg d _ Hm); lia. }
  unfold outflow in Hj. rewrite fmap_cons, zsum_cons in Hj. fold (outflow d out) in Hj.
  destruct m as [to coins|contract msg coins]; simpl in Hm, Hj.
  - pose proof (coins_in_nonneg d _ Hm). eapply safe_bind; [apply (transfer_safe _ _ _ _ _ _ Hj); [done|lia]|].
    intros p1 Hj1. apply IH. eapply joint_weaken; [exact Hj1| |]; unfold at_addr; repeat case_decide; try done; lia.
  - destruct Hm as (-> & Hc & Hm). unfold addr_eqb. rewrite bool_decide_true by done.
    eapply safe_bind; [apply (mixnet_call_safe _ _ _ _ _ _ _ Hj); [done|done|lia|done]|].
    intros p1 Hj1. apply IH. eapply joint_weaken; [exact Hj1|done|]. unfold at_addr. case_decide; [lia|done].
Qed.

Lemma vesting_call_safe fuel env p from coins msg :
  joint 0 0 p -> from <> M -> from <> V -> unsigned (mkInfo from coins) msg ->
  (forall a, msg <> VestingExecuteMsg.UpdateMixnetAddress a) ->
  safe 0 0 (call M V d fuel env p from coins (ToVesting msg)).
Proof.
  intros Hj HM HV Hu Hn. destruct fuel as [|fuel]; [done|]. cbn [call].
  eapply safe_bind; [apply (transfer_safe _ _ _ _ _ _ Hj); [apply Hu|done]|]. intros p1 Hj1.
  destruct (Vesting.execute _ _ _ _) as [[s' out]|e|] eqn:Hr; simpl; [|done|done].
  pose proof (tracked_sender _ _ _ _ _ _ Hr) as Ht. rewrite (j_mixnet _ _ _ Hj1) in Ht. specialize (Ht HM).
  eapply vesting_joint in Hr as [Hj2 Ho]; [|exact Hj1|done|done]. apply vesting_response_safe; [done|].
  eapply joint_weaken; [exact Hj2| |]; simpl; unfold at_addr; repeat case_decide; try done; lia.
Qed.

(** ** The nesting of calls *)

(** The calls without a bound on their depth: a report of the mixnet contract is a leaf. *)
Definition report (env : Env) (p : Platform) (t : VestingMsg) : outcome PlatformError Platform :=
  let? p := transfer d p M V [] in
  let? (s, _) := map_err VestingFailed
                   (Vesting.execute (vesting p) env (mkInfo M []) (VestingExecuteMsg.of_track t)) in
  Ok (mkPlatform (mixnet p) s (bank p)).

Definition mixnet_call (env : Env) (p : Platform) (from : Addr) (coins : list Coin) (msg : ExecuteMsg)
    : outcome PlatformError Platform :=
  let? p := transfer d p from M coins in
  let? (s, response) := map_err MixnetFailed (execute (mixnet p) env (mkInfo from coins) msg) in
  foldM (fun p m =>
    match m with
    | BankSend to coins => transfer d p M to coins
    | WasmExecute contract t => if addr_eqb contract V then report env p t else Err (UnknownContract contract)
    end) (mkPlatform s (vesting p) (bank p)) response.

Definition vesting_call (env : Env) (p : Platform) (from : Addr) (coins : list Coin) (msg : VestingExecuteMsg.t)
    : outcome PlatformError Platform :=
  let? p := transfer d p from V coins in
  let? (s, response) := map_err VestingFailed (Vesting.execute (vesting p) env (mkInfo from coins) msg) in
  foldM (fun p m =>
    match m with
    | PayOut to coins => transfer d p V to coins
    | CallMixnet contract msg coins =>
        if addr_eqb contract M then mixnet_call env p V coins msg else Err (UnknownContract contract)
    end) (mkPlatform (mixnet p) s (bank p)) response.

Lemma foldM_ext {E A B} (f g : A -> B -> outcome E A) a l : (forall a b, f a b = g a b) -> foldM f a l = foldM g a l.
Proof. intros Hfg. revert a. induction l as [|x l IH]; intros a; simpl; [done|]. rewrite Hfg. destruct (g a x); simpl; auto. Qed.

Lemma call_report n env p t :
  call M V d (S n) env p M [] (ToVesting (VestingExecuteMsg.of_track t)) = report env p t.
Proof.
  cbn [call]. unfold report. destruct (transfer _ _ _ _ _) as [p1| |]; [|done|done]. cbn [obind].
  destruct (Vesting.execute _ _ _ _) as [[s' out]|e|] eqn:Hr; simpl; [|done|done].
  by rewrite (track_response _ _ _ _ _ _ Hr).
Qed.

Lemma call_mixnet_call n env p from coins msg :
  call M V d (S (S n)) env p from coins (ToMixnet msg) = mixnet_call env p from coins msg.
Proof.
  cbn [call]. unfold mixnet_call. destruct (transfer _ _ _ _ _) as [p1| |]; [|done|done]. cbn [obind].
  destruct (map_err _ _) as [[s' r]| |]; [|done|done]. apply foldM_ext.
  intros a [to cs|c t]; [done|]. destruct (addr_eqb c V); [apply (call_report n)|done].
Qed.

Lemma call_vesting_call n env p from coins msg :
  call M V d (S (S (S n))) env p from coins (ToVesting msg) = vesting_call env p from coins msg.
Proof.
  cbn [call]. unfold vesting_call. destruct (transfer _ _ _ _ _) as [p1| |]; [|done|done]. cbn [obind].
  destruct (map_err _ _) as [[s' r]| |]; [|done|done]. apply foldM_ext.
  intros a [to cs|c t cs]; [done|]. destruct (addr_eqb c M); [apply (call_mixnet_call n)|done].
Qed.

(** ** Sequences of transactions *)

(** Transactions come from accounts that are not the contracts, their amounts are unsigned, the
    administrators keep to [msg_ok] and leave the mixnet contract's address as it is. *)
Definition platform_event_ok (e : PlatformEvent) : Prop :=
  match e with
  | Transaction _ from coins c =>
      from <> M /\ from <> V /\ Forall (fun c => 0 <= amount c) coins /\
      match c with
      | ToMixnet msg => msg_ok d msg
      | ToVesting msg => 0 <= message_amount msg /\ forall a, msg <> VestingExecuteMsg.UpdateMixnetAddress a
      end
  | Transfer from _ coins => from <> M /\ from <> V /\ Forall (fun c => 0 <= amount c) coins
  end.

Lemma platform_tx_safe p e : joint 0 0 p -> platform_event_ok e -> safe 0 0 (platform_tx M V d p e).
Proof.
  intros Hj. destruct e as [env from coins [msg|msg]|from to coins]; cbn [platform_tx].
  - intros (HM & HV & Hc & Hm). pose proof (mixnet_call_safe CALL_DEPTH env _ _ _ msg _ Hj HM Hc) as Hs.
    unfold at_addr in Hs. rewrite decide_False in Hs by done. by apply Hs.
  - intros (HM & HV & Hc & Hm & Hn). by apply vesting_call_safe.
  - intros (HM & HV & Hc). pose proof (coins_in_nonneg d _ Hc).
    pose proof (transfer_safe _ _ _ from to _ Hj Hc) as Hs. destruct (transfer _ _ _ _ _); simpl in *; [|by apply Hs|done].
    eapply joint_weaken; [by apply Hs| |]; unfold at_addr; repeat case_decide; try done; lia.
Qed.

Lemma platform_deliver_all_joint p es :
  joint 0 0 p -> Forall platform_event_ok es -> joint 0 0 (platform_deliver_all M V d p es).
Proof.
  intros Hj Hes. revert p Hj. induction Hes as [|e es He _ IH]; intros p Hj; simpl; [done|]. apply IH.
  pose proof (platform_tx_safe _ _ Hj He) as Hs. unfold platform_deliver. by destruct (platform_tx _ _ _ _ _).
Qed.

(** The contracts are set up with each other's addresses, and the mixnet contract's account holds the reward pool. *)
Record platform_init (p : Platform) : Prop := {
  init_mixnet : exists env info im, instantiate env info im = Ok (mixnet p) /\ im_rewarding_denom im = d /\
    initial_reward_pool (im_initial_rewarding_params im) <= F * balance_of (bank p) M;
  init_vesting : exists info vm, Vesting.instantiate info vm = Ok (vesting p) /\ init_mix_denom vm = d;
  init_addresses : vesting_contract_address (contract_state (mixnet p)) = V /\ mixnet_contract_address (vesting p) = M;
  init_balance : 0 <= balance_of (bank p) V
}.

Lemma platform_init_joint p : platform_init p -> joint 0 0 p.
Proof.
  destruct p as [ms vs b]. simpl. intros [(env & info & im & Hs & Hd & Hb) (info' & vm & Hv & Hd') [HV HM] Hbal].
  pose proof (instantiate_solvent _ _ _ _ _ Hs Hb) as [I1 I2 I3]. simpl in *.
  destruct (instantiate_books _ _ _ Hv) as [B1 _]. split; simpl; try done.
  - by rewrite <- Hd.
  - unfold instantiate, into_rewarding_params in Hs. run_pairs. by split.
  - unfold Vesting.instantiate in Hv. by run_inv.
  - lia.
  - unfold Vesting.instantiate in Hv. run_inv. unfold deposits; simpl. rewrite msum_empty. lia.
Qed.

End Joint.

(** ** Theorems *)

Section Theorems.
Context `{CosmMath} `{!CosmMathLaws} `{ChainApi} `{SignatureApi} `{TimestampApi}.

(** C4: the two contracts, set up with each other's addresses, stay solvent under any sequence of
    transactions of other accounts, with the calls they make to each other in between: the mixnet
    contract's account covers its stakes, rewards and reward pool, the vesting contract's account
    covers the balances of its accounts, and no transaction fails because the vesting contract cannot
    pay. *)
Theorem contracts_stay_solvent (M V : Addr) (d : string) (p0 : Platform) (es : list PlatformEvent) :
  M <> V -> platform_init M V d p0 -> Forall (platform_event_ok M V d) es ->
  let p := platform_deliver_all M V d p0 es in
  owed (mixnet p) + pool_left (mixnet p) <= F * balance_of (bank p) M /\
  deposits (vesting p) <= balance_of (bank p) V /\
  (forall e, platform_event_ok M V d e -> platform_tx M V d p e <> Err (InsufficientFunds V)).
Proof.
  intros HMV Hp Hes p.
  assert (joint M V d 0 0 p) as Hj by (apply platform_deliver_all_joint; [done|by apply platform_init_joint|done]).
  pose proof (j_liabilities _ _ _ _ _ _ Hj). pose proof (j_deposits _ _ _ _ _ _ Hj). unfold liabilities in *.
  split_and!; [lia|lia|]. intros e He Hr. pose proof (platform_tx_safe _ _ _ HMV _ _ Hj He) as Hs.
  rewrite Hr in Hs. by apply Hs.
Qed.

(** C37: the calls of a transaction nest at most three deep, as a message to the vesting contract,
    its call of the mixnet contract, and the report of what that paid: any bound of three or more
    gives the result of the calls without a bound. *)
Theorem calls_nest_three_deep (M V : Addr) (d : string) n env p from coins c :
  call M V d (CALL_DEPTH + n) env p from coins c =
  match c with
  | ToMixnet msg => mixnet_call M V d env p from coins msg
  | ToVesting msg => vesting_call M V d env p from coins msg
  end.
Proof. destruct c as [msg|msg]; [apply (call_mixnet_call M V d (S n))|apply (call_vesting_call M V d n)]. Qed.

End Theorems.

(** ** A sample run *)

#[local] Existing Instances fixed_point fixed_point_laws sample_api sample_signatures nanosecond_clock.

Definition sample_vesting : VestingStore := mkVestingStore None ∅ ∅ ∅ ∅ ∅ ∅ "admin" "mixnet" "unym".

Definition sample_platform : Platform :=
  mkPlatform sample_store sample_vesting
    (list_to_map [("mixnet"%string, sample_balance); ("admin"%string, 100_000_000_000); ("alice"%string, 1_000_000_000)]).

Definition tx (t : Z) (who : string) (coins : list Coin) (c : Call) : PlatformEvent := Transaction (at_time t) who coins c.

(** The messages of the validator at the end of an epoch. *)
Definition turn (t : Z) (reward : list ExecuteMsg) : list PlatformEvent :=
  (fun m => tx t "validator" [] (ToMixnet m)) <$>
    ([MsgBeginEpochTransition] ++ reward ++ [MsgReconcileEpochEvents None; MsgAdvanceCurrentEpoch [mkAssignment 1 One] 1]).

(** Four periods of a thousand seconds, with no cap on staking. *)
Definition new_account (who : string) : Call :=
  ToVesting (VestingExecuteMsg.CreateAccount who None (Some (mkSpecification (Some 1000) (Some 1000) (Some 4)))
    (Some (CapAbsolute 1_000_000_000_000))).

(** A node is bonded, an account delegates its vesting tokens, claims the reward and undelegates. *)
Definition sample_transactions : list PlatformEvent :=
  [tx 100 "alice" [nym 100_000_000] (ToMixnet (MsgBondMixnode (sample_mixnode (key_of "a0")) sample_cost []));
   tx 100 "admin" [nym 9_000_000_000] (new_account "anna");
   tx 200 "anna" [] (ToVesting (VestingExecuteMsg.DelegateToMixnode 1 (nym 7_000_000_000) None))]
  ++ turn 3600 [] ++ turn 7200 [MsgRewardMixnode 1 Percent.hundred]
  ++ [tx 7300 "anna" [] (ToVesting (VestingExecuteMsg.ClaimDelegatorReward 1));
      tx 7400 "anna" [] (ToVesting (VestingExecuteMsg.UndelegateFromMixnode 1 None))]
  ++ turn 10800 [MsgRewardMixnode 1 Percent.hundred]
  ++ [tx 10900 "anna" [] (ToVesting (VestingExecuteMsg.WithdrawVestedCoins (nym 1_000_000_000)))].


Lemma sample_platform_init : platform_init "mixnet" "vesting" "unym" sample_platform.
Proof.
  split.
  - exists (at_time 0), (mkInfo "admin" []), sample_instantiate.
    split; [exact sample_instantiated|]. split; [reflexivity|vm_compute; discriminate].
  - exists (mkInfo "admin" []), (mkInit "mixnet" "unym"). split; reflexivity.
  - by split.
  - vm_compute. discriminate.
Qed.

Lemma sample_transactions_ok : Forall (platform_event_ok "mixnet" "vesting" "unym") sample_transactions.
Proof.
  unfold sample_transactions, turn. simpl. repeat constructor; vm_compute; congruence.
Qed.

(** The vesting contract holds what it owes to the account, its rewards included. *)
Lemma contracts_stay_solvent_witness :
  let p := platform_deliver_all "mixnet" "vesting" "unym" sample_platform sample_transactions in
  deposits (vesting p) = 8_081_017_891 /\ deposits (vesting p) <= balance_of (bank p) "vesting".
Proof.
  intros p. split; [vm_compute; reflexivity|].
  apply (contracts_stay_solvent "mixnet" "vesting" "unym" sample_platform sample_transactions);
    [discriminate|exact sample_platform_init|exact sample_transactions_ok].
Defined.
