(* ===== verification/PlatformFindings.v ===== *)
(** * Runs of the two contracts that lose track of tokens

    Concrete transactions, evaluated on both contracts, after which an
    account of the vesting contract cannot get its stake back, an epoch
    cannot be ended, or an account is gone. *)

From S2P Require Import Prelude Bytes Cosmwasm MixnetTypes Rewarding Backing Interval MixnetStorage MixnetSupport.
From S2P Require Import MixnetEvents MixnetTransactions Accounting Solvency MixnetChain MixnetSample MixnetTracking.
From S2P Require Import VestingTypes VestingStorage VestingAccount VestingTransactions VestingBooks VestingLocked.
From S2P Require Import Platform PlatformSafety.
#[local] Open Scope Z_scope.

#[local] Existing Instances fixed_point fixed_point_laws sample_api sample_signatures nanosecond_clock.

Abbreviation submit := (platform_tx "mixnet" "vesting" "unym").

Definition run_of (es : list PlatformEvent) : Platform :=
  platform_deliver_all "mixnet" "vesting" "unym" sample_platform es.

Definition vesting_msg (t : Z) (who : string) (msg : VestingExecuteMsg.t) : PlatformEvent := tx t who [] (ToVesting msg).

(** A node, and an account whose delegation to it is active. *)
Definition setup : list PlatformEvent :=
  [tx 100 "alice" [nym 100_000_000] (ToMixnet (MsgBondMixnode (sample_mixnode (key_of "a0")) sample_cost []));
   tx 100 "admin" [nym 9_000_000_000] (new_account "anna");
   vesting_msg 200 "anna" (VestingExecuteMsg.DelegateToMixnode 1 (nym 7_000_000_000) None)] ++ turn 3600 [].

(** The account delegates more, and the node is unbonded before the epoch ends. *)
Definition stuck_run : Platform :=
  run_of (setup ++
    [vesting_msg 3700 "anna" (VestingExecuteMsg.DelegateToMixnode 1 (nym 500_000_000) None);
     tx 3800 "alice" [] (ToMixnet MsgUnbondMixnode)] ++
    ((fun m => tx 7200 "validator" [] (ToMixnet m)) <$>
      [MsgBeginEpochTransition; MsgRewardMixnode 1 Percent.hundred; MsgReconcileEpochEvents None;
       MsgAdvanceCurrentEpoch [] 1])).

(** The account undelegates, and is transferred before the epoch ends. *)
Definition moved_run : Platform :=
  run_of (setup ++
    [vesting_msg 3700 "anna" (VestingExecuteMsg.UndelegateFromMixnode 1 None);
     vesting_msg 3800 "anna" (VestingExecuteMsg.TransferOwnership "anja");
     tx 7200 "validator" [] (ToMixnet MsgBeginEpochTransition);
     tx 7200 "validator" [] (ToMixnet (MsgRewardMixnode 1 Percent.hundred))]).

(** Two accounts; one is transferred to the owner of the other. *)
Definition overwritten_run : Platform :=
  run_of [tx 100 "admin" [nym 9_000_000_000] (new_account "anna");
          tx 100 "admin" [nym 1_000_000] (new_account "eve");
          vesting_msg 200 "eve" (VestingExecuteMsg.TransferOwnership "anna")].

(** The staking address of an account gets an account of its own, and then the former is changed. *)
Definition deleted_run : Platform :=
  run_of [tx 100 "admin" [nym 1_000_000] (new_account "eve");
          vesting_msg 200 "eve" (VestingExecuteMsg.UpdateStakingAddress (Some "anna"));
          tx 300 "admin" [nym 9_000_000_000] (new_account "anna");
          vesting_msg 400 "eve" (VestingExecuteMsg.UpdateStakingAddress None)].

(** The vesting contract forgets every delegation of an account to a node when the mixnet
    contract returns one of them.  In the run above the second delegation is refunded because the node
    is unbonding; the first one is still in the mixnet contract, but the vesting contract has no
    record of it and refuses to undelegate, and nothing can be delegated to the node any more. *)
Theorem refund_forgets_other_delegations :
  (exists k dg, delegations (mixnet stuck_run) !! k = Some dg /\ Delegation.owner dg = "anna"%string /\
    Delegation.amount dg = nym 7_000_000_000) /\
  balances (vesting stuck_run) !! 1 = Some 2_000_000_000 /\ vesting_delegations (vesting stuck_run) = ∅ /\
  EpochStatus.state (epoch_status (mixnet stuck_run)) = InProgress /\
  submit stuck_run (vesting_msg 7300 "anna" (VestingExecuteMsg.UndelegateFromMixnode 1 None)) =
    Err (VestingFailed (VestingError.NoSuchDelegation "anna" 1)) /\
  submit stuck_run (vesting_msg 7300 "anna" (VestingExecuteMsg.DelegateToMixnode 1 (nym 1) None)) =
    Err (MixnetFailed (MixNodeBondNotFound 1)).
Proof.
  split; [|split_and!; vm_compute; reflexivity].
  destruct (map_to_list (delegations (mixnet stuck_run))) as [|[k dg] l] eqn:E; [vm_compute in E; discriminate|].
  exists k, dg. split; [apply elem_of_map_to_list; rewrite E; by left|].
  vm_compute in E. injection E as <- <- _. split; reflexivity.
Qed.

(** An account that is transferred while an undelegation is pending blocks the mixnet contract:
    the report to the vesting contract names the old owner, fails, and with it the reconciliation, so
    that the epoch cannot be ended by anyone. *)
Theorem transfer_blocks_the_epoch :
  EpochStatus.state (epoch_status (mixnet moved_run)) = ReconcilingEvents /\
  submit moved_run (tx 7200 "validator" [] (ToMixnet (MsgReconcileEpochEvents None))) =
    Err (VestingFailed (VestingError.NoAccountForAddress "anna")) /\
  submit moved_run (tx 7200 "validator" [] (ToMixnet (MsgReconcileEpochEvents (Some 1)))) =
    Err (VestingFailed (VestingError.NoAccountForAddress "anna")).
Proof. split_and!; vm_compute; reflexivity. Qed.

(** The transfer of an account to the owner of another one overwrites that account, and the change
    of a staking address deletes the account that the old staking address owns: the tokens are still
    counted, but no account has their key. *)
Theorem accounts_can_be_lost :
  Account.storage_key <$> (accounts (vesting overwritten_run) !! "anna"%string) = Some 2 /\
  size (accounts (vesting overwritten_run)) = 1%nat /\
  balances (vesting overwritten_run) !! 1 = Some 9_000_000_000 /\
  accounts (vesting deleted_run) !! "anna"%string = None /\
  balances (vesting deleted_run) !! 2 = Some 9_000_000_000.
Proof. split_and!; vm_compute; reflexivity. Qed.
