(* ===== verification/Outfox.v ===== *)
(** * The Outfox packet format

    Models [nym-outfox/src]: the Lion transform of payloads ([lion.rs]), one
    layer of a packet ([format.rs]) and the packet itself ([packet.rs]).  A
    sender wraps a payload in four layers, for three mix nodes and a gateway;
    each of them removes its layer and learns where the packet goes next.  The
    buffers that the source mutates through slices are lists of bytes here, and
    a write replaces a range. *)

From Stdlib.Strings Require Import Byte.
From stdpp Require Import strings pretty.
From S2P Require Import Prelude Bytes.
#[local] Open Scope Z_scope.

(** ** Primitives of other crates *)

(** Curve25519, ChaCha20-Poly1305 with a nonce of zeros and no associated data, the key stream of
    XChaCha20 and BLAKE3. *)
Class OutfoxCrypto := {
  public_of : list byte -> list byte;
  scalar_mul : list byte -> list byte -> list byte;
  aead_encrypt : list byte -> list byte -> option (list byte * list byte);
  aead_decrypt : list byte -> list byte -> list byte -> option (list byte);
  keystream : list byte -> list byte -> nat -> list byte;
  derive_key : string -> list byte -> list byte;
  keyed_hash : list byte -> list byte -> list byte;
  DEFAULT_PAYLOAD_SIZE : Z
}.

(** What their documentation promises: sizes, the agreement of both sides on a shared secret, and
    decryption of what was encrypted, up to the length the cipher is made for. *)
Class OutfoxCryptoLaws `{OutfoxCrypto} : Prop := {
  len_public_of s : len (public_of s) = 32;
  len_scalar_mul s p : len (scalar_mul s p) = 32;
  diffie_hellman a b : scalar_mul a (public_of b) = scalar_mul b (public_of a);
  aead_roundtrip k m :
    len k = 32 -> len m < 2 ^ 32 ->
    exists c t, aead_encrypt k m = Some (c, t) /\ len c = len m /\ len t = 16 /\ aead_decrypt k c t = Some m;
  length_keystream k n l : length (keystream k n l) = l;
  len_keyed_hash k m : len (keyed_hash k m) = 32
}.

(** ** Constants, [constants.rs] *)

Definition GROUPELEMENTBYTES : Z := 32.
Definition TAGBYTES : Z := 16.
Definition DEFAULT_HOPS : Z := 4.
Definition MIX_PARAMS_LEN : Z := DEFAULT_HOPS + 2.
Definition MIN_MESSAGE_LEN : Z := 24 * 2.
Definition LION_CONTEXT : string := "LIONKEYS".
Definition TAG_LEN : Z := 24.
Definition DEFAULT_ROUTING_INFO_SIZE : Z := 32.
Definition ROUTING_INFORMATION_LENGTH_BY_STAGE : list Z := replicate (Z.to_nat DEFAULT_HOPS) DEFAULT_ROUTING_INFO_SIZE.
Definition MIN_PACKET_SIZE : Z := 48.
Definition MAGIC_SLICE : list byte := [x6f; x66; x78].

Definition OUTFOX_PACKET_OVERHEAD : Z :=
  MIX_PARAMS_LEN + (GROUPELEMENTBYTES + TAGBYTES + DEFAULT_ROUTING_INFO_SIZE) * DEFAULT_HOPS + len MAGIC_SLICE.

(** ** Errors, [error.rs] *)

Inductive OutfoxError : Type :=
| LenMismatch (expected got : Z)
| ChaCha20InvalidLength
| ChaCha20Poly1305Error
| InvalidKeyLength
| InvalidMessageLength
| TryFromSlice
| InvalidHeaderLength (received : Z)
| InvalidMagicBytes (received : list byte).

(** ** Bytes *)

(** The exclusive or of two bytes, and of a string of bytes with another. *)
Definition byte_xor (a b : byte) : byte := byte_of_Z (Z.lxor (byte_to_Z a) (byte_to_Z b)).
Definition xor_bytes (m k : list byte) : list byte := zip_with byte_xor m k.

(** [Range<usize>]. *)
Record Range : Type := mkRange { range_start : Z; range_end : Z }.

Definition read_range {E} (b : list byte) (r : Range) : outcome E (list byte) := slice b (range_start r) (range_end r).

(** [b[r].copy_from_slice(x)]. *)
Definition write_range {E} (b : list byte) (r : Range) (x : list byte) : outcome E (list byte) :=
  let? old := read_range b r in
  if len old =? len x then Ok (take (Z.to_nat (range_start r)) b ++ x ++ drop (Z.to_nat (range_end r)) b)
  else Panic ExplicitPanic.

(** [u16::to_le_bytes] and [u16::from_le_bytes]. *)
Definition u16_to_le_bytes (z : Z) : list byte := rev (be_encode 2 z).
Definition u16_from_le_bytes (b : list byte) : Z := be_decode (rev b).

(** [u8] and [u16] additions, [usize] subtraction; the release build checks for overflow. *)
Definition u8_add {E} (a b : Z) : outcome E Z := if a + b <=? u8_max then Ok (a + b) else Panic Overflow.
Definition u16_add {E} (a b : Z) : outcome E Z := if a + b <? 2 ^ 16 then Ok (a + b) else Panic Overflow.
Definition usize_sub {E} (a b : Z) : outcome E Z := if b <=? a then Ok (a - b) else Panic Overflow.

(** [<&[u8; 32]>::try_from]. *)
Definition try_into_32 (b : list byte) : outcome OutfoxError (list byte) :=
  if len b =? 32 then Ok b else Err TryFromSlice.

Section Format.
Context `{OutfoxCrypto}.

(** ** The Lion transform, [lion.rs] *)

Definition apply_keystream (key nonce data : list byte) : list byte := xor_bytes data (keystream key nonce (length data)).

Definition lion_key (subkey : Z) (key : list byte) : list byte := derive_key (LION_CONTEXT +:+ pretty subkey) key.

Definition lion_transform (message key : list byte) (key_schedule : Z * Z * Z) : outcome OutfoxError (list byte) :=
  let '(k0, k1, k2) := key_schedule in
  if negb (len key =? 32) then Err InvalidKeyLength
  else if len message <? MIN_MESSAGE_LEN then Err InvalidMessageLength
  else
    let left_short := take (Z.to_nat TAG_LEN) message in
    let right := apply_keystream (lion_key k0 key) left_short (drop (Z.to_nat TAG_LEN) message) in
    let tag_to_xor := keyed_hash (lion_key k1 key) right in
    let left_short := xor_bytes left_short tag_to_xor in
    let right := apply_keystream (lion_key k2 key) left_short right in
    Ok (left_short ++ right).

Definition lion_transform_encrypt (message key : list byte) : outcome OutfoxError (list byte) :=
  lion_transform message key (1, 2, 3).

Definition lion_transform_decrypt (message key : list byte) : outcome OutfoxError (list byte) :=
  lion_transform message key (3, 2, 1).

End Format.

(** ** A layer, [format.rs] *)

Module MixStageParameters.

Record t : Type := mk {
  routing_information_length_bytes : Z;
  remaining_header_length_bytes : Z;
  payload_length_bytes : Z
}.

Definition outgoing_packet_length (p : t) : Z :=
  routing_information_length_bytes p + remaining_header_length_bytes p + payload_length_bytes p.

Definition incoming_packet_length (p : t) : Z := GROUPELEMENTBYTES + TAGBYTES + outgoing_packet_length p.

Definition pub_element_range (p : t) : Range := mkRange 0 GROUPELEMENTBYTES.

Definition tag_range (p : t) : Range := mkRange GROUPELEMENTBYTES (GROUPELEMENTBYTES + TAGBYTES).

Definition routing_data_range (p : t) : Range :=
  mkRange (GROUPELEMENTBYTES + TAGBYTES) (GROUPELEMENTBYTES + TAGBYTES + routing_information_length_bytes p).

Definition header_range (p : t) : Range :=
  mkRange (GROUPELEMENTBYTES + TAGBYTES)
    (GROUPELEMENTBYTES + TAGBYTES + routing_information_length_bytes p + remaining_header_length_bytes p).

Definition payload_range (p : t) : Range :=
  mkRange (incoming_packet_length p - payload_length_bytes p) (incoming_packet_length p).

Section Layer.
Context `{OutfoxCrypto}.

(** [ChaCha20Poly1305::new_from_slice]. *)
Definition header_aead_key (shared_key : list byte) : outcome OutfoxError (list byte) :=
  if len shared_key =? 32 then Ok shared_key else Err ChaCha20InvalidLength.

(** The buffer afterwards, and the shared key. *)
Definition encode_mix_layer (p : t) (buffer user_secret_key node_pub_key destination : list byte)
    : outcome OutfoxError (list byte * list byte) :=
  let routing_data := destination in
  let? mix_public_key := try_into_32 node_pub_key in
  let? user_secret_key := try_into_32 user_secret_key in
  if negb (len buffer =? incoming_packet_length p) then Err (LenMismatch (len buffer) (incoming_packet_length p))
  else if negb (len routing_data =? routing_information_length_bytes p)
  then Err (LenMismatch (len routing_data) (routing_information_length_bytes p))
  else
    let user_public_key := public_of user_secret_key in
    let shared_key := scalar_mul user_secret_key mix_public_key in
    let? buffer := write_range buffer (routing_data_range p) routing_data in
    let? key := header_aead_key shared_key in
    let? header := read_range buffer (header_range p) in
    match aead_encrypt key header with
    | None => Err ChaCha20Poly1305Error
    | Some (ciphertext, tag) =>
        let? buffer := write_range buffer (header_range p) ciphertext in
        let? buffer := write_range buffer (tag_range p) tag in
        let? buffer := write_range buffer (pub_element_range p) user_public_key in
        let? payload := read_range buffer (payload_range p) in
        let? payload := lion_transform_encrypt payload shared_key in
        let? buffer := write_range buffer (payload_range p) payload in
        Ok (buffer, shared_key)
    end.

(** The buffer afterwards, and the routing data. *)
Definition decode_mix_layer (p : t) (buffer mix_secret_key : list byte)
    : outcome OutfoxError (list byte * list byte) :=
  let? mix_secret_key := try_into_32 mix_secret_key in
  if negb (len buffer =? incoming_packet_length p) then Err (LenMismatch (len buffer) (incoming_packet_length p))
  else
    let? pub_element := read_range buffer (pub_element_range p) in
    let? user_public_key := try_into_32 pub_element in
    let shared_key := scalar_mul mix_secret_key user_public_key in
    let? key := header_aead_key shared_key in
    let? tag := read_range buffer (tag_range p) in
    let? header := read_range buffer (header_range p) in
    match aead_decrypt key header tag with
    | None => Err ChaCha20Poly1305Error
    | Some plaintext =>
        let? buffer := write_range buffer (header_range p) plaintext in
        let? routing_data := read_range buffer (routing_data_range p) in
        let? payload := read_range buffer (payload_range p) in
        let? payload := lion_transform_decrypt payload shared_key in
        let? buffer := write_range buffer (payload_range p) payload in
        Ok (buffer, routing_data)
    end.

End Layer.

End MixStageParameters.

(** ** The layers of a packet, [format.rs] *)

Module MixCreationParameters.

Record t : Type := mk {
  routing_information_length_by_stage : list Z;
  payload_length_bytes : Z
}.

Definition try_from (v : list byte) : outcome OutfoxError t :=
  if negb (len v =? MIX_PARAMS_LEN) then Err (InvalidHeaderLength (len v))
  else
    Ok (mk (byte_to_Z <$> take (Z.to_nat DEFAULT_HOPS) v) (u16_from_le_bytes (drop (Z.to_nat DEFAULT_HOPS) v))).

Definition to_bytes (p : t) : list byte :=
  (byte_of_Z <$> routing_information_length_by_stage p) ++ u16_to_le_bytes (payload_length_bytes p).

Definition new (payload_length_bytes : Z) : t :=
  mk (replicate (Z.to_nat DEFAULT_HOPS) DEFAULT_ROUTING_INFO_SIZE) payload_length_bytes.

Definition total_packet_length (p : t) : Z :=
  foldl (fun len stage_len => len + (stage_len + GROUPELEMENTBYTES + TAGBYTES)) (payload_length_bytes p)
    ROUTING_INFORMATION_LENGTH_BY_STAGE.

Fixpoint stage_params_loop (p : t) (layer_number i remaining_header_length_bytes : Z) (stages : list Z)
    : outcome OutfoxError (Range * MixStageParameters.t) :=
  match stages with
  | [] => Panic ExplicitPanic
  | stage_len :: stages =>
      if i =? layer_number then
        let params := MixStageParameters.mk stage_len remaining_header_length_bytes (payload_length_bytes p) in
        let total_size := total_packet_length p in
        let inner_size := MixStageParameters.incoming_packet_length params in
        let? start := usize_sub total_size inner_size in
        Ok (mkRange start total_size, params)
      else
        let? l := u8_add stage_len GROUPELEMENTBYTES in
        let? l := u8_add l TAGBYTES in
        let? remaining := u16_add remaining_header_length_bytes l in
        stage_params_loop p layer_number (i + 1) remaining stages
  end.

Definition get_stage_params (p : t) (layer_number : Z) : outcome OutfoxError (Range * MixStageParameters.t) :=
  if layer_number <? len ROUTING_INFORMATION_LENGTH_BY_STAGE
  then stage_params_loop p layer_number 0 0 ROUTING_INFORMATION_LENGTH_BY_STAGE
  else Panic ExplicitPanic.

End MixCreationParameters.

(** ** Packets, [packet.rs] *)

(** [sphinx_packet::route::Node]. *)
Record Node : Type := mkNode { node_address : list byte; node_pub_key : list byte }.

Module OutfoxPacket.
Import MixCreationParameters.

Record t : Type := mk { mix_params : MixCreationParameters.t; payload : list byte }.

(** [split_at] panics when there are too few bytes. *)
Definition try_from (v : list byte) : outcome OutfoxError t :=
  if len v <? MIX_PARAMS_LEN then Panic IndexOutOfBounds
  else
    let? mix_params := MixCreationParameters.try_from (take (Z.to_nat MIX_PARAMS_LEN) v) in
    Ok (mk mix_params (drop (Z.to_nat MIX_PARAMS_LEN) v)).

Definition to_bytes (p : t) : list byte := MixCreationParameters.to_bytes (mix_params p) ++ payload p.

Definition length_of (p : t) : Z := total_packet_length (mix_params p) + MIX_PARAMS_LEN.

Definition payload_range (p : t) : outcome OutfoxError Range :=
  let? (_, params) := get_stage_params (mix_params p) (DEFAULT_HOPS - 1) in
  Ok (MixStageParameters.payload_range params).

(** The loop that pops zeros from the front. *)
Fixpoint pop_zeros (b : list byte) : list byte :=
  match b with
  | c :: rest => if bool_decide (c = x00) then pop_zeros rest else b
  | [] => []
  end.

(** [split_off] panics when there are too few bytes. *)
Definition recover_plaintext (p : t) : outcome OutfoxError (list byte) :=
  let? range := payload_range p in
  let? plaintext := read_range (payload p) range in
  let plaintext := pop_zeros plaintext in
  if len plaintext <? len MAGIC_SLICE then Panic IndexOutOfBounds
  else
    let magic := take (length MAGIC_SLICE) plaintext in
    if bool_decide (magic = MAGIC_SLICE) then Ok (drop (length MAGIC_SLICE) plaintext)
    else Err (InvalidMagicBytes magic).

(** [iter().all(|x| x == &0)]. *)
Definition is_final_hop (p : t) : bool :=
  forallb (fun x => x =? 0) (routing_information_length_by_stage (mix_params p)).

(** [push(0)] and [swap_remove(layer)]: the stage's length is replaced by zero. *)
Definition update_routing_information (p : t) (layer : Z) : outcome OutfoxError t :=
  let routing_info := routing_information_length_by_stage (mix_params p) in
  if (0 <=? layer) && (layer <? len routing_info + 1) then
    let updated := if layer =? len routing_info then routing_info else <[Z.to_nat layer := 0]> routing_info in
    if len updated =? DEFAULT_HOPS
    then Ok (mk (MixCreationParameters.mk updated (MixCreationParameters.payload_length_bytes (mix_params p))) (payload p))
    else Err TryFromSlice
  else Panic IndexOutOfBounds.

(** The loop over the lengths from the last to the first. *)
Fixpoint next_layer (i : Z) (reversed : list Z) : Z :=
  match reversed with
  | [] => DEFAULT_HOPS - 1
  | length :: reversed => if length =? 32 then DEFAULT_HOPS - 1 - i else next_layer (i + 1) reversed
  end.

Section Layers.
Context `{OutfoxCrypto}.

Definition decode_mix_layer (p : t) (layer : Z) (mix_secret_key : list byte) : outcome OutfoxError (t * list byte) :=
  let? (range, params) := get_stage_params (mix_params p) layer in
  let? part := read_range (payload p) range in
  let? (part, routing_data) := MixStageParameters.decode_mix_layer params part mix_secret_key in
  let? buffer := write_range (payload p) range part in
  Ok (mk (mix_params p) buffer, routing_data).

(** The packet afterwards, and the address it goes to. *)
Definition decode_next_layer (p : t) (mix_secret_key : list byte) : outcome OutfoxError (t * list byte) :=
  let layer := next_layer 0 (rev (routing_information_length_by_stage (mix_params p))) in
  let? (p, _) := decode_mix_layer p layer mix_secret_key in
  let? p := update_routing_information p layer in
  let? (range, stage_params) := get_stage_params (mix_params p) layer in
  let? part := read_range (payload p) range in
  let? routing_bytes := read_range part (MixStageParameters.routing_data_range stage_params) in
  let? routing_address := try_into_32 routing_bytes in
  Ok (p, routing_address).

(** A layer of a packet that is built. *)
Definition encode_stage (mix_params : MixCreationParameters.t) (secret_key buffer : list byte) (stage : Z)
    (pub_key address : list byte) : outcome OutfoxError (list byte) :=
  let? (range, stage_params) := get_stage_params mix_params stage in
  let? part := read_range buffer range in
  let? (part, _) := MixStageParameters.encode_mix_layer stage_params part secret_key pub_key address in
  write_range buffer range part.

(** The loop over [windows(2)] of the reversed route. *)
Fixpoint encode_windows (mix_params : MixCreationParameters.t) (secret_key buffer : list byte) (idx : Z) (route : list Node)
    : outcome OutfoxError (list byte) :=
  match route with
  | destination_node :: ((processing_node :: _) as rest) =>
      let? buffer := encode_stage mix_params secret_key buffer (idx + 1)
                       (node_pub_key processing_node) (node_address destination_node) in
      encode_windows mix_params secret_key buffer (idx + 1) rest
  | _ => Ok buffer
  end.

(** [secret_key] is drawn from the operating system; the route is an array of four nodes. *)
Definition build (secret_key data : list byte) (route : list Node) (destination : list byte) (packet_size : option Z)
    : outcome OutfoxError t :=
  let packet_size := default DEFAULT_PAYLOAD_SIZE packet_size in
  let packet_size := (if packet_size <? MIN_PACKET_SIZE then MIN_PACKET_SIZE else packet_size) + len MAGIC_SLICE in
  let mix_params := MixCreationParameters.new (packet_size mod 2 ^ 16) in
  let? padding := usize_sub (total_packet_length mix_params) (len data) in
  let? padding := usize_sub padding (len MAGIC_SLICE) in
  let buffer := replicate (Z.to_nat padding) x00 ++ MAGIC_SLICE ++ data in
  let? last_node := unwrap_opt (last route) in
  let? buffer := encode_stage mix_params secret_key buffer 0 (node_pub_key last_node) destination in
  let? buffer := encode_windows mix_params secret_key buffer 0 (rev route) in
  Ok (mk mix_params buffer).

End Layers.

End OutfoxPacket.
