(* ===== verification/OutfoxFacts.v ===== *)
(** * Outfox packets reach their destination

    Lion is undone by its decryption; a layer is removed by the node it was
    made for, and shows that node the next address; so a packet travels its
    route and the gateway recovers the payload.  A layer is described by
    [Layer], which relates what is inside it to what it looks like from outside. *)

From Stdlib.Strings Require Import Byte.
From stdpp Require Import list.
From S2P Require Import Prelude Bytes Outfox.
#[local] Open Scope Z_scope.

(** ** Bytes *)

Lemma byte_xor_involutive a b : byte_xor (byte_xor a b) b = a.
Proof.
  apply byte_to_Z_inj. unfold byte_xor. rewrite !byte_to_of_Z.
  pose proof (byte_to_Z_range a). pose proof (byte_to_Z_range b).
  assert (forall x y, 0 <= x < 256 -> 0 <= y < 256 -> Z.lxor x y mod 256 = Z.lxor x y) as E.
  { intros x y Hx Hy. apply Z.mod_small. split; [by apply Z.lxor_nonneg; split; intros; lia|].
    destruct (decide (Z.lxor x y = 0)) as [->|?]; [lia|].
    assert (0 <= Z.lxor x y) by (apply Z.lxor_nonneg; split; intros; lia).
    change 256 with (2 ^ 8). apply Z.log2_lt_pow2; [lia|].
    eapply Z.le_lt_trans; [apply Z.log2_lxor; lia|].
    assert (forall z, 0 <= z < 256 -> Z.log2 z < 8) as Hlog.
    { intros z Hz. destruct (decide (z = 0)) as [->|?]; [done|]. apply Z.log2_lt_pow2; lia. }
    apply Z.max_lub_lt; by apply Hlog. }
  rewrite (E (byte_to_Z a)) by done. rewrite Z.lxor_assoc, Z.lxor_nilpotent, Z.lxor_0_r. apply Z.mod_small. lia.
Qed.

Lemma xor_bytes_involutive m k : (length m <= length k)%nat -> xor_bytes (xor_bytes m k) k = m.
Proof.
  revert k. induction m as [|a m IH]; intros [|b k] Hk; simpl in *; [done..|lia|].
  unfold xor_bytes in *. simpl. rewrite byte_xor_involutive, IH by lia. done.
Qed.

Lemma length_xor_bytes m k : (length m <= length k)%nat -> length (xor_bytes m k) = length m.
Proof. intros. unfold xor_bytes. rewrite length_zip_with. lia. Qed.

Lemma u16_le_roundtrip z : is_u16 z -> u16_from_le_bytes (u16_to_le_bytes z) = z.
Proof.
  intros. unfold u16_from_le_bytes, u16_to_le_bytes. rewrite rev_involutive, be_decode_encode.
  apply Z.mod_small. unfold is_u16 in *. lia.
Qed.

Lemma write_middle {E} a m b r x :
  range_start r = len a -> range_end r = len a + len m -> len x = len m ->
  write_range (a ++ m ++ b) r x = Ok (E := E) (a ++ x ++ b).
Proof.
  intros H1 H2 H3. unfold write_range, read_range. rewrite H1, H2, slice_middle by done. simpl.
  rewrite H3, Z.eqb_refl. do 2 f_equal; [|f_equal].
  - unfold len. rewrite Nat2Z.id. by rewrite take_app_length.
  - rewrite app_assoc. apply drop_app_length'. rewrite length_app. unfold len. lia.
Qed.

Lemma read_middle {E} a m b r :
  range_start r = len a -> range_end r = len a + len m -> read_range (a ++ m ++ b) r = Ok (E := E) m.
Proof. intros. by apply slice_middle. Qed.

Lemma split_len (b : list byte) n : 0 <= n <= len b -> exists x y, b = x ++ y /\ len x = n.
Proof.
  intros. exists (take (Z.to_nat n) b), (drop (Z.to_nat n) b). rewrite take_drop, len_take by lia. split; [done|lia].
Qed.

(** The ranges of a layer, and the lengths of what is there. *)
Ltac layer_lia :=
  cbv [MixStageParameters.incoming_packet_length MixStageParameters.outgoing_packet_length
       MixStageParameters.payload_range MixStageParameters.header_range MixStageParameters.routing_data_range
       MixStageParameters.tag_range MixStageParameters.pub_element_range GROUPELEMENTBYTES TAGBYTES
       MixStageParameters.routing_information_length_bytes MixStageParameters.remaining_header_length_bytes
       MixStageParameters.payload_length_bytes range_start range_end];
  autorewrite with len; rewrite ?len_public_of; try done; lia.

Section Facts.
Context `{OutfoxCrypto} `{!OutfoxCryptoLaws}.

(** ** Lion *)

Lemma apply_keystream_involutive k n m : apply_keystream k n (apply_keystream k n m) = m.
Proof.
  unfold apply_keystream. rewrite length_xor_bytes by (rewrite length_keystream; lia).
  apply xor_bytes_involutive. rewrite length_keystream. lia.
Qed.

Lemma length_apply_keystream k n m : length (apply_keystream k n m) = length m.
Proof. unfold apply_keystream. apply length_xor_bytes. rewrite length_keystream. lia. Qed.

(** What a transform does to the two parts of a message of sufficient length. *)
Lemma lion_transform_parts key l r k0 k1 k2 :
  len key = 32 -> len l = TAG_LEN -> 24 <= len r ->
  exists l' r', lion_transform (l ++ r) key (k0, k1, k2) = Ok (l' ++ r') /\ len l' = TAG_LEN /\ len r' = len r
    /\ lion_transform (l' ++ r') key (k2, k1, k0) = Ok (l ++ r).
Proof.
  intros Hk Hl Hr. set (r1 := apply_keystream (lion_key k0 key) l r).
  set (l1 := xor_bytes l (keyed_hash (lion_key k1 key) r1)).
  set (r2 := apply_keystream (lion_key k2 key) l1 r1).
  assert (forall x, (length l <= length (keyed_hash (lion_key k1 key) x))%nat) as Hh.
  { intros x. pose proof (len_keyed_hash (lion_key k1 key) x) as E. unfold len, TAG_LEN in *. lia. }
  assert (length l1 = length l) as L1 by (apply length_xor_bytes, Hh).
  assert (length r2 = length r) as L2 by (unfold r2, r1; by rewrite !length_apply_keystream).
  assert (forall a b : list byte, len a = TAG_LEN ->
    take (Z.to_nat TAG_LEN) (a ++ b) = a /\ drop (Z.to_nat TAG_LEN) (a ++ b) = b) as Hsplit.
  { intros a b Ha. unfold len, TAG_LEN in *. split; [apply take_app_length'|apply drop_app_length']; lia. }
  assert (len l1 = TAG_LEN) by (unfold len in *; lia).
  exists l1, r2. unfold lion_transform. rewrite Hk. cbn [negb Z.eqb Pos.eqb].
  repeat split; [|done|unfold len; lia|].
  - destruct (Hsplit l r Hl) as [-> ->]. zcases; [|done]. unfold MIN_MESSAGE_LEN, TAG_LEN, len in *. rewrite length_app in *. lia.
  - destruct (Hsplit l1 r2 ltac:(done)) as [-> ->].
    zcases; [unfold MIN_MESSAGE_LEN, TAG_LEN, len in *; rewrite length_app in *; lia|].
    unfold r2. rewrite apply_keystream_involutive. unfold l1 at 1. rewrite xor_bytes_involutive by apply Hh.
    unfold l1. rewrite (xor_bytes_involutive l) by apply Hh. unfold r1. by rewrite apply_keystream_involutive.
Qed.

Lemma lion_roundtrip key m :
  len key = 32 -> MIN_MESSAGE_LEN <= len m ->
  exists c, lion_transform_encrypt m key = Ok c /\ len c = len m /\ lion_transform_decrypt c key = Ok m.
Proof.
  intros Hk Hm. destruct (split_len m TAG_LEN) as (l & r & -> & Hl); [unfold MIN_MESSAGE_LEN, TAG_LEN in *; lia|].
  autorewrite with len in Hm. unfold MIN_MESSAGE_LEN in Hm.
  destruct (lion_transform_parts key l r 1 2 3) as (l' & r' & E & Hl' & Hr' & E'); [done..|unfold TAG_LEN in *; lia|].
  exists (l' ++ r'). split; [done|]. split; [|done]. autorewrite with len. lia.
Qed.

(** ** One layer *)

Lemma try_into_32_Ok b : len b = 32 -> try_into_32 b = Ok b.
Proof. unfold try_into_32. by intros ->. Qed.

Lemma header_aead_key_Ok b : len b = 32 -> MixStageParameters.header_aead_key b = Ok b.
Proof. unfold MixStageParameters.header_aead_key. by intros ->. Qed.

(** The layer for the holder of [node_key], around a header and a payload: from outside it is
    [public_of sk], a tag, an encrypted header and an encrypted payload. *)
Record Layer (sk node_key dest header pl tag outer pl' : list byte) : Prop := {
  layer_tag : len tag = 16;
  layer_outer : len outer = 32 + len header;
  layer_payload : len pl' = len pl;
  layer_header_opens : aead_decrypt (scalar_mul node_key (public_of sk)) outer tag = Some (dest ++ header);
  layer_payload_opens : lion_transform_decrypt pl' (scalar_mul node_key (public_of sk)) = Ok pl
}.

Lemma encode_mix_layer_Ok sk node_key dest junk header pl :
  len sk = 32 -> len dest = 32 -> len junk = 80 -> len header < 2 ^ 16 -> MIN_MESSAGE_LEN <= len pl ->
  exists tag outer pl', Layer sk node_key dest header pl tag outer pl'
    /\ MixStageParameters.encode_mix_layer (MixStageParameters.mk 32 (len header) (len pl)) (junk ++ header ++ pl)
         sk (public_of node_key) dest
       = Ok (public_of sk ++ tag ++ outer ++ pl', scalar_mul sk (public_of node_key)).
Proof.
  intros Hsk Hdest Hjunk Hh Hp.
  destruct (split_len junk 32) as (j1 & j & -> & Hj1); [lia|].
  destruct (split_len j 16) as (j2 & j3 & -> & Hj2); [autorewrite with len in Hjunk; pose proof (len_nonneg j); lia|].
  autorewrite with len in Hjunk.
  set (key := scalar_mul sk (public_of node_key)). assert (len key = 32) as Hkey by apply len_scalar_mul.
  destruct (aead_roundtrip key (dest ++ header)) as (c & tag & E1 & Hc & Ht & E2); [done|autorewrite with len; lia|].
  destruct (lion_roundtrip key pl) as (pl' & E3 & Hpl' & E4); [done..|]. autorewrite with len in Hc.
  exists tag, c, pl'. split.
  { split; try done; try lia; by rewrite <- (diffie_hellman sk node_key). }
  unfold MixStageParameters.encode_mix_layer. rewrite !try_into_32_Ok by (done || apply len_public_of). cbn [obind].
  assert (len ((j1 ++ j2 ++ j3) ++ header ++ pl)
    = MixStageParameters.incoming_packet_length (MixStageParameters.mk 32 (len header) (len pl))) as ->.
  { layer_lia. }
  rewrite Z.eqb_refl. cbn [negb MixStageParameters.routing_information_length_bytes]. rewrite Hdest. cbn [Z.eqb Pos.eqb negb].
  fold key. rewrite header_aead_key_Ok by done.
  replace ((j1 ++ j2 ++ j3) ++ header ++ pl) with ((j1 ++ j2) ++ j3 ++ header ++ pl) by (by rewrite !app_assoc).
  rewrite write_middle by layer_lia. cbn [obind].
  replace ((j1 ++ j2) ++ dest ++ header ++ pl) with ((j1 ++ j2) ++ (dest ++ header) ++ pl) by (by rewrite !app_assoc).
  rewrite read_middle by layer_lia. cbn [obind]. rewrite E1.
  rewrite write_middle by layer_lia. cbn [obind].
  rewrite <- app_assoc.
  rewrite write_middle by layer_lia. cbn [obind].
  rewrite <- (app_nil_l (j1 ++ _)).
  rewrite write_middle by layer_lia. cbn [obind].
  rewrite app_nil_l.
  replace (public_of sk ++ tag ++ c ++ pl) with ((public_of sk ++ tag ++ c) ++ pl ++ []) by (by rewrite app_nil_r, <- !app_assoc).
  pose proof (len_public_of sk).
  rewrite read_middle by layer_lia.
  cbn [obind]. rewrite E3. cbn [obind].
  rewrite write_middle by layer_lia.
  cbn [obind]. by rewrite app_nil_r, <- !app_assoc.
Qed.

Lemma decode_mix_layer_Ok sk node_key dest header pl tag outer pl' :
  Layer sk node_key dest header pl tag outer pl' -> len node_key = 32 -> len dest = 32 ->
  MixStageParameters.decode_mix_layer (MixStageParameters.mk 32 (len header) (len pl))
    (public_of sk ++ tag ++ outer ++ pl') node_key
  = Ok (public_of sk ++ tag ++ dest ++ header ++ pl, dest).
Proof.
  intros [Ht Ho Hp E1 E2] Hk Hd. unfold MixStageParameters.decode_mix_layer. rewrite try_into_32_Ok by done. cbn [obind].
  assert (len (public_of sk ++ tag ++ outer ++ pl')
    = MixStageParameters.incoming_packet_length (MixStageParameters.mk 32 (len header) (len pl))) as ->
    by layer_lia.
  rewrite Z.eqb_refl. cbn [negb].
  rewrite <- (app_nil_l (public_of sk ++ _)), read_middle by layer_lia. cbn [obind].
  rewrite app_nil_l, try_into_32_Ok by apply len_public_of. cbn [obind].
  rewrite header_aead_key_Ok by apply len_scalar_mul. cbn [obind].
  rewrite read_middle by layer_lia. cbn [obind].
  rewrite (app_assoc (public_of sk)), read_middle by layer_lia. cbn [obind]. rewrite E1.
  rewrite write_middle by layer_lia. cbn [obind]. rewrite <- (app_assoc dest).
  rewrite read_middle by layer_lia. cbn [obind].
  assert ((public_of sk ++ tag) ++ dest ++ header ++ pl' = (public_of sk ++ tag ++ dest ++ header) ++ pl' ++ []) as ->
    by (by rewrite app_nil_r, <- !app_assoc).
  rewrite read_middle by layer_lia. cbn [obind]. rewrite E2. cbn [obind].
  rewrite write_middle by layer_lia. cbn [obind]. by rewrite app_nil_r, <- !app_assoc.
Qed.

(** ** A layer of a packet *)

Lemma get_stage_params_Ok p i :
  0 <= i < 4 ->
  MixCreationParameters.get_stage_params p i
  = Ok (mkRange (240 - 80 * i) (320 + MixCreationParameters.payload_length_bytes p),
        MixStageParameters.mk 32 (80 * i) (MixCreationParameters.payload_length_bytes p)).
Proof.
  intros Hi. destruct p as [ls P]. unfold MixCreationParameters.get_stage_params.
  assert (MixCreationParameters.total_packet_length (MixCreationParameters.mk ls P) = 320 + P) as E.
  { unfold MixCreationParameters.total_packet_length. simpl. unfold GROUPELEMENTBYTES, TAGBYTES, DEFAULT_ROUTING_INFO_SIZE. lia. }
  transitivity (let? start := usize_sub (MixCreationParameters.total_packet_length (MixCreationParameters.mk ls P))
    (MixStageParameters.incoming_packet_length (MixStageParameters.mk 32 (80 * i) P)) in
    Ok (E := OutfoxError) (mkRange start (MixCreationParameters.total_packet_length (MixCreationParameters.mk ls P)),
      MixStageParameters.mk 32 (80 * i) P)).
  - assert (i = 0 \/ i = 1 \/ i = 2 \/ i = 3) as [->|[->|[->| ->]]] by lia; reflexivity.
  - rewrite E. unfold usize_sub. cbn [MixCreationParameters.payload_length_bytes].
    destruct (Z.leb_spec (MixStageParameters.incoming_packet_length (MixStageParameters.mk 32 (80 * i) P)) (320 + P)) as [Hle|Hlt].
    + cbn [obind]. do 3 f_equal. layer_lia.
    + exfalso. revert Hlt. layer_lia.
Qed.

Lemma encode_stage_Ok params sk node_key dest pre header pl i :
  0 <= i < 4 -> len sk = 32 -> len dest = 32 -> MIN_MESSAGE_LEN <= len pl ->
  MixCreationParameters.payload_length_bytes params = len pl -> len pre = 320 - 80 * i -> len header = 80 * i ->
  exists pre' tag outer pl', Layer sk node_key dest header pl tag outer pl' /\ len pre' = 240 - 80 * i
    /\ OutfoxPacket.encode_stage params sk (pre ++ header ++ pl) i (public_of node_key) dest
       = Ok (pre' ++ (public_of sk ++ tag ++ outer) ++ pl').
Proof.
  intros Hi Hsk Hd Hp HP Hpre Hh. destruct (split_len pre (240 - 80 * i)) as (pre' & junk & -> & Hpre'); [lia|].
  autorewrite with len in Hpre.
  destruct (encode_mix_layer_Ok sk node_key dest junk header pl) as (tag & outer & pl' & L & E); [done|done|lia|lia|done|].
  exists pre', tag, outer, pl'. split; [done|]. split; [done|]. destruct L as [L1 L2 L3 _ _].
  unfold OutfoxPacket.encode_stage. rewrite get_stage_params_Ok, HP by done. cbn [obind].
  assert ((pre' ++ junk) ++ header ++ pl = pre' ++ (junk ++ header ++ pl) ++ []) as -> by (by rewrite app_nil_r, <- !app_assoc).
  rewrite read_middle by layer_lia. cbn [obind]. rewrite <- Hh, E. cbn [obind].
  rewrite write_middle by layer_lia. by rewrite app_nil_r, <- !app_assoc.
Qed.

Lemma decode_packet_layer_Ok params sk node_key dest pre header pl tag outer pl' i :
  Layer sk node_key dest header pl tag outer pl' ->
  0 <= i < 4 -> len node_key = 32 -> len dest = 32 ->
  MixCreationParameters.payload_length_bytes params = len pl -> len pre = 240 - 80 * i -> len header = 80 * i ->
  OutfoxPacket.decode_mix_layer (OutfoxPacket.mk params (pre ++ (public_of sk ++ tag ++ outer) ++ pl')) i node_key
  = Ok (OutfoxPacket.mk params ((pre ++ public_of sk ++ tag ++ dest) ++ header ++ pl), dest).
Proof.
  intros L Hi Hk Hd HP Hpre Hh. pose proof L as [L1 L2 L3 _ _].
  unfold OutfoxPacket.decode_mix_layer. cbn [OutfoxPacket.mix_params OutfoxPacket.payload].
  rewrite get_stage_params_Ok, HP by done. cbn [obind].
  assert (pre ++ (public_of sk ++ tag ++ outer) ++ pl' = pre ++ (public_of sk ++ tag ++ outer ++ pl') ++ []) as ->
    by (by rewrite app_nil_r, <- !app_assoc).
  rewrite read_middle by layer_lia. cbn [obind]. rewrite <- Hh, (decode_mix_layer_Ok _ _ _ _ _ _ _ _ L) by done. cbn [obind].
  rewrite write_middle by layer_lia. cbn [obind]. by rewrite app_nil_r, <- !app_assoc.
Qed.

(** ** Packets on their way *)

(** The layers that are left: for each, the key of its node and the address shown to it. *)
Inductive Onion (sk : list byte) (core : list byte) : list (list byte * list byte) -> list byte -> list byte -> Prop :=
| Onion_core : Onion sk core [] [] core
| Onion_layer hops header pl node_key dest tag outer pl' :
    Onion sk core hops header pl -> len node_key = 32 -> len dest = 32 ->
    Layer sk node_key dest header pl tag outer pl' ->
    Onion sk core ((node_key, dest) :: hops) (public_of sk ++ tag ++ outer) pl'.

Lemma Onion_lengths sk core hops header pl :
  Onion sk core hops header pl -> len header = 80 * len hops /\ len pl = len core.
Proof.
  induction 1 as [|hops header pl k d tag outer pl' _ [IH1 IH2] _ _ [L1 L2 L3 _ _]]; [done|].
  split; layer_lia.
Qed.

(** The parameters of a packet with [n] layers left. *)
Definition layers_left (n : nat) (P : Z) : MixCreationParameters.t :=
  MixCreationParameters.mk (replicate n 32 ++ replicate (4 - n) 0) P.

(** A packet with these layers left. *)
Definition in_transit (sk core : list byte) (hops : list (list byte * list byte)) (p : OutfoxPacket.t) : Prop :=
  OutfoxPacket.mix_params p = layers_left (length hops) (len core) /\ (length hops <= 4)%nat
  /\ exists pre header pl, OutfoxPacket.payload p = pre ++ header ++ pl
       /\ len pre = 320 - 80 * len hops /\ Onion sk core hops header pl.

Lemma in_transit_hop sk core k d hops p :
  in_transit sk core ((k, d) :: hops) p ->
  exists p', OutfoxPacket.decode_next_layer p k = Ok (p', d) /\ in_transit sk core hops p'.
Proof.
  destruct p as [params payload]. intros (HP & Hn & pre & header & pl & E & Hpre & O). simpl in HP, E, Hn. subst params payload.
  autorewrite with len in Hpre.
  inversion O as [|hops' header' pl0 k' d' tag outer pl' O' Hk Hd L]; subst.
  pose proof (Onion_lengths _ _ _ _ _ O') as [Hh Hpl]. pose proof L as [L1 L2 L3 _ _].
  exists (OutfoxPacket.mk (layers_left (length hops) (len core)) ((pre ++ public_of sk ++ tag ++ d) ++ header' ++ pl0)).
  split; [|split; [done|split; [lia|]]; exists (pre ++ public_of sk ++ tag ++ d), header', pl0; split; [done|split; [layer_lia|done]]].
  unfold OutfoxPacket.decode_next_layer. cbn [OutfoxPacket.mix_params].
  assert (OutfoxPacket.next_layer 0
    (rev (MixCreationParameters.routing_information_length_by_stage (layers_left (S (length hops)) (len core))))
    = len hops) as ->.
  { unfold len, layers_left. destruct (length hops) as [|[|[|[|n]]]]; [done..|lia]. }
  rewrite (decode_packet_layer_Ok _ _ _ _ _ _ _ _ _ _ _ L)
    by (done || (unfold len in *; simpl; lia) || (autorewrite with len in *; lia)).
  cbn [obind].
  assert (OutfoxPacket.update_routing_information
    (OutfoxPacket.mk (layers_left (S (length hops)) (len core)) ((pre ++ public_of sk ++ tag ++ d) ++ header' ++ pl0)) (len hops)
    = Ok (OutfoxPacket.mk (layers_left (length hops) (len core)) ((pre ++ public_of sk ++ tag ++ d) ++ header' ++ pl0))) as ->.
  { unfold len, layers_left. destruct (length hops) as [|[|[|[|n]]]]; [done..|lia]. }
  cbn [obind OutfoxPacket.mix_params OutfoxPacket.payload].
  rewrite get_stage_params_Ok by (unfold len; lia). cbn [obind].
  assert ((pre ++ public_of sk ++ tag ++ d) ++ header' ++ pl0 = pre ++ (public_of sk ++ tag ++ d ++ header' ++ pl0) ++ []) as ->
    by (by rewrite app_nil_r, <- !app_assoc).
  rewrite read_middle by (simpl; layer_lia). cbn [obind].
  rewrite (app_assoc (public_of sk)), read_middle by layer_lia. cbn [obind]. by rewrite try_into_32_Ok.
Qed.

Lemma in_transit_bytes sk core hops p :
  in_transit sk core hops p -> len core < 2 ^ 16 ->
  OutfoxPacket.try_from (OutfoxPacket.to_bytes p) = Ok p /\ len (OutfoxPacket.to_bytes p) = 326 + len core.
Proof.
  destruct p as [params payload]. intros (HP & Hn & pre & header & pl & E & Hpre & O) Hc. simpl in HP, E. subst params payload.
  pose proof (Onion_lengths _ _ _ _ _ O) as [Hh Hpl].
  set (b := pre ++ header ++ pl). assert (len b = 320 + len core) as Hb by (unfold b; layer_lia).
  unfold OutfoxPacket.try_from, OutfoxPacket.to_bytes. cbn [OutfoxPacket.mix_params OutfoxPacket.payload].
  assert (len (MixCreationParameters.to_bytes (layers_left (length hops) (len core))) = 6) as H6.
  { unfold len. destruct (length hops) as [|[|[|[|[|n]]]]]; [done..|lia]. }
  split; [|autorewrite with len; lia]. pose proof (len_nonneg core).
  zcases; [autorewrite with len in *; unfold MIX_PARAMS_LEN, DEFAULT_HOPS in *; lia|].
  rewrite take_app_length', drop_app_length' by (unfold len, MIX_PARAMS_LEN, DEFAULT_HOPS in *; lia).
  assert (MixCreationParameters.try_from (MixCreationParameters.to_bytes (layers_left (length hops) (len core)))
    = Ok (layers_left (length hops) (len core))) as ->; [|done].
  unfold MixCreationParameters.try_from. rewrite H6. cbn [negb Z.eqb Pos.eqb MIX_PARAMS_LEN DEFAULT_HOPS Z.add Pos.add Pos.succ].
  assert (is_u16 (len core)) as Hu by (unfold is_u16; pose proof (len_nonneg core); lia).
  unfold MixCreationParameters.to_bytes, layers_left, DEFAULT_HOPS.
  cbn [MixCreationParameters.routing_information_length_by_stage MixCreationParameters.payload_length_bytes].
  rewrite take_app_length', drop_app_length', u16_le_roundtrip
    by (done || (rewrite length_fmap, length_app, !length_replicate; lia)).
  do 2 f_equal. destruct (length hops) as [|[|[|[|[|n]]]]]; [done..|lia].
Qed.

(** ** Building a packet *)

Lemma encode_route_Ok sk core pre a1 a2 a3 a4 k1 k2 k3 k4 dest :
  len sk = 32 -> Forall (fun x => len x = 32) [a1; a2; a3; a4; k1; k2; k3; k4; dest] ->
  MIN_MESSAGE_LEN <= len core -> len pre = 320 ->
  exists buffer,
    (let? b := OutfoxPacket.encode_stage (MixCreationParameters.new (len core)) sk (pre ++ core) 0 (public_of k4) dest in
     OutfoxPacket.encode_windows (MixCreationParameters.new (len core)) sk b 0
       [mkNode a4 (public_of k4); mkNode a3 (public_of k3); mkNode a2 (public_of k2); mkNode a1 (public_of k1)]) = Ok buffer
    /\ in_transit sk core [(k1, a2); (k2, a3); (k3, a4); (k4, dest)] (OutfoxPacket.mk (MixCreationParameters.new (len core)) buffer).
Proof.
  intros Hsk Hlen Hc Hpre. rewrite !Forall_cons in Hlen. destruct Hlen as (Ha1 & Ha2 & Ha3 & Ha4 & Hk1 & Hk2 & Hk3 & Hk4 & Hd & _).
  set (params := MixCreationParameters.new (len core)).
  (* One more layer, for the holder of [k]. *)
  assert (forall k d hops header pl pre, len k = 32 -> len d = 32 -> (length hops < 4)%nat ->
    Onion sk core hops header pl -> len pre = 320 - 80 * len hops ->
    exists pre' header' pl', OutfoxPacket.encode_stage params sk (pre ++ header ++ pl) (len hops) (public_of k) d
        = Ok (pre' ++ header' ++ pl')
      /\ Onion sk core ((k, d) :: hops) header' pl' /\ len pre' = 320 - 80 * (1 + len hops)) as step.
  { intros k d hops header pl pre0 Hk Hd' Hn O Hpre0. pose proof (Onion_lengths _ _ _ _ _ O) as [Hh Hpl].
    destruct (encode_stage_Ok params sk k d pre0 header pl (len hops)) as (pre' & tag & outer & pl' & L & Hpre' & E);
      [unfold len; lia|done|done|lia|simpl; lia|lia|done|].
    exists pre', (public_of sk ++ tag ++ outer), pl'. split; [done|]. split; [|lia]. by econstructor. }
  destruct (step k4 dest [] [] core pre) as (p1 & h1 & c1 & E1 & O1 & L1); [done|done|simpl; lia|constructor|done|].
  destruct (step k3 a4 [(k4, dest)] _ _ p1 Hk3 Ha4 ltac:(simpl; lia) O1 L1) as (p2 & h2 & c2 & E2 & O2 & L2).
  destruct (step k2 a3 [(k3, a4); (k4, dest)] _ _ p2 Hk2 Ha3 ltac:(simpl; lia) O2 L2) as (p3 & h3 & c3 & E3 & O3 & L3).
  destruct (step k1 a2 [(k2, a3); (k3, a4); (k4, dest)] _ _ p3 Hk1 Ha2 ltac:(simpl; lia) O3 L3) as (p4 & h4 & c4 & E4 & O4 & L4).
  exists (p4 ++ h4 ++ c4). change (pre ++ core) with (pre ++ [] ++ core). change 0 with (len (@nil (list byte * list byte))) at 1.
  rewrite E1. cbn [obind OutfoxPacket.encode_windows node_pub_key node_address].
  change (0 + 1) with (len [(k4, dest)]). rewrite E2. cbn [obind].
  change (len [(k4, dest)] + 1) with (len [(k3, a4); (k4, dest)]). rewrite E3. cbn [obind].
  change (len [(k3, a4); (k4, dest)] + 1) with (len [(k2, a3); (k3, a4); (k4, dest)]). rewrite E4. split; [done|].
  split; [done|]. split; [simpl; lia|]. by exists p4, h4, c4.
Qed.

(** The room a packet of this size has for a payload. *)
Definition packet_capacity (packet_size : option Z) : Z := Z.max MIN_PACKET_SIZE (default DEFAULT_PAYLOAD_SIZE packet_size).

(** The nodes with these addresses and secret keys. *)
Definition route_of (addresses keys : list (list byte)) : list Node :=
  zip_with (fun a k => mkNode a (public_of k)) addresses keys.

(** What a packet's buffer is before the first layer: room for the headers, and the payload with its
    padding. *)
Lemma build_Ok sk data size a1 a2 a3 a4 k1 k2 k3 k4 dest :
  len sk = 32 -> Forall (fun x => len x = 32) [a1; a2; a3; a4; k1; k2; k3; k4; dest] ->
  len data <= packet_capacity size + 320 -> packet_capacity size + 3 < 2 ^ 16 ->
  exists p, OutfoxPacket.build sk data (route_of [a1; a2; a3; a4] [k1; k2; k3; k4]) dest size = Ok p
    /\ in_transit sk
         (drop 320 (replicate (Z.to_nat (packet_capacity size + 320 - len data)) x00 ++ MAGIC_SLICE ++ data))
         [(k1, a2); (k2, a3); (k3, a4); (k4, dest)] p.
Proof.
  intros Hsk Hlen Hd Hs. set (cap := packet_capacity size) in *.
  assert (48 <= cap) as Hcap by (unfold cap, packet_capacity, MIN_PACKET_SIZE; lia).
  set (buffer := replicate (Z.to_nat (cap + 320 - len data)) x00 ++ MAGIC_SLICE ++ data).
  assert (len buffer = 323 + cap) as Hb.
  { unfold buffer. autorewrite with len. change (len MAGIC_SLICE) with 3. unfold len at 1. rewrite length_replicate. lia. }
  assert (len (drop 320 buffer) = 3 + cap) as Hcore by (change 320%nat with (Z.to_nat 320); rewrite len_drop; lia).
  destruct (encode_route_Ok sk (drop 320 buffer) (take 320 buffer) a1 a2 a3 a4 k1 k2 k3 k4 dest) as (b & E & T);
    [done|done|unfold MIN_MESSAGE_LEN; lia|change 320%nat with (Z.to_nat 320); rewrite len_take; lia|].
  exists (OutfoxPacket.mk (MixCreationParameters.new (3 + cap)) b). rewrite Hcore in *. split; [|done].
  unfold OutfoxPacket.build. fold MIN_PACKET_SIZE.
  assert ((if default DEFAULT_PAYLOAD_SIZE size <? MIN_PACKET_SIZE then MIN_PACKET_SIZE else default DEFAULT_PAYLOAD_SIZE size)
    = cap) as -> by (unfold cap, packet_capacity; zcases; lia).
  assert ((cap + len MAGIC_SLICE) mod 2 ^ 16 = 3 + cap) as -> by (change (len MAGIC_SLICE) with 3; rewrite Z.mod_small; lia).
  assert (MixCreationParameters.total_packet_length (MixCreationParameters.new (3 + cap)) = 323 + cap) as ->.
  { unfold MixCreationParameters.total_packet_length. simpl. unfold GROUPELEMENTBYTES, TAGBYTES, DEFAULT_ROUTING_INFO_SIZE. lia. }
  unfold usize_sub at 1. destruct (Z.leb_spec (len data) (323 + cap)); [|lia]. cbn [obind].
  unfold usize_sub. change (len MAGIC_SLICE) with 3. destruct (Z.leb_spec 3 (323 + cap - len data)); [|lia]. cbn [obind].
  replace (323 + cap - len data - 3) with (cap + 320 - len data) by lia. fold buffer.
  cbn [unwrap_opt last route_of zip_with obind node_pub_key]. rewrite (take_drop 320 buffer) in E.
  apply obind_Ok_inv in E as (b' & E1 & E2). rewrite E1. cbn [obind rev app]. by rewrite E2.
Qed.

Lemma pop_zeros_padding n b : OutfoxPacket.pop_zeros (replicate n x00 ++ MAGIC_SLICE ++ b) = MAGIC_SLICE ++ b.
Proof. by induction n. Qed.

Lemma recover_plaintext_core sk core p :
  in_transit sk core [] p -> OutfoxPacket.recover_plaintext p
    = let plaintext := OutfoxPacket.pop_zeros core in
      if len plaintext <? len MAGIC_SLICE then Panic IndexOutOfBounds
      else
        let magic := take (length MAGIC_SLICE) plaintext in
        if bool_decide (magic = MAGIC_SLICE) then Ok (drop (length MAGIC_SLICE) plaintext)
        else Err (InvalidMagicBytes magic).
Proof.
  destruct p as [params payload]. intros (HP & _ & pre & header & pl & E & Hpre & O). simpl in HP, E. subst params payload.
  assert (pl = core /\ header = []) as [-> ->] by (by inversion O).
  unfold OutfoxPacket.recover_plaintext, OutfoxPacket.payload_range.
  rewrite get_stage_params_Ok by done. cbn [obind OutfoxPacket.payload OutfoxPacket.mix_params].
  rewrite <- (app_nil_r core) at 1. simpl ([] ++ _).
  change (80 * (DEFAULT_HOPS - 1)) with 240. cbn [layers_left MixCreationParameters.payload_length_bytes].
  autorewrite with len in Hpre. by rewrite read_middle by layer_lia.
Qed.

(** The payload with its padding is what is left when the headers have been cut off. *)
Lemma padded_core cap data :
  len data <= cap ->
  drop 320 (replicate (Z.to_nat (cap + 320 - len data)) x00 ++ MAGIC_SLICE ++ data)
  = replicate (Z.to_nat (cap - len data)) x00 ++ MAGIC_SLICE ++ data.
Proof.
  intros Hd. replace (Z.to_nat (cap + 320 - len data)) with (320 + Z.to_nat (cap - len data))%nat by lia.
  rewrite replicate_add, <- app_assoc. apply drop_app_length'. by rewrite length_replicate.
Qed.

Lemma recover_padded sk n data p :
  in_transit sk (replicate n x00 ++ MAGIC_SLICE ++ data) [] p -> OutfoxPacket.recover_plaintext p = Ok data.
Proof.
  intros T. rewrite (recover_plaintext_core _ _ _ T), pop_zeros_padding. cbn zeta.
  autorewrite with len. pose proof (len_nonneg data). zcases; [lia|]. rewrite take_app_length, drop_app_length.
  by rewrite bool_decide_eq_true_2.
Qed.

(** ** Travelling *)

(** The nodes that hold these keys process a packet one after the other; each receives the bytes that
    the one before it sent.  The packet that the last one sends, and the addresses they learn. *)
Fixpoint travel (p : OutfoxPacket.t) (keys : list (list byte)) : outcome OutfoxError (OutfoxPacket.t * list (list byte)) :=
  match keys with
  | [] => Ok (p, [])
  | key :: keys =>
      let? received := OutfoxPacket.try_from (OutfoxPacket.to_bytes p) in
      let? (p, address) := OutfoxPacket.decode_next_layer received key in
      let? (p, addresses) := travel p keys in
      Ok (p, address :: addresses)
  end.

Lemma in_transit_travel sk core hops rest p :
  in_transit sk core (hops ++ rest) p -> len core < 2 ^ 16 ->
  exists q, travel p hops.*1 = Ok (q, hops.*2) /\ in_transit sk core rest q.
Proof.
  intros T Hc. revert p T. induction hops as [|[k d] hops IH]; intros p T; [by exists p|]. simpl in *.
  rewrite (proj1 (in_transit_bytes _ _ _ _ T Hc)). cbn [obind].
  destruct (in_transit_hop _ _ _ _ _ _ T) as (p' & -> & T'). cbn [obind].
  destruct (IH p' T') as (q & Eq & Tq). exists q. split; [|done].
  change (list_fmap _ _ fst hops) with (hops.*1). by rewrite Eq.
Qed.

Lemma in_transit_final sk core hops p :
  in_transit sk core hops p -> OutfoxPacket.is_final_hop p = bool_decide (hops = []).
Proof.
  intros (HP & Hn & _). unfold OutfoxPacket.is_final_hop. rewrite HP.
  destruct hops as [|h hops]; [done|]. by rewrite bool_decide_eq_false_2.
Qed.

(** C12: a packet built for the route of three mix nodes and a gateway, with a payload that fits its
    size, travels it: the nodes, each holding its secret key and receiving the bytes that the previous
    one sent, learn the address of the next one, and the gateway that of the recipient; the packet
    always has the size of an Outfox packet; only after the gateway is it at its final hop, and there the
    plaintext recovered from it is the payload. *)
Theorem outfox_packet_travels sk data size a1 a2 a3 a4 k1 k2 k3 k4 dest :
  len sk = 32 -> Forall (fun x => len x = 32) [a1; a2; a3; a4; k1; k2; k3; k4; dest] ->
  len data <= packet_capacity size -> packet_capacity size + 3 < 2 ^ 16 ->
  exists p, OutfoxPacket.build sk data (route_of [a1; a2; a3; a4] [k1; k2; k3; k4]) dest size = Ok p
    /\ forall n, (n <= 4)%nat ->
       exists q, travel p (take n [k1; k2; k3; k4]) = Ok (q, take n [a2; a3; a4; dest])
         /\ OutfoxPacket.is_final_hop q = bool_decide (n = 4%nat)
         /\ len (OutfoxPacket.to_bytes q) = packet_capacity size + OUTFOX_PACKET_OVERHEAD
         /\ (n = 4%nat -> OutfoxPacket.recover_plaintext q = Ok data).
Proof.
  intros Hsk Hlen Hd Hs. destruct (build_Ok sk data size a1 a2 a3 a4 k1 k2 k3 k4 dest) as (p & E & T); [done|done|lia|done|].
  rewrite padded_core in T by done. set (core := replicate _ _ ++ _ ++ _) in T.
  assert (len core = packet_capacity size + 3) as Hcore.
  { unfold core. autorewrite with len. change (len MAGIC_SLICE) with 3. unfold len at 1. rewrite length_replicate. lia. }
  exists p. split; [done|]. intros n Hn. set (hops := [(k1, a2); (k2, a3); (k3, a4); (k4, dest)]) in *.
  rewrite <- (take_drop n hops) in T. destruct (in_transit_travel _ _ _ _ _ T) as (q & Eq & Tq); [lia|].
  exists q. rewrite !fmap_take in Eq. split; [done|].
  split; [|split].
  - rewrite (in_transit_final _ _ _ _ Tq). apply bool_decide_ext.
    destruct n as [|[|[|[|[|n]]]]]; simpl; split; intros; (done || lia).
  - rewrite (proj2 (in_transit_bytes _ _ _ _ Tq ltac:(lia))), Hcore. unfold OUTFOX_PACKET_OVERHEAD. simpl.
    unfold MIX_PARAMS_LEN, DEFAULT_HOPS, GROUPELEMENTBYTES, TAGBYTES, DEFAULT_ROUTING_INFO_SIZE. change (len MAGIC_SLICE) with 3. lia.
  - intros ->. by apply (recover_padded _ _ _ _ Tq).
Qed.

(** The four layers of a packet are made with one secret key, so the public element by which a node
    agrees on a key with the sender is the same at every hop: whoever sees a packet enter one node and
    leave another recognises it. *)
Theorem packet_keeps_its_public_element sk data size a1 a2 a3 a4 k1 k2 k3 k4 dest :
  len sk = 32 -> Forall (fun x => len x = 32) [a1; a2; a3; a4; k1; k2; k3; k4; dest] ->
  len data <= packet_capacity size -> packet_capacity size + 3 < 2 ^ 16 ->
  exists p, OutfoxPacket.build sk data (route_of [a1; a2; a3; a4] [k1; k2; k3; k4]) dest size = Ok p
    /\ forall n, (n < 4)%nat ->
       exists q, travel p (take n [k1; k2; k3; k4]) = Ok (q, take n [a2; a3; a4; dest])
         /\ read_range (E := OutfoxError) (OutfoxPacket.payload q) (mkRange (80 * Z.of_nat n) (80 * Z.of_nat n + 32))
            = Ok (public_of sk).
Proof.
  intros Hsk Hlen Hd Hs. destruct (build_Ok sk data size a1 a2 a3 a4 k1 k2 k3 k4 dest) as (p & E & T); [done|done|lia|done|].
  assert (len (drop 320 (replicate (Z.to_nat (packet_capacity size + 320 - len data)) x00 ++ MAGIC_SLICE ++ data)) < 2 ^ 16) as Hc.
  { change 320%nat with (Z.to_nat 320). rewrite len_drop by lia. autorewrite with len. change (len MAGIC_SLICE) with 3.
    unfold len at 1. rewrite length_replicate. lia. }
  exists p. split; [done|]. intros n Hn. set (hops := [(k1, a2); (k2, a3); (k3, a4); (k4, dest)]) in *.
  rewrite <- (take_drop n hops) in T. destruct (in_transit_travel _ _ _ _ _ T Hc) as (q & Eq & Tq).
  exists q. rewrite !fmap_take in Eq. split; [done|]. destruct Tq as (_ & _ & pre & header & pl & -> & Hpre & O).
  assert (len (drop n hops) = 4 - Z.of_nat n) as Hn' by (unfold len; rewrite length_drop; simpl; lia). rewrite Hn' in Hpre.
  inversion O as [E'|hops' header' pl0 k d tag outer pl' O' Hk Hdd L E']; [rewrite <- E' in Hn'; unfold len in Hn'; simpl in Hn'; lia|].
  rewrite <- app_assoc, read_middle by layer_lia. done.
Qed.

(** A payload longer than the packet's size, by at most the size of the headers, is accepted by
    [build] and lost: its beginning is where the headers are written, and what the gateway recovers is
    not the payload. *)
Theorem oversized_payload_is_lost sk data size a1 a2 a3 a4 k1 k2 k3 k4 dest :
  len sk = 32 -> Forall (fun x => len x = 32) [a1; a2; a3; a4; k1; k2; k3; k4; dest] ->
  packet_capacity size < len data <= packet_capacity size + 320 -> packet_capacity size + 3 < 2 ^ 16 ->
  exists p q, OutfoxPacket.build sk data (route_of [a1; a2; a3; a4] [k1; k2; k3; k4]) dest size = Ok p
    /\ travel p [k1; k2; k3; k4] = Ok (q, [a2; a3; a4; dest]) /\ OutfoxPacket.is_final_hop q = true
    /\ OutfoxPacket.recover_plaintext q <> Ok data.
Proof.
  intros Hsk Hlen Hd Hs. destruct (build_Ok sk data size a1 a2 a3 a4 k1 k2 k3 k4 dest) as (p & E & T); [done|done|lia|done|].
  set (core := drop 320 _) in T.
  assert (len core = packet_capacity size + 3) as Hc.
  { unfold core. change 320%nat with (Z.to_nat 320). rewrite len_drop by lia. autorewrite with len. change (len MAGIC_SLICE) with 3.
    unfold len at 1. rewrite length_replicate. unfold packet_capacity, MIN_PACKET_SIZE in *. lia. }
  set (hops := [(k1, a2); (k2, a3); (k3, a4); (k4, dest)]) in *.
  rewrite <- (app_nil_r hops) in T. destruct (in_transit_travel _ _ _ _ _ T) as (q & Eq & Tq); [lia|].
  exists p, q. split; [done|]. split; [done|]. split; [by rewrite (in_transit_final _ _ _ _ Tq)|].
  rewrite (recover_plaintext_core _ _ _ Tq). cbn zeta.
  assert (forall b, (length (OutfoxPacket.pop_zeros b) <= length b)%nat) as Hpop.
  { induction b as [|c b IH]; [done|]. simpl. case_bool_decide; simpl; lia. }
  specialize (Hpop core). zcases; [done|]. case_bool_decide; [|done]. injection 1 as E'.
  apply (f_equal length) in E'. rewrite length_drop in E'. change (length MAGIC_SLICE) with 3%nat in E'.
  unfold len, packet_capacity, MIN_PACKET_SIZE in *. lia.
Qed.

(** ** Malformed packets *)

(** Bytes that are no packet stop the node: with fewer than six of them the parameters cannot be
    split off, and parameters that announce a longer payload than there is make the node read beyond
    the buffer, whatever its key is; both panic. *)
Theorem malformed_packet_panics v key :
  (len v < MIX_PARAMS_LEN -> OutfoxPacket.try_from v = Panic IndexOutOfBounds)
  /\ forall p, OutfoxPacket.try_from v = Ok p -> len v < OutfoxPacket.length_of p ->
     OutfoxPacket.decode_next_layer p key = Panic IndexOutOfBounds.
Proof.
  split; [intros; unfold OutfoxPacket.try_from; by zcases; [|lia]|].
  intros p Hp Hlen. unfold OutfoxPacket.try_from in Hp. zcases_in Hp; [done|].
  apply obind_Ok_inv in Hp as (params & Hparams & Hp). injection Hp as <-.
  unfold OutfoxPacket.decode_next_layer. cbn [OutfoxPacket.mix_params].
  set (layer := OutfoxPacket.next_layer _ _).
  assert (0 <= layer < 4) as Hlayer.
  { unfold MixCreationParameters.try_from in Hparams. destruct (negb _); [done|]. injection Hparams as <-. unfold layer.
    cbn [MixCreationParameters.routing_information_length_by_stage]. set (ls := byte_to_Z <$> _).
    assert (length ls <= 4)%nat as Hls by (unfold ls; rewrite length_fmap, length_take; unfold DEFAULT_HOPS; lia).
    destruct ls as [|l1 [|l2 [|l3 [|l4 [|l5 ls]]]]]; simpl in Hls |- *; unfold DEFAULT_HOPS; zcases; lia. }
  unfold OutfoxPacket.decode_mix_layer. rewrite get_stage_params_Ok by done. cbn [obind OutfoxPacket.payload].
  unfold read_range, slice. cbn [range_start range_end OutfoxPacket.mix_params].
  unfold OutfoxPacket.length_of, MixCreationParameters.total_packet_length in Hlen. simpl in Hlen.
  unfold MIX_PARAMS_LEN, DEFAULT_HOPS, GROUPELEMENTBYTES, TAGBYTES, DEFAULT_ROUTING_INFO_SIZE in *.
  rewrite len_drop by lia.
  destruct (Z.leb_spec (320 + MixCreationParameters.payload_length_bytes params) (Z.max 0 (len v - (4 + 2)))); [lia|].
  by rewrite andb_false_r.
Qed.

End Facts.

(** ** An instance *)

(** Simple primitives with the promised behaviour: keys combine by exclusive or, a header is masked
    with the key, and its tag is half of the key. *)
Module SampleCrypto.

Definition fit (n : nat) (b : list byte) : list byte := take n (b ++ replicate n x00).

Definition mask (k m : list byte) : list byte := byte_xor (default x00 (head k)) <$> m.

#[export] Instance crypto : OutfoxCrypto := {
  public_of s := fit 32 s;
  scalar_mul s p := xor_bytes (fit 32 s) (fit 32 p);
  aead_encrypt k m := Some (mask k m, fit 16 k);
  aead_decrypt k c t := if bool_decide (t = fit 16 k) then Some (mask k c) else None;
  keystream k n l := replicate l (default x00 (head k));
  derive_key _ k := k;
  keyed_hash k m := replicate 32 (foldr byte_xor (default x00 (head k)) m);
  DEFAULT_PAYLOAD_SIZE := 1024
}.

Lemma length_fit n b : length (fit n b) = n.
Proof. unfold fit. rewrite length_take, length_app, length_replicate. lia. Qed.

Lemma fit_fit n b : fit n (fit n b) = fit n b.
Proof. unfold fit at 1. apply take_app_length'. by rewrite length_fit. Qed.

Lemma byte_xor_comm a b : byte_xor a b = byte_xor b a.
Proof. unfold byte_xor. by rewrite Z.lxor_comm. Qed.

Lemma xor_bytes_comm m k : xor_bytes m k = xor_bytes k m.
Proof.
  unfold xor_bytes. revert k. induction m as [|a m IH]; intros [|b k]; [done..|]. simpl. by rewrite byte_xor_comm, IH.
Qed.

Lemma mask_involutive k m : mask k (mask k m) = m.
Proof.
  unfold mask. rewrite <- list_fmap_compose. rewrite <- (list_fmap_id m) at 2. apply list_fmap_ext. intros i x _.
  simpl. rewrite (byte_xor_comm _ x), byte_xor_comm. apply byte_xor_involutive.
Qed.

#[export] Instance crypto_laws : OutfoxCryptoLaws.
Proof.
  split.
  - intros s. unfold len. simpl. by rewrite length_fit.
  - intros s p. unfold len. simpl. by rewrite length_xor_bytes; rewrite !length_fit.
  - intros a b. simpl. rewrite !fit_fit. apply xor_bytes_comm.
  - intros k m _ _. exists (mask k m), (fit 16 k). simpl. split; [done|]. split; [apply len_fmap|].
    split; [unfold len; by rewrite length_fit|]. by rewrite bool_decide_eq_true_2, mask_involutive.
  - intros. simpl. apply length_replicate.
  - intros. done.
Qed.

(** The keys and addresses of a route. *)
Definition key (n : Z) : list byte := be_encode 32 n.

End SampleCrypto.

Import SampleCrypto.

Definition sample_message : list byte := [x68; x65; x6c; x6c; x6f].

Lemma outfox_packet_travels_witness :
  exists p, OutfoxPacket.build (key 9) sample_message (route_of [key 11; key 12; key 13; key 14] [key 1; key 2; key 3; key 4])
              (key 77) (Some 64) = Ok p
    /\ forall n, (n <= 4)%nat ->
       exists q, travel p (take n [key 1; key 2; key 3; key 4]) = Ok (q, take n [key 12; key 13; key 14; key 77])
         /\ OutfoxPacket.is_final_hop q = bool_decide (n = 4%nat)
         /\ len (OutfoxPacket.to_bytes q) = packet_capacity (Some 64) + OUTFOX_PACKET_OVERHEAD
         /\ (n = 4%nat -> OutfoxPacket.recover_plaintext q = Ok sample_message).
Proof.
  apply (outfox_packet_travels (key 9) sample_message (Some 64) (key 11) (key 12) (key 13) (key 14)
           (key 1) (key 2) (key 3) (key 4) (key 77)); [done|by repeat constructor|by vm_compute|by vm_compute].
Defined.

Lemma packet_keeps_its_public_element_witness :
  exists p, OutfoxPacket.build (key 9) sample_message (route_of [key 11; key 12; key 13; key 14] [key 1; key 2; key 3; key 4])
              (key 77) (Some 64) = Ok p
    /\ forall n, (n < 4)%nat ->
       exists q, travel p (take n [key 1; key 2; key 3; key 4]) = Ok (q, take n [key 12; key 13; key 14; key 77])
         /\ read_range (E := OutfoxError) (OutfoxPacket.payload q) (mkRange (80 * Z.of_nat n) (80 * Z.of_nat n + 32))
            = Ok (public_of (key 9)).
Proof.
  apply (packet_keeps_its_public_element (key 9) sample_message (Some 64) (key 11) (key 12) (key 13) (key 14)
           (key 1) (key 2) (key 3) (key 4) (key 77)); [done|by repeat constructor|by vm_compute|by vm_compute].
Defined.

Lemma oversized_payload_is_lost_witness :
  exists p q, OutfoxPacket.build (key 9) (replicate 65 x61) (route_of [key 11; key 12; key 13; key 14] [key 1; key 2; key 3; key 4])
              (key 77) (Some 64) = Ok p
    /\ travel p [key 1; key 2; key 3; key 4] = Ok (q, [key 12; key 13; key 14; key 77]) /\ OutfoxPacket.is_final_hop q = true
    /\ OutfoxPacket.recover_plaintext q <> Ok (replicate 65 x61).
Proof.
  apply (oversized_payload_is_lost (key 9) (replicate 65 x61) (Some 64) (key 11) (key 12) (key 13) (key 14)
           (key 1) (key 2) (key 3) (key 4) (key 77)); [done|by repeat constructor|by vm_compute|by vm_compute].
Defined.
