(* ===== verification/PacketSizes.v ===== *)
(** * Parameters of packets

    Models [common/nymsphinx/params/src]: the sizes, types and versions of the
    packets of the mix network, with their tags on the wire and their names in
    configuration files.  All crates that exchange packets enable both the
    [sphinx] and the [outfox] feature. *)

From Stdlib.Strings Require Import Byte.
From stdpp Require Import strings.
From S2P Require Import Prelude Bytes Fragments Outfox.
#[local] Open Scope Z_scope.

(** Constants of the crate [sphinx-packet]: the size of a packet's header, of the padding and markers
    of its payload, and of the key of a hop in a single use reply block. *)
Class SphinxSizes := {
  HEADER_SIZE : Z;
  PAYLOAD_OVERHEAD_SIZE : Z;
  PAYLOAD_KEY_SIZE : Z
}.

Definition DEFAULT_NUM_MIX_HOPS : Z := 3.
Definition CURRENT_PACKET_VERSION_NUMBER : Z := 7.
Definition ACK_IV_SIZE : Z := 16.

Inductive InvalidPacketSize : Type :=
| UnknownPacketTag (received : Z)
| UnknownExtendedPacketVariant (received : string)
| UnknownPacketSize (received : Z).

Inductive InvalidPacketType : Type := InvalidPacketTypeTag (received : Z).

(** ** Packet types, [packet_types.rs] *)

Module PacketType.

Inductive t : Type := Mix | Vpn | Outfox.

#[global] Instance t_eq_dec : EqDecision t.
Proof. solve_decision. Defined.

Definition as_u8 (p : t) : Z := match p with Mix => 0 | Vpn => 1 | Outfox => 2 end.

Definition to_string (p : t) : string := match p with Mix => "Mix" | Vpn => "Vpn" | Outfox => "Outfox" end.

Definition is_mix (p : t) : bool := bool_decide (p = Mix).

Definition is_outfox (p : t) : bool := bool_decide (p = Outfox).

(** The tag of the deprecated type is not accepted. *)
Definition try_from (value : Z) : outcome InvalidPacketType t :=
  if value =? as_u8 Mix then Ok Mix
  else if value =? as_u8 Outfox then Ok Outfox
  else Err (InvalidPacketTypeTag value).

End PacketType.

(** ** Packet sizes, [packet_sizes.rs] *)

Module PacketSize.

Inductive t : Type :=
| RegularPacket
| AckPacket
| ExtendedPacket32
| ExtendedPacket8
| ExtendedPacket16
| OutfoxRegularPacket
| OutfoxAckPacket.

#[global] Instance t_eq_dec : EqDecision t.
Proof. solve_decision. Defined.

Definition as_u8 (p : t) : Z :=
  match p with
  | RegularPacket => 1
  | AckPacket => 2
  | ExtendedPacket32 => 3
  | ExtendedPacket8 => 4
  | ExtendedPacket16 => 5
  | OutfoxRegularPacket => 6
  | OutfoxAckPacket => 7
  end.

Definition from_str (s : string) : outcome InvalidPacketSize t :=
  if String.eqb s "regular" then Ok RegularPacket
  else if String.eqb s "ack" then Ok AckPacket
  else if String.eqb s "extended8" then Ok ExtendedPacket8
  else if String.eqb s "extended16" then Ok ExtendedPacket16
  else if String.eqb s "extended32" then Ok ExtendedPacket32
  else if String.eqb s "outfox_regular" then Ok OutfoxRegularPacket
  else if String.eqb s "outfox_ack" then Ok OutfoxAckPacket
  else Err (UnknownExtendedPacketVariant s).

Definition to_string (p : t) : string :=
  match p with
  | RegularPacket => "regular"
  | AckPacket => "ack"
  | ExtendedPacket32 => "extended32"
  | ExtendedPacket8 => "extended8"
  | ExtendedPacket16 => "extended16"
  | OutfoxRegularPacket => "outfox_regular"
  | OutfoxAckPacket => "outfox_ack"
  end.

Definition try_from (value : Z) : outcome InvalidPacketSize t :=
  if value =? as_u8 RegularPacket then Ok RegularPacket
  else if value =? as_u8 AckPacket then Ok AckPacket
  else if value =? as_u8 ExtendedPacket8 then Ok ExtendedPacket8
  else if value =? as_u8 ExtendedPacket16 then Ok ExtendedPacket16
  else if value =? as_u8 ExtendedPacket32 then Ok ExtendedPacket32
  else if value =? as_u8 OutfoxRegularPacket then Ok OutfoxRegularPacket
  else if value =? as_u8 OutfoxAckPacket then Ok OutfoxAckPacket
  else Err (UnknownPacketTag value).

Definition is_extended_size (p : t) : bool :=
  match p with
  | RegularPacket | AckPacket | OutfoxAckPacket | OutfoxRegularPacket => false
  | ExtendedPacket8 | ExtendedPacket16 | ExtendedPacket32 => true
  end.

Definition as_extended_size (p : t) : option t := if is_extended_size p then Some p else None.

Section Sizes.
Context `{SphinxSizes}.

Definition SPHINX_PACKET_OVERHEAD : Z := HEADER_SIZE + PAYLOAD_OVERHEAD_SIZE.
Definition ACK_PACKET_SIZE : Z := ACK_IV_SIZE + FRAG_ID_LEN + SPHINX_PACKET_OVERHEAD.
Definition REGULAR_PACKET_SIZE : Z := 2 * 1024 + SPHINX_PACKET_OVERHEAD.
Definition EXTENDED_PACKET_SIZE_8 : Z := 8 * 1024 + SPHINX_PACKET_OVERHEAD.
Definition EXTENDED_PACKET_SIZE_16 : Z := 16 * 1024 + SPHINX_PACKET_OVERHEAD.
Definition EXTENDED_PACKET_SIZE_32 : Z := 32 * 1024 + SPHINX_PACKET_OVERHEAD.
Definition OUTFOX_ACK_PACKET_SIZE : Z := MIN_PACKET_SIZE + OUTFOX_PACKET_OVERHEAD.
Definition OUTFOX_REGULAR_PACKET_SIZE : Z := 2 * 1024 + OUTFOX_PACKET_OVERHEAD.

Definition size (p : t) : Z :=
  match p with
  | RegularPacket => REGULAR_PACKET_SIZE
  | AckPacket => ACK_PACKET_SIZE
  | ExtendedPacket8 => EXTENDED_PACKET_SIZE_8
  | ExtendedPacket16 => EXTENDED_PACKET_SIZE_16
  | ExtendedPacket32 => EXTENDED_PACKET_SIZE_32
  | OutfoxRegularPacket => OUTFOX_REGULAR_PACKET_SIZE
  | OutfoxAckPacket => OUTFOX_ACK_PACKET_SIZE
  end.

Definition header_size (p : t) : Z :=
  match p with
  | RegularPacket | AckPacket | ExtendedPacket8 | ExtendedPacket16 | ExtendedPacket32 => HEADER_SIZE
  | OutfoxRegularPacket | OutfoxAckPacket => MIX_PARAMS_LEN
  end.

Definition payload_overhead (p : t) : Z :=
  match p with
  | RegularPacket | AckPacket | ExtendedPacket8 | ExtendedPacket16 | ExtendedPacket32 => PAYLOAD_OVERHEAD_SIZE
  | OutfoxRegularPacket | OutfoxAckPacket => OUTFOX_PACKET_OVERHEAD - MIX_PARAMS_LEN
  end.

Definition plaintext_size (p : t) : Z := size p - header_size p - payload_overhead p.

Definition payload_size (p : t) : Z := size p - header_size p.

(** [Ord]: by actual size. *)
Definition cmp (p q : t) : comparison := Z.compare (size p) (size q).

Definition get_type (n : Z) : outcome InvalidPacketSize t :=
  if size RegularPacket =? n then Ok RegularPacket
  else if size AckPacket =? n then Ok AckPacket
  else if size ExtendedPacket8 =? n then Ok ExtendedPacket8
  else if size ExtendedPacket16 =? n then Ok ExtendedPacket16
  else if size ExtendedPacket32 =? n then Ok ExtendedPacket32
  else if (size OutfoxRegularPacket =? n) || (size OutfoxRegularPacket =? n + 6) then Ok OutfoxRegularPacket
  else if size OutfoxAckPacket =? n then Ok OutfoxAckPacket
  else Err (UnknownPacketSize n).

Definition get_type_from_plaintext (plaintext_size : Z) (packet_type : PacketType.t) : outcome InvalidPacketSize t :=
  let overhead :=
    match packet_type with
    | PacketType.Mix | PacketType.Vpn => SPHINX_PACKET_OVERHEAD
    | PacketType.Outfox => OUTFOX_PACKET_OVERHEAD
    end in
  get_type (plaintext_size + overhead).

(** [From<PacketSize> for PacketType]. *)
Definition packet_type_of (p : t) : PacketType.t :=
  match p with
  | RegularPacket | AckPacket | ExtendedPacket32 | ExtendedPacket8 | ExtendedPacket16 => PacketType.Mix
  | OutfoxRegularPacket | OutfoxAckPacket => PacketType.Outfox
  end.

End Sizes.

End PacketSize.

(** ** Packet versions, [packet_version.rs] *)

Module PacketVersion.

Inductive t : Type := Legacy | Versioned (version : Z).

#[global] Instance t_eq_dec : EqDecision t.
Proof. solve_decision. Defined.

Definition new_legacy : t := Legacy.

Definition new_versioned (version : Z) : t := Versioned version.

Definition new (use_legacy : bool) : t :=
  if use_legacy then new_legacy else new_versioned CURRENT_PACKET_VERSION_NUMBER.

Definition is_legacy (v : t) : bool := match v with Legacy => true | Versioned _ => false end.

Definition as_u8 (v : t) : option Z := match v with Legacy => None | Versioned version => Some version end.

(** A tag of a size that existed before versions marks a packet without one. *)
Definition from (v : Z) : t :=
  if v =? PacketSize.as_u8 PacketSize.RegularPacket then Legacy
  else if v =? PacketSize.as_u8 PacketSize.AckPacket then Legacy
  else if v =? PacketSize.as_u8 PacketSize.ExtendedPacket8 then Legacy
  else if v =? PacketSize.as_u8 PacketSize.ExtendedPacket16 then Legacy
  else if v =? PacketSize.as_u8 PacketSize.ExtendedPacket32 then Legacy
  else Versioned v.

Definition default : t := Versioned CURRENT_PACKET_VERSION_NUMBER.

End PacketVersion.

(** ** Facts *)

(** The sizes can be told apart, which [get_type] relies on. *)
Class DistinctSizes `{SphinxSizes} : Prop := {
  header_size_nonneg : 0 <= HEADER_SIZE;
  payload_overhead_nonneg : 0 <= PAYLOAD_OVERHEAD_SIZE;
  sphinx_overhead_small : PacketSize.SPHINX_PACKET_OVERHEAD < 1024;
  sphinx_overhead_not_outfox :
    PacketSize.SPHINX_PACKET_OVERHEAD <> OUTFOX_PACKET_OVERHEAD
    /\ PacketSize.SPHINX_PACKET_OVERHEAD <> OUTFOX_PACKET_OVERHEAD - 6
    /\ ACK_IV_SIZE + FRAG_ID_LEN + PacketSize.SPHINX_PACKET_OVERHEAD <> MIN_PACKET_SIZE + OUTFOX_PACKET_OVERHEAD
}.

Lemma packet_type_tag p : p <> PacketType.Vpn -> PacketType.try_from (PacketType.as_u8 p) = Ok p.
Proof. by destruct p. Qed.

Lemma packet_size_tag p : PacketSize.try_from (PacketSize.as_u8 p) = Ok p.
Proof. by destruct p. Qed.

Lemma packet_size_name p : PacketSize.from_str (PacketSize.to_string p) = Ok p.
Proof. by destruct p. Qed.

Section SizeFacts.
Context `{SphinxSizes}.

Lemma outfox_overhead : OUTFOX_PACKET_OVERHEAD = 329.
Proof. done. Qed.

(** What a packet of each size has room for. *)
Lemma plaintext_size_value p :
  PacketSize.plaintext_size p =
    match p with
    | PacketSize.AckPacket => 21
    | PacketSize.RegularPacket | PacketSize.OutfoxRegularPacket => 2048
    | PacketSize.ExtendedPacket8 => 8192
    | PacketSize.ExtendedPacket16 => 16384
    | PacketSize.ExtendedPacket32 => 32768
    | PacketSize.OutfoxAckPacket => 48
    end.
Proof.
  unfold PacketSize.plaintext_size. destruct p; cbn [PacketSize.size PacketSize.header_size PacketSize.payload_overhead];
    unfold PacketSize.REGULAR_PACKET_SIZE, PacketSize.ACK_PACKET_SIZE, PacketSize.EXTENDED_PACKET_SIZE_8,
      PacketSize.EXTENDED_PACKET_SIZE_16, PacketSize.EXTENDED_PACKET_SIZE_32, PacketSize.OUTFOX_REGULAR_PACKET_SIZE,
      PacketSize.OUTFOX_ACK_PACKET_SIZE, PacketSize.SPHINX_PACKET_OVERHEAD, ACK_IV_SIZE, FRAG_ID_LEN, MIN_PACKET_SIZE; lia.
Qed.

Lemma size_value p :
  PacketSize.size p = PacketSize.plaintext_size p +
    match PacketSize.packet_type_of p with
    | PacketType.Outfox => OUTFOX_PACKET_OVERHEAD
    | _ => PacketSize.SPHINX_PACKET_OVERHEAD
    end.
Proof.
  unfold PacketSize.plaintext_size, PacketSize.SPHINX_PACKET_OVERHEAD.
  destruct p; cbn [PacketSize.packet_type_of PacketSize.header_size PacketSize.payload_overhead]; lia.
Qed.

(** The size of a packet determines its type. *)
Lemma get_type_size `{!DistinctSizes} p : PacketSize.get_type (PacketSize.size p) = Ok p.
Proof.
  pose proof header_size_nonneg as H1. pose proof payload_overhead_nonneg as H2. pose proof sphinx_overhead_small as H3.
  destruct sphinx_overhead_not_outfox as (H4 & H5 & H6). rewrite outfox_overhead in *.
  unfold PacketSize.SPHINX_PACKET_OVERHEAD, ACK_IV_SIZE, FRAG_ID_LEN, MIN_PACKET_SIZE in *.
  unfold PacketSize.get_type. rewrite !size_value, !plaintext_size_value. cbn [PacketSize.packet_type_of].
  rewrite outfox_overhead. unfold PacketSize.SPHINX_PACKET_OVERHEAD.
  destruct p; cbn [PacketSize.packet_type_of]; zcases; simpl; (done || lia).
Qed.

Lemma get_type_from_plaintext_size `{!DistinctSizes} p :
  PacketSize.get_type_from_plaintext (PacketSize.plaintext_size p) (PacketSize.packet_type_of p) = Ok p.
Proof.
  unfold PacketSize.get_type_from_plaintext.
  transitivity (PacketSize.get_type (PacketSize.size p)); [|apply get_type_size]. rewrite size_value. by destruct p.
Qed.

End SizeFacts.
