(* ===== verification/NymPackets.v ===== *)
(** * Packets on the wire

    Models [common/nymsphinx/types/src/lib.rs] (packets of either format),
    [forwarding/src/packet.rs] (a packet with its next hop) and [framing/src]
    (frames and their codec).  Random choices are arguments. *)

From Stdlib.Strings Require Import Byte.
From stdpp Require Import list.
From S2P Require Import Prelude Bytes Fragments Addressing Outfox PacketSizes.
#[local] Open Scope Z_scope.

(** [sphinx_packet::route::Destination]. *)
Record Destination : Type := mkDestination { destination_address : list byte; destination_identifier : list byte }.

(** [Recipient::as_sphinx_destination]. *)
Definition as_sphinx_destination (r : Recipient.t) : Destination :=
  mkDestination (Recipient.client_identity r) (replicate 16 x00).

(** [sphinx_packet::ProcessedPacket]. *)
Inductive ProcessedPacket (packet payload : Type) : Type :=
| SphinxForwardHop (p : packet) (address : list byte) (delay : Z)
| SphinxFinalHop (destination identifier : list byte) (p : payload).
Arguments SphinxForwardHop {packet payload} _ _ _.
Arguments SphinxFinalHop {packet payload} _ _ _.

(** The crate [sphinx-packet]. *)
Class SphinxApi `{SphinxSizes} := {
  SphinxPacket : Type;
  SphinxPayload : Type;
  SphinxError : Type;
  sphinx_build_packet :
    list byte -> Z -> list byte -> list Node -> Destination -> list Z -> outcome SphinxError SphinxPacket;
  sphinx_packet_from_bytes : list byte -> outcome SphinxError SphinxPacket;
  sphinx_packet_to_bytes : SphinxPacket -> list byte;
  sphinx_packet_len : SphinxPacket -> Z;
  sphinx_packet_process : SphinxPacket -> list byte -> outcome SphinxError (ProcessedPacket SphinxPacket SphinxPayload);
  sphinx_recover_plaintext : SphinxPayload -> outcome SphinxError (list byte)
}.

(** ** Packets of either format, [types/src/lib.rs] *)

Module NymPacket.

Section Packets.
Context `{SphinxApi} `{OutfoxCrypto}.

Inductive NymPacketError : Type :=
| SphinxPacketError (e : SphinxError)
| OutfoxPacketError (e : OutfoxError)
| FromSlice.

Inductive t : Type :=
| Sphinx (packet : SphinxPacket)
| Outfox (packet : OutfoxPacket.t).

(** [OutfoxProcessedPacket] has the packet and the next address. *)
Inductive NymProcessedPacket : Type :=
| ProcessedSphinx (packet : ProcessedPacket SphinxPacket SphinxPayload)
| ProcessedOutfox (packet : OutfoxPacket.t) (next_address : list byte).

Definition sphinx_build (entropy : list byte) (size : Z) (message : list byte) (route : list Node)
    (destination : Destination) (delays : list Z) : outcome NymPacketError t :=
  let? packet := map_err SphinxPacketError (sphinx_build_packet entropy size message route destination delays) in
  Ok (Sphinx packet).

Definition sphinx_from_bytes (bytes : list byte) : outcome NymPacketError t :=
  let? packet := map_err SphinxPacketError (sphinx_packet_from_bytes bytes) in
  Ok (Sphinx packet).

(** The route is converted to an array of four nodes. *)
Definition outfox_build (entropy : list byte) (payload : list byte) (route : list Node) (destination : Destination)
    (size : option Z) : outcome NymPacketError t :=
  if len route =? 4 then
    let? packet := map_err OutfoxPacketError
                     (OutfoxPacket.build entropy payload route (destination_address destination) size) in
    Ok (Outfox packet)
  else Err FromSlice.

Definition outfox_from_bytes (bytes : list byte) : outcome NymPacketError t :=
  let? packet := map_err OutfoxPacketError (OutfoxPacket.try_from bytes) in
  Ok (Outfox packet).

Definition length_of (p : t) : Z :=
  match p with Sphinx packet => sphinx_packet_len packet | Outfox packet => OutfoxPacket.length_of packet end.

Definition to_bytes (p : t) : list byte :=
  match p with Sphinx packet => sphinx_packet_to_bytes packet | Outfox packet => OutfoxPacket.to_bytes packet end.

Definition process (p : t) (node_secret_key : list byte) : outcome NymPacketError NymProcessedPacket :=
  match p with
  | Sphinx packet =>
      let? processed := map_err SphinxPacketError (sphinx_packet_process packet node_secret_key) in
      Ok (ProcessedSphinx processed)
  | Outfox packet =>
      let? (packet, next_address) := map_err OutfoxPacketError (OutfoxPacket.decode_next_layer packet node_secret_key) in
      Ok (ProcessedOutfox packet next_address)
  end.

(** The [match packet_type] by which received bytes become a packet. *)
Definition from_bytes (packet_type : PacketType.t) (bytes : list byte) : outcome NymPacketError t :=
  match packet_type with
  | PacketType.Outfox => outfox_from_bytes bytes
  | PacketType.Mix | PacketType.Vpn => sphinx_from_bytes bytes
  end.

End Packets.

End NymPacket.

(** ** Packets with a next hop, [forwarding/src/packet.rs] *)

Module MixPacket.

Section Forwarding.
Context `{SphinxApi} `{OutfoxCrypto}.

Inductive MixPacketFormattingError : Type :=
| MixInvalidPacketType
| MixInvalidPacketSize (received : Z)
| MixInvalidAddress
| MixPacketError (e : NymPacket.NymPacketError).

Record t : Type := new { next_hop : SocketAddr; packet : NymPacket.t; packet_type : PacketType.t }.

(** [packet_type || FIRST_HOP || packet]. *)
Definition try_from_bytes (b : list byte) : outcome MixPacketFormattingError t :=
  match b with
  | [] => Panic IndexOutOfBounds
  | tag :: rest =>
      let? packet_type := map_err (fun _ => MixInvalidPacketType) (PacketType.try_from (byte_to_Z tag)) in
      let? next_hop := map_err (fun _ => MixInvalidAddress) (NymNodeRoutingAddress.try_from_bytes rest) in
      let addr_offset := NymNodeRoutingAddress.bytes_min_len next_hop in
      let? packet_data := slice b (addr_offset + 1) (len b) in
      match PacketSize.get_type (len packet_data) with
      | Ok _ =>
          let? packet := map_err MixPacketError (NymPacket.from_bytes packet_type packet_data) in
          Ok (new next_hop packet packet_type)
      | _ => Err (MixInvalidPacketSize (len packet_data))
      end
  end.

Definition into_bytes (m : t) : list byte :=
  byte_of_Z (PacketType.as_u8 (packet_type m)) :: NymNodeRoutingAddress.as_bytes (next_hop m) ++ NymPacket.to_bytes (packet m).

End Forwarding.

End MixPacket.

(** ** Frames, [framing/src/packet.rs] *)

Section NymCodecErrors.
Context `{SphinxApi} `{OutfoxCrypto}.

Inductive NymCodecError : Type :=
| CodecInvalidPacketSize (e : InvalidPacketSize)
| CodecInvalidPacketType (e : InvalidPacketType)
| CodecNymPacket (e : NymPacket.NymPacketError).

End NymCodecErrors.

Module Header.

Record t : Type := mk { packet_version : PacketVersion.t; packet_size : PacketSize.t; packet_type : PacketType.t }.

Definition LEGACY_SIZE : Z := 2.
Definition VERSIONED_SIZE : Z := 3.

Definition outfox : t := mk PacketVersion.default PacketSize.OutfoxRegularPacket PacketType.Outfox.

Definition size (h : t) : Z := if PacketVersion.is_legacy (packet_version h) then LEGACY_SIZE else VERSIONED_SIZE.

Definition encode (h : t) (dst : list byte) : list byte :=
  dst ++ match PacketVersion.as_u8 (packet_version h) with Some version => [byte_of_Z version] | None => [] end
    ++ [byte_of_Z (PacketSize.as_u8 (packet_size h)); byte_of_Z (PacketType.as_u8 (packet_type h))].

Section Decoding.
Context `{SphinxApi} `{OutfoxCrypto}.

Definition decode_fields (packet_version : PacketVersion.t) (size_tag type_tag : byte) : outcome NymCodecError t :=
  let? packet_size := map_err CodecInvalidPacketSize (PacketSize.try_from (byte_to_Z size_tag)) in
  let? packet_type := map_err CodecInvalidPacketType (PacketType.try_from (byte_to_Z type_tag)) in
  Ok (mk packet_version packet_size packet_type).

(** [None] when there are too few bytes; the bytes are not consumed. *)
Definition decode (src : list byte) : outcome NymCodecError (option t) :=
  match src with
  | b0 :: b1 :: rest =>
      let packet_version := PacketVersion.from (byte_to_Z b0) in
      if PacketVersion.is_legacy packet_version then
        let? h := decode_fields packet_version b0 b1 in Ok (Some h)
      else
        match rest with
        | b2 :: _ => let? h := decode_fields packet_version b1 b2 in Ok (Some h)
        | [] => Ok None
        end
  | _ => Ok None
  end.

End Decoding.

End Header.

Module FramedNymPacket.

Section Frames.
Context `{SphinxApi} `{OutfoxCrypto}.

Record t : Type := mk { header : Header.t; packet : NymPacket.t }.

(** The [unwrap] panics for a packet of unknown length. *)
Definition new {E} (packet : NymPacket.t) (packet_type : PacketType.t) (use_legacy_version : bool) : outcome E t :=
  let? packet_size := unwrap (PacketSize.get_type (NymPacket.length_of packet)) in
  let use_legacy := if bool_decide (packet_type = PacketType.Outfox) then false else use_legacy_version in
  Ok (mk (Header.mk (PacketVersion.new use_legacy) packet_size packet_type) packet).

Definition packet_size (f : t) : PacketSize.t := Header.packet_size (header f).

Definition packet_type (f : t) : PacketType.t := Header.packet_type (header f).

Definition into_inner (f : t) : NymPacket.t := packet f.

End Frames.

End FramedNymPacket.

(** ** The codec, [framing/src/codec.rs] *)

Module NymCodec.

Section Codec.
Context `{SphinxApi} `{OutfoxCrypto}.

Definition encode (item : FramedNymPacket.t) (dst : list byte) : list byte :=
  Header.encode (FramedNymPacket.header item) dst ++ NymPacket.to_bytes (FramedNymPacket.packet item).

(** The frame, if the buffer holds one, and what is left of the buffer. *)
Definition decode (src : list byte) : outcome NymCodecError (option FramedNymPacket.t * list byte) :=
  match src with
  | [] => Ok (None, src)
  | _ =>
      let? decoded := Header.decode src in
      match decoded with
      | None => Ok (None, src)
      | Some header =>
          let packet_size := PacketSize.size (Header.packet_size header) in
          let frame_len := Header.size header + packet_size in
          if len src <? frame_len then Ok (None, src)
          else
            let rest := drop (Z.to_nat (Header.size header)) src in
            let packet_bytes := take (Z.to_nat packet_size) rest in
            let rest := drop (Z.to_nat packet_size) rest in
            let? packet := map_err CodecNymPacket (NymPacket.from_bytes (Header.packet_type header) packet_bytes) in
            Ok (Some (FramedNymPacket.mk header packet), rest)
      end
  end.

(** [tokio_util::codec::Framed] decodes frames as long as the buffer holds one.  Every frame consumes
    bytes, so the length of the buffer bounds the number of frames. *)
Fixpoint drain (fuel : nat) (buffer : list byte) : outcome NymCodecError (list FramedNymPacket.t * list byte) :=
  let? (item, rest) := decode buffer in
  match item, fuel with
  | None, _ => Ok ([], rest)
  | Some _, O => Panic Diverges
  | Some f, S fuel => let? (fs, rest) := drain fuel rest in Ok (f :: fs, rest)
  end.

(** Bytes arrive in pieces, each appended to the buffer. *)
Fixpoint read_stream (buffer : list byte) (pieces : list (list byte))
    : outcome NymCodecError (list FramedNymPacket.t * list byte) :=
  match pieces with
  | [] => Ok ([], buffer)
  | piece :: pieces =>
      let buffer := buffer ++ piece in
      let? (fs, buffer) := drain (length buffer) buffer in
      let? (gs, buffer) := read_stream buffer pieces in
      Ok (fs ++ gs, buffer)
  end.

End Codec.

End NymCodec.
