(* ===== verification/Topology.v ===== *)
(** * The topology of the network

    Models [common/topology/src]: the mix nodes by layer and the gateways, as
    clients see them, the routes drawn from them, and how the bonds of the
    mixnet contract become nodes.  A draw of the random number generator is a
    function from layers to numbers. *)

From Stdlib.Strings Require Import Byte String.
From stdpp Require Import gmap strings.
From S2P Require Import Prelude Bytes Paging Text IpText Addressing Cosmwasm MixnetTypes Outfox PacketSizes NymPackets.
#[local] Open Scope Z_scope.

Abbreviation MixLayer := Z (only parsing).

(** Versions of the crate [semver], and the resolution of host names. *)
Class TopologyApi := {
  Semver : Type;
  semver_parse : string -> option Semver;
  semver_to_string : Semver -> string;
  semver_major : Semver -> Z;
  semver_minor : Semver -> Z;
  resolve_host : string -> Z -> option (list SocketAddr)
}.

(** ** Addresses and versions, [lib.rs] *)

Inductive NetworkAddress : Type :=
| HostIp (addr : IpAddr)
| Hostname (name : string).

(** [SocketAddr::new]. *)
Definition socket_addr_new (addr : IpAddr) (port : Z) : SocketAddr :=
  match addr with V4 o => SocketAddrV4 o port | V6 o => SocketAddrV6 o port 0 0 end.

(** [FromStr] never fails: what is no address is a host name. *)
Definition parse_host (raw : string) : NetworkAddress :=
  match ip_from_str (chars raw) with Some ip_addr => HostIp ip_addr | None => Hostname raw end.

Section Nodes.
Context `{TopologyApi} `{KeyApi}.

Inductive NodeVersion : Type := Explicit (semver : Semver) | Unknown.

Definition version_to_string (v : NodeVersion) : string :=
  match v with Explicit semver => semver_to_string semver | Unknown => EmptyString end.

Definition version_from (value : string) : NodeVersion :=
  match semver_parse value with Some semver => Explicit semver | None => Unknown end.

Definition to_socket_addrs (a : NetworkAddress) (port : Z) : option (list SocketAddr) :=
  match a with
  | HostIp addr => Some [socket_addr_new addr port]
  | Hostname hostname => resolve_host hostname port
  end.

(** [version_checker::is_minor_version_compatible]. *)
Definition is_minor_version_compatible (version req : string) : bool :=
  match semver_parse version, semver_parse req with
  | Some expected_version, Some req_version =>
      (semver_major expected_version =? semver_major req_version) && (semver_minor expected_version =? semver_minor req_version)
  | _, _ => false
  end.

(** ** Nodes, [mix.rs] and [gateway.rs] *)

Inductive NodeConversionError : Type :=
| InvalidIdentityKey (e : Ed25519RecoveryError)
| InvalidSphinxKey (e : KeyRecoveryError)
| InvalidAddress (value : string).

Record MixNodeInfo : Type := mkMixNodeInfo {
  mix_node_id : MixId;
  mix_owner : string;
  mix_network_host : NetworkAddress;
  mix_host : SocketAddr;
  mix_identity_key : list byte;
  mix_sphinx_key : list byte;
  mix_layer : Layer;
  mix_version : NodeVersion
}.

Record GatewayInfo : Type := mkGatewayInfo {
  gateway_owner : string;
  gateway_network_host : NetworkAddress;
  gateway_mix_host : SocketAddr;
  gateway_clients_ws_port : Z;
  gateway_clients_wss_port : option Z;
  gateway_identity : list byte;
  gateway_sphinx_key : list byte;
  gateway_version : NodeVersion
}.

(** The index [0] panics when a name resolves to nothing. *)
Definition extract_mix_host (host : NetworkAddress) (raw : string) (mix_port : Z) : outcome NodeConversionError SocketAddr :=
  match to_socket_addrs host mix_port with
  | None => Err (InvalidAddress raw)
  | Some (addr :: _) => Ok addr
  | Some [] => Panic IndexOutOfBounds
  end.

(** [From<&Node> for SphinxNode], of a mix node and of a gateway. *)
Definition sphinx_node {E} (mix_host : SocketAddr) (sphinx_key : list byte) : outcome E Node :=
  let? node_address_bytes := unwrap (NymNodeRoutingAddress.try_into mix_host) in
  Ok (mkNode node_address_bytes sphinx_key).

Definition mix_node_try_from (bond : MixNodeBond.t) : outcome NodeConversionError MixNodeInfo :=
  let node := MixNodeBond.mix_node bond in
  let network_host := parse_host (host node) in
  let? resolved := extract_mix_host network_host (host node) (mix_port node) in
  let? identity := map_err InvalidIdentityKey (identity_from_base58_string (list_byte_of_string (identity_key node))) in
  let? sphinx := map_err InvalidSphinxKey (encryption_from_base58_string (list_byte_of_string (sphinx_key node))) in
  Ok (mkMixNodeInfo (MixNodeBond.mix_id bond) (MixNodeBond.owner bond) network_host resolved identity sphinx
        (MixNodeBond.layer bond) (version_from (version node))).

Definition gateway_try_from (bond : GatewayBond.t) : outcome NodeConversionError GatewayInfo :=
  let gateway := GatewayBond.gateway bond in
  let network_host := parse_host (gw_host gateway) in
  let? resolved := extract_mix_host network_host (gw_host gateway) (gw_mix_port gateway) in
  let? identity := map_err InvalidIdentityKey (identity_from_base58_string (list_byte_of_string (gw_identity_key gateway))) in
  let? sphinx := map_err InvalidSphinxKey (encryption_from_base58_string (list_byte_of_string (gw_sphinx_key gateway))) in
  Ok (mkGatewayInfo (GatewayBond.owner bond) network_host resolved (gw_clients_port gateway) None identity sphinx
        (version_from (gw_version gateway))).

End Nodes.

(** ** Errors, [error.rs] *)

Section NymTopologyErrors.
Context `{SphinxApi} `{OutfoxCrypto}.

Inductive NymTopologyError : Type :=
| EmptyNetworkTopology
| NoGatewaysAvailable
| NoMixnodesAvailable
| NonExistentGatewayError (identity_key : list byte)
| InvalidNumberOfHopsError (available requested : Z)
| EmptyMixLayer (layer : MixLayer)
| PayloadBuilder
| PacketError (e : NymPacket.NymPacketError).

End NymTopologyErrors.

(** ** Topologies, [lib.rs] *)

Module NymTopology.

Section Topologies.
Context `{SphinxApi} `{OutfoxCrypto} `{TopologyApi} `{KeyApi}.

Record t : Type := new { mixes : gmap MixLayer (list MixNodeInfo); gateways : list GatewayInfo }.

(** [entry(layer).or_insert_with(Vec::new).push(node)]. *)
Definition push_node (mixes : gmap MixLayer (list MixNodeInfo)) (layer : MixLayer) (node : MixNodeInfo)
    : gmap MixLayer (list MixNodeInfo) :=
  <[layer := default [] (mixes !! layer) ++ [node]]> mixes.

Definition new_unordered (unordered_mixes : list MixNodeInfo) (gateways : list GatewayInfo) : t :=
  new (foldl (fun mixes node => push_node mixes (layer_to_u8 (mix_layer node)) node) ∅ unordered_mixes) gateways.

(** [BTreeMap::values]. *)
Definition layers (net : t) : list (list MixNodeInfo) := (ascending (mixes net)).*2.

Definition find_mix (net : t) (mix_id : MixId) : option MixNodeInfo :=
  head (filter (fun node => mix_node_id node = mix_id) (concat (layers net))).

Definition find_mix_by_identity (net : t) (mixnode_identity : list byte) : option MixNodeInfo :=
  head (filter (fun node => base58_encode (mix_identity_key node) = mixnode_identity) (concat (layers net))).

Definition find_gateway (net : t) (gateway_identity' : list byte) : option GatewayInfo :=
  head (filter (fun gateway => base58_encode (gateway_identity gateway) = gateway_identity') (gateways net)).

Definition num_mixnodes (net : t) : Z := zsum (len <$> layers net).

Definition mixes_as_vec (net : t) : list MixNodeInfo := concat (layers net).

Definition mixes_in_layer (net : t) (layer : MixLayer) : outcome NymTopologyError (list MixNodeInfo) :=
  if bool_decide (layer ∈ [1; 2; 3]) then unwrap_opt (mixes net !! layer) else Panic ExplicitPanic.

Definition get_gateway (net : t) (identity : list byte) : option GatewayInfo :=
  head (filter (fun gateway => gateway_identity gateway = identity) (gateways net)).

Definition gateway_exists (net : t) (identity : list byte) : bool := bool_decide (is_Some (get_gateway net identity)).

Definition set_gateways (net : t) (gateways : list GatewayInfo) : t := new (mixes net) gateways.

Definition set_mixes_in_layer (net : t) (layer : MixLayer) (nodes : list MixNodeInfo) : t :=
  new (<[layer := nodes]> (mixes net)) (gateways net).

(** [SliceRandom::choose]: nothing only from an empty slice. *)
Definition choose {A} (l : list A) (draw : nat) : option A := l !! (draw mod length l)%nat.

Definition random_gateway (net : t) (draw : nat) : outcome NymTopologyError GatewayInfo :=
  match choose (gateways net) draw with Some gateway => Ok gateway | None => Err NoGatewaysAvailable end.

Definition random_mix (net : t) (draw : MixLayer -> nat) (layer : MixLayer) : outcome NymTopologyError Node :=
  match mixes net !! layer with
  | None => Err (EmptyMixLayer layer)
  | Some layer_mixes =>
      match choose layer_mixes (draw layer) with
      | None => Err (EmptyMixLayer layer)
      | Some random_mix => sphinx_node (mix_host random_mix) (mix_sphinx_key random_mix)
      end
  end.

Definition random_mix_route (net : t) (draw : MixLayer -> nat) (num_mix_hops : Z) : outcome NymTopologyError (list Node) :=
  if Z.of_nat (size (mixes net)) <? num_mix_hops
  then Err (InvalidNumberOfHopsError (Z.of_nat (size (mixes net))) num_mix_hops)
  else mapM_outcome (random_mix net draw) (zrange 1 (num_mix_hops + 1)).

Definition random_route_to_gateway (net : t) (draw : MixLayer -> nat) (num_mix_hops : Z) (identity : list byte)
    : outcome NymTopologyError (list Node) :=
  match get_gateway net identity with
  | None => Err (NonExistentGatewayError (base58_encode identity))
  | Some gateway =>
      let? route := random_mix_route net draw num_mix_hops in
      let? last_hop := sphinx_node (gateway_mix_host gateway) (gateway_sphinx_key gateway) in
      Ok (route ++ [last_hop])
  end.

(** The loop over the layers. *)
Fixpoint ensure_layers (mixnodes : gmap MixLayer (list MixNodeInfo)) (layers : list MixLayer) : outcome NymTopologyError unit :=
  match layers with
  | [] => Ok tt
  | layer :: layers =>
      match mixnodes !! layer with
      | None => Err (EmptyMixLayer layer)
      | Some layer_nodes => if len layer_nodes =? 0 then Err (EmptyMixLayer layer) else ensure_layers mixnodes layers
      end
  end.

Definition ensure_can_construct_path_through (net : t) (num_mix_hops : Z) : outcome NymTopologyError unit :=
  let mixnodes := mixes net in
  if bool_decide (mixnodes = ∅) && (len (gateways net) =? 0) then Err EmptyNetworkTopology
  else if bool_decide (mixnodes = ∅) then Err NoMixnodesAvailable
  else if len (gateways net) =? 0 then Err NoGatewaysAvailable
  else ensure_layers mixnodes (zrange 1 (num_mix_hops + 1)).

(** [filter.rs]: layers may become empty. *)
Definition filter_node_versions (net : t) (expected_mix_version : string) : t :=
  new (filter (fun node => is_minor_version_compatible (version_to_string (mix_version node)) expected_mix_version = true)
         <$> mixes net) (gateways net).

Definition filter_system_version (net : t) (expected_version : string) : t := filter_node_versions net expected_version.

(** ** From the contract's bonds *)

(** [nym_topology_from_detailed]; of the details of a mix node only [bond_information] is used.  The
    layer's entry is made before the bond is converted, and malformed nodes are left out. *)
Definition add_bond (acc : outcome NymTopologyError (gmap MixLayer (list MixNodeInfo))) (bond : MixNodeBond.t)
    : outcome NymTopologyError (gmap MixLayer (list MixNodeInfo)) :=
  let? mixes := acc in
  let layer := layer_to_u8 (MixNodeBond.layer bond) in
  if (layer =? 0) || (3 <? layer) then Ok mixes
  else
    let mixes := <[layer := default [] (mixes !! layer)]> mixes in
    match mix_node_try_from bond with
    | Ok mix => Ok (push_node mixes layer mix)
    | Err _ => Ok mixes
    | Panic p => Panic p
    end.

Definition add_gateway (acc : outcome NymTopologyError (list GatewayInfo)) (bond : GatewayBond.t)
    : outcome NymTopologyError (list GatewayInfo) :=
  let? gateways := acc in
  match gateway_try_from bond with
  | Ok gate => Ok (gateways ++ [gate])
  | Err _ => Ok gateways
  | Panic p => Panic p
  end.

Definition nym_topology_from_detailed (mix_bonds : list MixNodeBond.t) (gateway_bonds : list GatewayBond.t)
    : outcome NymTopologyError t :=
  let? mixes := foldl add_bond (Ok ∅) mix_bonds in
  let? gateways := foldl add_gateway (Ok []) gateway_bonds in
  Ok (new mixes gateways).

End Topologies.

End NymTopology.

(** ** Routing, [nymsphinx/routing/src/lib.rs] *)

(** [samples] are delays drawn by the crate [sphinx-packet] for the average. *)
Definition generate_hop_delays (average_packet_delay : Z) (samples : nat -> list Z) (num_hops : nat) : list Z :=
  if average_packet_delay =? 0 then replicate num_hops 0 else samples num_hops.

(** ** Facts *)

Section RouteFacts.
Context `{SphinxApi} `{OutfoxCrypto} `{TopologyApi} `{KeyApi}.
Implicit Types t : NymTopology.t.

(** The hosts of nodes are addresses, as their type says, and the keys of nodes have 32 bytes. *)
Definition mix_node_ok (n : MixNodeInfo) : Prop :=
  NymNodeRoutingAddress.valid (mix_host n) /\ len (mix_sphinx_key n) = 32.
Definition gateway_ok (n : GatewayInfo) : Prop :=
  NymNodeRoutingAddress.valid (gateway_mix_host n) /\ len (gateway_sphinx_key n) = 32.
Definition topology_ok t : Prop :=
  (forall layer nodes, NymTopology.mixes t !! layer = Some nodes -> Forall mix_node_ok nodes)
  /\ Forall gateway_ok (NymTopology.gateways t).

(** A packet that carries the address of [n]'s host. *)
Definition routes_to (n : Node) (host : SocketAddr) (key : list byte) : Prop :=
  NymNodeRoutingAddress.try_from_bytes (node_address n) = Ok (NymNodeRoutingAddress.routed host)
  /\ len (node_address n) = 32 /\ node_pub_key n = key.

Lemma sphinx_node_ok {E} host key :
  NymNodeRoutingAddress.valid host -> exists n, sphinx_node (E := E) host key = Ok n /\ routes_to n host key.
Proof.
  intros Hv. destruct (RoutingFacts.node_address_roundtrip host Hv) as (b & E1 & Hb & E2).
  exists (mkNode b key). unfold sphinx_node. rewrite E1. done.
Qed.

Lemma ensure_layers_ok mixnodes layers :
  NymTopology.ensure_layers mixnodes layers = Ok tt
  <-> forall l, l ∈ layers -> exists nodes, mixnodes !! l = Some nodes /\ nodes <> [].
Proof.
  induction layers as [|l layers IH]; simpl.
  { split; [intros _ l Hl; by apply not_elem_of_nil in Hl|done]. }
  destruct (mixnodes !! l) as [nodes|] eqn:E.
  - destruct nodes as [|n nodes]; simpl.
    + split; [done|]. intros Hall. destruct (Hall l) as (? & ? & ?); [constructor|]. congruence.
    + rewrite IH. split.
      * intros Hall l' [->|Hl']%elem_of_cons; [by exists (n :: nodes)|auto].
      * intros Hall l' Hl'. apply Hall. by constructor.
  - split; [done|]. intros Hall. destruct (Hall l) as (? & ? & ?); [constructor|]. congruence.
Qed.

Lemma choose_some {A} (l : list A) draw : l <> [] -> exists x, NymTopology.choose l draw = Some x /\ x ∈ l.
Proof.
  intros Hl. unfold NymTopology.choose.
  destruct (lookup_lt_is_Some_2 l (draw mod length l)) as [x Hx].
  { apply Nat.mod_upper_bound. by destruct l. }
  exists x. split; [done|]. by eapply list_elem_of_lookup_2.
Qed.

(** Layers that are present are as many as the numbers that name them. *)
Lemma layers_present (m : gmap Z (list MixNodeInfo)) n :
  (forall l, l ∈ zrange 1 (n + 1) -> is_Some (m !! l)) -> n <= Z.of_nat (size m).
Proof.
  intros Hall. destruct (decide (n <= 0)) as [|Hn]; [lia|].
  assert (list_to_set (zrange 1 (n + 1)) ⊆ dom m) as Hsub.
  { intros l Hl%elem_of_list_to_set. apply elem_of_dom. auto. }
  apply subseteq_size in Hsub. rewrite size_dom, size_list_to_set in Hsub.
  - pose proof (len_zrange 1 (n + 1)) as Hlen. unfold len in Hlen. lia.
  - apply NoDup_fmap_2; [intros ???; lia|apply NoDup_seq].
Qed.

Lemma route_exists t n draw g :
  topology_ok t -> NymTopology.ensure_can_construct_path_through t n = Ok tt ->
  NymTopology.get_gateway t (gateway_identity g) = Some g ->
  exists route last_hop, NymTopology.random_route_to_gateway t draw n (gateway_identity g) = Ok (route ++ [last_hop])
    /\ Forall2 (fun layer node => exists nodes m, NymTopology.mixes t !! layer = Some nodes /\ m ∈ nodes
                  /\ routes_to node (mix_host m) (mix_sphinx_key m)) (zrange 1 (n + 1)) route
    /\ routes_to last_hop (gateway_mix_host g) (gateway_sphinx_key g).
Proof.
  intros [Hmix Hgate] Hcheck Hg. unfold NymTopology.ensure_can_construct_path_through in Hcheck.
  repeat (match type of Hcheck with (if ?b then _ else _) = _ => destruct b; [done|] end).
  pose proof (proj1 (ensure_layers_ok _ _) Hcheck) as Hlayers.
  assert (forall l, l ∈ zrange 1 (n + 1) -> exists node, NymTopology.random_mix t draw l = Ok node
    /\ exists nodes m, NymTopology.mixes t !! l = Some nodes /\ m ∈ nodes /\ routes_to node (mix_host m) (mix_sphinx_key m)) as Hone.
  { intros l Hl. destruct (Hlayers l Hl) as (nodes & El & Hne). destruct (choose_some nodes (draw l) Hne) as (m & Em & Hm).
    pose proof (Hmix l nodes El) as Hall. rewrite Forall_forall in Hall. destruct (Hall m Hm) as [Hv _].
    destruct (sphinx_node_ok (E := NymTopologyError) (mix_host m) (mix_sphinx_key m) Hv) as (node & En & Hr).
    exists node. unfold NymTopology.random_mix. rewrite El, Em. eauto 8. }
  unfold NymTopology.random_route_to_gateway, NymTopology.random_mix_route. rewrite Hg.
  assert (n <= Z.of_nat (size (NymTopology.mixes t))) as Hsize.
  { apply layers_present. intros l Hl. destruct (Hlayers l Hl) as (nodes & -> & _). eauto. }
  destruct (Z.ltb_spec (Z.of_nat (size (NymTopology.mixes t))) n); [lia|].
  assert (exists route, mapM_outcome (NymTopology.random_mix t draw) (zrange 1 (n + 1)) = Ok route
    /\ Forall2 (fun layer node => exists nodes m, NymTopology.mixes t !! layer = Some nodes /\ m ∈ nodes
         /\ routes_to node (mix_host m) (mix_sphinx_key m)) (zrange 1 (n + 1)) route) as (route & -> & Hroute).
  { clear -Hone. induction (zrange 1 (n + 1)) as [|l ls IH]; [exists []; by split|].
    destruct (Hone l) as (node & En & Hnode); [constructor|].
    destruct IH as (route & Er & Hroute); [intros; apply Hone; by constructor|].
    exists (node :: route). simpl. rewrite En. simpl. rewrite Er. split; [done|by constructor]. }
  cbn [obind]. assert (gateway_ok g) as [Hv _].
  { rewrite Forall_forall in Hgate. apply Hgate. unfold NymTopology.get_gateway in Hg.
    apply head_Some_elem_of in Hg. by apply list_elem_of_filter in Hg as [_ Hg]. }
  destruct (sphinx_node_ok (E := NymTopologyError) (gateway_mix_host g) (gateway_sphinx_key g) Hv) as (last_hop & -> & Hlast).
  cbn [obind]. eauto.
Qed.

(** A topology that passes the check for paths of [n] hops gives a route for every draw: one node
    of each layer from the first to the [n]-th, in that order, and then the gateway asked for, each with
    the address and the key by which packets reach it. *)
Theorem checked_topology_has_routes t n draw g :
  topology_ok t -> NymTopology.ensure_can_construct_path_through t n = Ok tt ->
  NymTopology.get_gateway t (gateway_identity g) = Some g ->
  exists route last_hop, NymTopology.random_route_to_gateway t draw n (gateway_identity g) = Ok (route ++ [last_hop])
    /\ Forall2 (fun layer node => exists nodes m, NymTopology.mixes t !! layer = Some nodes /\ m ∈ nodes
                  /\ routes_to node (mix_host m) (mix_sphinx_key m)) (zrange 1 (n + 1)) route
    /\ routes_to last_hop (gateway_mix_host g) (gateway_sphinx_key g).
Proof. apply route_exists. Qed.

End RouteFacts.
