(* ===== verification/Processing.v ===== *)
(** * What nodes do with packets

    Models [common/nymsphinx/acknowledgements/src] (the acknowledgement that
    travels inside a packet), [common/crypto/src/symmetric/stream_cipher.rs] and
    [common/mixnode-common/src/packet_processor] (how a node unwraps a packet
    and finds out where it goes). *)

From Stdlib.Strings Require Import Byte.
From stdpp Require Import list.
From S2P Require Import Prelude Bytes Fragments Addressing Outfox PacketSizes NymPackets Topology.
#[local] Open Scope Z_scope.

(** The key stream of AES-128 in counter mode. *)
Class StreamCipher := { cipher_keystream : list byte -> list byte -> nat -> list byte }.

Class StreamCipherLaws `{StreamCipher} : Prop := {
  length_cipher_keystream k iv n : length (cipher_keystream k iv n) = n
}.

(** ** Acknowledgements, [acknowledgements/src] *)

Definition MAX_NODE_ADDRESS_UNPADDED_LEN : Z := 19.

(** [stream_cipher::encrypt] and [stream_cipher::decrypt]. *)
Section StreamCiphers.
Context `{StreamCipher}.

Definition stream_encrypt (key iv data : list byte) : list byte := xor_bytes data (cipher_keystream key iv (length data)).

Definition stream_decrypt (key iv ciphertext : list byte) : list byte :=
  xor_bytes ciphertext (cipher_keystream key iv (length ciphertext)).

Definition zero_iv : list byte := replicate 16 x00.

Definition iv_from_slice {E} (b : list byte) : outcome E (list byte) :=
  if len b =? ACK_IV_SIZE then Ok b else Panic ExplicitPanic.

(** [identifier.rs]; [iv] is random. *)
Definition prepare_identifier (iv key serialized_id : list byte) : list byte :=
  iv ++ stream_encrypt key iv serialized_id.

(** [copy_from_slice] panics when the lengths differ. *)
Definition recover_identifier {E} (key iv_id_ciphertext : list byte) : outcome E (option (list byte)) :=
  let? iv := slice iv_id_ciphertext 0 ACK_IV_SIZE in
  let? iv := iv_from_slice iv in
  let? ciphertext := slice iv_id_ciphertext ACK_IV_SIZE (len iv_id_ciphertext) in
  let id := stream_decrypt key iv ciphertext in
  if len id =? FRAG_ID_LEN then Ok (Some id) else Panic ExplicitPanic.

End StreamCiphers.

Module SurbAck.

Section Acks.
Context `{SphinxApi} `{OutfoxCrypto} `{TopologyApi} `{KeyApi} `{StreamCipher}.

Inductive SurbAckRecoveryError : Type :=
| AckInvalidAddress (e : NymNodeRoutingAddressError)
| AckNymPacket (e : NymPacket.NymPacketError).

Record t : Type := mk { surb_ack_packet : NymPacket.t; first_hop_address : SocketAddr; expected_total_delay : Z }.

(** [draw], [samples], [iv] and [entropy] are random. *)
Definition construct (draw : Z -> nat) (samples : nat -> list Z) (iv entropy : list byte) (recipient : Recipient.t)
    (ack_key marshaled_fragment_id : list byte) (average_delay : Z) (topology : NymTopology.t) (packet_type : PacketType.t)
    : outcome NymTopologyError t :=
  let? route := NymTopology.random_route_to_gateway topology draw DEFAULT_NUM_MIX_HOPS (Recipient.gateway recipient) in
  let delays := generate_hop_delays average_delay samples (length route) in
  let destination := as_sphinx_destination recipient in
  let surb_ack_payload := prepare_identifier iv ack_key marshaled_fragment_id in
  let packet_size :=
    match packet_type with
    | PacketType.Outfox => Z.max (len surb_ack_payload) MIN_PACKET_SIZE
    | PacketType.Mix | PacketType.Vpn => PacketSize.payload_size PacketSize.AckPacket
    end in
  let? surb_ack_packet := map_err PacketError
    match packet_type with
    | PacketType.Outfox => NymPacket.outfox_build entropy surb_ack_payload route destination (Some packet_size)
    | PacketType.Mix | PacketType.Vpn => NymPacket.sphinx_build entropy packet_size surb_ack_payload route destination delays
    end in
  let? last_delay := usize_sub (len delays) 1 in
  let expected_total_delay := zsum (take (Z.to_nat last_delay) delays) in
  let? first := unwrap_opt (head route) in
  let? first_hop_address := unwrap (NymNodeRoutingAddress.try_from_bytes (node_address first)) in
  Ok (mk surb_ack_packet first_hop_address expected_total_delay).

Definition length_of (packet_type : option PacketType.t) : Z :=
  match default PacketType.Mix packet_type with
  | PacketType.Outfox => PacketSize.size PacketSize.OutfoxAckPacket + MAX_NODE_ADDRESS_UNPADDED_LEN
  | PacketType.Mix | PacketType.Vpn => PacketSize.size PacketSize.AckPacket + MAX_NODE_ADDRESS_UNPADDED_LEN
  end.

Definition prepare_for_sending (a : t) : Z * list byte :=
  (expected_total_delay a,
   NymNodeRoutingAddress.as_zero_padded_bytes (first_hop_address a) MAX_NODE_ADDRESS_UNPADDED_LEN
     ++ NymPacket.to_bytes (surb_ack_packet a)).

Definition try_recover_first_hop_packet (b : list byte) (packet_type : PacketType.t)
    : outcome SurbAckRecoveryError (SocketAddr * NymPacket.t) :=
  let? address := map_err AckInvalidAddress (NymNodeRoutingAddress.try_from_bytes b) in
  let? rest := slice b MAX_NODE_ADDRESS_UNPADDED_LEN (len b) in
  let? packet := map_err AckNymPacket (NymPacket.from_bytes packet_type rest) in
  Ok (address, packet).

End Acks.

End SurbAck.

(** ** A node's processing, [packet_processor] *)

Module SphinxPacketProcessor.

Section Processing.
Context `{SphinxApi} `{OutfoxCrypto}.

Inductive MixProcessingError : Type :=
| NymPacketProcessingError (e : NymPacket.NymPacketError)
| SphinxProcessingError (e : SphinxError)
| InvalidForwardHopAddress (e : NymNodeRoutingAddressError)
| NoSurbAckInFinalHop
| MalformedSurbAck (e : SurbAck.SurbAckRecoveryError)
| OutfoxProcessingError (e : OutfoxError).

Record ProcessedFinalHop : Type := mkFinalHop {
  destination : list byte;
  forward_ack : option MixPacket.t;
  message : list byte
}.

Inductive MixProcessingResult : Type :=
| ForwardHop (packet : MixPacket.t) (delay : option Z)
| FinalHop (hop : ProcessedFinalHop).

Definition perform_initial_packet_processing (sphinx_key : list byte) (packet : NymPacket.t)
    : outcome MixProcessingError NymPacket.NymProcessedPacket :=
  map_err NymPacketProcessingError (NymPacket.process packet sphinx_key).

Definition perform_initial_unwrapping (sphinx_key : list byte) (received : FramedNymPacket.t)
    : outcome MixProcessingError NymPacket.NymProcessedPacket :=
  perform_initial_packet_processing sphinx_key (FramedNymPacket.into_inner received).

Definition process_forward_hop (packet : NymPacket.t) (forward_address : list byte) (delay : Z) (packet_type : PacketType.t)
    : outcome MixProcessingError MixProcessingResult :=
  let? next_hop_address := map_err InvalidForwardHopAddress (NymNodeRoutingAddress.try_from_bytes forward_address) in
  Ok (ForwardHop (MixPacket.new next_hop_address packet packet_type) (Some delay)).

Definition split_hop_data_into_ack_and_message (extracted_data : list byte) (packet_type : PacketType.t)
    : outcome MixProcessingError (list byte * list byte) :=
  let ack_len := SurbAck.length_of (Some packet_type) in
  if len extracted_data <? ack_len then Err NoSurbAckInFinalHop
  else Ok (take (Z.to_nat ack_len) extracted_data, drop (Z.to_nat ack_len) extracted_data).

Definition split_into_ack_and_message (data : list byte) (packet_size : PacketSize.t) (packet_type : PacketType.t)
    : outcome MixProcessingError (option MixPacket.t * list byte) :=
  match packet_size with
  | PacketSize.AckPacket | PacketSize.OutfoxAckPacket => Ok (None, data)
  | PacketSize.RegularPacket | PacketSize.ExtendedPacket8 | PacketSize.ExtendedPacket16
  | PacketSize.ExtendedPacket32 | PacketSize.OutfoxRegularPacket =>
      let? (ack_data, message) := split_hop_data_into_ack_and_message data packet_type in
      let? (ack_first_hop, ack_packet) :=
        map_err MalformedSurbAck (SurbAck.try_recover_first_hop_packet ack_data packet_type) in
      Ok (Some (MixPacket.new ack_first_hop ack_packet packet_type), message)
  end.

Definition process_final_hop (destination payload : list byte) (packet_size : PacketSize.t) (packet_type : PacketType.t)
    : outcome MixProcessingError MixProcessingResult :=
  let? (forward_ack, message) := split_into_ack_and_message payload packet_size packet_type in
  Ok (FinalHop (mkFinalHop destination forward_ack message)).

Definition perform_final_processing (packet : NymPacket.NymProcessedPacket) (packet_size : PacketSize.t)
    (packet_type : PacketType.t) : outcome MixProcessingError MixProcessingResult :=
  match packet with
  | NymPacket.ProcessedSphinx (SphinxForwardHop packet address delay) =>
      process_forward_hop (NymPacket.Sphinx packet) address delay packet_type
  | NymPacket.ProcessedSphinx (SphinxFinalHop destination _ payload) =>
      let? payload := map_err SphinxProcessingError (sphinx_recover_plaintext payload) in
      process_final_hop destination payload packet_size packet_type
  | NymPacket.ProcessedOutfox packet next_address =>
      if OutfoxPacket.is_final_hop packet then
        let? payload := map_err OutfoxProcessingError (OutfoxPacket.recover_plaintext packet) in
        process_final_hop next_address payload packet_size packet_type
      else
        let? next_hop := map_err InvalidForwardHopAddress (NymNodeRoutingAddress.try_from_bytes next_address) in
        Ok (ForwardHop (MixPacket.new next_hop (NymPacket.Outfox packet) PacketType.Outfox) None)
  end.

Definition process_received (sphinx_key : list byte) (received : FramedNymPacket.t)
    : outcome MixProcessingError MixProcessingResult :=
  let packet_size := FramedNymPacket.packet_size received in
  let packet_type := FramedNymPacket.packet_type received in
  let? processed_packet := perform_initial_unwrapping sphinx_key received in
  perform_final_processing processed_packet packet_size packet_type.

End Processing.

End SphinxPacketProcessor.
