(* ===== verification/PacketFacts.v ===== *)
(** * Frames survive the stream

    Headers, frames and packets with a next hop are read back from their
    bytes, and a connection that delivers its bytes in pieces of any size
    delivers the frames that were sent. *)

From Stdlib.Strings Require Import Byte.
From stdpp Require Import list.
From S2P Require Import Prelude Bytes Addressing Outfox PacketSizes NymPackets.
#[local] Open Scope Z_scope.

Section Facts.
Context `{SphinxApi} `{OutfoxCrypto}.

(** ** Headers *)

(** A header that can be told apart from one without a version. *)
Definition header_ok (h : Header.t) : Prop :=
  Header.packet_type h <> PacketType.Vpn /\
  match Header.packet_version h with
  | PacketVersion.Legacy => PacketVersion.from (PacketSize.as_u8 (Header.packet_size h)) = PacketVersion.Legacy
  | PacketVersion.Versioned v => 0 <= v < 256 /\ PacketVersion.from v = PacketVersion.Versioned v
  end.

Lemma size_tag_byte p : byte_to_Z (byte_of_Z (PacketSize.as_u8 p)) = PacketSize.as_u8 p.
Proof. by destruct p. Qed.

Lemma type_tag_byte p : byte_to_Z (byte_of_Z (PacketType.as_u8 p)) = PacketType.as_u8 p.
Proof. by destruct p. Qed.

Lemma decode_fields_ok h :
  header_ok h ->
  Header.decode_fields (Header.packet_version h) (byte_of_Z (PacketSize.as_u8 (Header.packet_size h)))
    (byte_of_Z (PacketType.as_u8 (Header.packet_type h))) = Ok h.
Proof.
  intros [Hv _]. unfold Header.decode_fields. rewrite size_tag_byte, type_tag_byte, packet_size_tag. cbn [map_err obind].
  rewrite packet_type_tag by done. by destruct h.
Qed.

Lemma header_decode_encode h rest : header_ok h -> Header.decode (Header.encode h [] ++ rest) = Ok (Some h).
Proof.
  intros Hok. pose proof (decode_fields_ok h Hok) as E. destruct Hok as [_ Hv]. unfold Header.encode, Header.decode.
  destruct (Header.packet_version h) as [|v]; cbn [PacketVersion.as_u8 app].
  - rewrite size_tag_byte, Hv. cbn [PacketVersion.is_legacy]. by rewrite E.
  - destruct Hv as [Hv1 Hv2]. rewrite byte_to_of_Z, Z.mod_small, Hv2 by done. cbn [PacketVersion.is_legacy]. by rewrite E.
Qed.

Lemma len_header_encode h : len (Header.encode h []) = Header.size h.
Proof. unfold Header.encode, Header.size. by destruct (Header.packet_version h). Qed.

(** With some bytes of a header there is no error, and no other header. *)
Lemma header_decode_prefix h pre suf :
  header_ok h -> Header.encode h [] = pre ++ suf -> suf <> [] -> Header.decode pre = Ok None.
Proof.
  intros Hok E Hsuf. destruct Hok as [_ Hv]. unfold Header.encode in E. cbn [app] in E.
  destruct (Header.packet_version h) as [|v]; cbn [PacketVersion.as_u8 app] in E.
  - destruct pre as [|b0 [|b1 pre]]; [done..|]. injection E as _ _ E. symmetry in E. apply app_nil in E as [_ ->]. done.
  - destruct pre as [|b0 [|b1 [|b2 pre]]]; [done..| |].
    + destruct Hv as [Hv1 Hv2]. injection E as <- _. simpl. by rewrite byte_to_of_Z, Z.mod_small, Hv2.
    + injection E as _ _ _ E. symmetry in E. apply app_nil in E as [_ ->]. done.
Qed.

(** ** Frames *)

(** A frame whose packet has the announced size and can be read back. *)
Record frame_ok (f : FramedNymPacket.t) : Prop := {
  frame_header : header_ok (FramedNymPacket.header f);
  frame_size : len (NymPacket.to_bytes (FramedNymPacket.packet f)) = PacketSize.size (FramedNymPacket.packet_size f);
  frame_packet : NymPacket.from_bytes (FramedNymPacket.packet_type f) (NymPacket.to_bytes (FramedNymPacket.packet f))
                 = Ok (FramedNymPacket.packet f)
}.

Definition frame_bytes (f : FramedNymPacket.t) : list byte := NymCodec.encode f [].

Lemma frame_bytes_nonempty f : frame_bytes f <> [].
Proof. unfold frame_bytes, NymCodec.encode, Header.encode. by destruct (PacketVersion.as_u8 _). Qed.

Lemma codec_decode_nonempty src h :
  src <> [] -> Header.decode src = Ok (Some h) ->
  NymCodec.decode src =
    let packet_size := PacketSize.size (Header.packet_size h) in
    if len src <? Header.size h + packet_size then Ok (None, src)
    else
      let rest := drop (Z.to_nat (Header.size h)) src in
      let? packet := map_err CodecNymPacket
                       (NymPacket.from_bytes (Header.packet_type h) (take (Z.to_nat packet_size) rest)) in
      Ok (Some (FramedNymPacket.mk h packet), drop (Z.to_nat packet_size) rest).
Proof. intros Hne E. unfold NymCodec.decode. destruct src; [done|]. by rewrite E. Qed.

Lemma codec_decode_encode f rest : frame_ok f -> NymCodec.decode (frame_bytes f ++ rest) = Ok (Some f, rest).
Proof.
  intros [Hh Hs Hp]. destruct f as [h p]. unfold FramedNymPacket.packet_size, FramedNymPacket.packet_type in *.
  cbn [FramedNymPacket.header FramedNymPacket.packet] in *.
  unfold frame_bytes, NymCodec.encode. cbn [FramedNymPacket.header FramedNymPacket.packet].
  pose proof (len_header_encode h) as Hl. pose proof (len_nonneg rest).
  rewrite <- app_assoc, (codec_decode_nonempty _ h); [| |by apply header_decode_encode].
  - cbn zeta. destruct (Z.ltb_spec (len (Header.encode h [] ++ NymPacket.to_bytes p ++ rest))
      (Header.size h + PacketSize.size (Header.packet_size h))); [autorewrite with len in *; lia|].
    rewrite drop_app_length' by (unfold len in Hl; lia).
    rewrite take_app_length', drop_app_length' by (unfold len in Hs; lia). by rewrite Hp.
  - unfold Header.encode. by destruct (PacketVersion.as_u8 _).
Qed.

(** With some bytes of a frame the decoder waits for the rest. *)
Lemma codec_decode_prefix f pre suf :
  frame_ok f -> frame_bytes f = pre ++ suf -> suf <> [] -> NymCodec.decode pre = Ok (None, pre).
Proof.
  intros [Hh Hs Hp] E Hsuf. destruct pre as [|b pre]; [done|]. set (src := b :: pre) in *.
  assert (len (frame_bytes f) = Header.size (FramedNymPacket.header f) + PacketSize.size (FramedNymPacket.packet_size f)) as Hl.
  { unfold frame_bytes, NymCodec.encode. rewrite len_app, len_header_encode, Hs. done. }
  unfold frame_bytes, NymCodec.encode in E.
  destruct (app_eq_inv _ _ _ _ E) as [(k & E1 & _)|(k & E1 & E2)].
  - destruct k as [|c k].
    + rewrite app_nil_r in E1. rewrite <- E1 in *. rewrite (codec_decode_nonempty _ (FramedNymPacket.header f)).
      * cbn zeta. destruct (Z.ltb_spec (len (Header.encode (FramedNymPacket.header f) []))
          (Header.size (FramedNymPacket.header f) + PacketSize.size (Header.packet_size (FramedNymPacket.header f)))); [done|].
        exfalso. unfold frame_bytes, NymCodec.encode in Hl. rewrite E in Hl. autorewrite with len in *.
        unfold FramedNymPacket.packet_size in *. assert (0 < len suf); [|lia]. destruct suf; [done|]. autorewrite with len. pose proof (len_nonneg suf). lia.
      * unfold src in *. by rewrite E1.
      * rewrite <- (app_nil_r (Header.encode _ _)). by apply header_decode_encode.
    + assert (Header.decode src = Ok None) as En by (by eapply (header_decode_prefix _ src (c :: k))).
      unfold NymCodec.decode. unfold src at 1. by rewrite En.
  - rewrite (codec_decode_nonempty _ (FramedNymPacket.header f)); [|done|rewrite E1; by apply header_decode_encode].
    cbn zeta. destruct (Z.ltb_spec (len src)
      (Header.size (FramedNymPacket.header f) + PacketSize.size (Header.packet_size (FramedNymPacket.header f)))); [done|].
    exfalso. unfold frame_bytes, NymCodec.encode in Hl. rewrite E in Hl. autorewrite with len in *.
    unfold FramedNymPacket.packet_size in *. destruct suf; [done|]. autorewrite with len in Hl. pose proof (len_nonneg suf). lia.
Qed.

(** ** Streams *)

(** What is left of the frames [fs] after the bytes before [p]: [p] is the beginning of the first. *)
Definition incomplete (p : list byte) (fs : list FramedNymPacket.t) : Prop :=
  match fs with [] => p = [] | f :: _ => exists suf, frame_bytes f = p ++ suf /\ suf <> [] end.

Lemma split_stream fs l r :
  l ++ r = concat (frame_bytes <$> fs) ->
  exists fs1 fs2 p, fs = fs1 ++ fs2 /\ l = concat (frame_bytes <$> fs1) ++ p /\ p ++ r = concat (frame_bytes <$> fs2)
    /\ incomplete p fs2.
Proof.
  revert l. induction fs as [|f fs IH]; intros l E; simpl in E.
  { apply app_nil in E as [-> ->]. by exists [], [], []. }
  destruct (app_eq_inv _ _ _ _ E) as [(k & E1 & E2)|(k & E1 & E2)].
  - destruct (IH k ltac:(done)) as (fs1 & fs2 & p & -> & -> & Ep & Hp).
    exists (f :: fs1), fs2, p. split; [done|]. split; [|done]. subst l. simpl. by rewrite app_assoc.
  - destruct k as [|c k].
    + rewrite app_nil_r in E1. subst l. exists [f], fs, []. simpl. rewrite app_nil_r, app_nil_r. split; [done|]. split; [done|].
      split; [done|]. destruct fs as [|g fs]; [done|]. exists (frame_bytes g). split; [done|]. apply frame_bytes_nonempty.
    + exists [], (f :: fs), l. split; [done|]. split; [done|]. split; [done|]. exists (c :: k). done.
Qed.

Lemma incomplete_decode p fs : Forall frame_ok fs -> incomplete p fs -> NymCodec.decode p = Ok (None, p).
Proof.
  intros Hok Hp. destruct fs as [|f fs]; [by rewrite Hp|]. destruct Hp as (suf & E & Hsuf).
  apply Forall_cons in Hok as [Hf _]. by eapply codec_decode_prefix.
Qed.

Lemma drain_frames fuel fs p gs :
  Forall frame_ok fs -> Forall frame_ok gs -> incomplete p gs -> (length fs <= fuel)%nat ->
  NymCodec.drain fuel (concat (frame_bytes <$> fs) ++ p) = Ok (fs, p).
Proof.
  intros Hfs Hgs Hp. revert fuel. induction Hfs as [|f fs Hf Hfs IH]; intros fuel Hfuel.
  - simpl. destruct fuel; simpl; by rewrite (incomplete_decode p gs).
  - destruct fuel as [|fuel]; [simpl in Hfuel; lia|].
    cbn [fmap list_fmap concat]. rewrite <- app_assoc. cbn [NymCodec.drain]. rewrite codec_decode_encode by done.
    cbn [obind]. rewrite IH by (simpl in Hfuel; lia). done.
Qed.

Lemma length_frames fs : (length fs <= length (concat (frame_bytes <$> fs)))%nat.
Proof.
  induction fs as [|f fs IH]; [done|]. rewrite fmap_cons. cbn [concat length]. rewrite length_app.
  pose proof (frame_bytes_nonempty f). destruct (frame_bytes f); [done|]. cbn [length]. lia.
Qed.

Lemma read_stream_frames pieces buffer fs :
  Forall frame_ok fs -> incomplete buffer fs -> buffer ++ concat pieces = concat (frame_bytes <$> fs) ->
  NymCodec.read_stream buffer pieces = Ok (fs, []).
Proof.
  revert buffer fs. induction pieces as [|piece pieces IH]; intros buffer fs Hok Hinc E.
  - cbn [concat] in E. rewrite app_nil_r in E. destruct fs as [|f fs]; [by rewrite Hinc|].
    destruct Hinc as (suf & Ef & Hsuf). exfalso. simpl in E. rewrite Ef in E.
    rewrite <- (app_nil_r buffer) in E at 1. rewrite <- app_assoc in E. apply app_inv_head in E.
    symmetry in E. apply app_nil in E as [-> _]. done.
  - simpl in E. rewrite app_assoc in E. destruct (split_stream fs _ _ E) as (fs1 & fs2 & p & -> & El & Ep & Hp).
    apply Forall_app in Hok as [Hok1 Hok2]. cbn [NymCodec.read_stream]. rewrite El.
    rewrite (drain_frames _ fs1 p fs2) by (try done; rewrite length_app; pose proof (length_frames fs1); lia).
    cbn [obind]. by rewrite (IH p fs2).
Qed.

(** The frames that one node sends are the frames that the next one receives: whatever pieces a
    connection delivers their bytes in, the decoder yields these frames, in order, and leaves nothing in
    the buffer. *)
Theorem frames_survive_any_pieces fs pieces :
  Forall frame_ok fs -> concat pieces = concat (frame_bytes <$> fs) ->
  NymCodec.read_stream [] pieces = Ok (fs, []).
Proof.
  intros Hok E. apply read_stream_frames; [done| |done]. destruct fs as [|f fs]; [done|].
  exists (frame_bytes f). split; [done|]. apply frame_bytes_nonempty.
Qed.

(** ** Packets with a next hop *)

Lemma mix_packet_roundtrip m :
  NymNodeRoutingAddress.valid (MixPacket.next_hop m) -> NymNodeRoutingAddress.routed (MixPacket.next_hop m) = MixPacket.next_hop m ->
  MixPacket.packet_type m <> PacketType.Vpn ->
  (exists size, PacketSize.get_type (len (NymPacket.to_bytes (MixPacket.packet m))) = Ok size) ->
  NymPacket.from_bytes (MixPacket.packet_type m) (NymPacket.to_bytes (MixPacket.packet m)) = Ok (MixPacket.packet m) ->
  MixPacket.try_from_bytes (MixPacket.into_bytes m) = Ok m.
Proof.
  intros Hv Hr Ht (size & Hsize) Hp. destruct m as [hop p ty]. cbn [MixPacket.next_hop MixPacket.packet MixPacket.packet_type] in *.
  unfold MixPacket.into_bytes, MixPacket.try_from_bytes. cbn [MixPacket.next_hop MixPacket.packet MixPacket.packet_type].
  rewrite type_tag_byte, packet_type_tag by done. cbn [map_err obind].
  rewrite RoutingFacts.as_bytes_roundtrip, Hr by done. cbn [map_err obind].
  set (tag := byte_of_Z _). pose proof (RoutingFacts.len_as_bytes hop Hv) as Hl.
  assert (slice (tag :: NymNodeRoutingAddress.as_bytes hop ++ NymPacket.to_bytes p)
    (NymNodeRoutingAddress.bytes_min_len hop + 1) (len (tag :: NymNodeRoutingAddress.as_bytes hop ++ NymPacket.to_bytes p))
    = Ok (E := MixPacket.MixPacketFormattingError) (NymPacket.to_bytes p)) as ->.
  { change (tag :: ?a ++ ?b) with ((tag :: a) ++ b).
    replace (NymNodeRoutingAddress.bytes_min_len hop + 1) with (len (tag :: NymNodeRoutingAddress.as_bytes hop)); [apply slice_from|].
    autorewrite with len. lia. }
  cbn [obind]. by rewrite Hsize, Hp.
Qed.

End Facts.
