(* ===== verification/Transport.v ===== *)
(** * Packets travel the network

    What the layers above rely on: a packet built for a route is forwarded by
    its nodes, each of which receives the frame that the one before it sent,
    and its payload comes out at the gateway.  [Transport] states this of a
    packet format; Outfox implements it, and the documented behaviour of the
    crate [sphinx-packet] does. *)

From Stdlib.Strings Require Import Byte.
From stdpp Require Import list.
From S2P Require Import Prelude Bytes Fragments Addressing Outfox OutfoxFacts PacketSizes NymPackets PacketFacts Topology Processing.
#[local] Open Scope Z_scope.

Import SphinxPacketProcessor.

Section Network.
Context `{SphinxApi} `{OutfoxCrypto}.

(** ** Nodes in a row *)

Inductive RelayError : Type :=
| RelayCodec (e : NymCodecError)
| RelayProcessing (e : MixProcessingError)
| RelayIncomplete
| RelayUnreachable
| RelayTooLong.

(** A packet on its way: it is framed and sent to the node that listens at its next hop, which decodes
    and processes it with its key, and sends on what it gets, until one of the nodes is the last hop.
    [use_legacy] is the configuration of the sender of each frame, by the number of hops left. *)
Fixpoint deliver (hops : nat) (network : SocketAddr -> option (list byte)) (use_legacy : nat -> bool) (m : MixPacket.t)
    : outcome RelayError ProcessedFinalHop :=
  let? sent := FramedNymPacket.new (MixPacket.packet m) (MixPacket.packet_type m) (use_legacy hops) in
  match network (MixPacket.next_hop m) with
  | None => Err RelayUnreachable
  | Some key =>
      let? (received, _) := map_err RelayCodec (NymCodec.decode (NymCodec.encode sent [])) in
      match received with
      | None => Err RelayIncomplete
      | Some received =>
          let? result := map_err RelayProcessing (process_received key received) in
          match result, hops with
          | FinalHop hop, _ => Ok hop
          | ForwardHop _ _, O => Err RelayTooLong
          | ForwardHop m _, S hops => deliver hops network use_legacy m
          end
      end
  end.

(** ** What a format promises *)

Record packet_ok (ty : PacketType.t) (size : PacketSize.t) (p : NymPacket.t) : Prop := {
  packet_bytes_len : len (NymPacket.to_bytes p) = PacketSize.size size;
  packet_len : NymPacket.length_of p = PacketSize.size size;
  packet_read_back : NymPacket.from_bytes ty (NymPacket.to_bytes p) = Ok p
}.

(** The packet [p] takes [payload] to [destination] by way of the holders of the keys. *)
Inductive carries (ty : PacketType.t) (size : PacketSize.t) (destination payload : list byte)
    : NymPacket.t -> list (list byte) -> list SocketAddr -> Prop :=
| carries_final p key :
    packet_ok ty size p ->
    (forall h, Header.packet_size h = size -> Header.packet_type h = ty ->
      process_received key (FramedNymPacket.mk h p) = process_final_hop destination payload size ty) ->
    carries ty size destination payload p [key] []
| carries_forward p key keys p' address addresses delay :
    packet_ok ty size p ->
    (forall h, Header.packet_size h = size -> Header.packet_type h = ty ->
      process_received key (FramedNymPacket.mk h p) = Ok (ForwardHop (MixPacket.new address p' ty) delay)) ->
    carries ty size destination payload p' keys addresses ->
    carries ty size destination payload p (key :: keys) (address :: addresses).

(** The packet of a size, with the constructor of its format. *)
Definition build_packet (ty : PacketType.t) (entropy : list byte) (size : PacketSize.t) (payload : list byte) (route : list Node)
    (destination : Destination) (delays : list Z) : outcome NymPacket.NymPacketError NymPacket.t :=
  match ty with
  | PacketType.Outfox => NymPacket.outfox_build entropy payload route destination (Some (PacketSize.plaintext_size size))
  | PacketType.Mix | PacketType.Vpn =>
      NymPacket.sphinx_build entropy (PacketSize.payload_size size) payload route destination delays
  end.

(** The nodes of a route, with their hosts and secret keys. *)
Definition route_ok (route : list Node) (hosts : list SocketAddr) (keys : list (list byte)) : Prop :=
  Forall2 (fun node hk => routes_to node hk.1 (public_of hk.2) /\ len hk.2 = 32) route (zip hosts keys)
  /\ length hosts = length keys.

Class Transport (ty : PacketType.t) : Prop := {
  transport_type : ty <> PacketType.Vpn;
  transport_carries entropy size payload route hosts keys destination delays :
    PacketSize.packet_type_of size = ty -> len entropy = 32 -> len (destination_address destination) = 32 ->
    route_ok route hosts keys -> length route = 4%nat -> length delays = 4%nat ->
    len payload <= PacketSize.plaintext_size size ->
    exists p, build_packet ty entropy size payload route destination delays = Ok p
      /\ carries ty size (destination_address destination) payload p keys (NymNodeRoutingAddress.routed <$> tail hosts)
}.

(** ** Relaying *)

Lemma new_frame_ok `{!DistinctSizes} {E} ty size p use_legacy :
  packet_ok ty size p -> PacketSize.packet_type_of size = ty -> ty <> PacketType.Vpn ->
  exists f, FramedNymPacket.new (E := E) p ty use_legacy = Ok f /\ frame_ok f /\ FramedNymPacket.packet f = p
    /\ FramedNymPacket.packet_size f = size /\ FramedNymPacket.packet_type f = ty.
Proof.
  intros [Hb Hl Hr] Hs Hty. unfold FramedNymPacket.new. rewrite Hl, get_type_size. cbn [unwrap obind].
  eexists. split; [done|]. split; [split; [split; [done|]|done|done]|done]. simpl.
  destruct ty; [|done|done]. rewrite bool_decide_eq_false_2 by done. destruct use_legacy; [|done]. by destruct size.
Qed.

Lemma deliver_carries `{!DistinctSizes} ty size destination payload p keys addresses first hops network use_legacy hop :
  carries ty size destination payload p keys addresses ->
  PacketSize.packet_type_of size = ty -> ty <> PacketType.Vpn ->
  Forall2 (fun a k => network a = Some k) (first :: addresses) keys -> (length addresses <= hops)%nat ->
  process_final_hop destination payload size ty = Ok (FinalHop hop) ->
  deliver hops network use_legacy (MixPacket.new first p ty) = Ok hop.
Proof.
  intros Hc Hs Hty. revert first hops. induction Hc as [p key Hok Hp|p key keys p' address addresses delay Hok Hp Hc IH];
    intros first hops Hn Hhops Hfinal; apply Forall2_cons in Hn as [Hk Hn]; destruct hops as [|hops]; try (simpl in Hhops; lia);
    cbn [deliver MixPacket.packet MixPacket.packet_type MixPacket.next_hop]; rewrite Hk;
    (match goal with |- context [FramedNymPacket.new p ty ?u] =>
       destruct (new_frame_ok (E := RelayError) ty size p u Hok Hs Hty) as (f & -> & Hf & E1 & E2 & E3) end);
    cbn [obind]; rewrite <- (app_nil_r (NymCodec.encode f [])); fold (frame_bytes f);
    rewrite codec_decode_encode by done; cbn [map_err obind]; destruct f as [h q]; simpl in E1; subst q;
    rewrite (Hp h E2 E3); [by rewrite Hfinal|by rewrite Hfinal|].
  cbn [map_err obind]. apply IH; [done|simpl in Hhops; lia|done].
Qed.

(** ** Outfox *)

Section Outfox.
Context `{!OutfoxCryptoLaws}.

Lemma in_transit_packet_ok sk core hops p size :
  in_transit sk core hops p -> len core + 326 = PacketSize.size size -> len core < 2 ^ 16 ->
  packet_ok PacketType.Outfox size (NymPacket.Outfox p).
Proof.
  intros T Hs Hc. destruct (in_transit_bytes _ _ _ _ T Hc) as [E1 E2]. split; simpl.
  - lia.
  - destruct T as (E & _). unfold OutfoxPacket.length_of. rewrite E. unfold MixCreationParameters.total_packet_length. simpl.
    unfold GROUPELEMENTBYTES, TAGBYTES, DEFAULT_ROUTING_INFO_SIZE, MIX_PARAMS_LEN, DEFAULT_HOPS. lia.
  - unfold NymPacket.outfox_from_bytes. by rewrite E1.
Qed.

Lemma in_transit_carries sk core k d hops p size payload addresses :
  in_transit sk core ((k, d) :: hops) p -> len core + 326 = PacketSize.size size -> len core < 2 ^ 16 ->
  (forall q, in_transit sk core [] q -> OutfoxPacket.recover_plaintext q = Ok payload) ->
  Forall2 (fun d a => NymNodeRoutingAddress.try_from_bytes d = Ok a) (take (length hops) (d :: hops.*2)) addresses ->
  carries PacketType.Outfox size (default d (last hops.*2)) payload (NymPacket.Outfox p) (k :: hops.*1) addresses.
Proof.
  intros T Hs Hc Hrec. revert k d p addresses T. induction hops as [|[k' d'] hops IH]; intros k d p addresses T Ha;
    pose proof (in_transit_packet_ok _ _ _ _ _ T Hs Hc) as Hok;
    destruct (in_transit_hop _ _ _ _ _ _ T) as (q & E & T'); pose proof (in_transit_final _ _ _ _ T') as Hfin.
  - inversion Ha; subst. simpl. apply carries_final; [done|]. intros h Hh Ht.
    unfold process_received, perform_initial_unwrapping, perform_initial_packet_processing, FramedNymPacket.into_inner.
    simpl. rewrite E. cbn [map_err obind perform_final_processing]. rewrite Hfin, (Hrec q T').
    rewrite bool_decide_eq_true_2 by done. cbn [map_err obind]. unfold FramedNymPacket.packet_size, FramedNymPacket.packet_type.
    simpl. by rewrite Hh, Ht.
  - simpl in Ha. inversion Ha as [|? a ? addresses' Ea Ha' E1 E2]; subst.
    apply (carries_forward _ _ _ _ _ _ _ (NymPacket.Outfox q) a addresses' None); [done| |].
    + intros h Hh Ht. unfold process_received, perform_initial_unwrapping, perform_initial_packet_processing, FramedNymPacket.into_inner.
      simpl. rewrite E. cbn [map_err obind perform_final_processing]. rewrite Hfin, bool_decide_eq_false_2 by done.
      by rewrite Ea.
    + assert (forall l : list (list byte), default d (last (d' :: l)) = default d' (last l)) as E'.
      { intros l. destruct (last l) as [x|] eqn:El; [destruct l; [done|]; simpl in El |- *; by rewrite El|].
        by apply last_None in El as ->. }
      change (((k', d') :: hops).*2) with (d' :: hops.*2). rewrite E'. by apply IH.
Qed.

#[export] Instance outfox_transport : Transport PacketType.Outfox.
Proof.
  split; [done|]. intros entropy size payload route hosts keys destination delays Hty Hsk Hd [Hroute Hlen] H4 _ Hpl.
  destruct route as [|n1 [|n2 [|n3 [|n4 [|]]]]]; try done.
  assert (length (zip hosts keys) = 4%nat) as Hz by (rewrite <- (Forall2_length _ _ _ Hroute); done).
  rewrite length_zip_with in Hz.
  destruct hosts as [|h1 [|h2 [|h3 [|h4 [|]]]]]; destruct keys as [|k1 [|k2 [|k3 [|k4 [|]]]]]; simpl in Hz, Hlen; try lia.
  simpl in Hroute. rewrite !Forall2_cons in Hroute. destruct Hroute as (R1 & R2 & R3 & R4 & _).
  destruct n1 as [a1 b1], n2 as [a2 b2], n3 as [a3 b3], n4 as [a4 b4]. unfold routes_to in *.
  cbn [node_address node_pub_key fst snd] in *.
  destruct R1 as [(_ & L1 & ->) K1], R2 as [(A2 & L2 & ->) K2], R3 as [(A3 & L3 & ->) K3], R4 as [(A4 & L4 & ->) K4].
  assert (packet_capacity (Some (PacketSize.plaintext_size size)) = PacketSize.plaintext_size size
    /\ PacketSize.plaintext_size size + 3 < 2 ^ 16 /\ PacketSize.size size = PacketSize.plaintext_size size + 329) as (Hcap & Hbound & Hsize).
  { rewrite size_value, Hty, outfox_overhead, plaintext_size_value. destruct size; try done. }
  destruct (build_Ok entropy payload (Some (PacketSize.plaintext_size size)) a1 a2 a3 a4 k1 k2 k3 k4 (destination_address destination))
    as (p & Ep & T); [done|by repeat constructor|lia|lia|].
  rewrite Hcap in T. rewrite padded_core in T by lia. set (core := replicate _ _ ++ _ ++ _) in T.
  assert (len core = PacketSize.plaintext_size size + 3) as Hcore.
  { unfold core. autorewrite with len. change (len MAGIC_SLICE) with 3. unfold len at 1. rewrite length_replicate. lia. }
  exists (NymPacket.Outfox p). split.
  - unfold build_packet, NymPacket.outfox_build. change (len _ =? 4) with true. cbn iota.
    unfold route_of in Ep. cbn [zip_with] in Ep. rewrite Ep. done.
  - apply (in_transit_carries entropy core k1 a2 [(k2, a3); (k3, a4); (k4, destination_address destination)] p size payload);
      [done|lia|lia| |].
    + intros q Tq. by rewrite (recover_padded entropy _ payload q Tq).
    + repeat constructor; done.
Qed.

End Outfox.

(** ** Sphinx *)

(** A Sphinx packet takes [payload] to [destination]: every node finds the address of the next one, and
    the last one the destination and the payload.  On the way a packet keeps its size and can be read
    back from its bytes. *)
Inductive sphinx_carries (size : Z) (destination payload : list byte) : SphinxPacket -> list (list byte) -> list (list byte) -> Prop :=
| sphinx_carries_final p key identifier pl :
    len (sphinx_packet_to_bytes p) = HEADER_SIZE + size -> sphinx_packet_len p = HEADER_SIZE + size ->
    sphinx_packet_from_bytes (sphinx_packet_to_bytes p) = Ok p ->
    sphinx_packet_process p key = Ok (SphinxFinalHop destination identifier pl) ->
    sphinx_recover_plaintext pl = Ok payload ->
    sphinx_carries size destination payload p [key] []
| sphinx_carries_forward p key keys p' address addresses delay :
    len (sphinx_packet_to_bytes p) = HEADER_SIZE + size -> sphinx_packet_len p = HEADER_SIZE + size ->
    sphinx_packet_from_bytes (sphinx_packet_to_bytes p) = Ok p ->
    sphinx_packet_process p key = Ok (SphinxForwardHop p' address delay) ->
    sphinx_carries size destination payload p' keys addresses ->
    sphinx_carries size destination payload p (key :: keys) (address :: addresses).

(** What the crate [sphinx-packet] documents of its builder and of processing. *)
Class SphinxLaws : Prop := {
  sphinx_build_carries entropy size message route keys destination delays :
    len message + PAYLOAD_OVERHEAD_SIZE <= size -> (0 < length route <= 5)%nat -> length delays = length route ->
    len (destination_address destination) = 32 -> Forall (fun node => len (node_address node) = 32) route ->
    Forall2 (fun node key => node_pub_key node = public_of key) route keys ->
    exists p, sphinx_build_packet entropy size message route destination delays = Ok p
      /\ sphinx_carries size (destination_address destination) message p keys (node_address <$> tail route)
}.

Lemma sphinx_carries_packet size ty dest payload p keys bytes addresses :
  sphinx_carries (PacketSize.payload_size size) dest payload p keys bytes ->
  PacketSize.packet_type_of size = PacketType.Mix -> ty = PacketType.Mix ->
  Forall2 (fun b a => NymNodeRoutingAddress.try_from_bytes b = Ok a) bytes addresses ->
  carries ty size dest payload (NymPacket.Sphinx p) keys addresses.
Proof.
  intros Hc Hs ->. assert (HEADER_SIZE + PacketSize.payload_size size = PacketSize.size size) as Hsize.
  { unfold PacketSize.payload_size. destruct size; try done; cbn [PacketSize.header_size]; lia. }
  revert addresses. induction Hc as [p key id pl L1 L2 L3 E1 E2|p key keys p' b bytes delay L1 L2 L3 E1 Hc IH];
    intros addresses Ha; inversion Ha as [|? a ? addresses' Eb Ha' F1 F2]; subst; rewrite Hsize in *;
    assert (packet_ok PacketType.Mix size (NymPacket.Sphinx p)) as Hok
      by (split; [done|done|unfold NymPacket.from_bytes, NymPacket.sphinx_from_bytes; simpl; by rewrite L3]).
  - apply carries_final; [done|]. intros h Hh Ht.
    unfold process_received, perform_initial_unwrapping, perform_initial_packet_processing, FramedNymPacket.into_inner.
    simpl. rewrite E1. cbn [map_err obind perform_final_processing]. rewrite E2. cbn [map_err obind].
    unfold FramedNymPacket.packet_size, FramedNymPacket.packet_type. simpl. by rewrite Hh, Ht.
  - apply (carries_forward _ _ _ _ _ _ _ (NymPacket.Sphinx p') a addresses' (Some delay)); [done| |by apply IH].
    intros h Hh Ht.
    unfold process_received, perform_initial_unwrapping, perform_initial_packet_processing, FramedNymPacket.into_inner.
    simpl. rewrite E1. cbn [map_err obind perform_final_processing]. unfold process_forward_hop. rewrite Eb. cbn [map_err obind].
    unfold FramedNymPacket.packet_type. simpl. by rewrite Ht.
Qed.

Lemma route_parts route hosts keys :
  route_ok route hosts keys -> length route = 4%nat ->
  Forall (fun node => len (node_address node) = 32) route /\ Forall2 (fun node key => node_pub_key node = public_of key) route keys
  /\ Forall2 (fun b a => NymNodeRoutingAddress.try_from_bytes b = Ok a) (node_address <$> tail route) (NymNodeRoutingAddress.routed <$> tail hosts).
Proof.
  intros [Hr Hl] L4. assert (length (zip hosts keys) = 4%nat) as Hz by (rewrite <- (Forall2_length _ _ _ Hr); done).
  rewrite length_zip_with in Hz. split_and!.
  - eapply Forall2_Forall_l; [exact Hr|]. apply Forall_true. by intros hk n [(_ & ? & _) _].
  - rewrite <- (snd_zip hosts keys) by lia. rewrite Forall2_fmap_r. eapply Forall2_impl; [exact Hr|]. by intros n hk [(_ & _ & ?) _].
  - destruct route as [|n route], hosts as [|h hosts], keys as [|k keys]; try (simpl in *; lia).
    simpl in Hr |- *. apply Forall2_cons in Hr as [_ Hr].
    rewrite <- (fst_zip hosts keys) at 1 by (simpl in Hl; lia). rewrite <- list_fmap_compose, Forall2_fmap_l, Forall2_fmap_r.
    eapply Forall2_impl; [exact Hr|]. by intros m hk [(? & _ & _) _].
Qed.

#[export] Instance sphinx_transport `{!SphinxLaws} : Transport PacketType.Mix.
Proof.
  split; [done|]. intros entropy size payload route hosts keys destination delays Hty _ Hdest Hroute H4 Hdelays Hpl.
  destruct (route_parts route hosts keys Hroute H4) as (P1 & P2 & P3).
  destruct (sphinx_build_carries entropy (PacketSize.payload_size size) payload route keys destination delays) as (p & Ep & Hc); try done; try lia.
  { unfold PacketSize.payload_size, PacketSize.plaintext_size in *. destruct size; try done; cbn [PacketSize.payload_overhead] in *; lia. }
  exists (NymPacket.Sphinx p). split; [unfold build_packet, NymPacket.sphinx_build; by rewrite Ep|].
  by apply (sphinx_carries_packet _ _ _ _ _ _ _ _ Hc Hty eq_refl).
Qed.

End Network.
