(* ===== verification/Replies.v ===== *)
(** * Anonymous replies

    Models [common/nymsphinx/anonymous-replies/src]: single use reply blocks
    with their encryption key ([reply_surb.rs], [encryption_key.rs]), and the
    messages that carry them or ask for them ([requests.rs]). *)

From Stdlib.Strings Require Import Byte.
From stdpp Require Import list.
From S2P Require Import Prelude Bytes Addressing Outfox PacketSizes NymPackets Topology Processing.
#[local] Open Scope Z_scope.

(** Reply blocks of the crate [sphinx-packet], and BLAKE3. *)
Class SurbApi `{SphinxApi} := {
  SURB : Type;
  construct_SURB : list byte -> list Node -> list Z -> Destination -> outcome SphinxError SURB;
  surb_to_bytes : SURB -> list byte;
  surb_from_bytes : list byte -> outcome SphinxError SURB;
  use_surb : SURB -> list byte -> Z -> outcome SphinxError (SphinxPacket * list byte);
  key_digest : list byte -> list byte
}.

(** A reply block is read back from its bytes; its size is documented. *)
Class SurbLaws `{SurbApi} : Prop := {
  construct_SURB_bytes entropy route delays destination s :
    construct_SURB entropy route delays destination = Ok s ->
    surb_from_bytes (surb_to_bytes s) = Ok s
    /\ len (surb_to_bytes s) = HEADER_SIZE + NODE_ADDRESS_LENGTH + len route * PAYLOAD_KEY_SIZE;
  len_key_digest k : len (key_digest k) = 32
}.

Definition SENDER_TAG_SIZE : Z := 16.
Definition SurbEncryptionKeySize : Z := 16.

(** [ReplySurbKeyDigestAlgorithm::output_size]. *)
Definition reply_surb_key_digest_size : Z := 32.

Inductive SurbEncryptionKeyError : Type := BytesOfInvalidLengthError.

(** ** Encryption keys, [encryption_key.rs] *)

Module SurbEncryptionKey.

Definition try_from_bytes (bytes : list byte) : outcome SurbEncryptionKeyError (list byte) :=
  if len bytes =? SurbEncryptionKeySize then Ok bytes else Err BytesOfInvalidLengthError.

Definition compute_digest `{SurbApi} (key : list byte) : list byte := key_digest key.

End SurbEncryptionKey.

(** ** Reply blocks, [reply_surb.rs] *)

Module ReplySurb.

Section Surbs.
Context `{SurbApi} `{OutfoxCrypto} `{TopologyApi} `{KeyApi}.

Inductive ReplySurbError : Type :=
| UnpaddedMessageError
| MalformedStringError
| RecoveryError (e : SphinxError)
| InvalidEncryptionKeyData (e : SurbEncryptionKeyError).

Record t : Type := mk { surb : SURB; encryption_key : list byte }.

Definition max_msg_len (packet_size : PacketSize.t) : outcome ReplySurbError Z :=
  let ack_overhead := MAX_NODE_ADDRESS_UNPADDED_LEN + PacketSize.size PacketSize.AckPacket in
  let? n := usize_sub (PacketSize.plaintext_size packet_size) ack_overhead in
  let? n := usize_sub n reply_surb_key_digest_size in
  usize_sub n 1.

(** [key] is the fresh encryption key. *)
Definition construct (draw : Z -> nat) (samples : nat -> list Z) (entropy key : list byte) (recipient : Recipient.t)
    (average_delay : Z) (topology : NymTopology.t) : outcome NymTopologyError t :=
  let? route := NymTopology.random_route_to_gateway topology draw DEFAULT_NUM_MIX_HOPS (Recipient.gateway recipient) in
  let delays := generate_hop_delays average_delay samples (length route) in
  let destination := as_sphinx_destination recipient in
  let? surb := unwrap (construct_SURB entropy route delays destination) in
  Ok (mk surb key).

Definition serialized_len (mix_hops : Z) : Z :=
  SurbEncryptionKeySize + HEADER_SIZE + NODE_ADDRESS_LENGTH + (1 + mix_hops) * PAYLOAD_KEY_SIZE.

Definition to_bytes (s : t) : list byte := encryption_key s ++ surb_to_bytes (surb s).

Definition from_bytes (bytes : list byte) : outcome ReplySurbError t :=
  let? key_bytes := slice bytes 0 SurbEncryptionKeySize in
  let? encryption_key := map_err InvalidEncryptionKeyData (SurbEncryptionKey.try_from_bytes key_bytes) in
  let? rest := slice bytes SurbEncryptionKeySize (len bytes) in
  let? surb := map_err RecoveryError (surb_from_bytes rest) in
  Ok (mk surb encryption_key).

Definition to_base58_string (s : t) : list byte := base58_encode (to_bytes s).

Definition from_base58_string (val : list byte) : outcome ReplySurbError t :=
  match base58_decode val with
  | Some bytes => from_bytes bytes
  | None => Err MalformedStringError
  end.

(** The packet type is ignored: the packet is always a Sphinx packet. *)
Definition apply_surb (s : t) (message : list byte) (packet_size : PacketSize.t) (_packet_type : PacketType.t)
    : outcome ReplySurbError (NymPacket.t * SocketAddr) :=
  if negb (len message =? PacketSize.plaintext_size packet_size) then Err UnpaddedMessageError
  else
    let? (packet, first_hop) := unwrap (use_surb (surb s) message (PacketSize.payload_size packet_size)) in
    let? first_hop_address := unwrap (NymNodeRoutingAddress.try_from_bytes first_hop) in
    Ok (NymPacket.Sphinx packet, first_hop_address).

End Surbs.

End ReplySurb.

(** ** Messages, [requests.rs] *)

(** [AnonymousSenderTag]: an array of bytes. *)
Definition AnonymousSenderTag : Type := list byte.

Inductive InvalidAnonymousSenderTagRepresentation : Type :=
| MalformedString
| InvalidLength (received expected : Z).

Definition sender_tag_to_base58 `{KeyApi} (tag : AnonymousSenderTag) : list byte := base58_encode tag.

Definition sender_tag_try_from_base58 `{KeyApi} (val : list byte) : outcome InvalidAnonymousSenderTagRepresentation AnonymousSenderTag :=
  match base58_decode val with
  | None => Err MalformedString
  | Some bytes => if len bytes =? SENDER_TAG_SIZE then Ok bytes else Err (InvalidLength (len bytes) SENDER_TAG_SIZE)
  end.

Section Errors.
Context `{SurbApi}.

Inductive InvalidReplyRequestError : Type :=
| RequestTooShortToDeserialize
| InvalidRepliableContentTag (received : Z)
| InvalidReplyContentTag (received : Z)
| MalformedRecipient (e : RecipientFormattingError)
| MalformedReplySurb (e : ReplySurb.ReplySurbError).

End Errors.

(** [u32] as bytes, most significant first. *)
Definition u32_to_be_bytes (z : Z) : list byte := be_encode 4 z.

Module RepliableMessage.

Section Repliable.
Context `{SurbApi} `{OutfoxCrypto} `{KeyApi}.

Inductive RepliableMessageContentTag : Type := TagData | TagAdditionalSurbs | TagHeartbeat.

Inductive RepliableMessageContent : Type :=
| Data (message : list byte) (reply_surbs : list ReplySurb.t)
| AdditionalSurbs (reply_surbs : list ReplySurb.t)
| Heartbeat (additional_reply_surbs : list ReplySurb.t).

Record t : Type := mk { sender_tag : AnonymousSenderTag; content : RepliableMessageContent }.

Definition new_data (data : list byte) (sender_tag : AnonymousSenderTag) (reply_surbs : list ReplySurb.t) : t :=
  mk sender_tag (Data data reply_surbs).

Definition new_additional_surbs (sender_tag : AnonymousSenderTag) (reply_surbs : list ReplySurb.t) : t :=
  mk sender_tag (AdditionalSurbs reply_surbs).

Definition tag_as_u8 (tag : RepliableMessageContentTag) : Z :=
  match tag with TagData => 0 | TagAdditionalSurbs => 1 | TagHeartbeat => 2 end.

Definition tag_try_from (value : Z) : outcome InvalidReplyRequestError RepliableMessageContentTag :=
  if value =? tag_as_u8 TagData then Ok TagData
  else if value =? tag_as_u8 TagAdditionalSurbs then Ok TagAdditionalSurbs
  else if value =? tag_as_u8 TagHeartbeat then Ok TagHeartbeat
  else Err (InvalidRepliableContentTag value).

(** The number of blocks is cast to [u32]. *)
Definition surbs_to_bytes (reply_surbs : list ReplySurb.t) : list byte :=
  u32_to_be_bytes (as_u32 (len reply_surbs)) ++ concat (ReplySurb.to_bytes <$> reply_surbs).

Definition content_into_bytes (c : RepliableMessageContent) : list byte :=
  match c with
  | Data message reply_surbs => surbs_to_bytes reply_surbs ++ message
  | AdditionalSurbs reply_surbs => surbs_to_bytes reply_surbs
  | Heartbeat additional_reply_surbs => surbs_to_bytes additional_reply_surbs
  end.

Definition content_tag (c : RepliableMessageContent) : RepliableMessageContentTag :=
  match c with Data _ _ => TagData | AdditionalSurbs _ => TagAdditionalSurbs | Heartbeat _ => TagHeartbeat end.

Definition content_serialized_size (c : RepliableMessageContent) (num_mix_hops : Z) : Z :=
  match c with
  | Data message reply_surbs => 4 + len reply_surbs * ReplySurb.serialized_len num_mix_hops + len message
  | AdditionalSurbs reply_surbs => 4 + len reply_surbs * ReplySurb.serialized_len num_mix_hops
  | Heartbeat additional_reply_surbs => 4 + len additional_reply_surbs * ReplySurb.serialized_len num_mix_hops
  end.

(** The loop over the blocks: the rest of the bytes and what was consumed of them. *)
Fixpoint recover_loop (n : nat) (bytes : list byte) (consumed surb_size : Z)
    : outcome InvalidReplyRequestError (list ReplySurb.t * Z) :=
  match n with
  | O => Ok ([], consumed)
  | S n =>
      let? surb_bytes := slice bytes consumed (consumed + surb_size) in
      let? reply_surb := map_err MalformedReplySurb (ReplySurb.from_bytes surb_bytes) in
      let? (reply_surbs, consumed) := recover_loop n bytes (consumed + surb_size) surb_size in
      Ok (reply_surb :: reply_surbs, consumed)
  end.

Definition recover_reply_surbs (bytes : list byte) (num_mix_hops : Z) : outcome InvalidReplyRequestError (list ReplySurb.t * Z) :=
  if len bytes <? 4 then Err RequestTooShortToDeserialize
  else
    let num_surbs := be_decode (take 4 bytes) in
    let surb_size := ReplySurb.serialized_len num_mix_hops in
    if len (drop 4 bytes) <? num_surbs * surb_size then Err RequestTooShortToDeserialize
    else recover_loop (Z.to_nat num_surbs) bytes 4 surb_size.

Definition content_try_from_bytes (bytes : list byte) (num_mix_hops : Z) (tag : RepliableMessageContentTag)
    : outcome InvalidReplyRequestError RepliableMessageContent :=
  if len bytes =? 0 then Err RequestTooShortToDeserialize
  else
    let? (reply_surbs, n) := recover_reply_surbs bytes num_mix_hops in
    match tag with
    | TagData => let? message := slice bytes n (len bytes) in Ok (Data message reply_surbs)
    | TagAdditionalSurbs => Ok (AdditionalSurbs reply_surbs)
    | TagHeartbeat => Ok (Heartbeat reply_surbs)
    end.

Definition into_bytes (m : t) : list byte :=
  sender_tag m ++ [byte_of_Z (tag_as_u8 (content_tag (content m)))] ++ content_into_bytes (content m).

Definition try_from_bytes (bytes : list byte) (num_mix_hops : Z) : outcome InvalidReplyRequestError t :=
  if len bytes <? SENDER_TAG_SIZE + 1 then Err RequestTooShortToDeserialize
  else
    let? tag_bytes := slice bytes 0 SENDER_TAG_SIZE in
    let? tag := unwrap_opt (bytes !! Z.to_nat SENDER_TAG_SIZE) in
    let? content_tag := tag_try_from (byte_to_Z tag) in
    let? rest := slice bytes (SENDER_TAG_SIZE + 1) (len bytes) in
    let? content := content_try_from_bytes rest num_mix_hops content_tag in
    Ok (mk tag_bytes content).

Definition serialized_size (m : t) (num_mix_hops : Z) : Z :=
  SENDER_TAG_SIZE + 1 + content_serialized_size (content m) num_mix_hops.

End Repliable.

End RepliableMessage.

Module ReplyMessage.

Section Reply.
Context `{SurbApi} `{OutfoxCrypto} `{KeyApi}.

Inductive ReplyMessageContentTag : Type := TagData | TagSurbRequest.

(** [ReplyMessage] is its content. *)
Inductive t : Type :=
| Data (message : list byte)
| SurbRequest (recipient : Recipient.t) (amount : Z).

Definition new_data_message (message : list byte) : t := Data message.

Definition new_surb_request_message (recipient : Recipient.t) (amount : Z) : t := SurbRequest recipient amount.

Definition tag_as_u8 (tag : ReplyMessageContentTag) : Z := match tag with TagData => 0 | TagSurbRequest => 1 end.

Definition tag_try_from (value : Z) : outcome InvalidReplyRequestError ReplyMessageContentTag :=
  if value =? tag_as_u8 TagData then Ok TagData
  else if value =? tag_as_u8 TagSurbRequest then Ok TagSurbRequest
  else Err (InvalidReplyContentTag value).

Definition content_into_bytes (m : t) : list byte :=
  match m with
  | Data message => message
  | SurbRequest recipient amount => Recipient.to_bytes recipient ++ u32_to_be_bytes amount
  end.

Definition content_tag (m : t) : ReplyMessageContentTag := match m with Data _ => TagData | SurbRequest _ _ => TagSurbRequest end.

Definition content_try_from_bytes (bytes : list byte) (tag : ReplyMessageContentTag) : outcome InvalidReplyRequestError t :=
  if len bytes =? 0 then Err RequestTooShortToDeserialize
  else
    match tag with
    | TagData => Ok (Data bytes)
    | TagSurbRequest =>
        if negb (len bytes =? Recipient.LEN + 4) then Err RequestTooShortToDeserialize
        else
          let? recipient_bytes := slice bytes 0 Recipient.LEN in
          let? recipient := map_err MalformedRecipient (Recipient.try_from_bytes recipient_bytes) in
          let? amount := slice bytes Recipient.LEN (Recipient.LEN + 4) in
          Ok (SurbRequest recipient (be_decode amount))
    end.

Definition content_serialized_size (m : t) : Z :=
  match m with Data message => len message | SurbRequest _ _ => Recipient.LEN + 4 end.

Definition into_bytes (m : t) : list byte := byte_of_Z (tag_as_u8 (content_tag m)) :: content_into_bytes m.

Definition try_from_bytes (bytes : list byte) : outcome InvalidReplyRequestError t :=
  match bytes with
  | [] => Err RequestTooShortToDeserialize
  | b :: rest =>
      let? tag := tag_try_from (byte_to_Z b) in
      content_try_from_bytes rest tag
  end.

Definition serialized_size (m : t) : Z := 1 + content_serialized_size m.

End Reply.

End ReplyMessage.

(** ** Round trips *)

Section Facts.
Context `{SurbApi} `{OutfoxCrypto} `{KeyApi}.

(** A reply block made for a route of [n] mix nodes and a gateway. *)
Definition surb_ok (n : Z) (s : ReplySurb.t) : Prop :=
  len (ReplySurb.encryption_key s) = SurbEncryptionKeySize
  /\ len (surb_to_bytes (ReplySurb.surb s)) = HEADER_SIZE + NODE_ADDRESS_LENGTH + (1 + n) * PAYLOAD_KEY_SIZE
  /\ surb_from_bytes (surb_to_bytes (ReplySurb.surb s)) = Ok (ReplySurb.surb s).

Lemma len_reply_surb n s : surb_ok n s -> len (ReplySurb.to_bytes s) = ReplySurb.serialized_len n.
Proof.
  intros (Hk & Hn & _). unfold ReplySurb.to_bytes, ReplySurb.serialized_len. autorewrite with len.
  rewrite Hn, Hk. lia.
Qed.

Lemma reply_surb_roundtrip n s : surb_ok n s -> ReplySurb.from_bytes (ReplySurb.to_bytes s) = Ok s.
Proof.
  intros (Hk & _ & Hs). unfold ReplySurb.from_bytes, ReplySurb.to_bytes.
  rewrite <- (app_nil_l (ReplySurb.encryption_key s ++ _)), slice_middle by (done || (rewrite Hk; done)). cbn [obind].
  unfold SurbEncryptionKey.try_from_bytes. rewrite Hk. cbn [Z.eqb Pos.eqb SurbEncryptionKeySize map_err obind].
  change 16 with SurbEncryptionKeySize. rewrite app_nil_l, <- Hk, slice_from. cbn [obind].
  rewrite Hs. by destruct s.
Qed.

Lemma recover_loop_ok n ss pre suf :
  Forall (surb_ok n) ss ->
  RepliableMessage.recover_loop (length ss) (pre ++ concat (ReplySurb.to_bytes <$> ss) ++ suf) (len pre) (ReplySurb.serialized_len n)
  = Ok (ss, len pre + len ss * ReplySurb.serialized_len n).
Proof.
  intros Hall. revert pre. induction Hall as [|s ss Hs Hall IH]; intros pre.
  { simpl. do 2 f_equal. unfold len at 3. simpl. lia. }
  rewrite fmap_cons. cbn [concat length RepliableMessage.recover_loop]. rewrite <- app_assoc.
  rewrite slice_middle by (rewrite ?(len_reply_surb n) by done; lia). cbn [obind].
  rewrite (reply_surb_roundtrip n) by done. cbn [map_err obind].
  rewrite app_assoc. rewrite <- (len_reply_surb n s) at 1 by done. rewrite <- len_app, IH. cbn [obind].
  do 2 f_equal. autorewrite with len. rewrite (len_reply_surb n) by done. lia.
Qed.

Lemma serialized_len_nonneg s n : surb_ok n s -> 0 <= ReplySurb.serialized_len n.
Proof. intros Hs. rewrite <- (len_reply_surb n s Hs). apply len_nonneg. Qed.

Lemma len_surbs n ss :
  Forall (surb_ok n) ss -> len (concat (ReplySurb.to_bytes <$> ss)) = len ss * ReplySurb.serialized_len n.
Proof.
  induction 1 as [|s ss Hs Hall IH]; [done|]. rewrite fmap_cons. cbn [concat]. autorewrite with len.
  rewrite IH, (len_reply_surb n) by done. lia.
Qed.

Lemma recover_reply_surbs_ok n ss suf :
  Forall (surb_ok n) ss -> len ss < 2 ^ 32 ->
  RepliableMessage.recover_reply_surbs (RepliableMessage.surbs_to_bytes ss ++ suf) n
  = Ok (ss, len (RepliableMessage.surbs_to_bytes ss)).
Proof.
  intros Hall Hlen. unfold RepliableMessage.recover_reply_surbs, RepliableMessage.surbs_to_bytes, u32_to_be_bytes, as_u32.
  pose proof (len_nonneg ss). rewrite Z.mod_small by lia. rewrite <- app_assoc.
  pose proof (len_be_encode 4 (len ss)) as L4. pose proof (len_nonneg suf). pose proof (len_surbs n ss Hall) as Ls.
  pose proof (len_nonneg (concat (ReplySurb.to_bytes <$> ss))).
  rewrite take_app_length', drop_app_length' by (by rewrite length_be_encode).
  rewrite be_decode_encode, Z.mod_small by lia. autorewrite with len. rewrite L4, Ls.
  destruct (Z.ltb_spec (Z.of_nat 4 + (len ss * ReplySurb.serialized_len n + len suf)) 4); [lia|].
  destruct (Z.ltb_spec (len ss * ReplySurb.serialized_len n + len suf) (len ss * ReplySurb.serialized_len n)); [lia|].
  pose proof (recover_loop_ok n ss (be_encode 4 (len ss)) suf Hall) as E. rewrite L4 in E. change (Z.of_nat 4) with 4 in E.
  replace (Z.to_nat (len ss)) with (length ss) by (unfold len; lia). exact E.
Qed.

(** Messages that a sender makes: tags and blocks of the right size, amounts that fit. *)
Definition repliable_ok (n : Z) (m : RepliableMessage.t) : Prop :=
  len (RepliableMessage.sender_tag m) = SENDER_TAG_SIZE /\
  match RepliableMessage.content m with
  | RepliableMessage.Data _ ss | RepliableMessage.AdditionalSurbs ss | RepliableMessage.Heartbeat ss =>
      Forall (surb_ok n) ss /\ len ss < 2 ^ 32
  end.

Definition reply_ok (m : ReplyMessage.t) : Prop :=
  match m with
  | ReplyMessage.Data message => message <> []
  | ReplyMessage.SurbRequest recipient amount => Recipient.valid recipient /\ is_u32 amount
  end.

Lemma len_surbs_to_bytes n ss :
  Forall (surb_ok n) ss -> len (RepliableMessage.surbs_to_bytes ss) = 4 + len ss * ReplySurb.serialized_len n.
Proof.
  intros Hall. unfold RepliableMessage.surbs_to_bytes, u32_to_be_bytes. autorewrite with len.
  rewrite len_be_encode, (len_surbs n) by done. lia.
Qed.

Lemma repliable_content_roundtrip n c :
  match c with
  | RepliableMessage.Data _ ss | RepliableMessage.AdditionalSurbs ss | RepliableMessage.Heartbeat ss =>
      Forall (surb_ok n) ss /\ len ss < 2 ^ 32
  end ->
  RepliableMessage.content_try_from_bytes (RepliableMessage.content_into_bytes c) n (RepliableMessage.content_tag c) = Ok c.
Proof.
  intros Hc. unfold RepliableMessage.content_try_from_bytes.
  assert (exists ss suf, RepliableMessage.content_into_bytes c = RepliableMessage.surbs_to_bytes ss ++ suf
    /\ Forall (surb_ok n) ss /\ len ss < 2 ^ 32
    /\ match c with
       | RepliableMessage.Data m ss' => m = suf /\ ss' = ss
       | RepliableMessage.AdditionalSurbs ss' | RepliableMessage.Heartbeat ss' => suf = [] /\ ss' = ss
       end) as (ss & suf & E & Hss & Hl & Hcase).
  { destruct c as [m ss|ss|ss]; destruct Hc as [Hs Hl]; exists ss;
      [exists m|exists []|exists []]; simpl; rewrite ?app_nil_r; done. }
  rewrite E. autorewrite with len. rewrite (len_surbs_to_bytes n) by done.
  pose proof (len_nonneg suf). assert (0 <= len ss * ReplySurb.serialized_len n).
  { rewrite <- (len_surbs n) by done. apply len_nonneg. }
  destruct (Z.eqb_spec (4 + len ss * ReplySurb.serialized_len n + len suf) 0); [lia|].
  rewrite recover_reply_surbs_ok by done. cbn [obind].
  destruct c as [m ss'|ss'|ss']; destruct Hcase as [Hm ->]; cbn [RepliableMessage.content_tag]; [|done|done]. subst m.
  rewrite <- (len_surbs_to_bytes n) by done. rewrite <- len_app, slice_from. done.
Qed.

Lemma repliable_roundtrip n m :
  repliable_ok n m -> RepliableMessage.try_from_bytes (RepliableMessage.into_bytes m) n = Ok m.
Proof.
  intros [Ht Hc]. destruct m as [tag c]. cbn [RepliableMessage.sender_tag RepliableMessage.content] in *.
  unfold RepliableMessage.try_from_bytes, RepliableMessage.into_bytes. cbn [RepliableMessage.sender_tag RepliableMessage.content].
  set (b := byte_of_Z _). set (cb := RepliableMessage.content_into_bytes c). pose proof (len_nonneg cb).
  destruct (Z.ltb_spec (len (tag ++ [b] ++ cb)) (SENDER_TAG_SIZE + 1)) as [Hlt|_].
  { exfalso. revert Hlt. autorewrite with len. rewrite Ht. lia. }
  rewrite <- (app_nil_l (tag ++ _)), slice_middle by (done || (rewrite Ht; done)). cbn [obind]. rewrite app_nil_l.
  assert ((tag ++ [b] ++ cb) !! Z.to_nat SENDER_TAG_SIZE = Some b) as ->
    by (apply list_lookup_middle; unfold len in Ht; lia).
  cbn [unwrap_opt obind].
  assert (RepliableMessage.tag_try_from (byte_to_Z b) = Ok (RepliableMessage.content_tag c)) as -> by (by destruct c).
  cbn [obind]. rewrite app_assoc. replace (SENDER_TAG_SIZE + 1) with (len (tag ++ [b])) by (autorewrite with len; lia).
  rewrite slice_from. cbn [obind]. unfold cb. by rewrite repliable_content_roundtrip.
Qed.

Lemma reply_roundtrip m : reply_ok m -> ReplyMessage.try_from_bytes (ReplyMessage.into_bytes m) = Ok m.
Proof.
  destruct m as [message|recipient amount]; simpl.
  - intros Hm. unfold ReplyMessage.content_try_from_bytes. destruct (Z.eqb_spec (len message) 0) as [E|_]; [|done].
    destruct message; [done|]. autorewrite with len in E. pose proof (len_nonneg message). lia.
  - intros [Hr Ha]. unfold ReplyMessage.content_try_from_bytes, u32_to_be_bytes.
    pose proof (RecipientFacts.len_to_bytes recipient Hr) as Hl. autorewrite with len. rewrite len_be_encode, Hl.
    change (Recipient.LEN + Z.of_nat 4) with 100. cbn [Z.eqb Pos.eqb Recipient.LEN PUBLIC_KEY_LENGTH Z.add Pos.add Pos.succ Pos.add_carry negb].
    rewrite <- (app_nil_l (Recipient.to_bytes recipient ++ _)), slice_middle by (done || (rewrite Hl; done)). cbn [obind].
    rewrite RecipientFacts.to_bytes_roundtrip by done. cbn [map_err obind].
    rewrite <- (app_nil_r (be_encode 4 amount)) at 1.
    rewrite app_nil_l, slice_middle by (rewrite ?len_be_encode, ?Hl; done). cbn [obind].
    rewrite be_decode_encode, Z.mod_small by (unfold is_u32, u32_max in Ha; lia). done.
Qed.

End Facts.
