(* ===== verification/NymMessages.v ===== *)
(** * Messages of clients

    Models [common/nymsphinx/src]: the messages of clients and their padding
    ([message.rs]), how a fragment becomes a packet ([preparer]) and how the
    recipient gets it back ([receiver.rs]); with the cover traffic of
    [common/nymsphinx/cover/src/lib.rs] and the shared keys of
    [common/crypto/src/shared_key.rs].  Random choices are arguments. *)

From Stdlib.Strings Require Import Byte.
From stdpp Require Import gmap list.
From S2P Require Import Prelude Bytes Fragments FragmentSets Reconstruction Addressing Outfox PacketSizes NymPackets Topology Processing Replies.
#[local] Open Scope Z_scope.

(** X25519 and the key derivation of the crates that [nym_crypto] wraps. *)
Class PacketCrypto := {
  x25519_public : list byte -> list byte;
  diffie_hellman_secret : list byte -> list byte -> list byte;
  hkdf : list byte -> list byte
}.

Class PacketCryptoLaws `{PacketCrypto} : Prop := {
  len_x25519_public s : len (x25519_public s) = 32;
  diffie_hellman_agree a b : diffie_hellman_secret a (x25519_public b) = diffie_hellman_secret b (x25519_public a)
}.

(** [shared_key.rs]: the public key of the ephemeral pair, and the shared key; and the same key on the
    other side. *)
Definition new_ephemeral_shared_key `{PacketCrypto} (ephemeral remote_key : list byte) : list byte * list byte :=
  (x25519_public ephemeral, hkdf (diffie_hellman_secret ephemeral remote_key)).

Definition recompute_shared_key `{PacketCrypto} (remote_key local_key : list byte) : list byte :=
  hkdf (diffie_hellman_secret local_key remote_key).

Definition PUBLIC_KEY_SIZE : Z := 32.
Definition MIN_PADDING_OVERHEAD : Z := 1.

(** ** Messages, [message.rs] *)

Section Messages.
Context `{SurbApi} `{OutfoxCrypto} `{KeyApi}.

Definition ACK_OVERHEAD : Z := MAX_NODE_ADDRESS_UNPADDED_LEN + PacketSize.size PacketSize.AckPacket.
Definition OUTFOX_ACK_OVERHEAD : Z := MAX_NODE_ADDRESS_UNPADDED_LEN + PacketSize.size PacketSize.OutfoxAckPacket.

Inductive NymMessageError : Type :=
| InvalidMessageType (received : Z)
| InvalidReplyRequest (e : InvalidReplyRequestError)
| InvalidMessagePadding
| EmptyMessage.

Inductive NymMessageType : Type := TypePlain | TypeRepliable | TypeReply.

Definition message_type_as_u8 (t : NymMessageType) : Z := match t with TypePlain => 0 | TypeRepliable => 1 | TypeReply => 2 end.

Definition message_type_try_from (value : Z) : outcome NymMessageError NymMessageType :=
  if value =? message_type_as_u8 TypePlain then Ok TypePlain
  else if value =? message_type_as_u8 TypeRepliable then Ok TypeRepliable
  else if value =? message_type_as_u8 TypeReply then Ok TypeReply
  else Err (InvalidMessageType value).

End Messages.

Module NymMessage.

Section Messages.
Context `{SurbApi} `{OutfoxCrypto} `{KeyApi}.

Inductive t : Type :=
| Plain (msg : list byte)
| Repliable (msg : RepliableMessage.t)
| Reply (msg : ReplyMessage.t).

Definition new_additional_surbs_request (recipient : Recipient.t) (amount : Z) : t :=
  Reply (ReplyMessage.SurbRequest recipient amount).

Definition is_reply_surb_request (m : t) : bool :=
  match m with Reply (ReplyMessage.SurbRequest _ _) => true | _ => false end.

Definition into_inner_data (m : t) : list byte :=
  match m with
  | Plain data => data
  | Repliable repliable =>
      match RepliableMessage.content repliable with RepliableMessage.Data message _ => message | _ => [] end
  | Reply (ReplyMessage.Data message) => message
  | Reply _ => []
  end.

Definition typ (m : t) : NymMessageType :=
  match m with Plain _ => TypePlain | Repliable _ => TypeRepliable | Reply _ => TypeReply end.

Definition inner_bytes (m : t) : list byte :=
  match m with
  | Plain msg => msg
  | Repliable msg => RepliableMessage.into_bytes msg
  | Reply msg => ReplyMessage.into_bytes msg
  end.

Definition into_bytes (m : t) : list byte := byte_of_Z (message_type_as_u8 (typ m)) :: inner_bytes m.

Definition try_from_bytes (bytes : list byte) (num_mix_hops : Z) : outcome NymMessageError t :=
  match bytes with
  | [] => Err EmptyMessage
  | b :: rest =>
      let? typ_tag := message_type_try_from (byte_to_Z b) in
      match typ_tag with
      | TypePlain => Ok (Plain rest)
      | TypeRepliable =>
          let? msg := map_err InvalidReplyRequest (RepliableMessage.try_from_bytes rest num_mix_hops) in Ok (Repliable msg)
      | TypeReply => let? msg := map_err InvalidReplyRequest (ReplyMessage.try_from_bytes rest) in Ok (Reply msg)
      end
  end.

Definition serialized_size (m : t) (num_mix_hops : Z) : Z :=
  let inner_size :=
    match m with
    | Plain msg => len msg
    | Repliable msg => RepliableMessage.serialized_size msg num_mix_hops
    | Reply msg => ReplyMessage.serialized_size msg
    end in
  1 + inner_size.

Definition available_sphinx_plaintext_per_packet {E} (m : t) (packet_size : PacketSize.t) : outcome E Z :=
  let variant_overhead :=
    match m with Plain _ | Repliable _ => PUBLIC_KEY_SIZE | Reply _ => reply_surb_key_digest_size end in
  match PacketSize.packet_type_of packet_size with
  | PacketType.Outfox =>
      let? n := usize_sub (PacketSize.plaintext_size packet_size) OUTFOX_ACK_OVERHEAD in usize_sub n variant_overhead
  | PacketType.Mix | PacketType.Vpn =>
      let? n := usize_sub (PacketSize.plaintext_size packet_size) ACK_OVERHEAD in usize_sub n variant_overhead
  end.

Definition true_available_plaintext_per_packet {E} (m : t) (packet_size : PacketSize.t) : outcome E Z :=
  let? sphinx_plaintext := available_sphinx_plaintext_per_packet m packet_size in
  usize_sub sphinx_plaintext MIN_PADDING_OVERHEAD.

Definition required_packets {E} (m : t) (packet_size : PacketSize.t) (num_mix_hops : Z) : outcome E Z :=
  let? plaintext_per_packet := true_available_plaintext_per_packet m packet_size in
  let serialized_len := serialized_size m num_mix_hops in
  Ok (number_of_required_fragments serialized_len plaintext_per_packet).1.

Definition pad_to_full_packet_lengths (m : t) (plaintext_per_packet : Z) : list byte :=
  let bytes := into_bytes m in
  let total_required_bytes := len bytes + MIN_PADDING_OVERHEAD in
  let '(_, space_left) := number_of_required_fragments total_required_bytes plaintext_per_packet in
  bytes ++ [x01] ++ replicate (Z.to_nat space_left) x00.

End Messages.

End NymMessage.

Module PaddedMessage.

(** [iter().rposition(|b| *b == 1)]. *)
Fixpoint rposition (b : list byte) : option nat :=
  match b with
  | [] => None
  | c :: rest =>
      match rposition rest with
      | Some i => Some (S i)
      | None => if bool_decide (c = x01) then Some O else None
      end
  end.

Definition split_into_fragments (rng : list Z) (message : list byte) (plaintext_per_packet : Z)
    : outcome ChunkingError (list Fragment.t) :=
  let? sets := split_into_sets rng message plaintext_per_packet in
  Ok (concat sets).

Section Padding.
Context `{SurbApi} `{OutfoxCrypto} `{KeyApi}.

Definition remove_padding (message : list byte) (num_mix_hops : Z) : outcome NymMessageError NymMessage.t :=
  match rposition message with
  | Some padding_end => NymMessage.try_from_bytes (take padding_end message) num_mix_hops
  | None => Err InvalidMessagePadding
  end.

End Padding.

End PaddedMessage.

(** ** Payloads, [preparer/payload.rs] *)

Module NymPayloadBuilder.

Section Payloads.
Context `{SurbApi} `{OutfoxCrypto} `{TopologyApi} `{KeyApi} `{StreamCipher} `{PacketCrypto}.

Record t : Type := new { fragment : Fragment.t; surb_ack : SurbAck.t }.

(** [SURB_ACK || VARIANT_SPECIFIC_DATA || CHUNK_DATA]. *)
Definition build (b : t) (packet_encryption_key variant_data : list byte) : list byte :=
  let '(_, surb_ack_bytes) := SurbAck.prepare_for_sending (surb_ack b) in
  let fragment_data := stream_encrypt packet_encryption_key zero_iv (Fragment.into_bytes (fragment b)) in
  surb_ack_bytes ++ variant_data ++ fragment_data.

Definition build_reply (b : t) (packet_encryption_key : list byte) : list byte :=
  build b packet_encryption_key (SurbEncryptionKey.compute_digest packet_encryption_key).

Definition build_regular (b : t) (ephemeral recipient_encryption_key : list byte) : list byte :=
  let '(ephemeral_public_key, shared_key) := new_ephemeral_shared_key ephemeral recipient_encryption_key in
  build b shared_key ephemeral_public_key.

End Payloads.

End NymPayloadBuilder.

(** ** Preparing packets, [preparer/mod.rs] *)

(** The random choices made for one packet: for its acknowledgement a route, delays, the vector of the
    cipher and the packet's key; for the packet an ephemeral key, a route, delays and its key. *)
Record ChunkEntropy : Type := mkEntropy {
  ack_draw : Z -> nat;
  ack_samples : nat -> list Z;
  ack_iv : list byte;
  ack_entropy : list byte;
  ephemeral_key : list byte;
  route_draw : Z -> nat;
  delay_samples : nat -> list Z;
  packet_entropy : list byte
}.

Module MessagePreparer.

Section Preparing.
Context `{SurbApi} `{OutfoxCrypto} `{TopologyApi} `{KeyApi} `{StreamCipher} `{PacketCrypto}.

Record t : Type := mk {
  sender_address : Recipient.t;
  average_packet_delay : Z;
  average_ack_delay : Z;
  num_mix_hops : Z
}.

Record PreparedFragment : Type := mkPrepared {
  total_delay : Z;
  mix_packet : MixPacket.t;
  fragment_identifier : FragmentIdentifier.t
}.

Definition new (sender_address : Recipient.t) (average_packet_delay average_ack_delay : Z) : t :=
  mk sender_address average_packet_delay average_ack_delay DEFAULT_NUM_MIX_HOPS.

Definition with_mix_hops (p : t) (hops : Z) : t :=
  mk (sender_address p) (average_packet_delay p) (average_ack_delay p) hops.

Definition set_sender_address (p : t) (address : Recipient.t) : t :=
  mk address (average_packet_delay p) (average_ack_delay p) (num_mix_hops p).

(** One draw of route, delays, packet key and encryption key for each block. *)
Definition generate_reply_surbs (p : t) (entropy : list ((Z -> nat) * (nat -> list Z) * list byte * list byte))
    (topology : NymTopology.t) : outcome NymTopologyError (list ReplySurb.t) :=
  mapM_outcome (fun '(draw, samples, surb_entropy, key) =>
    ReplySurb.construct draw samples surb_entropy key (sender_address p) (average_packet_delay p) topology) entropy.

Definition generate_surb_ack (p : t) (e : ChunkEntropy) (recipient : Recipient.t) (fragment_id : FragmentIdentifier.t)
    (topology : NymTopology.t) (ack_key : list byte) (packet_type : PacketType.t) : outcome NymTopologyError SurbAck.t :=
  SurbAck.construct (ack_draw e) (ack_samples e) (ack_iv e) (ack_entropy e) recipient ack_key
    (FragmentIdentifier.to_bytes fragment_id) (average_ack_delay p) topology packet_type.

(** Replies are always Sphinx packets; [expect] and [unwrap] panic. *)
Definition prepare_reply_chunk_for_sending (p : t) (e : ChunkEntropy) (fragment : Fragment.t) (topology : NymTopology.t)
    (ack_key : list byte) (reply_surb : ReplySurb.t) (packet_type : PacketType.t) : outcome NymTopologyError PreparedFragment :=
  let reply_overhead := reply_surb_key_digest_size in
  let expected_plaintext :=
    match packet_type with
    | PacketType.Outfox => Fragment.serialized_size fragment + OUTFOX_ACK_OVERHEAD + reply_overhead
    | PacketType.Mix | PacketType.Vpn => Fragment.serialized_size fragment + ACK_OVERHEAD + reply_overhead
    end in
  let? packet_size := unwrap (PacketSize.get_type_from_plaintext expected_plaintext PacketType.Mix) in
  let expected_forward_delay := average_packet_delay p * num_mix_hops p in
  let fragment_identifier := Fragment.fragment_identifier fragment in
  let? surb_ack := generate_surb_ack p e (sender_address p) fragment_identifier topology ack_key packet_type in
  let ack_delay := SurbAck.expected_total_delay surb_ack in
  let packet_payload := NymPayloadBuilder.build_reply (NymPayloadBuilder.new fragment surb_ack) (ReplySurb.encryption_key reply_surb) in
  let? (sphinx_packet, first_hop_address) := unwrap (ReplySurb.apply_surb reply_surb packet_payload packet_size packet_type) in
  Ok (mkPrepared (expected_forward_delay + ack_delay) (MixPacket.new first_hop_address sphinx_packet packet_type) fragment_identifier).

Definition prepare_chunk_for_sending (p : t) (e : ChunkEntropy) (fragment : Fragment.t) (topology : NymTopology.t)
    (ack_key : list byte) (packet_recipient : Recipient.t) (packet_type : PacketType.t) (mix_hops : option Z)
    : outcome NymTopologyError PreparedFragment :=
  let non_reply_overhead := PUBLIC_KEY_SIZE in
  let expected_plaintext :=
    match packet_type with
    | PacketType.Outfox => Fragment.serialized_size fragment + OUTFOX_ACK_OVERHEAD + non_reply_overhead
    | PacketType.Mix | PacketType.Vpn => Fragment.serialized_size fragment + ACK_OVERHEAD + non_reply_overhead
    end in
  let? packet_size := unwrap (PacketSize.get_type_from_plaintext expected_plaintext packet_type) in
  let fragment_identifier := Fragment.fragment_identifier fragment in
  let? surb_ack := generate_surb_ack p e (sender_address p) fragment_identifier topology ack_key packet_type in
  let ack_delay := SurbAck.expected_total_delay surb_ack in
  let packet_payload := NymPayloadBuilder.build_regular (NymPayloadBuilder.new fragment surb_ack) (ephemeral_key e)
                          (Recipient.client_encryption_key packet_recipient) in
  let hops := default (num_mix_hops p) mix_hops in
  let? route := NymTopology.random_route_to_gateway topology (route_draw e) hops (Recipient.gateway packet_recipient) in
  let destination := as_sphinx_destination packet_recipient in
  let delays := generate_hop_delays (average_packet_delay p) (delay_samples e) (length route) in
  let? packet := map_err PacketError
    match packet_type with
    | PacketType.Outfox =>
        NymPacket.outfox_build (packet_entropy e) packet_payload route destination (Some (PacketSize.plaintext_size packet_size))
    | PacketType.Mix | PacketType.Vpn =>
        NymPacket.sphinx_build (packet_entropy e) (PacketSize.payload_size packet_size) packet_payload route destination delays
    end in
  let? first := unwrap_opt (head route) in
  let? first_hop_address := unwrap (NymNodeRoutingAddress.try_from_bytes (node_address first)) in
  let? last_delay := usize_sub (len delays) 1 in
  Ok (mkPrepared (zsum (take (Z.to_nat last_delay) delays) + ack_delay) (MixPacket.new first_hop_address packet packet_type)
        fragment_identifier).

Definition pad_and_split_message (rng : list Z) (message : NymMessage.t) (packet_size : PacketSize.t)
    : outcome ChunkingError (list Fragment.t) :=
  let? plaintext_per_packet := NymMessage.available_sphinx_plaintext_per_packet message packet_size in
  PaddedMessage.split_into_fragments rng (NymMessage.pad_to_full_packet_lengths message plaintext_per_packet) plaintext_per_packet.

End Preparing.

End MessagePreparer.

(** ** Receiving, [receiver.rs] *)

Module MessageReceiver.

Section Receiving.
Context `{SurbApi} `{OutfoxCrypto} `{KeyApi} `{StreamCipher} `{PacketCrypto}.

Inductive MessageRecoveryError : Type :=
| NotEnoughBytesForEphemeralKey (provided required : Z)
| InvalidRemoteEphemeralKey (e : KeyRecoveryError)
| MalformedReconstructedMessage (source : NymMessageError) (used_sets : list Z)
| FragmentRecoveryError (e : ChunkingError).

(** [SphinxMessageReceiver]. *)
Record t : Type := mk { reconstructor : MessageReconstructor.t; num_mix_hops : Z }.

Definition new : t := mk MessageReconstructor.new DEFAULT_NUM_MIX_HOPS.

Definition with_mix_hops (r : t) (hops : Z) : t := mk (reconstructor r) hops.

Definition decrypt_raw_message (message key : list byte) : list byte := stream_decrypt key zero_iv message.

Definition recover_plaintext_from_reply (reply_ciphertext reply_key : list byte) : list byte :=
  decrypt_raw_message reply_ciphertext reply_key.

Definition recover_plaintext_from_regular_packet (local_key raw_enc_frag : list byte)
    : outcome MessageRecoveryError (list byte) :=
  if len raw_enc_frag <? PUBLIC_KEY_SIZE
  then Err (NotEnoughBytesForEphemeralKey (len raw_enc_frag) PUBLIC_KEY_SIZE)
  else
    let remote_key_bytes := take (Z.to_nat PUBLIC_KEY_SIZE) raw_enc_frag in
    let? remote_ephemeral_key := map_err InvalidRemoteEphemeralKey (encryption_from_bytes remote_key_bytes) in
    let encryption_key := recompute_shared_key remote_ephemeral_key local_key in
    let fragment_ciphertext := drop (Z.to_nat PUBLIC_KEY_SIZE) raw_enc_frag in
    Ok (decrypt_raw_message fragment_ciphertext encryption_key).

Definition recover_fragment (frag_data : list byte) : outcome MessageRecoveryError Fragment.t :=
  map_err FragmentRecoveryError (Fragment.try_from_bytes frag_data).

(** The reconstructor changes also when the message turns out to be malformed. *)
Definition insert_new_fragment (r : t) (fragment : Fragment.t)
    : outcome ChunkingError (t * outcome MessageRecoveryError (option (NymMessage.t * list Z))) :=
  let? (inserted, reconstructor) := MessageReconstructor.insert_new_fragment (reconstructor r) fragment in
  let r := mk reconstructor (num_mix_hops r) in
  match inserted with
  | Some (message, used_sets) =>
      match PaddedMessage.remove_padding message (num_mix_hops r) with
      | Ok message => Ok (r, Ok (Some (message, used_sets)))
      | Err err => Ok (r, Err (MalformedReconstructedMessage err used_sets))
      | Panic p => Panic p
      end
  | None => Ok (r, Ok None)
  end.

End Receiving.

End MessageReceiver.

(** ** Cover traffic, [cover/src/lib.rs] *)

Section Cover.
Context `{SurbApi} `{OutfoxCrypto} `{TopologyApi} `{KeyApi} `{StreamCipher} `{PacketCrypto}.

(** ["The cake is a lie!"]. *)
Definition LOOP_COVER_MESSAGE_PAYLOAD : list byte :=
  [x54; x68; x65; x20; x63; x61; x6b; x65; x20; x69; x73; x20; x61; x20; x6c; x69; x65; x21].

Inductive CoverMessageError : Type :=
| CoverInvalidTopologyError (e : NymTopologyError)
| CoverNymPacket (e : NymPacket.NymPacketError).

Definition generate_loop_cover_surb_ack (e : ChunkEntropy) (topology : NymTopology.t) (ack_key : list byte)
    (full_address : Recipient.t) (average_ack_delay : Z) (packet_type : PacketType.t) : outcome CoverMessageError SurbAck.t :=
  map_err CoverInvalidTopologyError
    (SurbAck.construct (ack_draw e) (ack_samples e) (ack_iv e) (ack_entropy e) full_address ack_key
       (FragmentIdentifier.to_bytes COVER_FRAG_ID) average_ack_delay topology packet_type).

(** [chain], [once(1)], [repeat(0)] and [take]. *)
Definition cover_content (cover_size : Z) : list byte :=
  take (Z.to_nat cover_size) (LOOP_COVER_MESSAGE_PAYLOAD ++ [x01] ++ replicate (Z.to_nat cover_size) x00).

Definition generate_loop_cover_packet (e : ChunkEntropy) (topology : NymTopology.t) (ack_key : list byte)
    (full_address : Recipient.t) (average_ack_delay average_packet_delay : Z) (packet_size : PacketSize.t)
    (packet_type : PacketType.t) : outcome CoverMessageError MixPacket.t :=
  let? ack := generate_loop_cover_surb_ack e topology ack_key full_address average_ack_delay packet_type in
  let '(_, ack_bytes) := SurbAck.prepare_for_sending ack in
  let '(public_key_bytes, shared_key) :=
    new_ephemeral_shared_key (ephemeral_key e) (Recipient.client_encryption_key full_address) in
  let? n := usize_sub (PacketSize.plaintext_size packet_size) (len public_key_bytes) in
  let? cover_size := usize_sub n (len ack_bytes) in
  let content := stream_encrypt shared_key zero_iv (cover_content cover_size) in
  let packet_payload := ack_bytes ++ public_key_bytes ++ content in
  let? route := map_err CoverInvalidTopologyError
    (NymTopology.random_route_to_gateway topology (route_draw e) DEFAULT_NUM_MIX_HOPS (Recipient.gateway full_address)) in
  let delays := generate_hop_delays average_packet_delay (delay_samples e) (length route) in
  let destination := as_sphinx_destination full_address in
  let? first := unwrap_opt (head route) in
  let? first_hop_address := unwrap (NymNodeRoutingAddress.try_from_bytes (node_address first)) in
  let? packet := map_err CoverNymPacket
    match packet_type with
    | PacketType.Outfox =>
        NymPacket.outfox_build (packet_entropy e) packet_payload route destination (Some (PacketSize.plaintext_size packet_size))
    | PacketType.Mix | PacketType.Vpn =>
        NymPacket.sphinx_build (packet_entropy e) (PacketSize.payload_size packet_size) packet_payload route destination delays
    end in
  Ok (MixPacket.new first_hop_address packet packet_type).

Definition is_cover (data : list byte) : bool :=
  if len data <? len LOOP_COVER_MESSAGE_PAYLOAD then false
  else bool_decide (take (length LOOP_COVER_MESSAGE_PAYLOAD) data = LOOP_COVER_MESSAGE_PAYLOAD).

End Cover.
