(* ===== verification/MessageFacts.v ===== *)
(** * Padding, splitting and receiving a message

    A message is padded so that its fragments fill their packets; every
    fragment then has the size from which the sender computes the size of the
    packet.  The receiver removes the padding and gets the message back. *)

From Stdlib.Strings Require Import Byte.
From stdpp Require Import gmap list.
From S2P Require Import Prelude Bytes Float64 Fragments FragmentSets Reconstruction Addressing Outfox OutfoxFacts PacketSizes NymPackets Topology Processing Replies NymMessages.
#[local] Open Scope Z_scope.

(** ** Fragments of a padded message fill their packets *)

Section FullFragments.
Context (mps : Z) (Hmps : 10 < mps < 2 ^ 40).

Local Abbreviation u := (unlinked_fragment_payload_max_len mps).
Local Abbreviation l := (linked_fragment_payload_max_len mps).

(** The number of sets is determined by what is left for the last one. *)
Lemma total_number_of_sets_unique n k :
  n < 2 ^ 53 -> 255 * u < n -> 2 <= k -> 3 < n - (255 * u - 3 + (k - 2) * (255 * u - 6)) <= 255 * u - 3 ->
  total_number_of_sets n mps = k.
Proof using Hmps.
  intros Hlt Hbig Hk Hf. pose proof (payload_lens mps Hmps) as (Hu & Hl & Hl0 & _).
  unfold total_number_of_sets. pose proof (set_lens mps) as (-> & -> & ->).
  destruct (Z.leb_spec n (255 * u)); [lia|]. rewrite Z.gtb_ltb. destruct (Z.ltb_spec (255 * u) n); [|lia].
  destruct (Z.leb_spec n (2 * (255 * u - 3))); cbn [andb].
  - destruct (decide (k = 2)); [done|]. exfalso. assert (1 * (255 * u - 6) <= (k - 2) * (255 * u - 6)) by (apply Z.mul_le_mono_nonneg_r; lia). lia.
  - rewrite f64_div_ceil_exact by lia. enough (cdiv (n - 2 * (255 * u - 3)) (255 * u - 6) = k - 2) by lia.
    apply cdiv_spec; nia.
Qed.

(** What is left for the last set is more than three bytes. *)
Lemma last_set_more_than_three n :
  n < 2 ^ 53 -> 255 * u < n ->
  3 < n - (255 * u - 3 + (total_number_of_sets n mps - 2) * (255 * u - 6)).
Proof using Hmps.
  intros Hlt Hbig. pose proof (payload_lens mps Hmps) as (Hu & Hl & Hl0 & _).
  unfold total_number_of_sets. pose proof (set_lens mps) as (-> & -> & ->).
  destruct (Z.leb_spec n (255 * u)); [lia|]. rewrite Z.gtb_ltb. destruct (Z.ltb_spec (255 * u) n); [|lia].
  destruct (Z.leb_spec n (2 * (255 * u - 3))); cbn [andb]; [lia|]. rewrite f64_div_ceil_exact by lia.
  pose proof (cdiv_bounds (n - 2 * (255 * u - 3)) (255 * u - 6) ltac:(lia)). lia.
Qed.

(** Filling up the free space leaves none. *)
Lemma required_padded n :
  0 < n < 2 ^ 52 ->
  let '(k, spare) := number_of_required_fragments n mps in
  0 <= spare < mps /\ number_of_required_fragments (n + spare) mps = (k, 0).
Proof using Hmps.
  intros Hn. pose proof (payload_lens mps Hmps) as (Hu & Hl & Hl0 & Hub).
  destruct (total_number_of_sets_spec mps Hmps n ltac:(lia)) as [[Hfit _]|(Hbig & Hk & Hrem)].
  - rewrite required_single by lia. pose proof (cdiv_bounds n u ltac:(lia)) as Hc. set (c := cdiv n u) in *.
    assert (c <= 255) by nia. assert (cdiv (n + (c * u - n)) u = c) as Hc' by (apply cdiv_spec; lia).
    split; [nia|]. rewrite required_single by nia. rewrite Hc'. f_equal. lia.
  - rewrite required_many by lia. pose proof (last_set_more_than_three n ltac:(lia) Hbig) as H3.
    set (k := total_number_of_sets n mps) in *. set (base := 255 * u - 3 + (k - 2) * (255 * u - 6)) in *.
    set (c := cdiv (Z.max 0 (n - base - l)) u).
    pose proof (cdiv_bounds (Z.max 0 (n - base - l)) u ltac:(lia)) as Hc. fold c in Hc.
    assert (n - base <= l /\ c = 0 \/ l < n - base /\ 1 <= c) as Hc0 by nia. assert (c <= 254) by nia.
    replace (n + (l + (1 + c - 1) * u - (n - base))) with (base + (l + c * u)) by lia.
    assert (255 * u < base + (l + c * u)) as Hbig' by nia.
    assert (total_number_of_sets (base + (l + c * u)) mps = k) as Hk'.
    { apply total_number_of_sets_unique; unfold base in *; nia. }
    assert (cdiv (Z.max 0 (l + c * u - l)) u = c) as Hc' by (apply cdiv_spec; nia).
    split; [nia|]. rewrite required_many by nia. rewrite Hk'. fold base.
    replace (base + (l + c * u) - base) with (l + c * u) by lia. rewrite Hc'. f_equal. lia.
Qed.

(** A fragment of a cut fills its packet unless it is the last one of a set without successor. *)
Lemma cut_fragment_full message id n previous next first i :
  0 <= first -> 1 <= i <= n -> cut_lengths_ok mps (len message) n first previous next ->
  (is_some next = true -> 1 < n) -> i <> n \/ is_some next = true ->
  Fragment.serialized_size (cut_fragment message id n previous next first u i) = mps.
Proof using Hmps.
  intros Hf Hi Hlens Hn Hlast. pose proof (payload_lens mps Hmps) as (Hu & Hl & Hl0 & _).
  specialize (Hlens i Hi).
  pose proof (cut_bounds (len message) first u (i - 1) (len_nonneg _) ltac:(lia) ltac:(lia) ltac:(lia)) as [B1 B2].
  pose proof (cut_bounds (len message) first u i (len_nonneg _) ltac:(lia) ltac:(lia) ltac:(lia)) as [B3 _].
  replace (i - 1 + 1) with i in B2 by lia.
  unfold Fragment.serialized_size, Fragment.payload_size, cut_fragment. cbn [Fragment.header Fragment.payload].
  rewrite len_header_to_bytes, len_piece by lia. unfold set_header. header_proj.
  set (d := cut (len message) first u i - cut (len message) first u (i - 1)) in *.
  unfold Fragment.check_payload_len, linked_fragment_payload_max_len, unlinked_fragment_payload_max_len,
    LINKED_FRAGMENTED_HEADER_LEN, UNLINKED_FRAGMENTED_HEADER_LEN in *.
  destruct (Z.eqb_spec i 1), (Z.eqb_spec i n); destruct previous, next; cbn [is_some orb] in *; zcases_in Hlens;
    cbn [negb] in Hlens; zcases_in Hlens; simplify_eq; lia.
Qed.

Lemma cut_set_full message id previous next f :
  part_len_ok mps (len message) previous next ->
  f ∈ cut_set message id (set_frag_count mps (len message) previous next) previous next (first_len mps (len message) previous) u ->
  next = None /\ last (cut_set message id (set_frag_count mps (len message) previous next) previous next
                        (first_len mps (len message) previous) u) = Some f
  \/ Fragment.serialized_size f = mps.
Proof using Hmps.
  intros Hlen Hf. pose proof (payload_lens mps Hmps) as (Hu & Hl & Hl0 & _).
  pose proof (set_frag_count_bounds mps Hmps _ _ _ Hlen) as Hn. destruct (part_cut_lengths mps Hmps _ _ _ Hlen) as [Hcut _].
  set (n := set_frag_count mps (len message) previous next) in *. set (first := first_len mps (len message) previous) in *.
  assert (0 <= first) by (unfold first, first_len, part_len_ok in *; destruct previous, next; cbn [is_some]; lia).
  assert (is_some next = true -> n = u8_max) as Hfull by (unfold n, set_frag_count; by destruct next).
  unfold cut_set in Hf. apply list_elem_of_fmap in Hf as (i & -> & Hi%elem_of_zrange).
  destruct (decide (i = n /\ is_some next = false)) as [[-> Hnone]|Hi'].
  - left. split; [by destruct next|]. by rewrite last_cut_set by lia.
  - right. apply cut_fragment_full; try done; [lia|unfold u8_max in Hfull; intros; lia|].
    destruct (is_some next); [by right|]. left. intros ->. by apply Hi'.
Qed.

Lemma last_concat_last {A} (ls : list (list A)) (x : list A) y : last x = Some y -> last (concat (ls ++ [x])) = Some y.
Proof using. intros H. rewrite concat_app. simpl. rewrite app_nil_r, last_app, H. done. Qed.

(** All fragments but the last one fill their packets. *)
Lemma split_fragments_full rng message ids rng' sets f :
  Forall is_i32 rng -> 0 < len message < 2 ^ 53 ->
  generate_set_ids (Z.to_nat (total_number_of_sets (len message) mps)) rng = Ok (ids, rng') -> NoDup ids ->
  split_into_sets rng message mps = Ok sets -> f ∈ concat sets ->
  last (concat sets) = Some f \/ Fragment.serialized_size f = mps.
Proof using Hmps.
  intros Hrng Hlen Hids Hdup Hsets Hf. pose proof (payload_lens mps Hmps) as (Hu & Hl & Hl0 & _).
  destruct (total_number_of_sets_spec mps Hmps (len message) ltac:(lia)) as [[Hfit Hk]|(Hbig & Hk & Hrem)].
  - rewrite Hk in Hids. change (Z.to_nat 1) with 1%nat in Hids. cbn [generate_set_ids] in Hids.
    ok_inv Hids. destruct x as [id r].
    destruct (split_single_ok mps Hmps message rng id r Hrng ltac:(lia) ltac:(lia) Hfit E) as [E' _].
    rewrite E' in Hsets; injection Hsets as <-. cbn [concat] in Hf |- *. rewrite app_nil_r in Hf |- *.
    destruct (cut_set_full message id None None f) as [[_ H]|H]; [simpl; lia|done|by left|by right].
  - destruct (split_many_ok mps Hmps message rng ids rng' Hrng ltac:(lia) Hbig Hids Hdup) as [E _].
    rewrite E in Hsets; injection Hsets as <-. destruct (generate_set_ids_ok _ _ _ _ Hrng Hids) as [Hln Hok].
    set (k := total_number_of_sets (len message) mps) in *.
    assert (len ids = k) as Hn by (unfold len at 1; lia).
    apply elem_of_concat in Hf as (s & Hf & (i & -> & Hi%elem_of_zrange)%list_elem_of_fmap).
    pose proof (part_at_ok mps Hmps message ids ltac:(lia) Hbig Hn Hok i ltac:(fold k; lia)) as Hpart.
    destruct (cut_set_full _ _ _ _ _ Hpart Hf) as [[Hnone Hlast]|H]; [left|by right].
    assert (i = k - 1) as ->.
    { destruct (decide (i = k - 1)); [done|]. exfalso.
      destruct (lookup_ids mps message ids Hn Hok (i + 1) ltac:(fold k; lia)) as (? & E1 & _). congruence. }
    replace (zrange 0 k) with (zrange 0 (k - 1) ++ [k - 1]) by (rewrite <- zrange_snoc by lia; f_equal; lia).
    rewrite fmap_app. by apply last_concat_last.
Qed.

(** When the message leaves no free space, the last one does too. *)
Lemma split_padded_full rng message ids rng' sets n f :
  Forall is_i32 rng -> 0 < len message < 2 ^ 53 ->
  generate_set_ids (Z.to_nat (total_number_of_sets (len message) mps)) rng = Ok (ids, rng') -> NoDup ids ->
  split_into_sets rng message mps = Ok sets -> number_of_required_fragments (len message) mps = (n, 0) ->
  f ∈ concat sets -> Fragment.serialized_size f = mps.
Proof using Hmps.
  intros Hrng Hlen Hids Hdup Hsets Hreq Hf.
  destruct (split_fragments_full _ _ _ _ _ _ Hrng Hlen Hids Hdup Hsets Hf) as [Hlast|]; [|done].
  destruct (required_of_split mps rng message ids rng' sets Hmps Hrng Hlen Hids Hdup Hsets) as (g & Hg & E).
  rewrite Hlast in Hg. injection Hg as <-. rewrite Hreq in E. injection E as _ E. lia.
Qed.

End FullFragments.

(** ** Padding *)

Lemma rposition_app a b :
  PaddedMessage.rposition (a ++ b)
  = match PaddedMessage.rposition b with Some i => Some (length a + i)%nat | None => PaddedMessage.rposition a end.
Proof.
  induction a as [|x a IH]; simpl; [by destruct (PaddedMessage.rposition b)|]. rewrite IH.
  by destruct (PaddedMessage.rposition b).
Qed.

Lemma len_zeros n : len (replicate n x00) = Z.of_nat n.
Proof. unfold len. by rewrite length_replicate. Qed.

Lemma rposition_zeros n : PaddedMessage.rposition (replicate n x00) = None.
Proof. induction n as [|n IH]; simpl; [done|]. by rewrite IH. Qed.

Section Padding.
Context `{SurbApi} `{OutfoxCrypto} `{KeyApi}.

(** Messages that a client makes. *)
Definition message_ok (n : Z) (m : NymMessage.t) : Prop :=
  match m with
  | NymMessage.Plain _ => True
  | NymMessage.Repliable r => repliable_ok n r
  | NymMessage.Reply r => reply_ok r
  end.

Lemma message_roundtrip n m : message_ok n m -> NymMessage.try_from_bytes (NymMessage.into_bytes m) n = Ok m.
Proof.
  unfold NymMessage.into_bytes, NymMessage.try_from_bytes. destruct m as [msg|msg|msg]; intros Hm;
    cbn [NymMessage.typ message_type_as_u8 NymMessage.inner_bytes].
  - done.
  - change (message_type_try_from (byte_to_Z (byte_of_Z 1))) with (Ok (E := NymMessageError) TypeRepliable). cbn [obind].
    by rewrite repliable_roundtrip.
  - change (message_type_try_from (byte_to_Z (byte_of_Z 2))) with (Ok (E := NymMessageError) TypeReply). cbn [obind].
    by rewrite reply_roundtrip.
Qed.

Lemma remove_padding_pad n m pp :
  message_ok n m -> PaddedMessage.remove_padding (NymMessage.pad_to_full_packet_lengths m pp) n = Ok m.
Proof.
  intros Hm. unfold PaddedMessage.remove_padding, NymMessage.pad_to_full_packet_lengths.
  destruct (number_of_required_fragments _ pp) as [k spare].
  rewrite rposition_app. cbn [app PaddedMessage.rposition]. rewrite rposition_zeros, bool_decide_eq_true_2 by done.
  rewrite Nat.add_0_r, take_app_length. by apply message_roundtrip.
Qed.

(** Sizes of packets that carry messages. *)
Definition data_size (size : PacketSize.t) : Prop := size <> PacketSize.AckPacket /\ size <> PacketSize.OutfoxAckPacket.

(** What an acknowledgement takes of the payload. *)
Definition ack_overhead (ty : PacketType.t) : Z :=
  match ty with PacketType.Outfox => OUTFOX_ACK_OVERHEAD | _ => ACK_OVERHEAD end.

Lemma available_ok `{!DistinctSizes} m size :
  data_size size ->
  exists a, (forall E, NymMessage.available_sphinx_plaintext_per_packet (E := E) m size = Ok a)
    /\ 10 < a < 2 ^ 40 /\ a + ack_overhead (PacketSize.packet_type_of size) + 32 = PacketSize.plaintext_size size.
Proof.
  intros [Hs1 Hs2]. pose proof header_size_nonneg as N1. pose proof payload_overhead_nonneg as N2.
  pose proof sphinx_overhead_small as N3. unfold PacketSize.SPHINX_PACKET_OVERHEAD in N3.
  exists (PacketSize.plaintext_size size - ack_overhead (PacketSize.packet_type_of size) - 32).
  assert (10 < PacketSize.plaintext_size size - ack_overhead (PacketSize.packet_type_of size) - 32 < 2 ^ 40) as Hb.
  { unfold ack_overhead, OUTFOX_ACK_OVERHEAD, ACK_OVERHEAD, MAX_NODE_ADDRESS_UNPADDED_LEN. rewrite !size_value, !plaintext_size_value.
    cbn [PacketSize.packet_type_of]. rewrite outfox_overhead. unfold PacketSize.SPHINX_PACKET_OVERHEAD.
    destruct size; try done; cbn [PacketSize.packet_type_of]; lia. }
  split; [|split; [done|lia]]. intros E. unfold NymMessage.available_sphinx_plaintext_per_packet, usize_sub.
  assert (match m with NymMessage.Plain _ | NymMessage.Repliable _ => PUBLIC_KEY_SIZE | NymMessage.Reply _ => reply_surb_key_digest_size end
    = 32) as -> by (by destruct m).
  unfold ack_overhead in *. destruct (PacketSize.packet_type_of size); zcases; cbn [obind]; zcases; done || lia.
Qed.

End Padding.

(** ** Splitting *)

Section Splitting.
Context `{SurbApi} `{OutfoxCrypto} `{KeyApi} `{!DistinctSizes}.

Lemma len_padded m a :
  10 < a < 2 ^ 40 -> len (NymMessage.into_bytes m) < 2 ^ 51 ->
  0 < len (NymMessage.pad_to_full_packet_lengths m a) < 2 ^ 52
  /\ exists n, number_of_required_fragments (len (NymMessage.pad_to_full_packet_lengths m a)) a = (n, 0).
Proof.
  intros Ha Hm. pose proof (len_nonneg (NymMessage.into_bytes m)) as N.
  pose proof (required_padded a Ha (len (NymMessage.into_bytes m) + 1) ltac:(lia)) as Hr.
  unfold NymMessage.pad_to_full_packet_lengths, MIN_PADDING_OVERHEAD.
  destruct (number_of_required_fragments (len (NymMessage.into_bytes m) + 1) a) as [k spare]. destruct Hr as [Hs Hr].
  assert (len (NymMessage.into_bytes m ++ [x01] ++ replicate (Z.to_nat spare) x00) = len (NymMessage.into_bytes m) + 1 + spare) as ->.
  { autorewrite with len. rewrite len_zeros. lia. }
  split; [lia|]. eauto.
Qed.

(** The fragments of a message: they form a chain of sets that holds the padded message, and each of
    them fills the room that a packet has. *)
Lemma pad_and_split_ok rng m size a ids rng' :
  data_size size -> (forall E, NymMessage.available_sphinx_plaintext_per_packet (E := E) m size = Ok a) -> 10 < a < 2 ^ 40 ->
  Forall is_i32 rng -> len (NymMessage.into_bytes m) < 2 ^ 51 ->
  generate_set_ids (Z.to_nat (total_number_of_sets (len (NymMessage.pad_to_full_packet_lengths m a)) a)) rng = Ok (ids, rng') ->
  NoDup ids ->
  exists sets, MessagePreparer.pad_and_split_message rng m size = Ok (concat sets)
    /\ msg_ok (Msg ids sets (NymMessage.pad_to_full_packet_lengths m a))
    /\ forall f, f ∈ concat sets -> Fragment.serialized_size f = a.
Proof.
  intros Hd Ha Hb Hrng Hm Hids Hdup. destruct (len_padded m a Hb Hm) as [Hl [n Hn]].
  destruct (split_message_sets a rng (NymMessage.pad_to_full_packet_lengths m a) ids rng' Hb Hrng ltac:(lia) Hids Hdup) as (sets & Hsplit & Hsets).
  exists sets. split_and!.
  - unfold MessagePreparer.pad_and_split_message, PaddedMessage.split_into_fragments. rewrite Ha. cbn [obind]. by rewrite Hsplit.
  - repeat split; try done. simpl. intros ->. destruct sets; [|done]. simpl in Hsets. rewrite Hsets in Hl.
    unfold len in Hl; simpl in Hl; lia.
  - intros f Hf. eapply split_padded_full; try done. lia.
Qed.

End Splitting.

(** ** Ciphers *)

Lemma stream_decrypt_encrypt `{StreamCipherLaws} key iv data : stream_decrypt key iv (stream_encrypt key iv data) = data.
Proof.
  unfold stream_decrypt, stream_encrypt. rewrite length_xor_bytes by (rewrite length_cipher_keystream; lia).
  apply xor_bytes_involutive. rewrite length_cipher_keystream. lia.
Qed.

Lemma length_stream_encrypt `{StreamCipherLaws} key iv data : length (stream_encrypt key iv data) = length data.
Proof. unfold stream_encrypt. apply length_xor_bytes. rewrite length_cipher_keystream. lia. Qed.

(** A fragment is never taken for cover traffic: its first bit is set. *)
Lemma fragment_is_not_cover f :
  header_ok (Fragment.header f) -> linkable (Fragment.header f) -> is_cover (Fragment.into_bytes f) = false.
Proof.
  intros Hok Hlk. unfold is_cover. destruct (len (Fragment.into_bytes f) <? len LOOP_COVER_MESSAGE_PAYLOAD); [done|].
  apply bool_decide_eq_false_2. intros E. pose proof (proj2 (try_from_bytes_iff _ _) (conj Hok (conj Hlk eq_refl))) as Hp.
  rewrite <- (take_drop (length LOOP_COVER_MESSAGE_PAYLOAD) (Fragment.into_bytes f)), E in Hp.
  unfold Fragment.try_from_bytes, FragmentHeader.try_from_bytes in Hp.
  cbn [LOOP_COVER_MESSAGE_PAYLOAD app] in Hp. rewrite slice_0_4 in Hp. cbn [obind] in Hp.
  change (get_sign_bit (i32_from_be_bytes [x54; x68; x65; x20])) with 0 in Hp. cbn [Z.eqb] in Hp.
  destruct (_ <? _) in Hp; done.
Qed.

Lemma cover_content_is_cover n : 18 <= n -> is_cover (cover_content n) = true.
Proof.
  intros Hn. unfold is_cover, cover_content. pose proof (eq_refl : len LOOP_COVER_MESSAGE_PAYLOAD = 18) as L.
  destruct (Z.ltb_spec (len (take (Z.to_nat n) (LOOP_COVER_MESSAGE_PAYLOAD ++ [x01] ++ replicate (Z.to_nat n) x00))) (len LOOP_COVER_MESSAGE_PAYLOAD)) as [Hlt|_].
  { exfalso. revert Hlt. rewrite len_take by lia. autorewrite with len. rewrite len_zeros. lia. }
  apply bool_decide_eq_true_2. rewrite take_take, Nat.min_l by (change (length LOOP_COVER_MESSAGE_PAYLOAD) with 18%nat; lia).
  by rewrite take_app_length.
Qed.
