(* ===== verification/ReplyStorage.v ===== *)
(** * Stores for replies

    Models [common/client-core/src/client/replies/reply_storage]: the keys of
    reply blocks that were sent out ([key_storage.rs]), the reply blocks
    received from others ([surb_storage.rs]) and the tags under which a client
    is known to others ([tag_storage.rs]).  The stores are concurrent maps
    whose operations are atomic; the time is an argument. *)

From Stdlib.Strings Require Import Byte.
From stdpp Require Import gmap list.
From S2P Require Import Prelude Bytes Addressing Outfox PacketSizes NymPackets Topology Processing Replies.
#[local] Open Scope Z_scope.

(** ** Keys of sent reply blocks *)

Module SentReplyKeys.

Record UsedReplyKey : Type := mkUsedKey { key : list byte; sent_at_timestamp : Z }.

(** By the digest of the key. *)
Abbreviation t := (gmap (list byte) UsedReplyKey).

Section Keys.
Context `{SurbApi}.

Definition new : t := ∅.

Definition insert_one (s : t) (k : UsedReplyKey) : t := <[SurbEncryptionKey.compute_digest (key k) := k]> s.

Definition insert_multiple (s : t) (now : Z) (keys : list (list byte)) : t :=
  foldl (fun s k => insert_one s (mkUsedKey k now)) s keys.

Definition try_pop (s : t) (digest : list byte) : option UsedReplyKey * t := (s !! digest, delete digest s).

Definition remove (s : t) (digest : list byte) : t := delete digest s.

End Keys.

End SentReplyKeys.

(** ** Received reply blocks *)

Module ReceivedReplySurbs.

Section Surbs.
Context `{SurbApi}.

Record t : Type := mk { data : list ReplySurb.t; pending_reception : Z; surbs_last_received_at_timestamp : Z }.

Definition new (now : Z) (initial_surbs : list ReplySurb.t) : t := mk initial_surbs 0 now.

Definition new_retrieved (surbs : list ReplySurb.t) (surbs_last_received_at_timestamp : Z) : t :=
  mk surbs 0 surbs_last_received_at_timestamp.

Definition items_left (s : t) : Z := len (data s).

(** [u32] addition. *)
Definition increment_pending_reception {E} (s : t) (amount : Z) : outcome E (Z * t) :=
  let n := pending_reception s + amount in
  if u32_max <? n then Panic Overflow else Ok (n, mk (data s) n (surbs_last_received_at_timestamp s)).

Definition decrement_pending_reception (s : t) (amount : Z) : Z * t :=
  let n := Z.max 0 (pending_reception s - amount) in
  (n, mk (data s) n (surbs_last_received_at_timestamp s)).

Definition reset_pending_reception (s : t) : t := mk (data s) 0 (surbs_last_received_at_timestamp s).

Definition get_reply_surbs (s : t) (amount : Z) : option (list ReplySurb.t) * Z * t :=
  if items_left s <? amount then (None, items_left s, s)
  else
    let rest := mk (drop (Z.to_nat amount) (data s)) (pending_reception s) (surbs_last_received_at_timestamp s) in
    (Some (take (Z.to_nat amount) (data s)), items_left rest, rest).

(** [pop_surb] takes the oldest. *)
Definition get_reply_surb (s : t) : option ReplySurb.t * Z * t :=
  let rest := mk (tail (data s)) (pending_reception s) (surbs_last_received_at_timestamp s) in
  (head (data s), items_left rest, rest).

Definition insert_reply_surbs (s : t) (now : Z) (surbs : list ReplySurb.t) : t := mk (data s ++ surbs) (pending_reception s) now.

End Surbs.

End ReceivedReplySurbs.

Module ReceivedReplySurbsMap.

Section Map.
Context `{SurbApi}.

Record t : Type := mk {
  data : gmap AnonymousSenderTag ReceivedReplySurbs.t;
  min_surb_threshold : Z;
  max_surb_threshold : Z
}.

Definition new (min_surb_threshold max_surb_threshold : Z) : t := mk ∅ min_surb_threshold max_surb_threshold.

Definition with_data (s : t) (data : gmap AnonymousSenderTag ReceivedReplySurbs.t) : t :=
  mk data (min_surb_threshold s) (max_surb_threshold s).

(** [get_mut(target)] followed by an update. *)
Definition update (s : t) (target : AnonymousSenderTag) (e : ReceivedReplySurbs.t) : t := with_data s (<[target := e]> (data s)).

Definition remove (s : t) (target : AnonymousSenderTag) : t := with_data s (delete target (data s)).

Definition reset_surbs_last_received_at (s : t) (now : Z) (target : AnonymousSenderTag) : t :=
  match data s !! target with
  | Some e => update s target (ReceivedReplySurbs.mk (ReceivedReplySurbs.data e) (ReceivedReplySurbs.pending_reception e) now)
  | None => s
  end.

Definition surbs_last_received_at (s : t) (target : AnonymousSenderTag) : option Z :=
  ReceivedReplySurbs.surbs_last_received_at_timestamp <$> data s !! target.

Definition pending_reception (s : t) (target : AnonymousSenderTag) : Z :=
  default 0 (ReceivedReplySurbs.pending_reception <$> data s !! target).

Definition increment_pending_reception {E} (s : t) (target : AnonymousSenderTag) (amount : Z) : outcome E (option Z * t) :=
  match data s !! target with
  | Some e =>
      let? (n, e) := ReceivedReplySurbs.increment_pending_reception e amount in
      Ok (Some n, update s target e)
  | None => Ok (None, s)
  end.

Definition decrement_pending_reception (s : t) (target : AnonymousSenderTag) (amount : Z) : option Z * t :=
  match data s !! target with
  | Some e => let '(n, e) := ReceivedReplySurbs.decrement_pending_reception e amount in (Some n, update s target e)
  | None => (None, s)
  end.

Definition reset_pending_reception (s : t) (target : AnonymousSenderTag) : t :=
  match data s !! target with
  | Some e => update s target (ReceivedReplySurbs.reset_pending_reception e)
  | None => s
  end.

Definition available_surbs (s : t) (target : AnonymousSenderTag) : Z :=
  default 0 (ReceivedReplySurbs.items_left <$> data s !! target).

Definition contains_surbs_for (s : t) (target : AnonymousSenderTag) : bool := bool_decide (is_Some (data s !! target)).

Definition get_reply_surbs (s : t) (target : AnonymousSenderTag) (amount : Z) : option (list ReplySurb.t) * Z * t :=
  match data s !! target with
  | Some entry =>
      let surbs_left := ReceivedReplySurbs.items_left entry in
      if surbs_left <? min_surb_threshold s + amount then (None, surbs_left, s)
      else
        let '(surbs, n, entry) := ReceivedReplySurbs.get_reply_surbs entry amount in
        (surbs, n, update s target entry)
  | None => (None, 0, s)
  end.

Definition get_reply_surb_ignoring_threshold (s : t) (target : AnonymousSenderTag)
    : option (option ReplySurb.t * Z) * t :=
  match data s !! target with
  | Some entry =>
      let '(surb, n, entry) := ReceivedReplySurbs.get_reply_surb entry in
      (Some (surb, n), update s target entry)
  | None => (None, s)
  end.

Definition get_reply_surb (s : t) (target : AnonymousSenderTag) : option (option ReplySurb.t * Z) * t :=
  match data s !! target with
  | Some entry =>
      let surbs_left := ReceivedReplySurbs.items_left entry in
      if surbs_left <? min_surb_threshold s then (Some (None, surbs_left), s)
      else
        let '(surb, n, entry) := ReceivedReplySurbs.get_reply_surb entry in
        (Some (surb, n), update s target entry)
  | None => (None, s)
  end.

Definition insert_surbs (s : t) (now : Z) (target : AnonymousSenderTag) (surbs : list ReplySurb.t) : t :=
  match data s !! target with
  | Some existing_data => update s target (ReceivedReplySurbs.insert_reply_surbs existing_data now surbs)
  | None => update s target (ReceivedReplySurbs.new now surbs)
  end.

End Map.

End ReceivedReplySurbsMap.

(** ** Tags under which others know the client *)

Module UsedSenderTags.

(** By the bytes of the recipient. *)
Abbreviation t := (gmap (list byte) AnonymousSenderTag).

Definition new : t := ∅.

Definition insert_new (s : t) (recipient : Recipient.t) (tag : AnonymousSenderTag) : t := <[Recipient.to_bytes recipient := tag]> s.

Definition try_get_existing (s : t) (recipient : Recipient.t) : option AnonymousSenderTag := s !! Recipient.to_bytes recipient.

Definition exists_tag (s : t) (recipient : Recipient.t) : bool := bool_decide (is_Some (s !! Recipient.to_bytes recipient)).

End UsedSenderTags.
