(* ===== verification/ReceivedBuffer.v ===== *)
(** * The buffer of received messages

    Models [common/client-core/src/client/received_buffer.rs]: the buffer
    decrypts what the gateway delivers, reassembles messages from fragments,
    sorts them by kind, and hands them to the application or keeps them until
    one connects.  What is sent on channels to other tasks is part of the
    state.  Decryption with the keys of reply blocks uses
    [replies/reply_storage/key_storage.rs]. *)

From Stdlib.Strings Require Import Byte.
From stdpp Require Import gmap list.
From S2P Require Import Prelude Bytes Fragments Reconstruction Addressing Outfox PacketSizes NymPackets Topology Processing Replies NymMessages ReplyStorage.
#[local] Open Scope Z_scope.

(** A message for the application, with the tag of its sender when it can be replied to. *)
Record ReconstructedMessage : Type := mkReconstructed {
  reconstructed_message : list byte;
  reconstructed_sender_tag : option AnonymousSenderTag
}.

#[export] Instance ReconstructedMessage_eq_dec : EqDecision ReconstructedMessage.
Proof. solve_decision. Defined.

Inductive PacketStatisticsEvent : Type :=
| CoverPacketReceived (size : Z)
| RealPacketReceived (size : Z).

(** What the buffer tells the reply controller. *)
Inductive ReplyControllerMessage `{SurbApi} : Type :=
| AdditionalSurbs (sender_tag : AnonymousSenderTag) (reply_surbs : list ReplySurb.t) (from_surb_request : bool)
| AdditionalSurbsRequest (recipient : Recipient.t) (amount : Z).

(** The channel to the application: its number. *)
Definition ReconstructedMessagesSender : Type := Z.

Inductive ReceivedBufferMessage : Type :=
| ReceiverAnnounce (sender : ReconstructedMessagesSender)
| ReceiverDisconnect.

Module ReceivedMessagesBuffer.

Section Buffer.
Context `{SurbApi} `{OutfoxCrypto} `{KeyApi} `{StreamCipher} `{PacketCrypto}.

(** [ReceivedMessagesBufferInner]. *)
Record inner : Type := mkInner {
  messages : list ReconstructedMessage;
  local_encryption_key : list byte;
  message_receiver : MessageReceiver.t;
  message_sender : option ReconstructedMessagesSender;
  recently_reconstructed : gset Z;
  stats_tx : list PacketStatisticsEvent
}.

(** The buffer, with what it sent to the application (on which channel) and to the reply controller. *)
Record t : Type := mk {
  buffer : inner;
  reply_key_storage : SentReplyKeys.t;
  delivered : list (ReconstructedMessagesSender * list ReconstructedMessage);
  reply_controller_sender : list ReplyControllerMessage
}.

Definition new (local_encryption_key : list byte) (reply_key_storage : SentReplyKeys.t) : t :=
  mk (mkInner [] local_encryption_key MessageReceiver.new None ∅ []) reply_key_storage [] [].

Definition report (i : inner) (e : PacketStatisticsEvent) : inner :=
  mkInner (messages i) (local_encryption_key i) (message_receiver i) (message_sender i) (recently_reconstructed i)
    (stats_tx i ++ [e]).

Definition with_receiver (i : inner) (r : MessageReceiver.t) : inner :=
  mkInner (messages i) (local_encryption_key i) r (message_sender i) (recently_reconstructed i) (stats_tx i).

Definition mark_sets (i : inner) (used_sets : list Z) : inner :=
  mkInner (messages i) (local_encryption_key i) (message_receiver i) (message_sender i)
    (recently_reconstructed i ∪ list_to_set used_sets) (stats_tx i).

Definition recover_from_fragment (i : inner) (fragment_data : list byte) (fragment_data_size : Z)
    : outcome ChunkingError (option NymMessage.t * inner) :=
  if is_cover fragment_data then Ok (None, report i (CoverPacketReceived fragment_data_size))
  else
    let i := report i (RealPacketReceived fragment_data_size) in
    match MessageReceiver.recover_fragment fragment_data with
    | Err _ => Ok (None, i)
    | Panic p => Panic p
    | Ok fragment =>
        if bool_decide (Fragment.id fragment ∈ recently_reconstructed i) then Ok (None, i)
        else
          let? (r, result) := MessageReceiver.insert_new_fragment (message_receiver i) fragment in
          let i := with_receiver i r in
          match result with
          | Err (MessageReceiver.MalformedReconstructedMessage _ used_sets) => Ok (None, mark_sets i used_sets)
          | Err _ => Panic ExplicitPanic
          | Ok (Some (reconstructed_message, used_sets)) => Ok (Some reconstructed_message, mark_sets i used_sets)
          | Ok None => Ok (None, i)
          | Panic p => Panic p
          end
    end.

Definition process_received_reply (i : inner) (reply_ciphertext reply_key : list byte)
    : outcome ChunkingError (option NymMessage.t * inner) :=
  recover_from_fragment i (MessageReceiver.recover_plaintext_from_reply reply_ciphertext reply_key) (len reply_ciphertext).

Definition process_received_regular_packet (i : inner) (raw_fragment : list byte)
    : outcome ChunkingError (option NymMessage.t * inner) :=
  match MessageReceiver.recover_plaintext_from_regular_packet (local_encryption_key i) raw_fragment with
  | Err _ => Ok (None, i)
  | Panic p => Panic p
  | Ok fragment_data => recover_from_fragment i fragment_data (len raw_fragment)
  end.

Definition with_sender (b : t) (messages : list ReconstructedMessage) (sender : option ReconstructedMessagesSender)
    (delivered : list (ReconstructedMessagesSender * list ReconstructedMessage)) : t :=
  let i := buffer b in
  mk (mkInner messages (local_encryption_key i) (message_receiver i) sender (recently_reconstructed i) (stats_tx i))
    (reply_key_storage b) delivered (reply_controller_sender b).

Definition disconnect_sender {E} (b : t) : outcome E t :=
  match message_sender (buffer b) with
  | None => Panic ExplicitPanic
  | Some _ => Ok (with_sender b (messages (buffer b)) None (delivered b))
  end.

(** [unbounded_send] fails on the channels in [closed]. *)
Definition connect_sender {E} (closed : gset Z) (b : t) (sender : ReconstructedMessagesSender) : outcome E t :=
  match message_sender (buffer b) with
  | Some _ => Panic ExplicitPanic
  | None =>
      let stored_messages := messages (buffer b) in
      if bool_decide (stored_messages = []) then Ok (with_sender b [] (Some sender) (delivered b))
      else if bool_decide (sender ∈ closed) then Ok (with_sender b stored_messages None (delivered b))
      else Ok (with_sender b [] (Some sender) (delivered b ++ [(sender, stored_messages)]))
  end.

Definition handle_reconstructed_plain_messages (msgs : list (list byte)) : list ReconstructedMessage :=
  (fun m => mkReconstructed m None) <$> msgs.

Definition to_reply_controller (b : t) (m : ReplyControllerMessage) : t :=
  mk (buffer b) (reply_key_storage b) (delivered b) (reply_controller_sender b ++ [m]).

Fixpoint handle_reconstructed_repliable_messages (b : t) (msgs : list RepliableMessage.t) : t * list ReconstructedMessage :=
  match msgs with
  | [] => (b, [])
  | msg :: msgs =>
      let tag := RepliableMessage.sender_tag msg in
      let '(reconstructed, reply_surbs, from_surb_request) :=
        match RepliableMessage.content msg with
        | RepliableMessage.Data message reply_surbs => ([mkReconstructed message (Some tag)], reply_surbs, false)
        | RepliableMessage.AdditionalSurbs reply_surbs => ([], reply_surbs, true)
        | RepliableMessage.Heartbeat additional_reply_surbs => ([], additional_reply_surbs, false)
        end in
      let b := to_reply_controller b (AdditionalSurbs tag reply_surbs from_surb_request) in
      let '(b, rest) := handle_reconstructed_repliable_messages b msgs in
      (b, reconstructed ++ rest)
  end.

Fixpoint handle_reconstructed_reply_messages (b : t) (msgs : list ReplyMessage.t) : t * list ReconstructedMessage :=
  match msgs with
  | [] => (b, [])
  | ReplyMessage.Data message :: msgs =>
      let '(b, rest) := handle_reconstructed_reply_messages b msgs in
      (b, mkReconstructed message None :: rest)
  | ReplyMessage.SurbRequest recipient amount :: msgs =>
      handle_reconstructed_reply_messages (to_reply_controller b (AdditionalSurbsRequest recipient amount)) msgs
  end.

Definition plain_of (m : NymMessage.t) : option (list byte) := match m with NymMessage.Plain p => Some p | _ => None end.
Definition repliable_of (m : NymMessage.t) : option RepliableMessage.t := match m with NymMessage.Repliable r => Some r | _ => None end.
Definition reply_of (m : NymMessage.t) : option ReplyMessage.t := match m with NymMessage.Reply r => Some r | _ => None end.

(** Plain messages first, then repliable ones, then replies. *)
Definition handle_reconstructed_messages (closed : gset Z) (b : t) (msgs : list NymMessage.t) : t :=
  match msgs with
  | [] => b
  | _ =>
      let plain := handle_reconstructed_plain_messages (omap plain_of msgs) in
      let '(b, repliable) := handle_reconstructed_repliable_messages b (omap repliable_of msgs) in
      let '(b, replies) := handle_reconstructed_reply_messages b (omap reply_of msgs) in
      let reconstructed_messages := plain ++ repliable ++ replies in
      match message_sender (buffer b) with
      | Some sender =>
          if bool_decide (sender ∈ closed)
          then with_sender b (messages (buffer b) ++ reconstructed_messages) None (delivered b)
          else with_sender b (messages (buffer b)) (Some sender) (delivered b ++ [(sender, reconstructed_messages)])
      | None => with_sender b (messages (buffer b) ++ reconstructed_messages) None (delivered b)
      end
  end.

Definition get_reply_key (keys : SentReplyKeys.t) (raw_message : list byte) : option (list byte * list byte) * SentReplyKeys.t :=
  let reply_surb_digest_size := reply_surb_key_digest_size in
  if len raw_message <? reply_surb_digest_size then (None, keys)
  else
    let possible_key_digest := take (Z.to_nat reply_surb_digest_size) raw_message in
    let '(popped, keys) := SentReplyKeys.try_pop keys possible_key_digest in
    (match popped with
     | Some k => Some (SentReplyKeys.key k, drop (Z.to_nat reply_surb_digest_size) raw_message)
     | None => None
     end, keys).

(** One packet: as a reply when its first bytes are the digest of a key, as a regular packet otherwise. *)
Definition process_one (i : inner) (keys : SentReplyKeys.t) (msg : list byte)
    : outcome ChunkingError (option NymMessage.t * inner * SentReplyKeys.t) :=
  let '(found, keys) := get_reply_key keys msg in
  let? (completed_message, i) :=
    match found with
    | Some (reply_key, reply_message) => process_received_reply i reply_message reply_key
    | None => process_received_regular_packet i msg
    end in
  Ok (completed_message, i, keys).

(** The loop over the packets, with the messages that they complete. *)
Fixpoint process_all (i : inner) (keys : SentReplyKeys.t) (msgs : list (list byte))
    : outcome ChunkingError (list NymMessage.t * inner * SentReplyKeys.t) :=
  match msgs with
  | [] => Ok ([], i, keys)
  | msg :: msgs =>
      let? (completed_message, i, keys) := process_one i keys msg in
      let? (completed_messages, i, keys) := process_all i keys msgs in
      Ok (match completed_message with Some m => m :: completed_messages | None => completed_messages end, i, keys)
  end.

Definition handle_new_received (closed : gset Z) (b : t) (msgs : list (list byte)) : outcome ChunkingError t :=
  let? (completed_messages, i, keys) := process_all (buffer b) (reply_key_storage b) msgs in
  let b := mk i keys (delivered b) (reply_controller_sender b) in
  Ok (handle_reconstructed_messages closed b completed_messages).

(** [RequestReceiver::handle_message]. *)
Definition handle_message {E} (closed : gset Z) (b : t) (message : ReceivedBufferMessage) : outcome E t :=
  match message with
  | ReceiverAnnounce sender => connect_sender closed b sender
  | ReceiverDisconnect => disconnect_sender b
  end.

End Buffer.

End ReceivedMessagesBuffer.
