(* ===== verification/ReceivedFacts.v ===== *)
(** * What the buffer of received messages guarantees

    Packets may arrive in any order and, when acknowledgements are lost, more
    than once; packets of many senders, replies and cover traffic are mixed.
    Every message still comes out exactly once, and none is lost between the
    buffer and the application. *)

From Stdlib.Strings Require Import Byte.
From stdpp Require Import gmap list.
From S2P Require Import Prelude Bytes Float64 Fragments FragmentSets Reconstruction Addressing Outfox OutfoxFacts PacketSizes NymPackets Topology Processing Replies NymMessages MessageFacts ReplyStorage ReceivedBuffer.
#[local] Open Scope Z_scope.

Import ReceivedMessagesBuffer.

(** ** Receiving fragments again *)

Lemma set_done_ext got got' s : (forall g, g ∈ got <-> g ∈ got') -> set_done got s = set_done got' s.
Proof.
  intros H. apply eq_true_iff_eq. rewrite !set_done_true. split; intros Hd f Hf; apply H; auto.
Qed.

Lemma partial_buffer_ext got got' s p n : (forall g, g ∈ got <-> g ∈ got') -> partial_buffer got s p n = partial_buffer got' s p n.
Proof.
  intros H. unfold partial_buffer. rewrite (set_done_ext got got') by done. f_equal. apply list_fmap_ext. intros i g _.
  unfold received. apply decide_ext, H.
Qed.

Lemma inv_ext W got got' r : (forall g, g ∈ got <-> g ∈ got') -> inv W got r -> inv W got' r.
Proof.
  intros H [Ho Hc Hn]. assert (forall m, m_done got' m = m_done got m) as E.
  { intros m. apply set_done_ext. intros g. symmetry. apply H. }
  split.
  - intros m Hm Hd. rewrite E in Hd. intros j id s Hj Hs. rewrite <- (partial_buffer_ext got got') by done.
    destruct (Ho m Hm Hd j id s Hj Hs) as [?|[? Hno]]; [by left|right]. split; [done|]. intros f Hf. rewrite <- H. auto.
  - intros m id Hm Hd. rewrite E in Hd. eauto.
  - done.
Qed.

(** ** Arrivals *)

(** What reaches a client: a fragment in a regular packet, a fragment in a reply, a reply that arrived before, or cover
    traffic. *)
Inductive arrival : Type :=
| Regular (ephemeral : list byte) (f : Fragment.t)
| ReplyTo (key : list byte) (f : Fragment.t)
| Repeated (key : list byte) (f : Fragment.t)
| Cover (ephemeral : list byte) (size : Z).

Definition carried (a : arrival) : option Fragment.t := match a with Regular _ f | ReplyTo _ f => Some f | Repeated _ _ | Cover _ _ => None end.

Definition reply_key (a : arrival) : option (list byte) := match a with ReplyTo key _ => Some key | _ => None end.

Section Receiving.
Context `{SurbApi} `{!SurbLaws} `{OutfoxCrypto} `{KeyApi} `{StreamCipherLaws} `{PacketCryptoLaws}.

(** The bytes that the client with this key gets from its gateway. *)
Definition packet (local : list byte) (a : arrival) : list byte :=
  match a with
  | Regular ephemeral f =>
      let '(public, shared) := new_ephemeral_shared_key ephemeral (x25519_public local) in
      public ++ stream_encrypt shared zero_iv (Fragment.into_bytes f)
  | ReplyTo key f | Repeated key f => SurbEncryptionKey.compute_digest key ++ stream_encrypt key zero_iv (Fragment.into_bytes f)
  | Cover ephemeral size =>
      let '(public, shared) := new_ephemeral_shared_key ephemeral (x25519_public local) in
      public ++ stream_encrypt shared zero_iv (cover_content size)
  end.

(** Decrypted as a regular packet, these bytes are no fragment. *)
Definition unreadable (local data : list byte) : Prop :=
  match MessageReceiver.recover_plaintext_from_regular_packet local data with
  | Ok plaintext => is_cover plaintext = true \/ exists e, MessageReceiver.recover_fragment plaintext = Err e
  | Err _ => True
  | Panic _ => False
  end.

(** A reply uses a key of the store; the public key of another packet is not the digest of one.  The key of a reply that
    arrives again is used up, so the reply is taken for a regular packet; what that decrypts to is no fragment. *)
Definition arrival_ok (local : list byte) (keys : SentReplyKeys.t) (a : arrival) : Prop :=
  match a with
  | Regular ephemeral _ => keys !! x25519_public ephemeral = None
  | ReplyTo key _ => exists at', keys !! SurbEncryptionKey.compute_digest key = Some (SentReplyKeys.mkUsedKey key at')
  | Repeated key _ => keys !! SurbEncryptionKey.compute_digest key = None /\ unreadable local (packet local a)
  | Cover ephemeral size => keys !! x25519_public ephemeral = None /\ 18 <= size
  end.

(** The store after a packet. *)
Definition keys_after (keys : SentReplyKeys.t) (a : arrival) : SentReplyKeys.t :=
  match reply_key a with Some key => delete (SurbEncryptionKey.compute_digest key) keys | None => keys end.

(** Packets that arrive one after the other. *)
Fixpoint arrivals_ok (local : list byte) (keys : SentReplyKeys.t) (arrivals : list arrival) : Prop :=
  match arrivals with
  | [] => True
  | a :: arrivals => arrival_ok local keys a /\ arrivals_ok local (keys_after keys a) arrivals
  end.

Lemma arrivals_ok_app local keys l1 l2 :
  arrivals_ok local keys (l1 ++ l2) <-> arrivals_ok local keys l1 /\ arrivals_ok local (foldl keys_after keys l1) l2.
Proof. revert keys. induction l1 as [|a l1 IH]; intros keys; simpl; [naive_solver|]. rewrite IH. naive_solver. Qed.

Lemma arrival_ok_after local keys a b :
  arrival_ok local keys b ->
  (forall k k', reply_key a = Some k -> reply_key b = Some k' -> SurbEncryptionKey.compute_digest k <> SurbEncryptionKey.compute_digest k') ->
  arrival_ok local (keys_after keys a) b.
Proof.
  intros Hb Hne. unfold keys_after. destruct (reply_key a) as [k|] eqn:Ek; [|done].
  destruct b as [e f|k' f|k' f|e n]; cbn [arrival_ok reply_key] in *.
  - rewrite lookup_delete. case_decide; [done|]. exact Hb.
  - destruct Hb as [at' Hb]. exists at'. rewrite lookup_delete_ne; [done|]. by apply Hne.
  - destruct Hb as [Hb Hn]. split; [|done]. rewrite lookup_delete. case_decide; [done|]. exact Hb.
  - destruct Hb as [Hb Hn]. split; [|done]. rewrite lookup_delete. case_decide; [done|]. exact Hb.
Qed.

(** Replies with keys of their own. *)
Lemma distinct_arrivals_ok local keys arrivals :
  Forall (arrival_ok local keys) arrivals -> NoDup (SurbEncryptionKey.compute_digest <$> omap reply_key arrivals) ->
  arrivals_ok local keys arrivals.
Proof.
  revert keys. induction arrivals as [|a arrivals IH]; intros keys Hok Hdup; [done|]. apply Forall_cons in Hok as [Ha Hok].
  split; [done|]. apply IH.
  - apply Forall_forall. intros b Hb. rewrite Forall_forall in Hok. apply arrival_ok_after; [auto|].
    intros k k' Ea Eb Ek. simpl in Hdup. rewrite Ea in Hdup. simpl in Hdup. apply NoDup_cons in Hdup as [Hnin _]. apply Hnin.
    rewrite Ek. apply list_elem_of_fmap_2. apply list_elem_of_omap. eauto.
  - simpl in Hdup. destruct (reply_key a); [|done]. simpl in Hdup. by apply NoDup_cons in Hdup as [_ ?].
Qed.

(** The messages that were sent, by their fragments. *)
Definition message_of (hops : Z) (w : msg) : NymMessage.t :=
  match PaddedMessage.remove_padding (m_data w) hops with Ok m => m | _ => NymMessage.Plain [] end.

(** ** Between the buffer and the application *)

(** What the application gets of a message. *)
Definition for_application (m : NymMessage.t) : option ReconstructedMessage :=
  match m with
  | NymMessage.Plain p => Some (mkReconstructed p None)
  | NymMessage.Repliable r =>
      match RepliableMessage.content r with
      | RepliableMessage.Data message _ => Some (mkReconstructed message (Some (RepliableMessage.sender_tag r)))
      | _ => None
      end
  | NymMessage.Reply (ReplyMessage.Data message) => Some (mkReconstructed message None)
  | NymMessage.Reply _ => None
  end.

(** Reassembly leaves the side of the application alone. *)
Definition same_side (i i' : inner) : Prop := messages i' = messages i /\ message_sender i' = message_sender i.

Lemma recover_from_fragment_side i data n m i' : recover_from_fragment i data n = Ok (m, i') -> same_side i i'.
Proof.
  unfold recover_from_fragment, same_side. destruct (is_cover data); [intros [= <- <-]; done|].
  destruct (MessageReceiver.recover_fragment data); [|intros [= <- <-]; done|done].
  case_bool_decide; [intros [= <- <-]; done|]. intros Ok1. ok_inv Ok1. destruct x as [r result].
  destruct result as [[[m1 sets]|]|[]|]; try done; injection Ok1 as <- <-; done.
Qed.

Lemma process_all_side i keys msgs ms i' keys' : process_all i keys msgs = Ok (ms, i', keys') -> same_side i i'.
Proof.
  revert i keys ms i' keys'. induction msgs as [|msg msgs IH]; intros i keys ms i' keys' E; simpl in E; [by simplify_eq|].
  ok_inv E. destruct x as [[m i1] k1]. ok_inv E. destruct x as [[ms1 i2] k2]. injection E as <- <- <-.
  apply IH in E1. enough (same_side i i1) by (unfold same_side in *; destruct E1 as [-> ->]; done).
  unfold process_one in E0. destruct (get_reply_key keys msg) as [[[k p]|] k0]; ok_inv E0; destruct x as [m2 i3];
    injection E0 as <- <- <-.
  - by eapply recover_from_fragment_side.
  - unfold process_received_regular_packet in E. destruct (MessageReceiver.recover_plaintext_from_regular_packet _ _);
      [by eapply recover_from_fragment_side|by injection E as <- <-|done].
Qed.

(** What was handed to the application, and what is kept for it. *)
Definition kept (b : t) : list ReconstructedMessage := concat (delivered b).*2 ++ messages (buffer b).

(** Nothing is kept while an application is connected. *)
Definition flushed (b : t) : Prop := is_Some (message_sender (buffer b)) -> messages (buffer b) = [].

Lemma handle_repliable_ok b msgs b' out :
  handle_reconstructed_repliable_messages b msgs = (b', out) ->
  buffer b' = buffer b /\ reply_key_storage b' = reply_key_storage b /\ delivered b' = delivered b
  /\ out = omap for_application (NymMessage.Repliable <$> msgs).
Proof.
  revert b b' out. induction msgs as [|m msgs IH]; intros b b' out E; simpl in E; [by simplify_eq|].
  destruct (RepliableMessage.content m) as [message surbs|surbs|surbs] eqn:Ec;
    (destruct (handle_reconstructed_repliable_messages _ msgs) as [b1 rest] eqn:E1; injection E as <- <-;
     destruct (IH _ _ _ E1) as (? & ? & ? & ->); split_and!; [done..|]; simpl; by rewrite Ec).
Qed.

Lemma handle_replies_ok b msgs b' out :
  handle_reconstructed_reply_messages b msgs = (b', out) ->
  buffer b' = buffer b /\ reply_key_storage b' = reply_key_storage b /\ delivered b' = delivered b
  /\ out = omap for_application (NymMessage.Reply <$> msgs).
Proof.
  revert b b' out. induction msgs as [|m msgs IH]; intros b b' out E; simpl in E; [by simplify_eq|].
  destruct m as [message|recipient amount].
  - destruct (handle_reconstructed_reply_messages b msgs) as [b1 rest] eqn:E1. injection E as <- <-.
    destruct (IH _ _ _ E1) as (? & ? & ? & ->). done.
  - destruct (IH _ _ _ E) as (? & ? & ? & ->). done.
Qed.

(** The three kinds together are all messages. *)
Lemma sorted_by_kind msgs :
  omap for_application msgs
  ≡ₚ handle_reconstructed_plain_messages (omap plain_of msgs) ++ omap for_application (NymMessage.Repliable <$> omap repliable_of msgs)
     ++ omap for_application (NymMessage.Reply <$> omap reply_of msgs).
Proof.
  unfold handle_reconstructed_plain_messages. induction msgs as [|m msgs IH]; [done|].
  destruct m as [p|r|r]; simpl in *.
  - by rewrite IH.
  - destruct (RepliableMessage.content r); simpl; rewrite IH; [|done..]. by rewrite Permutation_middle.
  - destruct r; simpl; rewrite IH; [|done]. by rewrite !app_assoc, Permutation_middle.
Qed.

(** Messages that come out of the receiver are handed out or kept. *)
Lemma handle_reconstructed_ok closed b msgs :
  flushed b ->
  let b' := handle_reconstructed_messages closed b msgs in
  flushed b' /\ kept b' ≡ₚ kept b ++ omap for_application msgs
  /\ message_receiver (buffer b') = message_receiver (buffer b) /\ recently_reconstructed (buffer b') = recently_reconstructed (buffer b)
  /\ local_encryption_key (buffer b') = local_encryption_key (buffer b) /\ reply_key_storage b' = reply_key_storage b
  /\ (closed = ∅ -> message_sender (buffer b') = message_sender (buffer b)).
Proof.
  intros Hf. destruct msgs as [|m msgs]; [simpl; by rewrite app_nil_r|]. cbn zeta. rewrite (sorted_by_kind (m :: msgs)).
  unfold handle_reconstructed_messages. set (ms := m :: msgs).
  destruct (handle_reconstructed_repliable_messages b (omap repliable_of ms)) as [b1 o1] eqn:E1.
  destruct (handle_repliable_ok _ _ _ _ E1) as (B1 & K1 & D1 & ->).
  destruct (handle_reconstructed_reply_messages b1 (omap reply_of ms)) as [b2 o2] eqn:E2.
  destruct (handle_replies_ok _ _ _ _ E2) as (B2 & K2 & D2 & ->).
  unfold kept, flushed in *. rewrite B2, B1. generalize (handle_reconstructed_plain_messages (omap plain_of ms)
    ++ omap for_application (NymMessage.Repliable <$> omap repliable_of ms) ++ omap for_application (NymMessage.Reply <$> omap reply_of ms)).
  intros out. destruct (message_sender (buffer b)) as [s|] eqn:Es.
  - rewrite (Hf ltac:(eauto)). destruct (bool_decide_reflect (s ∈ closed)) as [Hc|Hc]; cbn; rewrite D2, D1, B2, B1, K2, K1.
    + split_and!; try done; [by rewrite app_nil_r|intros ->; by apply not_elem_of_empty in Hc].
    + rewrite fmap_app, concat_app, !app_nil_r. simpl. rewrite app_nil_r. split_and!; done.
  - cbn. rewrite D2, D1, B2, B1, K2, K1, app_assoc. split_and!; done.
Qed.

(** Requests of the application move messages without losing any. *)
Lemma handle_message_ok {E} closed b r b' :
  flushed b -> handle_message (E := E) closed b r = Ok b' ->
  flushed b' /\ kept b' = kept b /\ message_receiver (buffer b') = message_receiver (buffer b)
  /\ recently_reconstructed (buffer b') = recently_reconstructed (buffer b)
  /\ local_encryption_key (buffer b') = local_encryption_key (buffer b) /\ reply_key_storage b' = reply_key_storage b.
Proof.
  intros Hf. destruct r as [s|]; simpl; unfold connect_sender, disconnect_sender, kept, flushed in *;
    destruct (message_sender (buffer b)) as [old|] eqn:Es; try done.
  - destruct (bool_decide_reflect (messages (buffer b) = [])) as [->|Hm]; [intros [= <-]; cbn; done|].
    destruct (bool_decide_reflect (s ∈ closed)); intros [= <-]; cbn; [split_and!; done|].
    rewrite fmap_app, concat_app, app_nil_r. simpl. by rewrite app_nil_r.
  - intros [= <-]. cbn. split_and!; done.
Qed.

Section Run.
Context (W : list msg) (HWd : NoDup W) (HW : forall w, w ∈ W -> msg_ok w).
Context (Hdisj : forall m m' id, m ∈ W -> m' ∈ W -> id ∈ m_ids m -> id ∈ m_ids m' -> m = m').
Context (hops : Z) (local : list byte).
Context (Hdecode : forall w, w ∈ W -> exists m, PaddedMessage.remove_padding (m_data w) hops = Ok m).

(** The fragments [got] have arrived. *)
Record buffer_inv (got : list Fragment.t) (i : inner) : Prop := {
  bi_reconstructor : inv W got (MessageReceiver.reconstructor (message_receiver i));
  bi_hops : MessageReceiver.num_mix_hops (message_receiver i) = hops;
  bi_recent w id : w ∈ W -> id ∈ m_ids w -> id ∈ recently_reconstructed i <-> m_done got w = true;
  bi_key : local_encryption_key i = local
}.

Definition finished (got : list Fragment.t) : list NymMessage.t :=
  message_of hops <$> filter (fun w => m_done got w = true) W.

Lemma owned_fragment w f :
  w ∈ W -> f ∈ m_frags w -> header_ok (Fragment.header f) /\ linkable (Fragment.header f) /\ Fragment.id f ∈ m_ids w.
Proof using HW.
  intros Hw Hf. pose proof (HW w Hw) as Hok. pose proof Hf as (j & id & s & Hid & Hs & Hfs)%m_frags_index; [|done].
  rewrite (m_frag_id w f j id s) by done. destruct Hok as (Hmsg & _).
  destruct (message_sets_lookup _ _ _ _ j id Hmsg Hid) as (s' & part & Hs' & Hsok). rewrite Hs in Hs'; injection Hs' as <-.
  destruct (set_headers_ok _ _ _ _ _ Hsok f Hfs). split_and!; [done..|]. by eapply list_elem_of_lookup_2.
Qed.

(** The message that a fragment completes. *)
Definition completes (got : list Fragment.t) (f : Fragment.t) (w : msg) : option NymMessage.t :=
  if negb (m_done got w) && m_done (got ++ [f]) w then Some (message_of hops w) else None.

Lemma m_done_mono got f w : m_done got w = true -> m_done (got ++ [f]) w = true.
Proof using. unfold m_done. rewrite !set_done_true. intros Hd g Hg. apply elem_of_app. auto. Qed.

Lemma recover_from_fragment_ok got i w f size :
  buffer_inv got i -> w ∈ W -> f ∈ m_frags w ->
  exists i', recover_from_fragment i (Fragment.into_bytes f) size = Ok (completes got f w, i') /\ buffer_inv (got ++ [f]) i'.
Proof using HW Hdisj Hdecode.
  intros [Hr Hh Hrec Hk] Hw Hf. destruct (owned_fragment w f Hw Hf) as (Hok & Hlk & Hid).
  unfold recover_from_fragment. rewrite fragment_is_not_cover by done. unfold MessageReceiver.recover_fragment.
  rewrite (proj2 (try_from_bytes_iff _ f)) by done. cbn [map_err]. cbn [report recently_reconstructed message_receiver].
  unfold completes. destruct (m_done got w) eqn:Hd.
  - rewrite bool_decide_eq_true_2 by (by apply (Hrec w)). eexists. split; [done|].
    assert (forall g, g ∈ got <-> g ∈ got ++ [f]) as Hext.
    { intros g. rewrite elem_of_app, list_elem_of_singleton. split; [by left|]. intros [?| ->]; [done|].
      unfold m_done in Hd. rewrite set_done_true in Hd. auto. }
    split; cbn [report message_receiver local_encryption_key recently_reconstructed]; [by apply (inv_ext W got)|done| |done].
    intros w' id Hw' Hid'. rewrite (Hrec w' id) by done. unfold m_done. by rewrite (set_done_ext got (got ++ [f])).
  - rewrite bool_decide_eq_false_2 by (intros Hin; apply (Hrec w) in Hin; [congruence|done|done]).
    destruct (insert_step W HW Hdisj got _ w f Hr Hw Hf Hd) as (r' & Ei & Hr'). unfold MessageReceiver.insert_new_fragment.
    rewrite Ei. cbn [obind]. destruct (Hdecode w Hw) as (m & Em). cbn [MessageReceiver.num_mix_hops negb andb]. rewrite Hh.
    destruct (m_done (got ++ [f]) w) eqn:Hd'.
    + rewrite Em. cbn [obind]. eexists. split; [unfold message_of; by rewrite Em|].
      split; cbn [mark_sets with_receiver report message_receiver local_encryption_key recently_reconstructed MessageReceiver.reconstructor
                  MessageReceiver.num_mix_hops]; [done|done| |done].
      intros w' id Hw' Hid'. rewrite elem_of_union, elem_of_list_to_set, (Hrec w' id) by done.
      destruct (decide (w' = w)) as [->|Hne]; [split; [done|by right]|].
      rewrite (m_done_other W HW Hdisj w w') by done. split; [|by left]. intros [?|Hin]; [done|]. destruct Hne. eauto.
    + cbn [obind]. eexists. split; [done|].
      split; cbn [with_receiver report message_receiver local_encryption_key recently_reconstructed MessageReceiver.reconstructor
                  MessageReceiver.num_mix_hops]; [done|done| |done].
      intros w' id Hw' Hid'. rewrite (Hrec w' id) by done. destruct (decide (w' = w)) as [->|Hne]; [by rewrite Hd, Hd'|].
      by rewrite (m_done_other W HW Hdisj w w').
Qed.

(** A regular packet decrypts to what was put into it. *)
Lemma recover_regular ephemeral data :
  MessageReceiver.recover_plaintext_from_regular_packet local
    (x25519_public ephemeral ++ stream_encrypt (hkdf (diffie_hellman_secret ephemeral (x25519_public local))) zero_iv data)
  = Ok data.
Proof.
  pose proof (len_x25519_public ephemeral) as L. pose proof (len_nonneg (stream_encrypt (hkdf (diffie_hellman_secret ephemeral (x25519_public local))) zero_iv data)).
  unfold MessageReceiver.recover_plaintext_from_regular_packet. unfold PUBLIC_KEY_SIZE.
  destruct (Z.ltb_spec (len (x25519_public ephemeral ++ stream_encrypt (hkdf (diffie_hellman_secret ephemeral (x25519_public local))) zero_iv data)) 32) as [Hlt|_].
  { exfalso. revert Hlt. autorewrite with len. lia. }
  rewrite take_app_length', drop_app_length' by (unfold len in L; lia).
  unfold encryption_from_bytes. rewrite L. cbn [Z.eqb Pos.eqb negb PUBLIC_KEY_LENGTH map_err obind].
  unfold MessageReceiver.decrypt_raw_message, recompute_shared_key. by rewrite diffie_hellman_agree, stream_decrypt_encrypt.
Qed.

Definition owned (a : arrival) : Prop := forall f, carried a = Some f -> exists w, w ∈ W /\ f ∈ m_frags w.

Definition completed_by (got : list Fragment.t) (a : arrival) (m : option NymMessage.t) : Prop :=
  match carried a with
  | Some f => exists w, w ∈ W /\ f ∈ m_frags w /\ m = completes got f w
  | None => m = None
  end.

Lemma process_one_ok got i keys a :
  buffer_inv got i -> arrival_ok local keys a -> owned a ->
  exists m i', process_one i keys (packet local a) = Ok (m, i', keys_after keys a) /\ completed_by got a m
    /\ buffer_inv (got ++ option_list (carried a)) i'.
Proof.
  intros Hi Ha Hown. unfold process_one, get_reply_key, SentReplyKeys.try_pop, reply_surb_key_digest_size.
  assert (forall p q : list byte, len p = 32 -> (len (p ++ q) <? 32) = false /\ take (Z.to_nat 32) (p ++ q) = p /\ drop (Z.to_nat 32) (p ++ q) = q) as Hsplit.
  { intros p q Hp. split; [|by rewrite take_app_length', drop_app_length' by (unfold len in Hp; lia)].
    destruct (Z.ltb_spec (len (p ++ q)) 32) as [Hlt|]; [|done]. revert Hlt. autorewrite with len. pose proof (len_nonneg q). lia. }
  destruct a as [e f|k f|k f|e n]; cbn [packet carried reply_key option_list arrival_ok new_ephemeral_shared_key] in *.
  - destruct (Hown f eq_refl) as (w & Hw & Hf). destruct (recover_from_fragment_ok got i w f (len (packet local (Regular e f))) Hi Hw Hf) as (i' & E & Hi').
    destruct (Hsplit (x25519_public e) (stream_encrypt (hkdf (diffie_hellman_secret e (x25519_public local))) zero_iv (Fragment.into_bytes f)))
      as (-> & -> & ->); [apply len_x25519_public|].
    rewrite Ha. unfold process_received_regular_packet. rewrite (bi_key _ _ Hi), recover_regular.
    cbn [packet new_ephemeral_shared_key] in E. rewrite E. cbn [obind]. rewrite delete_id by done.
    eexists _, i'. split; [done|]. split; [by exists w|done].
  - destruct (Hown f eq_refl) as (w & Hw & Hf). destruct Ha as [at' Ha].
    destruct (recover_from_fragment_ok got i w f (len (stream_encrypt k zero_iv (Fragment.into_bytes f))) Hi Hw Hf) as (i' & E & Hi').
    destruct (Hsplit (SurbEncryptionKey.compute_digest k) (stream_encrypt k zero_iv (Fragment.into_bytes f)))
      as (-> & -> & ->); [apply len_key_digest|].
    rewrite Ha. unfold process_received_reply, MessageReceiver.recover_plaintext_from_reply, MessageReceiver.decrypt_raw_message.
    cbn [SentReplyKeys.key]. rewrite stream_decrypt_encrypt, E. cbn [obind].
    eexists _, i'. split; [done|]. split; [by exists w|done].
  - destruct Ha as [Ha Hn]. rewrite app_nil_r. unfold unreadable in Hn.
    set (ciphertext := stream_encrypt k zero_iv (Fragment.into_bytes f)) in *.
    destruct (Hsplit (SurbEncryptionKey.compute_digest k) ciphertext) as (-> & -> & ->); [apply len_key_digest|].
    rewrite Ha. unfold process_received_regular_packet. rewrite (bi_key _ _ Hi). rewrite delete_id by done.
    destruct (MessageReceiver.recover_plaintext_from_regular_packet _ _) as [data| |]; [|by eexists _, _|done].
    unfold recover_from_fragment. destruct (is_cover data); [eexists _, _; split; [done|]; split; [done|]; by destruct Hi|].
    destruct Hn as [|[e ->]]; [done|]. eexists _, _. split; [done|]. split; [done|]. by destruct Hi.
  - destruct Ha as [Ha Hn].
    destruct (Hsplit (x25519_public e) (stream_encrypt (hkdf (diffie_hellman_secret e (x25519_public local))) zero_iv (cover_content n)))
      as (-> & -> & ->); [apply len_x25519_public|].
    rewrite Ha. unfold process_received_regular_packet. rewrite (bi_key _ _ Hi), recover_regular.
    unfold recover_from_fragment. rewrite cover_content_is_cover by done. cbn [obind]. rewrite delete_id by done.
    eexists _, _. split; [done|]. split; [done|]. rewrite app_nil_r. by destruct Hi.
Qed.

Lemma finished_step got f w :
  w ∈ W -> f ∈ m_frags w -> finished (got ++ [f]) ≡ₚ option_list (completes got f w) ++ finished got.
Proof.
  intros Hw Hf. unfold completes, finished. destruct (m_done got w) eqn:Hd; cbn [negb andb].
  - assert (forall w', m_done (got ++ [f]) w' = m_done got w') as E.
    { intros w'. apply set_done_ext. intros g. rewrite elem_of_app, list_elem_of_singleton. split; [|by left].
      intros [?| ->]; [done|]. unfold m_done in Hd. rewrite set_done_true in Hd. auto. }
    simpl. apply eq_subrelation; [apply _|]. f_equal. apply list_filter_iff. intros w'. by rewrite E.
  - rewrite (filter_one_change W (m_done got) (m_done (got ++ [f])) w); try done.
    + rewrite fmap_app. by destruct (m_done (got ++ [f]) w).
    + intros w' Hw' Hne. by apply (m_done_other W HW Hdisj w w').
Qed.

Lemma process_all_ok arrivals got i keys :
  buffer_inv got i -> arrivals_ok local keys arrivals -> Forall owned arrivals ->
  exists ms i', process_all i keys (packet local <$> arrivals) = Ok (ms, i', foldl keys_after keys arrivals)
    /\ buffer_inv (got ++ omap carried arrivals) i' /\ ms ++ finished got ≡ₚ finished (got ++ omap carried arrivals).
Proof.
  revert got i keys. induction arrivals as [|a arrivals IH]; intros got i keys Hi Hok Hown.
  { exists [], i. simpl. rewrite app_nil_r. done. }
  destruct Hok as [Ha Hok]. apply Forall_cons in Hown as [Ho Hown].
  destruct (process_one_ok got i keys a Hi Ha Ho) as (m & i1 & E1 & Hm & Hi1).
  destruct (IH _ i1 (keys_after keys a) Hi1 Hok Hown) as (ms & i' & E & Hi' & Hperm).
  rewrite fmap_cons. cbn [process_all foldl]. rewrite E1. cbn [obind]. rewrite E. cbn [obind].
  eexists _, i'. split; [done|]. rewrite <- app_assoc in Hi', Hperm.
  assert (option_list (carried a) ++ omap carried arrivals = omap carried (a :: arrivals)) as Eo
    by (simpl; by destruct (carried a)).
  rewrite Eo in Hi', Hperm. split; [done|]. rewrite <- Hperm. unfold completed_by in Hm.
  destruct (carried a) as [f|]; cbn [option_list].
  - destruct Hm as (w & Hw & Hf & ->). rewrite (finished_step got f w Hw Hf).
    destruct (completes got f w); simpl; [|done]. by rewrite Permutation_middle.
  - subst m. by rewrite app_nil_r.
Qed.

(** ** A run of the client *)

(** Batches of packets from the gateway and requests of the application; [closed] are the channels whose
    receiver is gone at that moment. *)
Inductive event : Type :=
| Received (batch : list arrival)
| Request (r : ReceivedBufferMessage).

Definition handle_event (b : t) (e : gset Z * event) : outcome ChunkingError t :=
  match e with
  | (closed, Received batch) => handle_new_received closed b (packet local <$> batch)
  | (closed, Request r) => handle_message closed b r
  end.

Fixpoint run (b : t) (events : list (gset Z * event)) : outcome ChunkingError t :=
  match events with
  | [] => Ok b
  | e :: events => let? b := handle_event b e in run b events
  end.

Definition batch_of (e : gset Z * event) : list arrival := match e.2 with Received batch => batch | Request _ => [] end.

(** The application announces a channel when it has none, and gives it up only when it has one. *)
Fixpoint alternate (connected : bool) (events : list (gset Z * event)) : bool :=
  match events with
  | [] => true
  | (_, Received _) :: events => alternate connected events
  | (_, Request (ReceiverAnnounce _)) :: events => negb connected && alternate true events
  | (_, Request ReceiverDisconnect) :: events => connected && alternate false events
  end.

Record client_inv (got : list Fragment.t) (b : t) : Prop := {
  ci_buffer : buffer_inv got (buffer b);
  ci_flushed : flushed b;
  ci_kept : kept b ≡ₚ omap for_application (finished got)
}.

Lemma handle_received_ok got b closed batch :
  client_inv got b -> arrivals_ok local (reply_key_storage b) batch -> Forall owned batch ->
  exists b', handle_new_received closed b (packet local <$> batch) = Ok b' /\ client_inv (got ++ omap carried batch) b'
    /\ reply_key_storage b' = foldl keys_after (reply_key_storage b) batch
    /\ (closed = ∅ -> message_sender (buffer b') = message_sender (buffer b)).
Proof.
  intros [Hb Hf Hk] Hok Hown. destruct (process_all_ok batch got _ _ Hb Hok Hown) as (ms & i' & E & Hi' & Hperm).
  unfold handle_new_received. rewrite E. cbn [obind]. eexists. split; [done|].
  destruct (process_all_side _ _ _ _ _ _ E) as [S1 S2].
  set (b1 := mk i' (foldl keys_after (reply_key_storage b) batch) (delivered b) (reply_controller_sender b)).
  assert (flushed b1) as Hf1 by (unfold flushed in *; simpl; by rewrite S1, S2).
  destruct (handle_reconstructed_ok closed b1 ms Hf1) as (F & K & R1 & R2 & R3 & R4 & R5).
  assert (kept b1 = kept b) as Kb by (unfold kept; simpl; by rewrite S1).
  split; [|by split; [rewrite R4|intros Hc; rewrite R5 by done]]. split; [|done|].
  - destruct Hi' as [I1 I2 I3 I4]. split; rewrite ?R1, ?R2, ?R3; done.
  - rewrite K, Kb, Hk, <- Hperm, omap_app. apply Permutation_app_comm.
Qed.

Lemma run_ok events got b :
  client_inv got b -> arrivals_ok local (reply_key_storage b) (concat (batch_of <$> events)) ->
  Forall owned (concat (batch_of <$> events)) ->
  (forall b', run b events = Ok b' -> client_inv (got ++ omap carried (concat (batch_of <$> events))) b')
  /\ (Forall (fun e => e.1 = ∅) events -> alternate (is_some (message_sender (buffer b))) events = true -> exists b', run b events = Ok b').
Proof.
  revert got b. induction events as [|[closed e] events IH]; intros got b Hb Hok Hown.
  { simpl. rewrite app_nil_r. split; [by intros b' [= <-]|eauto]. }
  rewrite fmap_cons in *. cbn [concat] in *. destruct e as [batch|r].
  - change (batch_of (closed, Received batch)) with batch in *. apply arrivals_ok_app in Hok as [Ho1 Ho2]. apply Forall_app in Hown as [Hw1 Hw2].
    destruct (handle_received_ok got b closed batch Hb Ho1 Hw1) as (b1 & E1 & Hb1 & K1 & S1).
    destruct (IH (got ++ omap carried batch) b1 Hb1) as [IH1 IH2]; [by rewrite K1|done|].
    cbn [run handle_event]. rewrite E1. cbn [obind]. split.
    + intros b' E. apply IH1 in E. by rewrite omap_app, app_assoc.
    + intros [Hc Hcs]%Forall_cons Ha. apply IH2; [done|]. by rewrite S1.
  - change (batch_of (closed, Request r)) with (@nil arrival) in *. cbn [app] in *. split.
    + intros b' E. cbn [run handle_event] in E. ok_inv E. destruct Hb as [B1 B2 B3].
      destruct (handle_message_ok closed b r x B2 E0) as (F & K & R1 & R2 & R3 & R4).
      apply (IH got x); try done; [|by rewrite R4].
      destruct B1 as [I1 I2 I3 I4]. split; [split; rewrite ?R1, ?R2, ?R3; done|done|by rewrite K].
    + intros [Hc Hcs]%Forall_cons Ha. cbn [fst] in Hc. subst closed.
      assert (exists x, handle_message (E := ChunkingError) ∅ b r = Ok x
        /\ alternate (is_some (message_sender (buffer x))) events = true) as (x & E1 & Hx).
      { destruct r as [s|]; cbn [alternate] in Ha; apply andb_true_iff in Ha as [Hs Ha];
          unfold handle_message, connect_sender, disconnect_sender; destruct (message_sender (buffer b)); try done; [|by eexists].
        case_bool_decide; [by eexists|]. rewrite bool_decide_eq_false_2 by apply not_elem_of_empty. by eexists. }
      destruct Hb as [B1 B2 B3]. destruct (handle_message_ok ∅ b r x B2 E1) as (F & K & R1 & R2 & R3 & R4).
      cbn [run handle_event]. rewrite E1. cbn [obind]. apply (IH got x); try done; [|by rewrite R4].
      destruct B1 as [I1 I2 I3 I4]. split; [split; rewrite ?R1, ?R2, ?R3; done|done|by rewrite K].
Qed.

End Run.

(** A message as it was sent: its fragments hold it, padded. *)
Definition sent_ok (hops : Z) (p : msg * NymMessage.t) : Prop :=
  message_sets None (m_ids p.1) (m_sets p.1) (m_data p.1) /\ m_ids p.1 <> [] /\ message_ok hops p.2
  /\ exists plaintext_per_packet, m_data p.1 = NymMessage.pad_to_full_packet_lengths p.2 plaintext_per_packet.

(** What the application gets in a run. *)
Lemma run_delivers (sent : list (msg * NymMessage.t)) local keys (events : list (gset Z * event)) :
  Forall (sent_ok DEFAULT_NUM_MIX_HOPS) sent -> NoDup (concat (m_ids <$> sent.*1)) ->
  arrivals_ok local keys (concat (batch_of <$> events)) ->
  (forall f, f ∈ omap carried (concat (batch_of <$> events)) -> exists p, p ∈ sent /\ f ∈ m_frags p.1) ->
  (forall b, run local (new local keys) events = Ok b ->
    kept b ≡ₚ omap for_application (filter (fun p => m_done (omap carried (concat (batch_of <$> events))) p.1 = true) sent).*2)
  /\ (Forall (fun e => e.1 = ∅) events -> alternate false events = true -> exists b, run local (new local keys) events = Ok b).
Proof.
  intros Hsent Hids Hok Hown. set (W := sent.*1). rewrite Forall_forall in Hsent.
  assert (forall w, w ∈ W -> exists m, (w, m) ∈ sent) as HWm by (intros w ((? & m) & -> & Hp)%list_elem_of_fmap; eauto).
  destruct (world_NoDup W) as [HWd Hdups]; [intros w (m & Hp)%HWm; by apply (Hsent _ Hp)|done|].
  assert (forall w, w ∈ W -> msg_ok w) as HW.
  { intros w Hw. destruct (HWm w Hw) as (m & Hp). destruct (Hsent _ Hp) as (? & ? & _). repeat split; auto. }
  assert (forall p, p ∈ sent -> PaddedMessage.remove_padding (m_data p.1) DEFAULT_NUM_MIX_HOPS = Ok p.2) as Hdec.
  { intros p Hp. destruct (Hsent _ Hp) as (_ & _ & Hm & pp & ->). by apply remove_padding_pad. }
  assert (forall w, w ∈ W -> exists m, PaddedMessage.remove_padding (m_data w) DEFAULT_NUM_MIX_HOPS = Ok m) as Hdecode.
  { intros w (m & Hp)%HWm. exists m. by apply (Hdec (w, m)). }
  assert (client_inv W DEFAULT_NUM_MIX_HOPS local [] (new local keys)) as Hinit.
  { split; [split; simpl; [apply inv_empty|done| |done]|by intros []|].
    - intros w id Hw Hid. rewrite (m_done_nil w) by auto. split; [|done]. intros Hin. by apply not_elem_of_empty in Hin.
    - unfold finished. rewrite filter_none; [done|]. intros w Hw. by rewrite (m_done_nil w) by auto. }
  destruct (run_ok W HWd HW (world_disjoint W Hids) DEFAULT_NUM_MIX_HOPS local Hdecode events [] (new local keys) Hinit Hok)
    as [R1 R2].
  { apply Forall_forall. intros a Ha f Hf. destruct (Hown f) as (p & Hp & Hpf).
    { apply list_elem_of_omap. eauto. }
    exists p.1. split; [|done]. apply list_elem_of_fmap. eauto. }
  split; [|done]. intros b Hb. destruct (R1 b Hb) as [_ _ Hk]. rewrite Hk. simpl app.
  apply eq_subrelation; [apply _|]. f_equal. unfold finished, W. clear -Hdec.
  generalize (omap carried (concat (batch_of <$> events))). intros got. induction sent as [|p sent IH]; [done|].
  rewrite fmap_cons, !filter_cons. specialize (IH ltac:(intros; apply Hdec; by constructor)).
  case_decide; [|done]. rewrite !fmap_cons. f_equal; [|done]. unfold message_of. by rewrite (Hdec p) by constructor.
Qed.


End Receiving.
