(* ===== verification/AckControl.v ===== *)
(** * Pending acknowledgements

    Models [common/client-core/src/client/real_messages_control/acknowledgement_control]:
    the controller that keeps every fragment that was sent until its
    acknowledgement arrives, with a timer that asks for a retransmission
    ([action_controller.rs]), and the listeners for received acknowledgements
    and for packets that were sent.  The queue of timers is the one of the
    crate [tokio-util], behind [common/nonexhaustive-delayqueue]. *)

From Stdlib.Strings Require Import Byte.
From stdpp Require Import gmap list.
From S2P Require Import Prelude Bytes Fragments Addressing Outfox PacketSizes NymPackets Topology Processing Replies.
#[local] Open Scope Z_scope.

#[export] Instance FragmentIdentifier_eq_dec : EqDecision FragmentIdentifier.t.
Proof. solve_decision. Defined.

#[export] Instance FragmentIdentifier_countable : Countable FragmentIdentifier.t.
Proof.
  refine (inj_countable' (fun f => (FragmentIdentifier.set_id f, FragmentIdentifier.fragment_position f))
            (fun p => FragmentIdentifier.mk p.1 p.2) _). by intros [].
Defined.

(** [tokio_util::time::DelayQueue]: [queued] are the items that wait, by their keys. *)
Class DelayQueue := {
  Queue : Type;
  queue_new : Queue;
  queue_insert : Queue -> FragmentIdentifier.t -> Z -> nat * Queue;
  queue_remove : Queue -> nat -> option Queue;
  queue_expire : Queue -> nat -> option (FragmentIdentifier.t * Queue);
  queued : Queue -> gmap nat FragmentIdentifier.t
}.

(** The documentation: an item is inserted under a key that is not in use; [remove] panics when the key is
    not in the queue; an item that expires is returned and removed. *)
Class DelayQueueLaws `{DelayQueue} : Prop := {
  queued_new : queued queue_new = ∅;
  queued_insert q v timeout : let '(k, q') := queue_insert q v timeout in queued q !! k = None /\ queued q' = <[k := v]> (queued q);
  queued_remove q k :
    match queue_remove q k with
    | Some q' => is_Some (queued q !! k) /\ queued q' = delete k (queued q)
    | None => queued q !! k = None
    end;
  queued_expire q k :
    match queue_expire q k with
    | Some (v, q') => queued q !! k = Some v /\ queued q' = delete k (queued q)
    | None => queued q !! k = None
    end
}.

(** ** Fragments that were sent, [mod.rs] *)

Inductive PacketDestination : Type :=
| AnonymousDestination (recipient_tag : AnonymousSenderTag) (extra_surb_request : bool)
| KnownRecipient (recipient : Recipient.t).

Module PendingAcknowledgement.

Record t : Type := mk {
  message_chunk : Fragment.t;
  delay : Z;
  destination : PacketDestination;
  mix_hops : option Z
}.

Definition new_known (message_chunk : Fragment.t) (delay : Z) (recipient : Recipient.t) (mix_hops : option Z) : t :=
  mk message_chunk delay (KnownRecipient recipient) mix_hops.

Definition new_anonymous (message_chunk : Fragment.t) (delay : Z) (recipient_tag : AnonymousSenderTag) (extra_surb_request : bool) : t :=
  mk message_chunk delay (AnonymousDestination recipient_tag extra_surb_request) None.

Definition inner_fragment_identifier (p : t) : FragmentIdentifier.t := Fragment.fragment_identifier (message_chunk p).

Definition update_delay (p : t) (new_delay : Z) : t := mk (message_chunk p) new_delay (destination p) (mix_hops p).

End PendingAcknowledgement.

Inductive Action : Type :=
| InsertPending (pending_acks : list PendingAcknowledgement.t)
| RemovePending (frag_id : FragmentIdentifier.t)
| StartTimer (frag_id : FragmentIdentifier.t)
| UpdateDelay (frag_id : FragmentIdentifier.t) (delay : Z).

(** ** The controller, [action_controller.rs] *)

(** A retransmission that was asked for.  The channel holds a [Weak] reference to the fragment ([Requested]); a task that
    upgraded it shares the [Arc] ([Held]); it drops the reference before it sends [UpdateDelay] ([Answered]). *)
Inductive RetransmissionStage : Type := Requested | Held | Answered.

#[export] Instance RetransmissionStage_eq_dec : EqDecision RetransmissionStage.
Proof. solve_decision. Defined.

Module ActionController.

Section Controller.
Context `{DelayQueue}.

(** [ack_timeout] is [delay * ack_wait_multiplier + ack_wait_addition]; [retransmissions] are the references that other
    tasks have to the entries. *)
Record t : Type := mk {
  ack_timeout : Z -> Z;
  pending_acks_data : gmap FragmentIdentifier.t (PendingAcknowledgement.t * option nat);
  pending_acks_timers : Queue;
  retransmission_sender : list PendingAcknowledgement.t;
  retransmissions : list (FragmentIdentifier.t * RetransmissionStage)
}.

Definition new (ack_timeout : Z -> Z) : t := mk ack_timeout ∅ queue_new [] [].

Definition with_data (c : t) (data : gmap FragmentIdentifier.t (PendingAcknowledgement.t * option nat)) : t :=
  mk (ack_timeout c) data (pending_acks_timers c) (retransmission_sender c) (retransmissions c).

Definition with_retransmissions (c : t) (rs : list (FragmentIdentifier.t * RetransmissionStage)) : t :=
  mk (ack_timeout c) (pending_acks_data c) (pending_acks_timers c) (retransmission_sender c) rs.

(** [Arc::strong_count] of the entry: the reference of the controller and those that were upgraded. *)
Definition strong_count (c : t) (frag_id : FragmentIdentifier.t) : Z :=
  1 + len (filter (fun r => r = (frag_id, Held)) (retransmissions c)).

(** An entry that exists is overwritten. *)
Definition handle_insert (c : t) (pending_acks : list PendingAcknowledgement.t) : t :=
  foldl (fun c pending_ack =>
    with_data c (<[PendingAcknowledgement.inner_fragment_identifier pending_ack := (pending_ack, None)]> (pending_acks_data c)))
    c pending_acks.

Definition handle_start_timer (c : t) (frag_id : FragmentIdentifier.t) : t :=
  match pending_acks_data c !! frag_id with
  | Some (pending_ack_data, _) =>
      let timeout := ack_timeout c (PendingAcknowledgement.delay pending_ack_data) in
      let '(new_queue_key, timers) := queue_insert (pending_acks_timers c) frag_id timeout in
      mk (ack_timeout c) (<[frag_id := (pending_ack_data, Some new_queue_key)]> (pending_acks_data c)) timers (retransmission_sender c)
        (retransmissions c)
  | None => c
  end.

Definition handle_remove {E} (c : t) (frag_id : FragmentIdentifier.t) : outcome E t :=
  match pending_acks_data c !! frag_id with
  | None => Ok c
  | Some (_, queue_key) =>
      let c := with_data c (delete frag_id (pending_acks_data c)) in
      match queue_key with
      | Some queue_key =>
          match queue_remove (pending_acks_timers c) queue_key with
          | Some timers => Ok (mk (ack_timeout c) (pending_acks_data c) timers (retransmission_sender c) (retransmissions c))
          | None => Panic ExplicitPanic
          end
      | None => Ok c
      end
  end.

(** [Arc::try_unwrap] succeeds when no other task has a strong reference; the new [Arc] has none. *)
Definition handle_update_delay {E} (c : t) (frag_id : FragmentIdentifier.t) (delay : Z) : outcome E t :=
  match pending_acks_data c !! frag_id with
  | Some (pending_ack_data, queue_key) =>
      if strong_count c frag_id =? 1 then
        Ok (with_data c (<[frag_id := (PendingAcknowledgement.update_delay pending_ack_data delay, queue_key)]> (pending_acks_data c)))
      else Panic UnwrapErr
  | None => Ok c
  end.

(** The timer was taken off the queue. *)
Definition handle_expired_ack_timer {E} (c : t) (frag_id : FragmentIdentifier.t) : outcome E t :=
  match pending_acks_data c !! frag_id with
  | Some (pending_ack_data, queue_key) =>
      match queue_key with
      | None => Panic ExplicitPanic
      | Some _ =>
          Ok (mk (ack_timeout c) (<[frag_id := (pending_ack_data, None)]> (pending_acks_data c)) (pending_acks_timers c)
                (retransmission_sender c ++ [pending_ack_data]) (retransmissions c ++ [(frag_id, Requested)]))
      end
  | None => Ok c
  end.

Definition process_action {E} (c : t) (action : Action) : outcome E t :=
  match action with
  | InsertPending pending_acks => Ok (handle_insert c pending_acks)
  | RemovePending frag_id => handle_remove c frag_id
  | StartTimer frag_id => Ok (handle_start_timer c frag_id)
  | UpdateDelay frag_id delay => handle_update_delay c frag_id delay
  end.

Fixpoint take_out (r : FragmentIdentifier.t * RetransmissionStage) (rs : list (FragmentIdentifier.t * RetransmissionStage))
    : option (list (FragmentIdentifier.t * RetransmissionStage)) :=
  match rs with
  | [] => None
  | r' :: rs => if bool_decide (r' = r) then Some rs else cons r' <$> take_out r rs
  end.

(** The request moves on to the next stage, or ends; without one, nothing happens. *)
Definition move (c : t) (frag_id : FragmentIdentifier.t) (from : RetransmissionStage) (to : list RetransmissionStage) : t :=
  match take_out (frag_id, from) (retransmissions c) with
  | Some rs => with_retransmissions c ((pair frag_id <$> to) ++ rs)
  | None => c
  end.

(** One turn of the loop, an action or the timer with the given key, or a step of a task that retransmits: it upgrades its
    reference, or finds that the fragment is gone; it hands a weak one on to the task for replies, drops its own and sends
    [UpdateDelay], or drops it only.  When an entry is replaced, references to the old one count for the new one, too. *)
Inductive Turn : Type :=
| Perform (action : Action)
| Expire (key : nat)
| Upgrade (frag_id : FragmentIdentifier.t)
| Lapse (frag_id : FragmentIdentifier.t)
| HandOn (frag_id : FragmentIdentifier.t)
| Answer (frag_id : FragmentIdentifier.t)
| Abandon (frag_id : FragmentIdentifier.t).

Definition turn {E} (c : t) (w : Turn) : outcome E t :=
  match w with
  | Perform action =>
      let? c := process_action c action in
      Ok (match action with UpdateDelay frag_id _ => move c frag_id Answered [] | _ => c end)
  | Expire key =>
      match queue_expire (pending_acks_timers c) key with
      | Some (frag_id, timers) =>
          handle_expired_ack_timer
            (mk (ack_timeout c) (pending_acks_data c) timers (retransmission_sender c) (retransmissions c)) frag_id
      | None => Ok c
      end
  | Upgrade frag_id => Ok (move c frag_id Requested [Held])
  | Lapse frag_id => Ok (move c frag_id Requested [])
  | HandOn frag_id => Ok (move c frag_id Held [Held; Requested])
  | Answer frag_id => Ok (move c frag_id Held [Answered])
  | Abandon frag_id => Ok (move c frag_id Held [])
  end.

Fixpoint turns {E} (c : t) (ws : list Turn) : outcome E t :=
  match ws with
  | [] => Ok c
  | w :: ws => let? c := turn c w in turns c ws
  end.

End Controller.

End ActionController.

(** ** The listeners *)

Inductive AckStatisticsEvent : Type :=
| AckReceived (size : Z)
| CoverAckReceived (size : Z)
| RealAckReceived (size : Z).

(** [AcknowledgementListener::on_ack]: what it reports and the action it sends. *)
Definition on_ack `{StreamCipher} {E} (ack_key ack_content : list byte) : outcome E (list AckStatisticsEvent * list Action) :=
  let n := len ack_content in
  let? recovered := recover_identifier ack_key ack_content in
  match recovered with
  | None => Ok ([AckReceived n], [])
  | Some bytes =>
      match FragmentIdentifier.try_from_bytes bytes with
      | Ok frag_id =>
          if bool_decide (frag_id = COVER_FRAG_ID) then Ok ([AckReceived n; CoverAckReceived n], [])
          else Ok ([AckReceived n; RealAckReceived n], [RemovePending frag_id])
      | Err _ => Ok ([AckReceived n], [])
      | Panic p => Panic p
      end
  end.

(** [SentNotificationListener::on_sent_message]. *)
Definition on_sent_message (frag_id : FragmentIdentifier.t) : list Action :=
  if bool_decide (frag_id = COVER_FRAG_ID) then [] else [StartTimer frag_id].

(** ** Timers and entries *)

Module AckFacts.
Import ActionController.

Section Facts.
Context `{DelayQueueLaws}.

(** Every timer belongs to the entry that knows its key, and the other way round. *)
Record timers_ok (c : t) : Prop := {
  entry_timer id p k : pending_acks_data c !! id = Some (p, Some k) -> queued (pending_acks_timers c) !! k = Some id;
  timer_entry k id : queued (pending_acks_timers c) !! k = Some id -> exists p, pending_acks_data c !! id = Some (p, Some k);
  entry_id id p k : pending_acks_data c !! id = Some (p, k) -> PendingAcknowledgement.inner_fragment_identifier p = id
}.

(** No timer runs for the fragment. *)
Definition no_timer (c : t) (id : FragmentIdentifier.t) : bool :=
  match pending_acks_data c !! id with Some (_, Some _) => false | _ => true end.

(** The unfinished retransmissions of the fragment. *)
Definition unfinished (c : t) (id : FragmentIdentifier.t) : list (FragmentIdentifier.t * RetransmissionStage) :=
  filter (fun r => r.1 = id) (retransmissions c).

Definition idle (c : t) (id : FragmentIdentifier.t) : bool := bool_decide (unfinished c id = []).

(** Fragments are added only when no timer runs for them, and timers started only when no retransmission is under way
    either; [UpdateDelay] comes from a task that retransmitted the fragment, which is the only one to do so at that time. *)
Definition allowed (c : t) (w : Turn) : bool :=
  match w with
  | Perform (InsertPending ps) => forallb (fun p => no_timer c (PendingAcknowledgement.inner_fragment_identifier p)) ps
  | Perform (StartTimer id) => no_timer c id && idle c id
  | Perform (UpdateDelay id _) => bool_decide ((id, Answered) ∈ retransmissions c)
  | Answer id => bool_decide (len (unfinished c id) = 1)
  | _ => true
  end.

(** A fragment whose timer runs is not being retransmitted, and a retransmission that was answered is the only one. *)
Record references_ok (c : t) : Prop := {
  running_idle id p k : pending_acks_data c !! id = Some (p, Some k) -> unfinished c id = [];
  answered_alone id : (id, Answered) ∈ retransmissions c -> unfinished c id = [(id, Answered)]
}.

Lemma timers_new timeout : timers_ok (new timeout).
Proof.
  split; simpl; intros *; rewrite ?lookup_empty; try done. by rewrite queued_new, lookup_empty.
Qed.

Lemma references_new timeout : references_ok (new timeout).
Proof. split; simpl; [done|]. intros id Hin. by apply not_elem_of_nil in Hin. Qed.

Lemma insert_one_ok c p :
  timers_ok c -> no_timer c (PendingAcknowledgement.inner_fragment_identifier p) = true ->
  timers_ok (with_data c (<[PendingAcknowledgement.inner_fragment_identifier p := (p, None)]> (pending_acks_data c))).
Proof.
  intros [E T I] Hn. unfold no_timer in Hn. split; simpl.
  - intros id q k. rewrite lookup_insert. case_decide as Hid; [done|]. apply E.
  - intros k id Hk. destruct (T k id Hk) as (q & Eq). exists q. rewrite lookup_insert. case_decide as Hid; [|done].
    subst id. by rewrite Eq in Hn.
  - intros id q k. rewrite lookup_insert. case_decide as Hid; [by intros [= <- _]|]. apply I.
Qed.

Lemma insert_one_no_timer c p id :
  no_timer c id = true ->
  no_timer (with_data c (<[PendingAcknowledgement.inner_fragment_identifier p := (p, None)]> (pending_acks_data c))) id = true.
Proof. unfold no_timer; simpl. rewrite lookup_insert. by case_decide. Qed.

Lemma handle_insert_ok c ps :
  timers_ok c -> forallb (fun p => no_timer c (PendingAcknowledgement.inner_fragment_identifier p)) ps = true ->
  timers_ok (handle_insert c ps).
Proof.
  revert c. induction ps as [|p ps IH]; intros c Hc Hn; [done|]. simpl in Hn |- *. apply andb_true_iff in Hn as [Hp Hn].
  apply IH; [by apply insert_one_ok|]. rewrite forallb_forall in Hn |- *. intros q Hq. apply insert_one_no_timer. auto.
Qed.

Lemma handle_remove_data {E} c id c' :
  handle_remove (E := E) c id = Ok c' -> pending_acks_data c' = delete id (pending_acks_data c).
Proof.
  unfold handle_remove. destruct (pending_acks_data c !! id) as [[p [k|]]|] eqn:Eid; simpl; [|intros [= <-]..].
  - destruct (queue_remove _ k); [|done]. by intros [= <-].
  - done.
  - by rewrite delete_id.
Qed.

Lemma handle_remove_ok {E} c id : timers_ok c -> exists c', handle_remove (E := E) c id = Ok c' /\ timers_ok c'.
Proof.
  intros [E' T I]. unfold handle_remove. destruct (pending_acks_data c !! id) as [[p [k|]]|] eqn:Eid; [|eexists; split; [done|]..].
  - simpl. pose proof (queued_remove (pending_acks_timers c) k) as Hr.
    destruct (queue_remove (pending_acks_timers c) k) as [q'|]; [|rewrite (E' _ _ _ Eid) in Hr; done].
    destruct Hr as [_ Hr]. eexists. split; [done|]. split; simpl.
    + intros id' p' k'. rewrite lookup_delete. case_decide as Hid; [done|]. intros Ek. rewrite Hr, lookup_delete_ne; [by eapply E'|].
      intros ->. apply E' in Ek, Eid. congruence.
    + intros k' id'. rewrite Hr, lookup_delete. case_decide as Hk; [done|]. intros Ek. destruct (T _ _ Ek) as (p' & Ep). exists p'.
      rewrite lookup_delete_ne; [done|]. congruence.
    + intros id' p' k'. rewrite lookup_delete. case_decide; [done|]. apply I.
  - split; simpl.
    + intros id' p' k'. rewrite lookup_delete. case_decide; [done|]. apply E'.
    + intros k' id' Ek. destruct (T _ _ Ek) as (p' & Ep). exists p'. rewrite lookup_delete_ne; [done|]. congruence.
    + intros id' p' k'. rewrite lookup_delete. case_decide; [done|]. apply I.
  - by split.
Qed.

Lemma handle_start_timer_ok c id : timers_ok c -> no_timer c id = true -> timers_ok (handle_start_timer c id).
Proof.
  intros [E' T I] Hn. unfold handle_start_timer, no_timer in *. destruct (pending_acks_data c !! id) as [[p k]|] eqn:Eid; [|by split].
  destruct k; [done|]. pose proof (queued_insert (pending_acks_timers c) id (ack_timeout c (PendingAcknowledgement.delay p))) as Hq.
  destruct (queue_insert _ _ _) as [k q']. destruct Hq as [Hfresh Hq]. split; simpl.
  - intros id' p' k'. rewrite Hq, lookup_insert. case_decide as Hid; [intros [= <- <-]; subst; by rewrite lookup_insert_eq|].
    intros Ek. rewrite lookup_insert_ne; [by eapply E'|]. intros ->. apply E' in Ek. congruence.
  - intros k' id'. rewrite Hq, lookup_insert. case_decide as Hk; [intros [= <-]; subst; exists p; by rewrite lookup_insert_eq|].
    intros Ek. destruct (T _ _ Ek) as (p' & Ep). exists p'. rewrite lookup_insert_ne; [done|]. congruence.
  - intros id' p' k'. rewrite lookup_insert. case_decide as Hid; [intros [= <- <-]; subst; by eapply I|]. apply I.
Qed.

Lemma update_delay_timers c id p k d :
  timers_ok c -> pending_acks_data c !! id = Some (p, k) ->
  timers_ok (with_data c (<[id := (PendingAcknowledgement.update_delay p d, k)]> (pending_acks_data c))).
Proof.
  intros [E' T I] Eid. split; simpl.
  - intros id' p' k'. rewrite lookup_insert. case_decide as Hid; [intros [= <- ->]; subst; by eapply E'|]. apply E'.
  - intros k' id' Ek. destruct (T _ _ Ek) as (p' & Ep). rewrite lookup_insert. case_decide as Hid; [|by eexists].
    subst id'. rewrite Eid in Ep. injection Ep as -> ->. by eexists.
  - intros id' p' k'. rewrite lookup_insert. case_decide as Hid; [intros [= <- <-]; subst; apply (I _ _ _ Eid)|]. apply I.
Qed.

Lemma expire_ok {E} c k : timers_ok c -> exists c', turn (E := E) c (Expire k) = Ok c' /\ timers_ok c'.
Proof.
  intros [E' T I]. simpl. pose proof (queued_expire (pending_acks_timers c) k) as Hq.
  destruct (queue_expire _ _) as [[id q']|]; [|eexists; split; [done|]; by split]. destruct Hq as [Hk Hq].
  destruct (T _ _ Hk) as (p & Ep). unfold handle_expired_ack_timer. simpl. rewrite Ep. eexists. split; [done|]. split; simpl.
  - intros id' p' k'. rewrite lookup_insert. case_decide as Hid; [done|]. intros Ek. rewrite Hq, lookup_delete_ne; [by eapply E'|].
    intros ->. apply E' in Ek. congruence.
  - intros k' id'. rewrite Hq, lookup_delete. case_decide; [done|]. intros Ek. destruct (T _ _ Ek) as (p' & Ep'). exists p'.
    rewrite lookup_insert_ne; [done|]. congruence.
  - intros id' p' k'. rewrite lookup_insert. case_decide as Hid; [intros [= <- <-]; subst; by eapply I|]. apply I.
Qed.

(** ** References to the entries *)

Lemma take_out_perm r rs rs' : take_out r rs = Some rs' -> rs ≡ₚ r :: rs'.
Proof.
  revert rs'. induction rs as [|x rs IH]; intros rs' Ht; simpl in Ht; [done|]. case_bool_decide as Hx; [by simplify_eq|].
  destruct (take_out r rs) as [rs0|]; [|done]. injection Ht as <-. rewrite (IH rs0) by done. apply Permutation_swap.
Qed.

Lemma move_same_entries c id from to :
  pending_acks_data (move c id from to) = pending_acks_data c /\ pending_acks_timers (move c id from to) = pending_acks_timers c
  /\ retransmission_sender (move c id from to) = retransmission_sender c.
Proof. unfold move. by destruct (take_out _ _). Qed.

Lemma move_timers c id from to : timers_ok c -> timers_ok (move c id from to).
Proof. destruct (move_same_entries c id from to) as (E1 & E2 & _). intros [E' T I]. split; rewrite E1, ?E2; done. Qed.

(** What [move] does to the unfinished retransmissions of a fragment. *)
Lemma move_unfinished c id from to :
  move c id from to = c \/
  exists us, unfinished c id ≡ₚ (id, from) :: us /\ unfinished (move c id from to) id ≡ₚ (pair id <$> to) ++ us
    /\ forall id', id' <> id -> unfinished (move c id from to) id' ≡ₚ unfinished c id'.
Proof.
  unfold move. destruct (take_out _ _) as [rs|] eqn:Et; [right|by left]. apply take_out_perm in Et.
  unfold unfinished. exists (filter (fun r => r.1 = id) rs). simpl. split_and!.
  - by rewrite Et, filter_cons_True.
  - rewrite filter_app. apply Permutation_app_tail. rewrite filter_all; [done|]. by intros x (st & -> & _)%list_elem_of_fmap.
  - intros id' Hne. rewrite filter_app, Et, filter_cons_False by (simpl; congruence). rewrite filter_none; [done|].
    intros x (st & -> & _)%list_elem_of_fmap. simpl. congruence.
Qed.

Lemma elem_of_unfinished c id st : (id, st) ∈ retransmissions c <-> (id, st) ∈ unfinished c id.
Proof. unfold unfinished. rewrite list_elem_of_filter. naive_solver. Qed.

Lemma move_references c id from to :
  references_ok c -> Answered ∉ to \/ to = [Answered] /\ len (unfinished c id) = 1 -> references_ok (move c id from to).
Proof.
  intros [Hrun Hans] Hto. destruct (move_same_entries c id from to) as (E1 & _ & _).
  destruct (move_unfinished c id from to) as [->|(us & Hold & Hnew & Hother)]; [by split|]. split.
  - intros id' p k. rewrite E1. intros Hk%Hrun. apply Permutation_nil_r. destruct (decide (id' = id)) as [->|Hne]; [|by rewrite Hother, Hk].
    rewrite Hk in Hold. by apply Permutation_nil_cons in Hold.
  - intros id' Hin%elem_of_unfinished. apply Permutation_singleton_r. destruct (decide (id' = id)) as [->|Hne].
    + rewrite Hnew in Hin |- *. apply elem_of_app in Hin as [(st & [= <-] & Hst)%list_elem_of_fmap|Hin].
      * destruct Hto as [?|[-> Hl]]; [done|]. unfold len in Hl. apply Permutation_length in Hold. destruct us; [done|]. simpl in Hold. lia.
      * assert ((id, Answered) ∈ retransmissions c) as Ha%Hans by (apply elem_of_unfinished; rewrite Hold; by right).
        rewrite Ha in Hold. symmetry in Hold. apply Permutation_singleton_r in Hold. injection Hold as _ ->.
        by apply not_elem_of_nil in Hin.
    + rewrite Hother in Hin |- * by done. apply elem_of_unfinished, Hans in Hin. by rewrite Hin.
Qed.

(** Steps that leave the references alone and start no timer. *)
Lemma references_kept c c' :
  references_ok c -> retransmissions c' = retransmissions c ->
  (forall id p k, pending_acks_data c' !! id = Some (p, Some k) -> exists p' k', pending_acks_data c !! id = Some (p', Some k')) ->
  references_ok c'.
Proof.
  intros [Hrun Hans] Er Hd. split; unfold unfinished; rewrite Er; [|exact Hans].
  intros id p k (p' & k' & Hk)%Hd. by eapply Hrun.
Qed.

Lemma insert_references c ps : references_ok c -> references_ok (handle_insert c ps).
Proof.
  intros Hc. assert (retransmissions (handle_insert c ps) = retransmissions c /\
    forall id p k, pending_acks_data (handle_insert c ps) !! id = Some (p, Some k) -> pending_acks_data c !! id = Some (p, Some k)) as [E1 E2].
  { clear Hc. revert c. induction ps as [|p ps IH]; intros c; [done|]. simpl.
    destruct (IH (with_data c (<[PendingAcknowledgement.inner_fragment_identifier p := (p, None)]> (pending_acks_data c)))) as [E1 E2].
    split; [done|]. intros id q k Hq%E2. simpl in Hq. rewrite lookup_insert in Hq. by case_decide. }
  eapply references_kept; [done|done|]. intros id p k ?%E2. eauto.
Qed.

Lemma remove_references {E} c id c' : references_ok c -> handle_remove (E := E) c id = Ok c' -> references_ok c'.
Proof.
  intros Hc Hr. pose proof (handle_remove_data _ _ _ Hr) as Hd. eapply references_kept; [done| |].
  - unfold handle_remove in Hr. destruct (pending_acks_data c !! id) as [[p [k|]]|]; simplify_eq/=; try done.
    destruct (queue_remove _ _); [|done]. by injection Hr as <-.
  - intros id' p k. rewrite Hd, lookup_delete. case_decide; [done|]. eauto.
Qed.

Lemma start_timer_references c id : references_ok c -> idle c id = true -> references_ok (handle_start_timer c id).
Proof.
  intros [Hrun Hans] Hi%bool_decide_eq_true. unfold handle_start_timer. destruct (pending_acks_data c !! id) as [[p k]|]; [|done].
  destruct (queue_insert _ _ _) as [k' q]. split; [|exact Hans]. intros id' p' k''. simpl. rewrite lookup_insert.
  case_decide as Hid; [by subst|]. apply Hrun.
Qed.

Lemma expire_references {E} c k c' :
  timers_ok c -> references_ok c -> turn (E := E) c (Expire k) = Ok c' -> references_ok c'.
Proof.
  intros [_ T _] [Hrun Hans] Ht. simpl in Ht. pose proof (queued_expire (pending_acks_timers c) k) as Hq.
  destruct (queue_expire _ _) as [[id q']|]; [|injection Ht as <-; by split]. destruct Hq as [Hk _].
  destruct (T _ _ Hk) as (p & Ep). unfold handle_expired_ack_timer in Ht. simpl in Ht. rewrite Ep in Ht. injection Ht as <-.
  pose proof (Hrun _ _ _ Ep) as Hu. unfold unfinished in Hu. split; unfold unfinished; simpl.
  - intros id' p' k'. rewrite lookup_insert. case_decide as Hid; [done|]. intros Hk'%Hrun. unfold unfinished in Hk'.
    by rewrite filter_app, Hk', filter_cons_False.
  - intros id' [Hin|Hin]%elem_of_app; [|by apply list_elem_of_singleton in Hin]. apply Hans in Hin. unfold unfinished in Hin.
    rewrite filter_app, Hin, filter_cons_False; [done|]. simpl. intros ->. by rewrite Hu in Hin.
Qed.

Lemma update_delay_safe {E} c id d :
  timers_ok c -> references_ok c -> (id, Answered) ∈ retransmissions c ->
  exists c', handle_update_delay (E := E) c id d = Ok c' /\ timers_ok c' /\ references_ok c'.
Proof.
  intros Ht Hr Ha. unfold handle_update_delay. destruct (pending_acks_data c !! id) as [[p k]|] eqn:Eid; [|by eexists].
  assert (strong_count c id = 1) as ->.
  { unfold strong_count. rewrite filter_none; [done|]. intros r Hin ->. apply elem_of_unfinished in Hin.
    rewrite (answered_alone _ Hr _ Ha) in Hin. by apply list_elem_of_singleton in Hin. }
  eexists. split; [done|]. split; [by apply update_delay_timers|]. eapply references_kept; [done|done|]. simpl.
  intros id' p' k'. rewrite lookup_insert. case_decide as Hid; [intros [= <- ->]; subst; eauto|eauto].
Qed.

Lemma turn_ok {E} c w :
  timers_ok c -> references_ok c -> allowed c w = true -> exists c', turn (E := E) c w = Ok c' /\ timers_ok c' /\ references_ok c'.
Proof.
  intros Hc Hr Ha. destruct w as [[ps|id|id|id d]|k|id|id|id|id|id]; cbn [allowed] in Ha.
  - eexists. split; [done|]. split; [by apply handle_insert_ok|by apply insert_references].
  - destruct (handle_remove_ok (E := E) c id Hc) as (c' & E1 & Hc'). cbn [turn process_action]. rewrite E1. eexists. split; [done|].
    split; [done|]. by eapply remove_references.
  - apply andb_true_iff in Ha as [Hn Hi]. eexists. split; [done|]. split; [by apply handle_start_timer_ok|by apply start_timer_references].
  - apply bool_decide_eq_true in Ha. destruct (update_delay_safe (E := E) c id d Hc Hr Ha) as (c' & E1 & Hc' & Hr').
    cbn [turn process_action]. rewrite E1. eexists. split; [done|]. split; [by apply move_timers|]. apply move_references; [done|].
    left. apply not_elem_of_nil.
  - destruct (expire_ok (E := E) c k Hc) as (c' & E1 & Hc'). exists c'. split; [done|]. split; [done|]. exact (expire_references c k c' Hc Hr E1).
  - eexists. split; [done|]. split; [by apply move_timers|]. apply move_references; [done|]. left. set_solver.
  - eexists. split; [done|]. split; [by apply move_timers|]. apply move_references; [done|]. left. set_solver.
  - eexists. split; [done|]. split; [by apply move_timers|]. apply move_references; [done|]. left. set_solver.
  - apply bool_decide_eq_true in Ha. eexists. split; [done|]. split; [by apply move_timers|]. apply move_references; [done|]. by right.
  - eexists. split; [done|]. split; [by apply move_timers|]. apply move_references; [done|]. left. set_solver.
Qed.

(** All turns are allowed, as long as the controller gets to them. *)
Fixpoint well_behaved (c : t) (ws : list Turn) : bool :=
  match ws with
  | [] => true
  | w :: ws => allowed c w && match turn (E := unit) c w with Ok c' => well_behaved c' ws | _ => true end
  end.

Lemma turns_ok c ws :
  timers_ok c -> references_ok c -> well_behaved c ws = true ->
  exists c', turns (E := unit) c ws = Ok c' /\ timers_ok c' /\ references_ok c'.
Proof.
  revert c. induction ws as [|w ws IH]; intros c Hc Hr Hw; [by eexists|]. simpl in Hw |- *. apply andb_true_iff in Hw as [Ha Hw].
  destruct (turn_ok (E := unit) c w Hc Hr Ha) as (c1 & E1 & Hc1 & Hr1). rewrite E1 in Hw |- *. cbn [obind]. by apply IH.
Qed.

Definition requests_of (c : t) (id : FragmentIdentifier.t) : list PendingAcknowledgement.t :=
  filter (fun p => PendingAcknowledgement.inner_fragment_identifier p = id) (retransmission_sender c).

Definition inserts (id : FragmentIdentifier.t) (w : Turn) : bool :=
  match w with
  | Perform (InsertPending ps) => existsb (fun p => bool_decide (PendingAcknowledgement.inner_fragment_identifier p = id)) ps
  | _ => false
  end.

Lemma handle_insert_other c ps id :
  existsb (fun p => bool_decide (PendingAcknowledgement.inner_fragment_identifier p = id)) ps = false ->
  pending_acks_data (handle_insert c ps) !! id = pending_acks_data c !! id
  /\ retransmission_sender (handle_insert c ps) = retransmission_sender c.
Proof.
  revert c. induction ps as [|p ps IH]; intros c Hp; [done|]. simpl in Hp |- *. apply orb_false_iff in Hp as [Hp Hps].
  apply bool_decide_eq_false in Hp. destruct (IH (with_data c (<[PendingAcknowledgement.inner_fragment_identifier p := (p, None)]> (pending_acks_data c))) Hps)
    as [-> ->]. simpl. by rewrite lookup_insert_ne.
Qed.

(** A fragment that is not pending is not asked for again. *)
Lemma action_gone {E} c action id c' :
  pending_acks_data c !! id = None -> inserts id (Perform action) = false -> process_action (E := E) c action = Ok c' ->
  pending_acks_data c' !! id = None /\ retransmission_sender c' = retransmission_sender c.
Proof.
  intros Hid Hins Ht. destruct action as [ps|i|i|i d]; cbn [inserts process_action] in Hins, Ht.
  - injection Ht as <-. destruct (handle_insert_other c ps id Hins) as [-> ->]. done.
  - rewrite (handle_remove_data _ _ _ Ht), lookup_delete. split; [by case_decide|].
    unfold handle_remove in Ht. destruct (pending_acks_data c !! i) as [[p [k|]]|]; simplify_eq/=; try done.
    destruct (queue_remove _ _); [|done]. by injection Ht as <-.
  - injection Ht as <-. unfold handle_start_timer. destruct (pending_acks_data c !! i) as [[p k]|] eqn:Ei; [|done].
    destruct (queue_insert _ _ _) as [k' q]. simpl. rewrite lookup_insert_ne; [done|]. congruence.
  - unfold handle_update_delay in Ht. destruct (pending_acks_data c !! i) as [[p k]|] eqn:Ei; [|by injection Ht as <-].
    destruct (_ =? _); [|done]. injection Ht as <-. simpl. rewrite lookup_insert_ne; [done|]. congruence.
Qed.

Lemma turn_gone {E} c w id c' :
  timers_ok c -> pending_acks_data c !! id = None -> inserts id w = false -> turn (E := E) c w = Ok c' ->
  pending_acks_data c' !! id = None /\ requests_of c' id = requests_of c id.
Proof.
  intros [_ _ I] Hid Hins Ht. unfold requests_of. destruct w as [action|k|i|i|i|i|i]; cbn [turn] in Ht;
    [| |injection Ht as <-; by edestruct move_same_entries as (-> & _ & ->)..].
  - apply obind_Ok_inv in Ht as (c1 & Hact & Ht). injection Ht as <-. destruct (action_gone c action id c1 Hid Hins Hact) as [E1 E2].
    destruct action; rewrite <- E2; try done. by edestruct move_same_entries as (-> & _ & ->).
  - destruct (queue_expire _ _) as [[i q]|]; [|by injection Ht as <-]. unfold handle_expired_ack_timer in Ht. simpl in Ht.
    destruct (pending_acks_data c !! i) as [[p [k'|]]|] eqn:Ei; [|done|by injection Ht as <-]. injection Ht as <-. simpl.
    assert (i <> id) by congruence. rewrite lookup_insert_ne, filter_app by done. split; [done|].
    rewrite (filter_cons_False _ p); [by rewrite filter_nil, app_nil_r|]. rewrite (I _ _ _ Ei). done.
Qed.


(** C39: a timer that is started twice, or a fragment that is added again while its timer runs, takes the client down.
    The comments at [handle_start_timer] and [handle_insert] say that both happen; the timer that the entry
    no longer knows stays in the queue, and when it expires the controller panics. *)
Theorem stale_timer_panics timeout p :
  let id := PendingAcknowledgement.inner_fragment_identifier p in
  (exists k1 k2, turns (E := unit) (new timeout) [Perform (InsertPending [p]); Perform (StartTimer id); Perform (StartTimer id); Expire k1; Expire k2]
     = Panic ExplicitPanic)
  /\ (exists k, turns (E := unit) (new timeout) [Perform (InsertPending [p]); Perform (StartTimer id); Perform (InsertPending [p]); Expire k]
     = Panic ExplicitPanic).
Proof.
  intros id. set (d := timeout (PendingAcknowledgement.delay p)).
  pose proof (queued_insert queue_new id d) as Hq1. destruct (queue_insert queue_new id d) as [k1 q1] eqn:E1. destruct Hq1 as [F1 Q1].
  assert (handle_start_timer (handle_insert (new timeout) [p]) id = mk timeout (<[id := (p, Some k1)]> (<[id := (p, None)]> ∅)) q1 [] []) as S1.
  { unfold handle_start_timer. simpl. fold id. rewrite lookup_insert_eq. fold d. by rewrite E1. }
  rewrite insert_insert_eq in S1. split.
  - pose proof (queued_insert q1 id d) as Hq2. destruct (queue_insert q1 id d) as [k2 q2] eqn:E2. destruct Hq2 as [F2 Q2].
    exists k1, k2. cbn [turns turn process_action obind]. rewrite S1. unfold handle_start_timer. simpl. rewrite lookup_insert_eq. fold d. rewrite E2.
    simpl. pose proof (queued_expire q2 k1) as X1. assert (k1 <> k2) as Hne by (intros ->; by rewrite Q1, lookup_insert_eq in F2).
    rewrite Q2, lookup_insert_ne, Q1, lookup_insert_eq in X1 by done.
    destruct (queue_expire q2 k1) as [[v q3]|]; [|done]. destruct X1 as [[= <-] Q3]. unfold handle_expired_ack_timer at 1. simpl.
    rewrite lookup_insert_eq. cbn [obind]. simpl. pose proof (queued_expire q3 k2) as X2.
    rewrite Q3, lookup_delete_ne, lookup_insert_eq in X2 by done. destruct (queue_expire q3 k2) as [[v q4]|]; [|done].
    destruct X2 as [[= <-] _]. unfold handle_expired_ack_timer. simpl. by rewrite lookup_insert_eq.
  - exists k1. cbn [turns turn process_action obind]. rewrite S1. simpl. fold id. pose proof (queued_expire q1 k1) as X1.
    rewrite Q1, lookup_insert_eq in X1. destruct (queue_expire q1 k1) as [[v q3]|]; [|done]. destruct X1 as [[= <-] _].
    unfold handle_expired_ack_timer. simpl. by rewrite lookup_insert_eq.
Qed.

(** The listener for retransmissions hands a reply on to its task while it still has a reference of its own.  When that task
    is done before the listener returns, the entry is shared when the controller unwraps it, and the client goes down. *)
Lemma shared_reference_panics timeout p delay :
  let id := PendingAcknowledgement.inner_fragment_identifier p in
  exists k, turns (E := unit) (new timeout)
    [Perform (InsertPending [p]); Perform (StartTimer id); Expire k; Upgrade id; HandOn id; Upgrade id; Answer id;
     Perform (UpdateDelay id delay)] = Panic UnwrapErr.
Proof.
  intros id. set (d := timeout (PendingAcknowledgement.delay p)).
  pose proof (queued_insert queue_new id d) as Hq1. destruct (queue_insert queue_new id d) as [k1 q1] eqn:E1. destruct Hq1 as [F1 Q1].
  assert (handle_start_timer (handle_insert (new timeout) [p]) id = mk timeout (<[id := (p, Some k1)]> (<[id := (p, None)]> ∅)) q1 [] []) as S1.
  { unfold handle_start_timer. simpl. fold id. rewrite lookup_insert_eq. fold d. by rewrite E1. }
  exists k1. cbn [turns turn process_action obind]. rewrite S1. simpl. pose proof (queued_expire q1 k1) as X1.
  rewrite Q1, lookup_insert_eq in X1. destruct (queue_expire q1 k1) as [[v q3]|]; [|done]. destruct X1 as [[= <-] _].
  unfold handle_expired_ack_timer. simpl. rewrite lookup_insert_eq. cbn [obind]. unfold move. simpl.
  repeat (rewrite ?bool_decide_eq_true_2, ?bool_decide_eq_false_2 by congruence; simpl).
  unfold handle_update_delay, strong_count. simpl. rewrite lookup_insert_eq.
  rewrite filter_cons_False by congruence. by rewrite filter_cons_True.
Qed.

(** A timer that is started before the fragment is added does not exist: the fragment is never sent again.
    Replies are handed to the sender of packets before they are added. *)
Lemma late_insert_has_no_timer timeout p :
  let id := PendingAcknowledgement.inner_fragment_identifier p in
  exists c, turns (E := unit) (new timeout) [Perform (StartTimer id); Perform (InsertPending [p])] = Ok c
    /\ pending_acks_data c !! id = Some (p, None) /\ queued (pending_acks_timers c) = ∅.
Proof. intros id. eexists. split; [done|]. simpl. split; [apply lookup_insert_eq|apply queued_new]. Qed.

End Facts.

End AckFacts.
