(* ===== verification/MessageSending.v ===== *)
(** * Sending messages

    Models [common/client-core/src/client]: how a client turns what the
    application sends ([inbound_messages.rs],
    [real_messages_control/acknowledgement_control/input_message_listener.rs])
    into packets ([real_messages_control/message_handler.rs]), with the check of
    the topology ([topology_control/accessor.rs]), and how it retransmits
    ([retransmission_request_listener.rs]).  What is sent on channels to other
    tasks is part of the state; random choices are arguments. *)

From Stdlib.Strings Require Import Byte.
From stdpp Require Import gmap list.
From S2P Require Import Prelude Bytes Fragments FragmentSets Addressing Outfox PacketSizes NymPackets Topology Processing Replies NymMessages ReplyStorage AckControl.
#[local] Open Scope Z_scope.

Inductive TransmissionLane : Type :=
| LaneGeneral
| LaneReplySurbRequest
| LaneAdditionalReplySurbs
| LaneRetransmission
| LaneConnectionId (id : Z).

#[export] Instance TransmissionLane_eq_dec : EqDecision TransmissionLane.
Proof. solve_decision. Defined.

(** [TopologyReadPermit::try_get_valid_topology_ref]. *)
Definition try_get_valid_topology_ref `{SphinxApi} `{OutfoxCrypto} `{TopologyApi} `{KeyApi} (permit : option NymTopology.t)
    (ack_recipient : Recipient.t) (packet_recipient : option Recipient.t) : outcome NymTopologyError NymTopology.t :=
  match permit with
  | None => Err EmptyNetworkTopology
  | Some topology =>
      let? _ := NymTopology.ensure_can_construct_path_through topology DEFAULT_NUM_MIX_HOPS in
      if negb (NymTopology.gateway_exists topology (Recipient.gateway ack_recipient))
      then Err (NonExistentGatewayError (base58_encode (Recipient.gateway ack_recipient)))
      else
        match packet_recipient with
        | Some recipient =>
            if negb (NymTopology.gateway_exists topology (Recipient.gateway recipient))
            then Err (NonExistentGatewayError (base58_encode (Recipient.gateway recipient)))
            else Ok topology
        | None => Ok topology
        end
  end.

Module MessageHandler.

Section Handler.
Context `{SurbApi} `{OutfoxCrypto} `{TopologyApi} `{KeyApi} `{StreamCipher} `{PacketCrypto}.

Inductive PreparationError : Type :=
| PreparationTopologyError (e : NymTopologyError)
| MessageTooLongForSingleSurb (fragments : Z)
| NotEnoughSurbs (available required : Z).

(** [SurbWrappedPreparationError]. *)
Record SurbWrappedPreparationError : Type := mkWrapped { source : PreparationError; returned_surbs : option (list ReplySurb.t) }.

Definition return_unused_surbs (e : SurbWrappedPreparationError) (now : Z) (surb_storage : ReceivedReplySurbsMap.t)
    (target : AnonymousSenderTag) : PreparationError * ReceivedReplySurbsMap.t :=
  (source e,
   match returned_surbs e with
   | Some reply_surbs => ReceivedReplySurbsMap.insert_surbs surb_storage now target reply_surbs
   | None => surb_storage
   end).

Record RealMessage : Type := mkRealMessage { real_mix_packet : MixPacket.t; real_fragment_id : option FragmentIdentifier.t }.

Record Config : Type := mkConfig {
  ack_key : list byte;
  sender_address : Recipient.t;
  average_packet_delay : Z;
  average_ack_delay : Z;
  num_mix_hops : Z;
  primary_packet_size : PacketSize.t;
  secondary_packet_size : option PacketSize.t
}.

(** The handler, with what it sent to the controller of acknowledgements and to the sender of packets. *)
Record t : Type := mk {
  config : Config;
  topology_access : option NymTopology.t;
  reply_key_storage : SentReplyKeys.t;
  tag_storage : UsedSenderTags.t;
  action_sender : list Action;
  real_message_sender : list (list RealMessage * TransmissionLane)
}.

Definition message_preparer (h : t) : MessagePreparer.t :=
  MessagePreparer.with_mix_hops
    (MessagePreparer.new (sender_address (config h)) (average_packet_delay (config h)) (average_ack_delay (config h)))
    (num_mix_hops (config h)).

Definition send_action (h : t) (a : Action) : t :=
  mk (config h) (topology_access h) (reply_key_storage h) (tag_storage h) (action_sender h ++ [a]) (real_message_sender h).

Definition forward_messages (h : t) (messages : list RealMessage) (lane : TransmissionLane) : t :=
  mk (config h) (topology_access h) (reply_key_storage h) (tag_storage h) (action_sender h) (real_message_sender h ++ [(messages, lane)]).

Definition insert_pending_acks (h : t) (pending_acks : list PendingAcknowledgement.t) : t := send_action h (InsertPending pending_acks).

Definition update_ack_delay (h : t) (id : FragmentIdentifier.t) (new_delay : Z) : t := send_action h (UpdateDelay id new_delay).

Definition with_keys (h : t) (keys : SentReplyKeys.t) : t :=
  mk (config h) (topology_access h) keys (tag_storage h) (action_sender h) (real_message_sender h).

Definition with_tags (h : t) (tags : UsedSenderTags.t) : t :=
  mk (config h) (topology_access h) (reply_key_storage h) tags (action_sender h) (real_message_sender h).

(** [new_tag] is random. *)
Definition get_or_create_sender_tag (h : t) (new_tag : AnonymousSenderTag) (recipient : Recipient.t) : AnonymousSenderTag * t :=
  match UsedSenderTags.try_get_existing (tag_storage h) recipient with
  | Some existing => (existing, h)
  | None => (new_tag, with_tags h (UsedSenderTags.insert_new (tag_storage h) recipient new_tag))
  end.

Definition get_topology (h : t) : outcome PreparationError NymTopology.t :=
  map_err PreparationTopologyError (try_get_valid_topology_ref (topology_access h) (sender_address (config h)) None).

Definition optimal_packet_size {E} (h : t) (msg : NymMessage.t) : outcome E PacketSize.t :=
  match secondary_packet_size (config h) with
  | None => Ok (primary_packet_size (config h))
  | Some secondary_packet =>
      let? primary_count := NymMessage.required_packets msg (primary_packet_size (config h)) (num_mix_hops (config h)) in
      let? secondary_count := NymMessage.required_packets msg secondary_packet (num_mix_hops (config h)) in
      if primary_count <=? secondary_count then Ok (primary_packet_size (config h)) else Ok secondary_packet
  end.

Definition generate_reply_surbs_with_keys (h : t) (entropy : list ((Z -> nat) * (nat -> list Z) * list byte * list byte))
    : outcome PreparationError (list ReplySurb.t * list (list byte)) :=
  let? topology := get_topology h in
  let? reply_surbs := map_err PreparationTopologyError (MessagePreparer.generate_reply_surbs (message_preparer h) entropy topology) in
  Ok (reply_surbs, ReplySurb.encryption_key <$> reply_surbs).

(** Splitting panics instead of failing. *)
Definition pad_and_split {E} (h : t) (rng : list Z) (msg : NymMessage.t) (packet_size : PacketSize.t) : outcome E (list Fragment.t) :=
  unwrap (MessagePreparer.pad_and_split_message rng msg packet_size).

(** The loop over the fragments; [entropy] has a value for each. *)
Fixpoint prepare_fragments (h : t) (topology : NymTopology.t) (recipient : Recipient.t) (packet_type : PacketType.t) (mix_hops : option Z)
    (fragments : list Fragment.t) (entropy : nat -> ChunkEntropy)
    : outcome PreparationError (list PendingAcknowledgement.t * list RealMessage) :=
  match fragments with
  | [] => Ok ([], [])
  | fragment :: fragments =>
      let? prepared := map_err PreparationTopologyError
        (MessagePreparer.prepare_chunk_for_sending (message_preparer h) (entropy O) fragment topology (ack_key (config h)) recipient
           packet_type mix_hops) in
      let real_message := mkRealMessage (MessagePreparer.mix_packet prepared) (Some (Fragment.fragment_identifier fragment)) in
      let pending_ack := PendingAcknowledgement.new_known fragment (MessagePreparer.total_delay prepared) recipient mix_hops in
      let? (pending_acks, real_messages) :=
        prepare_fragments h topology recipient packet_type mix_hops fragments (fun i => entropy (S i)) in
      Ok (pending_ack :: pending_acks, real_message :: real_messages)
  end.

Definition packet_size_for {E} (h : t) (packet_type : PacketType.t) (message : NymMessage.t) : outcome E PacketSize.t :=
  if bool_decide (packet_type = PacketType.Outfox) then Ok PacketSize.OutfoxRegularPacket else optimal_packet_size h message.

Definition try_split_and_send_non_reply_message (h : t) (rng : list Z) (entropy : nat -> ChunkEntropy) (message : NymMessage.t)
    (recipient : Recipient.t) (lane : TransmissionLane) (packet_type : PacketType.t) (mix_hops : option Z) : outcome PreparationError t :=
  let? topology := get_topology h in
  let? packet_size := packet_size_for h packet_type message in
  let? fragments := pad_and_split h rng message packet_size in
  let? (pending_acks, real_messages) := prepare_fragments h topology recipient packet_type mix_hops fragments entropy in
  Ok (forward_messages (insert_pending_acks h pending_acks) real_messages lane).

Definition try_send_plain_message (h : t) (rng : list Z) (entropy : nat -> ChunkEntropy) (recipient : Recipient.t) (message : list byte)
    (lane : TransmissionLane) (packet_type : PacketType.t) (mix_hops : option Z) : outcome PreparationError t :=
  try_split_and_send_non_reply_message h rng entropy (NymMessage.Plain message) recipient lane packet_type mix_hops.

(** The keys are stored once the message was handed on. *)
Definition try_send_message_with_reply_surbs (h : t) (now : Z) (rng : list Z) (entropy : nat -> ChunkEntropy) (new_tag : AnonymousSenderTag)
    (surb_entropy : list ((Z -> nat) * (nat -> list Z) * list byte * list byte)) (recipient : Recipient.t) (message : list byte)
    (lane : TransmissionLane) (packet_type : PacketType.t) (mix_hops : option Z) : outcome SurbWrappedPreparationError t :=
  let '(sender_tag, h) := get_or_create_sender_tag h new_tag recipient in
  let? (reply_surbs, reply_keys) := map_err (fun e => mkWrapped e None) (generate_reply_surbs_with_keys h surb_entropy) in
  let message := NymMessage.Repliable (RepliableMessage.new_data message sender_tag reply_surbs) in
  let? h := map_err (fun e => mkWrapped e None)
    (try_split_and_send_non_reply_message h rng entropy message recipient lane packet_type mix_hops) in
  Ok (with_keys h (SentReplyKeys.insert_multiple (reply_key_storage h) now reply_keys)).

Definition try_send_additional_reply_surbs (h : t) (now : Z) (rng : list Z) (entropy : nat -> ChunkEntropy) (new_tag : AnonymousSenderTag)
    (surb_entropy : list ((Z -> nat) * (nat -> list Z) * list byte * list byte)) (recipient : Recipient.t)
    (packet_type : PacketType.t) (mix_hops : option Z) : outcome PreparationError t :=
  let '(sender_tag, h) := get_or_create_sender_tag h new_tag recipient in
  let? (reply_surbs, reply_keys) := generate_reply_surbs_with_keys h surb_entropy in
  let message := NymMessage.Repliable (RepliableMessage.new_additional_surbs sender_tag reply_surbs) in
  let? h := try_split_and_send_non_reply_message h rng entropy message recipient LaneAdditionalReplySurbs packet_type mix_hops in
  Ok (with_keys h (SentReplyKeys.insert_multiple (reply_key_storage h) now reply_keys)).

(** The topology is checked for the sender only, and the result of the preparer is unwrapped. *)
Definition try_prepare_single_chunk_for_sending (h : t) (e : ChunkEntropy) (recipient : Recipient.t) (chunk : Fragment.t)
    (packet_type : PacketType.t) (mix_hops : option Z) : outcome PreparationError MessagePreparer.PreparedFragment :=
  let? topology := get_topology h in
  unwrap (MessagePreparer.prepare_chunk_for_sending (message_preparer h) e chunk topology (ack_key (config h)) recipient packet_type mix_hops).

(** ** Replies *)

Definition split_reply_message {E} (h : t) (rng : list Z) (message : list byte) : outcome E (list Fragment.t) :=
  let msg := NymMessage.Reply (ReplyMessage.new_data_message message) in
  let? packet_size := optimal_packet_size h msg in
  pad_and_split h rng msg packet_size.

Definition try_prepare_single_reply_chunk_for_sending (h : t) (e : ChunkEntropy) (reply_surb : ReplySurb.t) (chunk : Fragment.t)
    : outcome SurbWrappedPreparationError MessagePreparer.PreparedFragment :=
  match get_topology h with
  | Ok topology =>
      unwrap (MessagePreparer.prepare_reply_chunk_for_sending (message_preparer h) e chunk topology (ack_key (config h)) reply_surb PacketType.Mix)
  | Err err => Err (mkWrapped err (Some [reply_surb]))
  | Panic p => Panic p
  end.

(** [zip]: as many packets as there are both fragments and reply blocks. *)
Fixpoint prepare_reply_loop (h : t) (topology : NymTopology.t) (fragments : list Fragment.t) (reply_surbs : list ReplySurb.t)
    (entropy : nat -> ChunkEntropy) : outcome SurbWrappedPreparationError (list MessagePreparer.PreparedFragment) :=
  match fragments, reply_surbs with
  | fragment :: fragments, reply_surb :: reply_surbs =>
      let? prepared := unwrap (MessagePreparer.prepare_reply_chunk_for_sending (message_preparer h) (entropy O) fragment topology
                                 (ack_key (config h)) reply_surb PacketType.Mix) in
      let? rest := prepare_reply_loop h topology fragments reply_surbs (fun i => entropy (S i)) in
      Ok (prepared :: rest)
  | _, _ => Ok []
  end.

Definition prepare_reply_chunks_for_sending (h : t) (entropy : nat -> ChunkEntropy) (fragments : list Fragment.t)
    (reply_surbs : list ReplySurb.t) : outcome SurbWrappedPreparationError (list MessagePreparer.PreparedFragment) :=
  match get_topology h with
  | Ok topology => prepare_reply_loop h topology fragments reply_surbs entropy
  | Err err => Err (mkWrapped err (Some reply_surbs))
  | Panic p => Panic p
  end.

Definition try_send_single_surb_message (h : t) (rng : list Z) (e : ChunkEntropy) (target : AnonymousSenderTag) (message : ReplyMessage.t)
    (reply_surb : ReplySurb.t) (is_extra_surb_request : bool) : outcome SurbWrappedPreparationError t :=
  let msg := NymMessage.Reply message in
  let? packet_size := optimal_packet_size h msg in
  let? fragments := pad_and_split h rng msg packet_size in
  match reverse fragments with
  | [] => Panic UnwrapNone
  | chunk :: _ =>
      if 1 <? len fragments then Err (mkWrapped (MessageTooLongForSingleSurb (len fragments)) (Some [reply_surb]))
      else
        let? prepared_fragment := try_prepare_single_reply_chunk_for_sending h e reply_surb chunk in
        let real_message := mkRealMessage (MessagePreparer.mix_packet prepared_fragment) (Some (Fragment.fragment_identifier chunk)) in
        let pending_ack :=
          PendingAcknowledgement.new_anonymous chunk (MessagePreparer.total_delay prepared_fragment) target is_extra_surb_request in
        let lane := if is_extra_surb_request then LaneReplySurbRequest else LaneGeneral in
        Ok (insert_pending_acks (forward_messages h [real_message] lane) [pending_ack])
  end.

Definition try_request_additional_reply_surbs (h : t) (rng : list Z) (e : ChunkEntropy) (from : AnonymousSenderTag) (reply_surb : ReplySurb.t)
    (amount : Z) : outcome SurbWrappedPreparationError t :=
  let surbs_request := ReplyMessage.new_surb_request_message (sender_address (config h)) amount in
  try_send_single_surb_message h rng e from surbs_request reply_surb true.

(** The packets by lane, each lane in the order of the fragments; the order of the lanes is that of a hash map,
    [order]. *)
Definition forward_lanes (h : t) (order : list TransmissionLane) (messages : list (TransmissionLane * RealMessage)) : t :=
  foldl (fun h lane => forward_messages h (filter (fun m => m.1 = lane) messages).*2 lane) h order.

Definition try_send_reply_chunks (h : t) (entropy : nat -> ChunkEntropy) (order : list TransmissionLane) (target : AnonymousSenderTag)
    (fragments : list (TransmissionLane * Fragment.t)) (reply_surbs : list ReplySurb.t) : outcome SurbWrappedPreparationError t :=
  let? prepared_fragments := prepare_reply_chunks_for_sending h entropy fragments.*2 reply_surbs in
  let pairs := zip fragments prepared_fragments in
  let to_forward :=
    (fun p : TransmissionLane * Fragment.t * MessagePreparer.PreparedFragment =>
       (p.1.1, mkRealMessage (MessagePreparer.mix_packet p.2) (Some (MessagePreparer.fragment_identifier p.2)))) <$> pairs in
  let pending_acks :=
    (fun p : TransmissionLane * Fragment.t * MessagePreparer.PreparedFragment =>
       PendingAcknowledgement.new_anonymous p.1.2 (MessagePreparer.total_delay p.2) target false) <$> pairs in
  Ok (insert_pending_acks (forward_lanes h order to_forward) pending_acks).

Definition try_send_reply_chunks_on_lane (h : t) (entropy : nat -> ChunkEntropy) (target : AnonymousSenderTag) (fragments : list Fragment.t)
    (reply_surbs : list ReplySurb.t) (lane : TransmissionLane) : outcome SurbWrappedPreparationError t :=
  try_send_reply_chunks h entropy (if bool_decide (fragments = []) then [] else [lane]) target ((fun f => (lane, f)) <$> fragments) reply_surbs.

Definition send_retransmission_reply_chunks (h : t) (prepared_fragments : list MessagePreparer.PreparedFragment) (lane : TransmissionLane) : t :=
  let h := foldl (fun h p => update_ack_delay h (MessagePreparer.fragment_identifier p) (MessagePreparer.total_delay p)) h prepared_fragments in
  forward_messages h
    ((fun p => mkRealMessage (MessagePreparer.mix_packet p) (Some (MessagePreparer.fragment_identifier p))) <$> prepared_fragments) lane.

Definition send_premade_mix_packets (h : t) (msgs : list RealMessage) (lane : TransmissionLane) : t := forward_messages h msgs lane.

(** ** Retransmissions, [retransmission_request_listener.rs] *)

(** What is given to the task for replies. *)
Inductive ReplyTaskMessage : Type :=
| RetransmitReply (recipient : AnonymousSenderTag) (timed_out_ack : PendingAcknowledgement.t) (extra_surb_request : bool)
| SendReply (recipient : AnonymousSenderTag) (message : list byte) (lane : TransmissionLane).

(** [upgraded] says whether the fragment is still pending, and [acknowledged] whether its acknowledgement arrives while
    the new packet is prepared. *)
Definition on_retransmission_request (h : t) (e : ChunkEntropy) (timed_out_ack : PendingAcknowledgement.t) (packet_type : PacketType.t)
    (upgraded acknowledged : bool) : outcome PreparationError (t * list ReplyTaskMessage) :=
  if negb upgraded then Ok (h, [])
  else
    match PendingAcknowledgement.destination timed_out_ack with
    | AnonymousDestination recipient_tag extra_surb_request => Ok (h, [RetransmitReply recipient_tag timed_out_ack extra_surb_request])
    | KnownRecipient recipient =>
        let frag_id := PendingAcknowledgement.inner_fragment_identifier timed_out_ack in
        match try_prepare_single_chunk_for_sending h e recipient (PendingAcknowledgement.message_chunk timed_out_ack) packet_type
                (PendingAcknowledgement.mix_hops timed_out_ack) with
        | Panic p => Panic p
        | Err _ => Ok (send_action h (StartTimer frag_id), [])
        | Ok prepared_fragment =>
            if acknowledged then Ok (h, [])
            else
              let h := update_ack_delay h frag_id (MessagePreparer.total_delay prepared_fragment) in
              Ok (forward_messages h [mkRealMessage (MessagePreparer.mix_packet prepared_fragment) (Some frag_id)] LaneRetransmission, [])
        end
    end.

(** ** Input, [input_message_listener.rs] *)

Inductive InputMessage : Type :=
| InputPremade (msgs : list MixPacket.t) (lane : TransmissionLane)
| InputRegular (recipient : Recipient.t) (data : list byte) (lane : TransmissionLane) (mix_hops : option Z)
| InputAnonymous (recipient : Recipient.t) (data : list byte) (reply_surbs : Z) (lane : TransmissionLane) (mix_hops : option Z)
| InputReply (recipient_tag : AnonymousSenderTag) (data : list byte) (lane : TransmissionLane)
| InputMessageWrapper (message : InputMessage) (packet_type : PacketType.t).

Definition new_wrapper (message : InputMessage) (packet_type : PacketType.t) : InputMessage := InputMessageWrapper message packet_type.

Definition new_premade (msgs : list MixPacket.t) (lane : TransmissionLane) (packet_type : PacketType.t) : InputMessage :=
  let message := InputPremade msgs lane in
  if bool_decide (packet_type = PacketType.Mix) then message else new_wrapper message packet_type.

Definition wrap (message : InputMessage) (packet_type : option PacketType.t) : InputMessage :=
  match packet_type with Some packet_type => new_wrapper message packet_type | None => message end.

Definition new_regular (recipient : Recipient.t) (data : list byte) (lane : TransmissionLane) (packet_type : option PacketType.t) : InputMessage :=
  wrap (InputRegular recipient data lane None) packet_type.

Definition new_regular_with_custom_hops (recipient : Recipient.t) (data : list byte) (lane : TransmissionLane)
    (packet_type : option PacketType.t) (mix_hops : option Z) : InputMessage :=
  wrap (InputRegular recipient data lane mix_hops) packet_type.

Definition new_anonymous (recipient : Recipient.t) (data : list byte) (reply_surbs : Z) (lane : TransmissionLane)
    (packet_type : option PacketType.t) : InputMessage :=
  wrap (InputAnonymous recipient data reply_surbs lane None) packet_type.

Definition new_anonymous_with_custom_hops (recipient : Recipient.t) (data : list byte) (reply_surbs : Z) (lane : TransmissionLane)
    (packet_type : option PacketType.t) (mix_hops : option Z) : InputMessage :=
  wrap (InputAnonymous recipient data reply_surbs lane mix_hops) packet_type.

Definition new_reply (recipient_tag : AnonymousSenderTag) (data : list byte) (lane : TransmissionLane)
    (packet_type : option PacketType.t) : InputMessage :=
  wrap (InputReply recipient_tag data lane) packet_type.

Fixpoint lane (m : InputMessage) : TransmissionLane :=
  match m with
  | InputRegular _ _ lane _ | InputAnonymous _ _ _ lane _ | InputReply _ _ lane | InputPremade _ lane => lane
  | InputMessageWrapper message _ => lane message
  end.

(** The random choices for one message. *)
Record InputEntropy : Type := mkInputEntropy {
  input_now : Z;
  input_rng : list Z;
  input_chunks : nat -> ChunkEntropy;
  input_tag : AnonymousSenderTag;
  input_surbs : Z -> list ((Z -> nat) * (nat -> list Z) * list byte * list byte)
}.

Definition handle_premade_packets (h : t) (packets : list MixPacket.t) (lane : TransmissionLane) : t :=
  send_premade_mix_packets h ((fun p => mkRealMessage p None) <$> packets) lane.

(** A failure is logged.  The tag is kept when the message could not be sent. *)
Definition handle_plain_message (h : t) (e : InputEntropy) (recipient : Recipient.t) (content : list byte) (lane : TransmissionLane)
    (packet_type : PacketType.t) (mix_hops : option Z) : outcome PreparationError t :=
  match try_send_plain_message h (input_rng e) (input_chunks e) recipient content lane packet_type mix_hops with
  | Ok h => Ok h
  | Err _ => Ok h
  | Panic p => Panic p
  end.

Definition handle_repliable_message (h : t) (e : InputEntropy) (recipient : Recipient.t) (content : list byte) (reply_surbs : Z)
    (lane : TransmissionLane) (packet_type : PacketType.t) (mix_hops : option Z) : outcome PreparationError t :=
  match try_send_message_with_reply_surbs h (input_now e) (input_rng e) (input_chunks e) (input_tag e) (input_surbs e reply_surbs)
          recipient content lane packet_type mix_hops with
  | Ok h => Ok h
  | Err _ => Ok (get_or_create_sender_tag h (input_tag e) recipient).2
  | Panic p => Panic p
  end.

Definition handle_unwrapped (h : t) (e : InputEntropy) (msg : InputMessage) (packet_type : PacketType.t)
    : outcome PreparationError (t * list ReplyTaskMessage) :=
  match msg with
  | InputRegular recipient data lane mix_hops =>
      let? h := handle_plain_message h e recipient data lane packet_type mix_hops in Ok (h, [])
  | InputAnonymous recipient data reply_surbs lane mix_hops =>
      let? h := handle_repliable_message h e recipient data reply_surbs lane packet_type mix_hops in Ok (h, [])
  | InputReply recipient_tag data lane => Ok (h, [SendReply recipient_tag data lane])
  | InputPremade msgs lane => Ok (handle_premade_packets h msgs lane, [])
  | InputMessageWrapper _ _ => Panic ExplicitPanic
  end.

Definition on_input_message (h : t) (e : InputEntropy) (msg : InputMessage) : outcome PreparationError (t * list ReplyTaskMessage) :=
  match msg with
  | InputMessageWrapper message packet_type => handle_unwrapped h e message packet_type
  | _ => handle_unwrapped h e msg PacketType.Mix
  end.

End Handler.

End MessageHandler.
