(* ===== verification/MessageDelivery.v ===== *)
(** * From a client to a client

    The components together: a message is padded and split, every fragment is
    put into a packet with an acknowledgement inside, the packets travel along
    routes of the topology, the gateway of the recipient takes the
    acknowledgement off and sends it on its way back, and the recipient
    reassembles the message.  Proved over any packet format that implements
    [Transport]. *)

From Stdlib.Strings Require Import Byte.
From stdpp Require Import gmap list.
From S2P Require Import Prelude Bytes Float64 Fragments FragmentSets Reconstruction Addressing Outfox OutfoxFacts PacketSizes NymPackets Topology Processing PacketFacts Transport Replies NymMessages MessageFacts ReplyStorage ReceivedBuffer ReceivedFacts AckControl MessageSending.
#[local] Open Scope Z_scope.

Import SphinxPacketProcessor.

(** The packet that an acknowledgement travels in. *)
Definition ack_size (ty : PacketType.t) : PacketSize.t :=
  match ty with PacketType.Outfox => PacketSize.OutfoxAckPacket | _ => PacketSize.AckPacket end.

Section Formats.
Context `{SphinxApi} `{OutfoxCrypto}.

Lemma ack_build_packet ty entropy payload route destination delays :
  len payload = 21 ->
  match ty with
  | PacketType.Outfox =>
      NymPacket.outfox_build entropy payload route destination
        (Some (match ty with PacketType.Outfox => Z.max (len payload) MIN_PACKET_SIZE | _ => PacketSize.payload_size PacketSize.AckPacket end))
  | _ =>
      NymPacket.sphinx_build entropy
        (match ty with PacketType.Outfox => Z.max (len payload) MIN_PACKET_SIZE | _ => PacketSize.payload_size PacketSize.AckPacket end)
        payload route destination delays
  end = build_packet ty entropy (ack_size ty) payload route destination delays.
Proof. intros Hl. destruct ty; [done|done|]. unfold build_packet, ack_size. by rewrite plaintext_size_value, Hl. Qed.

Lemma ack_size_type ty : ty <> PacketType.Vpn -> PacketSize.packet_type_of (ack_size ty) = ty.
Proof. by destruct ty. Qed.

Lemma ack_size_fits ty : 21 <= PacketSize.plaintext_size (ack_size ty).
Proof. rewrite plaintext_size_value. by destruct ty. Qed.

Lemma surb_ack_len ty : SurbAck.length_of (Some ty) = 19 + PacketSize.size (ack_size ty).
Proof. unfold SurbAck.length_of, MAX_NODE_ADDRESS_UNPADDED_LEN. destruct ty; simpl; lia. Qed.

Lemma ack_overhead_len ty : ack_overhead ty = 19 + PacketSize.size (ack_size ty).
Proof. by destruct ty. Qed.

(** The last hop of an acknowledgement takes nothing off. *)
Lemma process_ack ty destination payload :
  process_final_hop destination payload (ack_size ty) ty = Ok (FinalHop (mkFinalHop destination None payload)).
Proof. by destruct ty. Qed.

Lemma carries_packet_ok ty size destination payload p keys addresses :
  carries ty size destination payload p keys addresses -> packet_ok ty size p.
Proof. by destruct 1. Qed.

End Formats.

Section Delivery.
Context `{SurbApi} `{!SurbLaws} `{OutfoxCrypto} `{TopologyApi} `{KeyApi} `{StreamCipherLaws} `{PacketCryptoLaws} `{!DistinctSizes}.
Context (ty : PacketType.t) `{!Transport ty}.

(** ** The network *)

(** The nodes of the topology listen at their addresses with the secret of the key they published. *)
Definition node_listens (network : SocketAddr -> option (list byte)) (host : SocketAddr) (key : list byte) : Prop :=
  exists secret, network (NymNodeRoutingAddress.routed host) = Some secret /\ key = public_of secret /\ len secret = 32.

Record network_ok (t : NymTopology.t) (network : SocketAddr -> option (list byte)) : Prop := {
  net_topology : topology_ok t;
  net_paths : NymTopology.ensure_can_construct_path_through t DEFAULT_NUM_MIX_HOPS = Ok tt;
  net_mixes layer nodes n : NymTopology.mixes t !! layer = Some nodes -> n ∈ nodes -> node_listens network (mix_host n) (mix_sphinx_key n);
  net_gateways g : g ∈ NymTopology.gateways t -> node_listens network (gateway_mix_host g) (gateway_sphinx_key g)
}.

(** A client of a gateway of the topology. *)
Definition client_of (t : NymTopology.t) (r : Recipient.t) : Prop :=
  Recipient.valid r /\ is_Some (NymTopology.get_gateway t (Recipient.gateway r)).

Lemma get_gateway_identity t identity g : NymTopology.get_gateway t identity = Some g -> gateway_identity g = identity /\ g ∈ NymTopology.gateways t.
Proof.
  unfold NymTopology.get_gateway. intros Hg%head_Some_elem_of. by apply list_elem_of_filter in Hg.
Qed.

(** A route to a client: its nodes can be reached, and answer to the keys that the route has for them. *)
Lemma route_to_client t network draw r :
  network_ok t network -> client_of t r ->
  exists route hosts keys, NymTopology.random_route_to_gateway t draw DEFAULT_NUM_MIX_HOPS (Recipient.gateway r) = Ok route
    /\ route_ok route hosts keys /\ length route = 4%nat
    /\ Forall2 (fun a k => network a = Some k) (NymNodeRoutingAddress.routed <$> hosts) keys.
Proof.
  intros [Ht Hp Hm Hg] [_ [g Eg]]. destruct (get_gateway_identity _ _ _ Eg) as [Ei Hin]. rewrite <- Ei in Eg |- *.
  destruct (route_exists t DEFAULT_NUM_MIX_HOPS draw g Ht Hp Eg) as (route & last_hop & E & Hroute & Hlast).
  exists (route ++ [last_hop]).
  assert (Forall (fun node => exists host secret, routes_to node host (public_of secret) /\ len secret = 32
    /\ network (NymNodeRoutingAddress.routed host) = Some secret) (route ++ [last_hop])) as Hall.
  { apply Forall_app. split.
    - clear -Hroute Hm. induction Hroute as [|layer node layers route (nodes & n & El & Hn & Hr) _ IH]; constructor; [|done].
      destruct (Hm layer nodes n El Hn) as (secret & E1 & E2 & E3). exists (mix_host n), secret. by rewrite <- E2.
    - constructor; [|done]. destruct (Hg g Hin) as (secret & E1 & E2 & E3). exists (gateway_mix_host g), secret. by rewrite <- E2. }
  assert (length (route ++ [last_hop]) = 4%nat) as Hlen.
  { rewrite length_app. apply Forall2_length in Hroute. rewrite <- Hroute. done. }
  clear Hroute Hlast. unfold route_ok.
  enough (exists hosts keys, Forall2 (fun node hk => routes_to node hk.1 (public_of hk.2) /\ len hk.2 = 32) (route ++ [last_hop]) (zip hosts keys)
    /\ length hosts = length keys /\ Forall2 (fun a k => network a = Some k) (NymNodeRoutingAddress.routed <$> hosts) keys)
    as (hosts & keys & H1' & H2' & H3') by (exists hosts, keys; done).
  clear E Hlen. induction Hall as [|node nodes (host & secret & R1 & R2 & R3) _ (hosts & keys & I1 & I2 & I3)].
  { exists [], []. simpl. split_and!; constructor. }
  exists (host :: hosts), (secret :: keys). simpl. split_and!; [constructor; done|lia|constructor; done].
Qed.

(** ** Acknowledgements *)

Lemma recover_prepare_identifier {E} iv key id :
  len iv = ACK_IV_SIZE -> len id = FRAG_ID_LEN -> recover_identifier (E := E) key (prepare_identifier iv key id) = Ok (Some id).
Proof.
  intros Hiv Hid. unfold recover_identifier, prepare_identifier.
  rewrite <- (app_nil_l (iv ++ _)) at 1. rewrite slice_middle by (done || rewrite Hiv; done). cbn [obind].
  unfold iv_from_slice. rewrite Hiv. cbn [Z.eqb Pos.eqb ACK_IV_SIZE obind]. change 16 with ACK_IV_SIZE. rewrite <- Hiv, slice_from.
  cbn [obind]. rewrite stream_decrypt_encrypt, Hid. done.
Qed.

Lemma length_hop_delays average samples n : (forall k, length (samples k) = k) -> length (generate_hop_delays average samples n) = n.
Proof. intros Hs. unfold generate_hop_delays. destruct (_ =? _); [apply length_replicate|apply Hs]. Qed.

Lemma len_prepare_identifier iv key id :
  len iv = ACK_IV_SIZE -> len id = FRAG_ID_LEN -> len (prepare_identifier iv key id) = 21.
Proof.
  intros Hiv Hid. unfold prepare_identifier. autorewrite with len. rewrite Hiv. unfold len at 1. rewrite length_stream_encrypt.
  fold (len id). by rewrite Hid.
Qed.

Lemma valid_client_identity r : Recipient.valid r -> len (Recipient.client_identity r) = 32.
Proof. intros (Hi & _). unfold identity_ok in Hi. by apply andb_true_iff in Hi as [Hi%Z.eqb_eq _]. Qed.

Section Network.
Context (t : NymTopology.t) (network : SocketAddr -> option (list byte)) (Hnet : network_ok t network).

(** The first node of a route. *)
Lemma route_first route hosts keys :
  route_ok route hosts keys -> length route = 4%nat -> Forall2 (fun a k => network a = Some k) (NymNodeRoutingAddress.routed <$> hosts) keys ->
  exists n h, head route = Some n /\ NymNodeRoutingAddress.try_from_bytes (node_address n) = Ok (NymNodeRoutingAddress.routed h)
    /\ NymNodeRoutingAddress.routed <$> hosts = NymNodeRoutingAddress.routed h :: (NymNodeRoutingAddress.routed <$> tail hosts)
    /\ length hosts = 4%nat.
Proof.
  intros [Hr Hl] L4 Hn. pose proof (Forall2_length _ _ _ Hr) as L. rewrite length_zip_with in L.
  destruct route as [|n route]; [done|]. destruct hosts as [|h hosts]; [simpl in *; lia|]. destruct keys as [|k keys]; [simpl in *; lia|].
  simpl in Hr. apply Forall2_cons in Hr as [[(E & _) _] _]. exists n, h. simpl in *. split_and!; [done..|lia].
Qed.

Lemma surb_ack_ok draw samples iv entropy sender ack_key id average :
  client_of t sender -> len iv = ACK_IV_SIZE -> len entropy = 32 -> (forall k, length (samples k) = k) -> len id = FRAG_ID_LEN ->
  exists ack, SurbAck.construct draw samples iv entropy sender ack_key id average t ty = Ok ack
    /\ packet_ok ty (ack_size ty) (SurbAck.surb_ack_packet ack)
    /\ NymNodeRoutingAddress.valid (SurbAck.first_hop_address ack)
    /\ NymNodeRoutingAddress.routed (SurbAck.first_hop_address ack) = SurbAck.first_hop_address ack
    /\ forall use_legacy, deliver 3 network use_legacy (MixPacket.new (SurbAck.first_hop_address ack) (SurbAck.surb_ack_packet ack) ty)
         = Ok (mkFinalHop (Recipient.client_identity sender) None (prepare_identifier iv ack_key id)).
Proof.
  intros Hc Hiv He Hs Hid. destruct (route_to_client t network draw sender Hnet Hc) as (route & hosts & keys & Er & Hr & L4 & Hn).
  destruct (route_first _ _ _ Hr L4 Hn) as (n & h & Eh & Ea & Ehosts & Lh).
  pose proof (len_prepare_identifier iv ack_key id Hiv Hid) as Hp. set (payload := prepare_identifier iv ack_key id) in *.
  set (delays := generate_hop_delays average samples (length route)).
  assert (length delays = 4%nat) as Hd by (unfold delays; by rewrite length_hop_delays, L4).
  destruct (transport_carries entropy (ack_size ty) payload route hosts keys (as_sphinx_destination sender) delays) as (p & Ep & Hcar).
  { apply ack_size_type, transport_type. }
  { done. }
  { apply valid_client_identity, Hc. }
  { done. }
  { done. }
  { done. }
  { rewrite Hp. apply ack_size_fits. }
  unfold SurbAck.construct. rewrite Er. cbn [obind]. fold payload delays. rewrite ack_build_packet, Ep by done. cbn [map_err obind].
  unfold usize_sub. change (len delays) with (Z.of_nat (length delays)). rewrite Hd. cbn [Z.of_nat]. change (1 <=? 4) with true.
  cbn [obind]. rewrite Eh. cbn [unwrap_opt obind]. rewrite Ea. cbn [unwrap obind]. eexists. split; [done|].
  cbn [SurbAck.surb_ack_packet SurbAck.first_hop_address].
  destruct (RoutingFacts.try_from_bytes_valid _ _ Ea) as [V1 V2].
  split_and!; [by eapply carries_packet_ok|done|done|]. intros use_legacy.
  eapply deliver_carries; [done|apply ack_size_type, transport_type|apply transport_type| | |apply process_ack].
  - by rewrite <- Ehosts.
  - rewrite length_fmap, length_tl, Lh. simpl. lia.
Qed.

(** The bytes of an acknowledgement, in front of the rest of a payload. *)
Lemma len_ack_bytes ack :
  packet_ok ty (ack_size ty) (SurbAck.surb_ack_packet ack) -> NymNodeRoutingAddress.valid (SurbAck.first_hop_address ack) ->
  len (SurbAck.prepare_for_sending ack).2 = ack_overhead ty.
Proof.
  intros Hok Hv. rewrite ack_overhead_len. unfold SurbAck.prepare_for_sending, NymNodeRoutingAddress.as_zero_padded_bytes, MAX_NODE_ADDRESS_UNPADDED_LEN.
  cbn [snd]. rewrite len_app, (packet_bytes_len _ _ _ Hok). pose proof (RoutingFacts.len_as_bytes _ Hv) as Hl.
  destruct (Z.leb_spec 19 (len (NymNodeRoutingAddress.as_bytes (SurbAck.first_hop_address ack)))).
  - rewrite Hl in *. destruct (SurbAck.first_hop_address ack); simpl in *; lia.
  - autorewrite with len. rewrite len_zeros, Hl. rewrite Hl in *. destruct (SurbAck.first_hop_address ack); simpl in *; lia.
Qed.

Lemma split_ack ack rest size :
  packet_ok ty (ack_size ty) (SurbAck.surb_ack_packet ack) -> NymNodeRoutingAddress.valid (SurbAck.first_hop_address ack) ->
  NymNodeRoutingAddress.routed (SurbAck.first_hop_address ack) = SurbAck.first_hop_address ack -> data_size size ->
  split_into_ack_and_message ((SurbAck.prepare_for_sending ack).2 ++ rest) size ty
  = Ok (Some (MixPacket.new (SurbAck.first_hop_address ack) (SurbAck.surb_ack_packet ack) ty), rest).
Proof.
  intros Hok Hv Hr [Hs1 Hs2]. pose proof (len_ack_bytes ack Hok Hv) as Hl. rewrite ack_overhead_len, <- surb_ack_len in Hl.
  assert (split_hop_data_into_ack_and_message ((SurbAck.prepare_for_sending ack).2 ++ rest) ty
    = Ok ((SurbAck.prepare_for_sending ack).2, rest)) as E1.
  { unfold split_hop_data_into_ack_and_message.
    destruct (Z.ltb_spec (len ((SurbAck.prepare_for_sending ack).2 ++ rest)) (SurbAck.length_of (Some ty))) as [Hlt|_].
    { exfalso. revert Hlt. rewrite len_app, Hl. pose proof (len_nonneg rest). lia. }
    rewrite <- Hl. unfold len. by rewrite Nat2Z.id, take_app_length, drop_app_length. }
  assert (SurbAck.try_recover_first_hop_packet (SurbAck.prepare_for_sending ack).2 ty
    = Ok (SurbAck.first_hop_address ack, SurbAck.surb_ack_packet ack)) as E2.
  { unfold SurbAck.try_recover_first_hop_packet, SurbAck.prepare_for_sending. cbn [snd].
    set (padded := NymNodeRoutingAddress.as_zero_padded_bytes _ _).
    assert (exists pad, padded = NymNodeRoutingAddress.as_bytes (SurbAck.first_hop_address ack) ++ pad) as [pad Epad].
    { unfold padded, NymNodeRoutingAddress.as_zero_padded_bytes. destruct (_ <=? _); [exists []; by rewrite app_nil_r|eauto]. }
    assert (len padded = MAX_NODE_ADDRESS_UNPADDED_LEN) as <-.
    { rewrite surb_ack_len in Hl. unfold SurbAck.prepare_for_sending in Hl. cbn [snd] in Hl. fold padded in Hl.
      rewrite len_app, (packet_bytes_len _ _ _ Hok) in Hl. unfold MAX_NODE_ADDRESS_UNPADDED_LEN. lia. }
    rewrite slice_from. rewrite Epad, <- app_assoc, RoutingFacts.as_bytes_roundtrip, Hr by done. cbn [map_err obind].
    by rewrite (packet_read_back _ _ _ Hok). }
  unfold split_into_ack_and_message. rewrite E1. cbn [obind]. rewrite E2. by destruct size.
Qed.

(** Random choices of the right sizes. *)
Record entropy_ok (e : ChunkEntropy) : Prop := {
  ok_ack_iv : len (ack_iv e) = ACK_IV_SIZE;
  ok_ack_entropy : len (ack_entropy e) = 32;
  ok_packet_entropy : len (packet_entropy e) = 32;
  ok_ack_samples n : length (ack_samples e n) = n;
  ok_delay_samples n : length (delay_samples e n) = n
}.

(** What leaves the gateways when a fragment is sent: the fragment for the recipient, and the
    acknowledgement, by which the sender knows the fragment again. *)
Definition arrives (sender recipient : Recipient.t) (ack_key local : list byte) (a : arrival) (f : Fragment.t)
    (m : MixPacket.t) : Prop :=
  exists ack, (forall use_legacy, deliver 3 network use_legacy m
      = Ok (mkFinalHop (Recipient.client_identity recipient) (Some ack) (packet local a)))
    /\ forall use_legacy, exists hop, deliver 3 network use_legacy ack = Ok hop
      /\ destination hop = Recipient.client_identity sender /\ forward_ack hop = None
      /\ on_ack (E := unit) ack_key (message hop)
         = Ok ([AckReceived 21; RealAckReceived 21], [RemovePending (Fragment.fragment_identifier f)]).

Lemma fragment_identifier_roundtrip f :
  Fragments.header_ok (Fragment.header f) ->
  FragmentIdentifier.try_from_bytes (FragmentIdentifier.to_bytes (Fragment.fragment_identifier f)) = Ok (Fragment.fragment_identifier f)
  /\ Fragment.fragment_identifier f <> COVER_FRAG_ID.
Proof.
  intros [Hi Ht Hc _ _]. split.
  - apply fragment_identifier_wire_format; [unfold FragmentIdentifier.to_bytes, i32_to_be_bytes; by rewrite length_app, length_be_encode|].
    simpl. unfold Fragment.id, Fragment.current_fragment. unfold set_id_ok, is_u8 in *. split_and!; [lia..|done].
  - unfold Fragment.fragment_identifier, COVER_FRAG_ID, Fragment.id. intros [= E _]. unfold set_id_ok in Hi. lia.
Qed.

Lemma len_identifier id : len (FragmentIdentifier.to_bytes id) = FRAG_ID_LEN.
Proof. unfold FragmentIdentifier.to_bytes, i32_to_be_bytes. autorewrite with len. by rewrite len_be_encode. Qed.

(** The sender knows the fragment again. *)
Lemma on_ack_prepared {E} iv key f :
  Fragments.header_ok (Fragment.header f) -> len iv = ACK_IV_SIZE ->
  on_ack (E := E) key (prepare_identifier iv key (FragmentIdentifier.to_bytes (Fragment.fragment_identifier f)))
  = Ok ([AckReceived 21; RealAckReceived 21], [RemovePending (Fragment.fragment_identifier f)]).
Proof.
  intros Hf Hiv. destruct (fragment_identifier_roundtrip f Hf) as [F1 F2]. unfold on_ack.
  rewrite recover_prepare_identifier, len_prepare_identifier by (done || apply len_identifier). cbn [obind].
  by rewrite F1, bool_decide_eq_false_2.
Qed.

Lemma prepare_chunk_ok p e f ack_key recipient local size :
  client_of t (MessagePreparer.sender_address p) -> client_of t recipient ->
  Recipient.client_encryption_key recipient = x25519_public local -> MessagePreparer.num_mix_hops p = DEFAULT_NUM_MIX_HOPS ->
  Fragments.header_ok (Fragment.header f) -> entropy_ok e -> PacketSize.packet_type_of size = ty -> data_size size ->
  Fragment.serialized_size f + ack_overhead ty + 32 = PacketSize.plaintext_size size ->
  exists prepared, MessagePreparer.prepare_chunk_for_sending p e f t ack_key recipient ty None = Ok prepared
    /\ MessagePreparer.fragment_identifier prepared = Fragment.fragment_identifier f
    /\ arrives (MessagePreparer.sender_address p) recipient ack_key local (Regular (ephemeral_key e) f) f (MessagePreparer.mix_packet prepared).
Proof.
  intros Hsend Hrec Hkey Hhops Hhdr [V1 V2 V3 V4 V5] Hty Hds Hsize.
  destruct (route_to_client t network (route_draw e) recipient Hnet Hrec) as (route & hosts & keys & Er & Hr & L4 & Hn).
  destruct (route_first _ _ _ Hr L4 Hn) as (n & h & Eh & Ea & Ehosts & Lh).
  destruct (surb_ack_ok (ack_draw e) (ack_samples e) (ack_iv e) (ack_entropy e) (MessagePreparer.sender_address p) ack_key _
    (MessagePreparer.average_ack_delay p) Hsend V1 V2 V4 (len_identifier (Fragment.fragment_identifier f))) as (ack & Eack & Aok & Av & Ar & Adel).
  set (payload := NymPayloadBuilder.build_regular (NymPayloadBuilder.new f ack) (ephemeral_key e) (Recipient.client_encryption_key recipient)).
  assert (payload = (SurbAck.prepare_for_sending ack).2 ++ packet local (Regular (ephemeral_key e) f)) as Epayload.
  { unfold payload, NymPayloadBuilder.build_regular, NymPayloadBuilder.build, new_ephemeral_shared_key. rewrite Hkey.
    cbn [NymPayloadBuilder.surb_ack NymPayloadBuilder.fragment packet new_ephemeral_shared_key]. by destruct (SurbAck.prepare_for_sending ack). }
  assert (len payload = PacketSize.plaintext_size size) as Hpl.
  { rewrite Epayload, len_app, (len_ack_bytes ack Aok Av). cbn [packet new_ephemeral_shared_key]. rewrite len_app, len_x25519_public.
    unfold len. rewrite length_stream_encrypt. fold (len (Fragment.into_bytes f)). rewrite <- serialized_size_into_bytes. lia. }
  set (delays := generate_hop_delays (MessagePreparer.average_packet_delay p) (delay_samples e) (length route)).
  assert (length delays = 4%nat) as Hd by (unfold delays; by rewrite length_hop_delays, L4).
  destruct (transport_carries (packet_entropy e) size payload route hosts keys (as_sphinx_destination recipient) delays) as (q & Eq & Hcar);
    [done|done|apply valid_client_identity, Hrec|done|done|done|lia|].
  assert (PacketSize.get_type_from_plaintext (Fragment.serialized_size f + ack_overhead ty + PUBLIC_KEY_SIZE) ty = Ok size) as Esize.
  { unfold PUBLIC_KEY_SIZE. rewrite Hsize, <- Hty. apply get_type_from_plaintext_size. }
  unfold MessagePreparer.prepare_chunk_for_sending.
  assert (match ty with
    | PacketType.Outfox => Fragment.serialized_size f + OUTFOX_ACK_OVERHEAD + PUBLIC_KEY_SIZE
    | PacketType.Mix | PacketType.Vpn => Fragment.serialized_size f + ACK_OVERHEAD + PUBLIC_KEY_SIZE
    end = Fragment.serialized_size f + ack_overhead ty + PUBLIC_KEY_SIZE) as -> by (unfold ack_overhead; by case_match).
  rewrite Esize. cbn [unwrap obind]. unfold MessagePreparer.generate_surb_ack. rewrite Eack. cbn [obind]. fold payload.
  cbn [default]. rewrite Hhops, Er. cbn [obind]. fold delays. fold (build_packet ty (packet_entropy e) size payload route (as_sphinx_destination recipient) delays).
  rewrite Eq. cbn [map_err obind]. rewrite Eh. cbn [unwrap_opt obind]. rewrite Ea. cbn [unwrap obind].
  unfold usize_sub. change (len delays) with (Z.of_nat (length delays)). rewrite Hd. cbn [Z.of_nat]. change (1 <=? 4) with true. cbn [obind].
  eexists. split; [done|]. split; [done|]. cbn [MessagePreparer.mix_packet].
  exists (MixPacket.new (SurbAck.first_hop_address ack) (SurbAck.surb_ack_packet ack) ty). split.
  - intros use_legacy. eapply deliver_carries; [done|done|apply transport_type|by rewrite <- Ehosts|rewrite length_fmap, length_tl, Lh; simpl; lia|].
    unfold process_final_hop. rewrite Epayload, split_ack by done. done.
  - intros use_legacy. eexists. split; [apply Adel|]. split; [done|]. split; [done|].
    by apply on_ack_prepared.
Qed.

End Network.

(** ** The handler *)

Import MessageHandler.

Section Handler.
Context (topology : NymTopology.t) (network : SocketAddr -> option (list byte)) (Hnet : network_ok topology network).

(** A handler that sends packets of this type, for a client of the network. *)
Record handler_ok (h : MessageHandler.t) : Prop := {
  h_topology : topology_access h = Some topology;
  h_sender : client_of topology (sender_address (config h));
  h_hops : num_mix_hops (config h) = DEFAULT_NUM_MIX_HOPS;
  h_sizes size : size ∈ primary_packet_size (config h) :: option_list (secondary_packet_size (config h)) ->
    ty <> PacketType.Outfox -> data_size size /\ PacketSize.packet_type_of size = ty
}.

Lemma get_topology_ok h : handler_ok h -> get_topology h = Ok topology.
Proof.
  intros [E1 [_ [g Eg]] _ _]. unfold get_topology, try_get_valid_topology_ref. rewrite E1, (net_paths _ _ Hnet). cbn [obind].
  unfold NymTopology.gateway_exists. by rewrite Eg.
Qed.

Lemma required_packets_ok m size hops : data_size size -> exists n, forall E, NymMessage.required_packets (E := E) m size hops = Ok n.
Proof.
  intros Hd. destruct (available_ok m size Hd) as (a & Ea & Hb & _). unfold NymMessage.required_packets, NymMessage.true_available_plaintext_per_packet.
  eexists. intros E. rewrite Ea. cbn [obind]. unfold usize_sub, MIN_PADDING_OVERHEAD. rewrite (proj2 (Z.leb_le 1 a)) by lia. done.
Qed.

Lemma packet_size_ok h m :
  handler_ok h -> exists size, (forall E, packet_size_for (E := E) h ty m = Ok size) /\ data_size size /\ PacketSize.packet_type_of size = ty.
Proof.
  intros [_ _ _ Hs]. unfold packet_size_for. case_bool_decide as Ho; [exists PacketSize.OutfoxRegularPacket; by rewrite Ho|].
  unfold optimal_packet_size. destruct (secondary_packet_size (config h)) as [second|] eqn:E2; cbn [option_list] in Hs.
  - destruct (Hs (primary_packet_size (config h))) as [D1 T1]; [by constructor|done|]. destruct (Hs second) as [D2 T2]; [by repeat constructor|done|].
    destruct (required_packets_ok m _ (num_mix_hops (config h)) D1) as [n1 E3]. destruct (required_packets_ok m _ (num_mix_hops (config h)) D2) as [n2 E4].
    destruct (n1 <=? n2) eqn:En; eexists; (split; [intros E; rewrite E3; cbn [obind]; rewrite E4; cbn [obind]; by rewrite En|done]).
  - destruct (Hs (primary_packet_size (config h))) as [D1 T1]; [by constructor|done|]. by eexists.
Qed.

Lemma prepare_fragments_ok h recipient local size fragments entropy :
  handler_ok h -> client_of topology recipient -> Recipient.client_encryption_key recipient = x25519_public local ->
  data_size size -> PacketSize.packet_type_of size = ty -> (forall i, entropy_ok (entropy i)) ->
  Forall (fun f => Fragments.header_ok (Fragment.header f)
            /\ Fragment.serialized_size f + ack_overhead ty + 32 = PacketSize.plaintext_size size) fragments ->
  exists acks packets, prepare_fragments h topology recipient ty None fragments entropy = Ok (acks, packets)
    /\ PendingAcknowledgement.message_chunk <$> acks = fragments
    /\ Forall2 (fun f p => exists i, arrives network (sender_address (config h)) recipient (ack_key (config h)) local (Regular (ephemeral_key (entropy i)) f) f (real_mix_packet p))
         fragments packets.
Proof.
  intros Hh Hr Hk Hd Ht He Hf. revert entropy He. induction Hf as [|f fragments [Hf1 Hf2] _ IH]; intros entropy He.
  { by exists [], []. }
  destruct (prepare_chunk_ok topology network Hnet (message_preparer h) (entropy O) f (ack_key (config h)) recipient local size) as (prepared & E1 & E2 & Harr);
    try done; [apply Hh|apply Hh|].
  destruct (IH (fun i => entropy (S i))) as (acks & packets & E3 & Ha & Hp); [done|].
  cbn [prepare_fragments]. rewrite E1. cbn [map_err obind]. rewrite E3. cbn [obind]. eexists _, _. split; [done|]. split; [simpl; by f_equal|].
  constructor; [by exists O|]. eapply Forall2_impl; [exact Hp|]. simpl. intros f' p [i Hi]. by exists (S i).
Qed.

(** ** Acknowledged fragments *)

Lemma removals_ok `{DelayQueueLaws} c ids :
  AckFacts.timers_ok c ->
  exists c', ActionController.turns (E := unit) c (ActionController.Perform ∘ RemovePending <$> ids) = Ok c' /\ AckFacts.timers_ok c'
    /\ (forall id, id ∈ ids \/ ActionController.pending_acks_data c !! id = None -> ActionController.pending_acks_data c' !! id = None).
Proof.
  revert c. induction ids as [|i ids IH]; intros c Hc.
  { exists c. split; [done|]. split; [done|]. intros id [Hin|?]; [by apply not_elem_of_nil in Hin|done]. }
  destruct (AckFacts.handle_remove_ok (E := unit) c i Hc) as (c1 & E1 & Hc1). destruct (IH c1 Hc1) as (c' & E' & Hc' & Hgone).
  rewrite fmap_cons. cbn [compose ActionController.turns ActionController.turn ActionController.process_action]. rewrite E1. cbn [obind].
  exists c'. split; [done|]. split; [done|]. intros id Hid. apply Hgone. rewrite (AckFacts.handle_remove_data _ _ _ E1).
  destruct (decide (id = i)) as [->|Hne]; [right; apply lookup_delete_eq|]. rewrite lookup_delete_ne by done.
  destruct Hid as [Hin|?]; [left|by right]. by apply elem_of_cons in Hin as [->|?].
Qed.

(** ** A message in full *)

(** Fragments that arrive, in any order and number. *)
Record travelled (h : MessageHandler.t) (recipient : Recipient.t) (local : list byte) (use_legacy : nat -> bool)
    (sent : list RealMessage) (fs : list (arrival * Fragment.t)) : Prop := mkTravelled {
  all_delivered : exists hops, mapM_outcome (fun p => deliver 3 network use_legacy (real_mix_packet p)) sent = Ok hops
    /\ Forall (fun hop => destination hop = Recipient.client_identity recipient) hops
    /\ message <$> hops = packet local <$> fs.*1
    /\ exists returned, mapM_outcome (deliver 3 network use_legacy) (omap forward_ack hops) = Ok returned
      /\ Forall (fun hop => destination hop = Recipient.client_identity (sender_address (config h))) returned
      /\ exists actions, mapM_outcome (fun hop => on_ack (E := unit) (ack_key (config h)) (message hop)) returned = Ok actions
        /\ concat actions.*2 = RemovePending ∘ Fragment.fragment_identifier <$> fs.*2
}.

Lemma all_travel h recipient local use_legacy sent fs :
  Forall2 (fun p ef => arrives network (sender_address (config h)) recipient (ack_key (config h)) local ef.1 ef.2 (real_mix_packet p)) sent fs ->
  travelled h recipient local use_legacy sent fs.
Proof.
  induction 1 as [|p [e f] sent fs (ack & Hdel & Hack) _ [(hops & E1 & D1 & M1 & returned & E2 & D2 & actions & E3 & A3)]].
  { split. exists []. split_and!; [done..|]. exists []. split_and!; [done..|]. by exists []. }
  destruct (Hack use_legacy) as (hop & E4 & D4 & _ & A4). split.
  eexists (_ :: hops). split; [cbn [mapM_outcome]; rewrite Hdel; cbn [obind]; by rewrite E1|].
  split; [by constructor|]. split; [simpl; by f_equal|]. exists (hop :: returned).
  split; [cbn [omap list_omap forward_ack mapM_outcome]; rewrite E4; cbn [obind]; by rewrite E2|]. split; [by constructor|].
  eexists (_ :: actions). split; [cbn [mapM_outcome]; rewrite A4; cbn [obind]; by rewrite E3|]. simpl. by f_equal.
Qed.

(** The identifiers of the sets are drawn distinct, as many as the message needs. *)
Definition distinct_ids (rng : list Z) (m : NymMessage.t) (size : PacketSize.t) : Prop :=
  forall a, NymMessage.available_sphinx_plaintext_per_packet (E := unit) m size = Ok a ->
    exists ids rng', NoDup ids
      /\ generate_set_ids (Z.to_nat (total_number_of_sets (len (NymMessage.pad_to_full_packet_lengths m a)) a)) rng = Ok (ids, rng').

Definition wire_ok (f : Fragment.t) : Prop := Fragments.header_ok (Fragment.header f) /\ linkable (Fragment.header f).

(** A packet carries one fragment. *)
Lemma arrives_inj sender recipient key local e e' f f' m :
  wire_ok f -> wire_ok f' -> arrives network sender recipient key local (Regular e f) f m ->
  arrives network sender recipient key local (Regular e' f') f' m -> f = f'.
Proof.
  intros [O1 L1] [O2 L2] (a & D & _) (a' & D' & _). specialize (D (fun _ => false)). rewrite (D' (fun _ => false)) in D.
  injection D as _ Ep. assert (Fragment.into_bytes f = Fragment.into_bytes f') as Eb.
  { pose proof (recover_regular local e (Fragment.into_bytes f)) as R1. pose proof (recover_regular local e' (Fragment.into_bytes f')) as R2.
    cbn [packet new_ephemeral_shared_key] in Ep. rewrite Ep in R2. congruence. }
  pose proof (proj2 (try_from_bytes_iff _ f) (conj O1 (conj L1 eq_refl))) as T1.
  pose proof (proj2 (try_from_bytes_iff _ f') (conj O2 (conj L2 eq_refl))) as T2. rewrite Eb in T1. congruence.
Qed.

(** The fragments of a message. *)
Lemma message_splits h rng m :
  handler_ok h -> message_ok DEFAULT_NUM_MIX_HOPS m -> len (NymMessage.into_bytes m) < 2 ^ 51 -> Forall is_i32 rng ->
  (forall size, packet_size_for (E := unit) h ty m = Ok size -> distinct_ids rng m size) ->
  exists size w, (forall E, packet_size_for (E := E) h ty m = Ok size) /\ data_size size /\ PacketSize.packet_type_of size = ty
    /\ (forall E, pad_and_split (E := E) h rng m size = Ok (m_frags w)) /\ sent_ok DEFAULT_NUM_MIX_HOPS (w, m) /\ NoDup (m_ids w)
    /\ Forall (fun f => wire_ok f /\ Fragment.serialized_size f + ack_overhead ty + 32 = PacketSize.plaintext_size size) (m_frags w).
Proof.
  intros Hh Hm Hlen Hrng Hids. destruct (packet_size_ok h m Hh) as (size & Es & Hd & Ht).
  destruct (available_ok m size Hd) as (a & Ea & Hb & Hroom). destruct (Hids size (Es unit) a (Ea unit)) as (ids & rng' & Hdup & Eids).
  destruct (pad_and_split_ok rng m size a ids rng' Hd Ea Hb Hrng Hlen Eids Hdup) as (sets & Esplit & Hw & Hsize).
  set (w := Msg ids sets _) in Hw. exists size, w. split_and!; try done.
  - intros E. unfold pad_and_split. by rewrite Esplit.
  - destruct Hw as (? & _ & ?). split; [done|]. split; [done|]. split; [done|]. by exists a.
  - apply Forall_forall. intros f Hf. split; [|rewrite (Hsize f Hf), <- Ht; lia].
    destruct (owned_fragment [w] ltac:(intros ? ->%list_elem_of_singleton; done) w f) as (? & ? & _); [by constructor|done|done].
Qed.

Section Sent.
Context (h : MessageHandler.t) (recipient : Recipient.t) (local : list byte) (entropy : nat -> ChunkEntropy).
#[local] Abbreviation arriving i f p :=
  (arrives network (sender_address (config h)) recipient (ack_key (config h)) local (Regular (ephemeral_key (entropy i)) f) f (real_mix_packet p)).

(** When packets come in another order, or more than once, so do their fragments, and no others. *)
Lemma sent_fragments fragments packets sent :
  Forall2 (fun f p => exists i, arriving i f p) fragments packets -> Forall wire_ok fragments -> (forall p, p ∈ sent <-> p ∈ packets) ->
  exists fs, Forall2 (fun p ef => arrives network (sender_address (config h)) recipient (ack_key (config h)) local ef.1 ef.2 (real_mix_packet p)) sent fs
    /\ Forall (fun af => exists i, af.1 = Regular (ephemeral_key (entropy i)) af.2) fs /\ (forall f, f ∈ fs.*2 <-> f ∈ fragments).
Proof.
  intros Ha Hw Hs.
  assert (forall sent, (forall p, p ∈ sent -> p ∈ packets) -> exists fs : list (arrival * Fragment.t),
    Forall2 (fun p ef => ef.2 ∈ fragments /\ exists i, ef.1 = Regular (ephemeral_key (entropy i)) ef.2 /\ arriving i ef.2 p) sent fs) as Hex.
  { clear -Ha. induction sent as [|p sent IH]; intros Hp; [by exists []|].
    destruct IH as [fs Hfs]; [intros q Hq; apply Hp; by constructor|].
    destruct (list_elem_of_lookup_1 _ _ (Hp p ltac:(constructor))) as [j Hj].
    destruct (Forall2_lookup_r _ _ _ _ _ Ha Hj) as (f & Hf & i & Hi). exists ((Regular (ephemeral_key (entropy i)) f, f) :: fs).
    constructor; [|done]. split; [by eapply list_elem_of_lookup_2|]. by exists i. }
  destruct (Hex sent) as [fs Hfs]; [by intros; apply Hs|]. exists fs. split_and!.
  - eapply Forall2_impl; [exact Hfs|]. intros p [e f] (_ & i & E & Hi). simpl in *. by rewrite E.
  - eapply Forall2_Forall_r; [exact Hfs|]. apply Forall_true. intros p ef (_ & i & E & _). eauto.
  - intros f. split.
    + intros ([e f'] & -> & Hin)%list_elem_of_fmap. apply list_elem_of_lookup_1 in Hin as [j Hj].
      by destruct (Forall2_lookup_r _ _ _ _ _ Hfs Hj) as (p & _ & Hin & _).
    + intros Hf. pose proof Hf as [j Hj]%list_elem_of_lookup_1. destruct (Forall2_lookup_l _ _ _ _ _ Ha Hj) as (p & Hp & i & Hi).
      destruct (list_elem_of_lookup_1 _ _ (proj2 (Hs p) (list_elem_of_lookup_2 _ _ _ Hp))) as [k Hk].
      destruct (Forall2_lookup_l _ _ _ _ _ Hfs Hk) as ([e f'] & Hef & Hin & i' & _ & Hi'). cbn [snd] in *.
      rewrite Forall_forall in Hw. rewrite (arrives_inj _ _ _ _ _ _ f f' _ (Hw _ Hf) (Hw _ Hin) Hi Hi').
      apply list_elem_of_fmap. exists (e, f'). split; [done|]. by eapply list_elem_of_lookup_2.
Qed.

Lemma handler_sends rng m lane :
  handler_ok h -> client_of topology recipient -> Recipient.client_encryption_key recipient = x25519_public local ->
  message_ok DEFAULT_NUM_MIX_HOPS m -> len (NymMessage.into_bytes m) < 2 ^ 51 -> Forall is_i32 rng ->
  (forall size, packet_size_for (E := unit) h ty m = Ok size -> distinct_ids rng m size) -> (forall i, entropy_ok (entropy i)) ->
  exists w acks packets,
    try_split_and_send_non_reply_message h rng entropy m recipient lane ty None = Ok (forward_messages (insert_pending_acks h acks) packets lane)
    /\ sent_ok DEFAULT_NUM_MIX_HOPS (w, m) /\ NoDup (m_ids w) /\ PendingAcknowledgement.message_chunk <$> acks = m_frags w
    /\ Forall wire_ok (m_frags w) /\ Forall2 (fun f p => exists i, arriving i f p) (m_frags w) packets.
Proof.
  intros Hh Hr Hk Hm Hlen Hrng Hids He. destruct (message_splits h rng m Hh Hm Hlen Hrng Hids) as (size & w & Es & Hd & Ht & Esplit & Hsent & Hdup & Hf).
  destruct (prepare_fragments_ok h recipient local size (m_frags w) entropy) as (acks & packets & Ep & Hacks & Harr); try done.
  { eapply Forall_impl; [exact Hf|]. intros f [[] ?]. done. }
  exists w, acks, packets. split_and!; try done.
  - unfold try_split_and_send_non_reply_message. rewrite (get_topology_ok h Hh). cbn [obind]. rewrite Es. cbn [obind].
    rewrite Esplit. cbn [obind]. by rewrite Ep.
  - eapply Forall_impl; [exact Hf|]. by intros f [].
Qed.

End Sent.

(** The buffer of the recipient hands over exactly the message. *)
Lemma buffer_delivers w m local keys arrivals :
  sent_ok DEFAULT_NUM_MIX_HOPS (w, m) -> NoDup (m_ids w) -> Forall (arrival_ok local keys) arrivals ->
  NoDup (SurbEncryptionKey.compute_digest <$> omap reply_key arrivals) -> (forall f, f ∈ omap carried arrivals <-> f ∈ m_frags w) ->
  exists b, ReceivedMessagesBuffer.handle_new_received ∅ (ReceivedMessagesBuffer.new local keys) (packet local <$> arrivals) = Ok b
    /\ kept b = option_list (for_application m).
Proof.
  intros Hsent Hdup Hok Hkeys Hfs. set (events := [(∅ : gset Z, Received arrivals)]).
  assert (concat (batch_of <$> events) = arrivals) as Eb by (simpl; by rewrite app_nil_r).
  destruct (run_delivers [(w, m)] local keys events) as [R1 R2]; rewrite ?Eb; try solve [done|by apply distinct_arrivals_ok].
  - constructor; [done|constructor].
  - simpl. by rewrite app_nil_r.
  - intros f Hf. exists (w, m). split; [by constructor|]. by apply Hfs.
  - destruct R2 as [b R2]; [by repeat constructor|done|]. exists b. specialize (R1 b R2). rewrite Eb in R1. split.
    { simpl in R2. by destruct (ReceivedMessagesBuffer.handle_new_received _ _ _); simpl in R2; simplify_eq. }
    rewrite filter_cons_True in R1.
    + simpl in R1. destruct (for_application m); simpl in *; [by apply Permutation_singleton_r in R1|by apply Permutation_nil_r in R1].
    + simpl. unfold m_done. apply set_done_true. intros f Hf. by apply Hfs.
Qed.

Lemma regular_arrivals fs (entropy : nat -> ChunkEntropy) local keys :
  Forall (fun af => exists i, af.1 = Regular (ephemeral_key (entropy i)) af.2) fs ->
  (forall i, keys !! x25519_public (ephemeral_key (entropy i)) = None) ->
  omap carried fs.*1 = fs.*2 /\ omap reply_key fs.*1 = [] /\ Forall (arrival_ok local keys) fs.*1.
Proof.
  intros Hf Hk. induction Hf as [|[a f] fs [i Ei] _ (I1 & I2 & I3)]; [done|]. simpl in Ei. subst a. simpl.
  split_and!; [by f_equal|done|]. constructor; [apply Hk|done].
Qed.

(** The acknowledgements of the fragments leave none of them pending. *)
Lemma acknowledged `{DelayQueueLaws} c (fs : list Fragment.t) (acks : list PendingAcknowledgement.t) (actions : list (list AckStatisticsEvent * list Action)) :
  concat actions.*2 = RemovePending ∘ Fragment.fragment_identifier <$> fs -> AckFacts.timers_ok c ->
  (forall f, f ∈ PendingAcknowledgement.message_chunk <$> acks -> f ∈ fs) ->
  exists c', ActionController.turns (E := unit) c (ActionController.Perform <$> concat actions.*2) = Ok c'
    /\ forall p, p ∈ acks -> ActionController.pending_acks_data c' !! PendingAcknowledgement.inner_fragment_identifier p = None.
Proof.
  intros Ea Hc Hacks. destruct (removals_ok c (Fragment.fragment_identifier <$> fs) Hc) as (c' & Ec & _ & Hgone).
  exists c'. split; [by rewrite Ea, <- list_fmap_compose; rewrite <- list_fmap_compose in Ec|]. intros p Hp. apply Hgone. left.
  apply list_elem_of_fmap. exists (PendingAcknowledgement.message_chunk p). split; [done|].
  apply Hacks, list_elem_of_fmap. eauto.
Qed.

(** C1: a message that a client sends reaches its recipient exactly once, and the sender learns that it did.
    The message, plain or with reply blocks, is split and put into packets.  Every packet travels along its route through
    the nodes that listen at the addresses of the topology, and comes out at the gateway for the recipient.
    When the packets are received in any order, any of them more than once, the buffer of the recipient
    hands over exactly the message, once.  The gateway takes an acknowledgement out of every packet; each
    finds its way back to the sender, whose controller then has none of the fragments pending, whatever
    timers were running. *)
Theorem message_is_delivered_and_acknowledged `{DelayQueueLaws} h rng entropy m recipient local lane keys :
  handler_ok h -> client_of topology recipient -> Recipient.client_encryption_key recipient = x25519_public local ->
  message_ok DEFAULT_NUM_MIX_HOPS m -> len (NymMessage.into_bytes m) < 2 ^ 51 -> Forall is_i32 rng ->
  (forall size, packet_size_for (E := unit) h ty m = Ok size -> distinct_ids rng m size) ->
  (forall i, entropy_ok (entropy i) /\ keys !! x25519_public (ephemeral_key (entropy i)) = None) ->
  exists acks packets,
    try_split_and_send_non_reply_message h rng entropy m recipient lane ty None = Ok (forward_messages (insert_pending_acks h acks) packets lane)
    /\ forall use_legacy sent, (forall p, p ∈ sent <-> p ∈ packets) ->
      exists hops returned actions,
        mapM_outcome (fun p => deliver 3 network use_legacy (real_mix_packet p)) sent = Ok hops
        /\ Forall (fun hop => destination hop = Recipient.client_identity recipient) hops
        /\ (exists b, ReceivedMessagesBuffer.handle_new_received ∅ (ReceivedMessagesBuffer.new local keys) (message <$> hops) = Ok b
              /\ kept b = option_list (for_application m))
        /\ mapM_outcome (deliver 3 network use_legacy) (omap forward_ack hops) = Ok returned
        /\ Forall (fun hop => destination hop = Recipient.client_identity (sender_address (config h))) returned
        /\ mapM_outcome (fun hop => on_ack (E := unit) (ack_key (config h)) (message hop)) returned = Ok actions
        /\ forall c, AckFacts.timers_ok c ->
             exists c', ActionController.turns (E := unit) c (ActionController.Perform <$> concat actions.*2) = Ok c'
               /\ forall p, p ∈ acks -> ActionController.pending_acks_data c' !! PendingAcknowledgement.inner_fragment_identifier p = None.
Proof.
  intros Hh Hr Hk Hm Hlen Hrng Hids He.
  destruct (handler_sends h recipient local entropy rng m lane Hh Hr Hk Hm Hlen Hrng Hids ltac:(intros; apply He))
    as (w & acks & packets & Esend & Hsent & Hdup & Hacks & Hwire & Harr).
  exists acks, packets. split; [done|]. intros use_legacy sent Hs.
  destruct (sent_fragments h recipient local entropy _ packets sent Harr Hwire Hs) as (fs & Hfs & Heph & Hsame).
  destruct (all_travel h recipient local use_legacy sent fs Hfs) as [(hops & E1 & D1 & M1 & returned & E2 & D2 & actions & E3 & A3)].
  exists hops, returned, actions. split_and!; try done.
  - rewrite M1. destruct (regular_arrivals fs entropy local keys Heph) as (C1 & C2 & C3); [intros i; apply He|].
    apply (buffer_delivers w); rewrite ?C1, ?C2; try done. constructor.
  - intros c Hc. apply (acknowledged c fs.*2); [done..|]. rewrite Hacks. intros f. apply Hsame.
Qed.

End Handler.

End Delivery.
