(* ===== verification/ReplyDelivery.v ===== *)
(** * Replies

    A client makes reply blocks and keeps their keys; whoever has the blocks can
    answer without knowing the client.  The fragments of an answer travel with
    one block each, and the client, which finds the key of each fragment by its
    digest, reassembles the answer. *)

From Stdlib.Strings Require Import Byte.
From stdpp Require Import gmap list.
From S2P Require Import Prelude Bytes Float64 Fragments FragmentSets Reconstruction Addressing Outfox OutfoxFacts PacketSizes NymPackets Topology Processing PacketFacts Transport Replies NymMessages MessageFacts ReplyStorage ReceivedBuffer ReceivedFacts AckControl MessageSending MessageDelivery.
#[local] Open Scope Z_scope.

Import SphinxPacketProcessor.

(** What the crate [sphinx-packet] documents of its reply blocks. *)
Class SurbCarries `{SurbApi} `{OutfoxCrypto} : Prop := {
  construct_SURB_carries entropy route keys destination delays :
    (0 < length route <= 5)%nat -> length delays = length route -> len (destination_address destination) = 32 ->
    Forall (fun node => len (node_address node) = 32) route -> Forall2 (fun node key => node_pub_key node = public_of key) route keys ->
    exists s, construct_SURB entropy route delays destination = Ok s
      /\ forall message size, len message + PAYLOAD_OVERHEAD_SIZE <= size ->
           exists p first, use_surb s message size = Ok (p, first) /\ node_address <$> head route = Some first
             /\ sphinx_carries size (destination_address destination) message p keys (node_address <$> tail route)
}.

Section Replying.
Context `{SurbApi} `{!SurbLaws} `{OutfoxCrypto} `{TopologyApi} `{KeyApi} `{StreamCipherLaws} `{PacketCryptoLaws} `{!DistinctSizes}.
Context `{!SurbCarries} `{!Transport PacketType.Mix}.
Context (topology : NymTopology.t) (network : SocketAddr -> option (list byte)) (Hnet : network_ok topology network).

(** ** Reply blocks *)

(** A message put into the block gets to the client. *)
Definition returns_to (client : Recipient.t) (s : ReplySurb.t) : Prop :=
  forall message size, PacketSize.packet_type_of size = PacketType.Mix -> len message = PacketSize.plaintext_size size ->
    exists p first, ReplySurb.apply_surb s message size PacketType.Mix = Ok (p, first)
      /\ forall use_legacy hop, process_final_hop (Recipient.client_identity client) message size PacketType.Mix = Ok (FinalHop hop) ->
           deliver 3 network use_legacy (MixPacket.new first p PacketType.Mix) = Ok hop.

Lemma construct_ok draw samples entropy key client average :
  client_of topology client -> (forall n, length (samples n) = n) -> len key = SurbEncryptionKeySize ->
  exists s, ReplySurb.construct draw samples entropy key client average topology = Ok s
    /\ ReplySurb.encryption_key s = key /\ surb_ok DEFAULT_NUM_MIX_HOPS s /\ returns_to client s.
Proof.
  intros Hc Hs Hk. destruct (route_to_client topology network draw client Hnet Hc) as (route & hosts & keys & Er & Hr & L4 & Hn).
  destruct (route_first network route hosts keys Hr L4 Hn) as (n & h & Eh & Ea & Ehosts & Lh).
  destruct (route_parts route hosts keys Hr L4) as (P1 & P2 & P3).
  set (delays := generate_hop_delays average samples (length route)).
  assert (length delays = 4%nat) as Hd by (unfold delays; by rewrite length_hop_delays, L4).
  destruct (construct_SURB_carries entropy route keys (as_sphinx_destination client) delays) as (s & Es & Huse);
    [lia|lia|apply valid_client_identity, Hc|done|done|].
  unfold ReplySurb.construct. rewrite Er. cbn [obind]. fold delays. rewrite Es. cbn [unwrap obind].
  eexists. split; [done|]. split; [done|]. split.
  - destruct (construct_SURB_bytes _ _ _ _ _ Es) as [B1 B2]. split; [done|]. split; [|done]. cbn [ReplySurb.surb]. rewrite B2. unfold len. by rewrite L4.
  - intros message size Hty Hm. destruct (Huse message (PacketSize.payload_size size)) as (p & first & E1 & E2 & Hcar).
    { rewrite Hm. unfold PacketSize.payload_size, PacketSize.plaintext_size. destruct size; try done; cbn [PacketSize.payload_overhead]; lia. }
    rewrite Eh in E2. injection E2 as <-. unfold ReplySurb.apply_surb. rewrite Hm, Z.eqb_refl. cbn [negb ReplySurb.surb]. rewrite E1. cbn [unwrap obind].
    rewrite Ea. cbn [unwrap obind]. eexists _, _. split; [done|]. intros use_legacy hop Hhop.
    eapply deliver_carries; [eapply sphinx_carries_packet; [exact Hcar|done|done|exact P3]|done|done| | |exact Hhop].
    + by rewrite <- Ehosts.
    + rewrite length_fmap, length_tl, Lh. simpl. lia.
Qed.

(** ** Fragments in replies *)

Lemma prepare_reply_chunk_ok p e f ack_key client local size s :
  client_of topology (MessagePreparer.sender_address p) -> returns_to client s ->
  Fragments.header_ok (Fragment.header f) -> entropy_ok e -> PacketSize.packet_type_of size = PacketType.Mix -> data_size size ->
  Fragment.serialized_size f + ack_overhead PacketType.Mix + 32 = PacketSize.plaintext_size size ->
  exists prepared, MessagePreparer.prepare_reply_chunk_for_sending p e f topology ack_key s PacketType.Mix = Ok prepared
    /\ MessagePreparer.fragment_identifier prepared = Fragment.fragment_identifier f
    /\ arrives network (MessagePreparer.sender_address p) client ack_key local (ReplyTo (ReplySurb.encryption_key s) f) f
         (MessagePreparer.mix_packet prepared).
Proof.
  intros Hsend Hret Hhdr [V1 V2 V3 V4 V5] Hty Hds Hsize.
  destruct (surb_ack_ok PacketType.Mix topology network Hnet (ack_draw e) (ack_samples e) (ack_iv e) (ack_entropy e) (MessagePreparer.sender_address p)
    ack_key (FragmentIdentifier.to_bytes (Fragment.fragment_identifier f)) (MessagePreparer.average_ack_delay p) Hsend V1 V2 V4 (len_identifier (Fragment.fragment_identifier f)))
    as (ack & Eack & Aok & Av & Ar & Adel).
  set (key := ReplySurb.encryption_key s).
  set (payload := NymPayloadBuilder.build_reply (NymPayloadBuilder.new f ack) key).
  assert (payload = (SurbAck.prepare_for_sending ack).2 ++ packet local (ReplyTo key f)) as Epayload.
  { unfold payload, NymPayloadBuilder.build_reply, NymPayloadBuilder.build.
    cbn [NymPayloadBuilder.surb_ack NymPayloadBuilder.fragment packet]. by destruct (SurbAck.prepare_for_sending ack). }
  assert (len payload = PacketSize.plaintext_size size) as Hpl.
  { rewrite Epayload, len_app, (len_ack_bytes PacketType.Mix ack Aok Av). cbn [packet]. rewrite len_app. unfold SurbEncryptionKey.compute_digest.
    rewrite len_key_digest. unfold len. rewrite length_stream_encrypt. fold (len (Fragment.into_bytes f)). rewrite <- serialized_size_into_bytes. lia. }
  destruct (Hret payload size Hty Hpl) as (q & first & Eq & Hdel).
  unfold MessagePreparer.prepare_reply_chunk_for_sending.
  assert (PacketSize.get_type_from_plaintext (Fragment.serialized_size f + ACK_OVERHEAD + reply_surb_key_digest_size) PacketType.Mix = Ok size) as ->.
  { unfold reply_surb_key_digest_size. change ACK_OVERHEAD with (ack_overhead PacketType.Mix). rewrite Hsize, <- Hty. apply get_type_from_plaintext_size. }
  cbn [unwrap obind]. unfold MessagePreparer.generate_surb_ack. rewrite Eack. cbn [obind]. fold key payload. rewrite Eq. cbn [unwrap obind].
  eexists. split; [done|]. split; [done|]. cbn [MessagePreparer.mix_packet].
  exists (MixPacket.new (SurbAck.first_hop_address ack) (SurbAck.surb_ack_packet ack) PacketType.Mix). split.
  - intros use_legacy. apply Hdel. unfold process_final_hop. by rewrite Epayload, split_ack.
  - intros use_legacy. eexists. split; [apply Adel|]. split; [done|]. split; [done|]. by apply on_ack_prepared.
Qed.

Import MessageHandler.

Section Sending.
Context (h : MessageHandler.t) (client : Recipient.t) (local : list byte) (Hh : handler_ok PacketType.Mix topology h).
#[local] Abbreviation returning a f p := (arrives network (sender_address (config h)) client (ack_key (config h)) local a f p).

Lemma prepare_reply_loop_ok size fragments surbs entropy :
  data_size size -> PacketSize.packet_type_of size = PacketType.Mix -> (forall i, entropy_ok (entropy i)) ->
  Forall (fun f => wire_ok f /\ Fragment.serialized_size f + ack_overhead PacketType.Mix + 32 = PacketSize.plaintext_size size) fragments ->
  Forall (returns_to client) surbs -> length surbs = length fragments ->
  exists prepared, prepare_reply_loop h topology fragments surbs entropy = Ok prepared
    /\ Forall2 (fun fs p => returning (ReplyTo (ReplySurb.encryption_key fs.2) fs.1) fs.1 (MessagePreparer.mix_packet p)) (zip fragments surbs) prepared.
Proof.
  intros Hd Ht He Hf Hs. revert fragments entropy He Hf. induction Hs as [|s surbs Hs _ IH]; intros fragments entropy He Hf Hl.
  { destruct fragments; [|done]. by exists []. }
  destruct fragments as [|f fragments]; [done|]. apply Forall_cons in Hf as [[[Hf1 _] Hf2] Hf].
  destruct (prepare_reply_chunk_ok (message_preparer h) (entropy O) f (ack_key (config h)) client local size s) as (p & E1 & _ & Harr);
    try done; [apply Hh|].
  destruct (IH fragments (fun i => entropy (S i))) as (ps & E2 & Hps); [done|done|simpl in Hl; lia|].
  cbn [prepare_reply_loop]. rewrite E1. cbn [unwrap obind]. rewrite E2. cbn [obind]. eexists. split; [done|].
  simpl. by constructor.
Qed.

(** All on one lane. *)
Lemma forward_one_lane (messages : list RealMessage) lane :
  forward_lanes h [lane] ((fun m => (lane, m)) <$> messages) = forward_messages h messages lane.
Proof.
  unfold forward_lanes. simpl. f_equal. rewrite filter_all.
  - rewrite <- list_fmap_compose. apply list_fmap_id.
  - by intros x (m & -> & _)%list_elem_of_fmap.
Qed.

Lemma reply_chunks_sent fragments surbs entropy lane target prepared :
  prepare_reply_loop h topology fragments surbs entropy = Ok prepared -> length prepared = length fragments -> fragments <> [] ->
  exists acks packets, try_send_reply_chunks_on_lane h entropy target fragments surbs lane = Ok (insert_pending_acks (forward_messages h packets lane) acks)
    /\ PendingAcknowledgement.message_chunk <$> acks = fragments /\ real_mix_packet <$> packets = MessagePreparer.mix_packet <$> prepared.
Proof.
  intros Ep Hl Hne. unfold try_send_reply_chunks_on_lane, try_send_reply_chunks, prepare_reply_chunks_for_sending.
  rewrite bool_decide_eq_false_2 by done. rewrite (get_topology_ok PacketType.Mix topology network Hnet h Hh).
  rewrite <- list_fmap_compose. rewrite list_fmap_id, Ep. cbn [obind].
  set (pairs := zip ((fun f => (lane, f)) <$> fragments) prepared).
  assert (exists packets, (fun p : TransmissionLane * Fragment.t * MessagePreparer.PreparedFragment =>
       (p.1.1, mkRealMessage (MessagePreparer.mix_packet p.2) (Some (MessagePreparer.fragment_identifier p.2)))) <$> pairs
     = (fun m => (lane, m)) <$> packets /\ real_mix_packet <$> packets = MessagePreparer.mix_packet <$> prepared) as (packets & -> & Hp).
  { unfold pairs. clear Ep Hne pairs. revert prepared Hl. induction fragments as [|f fragments IH]; intros [|p prepared] Hl; try done.
    { by exists []. }
    destruct (IH prepared) as (packets & E1 & E2); [simpl in Hl; lia|].
    exists (mkRealMessage (MessagePreparer.mix_packet p) (Some (MessagePreparer.fragment_identifier p)) :: packets).
    split; simpl; f_equal; done. }
  rewrite forward_one_lane. eexists _, packets. split; [done|]. split; [|done].
  unfold pairs. clear Ep Hne pairs Hp. revert prepared Hl. induction fragments as [|f fragments IH]; intros [|p prepared] Hl; try done.
  simpl. f_equal. apply IH. simpl in Hl. lia.
Qed.

End Sending.

(** ** An answer in full *)

(** Random choices for a reply block: route, delays, packet, and the key of the block. *)
Definition surb_entropy_ok (e : (Z -> nat) * (nat -> list Z) * list byte * list byte) : Prop :=
  let '(_, samples, _, key) := e in (forall n, length (samples n) = n) /\ len key = SurbEncryptionKeySize.

Lemma generate_surbs_ok h entropy :
  handler_ok PacketType.Mix topology h -> Forall surb_entropy_ok entropy ->
  exists surbs, generate_reply_surbs_with_keys h entropy = Ok (surbs, entropy.*2) /\ ReplySurb.encryption_key <$> surbs = entropy.*2
    /\ Forall (surb_ok DEFAULT_NUM_MIX_HOPS) surbs /\ Forall (returns_to (sender_address (config h))) surbs.
Proof.
  intros Hh He. unfold generate_reply_surbs_with_keys. rewrite (get_topology_ok PacketType.Mix topology network Hnet h Hh). cbn [obind].
  unfold MessagePreparer.generate_reply_surbs.
  enough (exists surbs, mapM_outcome (fun '(draw, samples, surb_entropy, key) =>
      ReplySurb.construct draw samples surb_entropy key (sender_address (config h)) (average_packet_delay (config h)) topology) entropy = Ok surbs
    /\ ReplySurb.encryption_key <$> surbs = entropy.*2
    /\ Forall (surb_ok DEFAULT_NUM_MIX_HOPS) surbs /\ Forall (returns_to (sender_address (config h))) surbs) as (surbs & E & Ek & Hs).
  { exists surbs. change (MessagePreparer.sender_address (message_preparer h)) with (sender_address (config h)).
    change (MessagePreparer.average_packet_delay (message_preparer h)) with (average_packet_delay (config h)). rewrite E. cbn [map_err obind].
    rewrite Ek. done. }
  induction He as [|[[[draw samples] e] key] entropy [Hs Hk] _ (surbs & E & Ek & F1 & F2)]; [by exists []|].
  destruct (construct_ok draw samples e key (sender_address (config h)) (average_packet_delay (config h)) (h_sender _ _ _ Hh) Hs Hk)
    as (s & Es & Ek' & F3 & F4).
  exists (s :: surbs). cbn [mapM_outcome]. rewrite Es. cbn [obind]. rewrite E. cbn [obind]. split; [done|].
  split; [simpl; by f_equal|]. split; by constructor.
Qed.

(** The keys can be found again by their digests. *)
Lemma insert_multiple_lookup keys now ks k :
  NoDup (SurbEncryptionKey.compute_digest <$> ks) -> k ∈ ks ->
  SentReplyKeys.insert_multiple keys now ks !! SurbEncryptionKey.compute_digest k = Some (SentReplyKeys.mkUsedKey k now).
Proof.
  assert (forall ks keys d, d ∉ SurbEncryptionKey.compute_digest <$> ks -> SentReplyKeys.insert_multiple keys now ks !! d = keys !! d) as Hother.
  { clear. induction ks as [|x ks IH]; intros keys d Hd; [done|]. rewrite fmap_cons, not_elem_of_cons in Hd. destruct Hd as [Hne Hd].
    cbn [SentReplyKeys.insert_multiple foldl]. fold (SentReplyKeys.insert_multiple (SentReplyKeys.insert_one keys (SentReplyKeys.mkUsedKey x now)) now ks).
    rewrite IH by done. unfold SentReplyKeys.insert_one. simpl. by rewrite lookup_insert_ne. }
  revert keys. induction ks as [|x ks IH]; intros keys Hd Hin; [by apply not_elem_of_nil in Hin|].
  rewrite fmap_cons in Hd. apply NoDup_cons in Hd as [Hx Hd].
  cbn [SentReplyKeys.insert_multiple foldl]. fold (SentReplyKeys.insert_multiple (SentReplyKeys.insert_one keys (SentReplyKeys.mkUsedKey x now)) now ks).
  apply elem_of_cons in Hin as [->|Hin]; [|by apply IH]. rewrite Hother by done. unfold SentReplyKeys.insert_one. simpl. apply lookup_insert_eq.
Qed.

(** A permutation on one side of a pairing. *)
Lemma Forall2_perm_l {A B} (P : A -> B -> Prop) l l' k : l' ≡ₚ l -> Forall2 P l k -> exists k', k' ≡ₚ k /\ Forall2 P l' k'.
Proof.
  intros Hp. revert k. induction Hp as [|x l' l Hp IH|x y l|l1 l2 l3 _ IH1 _ IH2]; intros k Hk.
  - exists k. split; [done|exact Hk].
  - apply Forall2_cons_inv_l in Hk as (b & k' & Hb & Hk & ->). destruct (IH k' Hk) as (k2 & Hp2 & Hk2). exists (b :: k2). split; [by rewrite Hp2|by constructor].
  - apply Forall2_cons_inv_l in Hk as (b & k' & Hb & Hk & ->). apply Forall2_cons_inv_l in Hk as (c & k2 & Hc & Hk & ->).
    exists (c :: b :: k2). split; [by constructor|by repeat constructor].
  - destruct (IH2 k Hk) as (k2 & Hp2 & Hk2). destruct (IH1 k2 Hk2) as (k1 & Hp1 & Hk1). exists k1. split; [by rewrite Hp1|done].
Qed.

Definition reply_arrival (fs : Fragment.t * ReplySurb.t) : arrival * Fragment.t := (ReplyTo (ReplySurb.encryption_key fs.2) fs.1, fs.1).

Lemma reply_arrivals local keys pairs :
  NoDup (SurbEncryptionKey.compute_digest <$> (ReplySurb.encryption_key <$> pairs.*2)) ->
  (forall k, k ∈ ReplySurb.encryption_key <$> pairs.*2 ->
     exists at', keys !! SurbEncryptionKey.compute_digest k = Some (SentReplyKeys.mkUsedKey k at')) ->
  forall fs, fs ≡ₚ reply_arrival <$> pairs ->
    Forall (arrival_ok local keys) fs.*1 /\ NoDup (SurbEncryptionKey.compute_digest <$> omap reply_key fs.*1)
    /\ (forall f, f ∈ omap carried fs.*1 <-> f ∈ pairs.*1) /\ (forall f, f ∈ fs.*2 <-> f ∈ pairs.*1).
Proof.
  intros Hd Hk fs Hfs.
  assert (omap reply_key (reply_arrival <$> pairs).*1 = ReplySurb.encryption_key <$> pairs.*2) as E1 by (clear; induction pairs; simpl; by f_equal).
  assert (omap carried (reply_arrival <$> pairs).*1 = pairs.*1) as E2 by (clear; induction pairs; simpl; by f_equal).
  assert ((reply_arrival <$> pairs).*2 = pairs.*1) as E3 by (rewrite <- list_fmap_compose; by apply list_fmap_ext).
  split_and!; [|by rewrite Hfs, E1|intros f; by rewrite Hfs, E2|].
  - rewrite Hfs. apply Forall_forall. intros a (af & -> & (fs' & -> & Hin)%list_elem_of_fmap)%list_elem_of_fmap. simpl. apply Hk.
    apply list_elem_of_fmap. exists fs'.2. split; [done|]. apply list_elem_of_fmap. eauto.
  - intros f. by rewrite Hfs, E3.
Qed.

(** C6: an answer reaches the client that made the reply blocks, exactly once.  The client makes blocks, which
    survive being written into a message and read back, and keeps their keys.  Another client splits its
    answer and sends every fragment with a block of its own.  The packets come to the first client, which
    the second one does not know; received in any order, they give exactly the answer.
    The acknowledgements come back to the client that answered, and leave nothing pending there. *)
Theorem reply_is_delivered `{DelayQueueLaws} asker answerer surb_entropy now keys rng entropy data target lane local :
  handler_ok PacketType.Mix topology asker -> handler_ok PacketType.Mix topology answerer ->
  Forall surb_entropy_ok surb_entropy -> NoDup (SurbEncryptionKey.compute_digest <$> surb_entropy.*2) ->
  data <> [] -> len data < 2 ^ 50 -> Forall is_i32 rng ->
  (forall size, optimal_packet_size (E := unit) answerer (NymMessage.Reply (ReplyMessage.Data data)) = Ok size ->
     distinct_ids rng (NymMessage.Reply (ReplyMessage.Data data)) size) ->
  (forall i, entropy_ok (entropy i)) ->
  exists surbs fragments, generate_reply_surbs_with_keys asker surb_entropy = Ok (surbs, surb_entropy.*2)
    /\ length surbs = length surb_entropy /\ (forall s, s ∈ surbs -> ReplySurb.from_bytes (ReplySurb.to_bytes s) = Ok s)
    /\ split_reply_message (E := unit) answerer rng data = Ok fragments
    /\ ((length fragments <= length surbs)%nat ->
        exists acks packets, try_send_reply_chunks_on_lane answerer entropy target fragments (take (length fragments) surbs) lane
          = Ok (insert_pending_acks (forward_messages answerer packets lane) acks)
        /\ forall use_legacy sent, sent ≡ₚ packets ->
          exists hops returned actions,
            mapM_outcome (fun p => deliver 3 network use_legacy (real_mix_packet p)) sent = Ok hops
            /\ Forall (fun hop => destination hop = Recipient.client_identity (sender_address (config asker))) hops
            /\ (exists b, ReceivedMessagesBuffer.handle_new_received ∅
                    (ReceivedMessagesBuffer.new local (SentReplyKeys.insert_multiple keys now surb_entropy.*2)) (message <$> hops) = Ok b
                  /\ kept b = [mkReconstructed data None])
            /\ mapM_outcome (deliver 3 network use_legacy) (omap forward_ack hops) = Ok returned
            /\ Forall (fun hop => destination hop = Recipient.client_identity (sender_address (config answerer))) returned
            /\ mapM_outcome (fun hop => on_ack (E := unit) (ack_key (config answerer)) (message hop)) returned = Ok actions
            /\ forall c, AckFacts.timers_ok c ->
                 exists c', ActionController.turns (E := unit) c (ActionController.Perform <$> concat actions.*2) = Ok c'
                   /\ forall p, p ∈ acks -> ActionController.pending_acks_data c' !! PendingAcknowledgement.inner_fragment_identifier p = None).
Proof.
  intros Ha Hb Hse Hdig Hdata Hlen Hrng Hids He. set (m := NymMessage.Reply (ReplyMessage.Data data)).
  destruct (generate_surbs_ok asker surb_entropy Ha Hse) as (surbs & Es & Ek & Hok & Hret).
  destruct (message_splits PacketType.Mix topology answerer rng m Hb) as (size & w & Esize & Hd & Ht & Esplit & Hsent & Hdup & Hf); try done.
  { unfold m, NymMessage.into_bytes. cbn [NymMessage.inner_bytes]. unfold ReplyMessage.into_bytes. cbn [ReplyMessage.content_into_bytes]. autorewrite with len. lia. }
  exists surbs, (m_frags w). split; [done|]. split; [by rewrite <- (length_fmap ReplySurb.encryption_key), Ek, length_fmap|]. split.
  { intros s Hs. rewrite Forall_forall in Hok. by apply (reply_surb_roundtrip DEFAULT_NUM_MIX_HOPS), Hok. }
  assert (forall E, optimal_packet_size (E := E) answerer m = Ok size) as Eopt by exact Esize.
  split; [unfold split_reply_message; fold m; rewrite Eopt; cbn [obind]; apply Esplit|]. intros Hle.
  set (used := take (length (m_frags w)) surbs). assert (length used = length (m_frags w)) as Hused by (unfold used; rewrite length_take; lia).
  destruct (prepare_reply_loop_ok answerer (sender_address (config asker)) local Hb size (m_frags w) used entropy) as (prepared & Ep & Harr);
    [done|done|done|done|by apply Forall_take|done|].
  destruct (reply_chunks_sent answerer Hb (m_frags w) used entropy lane target prepared Ep) as (acks & packets & Esend & Hacks & Hpackets).
  { rewrite <- (Forall2_length _ _ _ Harr), length_zip_with. lia. }
  { intros E. destruct Hsent as (M1 & M2 & _). pose proof (m_done_nil w (conj M1 (conj Hdup M2))) as Hn. unfold m_done in Hn. by rewrite E in Hn. }
  exists acks, packets. split; [done|]. intros use_legacy sent Hp. set (pairs := zip (m_frags w) used) in *.
  assert (pairs.*1 = m_frags w) as Efst by (apply fst_zip; lia). assert (pairs.*2 = used) as Esnd by (apply snd_zip; lia).
  assert (Forall2 (fun p af => arrives network (sender_address (config answerer)) (sender_address (config asker)) (ack_key (config answerer)) local
    af.1 af.2 (real_mix_packet p)) packets (reply_arrival <$> pairs)) as Hpf.
  { rewrite Forall2_fmap_r. apply Forall2_flip. clear -Harr Hpackets. revert packets Hpackets.
    induction Harr as [|fs p pairs prepared Hf _ IH]; intros [|q packets] Hq; try done.
    injection Hq as Eq Hq. constructor; [|by apply IH]. simpl. by rewrite Eq. }
  destruct (Forall2_perm_l _ _ _ _ Hp Hpf) as (fs & Hfs & Hsf).
  destruct (all_travel network answerer (sender_address (config asker)) local use_legacy sent fs Hsf)
    as [(hops & E1 & D1 & M1 & returned & E2 & D2 & actions & E3 & A3)].
  destruct (reply_arrivals local (SentReplyKeys.insert_multiple keys now surb_entropy.*2) pairs) with (fs := fs) as (R1 & R2 & R3 & R4); [| |done|].
  { rewrite Esnd. rewrite <- Ek, <- (take_drop (length (m_frags w)) surbs), !fmap_app in Hdig. by apply NoDup_app in Hdig as (? & _). }
  { intros k Hk. exists now. apply insert_multiple_lookup; [done|]. rewrite <- Ek. revert Hk. rewrite Esnd. unfold used. rewrite fmap_take.
    apply subseteq_take. }
  rewrite Efst in *.
  exists hops, returned, actions. split_and!; try done.
  - rewrite M1. by apply (buffer_delivers w m).
  - intros c Hc. apply (acknowledged c fs.*2); [done..|]. rewrite Hacks. intros f. apply R4.
Qed.

End Replying.
