(* ===== verification/SampleNetwork.v ===== *)
(** * A network to try it on

    Simple functions for the parameters of the model that satisfy the laws, a
    small topology with its nodes, two clients, and runs of the theorems on
    them.  Nothing here models code: it shows that what the theorems assume can
    hold together. *)

From Stdlib.Strings Require Import Byte.
From stdpp Require Import gmap list.
From S2P Require Import Prelude Bytes Float64 Fragments FragmentSets Reconstruction Addressing Outfox OutfoxFacts PacketSizes NymPackets Topology Processing PacketFacts Transport Replies NymMessages MessageFacts ReplyStorage ReceivedBuffer ReceivedFacts AckControl MessageSending MessageDelivery ReplyDelivery.
#[local] Open Scope Z_scope.

Module Sample.
Import SampleCrypto.

(** ** Packets in the clear

    A byte with the number of addresses, room for five addresses, the destination, and the payload. *)

#[export] Instance sizes : SphinxSizes := {| HEADER_SIZE := 348; PAYLOAD_OVERHEAD_SIZE := 17; PAYLOAD_KEY_SIZE := 192 |}.

Definition sample_packet (addresses : list (list byte)) (destination payload : list byte) : list byte :=
  byte_of_Z (len addresses) :: fit 160 (concat addresses) ++ fit 187 destination ++ payload.

Definition pad_payload (size : Z) (message : list byte) : list byte :=
  message ++ [x01] ++ replicate (Z.to_nat (size - len message - 1)) x00.

Definition process_sample (p : list byte) : outcome unit (ProcessedPacket (list byte) (list byte)) :=
  match p with
  | [] => Err tt
  | n :: p =>
      if byte_to_Z n =? 0 then Ok (SphinxFinalHop (take 32 (drop 160 p)) [] (drop 347 p))
      else Ok (SphinxForwardHop (byte_of_Z (byte_to_Z n - 1) :: fit 160 (take 128 (drop 32 p)) ++ drop 160 p) (take 32 p) 0)
  end.

Definition build_sample (size : Z) (message : list byte) (route : list Node) (destination : Destination) : outcome unit (list byte) :=
  if len message + PAYLOAD_OVERHEAD_SIZE <=? size
  then Ok (sample_packet (node_address <$> tail route) (destination_address destination) (pad_payload size message))
  else Err tt.

#[export] Instance sphinx : SphinxApi := {|
  SphinxPacket := list byte; SphinxPayload := list byte; SphinxError := unit;
  sphinx_build_packet _ size message route destination _ := build_sample size message route destination;
  sphinx_packet_from_bytes b := Ok b;
  sphinx_packet_to_bytes p := p;
  sphinx_packet_len p := len p;
  sphinx_packet_process p _ := process_sample p;
  sphinx_recover_plaintext p := match PaddedMessage.rposition p with Some n => Ok (take n p) | None => Err tt end
|}.

Lemma fit_short n b : (length b <= n)%nat -> fit n b = b ++ replicate (n - length b) x00.
Proof. intros Hb. unfold fit. rewrite take_app, take_ge, take_replicate by lia. f_equal. f_equal. lia. Qed.

Lemma length_concat_32 (l : list (list byte)) : Forall (fun a => len a = 32) l -> length (concat l) = (32 * length l)%nat.
Proof. induction 1 as [|a l Ha _ IH]; [done|]. simpl. rewrite length_app, IH. unfold len in Ha. lia. Qed.

Lemma process_forward a addresses destination payload :
  Forall (fun a => len a = 32) (a :: addresses) -> (length addresses < 5)%nat -> 
  process_sample (sample_packet (a :: addresses) destination payload) = Ok (SphinxForwardHop (sample_packet addresses destination payload) a 0).
Proof.
  intros [Ha Hall]%Forall_cons Hl. pose proof (length_concat_32 _ Hall) as Hc. unfold len in Ha. unfold process_sample, sample_packet.
  autorewrite with len. pose proof (len_nonneg addresses). rewrite byte_to_of_Z, Z.mod_small by (unfold len; lia).
  destruct (Z.eqb_spec (1 + len addresses) 0); [lia|]. cbn [concat].
  assert (length (concat addresses) <= 128)%nat by lia. generalize (fit 187 destination ++ payload). intros rest.
  rewrite (fit_short 160 (a ++ concat addresses)), length_app by (rewrite length_app; lia). set (X := concat addresses) in *.
  set (Z := replicate (160 - (length a + length X)) x00). assert (length Z = (128 - length X)%nat) as HZ by (unfold Z; rewrite length_replicate; lia).
  rewrite <- (app_assoc a X Z).
  assert (drop 32 ((a ++ X ++ Z) ++ rest) = (X ++ Z) ++ rest) as -> by (rewrite <- app_assoc; apply drop_app_length'; lia).
  assert (take 32 ((a ++ X ++ Z) ++ rest) = a) as -> by (rewrite <- app_assoc; apply take_app_length'; lia).
  rewrite drop_app_length' by (rewrite !length_app; lia). rewrite take_app_length' by (rewrite length_app; lia).
  rewrite !fit_short by (rewrite ?length_app; lia). do 2 f_equal.
  replace (1 + len addresses - 1) with (len addresses) by lia. f_equal. f_equal.
  rewrite <- app_assoc. f_equal. unfold Z. rewrite <- replicate_add. f_equal. rewrite length_app, length_replicate. lia.
Qed.

Lemma process_final destination payload :
  len destination = 32 -> process_sample (sample_packet [] destination payload) = Ok (SphinxFinalHop destination [] payload).
Proof.
  intros Hd. unfold len in Hd. unfold process_sample, sample_packet. cbn [concat].
  change (byte_to_Z (byte_of_Z (len [])) =? 0) with true. cbn [app]. 
  rewrite drop_app_length' by (by rewrite length_fit). rewrite app_assoc, (drop_app_length' (fit 160 [] ++ _)) by (by rewrite length_app, !length_fit).
  rewrite (fit_short 187) by lia. rewrite <- app_assoc, take_app_length' by lia. done.
Qed.

Lemma recover_pad_payload size message : sphinx_recover_plaintext (pad_payload size message) = Ok message.
Proof.
  simpl. unfold pad_payload. rewrite rposition_app. cbn [app PaddedMessage.rposition]. rewrite rposition_zeros, bool_decide_eq_true_2 by done.
  by rewrite Nat.add_0_r, take_app_length.
Qed.

Lemma len_sample addresses destination size message :
  len message + PAYLOAD_OVERHEAD_SIZE <= size -> len (sample_packet addresses destination (pad_payload size message)) = HEADER_SIZE + size.
Proof.
  intros Hs. simpl in Hs |- *. unfold sample_packet, pad_payload. autorewrite with len. unfold len at 1 2. rewrite !length_fit, len_zeros.
  lia.
Qed.

Lemma sample_carries size destination message addresses keys :
  len message + PAYLOAD_OVERHEAD_SIZE <= size -> (length addresses < 5)%nat -> length keys = S (length addresses) -> len destination = 32 ->
  Forall (fun a => len a = 32) addresses ->
  sphinx_carries size destination message (sample_packet addresses destination (pad_payload size message)) keys addresses.
Proof.
  intros Hm. revert keys. induction addresses as [|a addresses IH]; intros keys Hl Hk Hd Ha; destruct keys as [|k keys]; try done.
  - destruct keys; [|done]. eapply sphinx_carries_final; [by apply len_sample|by apply len_sample|done|by apply process_final|apply recover_pad_payload].
  - simpl in Hl, Hk. eapply (sphinx_carries_forward _ _ _ _ _ _ _ _ _ 0); [by apply len_sample|by apply len_sample|done|apply process_forward; [done|lia]|].
    apply Forall_cons in Ha as [_ Ha]. apply IH; [lia|lia|done|done].
Qed.

#[export] Instance sphinx_laws : SphinxLaws.
Proof.
  split. intros entropy size message route keys destination delays Hm Hl _ Hd Ha Hk. simpl. unfold build_sample.
  rewrite (proj2 (Z.leb_le _ _) Hm). eexists. split; [done|]. apply Forall2_length in Hk. destruct route as [|n route]; [simpl in Hl; lia|].
  apply Forall_cons in Ha as [_ Ha]. simpl in *. apply sample_carries; [done|rewrite length_fmap; lia|by rewrite length_fmap|done|].
  by apply Forall_fmap.
Qed.

#[export] Instance distinct_sizes : DistinctSizes.
Proof. split; vm_compute; split_and?; done. Qed.

(** ** Reply blocks: the addresses and the destination *)

Definition surb_size (route : list Node) : nat := Z.to_nat (HEADER_SIZE + NODE_ADDRESS_LENGTH + len route * PAYLOAD_KEY_SIZE).

(** The number of addresses, the addresses with the first one in front, the destination. *)
Definition sample_surb (route : list Node) (destination : Destination) : list byte :=
  fit (surb_size route)
    (byte_of_Z (len route) :: fit 160 (concat (node_address <$> route)) ++ fit 32 (destination_address destination)).

Fixpoint chunks (n : nat) (b : list byte) : list (list byte) :=
  match n with O => [] | S n => take 32 b :: chunks n (drop 32 b) end.

Definition use_sample_surb (s message : list byte) (size : Z) : outcome unit (list byte * list byte) :=
  match s with
  | [] => Err tt
  | n :: s =>
      match chunks (Z.to_nat (byte_to_Z n)) s with
      | first :: rest =>
          if len message + PAYLOAD_OVERHEAD_SIZE <=? size
          then Ok (sample_packet rest (take 32 (drop 160 s)) (pad_payload size message), first)
          else Err tt
      | [] => Err tt
      end
  end.

#[export] Instance surbs : SurbApi := {|
  SURB := list byte;
  construct_SURB _ route _ destination := Ok (sample_surb route destination);
  surb_to_bytes s := s;
  surb_from_bytes b := Ok b;
  use_surb := use_sample_surb;
  key_digest k := fit 32 k
|}.

#[export] Instance surb_laws : SurbLaws.
Proof.
  split.
  - intros entropy route delays destination s [= <-]. split; [done|]. simpl. unfold sample_surb, len at 1. rewrite length_fit.
    unfold surb_size. pose proof (len_nonneg route). rewrite Z2Nat.id; [done|]. simpl. unfold NODE_ADDRESS_LENGTH. lia.
  - intros k. unfold len. simpl. by rewrite length_fit.
Qed.

Lemma chunks_concat (l : list (list byte)) rest : Forall (fun a => len a = 32) l -> chunks (length l) (concat l ++ rest) = l.
Proof.
  induction 1 as [|a l Ha _ IH]; [done|]. unfold len in Ha. simpl. rewrite <- app_assoc, take_app_length', drop_app_length' by lia. by rewrite IH.
Qed.

#[export] Instance surb_carries : SurbCarries.
Proof.
  split. intros entropy route keys destination delays Hl _ Hd Ha Hk. eexists. split; [done|]. intros message size Hm.
  set (addresses := node_address <$> route). assert (length addresses = length route) as Hlen by (unfold addresses; apply length_fmap).
  assert (Forall (fun a => len a = 32) addresses) as Haddr by (by apply Forall_fmap). pose proof (length_concat_32 _ Haddr) as Hc.
  assert (sample_surb route destination = byte_of_Z (len route) :: fit 160 (concat addresses) ++ destination_address destination
    ++ replicate (surb_size route - 193) x00) as Es.
  { unfold sample_surb. fold addresses. unfold len in Hd. rewrite (fit_short 32) by lia. rewrite fit_short.
    - simpl. f_equal. rewrite <- !app_assoc. f_equal. f_equal.
      rewrite !length_app, length_fit, length_replicate. replace (32 - length (destination_address destination))%nat with O by lia. simpl. f_equal. lia.
    - simpl. rewrite !length_app, length_fit, length_replicate. unfold surb_size, NODE_ADDRESS_LENGTH. simpl. pose proof (len_nonneg route). lia. }
  unfold len in Hd. apply Forall2_length in Hk. simpl use_surb. unfold use_sample_surb. rewrite Es, byte_to_of_Z, Z.mod_small by (unfold len; lia).
  rewrite (fit_short 160) by lia. rewrite <- app_assoc. unfold len at 1. rewrite Nat2Z.id, <- Hlen, chunks_concat by done.
  rewrite app_assoc, drop_app_length' by (rewrite length_app, length_replicate; lia). rewrite take_app_length' by lia.
  destruct route as [|n route]; [simpl in Hl; lia|]. unfold addresses in *. simpl in *. rewrite (proj2 (Z.leb_le _ _) Hm).
  eexists _, _. split; [done|]. split; [done|]. apply Forall_cons in Haddr as [_ Haddr].
  apply sample_carries; [done|rewrite length_fmap; lia|by rewrite length_fmap|done|done].
Qed.

(** ** Keys, ciphers, queues *)

#[export] Instance keys : KeyApi := {| ed25519_valid _ := true; base58_encode b := b; base58_decode b := Some b |}.

#[export] Instance versions : TopologyApi := {|
  Semver := unit; semver_parse _ := Some tt; semver_to_string _ := Stdlib.Strings.String.EmptyString; semver_major _ := 1; semver_minor _ := 1;
  resolve_host _ _ := None
|}.

#[export] Instance cipher : StreamCipher := {| cipher_keystream k _ n := replicate n (default x00 (head k)) |}.

#[export] Instance cipher_laws : StreamCipherLaws.
Proof. split. intros. apply length_replicate. Qed.

#[export] Instance packet_crypto : PacketCrypto := {|
  x25519_public s := fit 32 s; diffie_hellman_secret s p := xor_bytes (fit 32 s) (fit 32 p); hkdf k := fit 16 k
|}.

#[export] Instance packet_crypto_laws : PacketCryptoLaws.
Proof. split; [intros s; unfold len; simpl; by rewrite length_fit|]. intros a b. simpl. rewrite !fit_fit. apply xor_bytes_comm. Qed.

#[export] Instance queue : DelayQueue := {|
  Queue := gmap nat FragmentIdentifier.t;
  queue_new := ∅;
  queue_insert q v _ := let k := fresh (dom q) in (k, <[k := v]> q);
  queue_remove q k := match q !! k with Some _ => Some (delete k q) | None => None end;
  queue_expire q k := match q !! k with Some v => Some (v, delete k q) | None => None end;
  queued q := q
|}.

#[export] Instance queue_laws : DelayQueueLaws.
Proof.
  split.
  - done.
  - intros q v timeout. simpl. split; [apply not_elem_of_dom, is_fresh|done].
  - change (forall (q : gmap nat FragmentIdentifier.t) k, match match q !! k with Some _ => Some (delete k q) | None => None end with
      Some q' => is_Some (q !! k) /\ q' = delete k q | None => q !! k = None end). intros q k. destruct (q !! k) eqn:E; [|done]. split; [eauto|done].
  - change (forall (q : gmap nat FragmentIdentifier.t) k, match match q !! k with Some v => Some (v, delete k q) | None => None end with
      Some (v, q') => q !! k = Some v /\ q' = delete k q | None => q !! k = None end). intros q k. simpl. destruct (q !! k) eqn:E; [|done]. done.
Qed.

(** ** Three mixnodes, a gateway and two clients *)

Definition host (n : Z) : SocketAddr := SocketAddrV4 [x0a; x00; x00; byte_of_Z n] 1789.

Definition name : Stdlib.Strings.String.string := Stdlib.Strings.String.EmptyString.

Definition mix (n : Z) (layer : MixnetTypes.Layer) : MixNodeInfo :=
  mkMixNodeInfo n name (Hostname name) (host n) (key (100 + n)) (public_of (key n)) layer Unknown.

Definition gateway : GatewayInfo := mkGatewayInfo name (Hostname name) (host 4) 9000 None (key 104) (public_of (key 4)) Unknown.

Definition topology : NymTopology.t :=
  NymTopology.new {[ 1 := [mix 1 MixnetTypes.One]; 2 := [mix 2 MixnetTypes.Two]; 3 := [mix 3 MixnetTypes.Three] ]} [gateway].

#[export] Instance SocketAddr_eq_dec : EqDecision SocketAddr.
Proof. solve_decision. Defined.

Definition network (a : SocketAddr) : option (list byte) :=
  if bool_decide (a = host 1) then Some (key 1)
  else if bool_decide (a = host 2) then Some (key 2)
  else if bool_decide (a = host 3) then Some (key 3)
  else if bool_decide (a = host 4) then Some (key 4) else None.

Lemma mix_cases layer nodes n :
  NymTopology.mixes topology !! layer = Some nodes -> n ∈ nodes -> exists i l, 1 <= i <= 3 /\ n = mix i l.
Proof.
  cbn [NymTopology.mixes topology]. intros El Hn.
  apply lookup_insert_Some in El as [[<- <-]|[_ El]]; [apply list_elem_of_singleton in Hn as ->; by exists 1, MixnetTypes.One|].
  apply lookup_insert_Some in El as [[<- <-]|[_ El]]; [apply list_elem_of_singleton in Hn as ->; by exists 2, MixnetTypes.Two|].
  apply lookup_singleton_Some in El as [<- <-]. apply list_elem_of_singleton in Hn as ->. by exists 3, MixnetTypes.Three.
Qed.

Lemma small_cases i : 1 <= i <= 3 -> i = 1 \/ i = 2 \/ i = 3.
Proof. lia. Qed.

Lemma sample_topology_ok : topology_ok topology.
Proof.
  split.
  - intros layer nodes El. apply Forall_forall. intros n Hn. destruct (mix_cases layer nodes n El Hn) as (i & l & Hi & ->).
    split; [split; [simpl; lia|done]|]. apply len_public_of.
  - repeat constructor; done.
Qed.

Lemma sample_network_ok : network_ok topology network.
Proof.
  split.
  - apply sample_topology_ok.
  - by vm_compute.
  - intros layer nodes n El Hn. destruct (mix_cases layer nodes n El Hn) as (i & l & Hi & ->).
    exists (key i). split; [|done]. by destruct (small_cases i Hi) as [->|[->| ->]].
  - intros g ->%list_elem_of_singleton. by exists (key 4).
Qed.

Definition client (n : Z) : Recipient.t := Recipient.mk (key n) (x25519_public (key n)) (key 104).

Lemma sample_client n : client_of topology (client n).
Proof. split; [by split_and!|]. by eexists. Qed.

Definition handler (n : Z) : MessageHandler.t :=
  MessageHandler.mk (MessageHandler.mkConfig (fit 16 (key n)) (client n) 0 0 DEFAULT_NUM_MIX_HOPS PacketSize.RegularPacket None) (Some topology)
    ∅ ∅ [] [].

Lemma sample_handler_ok n : handler_ok PacketType.Mix topology (handler n).
Proof.
  split; [done|apply sample_client|done|]. intros size ->%list_elem_of_singleton _. done.
Qed.

Definition entropy : ChunkEntropy :=
  mkEntropy (fun _ => O) (fun n => replicate n 0) (replicate 16 x07) (key 7) (key 8) (fun _ => O) (fun n => replicate n 0) (key 9).

Lemma sample_entropy_ok : entropy_ok entropy.
Proof. split; try done; intros n; apply length_replicate. Qed.

Definition hello : list byte := [x68; x65; x6c; x6c; x6f].

Definition surb_entropy : list ((Z -> nat) * (nat -> list Z) * list byte * list byte) :=
  [(fun _ => O, fun n => replicate n 0, key 1, fit 16 [x21]); (fun _ => O, fun n => replicate n 0, key 1, fit 16 [x22])].

Lemma sample_surbs : Forall surb_entropy_ok surb_entropy.
Proof. repeat constructor; intros n; apply length_replicate. Qed.

Lemma sample_rng : Forall is_i32 [5].
Proof. constructor; [unfold is_i32, i32_min, i32_max; lia|constructor]. Qed.

Lemma sample_ids m size :
  m ∈ [NymMessage.Plain hello; NymMessage.Reply (ReplyMessage.Data hello)] -> size = PacketSize.RegularPacket -> distinct_ids [5] m size.
Proof.
  intros Hm -> a Ea. exists [5], [].
  split; [apply NoDup_singleton|].
  rewrite !elem_of_cons, elem_of_nil in Hm. destruct Hm as [->|[->|[]]]; vm_compute in Ea; injection Ea as <-; by vm_compute.
Qed.

End Sample.

(** ** Runs *)

Section Runs.
Import SampleCrypto Sample.

(** The first client sends a greeting to the second one, which gets it. *)
Lemma message_is_delivered_and_acknowledged_witness :
  exists acks packets hops b,
    MessageHandler.try_split_and_send_non_reply_message (handler 11) [5] (fun _ => entropy) (NymMessage.Plain hello) (client 12)
      LaneGeneral PacketType.Mix None
    = Ok (MessageHandler.forward_messages (MessageHandler.insert_pending_acks (handler 11) acks) packets LaneGeneral)
    /\ mapM_outcome (fun p => deliver 3 network (fun _ => false) (MessageHandler.real_mix_packet p)) packets = Ok hops
    /\ ReceivedMessagesBuffer.handle_new_received ∅ (ReceivedMessagesBuffer.new (key 12) ∅) (SphinxPacketProcessor.message <$> hops) = Ok b
    /\ kept b = [mkReconstructed hello None].
Proof.
  destruct (message_is_delivered_and_acknowledged PacketType.Mix topology network sample_network_ok (handler 11) [5] (fun _ => entropy)
    (NymMessage.Plain hello) (client 12) (key 12) LaneGeneral ∅) as (acks & packets & E & Hrest).
  - apply sample_handler_ok.
  - apply sample_client.
  - reflexivity.
  - exact I.
  - reflexivity.
  - apply sample_rng.
  - intros size [= <-]. apply sample_ids; [by constructor|done].
  - intros _. split; [apply sample_entropy_ok|done].
  - destruct (Hrest (fun _ => false) packets ltac:(done)) as (hops & _ & _ & D & _ & (b & Eb & Hb) & _).
    exists acks, packets, hops, b. exact (conj E (conj D (conj Eb Hb))).
Defined.

(** The second client answers with two reply blocks. *)
Lemma reply_is_delivered_witness :
  exists surbs fragments, MessageHandler.generate_reply_surbs_with_keys (handler 11) surb_entropy = Ok (surbs, surb_entropy.*2)
    /\ MessageHandler.split_reply_message (E := unit) (handler 12) [5] hello = Ok fragments /\ (length fragments <= 2)%nat
    /\ exists acks packets hops b,
         MessageHandler.try_send_reply_chunks_on_lane (handler 12) (fun _ => entropy) (key 20) fragments (take (length fragments) surbs) LaneGeneral
         = Ok (MessageHandler.insert_pending_acks (MessageHandler.forward_messages (handler 12) packets LaneGeneral) acks)
         /\ mapM_outcome (fun p => deliver 3 network (fun _ => false) (MessageHandler.real_mix_packet p)) packets = Ok hops
         /\ ReceivedMessagesBuffer.handle_new_received ∅
              (ReceivedMessagesBuffer.new (key 11) (SentReplyKeys.insert_multiple ∅ 0 surb_entropy.*2)) (SphinxPacketProcessor.message <$> hops) = Ok b
         /\ kept b = [mkReconstructed hello None].
Proof.
  destruct (reply_is_delivered topology network sample_network_ok (handler 11) (handler 12) surb_entropy 0 ∅ [5] (fun _ => entropy) hello (key 20)
    LaneGeneral (key 11)) as (surbs & fragments & E1 & Hs & _ & E2 & Hrest).
  - apply sample_handler_ok.
  - apply sample_handler_ok.
  - apply sample_surbs.
  - vm_compute. apply NoDup_cons. split; [|apply NoDup_singleton]. by intros ?%list_elem_of_singleton.
  - discriminate.
  - reflexivity.
  - apply sample_rng.
  - intros size [= <-]. apply sample_ids; [by repeat constructor|done].
  - intros _. apply sample_entropy_ok.
  - assert (length fragments = 1%nat) as Hl by (vm_compute in E2; by injection E2 as <-).
    change (length surbs = 2%nat) in Hs.
    exists surbs, fragments. split; [exact E1|]. split; [exact E2|]. split; [lia|].
    destruct Hrest as (acks & packets & E & Hrest); [lia|].
    destruct (Hrest (fun _ => false) packets ltac:(reflexivity)) as (hops & _ & _ & D & _ & (b & Eb & Hb) & _).
    exists acks, packets, hops, b. exact (conj E (conj D (conj Eb Hb))).
Defined.

(** The key of the recipient, and a reply whose key is used up. *)
Definition own_key : list byte := x01 :: replicate 31 x00.
Definition used_up : arrival :=
  Repeated (x02 :: replicate 31 x00) (Fragment.mk (FragmentHeader.mk 5 1 1 None None) hello).


Definition pending : PendingAcknowledgement.t :=
  PendingAcknowledgement.new_known (Fragment.mk (FragmentHeader.mk 5 1 1 None None) hello) 10 (client 12) None.


Lemma stale_timer_panics_witness :
  exists k, ActionController.turns (E := unit) (ActionController.new (fun d => d))
    [ActionController.Perform (InsertPending [pending]); ActionController.Perform (StartTimer (PendingAcknowledgement.inner_fragment_identifier pending));
     ActionController.Perform (InsertPending [pending]); ActionController.Expire k] = Panic ExplicitPanic.
Proof. exact (proj2 (AckFacts.stale_timer_panics (fun d => d) pending)). Defined.

End Runs.
