(* ===== verification/CoconutTypes.v ===== *)
(** * Data of the Coconut credentials

    The types of [src/common/nymcoconut/src], for any types of scalars and of
    points of the two groups.  [CoconutScheme] and [CoconutFacts] take a field
    and its modules for them, [CoconutCodecs] takes types with byte encodings. *)

From Stdlib Require Import String NArith ZArith List.

Set Implicit Arguments.

(** [CoconutError], [error.rs].  The messages are the fixed parts of the texts
    of the source; a variant that no modelled function returns is left out. *)
Inductive CoconutError : Type :=
| Setup (message : string)
| Issuance (message : string)
| IssuanceMaxAttributes (max requested : Z)
| Interpolation (message : string)
| Aggregation (message : string)
| Unblind (message : string)
| Verification (message : string)
| Deserialization (message : string)
| DeserializationMinLength (min actual : Z)
| DeserializationInvalidLength (actual target modulus_target modulus : Z) (object : string)
| UnexpectedArrayLength (typ : string) (received expected : Z)
| ScalarDeserializationFailure
| G1ProjectiveDeserializationFailure.

(** [SignerIndex], a [u64]: the point of the polynomials that belongs to a signer. *)
Definition SignerIndex : Type := N.

Section Data.
Variables Scalar G1 G2 : Type.

(** [Parameters], [setup.rs], without the prepared copy of [g2]. *)
Record Parameters : Type := MkParameters {
  gen1 : G1;
  gen_hs : list G1;
  gen2 : G2;
}.

(** [Polynomial], [utils.rs]. *)
Record Polynomial : Type := MkPolynomial { coefficients : list Scalar }.

(** [SecretKey], [keygen.rs]. *)
Record SecretKey : Type := MkSecretKey {
  sk_x : Scalar;
  sk_ys : list Scalar;
}.

(** [VerificationKey], [keygen.rs]. *)
Record VerificationKey : Type := MkVerificationKey {
  alpha : G2;
  beta_g1 : list G1;
  beta_g2 : list G2;
}.

(** [KeyPair], [keygen.rs]. *)
Record KeyPair : Type := MkKeyPair {
  secret_key : SecretKey;
  verification_key : VerificationKey;
  kp_index : option SignerIndex;
}.

(** [ProofCmCs], [proofs/mod.rs]. *)
Record ProofCmCs : Type := MkProofCmCs {
  cs_challenge : Scalar;
  response_opening : Scalar;
  response_openings : list Scalar;
  response_attributes : list Scalar;
}.

(** [ProofKappaZeta], [proofs/mod.rs]. *)
Record ProofKappaZeta : Type := MkProofKappaZeta {
  kz_challenge : Scalar;
  response_serial_number : Scalar;
  response_binding_number : Scalar;
  response_blinder : Scalar;
}.

(** [Signature] and [BlindedSignature], [scheme/mod.rs]. *)
Record Signature : Type := MkSignature { sig1 : G1; sig2 : G1 }.
Record BlindedSignature : Type := MkBlindedSignature { bs_h : G1; bs_c : G1 }.

(** [SignatureShare], [scheme/mod.rs]. *)
Record SignatureShare : Type := MkSignatureShare {
  share_signature : Signature;
  share_index : SignerIndex;
}.

(** [BlindSignRequest], [issuance.rs]. *)
Record BlindSignRequest : Type := MkBlindSignRequest {
  commitment : G1;
  commitment_hash : G1;
  private_attributes_commitments : list G1;
  pi_s : ProofCmCs;
}.

(** [VerifyCredentialRequest], [verification.rs]; [BlindedSerialNumber],
    [double_use.rs], wraps a point of the second group. *)
Record VerifyCredentialRequest : Type := MkVerifyCredentialRequest {
  blinded_message : G2;
  blinded_serial_number : G2;
  credential : Signature;
  pi_v : ProofKappaZeta;
}.

(** The ElGamal keys and ciphertexts of [elgamal.rs]. *)
Record Ciphertext : Type := MkCiphertext { c1 : G1; c2 : G1 }.
Record ElGamalKeyPair : Type := MkElGamalKeyPair { private_key : Scalar; public_key : G1 }.

End Data.
