(* ===== verification/CoconutScheme.v ===== *)
(** * Coconut credentials

    The threshold issuance of credentials, [src/common/nymcoconut/src]: the
    polynomials and their interpolation ([utils.rs]), keys ([keygen.rs]), the
    proofs of knowledge ([proofs/mod.rs]), issuance ([issuance.rs]),
    aggregation ([aggregation.rs]) and the showing of a credential
    ([verification.rs]), with the ElGamal encryption ([elgamal.rs]).

    Scalars form a field, the points of the two groups modules over it, written
    additively as in the crate [bls12_381]; the curves, the pairing and the
    hash functions are the class [Bls], their laws [BlsLaws].  The conversion
    between projective and affine points changes the representation only and is
    absent here, as is the preparation of a point for the pairing.  A scalar
    that the code draws at random is an argument; [n] of them are the first
    [n] values of a stream. *)

From Stdlib Require Import NArith ZArith.
From Stdlib.Strings Require Import String Byte.
From Stdlib.Numbers Require Import DecimalString.
Set Warnings "-notation-overridden,-ambiguous-paths".
From mathcomp Require Import boot ssralg poly.
Set Warnings "notation-overridden,ambiguous-paths".
From S2P Require Import CoconutTypes.

Set Implicit Arguments.
Unset Strict Implicit.
Unset Printing Implicit Defensive.

Import GRing.Theory.
Local Open Scope ring_scope.

(** ** Results *)

(** [Result<A, CoconutError>] of code that may also panic. *)
Inductive result (A : Type) : Type :=
| Ok (a : A)
| Err (e : CoconutError)
| Panic.
Arguments Ok {A} a.
Arguments Err {A} e.
Arguments Panic {A}.

Definition rbind (A B : Type) (m : result A) (k : A -> result B) : result B :=
  match m with Ok a => k a | Err e => Err e | Panic => Panic end.

Declare Scope coconut_scope.
Local Open Scope coconut_scope.
Notation "'let?' x ':=' m 'in' k" := (rbind m (fun x => k))
  (at level 10, x pattern, m at level 100, k at level 200) : coconut_scope.

(** [Result::unwrap]. *)
Definition unwrap (A : Type) (m : result A) : result A :=
  match m with Err _ => Panic | _ => m end.

(** Collecting an iterator of fallible or panicking steps. *)
Fixpoint mapM (A B : Type) (f : A -> result B) (s : seq A) : result (seq B) :=
  match s with
  | [::] => Ok [::]
  | x :: s' => let? y := f x in let? ys := mapM f s' in Ok (y :: ys)
  end.

(** [Iterator::enumerate]. *)
Definition enumerate (A : Type) (s : seq A) : seq (nat * A) := zip (iota 0 (size s)) s.

(** [Iterator::sum] over scalars or points. *)
Definition sum (V : nmodType) (s : seq V) : V := foldl (fun acc v => acc + v) 0 s.

(** [Itertools::all_equal]. *)
Definition all_equal (s : seq nat) : bool :=
  match s with [::] => true | x :: s' => all (eq_op x) s' end.

(** ** The curves *)

Section Scheme.
Context {F : fieldType} {G1 G2 : lmodType F} {GT : zmodType}.

(** What the code uses of the crates [bls12_381], [ff] and [sha2]. *)
Class Bls : Type := {
  scalar_from : N -> F;
  generator1 : G1;
  generator2 : G2;
  pairing_product : seq (G1 * G2) -> GT;
  scalar_bytes : F -> seq byte;
  g1_bytes : G1 -> seq byte;
  g2_bytes : G2 -> seq byte;
  hash_to_curve : seq byte -> string -> G1;
  hash_to_field : seq byte -> string -> F;
  sha256 : seq byte -> seq byte;
  scalar_from_bytes_wide : seq byte -> F;
}.

(** The pairing [multi_miller_loop(..).final_exponentiation()] is the sum of
    the pairings of the terms, bilinear and not degenerate; the order of the
    groups exceeds 64 bits. *)
Class BlsLaws (bls : Bls) : Type := {
  pairing : G1 -> G2 -> GT;
  pairing_productE : forall ts, pairing_product ts = \sum_(t <- ts) pairing t.1 t.2;
  pairingDl : forall p p' q, pairing (p + p') q = pairing p q + pairing p' q;
  pairingDr : forall p q q', pairing p (q + q') = pairing p q + pairing p q';
  pairingZ : forall a p q, pairing (a *: p) q = pairing p (a *: q);
  pairing_nondegenerate : forall p, pairing p generator2 = 0 -> p = 0;
  scalar_from_inj : forall m n, (m < 2 ^ 64)%num -> (n < 2 ^ 64)%num ->
    scalar_from m = scalar_from n -> m = n;
}.

Context {bls : Bls}.

#[local] Abbreviation Parameters := (Parameters G1 G2).
#[local] Abbreviation Polynomial := (Polynomial F).
#[local] Abbreviation SecretKey := (SecretKey F).
#[local] Abbreviation VerificationKey := (VerificationKey G1 G2).
#[local] Abbreviation KeyPair := (KeyPair F G1 G2).
#[local] Abbreviation Signature := (Signature G1).
#[local] Abbreviation BlindedSignature := (BlindedSignature G1).
#[local] Abbreviation SignatureShare := (SignatureShare G1).
#[local] Abbreviation BlindSignRequest := (BlindSignRequest F G1).
#[local] Abbreviation VerifyCredentialRequest := (VerifyCredentialRequest F G1 G2).
#[local] Abbreviation ProofCmCs := (ProofCmCs F).
#[local] Abbreviation ProofKappaZeta := (ProofKappaZeta F).

(** [Attribute]. *)
#[local] Abbreviation Attribute := F.

(** ** [utils.rs], [setup.rs] *)

Definition G1_HASH_DOMAIN : string := "QUUX-V01-CS02-with-BLS12381G1_XMD:SHA-256_SSWU_RO_".
Definition SCALAR_HASH_DOMAIN : string := "QUUX-V01-CS02-with-expander".

Definition hash_g1 (msg : seq byte) : G1 := hash_to_curve msg G1_HASH_DOMAIN.

Definition hash_to_scalar (msg : seq byte) : F := hash_to_field msg SCALAR_HASH_DOMAIN.

(** The text [h{i}]. *)
Definition generator_label (i : nat) : seq byte :=
  list_byte_of_string (String.append "h" (NilZero.string_of_uint (N.to_uint (N.of_nat i)))).

(** [Parameters::new], and [setup]. *)
Definition setup (num_attributes : N) : result Parameters :=
  if (num_attributes =? 0)%num
  then Err (Setup "Tried to setup the scheme for 0 attributes")
  else Ok {| gen1 := generator1;
             gen_hs := [seq hash_g1 (generator_label i) | i <- iota 1 (N.to_nat num_attributes)];
             gen2 := generator2 |}.

(** [Parameters::n_random_scalars]. *)
Definition n_random_scalars (rng : nat -> F) (n : nat) : seq F := [seq rng i | i <- iota 0 n].

(** [Polynomial::new_random]. *)
Definition new_random (rng : nat -> F) (degree : N) : Polynomial :=
  {| coefficients := n_random_scalars rng (N.to_nat (degree + 1)) |}.

(** [Polynomial::evaluate]. *)
Definition evaluate (p : Polynomial) (x : F) : F :=
  match coefficients p with
  | [::] => 0
  | first :: _ =>
      if x == 0 then first
      else sum [seq ic.2 * x ^+ ic.1 | ic <- enumerate (coefficients p)]
  end.

(** The coefficient of [point_i], the body of the [map] in
    [generate_lagrangian_coefficients_at_origin]. *)
Definition lagrangian_coefficient (points : seq N) (i : nat) (point_i : N) : result F :=
  let xi := scalar_from point_i in
  let nd := foldl (fun nd jp =>
    if jp.1 != i
    then (nd.1 * (0 - scalar_from jp.2), nd.2 * (xi - scalar_from jp.2))
    else nd) (1, 1) (enumerate points) in
  if nd.2 == 0 then Panic else Ok (nd.1 * nd.2^-1).

Definition generate_lagrangian_coefficients_at_origin (points : seq N) : result (seq F) :=
  mapM (fun ip => lagrangian_coefficient points ip.1 ip.2) (enumerate points).

(** The bounds [T: Sum] and [&T: Mul<Scalar>] of the interpolation: the sum of
    keys can panic. *)
Class Combinable (T : Type) : Type := {
  combine : seq T -> result T;
  scaled : T -> F -> T;
}.

(** Scalars and points. *)
#[export] Instance module_combinable (V : lmodType F) : Combinable V :=
  {| combine s := Ok (sum s); scaled v a := a *: v |}.

Definition perform_lagrangian_interpolation_at_origin {T} `{Combinable T}
    (points : seq SignerIndex) (values : seq T) : result T :=
  if nilp points || nilp values then
    Err (Interpolation "Tried to perform lagrangian interpolation for an empty set of coordinates")
  else if size points != size values then
    Err (Interpolation "Tried to perform lagrangian interpolation for an incomplete set of coordinates")
  else
    let? coefficients := generate_lagrangian_coefficients_at_origin points in
    combine [seq scaled cv.2 cv.1 | cv <- zip coefficients values].

(** ** [keygen.rs] *)

(** [SecretKey::verification_key]. *)
Definition derive_verification_key (params : Parameters) (sk : SecretKey) : VerificationKey :=
  {| alpha := sk_x sk *: gen2 params;
     beta_g1 := [seq y *: gen1 params | y <- sk_ys sk];
     beta_g2 := [seq y *: gen2 params | y <- sk_ys sk] |}.

(** [Add<&VerificationKey> for VerificationKey]; the four assertions. *)
Definition key_add (k rhs : VerificationKey) : result VerificationKey :=
  if [&& size (beta_g1 k) == size (beta_g1 rhs), size (beta_g2 k) == size (beta_g2 rhs),
         size (beta_g1 k) == size (beta_g2 k) & size (beta_g1 rhs) == size (beta_g2 rhs)]
  then Ok {| alpha := alpha k + alpha rhs;
             beta_g1 := [seq b.1 + b.2 | b <- zip (beta_g1 k) (beta_g1 rhs)];
             beta_g2 := [seq b.1 + b.2 | b <- zip (beta_g2 k) (beta_g2 rhs)] |}
  else Panic.

(** [Mul<Scalar> for &VerificationKey]. *)
Definition key_scale (k : VerificationKey) (rhs : F) : VerificationKey :=
  {| alpha := rhs *: alpha k;
     beta_g1 := [seq rhs *: b | b <- beta_g1 k];
     beta_g2 := [seq rhs *: b | b <- beta_g2 k] |}.

(** [VerificationKey::identity]. *)
Definition key_identity (beta_size : nat) : VerificationKey :=
  {| alpha := 0; beta_g1 := nseq beta_size 0; beta_g2 := nseq beta_size 0 |}.

(** [Sum for VerificationKey]. *)
Definition key_sum (keys : seq VerificationKey) : result VerificationKey :=
  match keys with
  | [::] => Ok (key_identity 0)
  | head :: _ =>
      foldl (fun acc item => let? k := acc in key_add k item)
        (Ok (key_identity (size (beta_g2 head)))) keys
  end.

#[export] Instance key_combinable : Combinable VerificationKey :=
  {| combine := key_sum; scaled := key_scale |}.

(** [KeyPair::from_keys]. *)
Definition from_keys (sk : SecretKey) (vk : VerificationKey) : KeyPair :=
  {| secret_key := sk; verification_key := vk; kp_index := None |}.

Definition keygen (params : Parameters) (x : F) (rng : nat -> F) : KeyPair :=
  let sk := {| sk_x := x; sk_ys := n_random_scalars rng (size (gen_hs params)) |} in
  {| secret_key := sk; verification_key := derive_verification_key params sk; kp_index := None |}.

(** [polynomial_indices] of [ttp_keygen]. *)
Definition polynomial_indices (num_authorities : N) : seq N :=
  [seq N.of_nat i | i <- iota 1 (N.to_nat num_authorities)].

Definition ttp_keygen (params : Parameters) (threshold num_authorities : N)
    (rng_v : nat -> F) (rng_w : nat -> nat -> F) : result (seq KeyPair) :=
  if (threshold =? 0)%num then
    Err (Setup "Tried to generate threshold keys with a 0 threshold value")
  else if (num_authorities <? threshold)%num then
    Err (Setup "Tried to generate threshold keys for threshold value being higher than number of the signing authorities")
  else
    let attributes := size (gen_hs params) in
    let v := new_random rng_v (threshold - 1) in
    let ws := [seq new_random (rng_w j) (threshold - 1) | j <- iota 0 attributes] in
    let indices := polynomial_indices num_authorities in
    let x := [seq evaluate v (scalar_from id) | id <- indices] in
    let ys := [seq [seq evaluate w (scalar_from id) | w <- ws] | id <- indices] in
    let secret_keys := [seq {| sk_x := xy.1; sk_ys := xy.2 |} | xy <- zip x ys] in
    Ok [seq {| secret_key := ki.1; verification_key := derive_verification_key params ki.1;
               kp_index := Some ki.2 |} | ki <- zip secret_keys indices].

(** ** [issuance.rs], commitments *)

(** [compute_attributes_commitment]. *)
Definition compute_attributes_commitment (params : Parameters)
    (private_attributes public_attributes : seq Attribute) (hs : seq G1) (commitment_opening : F)
    : F * G1 :=
  let attr_cm := sum [seq mh.1 *: mh.2 | mh <- zip (private_attributes ++ public_attributes) hs] in
  (commitment_opening, commitment_opening *: gen1 params + attr_cm).

(** [compute_pedersen_commitments_for_private_attributes]. *)
Definition compute_pedersen_commitments_for_private_attributes (params : Parameters)
    (private_attributes : seq Attribute) (h : G1) (rng : nat -> F) : seq F * seq G1 :=
  let commitments_openings := n_random_scalars rng (size private_attributes) in
  (commitments_openings,
   [seq om.1 *: gen1 params + om.2 *: h | om <- zip commitments_openings private_attributes]).

Definition compute_hash (commitment : G1) (public_attributes : seq Attribute) : G1 :=
  hash_g1 (g1_bytes commitment ++ flatten [seq scalar_bytes a | a <- public_attributes]).

(** ** [proofs/mod.rs] *)

(** [compute_challenge], for [Sha256]: the digest behind 32 zero bytes. *)
Definition compute_challenge (points : seq (seq byte)) : F :=
  scalar_from_bytes_wide (nseq 32 x00 ++ sha256 (flatten points)).

Definition produce_response (witness challenge secret : F) : F := witness - challenge * secret.

Definition produce_responses (witnesses : seq F) (challenge : F) (secrets : seq F) : seq F :=
  [seq produce_response wx.1 challenge wx.2 | wx <- zip witnesses secrets].

(** The bytes that [ProofCmCs::construct] and [ProofCmCs::verify] hash. *)
Definition cm_cs_transcript (params : Parameters) (h commitment : G1) (commitments : seq G1)
    (commitment_attributes : G1) (commitments_attributes : seq G1) : seq (seq byte) :=
  [:: g1_bytes (gen1 params)] ++ [seq g1_bytes hs | hs <- gen_hs params]
  ++ [:: g1_bytes h] ++ [:: g1_bytes commitment] ++ [seq g1_bytes cm | cm <- commitments]
  ++ [:: g1_bytes commitment_attributes] ++ [seq g1_bytes cm | cm <- commitments_attributes].

(** [ProofCmCs::construct]. *)
Definition proof_cm_cs_construct (params : Parameters) (commitment : G1) (commitment_opening : F)
    (commitments : seq G1) (pedersen_commitments_openings : seq F)
    (private_attributes public_attributes : seq Attribute)
    (witness_commitment_opening : F) (rng_openings rng_attributes : nat -> F) : ProofCmCs :=
  let witness_pedersen_commitments_openings :=
    n_random_scalars rng_openings (size pedersen_commitments_openings) in
  let witness_attributes := n_random_scalars rng_attributes (size private_attributes) in
  let h := compute_hash commitment public_attributes in
  let g1 := gen1 params in
  let commitment_attributes :=
    witness_commitment_opening *: g1
    + sum [seq wh.1 *: wh.2 | wh <- zip witness_attributes (gen_hs params)] in
  let commitments_attributes :=
    [seq om.1 *: g1 + om.2 *: h
      | om <- zip witness_pedersen_commitments_openings witness_attributes] in
  let challenge := compute_challenge
    (cm_cs_transcript params h commitment commitments commitment_attributes commitments_attributes) in
  {| cs_challenge := challenge;
     response_opening := produce_response witness_commitment_opening challenge commitment_opening;
     response_openings := produce_responses witness_pedersen_commitments_openings challenge
                            pedersen_commitments_openings;
     response_attributes := produce_responses witness_attributes challenge private_attributes |}.

(** [ProofCmCs::verify]. *)
Definition proof_cm_cs_verify (proof : ProofCmCs) (params : Parameters) (commitment : G1)
    (commitments : seq G1) (public_attributes : seq Attribute) : bool :=
  if size (response_attributes proof) != size commitments then false else
  let h := compute_hash commitment public_attributes in
  let g1 := gen1 params in
  let challenge := cs_challenge proof in
  let commitment_attributes :=
    challenge *: (commitment
      - sum [seq ph.1 *: ph.2
              | ph <- zip public_attributes (drop (size (response_attributes proof)) (gen_hs params))])
    + response_opening proof *: g1
    + sum [seq rh.1 *: rh.2 | rh <- zip (response_attributes proof) (gen_hs params)] in
  let commitments_attributes :=
    [seq challenge *: crr.1 + crr.2.1 *: g1 + crr.2.2 *: h
      | crr <- zip commitments (zip (response_openings proof) (response_attributes proof))] in
  compute_challenge
    (cm_cs_transcript params h commitment commitments commitment_attributes commitments_attributes)
  == challenge.

(** The bytes that [ProofKappaZeta::construct] and [verify] hash. *)
Definition kappa_zeta_transcript (params : Parameters) (vk : VerificationKey)
    (kappa zeta commitment_kappa commitment_zeta : G2) : seq (seq byte) :=
  [:: g2_bytes (gen2 params)] ++ [:: g2_bytes kappa] ++ [:: g2_bytes zeta]
  ++ [:: g2_bytes (alpha vk)] ++ [seq g2_bytes b | b <- beta_g2 vk]
  ++ [:: g2_bytes commitment_kappa] ++ [:: g2_bytes commitment_zeta].

(** [ProofKappaZeta::construct]. *)
Definition proof_kappa_zeta_construct (params : Parameters) (vk : VerificationKey)
    (serial_number binding_number : Attribute) (blinding_factor : F) (blinded_message blinded_serial_number : G2)
    (witness_blinder witness_serial_number witness_binding_number : F) : ProofKappaZeta :=
  let witness_attributes := [:: witness_serial_number; witness_binding_number] in
  let commitment_kappa :=
    witness_blinder *: gen2 params + alpha vk
    + sum [seq wb.1 *: wb.2 | wb <- zip witness_attributes (beta_g2 vk)] in
  let commitment_zeta := witness_serial_number *: gen2 params in
  let challenge := compute_challenge
    (kappa_zeta_transcript params vk blinded_message blinded_serial_number commitment_kappa commitment_zeta) in
  {| kz_challenge := challenge;
     response_serial_number := produce_response witness_serial_number challenge serial_number;
     response_binding_number := produce_response witness_binding_number challenge binding_number;
     response_blinder := produce_response witness_blinder challenge blinding_factor |}.

(** [ProofKappaZeta::private_attributes_len]. *)
Definition private_attributes_len (proof : ProofKappaZeta) : nat := 2.

(** [ProofKappaZeta::verify]. *)
Definition proof_kappa_zeta_verify (proof : ProofKappaZeta) (params : Parameters)
    (vk : VerificationKey) (kappa zeta : G2) : bool :=
  let challenge := kz_challenge proof in
  let response_attributes := [:: response_serial_number proof; response_binding_number proof] in
  let commitment_kappa :=
    challenge *: kappa + response_blinder proof *: gen2 params + (1 - challenge) *: alpha vk
    + sum [seq rb.1 *: rb.2 | rb <- zip response_attributes (beta_g2 vk)] in
  let commitment_zeta := challenge *: zeta + response_serial_number proof *: gen2 params in
  compute_challenge (kappa_zeta_transcript params vk kappa zeta commitment_kappa commitment_zeta)
  == challenge.

(** ** [issuance.rs], signatures *)

(** The scalars [prepare_blind_sign] draws. *)
Record blind_sign_randomness : Type := {
  opening : F;
  pedersen_openings : nat -> F;
  witness_opening : F;
  witness_openings : nat -> F;
  witness_attributes : nat -> F;
}.

Definition prepare_blind_sign (params : Parameters) (private_attributes public_attributes : seq Attribute)
    (rng : blind_sign_randomness) : result (seq F * BlindSignRequest) :=
  if nilp private_attributes then
    Err (Issuance "Tried to prepare blind sign request for an empty set of private attributes")
  else
    let hs := gen_hs params in
    if (size hs < size private_attributes + size public_attributes)%N then
      Err (IssuanceMaxAttributes (Z.of_nat (size hs))
             (Z.of_nat (size private_attributes + size public_attributes)))
    else
      let (commitment_opening, commitment) :=
        compute_attributes_commitment params private_attributes public_attributes hs (opening rng) in
      let commitment_hash := compute_hash commitment public_attributes in
      let (openings, pedersen_commitments) :=
        compute_pedersen_commitments_for_private_attributes params private_attributes commitment_hash
          (pedersen_openings rng) in
      let pi := proof_cm_cs_construct params commitment commitment_opening pedersen_commitments openings
                  private_attributes public_attributes
                  (witness_opening rng) (witness_openings rng) (witness_attributes rng) in
      Ok (openings, {| commitment := commitment; commitment_hash := commitment_hash;
                       private_attributes_commitments := pedersen_commitments; pi_s := pi |}).

(** [BlindSignRequest::verify_proof]. *)
Definition request_verify_proof (request : BlindSignRequest) (params : Parameters)
    (public_attributes : seq Attribute) : bool :=
  proof_cm_cs_verify (pi_s request) params (commitment request)
    (private_attributes_commitments request) public_attributes.

Definition blind_sign (params : Parameters) (signing_secret_key : SecretKey)
    (request : BlindSignRequest) (public_attributes : seq Attribute) : result BlindedSignature :=
  let num_private := size (private_attributes_commitments request) in
  let hs := gen_hs params in
  if (size hs < num_private + size public_attributes)%N then
    Err (IssuanceMaxAttributes (Z.of_nat (size hs)) (Z.of_nat (num_private + size public_attributes)))
  else
    let h := compute_hash (commitment request) public_attributes in
    if ~~ (h == commitment_hash request) then
      Err (Issuance "Failed to verify the commitment hash")
    else if ~~ request_verify_proof request params public_attributes then
      Err (Issuance "Failed to verify the proof of knowledge")
    else
      let signed_public :=
        sum [seq ay.1 * ay.2 | ay <- zip public_attributes (drop num_private (sk_ys signing_secret_key))] *: h in
      let sig :=
        sum ([seq cy.2 *: cy.1
               | cy <- zip (private_attributes_commitments request) (sk_ys signing_secret_key)]
             ++ [:: sk_x signing_secret_key *: h] ++ [:: signed_public]) in
      Ok {| bs_h := h; bs_c := sig |}.

Definition verify_partial_blind_signature (params : Parameters)
    (private_attribute_commitments : seq G1) (public_attributes : seq Attribute)
    (blind_sig : BlindedSignature) (partial_verification_key : VerificationKey) : bool :=
  let num_private_attributes := size private_attribute_commitments in
  if (size (beta_g2 partial_verification_key) < num_private_attributes + size public_attributes)%N then false
  else
    let terms :=
      [:: (- bs_c blind_sig, gen2 params); (bs_h blind_sig, alpha partial_verification_key)]
      ++ zip private_attribute_commitments (beta_g2 partial_verification_key)
      ++ [seq (ab.1 *: bs_h blind_sig, ab.2)
           | ab <- zip public_attributes (drop num_private_attributes (beta_g2 partial_verification_key))] in
    pairing_product terms == 0.

(** ** [verification.rs], the pairing check *)

Definition check_bilinear_pairing (p : G1) (q : G2) (r : G1) (s : G2) : bool :=
  pairing_product [:: (p, q); (- r, s)] == 0.

(** [check_vk_pairing]. *)
Definition check_vk_pairing (params : Parameters) (dkg_values : seq G2) (vk : VerificationKey) : bool :=
  match dkg_values with
  | [::] => false
  | first :: dkg_betas =>
      if (size dkg_betas != size (beta_g1 vk)) || (size dkg_betas != size (beta_g2 vk)) then false
      else if alpha vk != first then false
      else if has (fun b => b.1 != b.2) (zip dkg_betas (beta_g2 vk)) then false
      else if has (fun g => ~~ check_bilinear_pairing (gen1 params) g.2 g.1 (gen2 params))
                (zip (beta_g1 vk) (beta_g2 vk)) then false
      else true
  end.

(** ** [scheme/mod.rs] *)

(** [Signature::randomise]. *)
Definition randomise (s : Signature) (r r_prime : F) : Signature * F :=
  let h_prime := r_prime *: sig1 s in
  let s_prime := r_prime *: sig2 s + r *: h_prime in
  ({| sig1 := h_prime; sig2 := s_prime |}, r).

(** [Signature::verify]. *)
Definition signature_verify (s : Signature) (params : Parameters) (partial_verification_key : VerificationKey)
    (private_attributes public_attributes : seq Attribute) (commitment_hash : G1) : result unit :=
  if ~~ (commitment_hash == sig1 s) then
    Err (Verification "Verification of commitment hash from signature failed")
  else
    let signed_attributes :=
      sum [seq ab.1 *: ab.2
            | ab <- zip (private_attributes ++ public_attributes) (beta_g2 partial_verification_key)] in
    if ~~ check_bilinear_pairing (sig1 s) (alpha partial_verification_key + signed_attributes)
            (sig2 s) (gen2 params) then
      Err (Unblind "Verification of signature share failed")
    else Ok tt.

(** [BlindedSignature::unblind]. *)
Definition unblind (s : BlindedSignature) (partial_verification_key : VerificationKey)
    (pedersen_commitments_openings : seq F) : result Signature :=
  let blinding_removers :=
    sum [seq bo.2 *: bo.1 | bo <- zip (beta_g1 partial_verification_key) pedersen_commitments_openings] in
  Ok {| sig1 := bs_h s; sig2 := bs_c s - blinding_removers |}.

(** [BlindedSignature::unblind_and_verify]. *)
Definition unblind_and_verify (s : BlindedSignature) (params : Parameters)
    (partial_verification_key : VerificationKey) (private_attributes public_attributes : seq Attribute)
    (commitment_hash : G1) (pedersen_commitments_openings : seq F) : result Signature :=
  let? unblinded := unblind s partial_verification_key pedersen_commitments_openings in
  let? _ := signature_verify unblinded params partial_verification_key private_attributes
              public_attributes commitment_hash in
  Ok unblinded.

(** ** [aggregation.rs] *)

(** [Aggregatable::check_unique_indices]. *)
Definition check_unique_indices (indices : seq SignerIndex) : bool :=
  size (undup (indices : seq N)) == size indices.

(** [Aggregatable::aggregate], for keys and points. *)
Definition aggregate {T} `{Combinable T} (aggregatable : seq T) (indices : option (seq SignerIndex)) : result T :=
  if nilp aggregatable then Err (Aggregation "Empty set of values") else
  match indices with
  | Some indices =>
      if ~~ check_unique_indices indices then Err (Aggregation "Non-unique indices")
      else perform_lagrangian_interpolation_at_origin indices aggregatable
  | None => combine aggregatable
  end.

(** [Aggregatable for PartialSignature]. *)
Definition aggregate_partial_signatures (sigs : seq Signature) (indices : option (seq SignerIndex)) : result Signature :=
  match sigs with
  | [::] => Err (Aggregation "Empty set of signatures")
  | first :: _ =>
      let? aggr_sigma := aggregate [seq sig2 s | s <- sigs] indices in
      Ok {| sig1 := sig1 first; sig2 := aggr_sigma |}
  end.

Definition check_same_key_size (keys : seq VerificationKey) : bool :=
  all_equal [seq size (beta_g1 vk) | vk <- keys] && all_equal [seq size (beta_g2 vk) | vk <- keys].

Definition aggregate_verification_keys (keys : seq VerificationKey) (indices : option (seq SignerIndex))
    : result VerificationKey :=
  if ~~ check_same_key_size keys then Err (Aggregation "Verification keys are of different sizes")
  else aggregate keys indices.

Definition aggregate_signatures (params : Parameters) (vk : VerificationKey) (attributes : seq Attribute)
    (signatures : seq Signature) (indices : option (seq SignerIndex)) : result Signature :=
  let? signature := aggregate_partial_signatures signatures indices in
  let tmp := sum [seq ab.1 *: ab.2 | ab <- zip attributes (beta_g2 vk)] in
  if ~~ check_bilinear_pairing (sig1 signature) (alpha vk + tmp) (sig2 signature) (gen2 params) then
    Err (Aggregation "Verification of the aggregated signature failed")
  else Ok signature.

Definition aggregate_signature_shares (params : Parameters) (vk : VerificationKey)
    (attributes : seq Attribute) (shares : seq SignatureShare) : result Signature :=
  aggregate_signatures params vk attributes [seq share_signature s | s <- shares]
    (Some [seq share_index s | s <- shares]).

(** ** [verification.rs], showing a credential *)

Definition compute_kappa (params : Parameters) (vk : VerificationKey) (private_attributes : seq Attribute)
    (blinding_factor : F) : G2 :=
  blinding_factor *: gen2 params + alpha vk
  + sum [seq ab.1 *: ab.2 | ab <- zip private_attributes (beta_g2 vk)].

Definition compute_zeta (params : Parameters) (serial_number : Attribute) : G2 :=
  serial_number *: gen2 params.

(** The scalars [prove_bandwidth_credential] draws. *)
Record prove_randomness : Type := {
  blinding_r : F;
  blinding_r_prime : F;
  witness_blinder : F;
  witness_serial_number : F;
  witness_binding_number : F;
}.

Definition prove_bandwidth_credential (params : Parameters) (vk : VerificationKey) (signature : Signature)
    (serial_number binding_number : Attribute) (rng : prove_randomness) : result VerifyCredentialRequest :=
  if (size (beta_g2 vk) < 2)%N then
    Err (Verification "Tried to prove a credential for higher than supported by the provided verification key number of attributes")
  else
    let (signature_prime, sign_blinding_factor) := randomise signature (blinding_r rng) (blinding_r_prime rng) in
    let blinded_message := compute_kappa params vk [:: serial_number; binding_number] sign_blinding_factor in
    let blinded_serial_number := compute_zeta params serial_number in
    let pi := proof_kappa_zeta_construct params vk serial_number binding_number sign_blinding_factor
                blinded_message blinded_serial_number
                (witness_blinder rng) (witness_serial_number rng) (witness_binding_number rng) in
    Ok {| blinded_message := blinded_message; blinded_serial_number := blinded_serial_number;
          credential := signature_prime; pi_v := pi |}.

(** [VerifyCredentialRequest::verify_proof]. *)
Definition theta_verify_proof (theta : VerifyCredentialRequest) (params : Parameters) (vk : VerificationKey) : bool :=
  proof_kappa_zeta_verify (pi_v theta) params vk (blinded_message theta) (blinded_serial_number theta).

Definition verify_credential (params : Parameters) (vk : VerificationKey) (theta : VerifyCredentialRequest)
    (public_attributes : seq Attribute) : bool :=
  if (size (beta_g2 vk) < size public_attributes + private_attributes_len (pi_v theta))%N then false
  else if ~~ theta_verify_proof theta params vk then false
  else
    let kappa :=
      if nilp public_attributes then blinded_message theta
      else
        blinded_message theta
        + sum [seq ab.1 *: ab.2
                | ab <- zip public_attributes (drop (private_attributes_len (pi_v theta)) (beta_g2 vk))] in
    check_bilinear_pairing (sig1 (credential theta)) kappa (sig2 (credential theta)) (gen2 params)
    && (sig1 (credential theta) != 0).

(** ** [tests/helpers.rs]: a client that obtains and shows a credential *)

Definition theta_from_keys_and_attributes (params : Parameters) (coconut_keypairs : seq KeyPair)
    (indices : seq SignerIndex) (public_attributes : seq Attribute)
    (serial_number binding_number : Attribute) (rng : blind_sign_randomness) (rng' : prove_randomness)
    : result VerifyCredentialRequest :=
  let private_attributes := [:: serial_number; binding_number] in
  let? (commitments_openings, blind_sign_request) :=
    prepare_blind_sign params private_attributes public_attributes rng in
  let verification_keys := [seq verification_key kp | kp <- coconut_keypairs] in
  let? vk := aggregate_verification_keys verification_keys (Some indices) in
  let? blinded_signatures :=
    mapM (fun kp => blind_sign params (secret_key kp) blind_sign_request public_attributes) coconut_keypairs in
  let? unblinded_signatures :=
    mapM (fun isk =>
      let? s := unwrap (unblind_and_verify isk.2.1 params isk.2.2 private_attributes public_attributes
                          (commitment_hash blind_sign_request) commitments_openings) in
      Ok (isk.1, s)) (zip indices (zip blinded_signatures verification_keys)) in
  let signature_shares :=
    [seq {| share_signature := is_.2; share_index := is_.1 |} | is_ <- unblinded_signatures] in
  let? signature :=
    aggregate_signature_shares params vk (private_attributes ++ public_attributes) signature_shares in
  prove_bandwidth_credential params vk signature serial_number binding_number rng'.

(** ** [elgamal.rs] *)

(** [PrivateKey::decrypt]. *)
Definition decrypt (key : F) (ciphertext : Ciphertext G1) : G1 := c2 ciphertext - key *: c1 ciphertext.

(** [PrivateKey::public_key]. *)
Definition elgamal_public_key (params : Parameters) (key : F) : G1 := key *: gen1 params.

(** [PublicKey::encrypt]. *)
Definition encrypt (key : G1) (params : Parameters) (h : G1) (msg k : F) : Ciphertext G1 * F :=
  ({| c1 := k *: gen1 params; c2 := k *: key + msg *: h |}, k).

Definition elgamal_keygen (params : Parameters) (private_key : F) : ElGamalKeyPair F G1 :=
  {| private_key := private_key; public_key := private_key *: gen1 params |}.

End Scheme.
