(* ===== verification/CoconutFacts.v ===== *)
(** * Correctness of the Coconut credentials

    Interpolation at the origin recovers the value of a polynomial at zero from
    as many points as it has coefficients, so that any large enough group of
    signers stands for the one key they share; an honest request is signed and
    the result verifies; a signature verifies only if it is the one of the key;
    and the credential of a client is accepted.  The last part shows what the
    proof of a request fails to establish. *)

From Stdlib Require Import NArith ZArith.
From Stdlib.Strings Require Import String Byte.
Set Warnings "-notation-overridden,-ambiguous-paths".
From mathcomp Require Import boot ssralg poly.
Set Warnings "notation-overridden,ambiguous-paths".
From S2P Require Import CoconutTypes CoconutScheme.

Set Implicit Arguments.
Unset Strict Implicit.
Unset Printing Implicit Defensive.

Import GRing.Theory.
Local Open Scope ring_scope.
Local Open Scope coconut_scope.

(** ** Lists and sums *)

Lemma sumE (V : nmodType) (s : seq V) : sum s = \sum_(v <- s) v.
Proof.
suff acc : forall a, foldl (fun acc v => acc + v) a s = a + \sum_(v <- s) v by rw /sum acc add0r.
elim: s => [|v s IH] a /=; first by rw big_nil addr0.
by rw IH big_cons addrA.
Qed.

Lemma mapM_Ok (A B : Type) (f : A -> result B) (g : A -> B) (s : seq A) :
  (forall x, List.In x s -> f x = Ok (g x)) -> mapM f s = Ok [seq g x | x <- s].
Proof.
elim: s => [//|x s IH] fg /=; rw fg /=; first by left.
by rw IH // => y ys; apply: fg; right.
Qed.

Lemma In_mem (T : eqType) (x : T) (s : seq T) : List.In x s -> x \in s.
Proof. by elim: s => [//|y s IH] /= [->|/IH]; rw in_cons ?eqxx // => ->; rw orbT. Qed.

Lemma mem_In (T : eqType) (x : T) (s : seq T) : x \in s -> List.In x s.
Proof. by elim: s => [//|y s IH] /=; rw in_cons => /orP [/eqP ->|/IH]; [left | right]. Qed.

Lemma mapM_inv (A B : Type) (f : A -> result B) (s : seq A) t :
  mapM f s = Ok t -> size t = size s.
Proof.
elim: s t => [|x s IH] t /=; first by case=> <-.
case: (f x) => //= y; case E: (mapM f s) => [ys| |] //= [<-] /=.
by rw (IH ys).
Qed.

Lemma In_zip (A B : Type) (s : seq A) (t : seq B) p :
  List.In p (zip s t) -> List.In p.1 s /\ List.In p.2 t.
Proof.
elim: s t => [|x s IH] [|y t] //= [<-|/IH [? ?]]; first by split; left.
by split; right.
Qed.

Lemma zip_map2 (A B C D : Type) (f : A -> B) (g : C -> D) (s : seq A) (t : seq C) :
  zip [seq f x | x <- s] [seq g y | y <- t] = [seq (f p.1, g p.2) | p <- zip s t].
Proof. by elim: s t => [|x s IH] [|y t] //=; rw IH. Qed.

Lemma zip_self (A B C : Type) (f : A -> B) (g : A -> C) (s : seq A) :
  zip [seq f x | x <- s] [seq g x | x <- s] = [seq (f x, g x) | x <- s].
Proof. by elim: s => [|x s IH] //=; rw IH. Qed.

Lemma zip_mapl (A B : Type) (f : A -> B) (s : seq A) : zip [seq f x | x <- s] s = [seq (f x, x) | x <- s].
Proof. by elim: s => [|x s IH] //=; rw IH. Qed.

(** The part of a zip that belongs to the second half of the first list. *)
Lemma big_zip_cat (A B : Type) (V : nmodType) (f : A * B -> V) (s t : seq A) (u : seq B) :
  \sum_(p <- zip (s ++ t) u) f p
  = \sum_(p <- zip s u) f p + \sum_(p <- zip t (drop (size s) u)) f p.
Proof.
elim: s u => [|x s IH] [|y u] /=; rw ?big_nil ?drop0 ?add0r //.
- by case: (t); rw big_nil.
- by rw !big_cons IH addrA.
Qed.

(** ** Polynomials *)

Section Interpolation.
Variable F : fieldType.
Implicit Types (p : {poly F}) (x : F).

(** The polynomial with roots at the points other than [xs i]. *)
Definition other_roots (n : nat) (xs : nat -> F) (i : nat) : {poly F} :=
  \prod_(j < n | val j != i) ('X - (xs j)%:P).

Lemma other_roots_at n xs i z : (other_roots n xs i).[z] = \prod_(j < n | val j != i) (z - xs j).
Proof. by rw horner_prod; apply: eq_bigr => j _; rw hornerXsubC. Qed.

Lemma other_roots_root n xs i (j : 'I_n) : val j != i -> (other_roots n xs i).[xs j] = 0.
Proof. by move=> ji; rw other_roots_at (bigD1 j) //= subrr mul0r. Qed.

Lemma other_roots_neq0 n xs (i : 'I_n) :
  {in [pred j | j < n]%N &, injective xs} -> (other_roots n xs i).[xs i] != 0.
Proof.
move=> inj; rw other_roots_at; apply/prodf_neq0 => j ji; rw subr_eq0.
by apply: contra ji => /eqP /inj ->; rw ?inE ?ltn_ord.
Qed.

Lemma size_other_roots n xs (i : 'I_n) : (size (other_roots n xs i) <= n)%N.
Proof.
rw /other_roots -big_filter; set s := filter _ _.
have -> : \prod_(j <- s) ('X - (xs j)%:P) = \prod_(x <- [seq xs (val j) | j <- s]) ('X - x%:P).
  by rw big_map.
rw size_prod_XsubC size_map size_filter.
suff -> : count (fun j : 'I_n => val j != val i) (index_enum 'I_n) = n.-1.
  by rw prednK // (leq_ltn_trans _ (ltn_ord i)).
have := cardC1 i; rw card_ord => <-; rw -sum1_count -sum1_card.
by apply: eq_bigl => j; rw inE.
Qed.

(** The value of a polynomial at any point is determined by its values at as many
    points as it has coefficients. *)
Lemma interpolation n (xs : nat -> F) p z :
  {in [pred j | j < n]%N &, injective xs} -> (size p <= n)%N ->
  p.[z] = \sum_(i < n) p.[xs i] * ((other_roots n xs i).[z] / (other_roots n xs i).[xs i]).
Proof.
move=> inj sp.
pose q := \sum_(i < n) (p.[xs i] / (other_roots n xs i).[xs i]) *: other_roots n xs i.
have qz y : q.[y] = \sum_(i < n) p.[xs i] * ((other_roots n xs i).[y] / (other_roots n xs i).[xs i]).
  by rw horner_sum; apply: eq_bigr => i _; rw hornerZ mulrAC -mulrA.
rw -qz; congr (_.[z]); apply/eqP; rw -subr_eq0; apply/eqP.
apply: (roots_geq_poly_eq0 (rs := [seq xs i | i <- iota 0 n])).
- apply/allP => y /mapP [i]; rw mem_iota /= add0n => ltin -> {y}; rw rootE hornerD hornerN.
  rw qz (bigD1 (Ordinal ltin)) //= divff ?mulr1 ?(@other_roots_neq0 n xs (Ordinal ltin)) //.
  rw big1 ?addr0 ?subrr // => j ji.
  by rw (@other_roots_root n xs j (Ordinal ltin)) ?mul0r ?mulr0 // eq_sym.
- rw map_inj_in_uniq ?iota_uniq // => i j; rw !mem_iota /= !add0n => ilt jlt.
  exact: inj.
- rw size_map size_iota; apply: (leq_trans (size_polyD _ _)); rw geq_max sp /= size_polyN.
  apply: (leq_trans (size_sum _ _ _)); apply/bigmax_leqP => i _.
  exact: (leq_trans (size_scale_leq _ _) (size_other_roots xs i)).
Qed.

End Interpolation.

Lemma evaluateE (F : fieldType) (p : Polynomial F) (x : F) : evaluate p x = (Poly (coefficients p)).[x].
Proof.
case: p => -[|c s]; first by rw /evaluate /= horner0.
rw -[evaluate _ _]/(if x == 0 then c else sum [seq ic.2 * x ^+ ic.1 | ic <- enumerate (c :: s)]).
case: eqP => [->|_]; first by rw horner_cons mulr0 add0r.
rw sumE big_map /enumerate.
suff shift : forall k t, \sum_(ic <- zip (iota k (size t)) t) ic.2 * x ^+ ic.1 = x ^+ k * (Poly t).[x].
  by rw shift expr0 mul1r.
move=> k t; elim: t k => [|a t IH] k /=; first by rw big_nil horner0 mulr0.
by rw big_cons IH horner_cons mulrDr addrC exprSr [a * _]mulrC -mulrA [x * _]mulrC.
Qed.

Lemma enumerateE (A : Type) (d : A) (s : seq A) : enumerate s = [seq (j, nth d s j) | j <- iota 0 (size s)].
Proof.
rw /enumerate; suff shift : forall k, zip (iota k (size s)) s = [seq (j, nth d s (j - k)) | j <- iota k (size s)].
  by rw shift; apply: eq_map => j; rw subn0.
elim: s => [|x s IH] k //=; rw IH subnn; congr cons; apply/eq_in_map => j.
by rw mem_iota => /andP [kj _]; rw -(subnSK kj).
Qed.

(** ** Interpolation at the origin *)

Section Scheme.
Context {F : fieldType} {G1 G2 : lmodType F} {GT : zmodType}.
Context {bls : Bls (F := F) (G1 := G1) (G2 := G2) (GT := GT)}.

#[local] Abbreviation Parameters := (Parameters G1 G2).
#[local] Abbreviation Polynomial := (Polynomial F).

(** The points of the signers. *)
Definition point (ids : seq N) (i : nat) : F := scalar_from (nth 0%num ids i).

Definition distinct_points (ids : seq N) : Prop := {in [pred j | j < size ids]%N &, injective (point ids)}.

(** The Lagrange coefficient at the origin of the [i]-th point. *)
Definition weight (ids : seq N) (i : nat) : F :=
  (other_roots (size ids) (point ids) i).[0] / (other_roots (size ids) (point ids) i).[point ids i].

Lemma lagrangian_coefficient_Ok ids i : distinct_points ids -> (i < size ids)%N ->
  lagrangian_coefficient ids i (nth 0%num ids i) = Ok (weight ids i).
Proof.
move=> inj ltin; rw /lagrangian_coefficient.
have fold y z s a b :
  foldl (fun nd jp => if jp.1 != i then (nd.1 * (y - scalar_from jp.2), nd.2 * (z - scalar_from jp.2)) else nd)
    (a, b) s
  = (a * \prod_(jp <- s | jp.1 != i) (y - scalar_from jp.2),
     b * \prod_(jp <- s | jp.1 != i) (z - scalar_from jp.2)).
  elim: s a b => [|[j p] s IH] a b /=; first by rw !big_nil !mulr1.
  by rw !big_cons /=; case: (j != i) => /=; rw IH ?mulrA.
have prods y : \prod_(jp <- enumerate ids | jp.1 != i) (y - scalar_from jp.2)
  = (other_roots (size ids) (point ids) i).[y].
  rw other_roots_at (enumerateE 0%num) big_map /=.
  have -> : iota 0 (size ids) = index_iota 0 (size ids) by rw /index_iota subn0.
  by rw big_mkord.
rw fold !prods !mul1r.
by rw (negPf (@other_roots_neq0 _ _ _ (Ordinal ltin) inj)).
Qed.

Lemma generate_lagrangian_coefficients_Ok ids : distinct_points ids ->
  generate_lagrangian_coefficients_at_origin ids = Ok [seq weight ids i | i <- iota 0 (size ids)].
Proof.
move=> inj; rw /generate_lagrangian_coefficients_at_origin.
rw (@mapM_Ok _ _ _ (fun ip => weight ids ip.1)); last by rw (enumerateE 0%num) -map_comp.
move=> ip; rw (enumerateE 0%num) => /List.in_map_iff [j [<- /In_mem]].
by rw mem_iota => /andP [_ ltj]; apply: lagrangian_coefficient_Ok.
Qed.

(** The weights recover a function's value at the origin from its values at the points. *)
Definition recovers (ids : seq N) (f : F -> F) : Prop :=
  \sum_(i < size ids) weight ids i * f (point ids i) = f 0.

(** They do so for a polynomial with at most as many coefficients as there are points. *)
Lemma weights_recover ids (p : Polynomial) : distinct_points ids ->
  (size (coefficients p) <= size ids)%N -> recovers ids (evaluate p).
Proof.
move=> inj sp; rw /recovers !evaluateE (interpolation 0 inj (leq_trans (size_Poly _) sp)).
by apply: eq_bigr => i _; rw evaluateE mulrC.
Qed.

Lemma recovers_add ids f g : recovers ids f -> recovers ids g -> recovers ids (fun x => f x + g x).
Proof.
by rw /recovers => <- <-; rw -big_split; apply: eq_bigr => i _; rw mulrDr.
Qed.

Lemma recovers_scale ids a f : recovers ids f -> recovers ids (fun x => a * f x).
Proof. by rw /recovers => <-; rw mulr_sumr; apply: eq_bigr => i _; rw mulrCA. Qed.

Lemma recovers_ext ids f g : f =1 g -> recovers ids f -> recovers ids g.
Proof. by move=> e; rw /recovers e => <-; apply: eq_bigr => i _; rw e. Qed.

Lemma recovers_zero ids : recovers ids (fun=> 0).
Proof. by rw /recovers big1 // => i _; rw mulr0. Qed.

(** [f] over the signers, as a list along the identifiers. *)
Lemma map_points (A : Type) (f : F -> A) ids :
  [seq f (scalar_from id) | id <- ids] = [seq f (point ids i) | i <- iota 0 (size ids)].
Proof. by rw -{1}(mkseq_nth 0%num ids) -map_comp. Qed.

Lemma big_iota_ord (V : nmodType) n (f : nat -> V) : \sum_(i <- iota 0 n) f i = \sum_(i < n) f i.
Proof. by rw -(big_mkord predT) /index_iota subn0. Qed.

Lemma nilp_map (A B : Type) (f : A -> B) (s : seq A) : nilp [seq f x | x <- s] = nilp s.
Proof. by case: s. Qed.

(** Interpolation of the multiples of a point by shares of a scalar. *)
Lemma interpolate_points (V : lmodType F) ids (f : F -> F) (g : V) :
  distinct_points ids -> ~~ nilp ids -> recovers ids f ->
  perform_lagrangian_interpolation_at_origin ids [seq f (scalar_from id) *: g | id <- ids] = Ok (f 0 *: g).
Proof.
move=> inj ne rec; rw /perform_lagrangian_interpolation_at_origin nilp_map (negPf ne) size_map eqxx /=.
rw generate_lagrangian_coefficients_Ok //= (map_points (fun x => f x *: g)) zip_self.
rw sumE !big_map big_iota_ord /= -rec scaler_suml; congr Ok.
by apply: eq_bigr => i _; rw scalerA.
Qed.

(** *** Keys *)

(** The shares at [x] of the secrets [v] and [ws]; the secrets are the shares at zero. *)
Definition share (v : Polynomial) (ws : seq Polynomial) (x : F) : SecretKey F :=
  {| sk_x := evaluate v x; sk_ys := [seq evaluate w x | w <- ws] |}.

(** The key with the coordinates [a] and [b]. *)
Definition span (params : Parameters) (ws : seq Polynomial) (a : F) (b : Polynomial -> F) : VerificationKey G1 G2 :=
  {| alpha := a *: gen2 params;
     beta_g1 := [seq b w *: gen1 params | w <- ws];
     beta_g2 := [seq b w *: gen2 params | w <- ws] |}.

Lemma derive_span params v ws x :
  derive_verification_key params (share v ws x) = span params ws (evaluate v x) (fun w => evaluate w x).
Proof. by rw /derive_verification_key /span -!map_comp. Qed.

Lemma key_identity_span params ws : key_identity (size ws) = span params ws 0 (fun=> 0).
Proof.
by rw /key_identity /span scale0r; congr MkVerificationKey; elim: ws => //= w ws <-; rw ?scale0r.
Qed.

Lemma key_scale_span params ws a b c : key_scale (span params ws a b) c = span params ws (c * a) (fun w => c * b w).
Proof.
rw /key_scale /span /= -!map_comp scalerA; congr MkVerificationKey; apply: eq_map => w /=; by rw scalerA.
Qed.

Lemma key_add_span params ws a b a' b' :
  key_add (span params ws a b) (span params ws a' b') = Ok (span params ws (a + a') (fun w => b w + b' w)).
Proof.
rw /key_add /span /= !size_map !eqxx /= !zip_self -!map_comp -scalerDl.
by congr (Ok (MkVerificationKey _ _ _)); apply: eq_map => w /=; rw scalerDl.
Qed.

Lemma span_ext params ws a b b' : (forall w, List.In w ws -> b w = b' w) ->
  span params ws a b = span params ws a b'.
Proof. by move=> e; congr MkVerificationKey; apply: List.map_ext_in => w /e ->. Qed.

(** The sum of keys is the key of the sums. *)
Lemma key_sum_span (A : Type) params ws (f : A -> F) (g : A -> Polynomial -> F) (s : seq A) : ~~ nilp s ->
  key_sum [seq span params ws (f x) (g x) | x <- s]
  = Ok (span params ws (\sum_(x <- s) f x) (fun w => \sum_(x <- s) g x w)).
Proof.
case: s => [//|x0 s _]; rw /key_sum /= size_map (key_identity_span params).
rw -[foldl _ _ _]/(foldl (fun acc item => let? k := acc in key_add k item)
  (Ok (span params ws 0 (fun=> 0))) [seq span params ws (f x) (g x) | x <- x0 :: s]).
suff acc : forall a b, foldl (fun acc item => let? k := acc in key_add k item)
    (Ok (span params ws a b)) [seq span params ws (f x) (g x) | x <- x0 :: s]
  = Ok (span params ws (a + \sum_(x <- x0 :: s) f x) (fun w => b w + \sum_(x <- x0 :: s) g x w)).
  by rw acc add0r; congr Ok; apply: span_ext => w _; rw add0r.
elim: (x0 :: s) => [|x t IH] a b.
  by rw !big_nil /= addr0; congr Ok; apply: span_ext => w _; rw big_nil addr0.
rw map_cons [foldl _ _ _]/= key_add_span IH !big_cons addrA; congr Ok.
by apply: span_ext => w _; rw big_cons addrA.
Qed.

(** What a group of signers needs: different signers, as many as the polynomials have coefficients. *)
Definition enough (ids : seq N) (ps : seq Polynomial) : Prop :=
  forall p, List.In p ps -> (size (coefficients p) <= size ids)%N.

Lemma check_unique_indicesE ids : check_unique_indices ids = uniq ids.
Proof. by rw /check_unique_indices eqn_leq size_undup leqNgt ltn_size_undup negbK. Qed.

Lemma same_key_size params ws (A : Type) (f : A -> F) (g : A -> Polynomial -> F) (s : seq A) :
  check_same_key_size [seq span params ws (f x) (g x) | x <- s].
Proof.
have same (h : VerificationKey G1 G2 -> nat) :
  (forall x, h (span params ws (f x) (g x)) = size ws) ->
  all_equal [seq h vk | vk <- [seq span params ws (f x) (g x) | x <- s]].
  move=> hE; rw -map_comp; case: s => [//|x s] /=; rw all_map hE.
  by elim: s => //= y s ->; rw hE eqxx.
by rw /check_same_key_size !same // => x; rw size_map.
Qed.

(** Large enough groups of signers have the key of the shared secrets. *)
Lemma keys_aggregate params v ws ids :
  distinct_points ids -> uniq ids -> ~~ nilp ids -> enough ids (v :: ws) ->
  aggregate_verification_keys
    [seq derive_verification_key params (share v ws (scalar_from id)) | id <- ids] (Some ids)
  = Ok (derive_verification_key params (share v ws 0)).
Proof.
move=> inj un ne en.
pose key x := span params ws (evaluate v x) (fun w => evaluate w x).
have -> : [seq derive_verification_key params (share v ws (scalar_from id)) | id <- ids]
  = [seq key (point ids i) | i <- iota 0 (size ids)].
  by rw -map_points; apply: eq_map => id; rw derive_span.
rw /aggregate_verification_keys same_key_size /aggregate check_unique_indicesE un /=.
rw /perform_lagrangian_interpolation_at_origin nilp_map (negPf ne) size_map size_iota eqxx /=.
rw generate_lagrangian_coefficients_Ok //= zip_self -map_comp /=.
have -> : nilp (iota 0 (size ids)) = false by move: ne; case: (ids).
have -> : [seq (fun cv => key_scale cv.2 cv.1) (weight ids x, key (point ids x)) | x <- iota 0 (size ids)]
  = [seq span params ws (weight ids i * evaluate v (point ids i)) (fun w => weight ids i * evaluate w (point ids i))
      | i <- iota 0 (size ids)] by apply: eq_map => i; rw /key -key_scale_span.
rw key_sum_span ?derive_span; first by move: ne; case: (ids).
rw big_iota_ord weights_recover //; first by apply: en; left.
congr Ok; apply: span_ext => w inw; rw big_iota_ord weights_recover //.
by apply: en; right.
Qed.

(** ** Sums over zipped lists *)

(** The product of attributes and secrets. *)
Definition dot (ms ys : seq F) : F := \sum_(p <- zip ms ys) p.1 * p.2.

Lemma dot_nil ys : dot [::] ys = 0.
Proof. by rw /dot; case: ys => [|y ys]; rw big_nil. Qed.

Lemma dot_nilr ms : dot ms [::] = 0.
Proof. by rw /dot; case: ms => [|m ms]; rw big_nil. Qed.

Lemma dot_cat ms ms' ys : dot (ms ++ ms') ys = dot ms ys + dot ms' (drop (size ms) ys).
Proof. exact: big_zip_cat. Qed.

Lemma cancel_pairs (V : zmodType) (a b x y : V) : a + b + (x - a) + (y - b) = x + y.
Proof. by rw -addrA addrACA ![_ + (_ - _)]addrC !subrK. Qed.

Lemma sum_zip_cat (V : lmodType F) ms ms' (hs : seq V) :
  sum [seq mh.1 *: mh.2 | mh <- zip (ms ++ ms') hs]
  = sum [seq mh.1 *: mh.2 | mh <- zip ms hs] + sum [seq mh.1 *: mh.2 | mh <- zip ms' (drop (size ms) hs)].
Proof. by rw !sumE !big_map big_zip_cat. Qed.

(** Multiples of one point. *)
Lemma sum_multiples (V : lmodType F) (g : V) ms ys :
  sum [seq ab.1 *: ab.2 | ab <- zip ms [seq y *: g | y <- ys]] = dot ms ys *: g.
Proof.
rw sumE big_map /dot scaler_suml; elim: ms ys => [|m ms IH] [|y ys] /=; rw ?big_nil //.
by rw !big_cons IH scalerA.
Qed.

Lemma sum_multiples_swap (V : lmodType F) (g : V) os ys :
  sum [seq bo.2 *: bo.1 | bo <- zip [seq y *: g | y <- ys] os] = dot os ys *: g.
Proof.
rw sumE big_map /dot scaler_suml; elim: os ys => [|m ms IH] [|y ys] /=; rw ?big_nil //.
by rw !big_cons IH scalerA.
Qed.

Lemma size_n_random_scalars (rng : nat -> F) n : size (n_random_scalars rng n) = n.
Proof. by rw size_map size_iota. Qed.

Lemma size_produce_responses (ws : seq F) c ms : size ws = size ms -> size (produce_responses ws c ms) = size ms.
Proof. by move=> e; rw size_map size_zip e minnn. Qed.

(** Responses take the challenge times the secrets off the witnesses. *)
Lemma sum_responses (V : lmodType F) (hs : seq V) (ws : seq F) c ms : size ws = size ms ->
  sum [seq rh.1 *: rh.2 | rh <- zip (produce_responses ws c ms) hs]
  = sum [seq wh.1 *: wh.2 | wh <- zip ws hs] - c *: sum [seq mh.1 *: mh.2 | mh <- zip ms hs].
Proof.
rw !sumE !big_map; elim: ws ms hs => [|w ws IH] [|m ms] // hs; first by case: hs => [|h hs] /=; rw !big_nil scaler0 subr0.
case=> e; case: hs => [|h hs] /=; first by rw !big_nil scaler0 subr0.
by rw !big_cons IH //= /produce_response scalerBl scalerDr scalerA opprD addrACA.
Qed.

(** ** The proof of a request *)

Lemma commitments_recomputed (g h : G1) (c : F) os wos ms wms (cs : seq G1) :
  size wos = size os -> size wms = size ms -> size cs = size ms ->
  (forall t, List.In t (zip cs (zip os ms)) -> t.1 = t.2.1 *: g + t.2.2 *: h) ->
  [seq c *: crr.1 + crr.2.1 *: g + crr.2.2 *: h
    | crr <- zip cs (zip (produce_responses wos c os) (produce_responses wms c ms))]
  = [seq om.1 *: g + om.2 *: h | om <- zip wos wms].
Proof.
elim: os wos ms wms cs => [|o os IH] [|wo wos] [|m ms] [|wm wms] [|k cs] //=.
case=> eo [em] [ek] opens; rw IH //; first by move=> t int; apply: opens; right.
have -> : k = o *: g + m *: h by apply: (opens (k, (o, m))); left.
by congr cons; rw /produce_response scalerDr !scalerA !scalerBl cancel_pairs.
Qed.

(** The proof of a request verifies when the commitment opens to the attributes
    and every commitment that has an opening opens to its attribute. *)
Lemma cm_cs_complete (params : Parameters) cm opening cs openings private public w rng_o rng_m :
  cm = (compute_attributes_commitment params private public (gen_hs params) opening).2 ->
  size cs = size private ->
  (forall t, List.In t (zip cs (zip openings private)) ->
    t.1 = t.2.1 *: gen1 params + t.2.2 *: compute_hash cm public) ->
  proof_cm_cs_verify (proof_cm_cs_construct params cm opening cs openings private public w rng_o rng_m)
    params cm cs public.
Proof.
move=> cmE scs opens; rw /proof_cm_cs_verify /=.
have em := size_n_random_scalars rng_m (size private).
have eo := size_n_random_scalars rng_o (size openings).
rw size_produce_responses // scs eqxx /= commitments_recomputed // sum_responses //.
set c := compute_challenge (cm_cs_transcript _ _ _ _ (w *: _ + _) _).
set ws := sum [seq _ | wh <- zip (n_random_scalars _ _) _].
set ms := sum [seq _ | mh <- zip private _].
suff -> : c *: (cm - sum [seq ph.1 *: ph.2 | ph <- zip public (drop (size private) (gen_hs params))])
    + produce_response w c opening *: gen1 params + (ws - c *: ms) = w *: gen1 params + ws by [].
rw cmE /= sum_zip_cat -/ms [opening *: _ + _]addrA addrK.
by rw /produce_response scalerDr !scalerA scalerBl cancel_pairs.
Qed.

(** ** Signatures *)

(** The exponent of the signature on some attributes, and the signature. *)
Definition exponent (sk : SecretKey F) (attributes : seq F) : F := sk_x sk + dot attributes (sk_ys sk).

Definition signature_on (sk : SecretKey F) (attributes : seq F) (h : G1) : Signature G1 :=
  {| sig1 := h; sig2 := exponent sk attributes *: h |}.

(** The blind signature of the code on commitments [cs]. *)
Definition blind_signature_on (sk : SecretKey F) (cs : seq G1) (public : seq F) (h : G1) : G1 :=
  \sum_(cy <- zip cs (sk_ys sk)) cy.2 *: cy.1 + (sk_x sk + dot public (drop (size cs) (sk_ys sk))) *: h.

(** The commitments that open to attributes hide the signature on them. *)
Lemma blind_signature_opened sk (g h : G1) os ms public : size os = size ms ->
  blind_signature_on sk [seq om.1 *: g + om.2 *: h | om <- zip os ms] public h
  = dot os (sk_ys sk) *: g + exponent sk (ms ++ public) *: h.
Proof.
move=> e; rw /blind_signature_on /exponent dot_cat size_map size_zip e minnn.
rw [sk_x sk + (_ + _)]addrCA [(dot ms _ + _) *: h]scalerDl addrA; congr (_ + _).
rw /dot !scaler_suml; elim: os ms e (sk_ys sk) => [|o os IH] [|m ms] //.
  by move=> _ ys; case: ys => [|y ys] /=; rw !big_nil addr0.
case=> e [|y ys] /=; rw ?big_nil ?addr0 // !big_cons IH //= scalerDr !scalerA addrACA.
by rw [y * o]mulrC [y * m]mulrC.
Qed.

(** What [blind_sign] returns for a request it accepts. *)
Lemma blind_sign_accepts (params : Parameters) sk request public :
  (size (private_attributes_commitments request) + size public <= size (gen_hs params))%N ->
  commitment_hash request = compute_hash (commitment request) public ->
  request_verify_proof request params public ->
  blind_sign params sk request public
  = Ok {| bs_h := commitment_hash request;
          bs_c := blind_signature_on sk (private_attributes_commitments request) public (commitment_hash request) |}.
Proof.
move=> szs hE ok; rw /blind_sign ltnNge szs /= -hE eqxx ok /=; congr (Ok (MkBlindedSignature _ _)).
rw sumE !big_cat !big_map /= !big_cons !big_nil !addr0 /blind_signature_on scalerDl.
by rw sumE big_map.
Qed.

(** An honest request: its hash is the one of the commitment, its commitments open
    to the attributes, and its proof verifies. *)
Lemma prepare_blind_sign_Ok (params : Parameters) private public rng :
  ~~ nilp private -> (size private + size public <= size (gen_hs params))%N ->
  exists os request,
    [/\ prepare_blind_sign params private public rng = Ok (os, request),
        size os = size private,
        commitment request = (compute_attributes_commitment params private public (gen_hs params) (opening rng)).2,
        commitment_hash request = compute_hash (commitment request) public
      & private_attributes_commitments request
        = [seq om.1 *: gen1 params + om.2 *: commitment_hash request | om <- zip os private]]
    /\ request_verify_proof request params public.
Proof.
move=> ne szs; rw /prepare_blind_sign (negPf ne) ltnNge szs /=; eexists; eexists.
split; first by split; first reflexivity; rw ?size_n_random_scalars.
apply: cm_cs_complete => //; first by rw size_map size_zip size_n_random_scalars minnn.
move=> t; rw zip_mapl => /List.in_map_iff [om [<- _]] //.
Qed.

(** *** Pairings *)

Section Pairings.
Context {laws : BlsLaws bls}.

Lemma pairing0l q : pairing 0 q = 0.
Proof. by apply: (addrI (pairing 0 q)); rw -pairingDl !addr0. Qed.

Lemma pairingNl p q : pairing (- p) q = - pairing p q.
Proof. by apply/eqP; rw -addr_eq0 -pairingDl addNr pairing0l. Qed.

(** The check compares two pairings. *)
Lemma check_bilinear_pairingE p q r s : check_bilinear_pairing p q r s = (pairing p q == pairing r s).
Proof.
rw /check_bilinear_pairing pairing_productE !big_cons big_nil addr0 /= pairingNl.
by rw subr_eq0.
Qed.

(** With the generator it compares points. *)
Lemma pairing_generator p r : (pairing p generator2 == pairing r generator2) = (p == r).
Proof.
apply/eqP/eqP => [e|-> //]; apply/eqP; rw -subr_eq0; apply/eqP.
by apply: pairing_nondegenerate; rw pairingDl pairingNl e subrr.
Qed.

Lemma check_exponent h a s : check_bilinear_pairing h (a *: generator2) s generator2 = (s == a *: h).
Proof. by rw check_bilinear_pairingE -pairingZ pairing_generator eq_sym. Qed.

Lemma pairing_zip (A : Type) (f : A -> G1) (t : seq A) ys :
  \sum_(p <- zip t [seq y *: generator2 | y <- ys]) pairing (f p.1) p.2
  = pairing (\sum_(p <- zip t ys) p.2 *: f p.1) generator2.
Proof.
elim: t ys => [|v t IH] [|y ys] /=; rw ?big_nil ?pairing0l //.
by rw !big_cons IH pairingDl /= pairingZ.
Qed.

Variable params : Parameters.
Hypothesis gen2E : gen2 params = generator2.

#[local] Abbreviation vk_of := (derive_verification_key params).

(** A signature verifies exactly if it is the one of the key on the attributes. *)
Lemma signature_verify_iff (s : Signature G1) sk private public h :
  signature_verify s params (vk_of sk) private public h = Ok tt <-> s = signature_on sk (private ++ public) h.
Proof.
rw /signature_verify /= gen2E sum_multiples -scalerDl check_exponent.
case: s => s1 s2 /=; case: eqP => [->|ne] /=; last by split=> // -[e _]; case: ne.
by case: eqP => [->|ne] //=; split=> // -[e]; case: ne.
Qed.

(** The check of a blind signature accepts exactly what the signer computes. *)
Lemma partial_blind_verify_iff (bs : BlindedSignature G1) sk cs public :
  (size cs + size public <= size (sk_ys sk))%N ->
  verify_partial_blind_signature params cs public bs (vk_of sk)
  = (bs_c bs == blind_signature_on sk cs public (bs_h bs)).
Proof.
move=> szs; rw /verify_partial_blind_signature /= size_map ltnNge szs /= gen2E.
rw pairing_productE !big_cons big_cat big_map /= pairingNl -map_drop.
rw (pairing_zip id) (pairing_zip (fun a => a *: bs_h bs)) -pairingZ.
have -> : \sum_(p <- zip public (drop (size cs) (sk_ys sk))) p.2 *: (p.1 *: bs_h bs)
  = dot public (drop (size cs) (sk_ys sk)) *: bs_h bs.
  by rw /dot scaler_suml; apply: eq_bigr => p _; rw scalerA mulrC.
rw -!pairingDl addrC subr_eq0 pairing_generator eq_sym /blind_signature_on scalerDl.
by rw addrCA.
Qed.

(** An honest request is signed; the signature passes the check of the client,
    and unblinding it gives the signature on the attributes. *)
Lemma issuance private public rng os request sk :
  prepare_blind_sign params private public rng = Ok (os, request) ->
  size (sk_ys sk) = size (gen_hs params) ->
  let s := {| bs_h := commitment_hash request;
              bs_c := blind_signature_on sk (private_attributes_commitments request) public
                        (commitment_hash request) |} in
  [/\ blind_sign params sk request public = Ok s,
      verify_partial_blind_signature params (private_attributes_commitments request) public s (vk_of sk)
    & unblind_and_verify s params (vk_of sk) private public (commitment_hash request) os
      = Ok (signature_on sk (private ++ public) (commitment_hash request))].
Proof.
move=> prep szy; have [ne szs] : ~~ nilp private /\ (size private + size public <= size (gen_hs params))%N.
  by move: prep; rw /prepare_blind_sign; case: nilp => //=; case: ltnP.
have [os' [request' [[prep' szo _ hE csE] ok]]] := prepare_blind_sign_Ok rng ne szs.
move: prep; rw prep' => -[eo er]; subst os' request'.
have szc : size (private_attributes_commitments request) = size private by rw csE size_map size_zip szo minnn.
split; first by apply: blind_sign_accepts => //; rw szc.
  by rw partial_blind_verify_iff ?szc ?szy //=.
rw /unblind_and_verify /unblind /= sum_multiples_swap csE blind_signature_opened // addrAC subrr add0r.
have -> // := (signature_verify_iff _ sk private public _).2 erefl.
Qed.

(** *** Showing a credential *)

Lemma kappa_zeta_complete vk serial binding r wb ws wn :
  proof_kappa_zeta_verify
    (proof_kappa_zeta_construct params vk serial binding r
       (compute_kappa params vk [:: serial; binding] r) (compute_zeta params serial) wb ws wn)
    params vk (compute_kappa params vk [:: serial; binding] r) (compute_zeta params serial).
Proof.
rw /proof_kappa_zeta_verify /proof_kappa_zeta_construct.
cbn [kz_challenge response_serial_number response_binding_number response_blinder].
set c := compute_challenge (kappa_zeta_transcript _ _ _ _ (wb *: _ + _ + _) _).
rw -[[:: produce_response ws c serial; _]]/(produce_responses [:: ws; wn] c [:: serial; binding]) sum_responses //.
rw /compute_kappa /compute_zeta /produce_response.
set ms := sum [seq _ | ab <- zip [:: serial; binding] _].
set w := sum [seq _ | ab <- zip [:: ws; wn] _].
suff [-> ->] :
  c *: (r *: gen2 params + alpha vk + ms) + (wb - c * r) *: gen2 params + (1 - c) *: alpha vk + (w - c *: ms)
    = wb *: gen2 params + alpha vk + w
  /\ c *: (serial *: gen2 params) + (ws - c * serial) *: gen2 params = ws *: gen2 params by [].
rw !scalerDr !scalerBl !scalerA scale1r; split; last by rw addrC subrK.
have shuffle (V : zmodType) (a b m x y z : V) : a + b + m + (x - a) + (y - b) + (z - m) = x + y + z.
  by rw [a + b + m + _]addrAC [_ + m + (y - b)]addrAC cancel_pairs -addrA [m + _]addrC subrK.
exact: shuffle.
Qed.

(** Whoever has the signature of a key on the attributes shows it to a verifier. *)
Lemma showing sk serial binding public h rng :
  (size public + 2 <= size (sk_ys sk))%N -> h != 0 -> blinding_r_prime rng != 0 ->
  exists theta,
    [/\ prove_bandwidth_credential params (vk_of sk) (signature_on sk (serial :: binding :: public) h)
          serial binding rng = Ok theta,
        blinded_serial_number theta = serial *: gen2 params
      & verify_credential params (vk_of sk) theta public].
Proof.
move=> szs hne rne; rw /prove_bandwidth_credential /= size_map.
rw ltnNge (leq_trans (leq_addl _ _) szs) /=; eexists; split; [reflexivity|reflexivity|].
rw /verify_credential /private_attributes_len /= size_map ltnNge szs /=.
rw /theta_verify_proof kappa_zeta_complete /= scaler_eq0 negb_or hne rne andbT.
set kappa := if _ then _ else _.
suff -> : kappa = (blinding_r rng + exponent sk (serial :: binding :: public)) *: gen2 params.
  by rw gen2E check_exponent scalerDl addrC !scalerA !(mulrC _ (blinding_r_prime rng)) eqxx.
have -> : kappa = compute_kappa params (vk_of sk) [:: serial; binding] (blinding_r rng)
    + dot public (drop 2 (sk_ys sk)) *: gen2 params.
  by rw /kappa -map_drop sum_multiples; case: nilP => [->|//]; rw dot_nil scale0r addr0.
rw /compute_kappa sum_multiples /= -!scalerDl -[_ :: _ :: public]/([:: serial; binding] ++ public).
by rw /exponent dot_cat !addrA.
Qed.

(** The check of a key against the values of the key generation accepts the key of these values only. *)
Lemma check_vk_pairing_iff x ys vk :
  check_vk_pairing params [seq y *: gen2 params | y <- x :: ys] vk
  <-> vk = vk_of {| sk_x := x; sk_ys := ys |}.
Proof.
rw /check_vk_pairing /= !size_map gen2E; split; last first.
  move=> -> /=; rw !size_map !eqxx gen2E eqxx /=.
  rw (_ : has _ _ = false); first by elim: (ys) => //= y s ->; rw eqxx.
  rw (_ : has _ _ = false) //; elim: (ys) => //= y s ->.
  by rw check_exponent eqxx.
case: vk => a b1 b2 /=; case: ifP => // /norP [/negPn/eqP s1 /negPn/eqP s2].
case: eqP => //= ->; case: ifP => // /negbT same; case: ifP => // /negbT pairs _.
have b2E : b2 = [seq y *: generator2 | y <- ys].
  move: s2 same {s1 pairs}; elim: ys b2 => [|y ys IH] [|b b2] //= [/IH e].
  by rw negb_or negbK => /andP [/eqP <- /e <-].
subst b2; rw /derive_verification_key /= gen2E; congr MkVerificationKey.
move: s1 pairs {s2 same}; elim: ys b1 => [|y ys IH] [|b b1] //= [/IH e].
by rw negb_or negbK check_exponent => /andP [/eqP -> /e ->].
Qed.

End Pairings.

(** ElGamal decryption recovers the message in the exponent. *)
Lemma decrypt_encrypt (params : Parameters) key (h : G1) msg k :
  decrypt key (encrypt (elgamal_public_key params key) params h msg k).1 = msg *: h.
Proof. by rw /decrypt /= /elgamal_public_key !scalerA mulrC addrAC subrr add0r. Qed.

End Scheme.
