(* ===== verification/CoconutCredentials.v ===== *)
(** * Threshold credentials from end to end

    The keys of [ttp_keygen], any large enough group of signers, the issuance,
    the aggregation and the showing of a credential together; and a client that
    makes credentials out of two signatures, because the proof of a request
    need not cover its commitments.  The theorems are applied to curves over
    the rational numbers at the end. *)

From Stdlib Require Import NArith ZArith Lia.
From Stdlib.Strings Require Import String Byte.
Set Warnings "-notation-overridden,-ambiguous-paths".
From mathcomp Require Import boot ssralg poly order ssrnum ssrint rat.
Set Warnings "notation-overridden,ambiguous-paths".
From S2P Require Import CoconutTypes CoconutScheme CoconutFacts.

Set Implicit Arguments.
Unset Strict Implicit.
Unset Printing Implicit Defensive.

Import GRing.Theory.
Local Open Scope ring_scope.
Local Open Scope coconut_scope.

Section Credentials.
Context {F : fieldType} {G1 G2 : lmodType F} {GT : zmodType}.
Context {bls : Bls (F := F) (G1 := G1) (G2 := G2) (GT := GT)}.

#[local] Abbreviation Parameters := (Parameters G1 G2).
#[local] Abbreviation Polynomial := (Polynomial F).
#[local] Abbreviation KeyPair := (KeyPair F G1 G2).

(** ** Shares of signatures *)

Lemma recovers_exponent ids v ws attributes : distinct_points ids -> enough ids (v :: ws) ->
  recovers ids (fun x => exponent (share v ws x) attributes).
Proof.
move=> inj en; apply: recovers_add; first by apply: weights_recover => //; apply: en; left.
have {en} : forall w, List.In w ws -> recovers ids (evaluate w).
  by move=> w inw; apply: weights_recover => //; apply: en; right.
rw /share /=; elim: attributes ws => [|a attributes IH] ws rec.
  by apply: recovers_ext (recovers_zero ids) => x; rw dot_nil.
case: ws rec => [|w ws] rec; first by apply: recovers_ext (recovers_zero ids) => x; rw dot_nilr.
apply: (@recovers_ext _ _ _ _ _ _ (fun x => a * evaluate w x + dot attributes [seq evaluate w x | w <- ws])).
  by move=> x; rw /dot /= big_cons.
apply: recovers_add; first by apply: recovers_scale; apply: rec; left.
by apply: IH => u inu; apply: rec; right.
Qed.

(** The signatures of large enough groups are the signature of the shared secrets. *)
Lemma signatures_aggregate ids v ws attributes (h : G1) :
  distinct_points ids -> uniq ids -> ~~ nilp ids -> enough ids (v :: ws) ->
  aggregate_partial_signatures
    [seq signature_on (share v ws (scalar_from id)) attributes h | id <- ids] (Some ids)
  = Ok (signature_on (share v ws 0) attributes h).
Proof.
move=> inj un ne en.
have := interpolate_points h inj ne (recovers_exponent attributes inj en).
case: ids inj un ne en => [//|id0 ids] inj un _ en agg.
pose sigs := [seq signature_on (share v ws (scalar_from (Bls := bls) id)) attributes h | id <- id0 :: ids].
rw -[LHS]/(let? s := aggregate [seq sig2 s | s <- sigs] (Some (id0 :: ids)) in Ok (MkSignature h s)).
rw -map_comp /aggregate check_unique_indicesE un.
by rw [perform_lagrangian_interpolation_at_origin _ _]agg.
Qed.

(** ** The keys of the trusted third party *)

(** The polynomials [ttp_keygen] draws. *)
Definition secret_v (threshold : N) (rng_v : nat -> F) : Polynomial := new_random rng_v (threshold - 1).
Definition secret_ws (params : Parameters) (threshold : N) (rng_w : nat -> nat -> F) : seq Polynomial :=
  [seq new_random (rng_w j) (threshold - 1) | j <- iota 0 (size (gen_hs params))].

(** The keys of one signer. *)
Definition signer (params : Parameters) (v : Polynomial) (ws : seq Polynomial) (id : N) : KeyPair :=
  let sk := share v ws (scalar_from id) in
  {| secret_key := sk; verification_key := derive_verification_key params sk; kp_index := Some id |}.

(** The secrets that no signer has, the constant terms of the polynomials. *)
Definition shared_secrets (params : Parameters) (rng_v : nat -> F) (rng_w : nat -> nat -> F) : SecretKey F :=
  {| sk_x := rng_v 0%N; sk_ys := [seq rng_w j 0%N | j <- iota 0 (size (gen_hs params))] |}.

Lemma ttp_keygen_Ok params threshold n rng_v rng_w keypairs :
  ttp_keygen params threshold n rng_v rng_w = Ok keypairs ->
  keypairs = [seq signer params (secret_v threshold rng_v) (secret_ws params threshold rng_w) id
               | id <- polynomial_indices n]
  /\ (threshold <> 0)%num.
Proof.
rw /ttp_keygen; case: N.eqb_spec => // t0; case: N.ltb_spec => // tn -[<-]; split=> //.
by rw zip_self -map_comp zip_mapl -map_comp.
Qed.

Lemma ttp_keygen_total params threshold n rng_v rng_w : (threshold <> 0)%num -> (threshold <= n)%num ->
  ttp_keygen params threshold n rng_v rng_w
  = Ok [seq signer params (secret_v threshold rng_v) (secret_ws params threshold rng_w) id
         | id <- polynomial_indices n].
Proof.
move=> t0 tn; case E : (ttp_keygen params threshold n rng_v rng_w) => [keypairs| |].
- by have [-> _] := ttp_keygen_Ok E.
- by move: E; rw /ttp_keygen; case: N.eqb_spec => //; case: N.ltb_spec => //; lia.
- by move: E; rw /ttp_keygen; case: N.eqb_spec => //; case: N.ltb_spec => //; lia.
Qed.

(** [signers] are signers of [keypairs] with the different indices [ids], in any order. *)
Definition signers_of (keypairs signers : seq KeyPair) (ids : seq N) : Prop :=
  [/\ uniq ids, [seq kp_index kp | kp <- signers] = [seq Some id | id <- ids]
    & forall kp, List.In kp signers -> List.In kp keypairs].

Lemma signers_ofE params v ws n signers ids :
  signers_of [seq signer params v ws id | id <- polynomial_indices n] signers ids ->
  signers = [seq signer params v ws id | id <- ids] /\ {subset ids <= polynomial_indices n}.
Proof.
case=> _; elim: ids signers => [|id ids IH] [|kp signers] //= [kid idsE] sub.
have [] := IH signers idsE; first by move=> k ink; apply: sub; right.
move=> -> subids; have /List.in_map_iff [id' [kpE /In_mem inid]] := sub kp (or_introl erefl).
move: kid; rw -kpE => -[<-]; split=> // i; rw inE => /orP [/eqP -> //|/subids //].
Qed.

Lemma shareE params threshold rng_v rng_w : (threshold <> 0)%num ->
  share (secret_v threshold rng_v) (secret_ws params threshold rng_w) 0 = shared_secrets params rng_v rng_w.
Proof.
move=> t0; have first rng : evaluate (new_random rng (threshold - 1)) 0 = rng 0%N.
  rw /evaluate /new_random /= N.add_1_r N2Nat.inj_succ /= eqxx //.
by rw /share /shared_secrets first /secret_ws -map_comp; congr MkSecretKey; apply: eq_map => j /=.
Qed.

Lemma mem_polynomial_indices id n : id \in polynomial_indices n -> (id <= n)%num.
Proof.
case/mapP => i; rw mem_iota add1n ltnS => /andP [_ lein] ->; move/leP: lein => lein.
lia.
Qed.

Context {laws : BlsLaws bls}.

Lemma distinct_indices n ids : (n < 2 ^ 64)%num -> uniq ids -> {subset ids <= polynomial_indices n} ->
  distinct_points ids.
Proof.
move=> n64 un sub i j; rw !inE => ilt jlt e; apply/eqP; rw -(nth_uniq 0%num ilt jlt un); apply/eqP.
have small k : (k < size ids)%N -> (nth 0 ids k < 2 ^ 64)%num.
  by move=> klt; apply: N.le_lt_trans n64; apply: mem_polynomial_indices; apply: sub; apply: mem_nth.
by apply: scalar_from_inj e; apply: small.
Qed.

(** What a large enough group of signers has in common. *)
Lemma group_of_signers params threshold n rng_v rng_w keypairs signers ids :
  ttp_keygen params threshold n rng_v rng_w = Ok keypairs -> (n < 2 ^ 64)%num ->
  signers_of keypairs signers ids -> (threshold <= N.of_nat (size ids))%num ->
  let v := secret_v threshold rng_v in
  let ws := secret_ws params threshold rng_w in
  [/\ signers = [seq signer params v ws id | id <- ids], distinct_points ids, uniq ids, ~~ nilp ids
    & enough ids (v :: ws)] /\ share v ws 0 = shared_secrets params rng_v rng_w.
Proof.
move=> /ttp_keygen_Ok [-> t0] n64 sg large v ws; split; last exact: shareE.
have [un _ _] := sg; have [-> sub] := signers_ofE sg.
have pos : (0 < size ids)%N.
  by apply/ltP; move: t0 large; lia.
split=> //; [exact: distinct_indices n64 un sub | by rw /nilp -lt0n |].
have szp rng : (size (coefficients (new_random rng (threshold - 1))) <= size ids)%N.
  by rw size_n_random_scalars; apply/leP; move: t0 large; lia.
by move=> p [<-|/List.in_map_iff [j [<- _]]]; apply: szp.
Qed.

(** The key of a group of signers. *)
Lemma group_key params threshold n rng_v rng_w keypairs signers ids :
  ttp_keygen params threshold n rng_v rng_w = Ok keypairs -> (n < 2 ^ 64)%num ->
  signers_of keypairs signers ids -> (threshold <= N.of_nat (size ids))%num ->
  aggregate_verification_keys [seq verification_key kp | kp <- signers] (Some ids)
  = Ok (derive_verification_key params (shared_secrets params rng_v rng_w)).
Proof.
move=> gen n64 sg large; have [[-> inj un ne en] <-] := group_of_signers gen n64 sg large.
by rw -map_comp; apply: keys_aggregate.
Qed.

(** The parameters of [setup] have the generator of the pairing's laws. *)
Lemma setup_gen2 num params : setup num = Ok params -> gen2 params = generator2.
Proof. by rw /setup; case: N.eqb => // -[<-]. Qed.

(** *** The issuance with a group of signers *)

Section Issuance.
Variables (num : N) (params : Parameters) (private public : seq F) (rng : blind_sign_randomness (F := F)).
Variables (os : seq F) (request : BlindSignRequest F G1).
Hypothesis setup_Ok : setup num = Ok params.
Hypothesis prepared : prepare_blind_sign params private public rng = Ok (os, request).
Variables (v : Polynomial) (ws : seq Polynomial) (ids : seq N).
Hypothesis size_ws : size ws = size (gen_hs params).

#[local] Abbreviation secret id := (share v ws (scalar_from (Bls := bls) id)).
#[local] Abbreviation signers := [seq signer params v ws id | id <- ids].

(** The signature of a signer on the request. *)
Definition blinded_by (id : N) : BlindedSignature G1 :=
  {| bs_h := commitment_hash request;
     bs_c := blind_signature_on (secret id) (private_attributes_commitments request) public
               (commitment_hash request) |}.

Lemma everyone_signs :
  mapM (fun kp => blind_sign params (secret_key kp) request public) signers = Ok [seq blinded_by id | id <- ids].
Proof.
elim: (ids) => [//|id s IH]; rw map_cons /= IH.
by have [-> _ _] := issuance (setup_gen2 setup_Ok) prepared (sk := secret id) (etrans (size_map _ _) size_ws).
Qed.

(** Every signature passes the checks and unblinds to the signature on the attributes. *)
Lemma everyone_is_checked :
  mapM (fun isk =>
    let? s := unwrap (unblind_and_verify isk.2.1 params isk.2.2 private public (commitment_hash request) os) in
    Ok (isk.1, s))
    (zip ids (zip [seq blinded_by id | id <- ids] [seq verification_key kp | kp <- signers]))
  = Ok [seq (id, signature_on (secret id) (private ++ public) (commitment_hash request)) | id <- ids].
Proof.
rw -map_comp zip_self; elim: (ids) => [//|id s IH]; rw /= IH.
have [_ _] := issuance (setup_gen2 setup_Ok) prepared (sk := secret id) (etrans (size_map _ _) size_ws).
by move=> ->.
Qed.

Hypothesis ids_distinct : distinct_points ids.
Hypothesis ids_uniq : uniq ids.
Hypothesis ids_nonempty : ~~ nilp ids.
Hypothesis ids_enough : enough ids (v :: ws).

(** The shares add up to the signature of the group. *)
Lemma shares_add_up :
  aggregate_signature_shares params (derive_verification_key params (share v ws 0)) (private ++ public)
    [seq {| share_signature := is_.2; share_index := is_.1 |}
      | is_ <- [seq (id, signature_on (secret id) (private ++ public) (commitment_hash request)) | id <- ids]]
  = Ok (signature_on (share v ws 0) (private ++ public) (commitment_hash request)).
Proof.
rw /aggregate_signature_shares -!map_comp map_id /aggregate_signatures signatures_aggregate //=.
by rw (setup_gen2 setup_Ok) sum_multiples -scalerDl check_exponent eqxx.
Qed.

End Issuance.

(** ** Properties *)

(** C19: every group of at least [threshold] signers has the same verification key,
    the one of the secrets that the trusted third party shared between them,
    whichever signers are in it and in whichever order. *)
Theorem threshold_keys_agree params threshold n rng_v rng_w keypairs signers ids :
  ttp_keygen params threshold n rng_v rng_w = Ok keypairs -> (n < 2 ^ 64)%num ->
  signers_of keypairs signers ids -> (threshold <= N.of_nat (size ids))%num ->
  aggregate_verification_keys [seq verification_key kp | kp <- signers] (Some ids)
  = Ok (derive_verification_key params (shared_secrets params rng_v rng_w)).
Proof.
exact: group_key.
Qed.

(** C5: a client gets a credential from any group of at least [threshold] signers and
    shows it: issuance, the checks of the partial signatures, aggregation and
    showing succeed, and the verifier, whose key comes from any other large
    enough group, accepts the credential for its serial number.  The hash of the
    commitment and the client's blinding factor are not zero. *)
Theorem threshold_credential_is_accepted num params threshold n rng_v rng_w keypairs
    signers ids verifiers vids serial binding public rng rng' :
  setup num = Ok params ->
  ttp_keygen params threshold n rng_v rng_w = Ok keypairs -> (n < 2 ^ 64)%num ->
  signers_of keypairs signers ids -> (threshold <= N.of_nat (size ids))%num ->
  signers_of keypairs verifiers vids -> (threshold <= N.of_nat (size vids))%num ->
  (size public + 2 <= size (gen_hs params))%N ->
  compute_hash (compute_attributes_commitment params [:: serial; binding] public (gen_hs params)
                  (opening rng)).2 public != 0 ->
  blinding_r_prime rng' != 0 ->
  exists vk theta,
    [/\ aggregate_verification_keys [seq verification_key kp | kp <- verifiers] (Some vids) = Ok vk,
        theta_from_keys_and_attributes params signers ids public serial binding rng rng' = Ok theta,
        blinded_serial_number theta = serial *: gen2 params
      & verify_credential params vk theta public].
Proof.
move=> st gen n64 sg large vg vlarge szs hne rne.
have [[sE inj un ne en] secretsE] := group_of_signers gen n64 sg large.
have [|os [request [[prep _ cmE hE _] _]]] :=
  prepare_blind_sign_Ok (params := params) (private := [:: serial; binding]) (public := public) rng isT.
  by rw addnC.
have szw : size (secret_ws params threshold rng_w) = size (gen_hs params) by rw size_map size_iota.
have [||theta [proved serialE accepted]] := showing (setup_gen2 st) (sk := shared_secrets params rng_v rng_w)
  serial binding (public := public) (h := commitment_hash request) _ _ rne.
- by rw size_map size_iota.
- by rw hE cmE.
exists (derive_verification_key params (shared_secrets params rng_v rng_w)), theta; split=> //.
  exact: group_key gen n64 vg vlarge.
rw /theta_from_keys_and_attributes prep /= (group_key gen n64 sg large) /= sE.
rw (everyone_signs st prep _ _ szw) /= (everyone_is_checked st prep _ _ szw) /= -secretsE.
by rw -[serial :: _]/([:: serial; binding] ++ public) (shares_add_up _ _ _ st) //= secretsE.
Qed.

(** C23: a signature verifies under the key of a signer exactly if it is the signature
    of the signer's secrets on the attributes, over the hash of the commitment. *)
Theorem signature_verifies_exactly num params (s : Signature G1) sk private public h :
  setup num = Ok params ->
  signature_verify s params (derive_verification_key params sk) private public h = Ok tt
  <-> s = signature_on sk (private ++ public) h.
Proof. by move=> st; apply: signature_verify_iff; apply: setup_gen2 st. Qed.

(** ** Requests whose proof does not cover the commitments *)

(** The same request again, with one commitment changed and no openings in the proof. *)
Definition second_request (params : Parameters) private public (rng : blind_sign_randomness (F := F))
    (request : BlindSignRequest F G1) : BlindSignRequest F G1 :=
  let cs := match private_attributes_commitments request with
            | [::] => [::]
            | c :: cs => c + commitment_hash request :: cs
            end in
  {| commitment := commitment request; commitment_hash := commitment_hash request;
     private_attributes_commitments := cs;
     pi_s := proof_cm_cs_construct params (commitment request) (opening rng) cs [::] private public
               (witness_opening rng) (witness_openings rng) (witness_attributes rng) |}.

(** A signature on another serial number, from the signatures on both requests. *)
Definition forged_signature (vk : VerificationKey G1 G2) (os : seq F) (serial serial' : F)
    (first second : BlindedSignature G1) : Signature G1 :=
  {| sig1 := bs_h first;
     sig2 := bs_c first - sum [seq bo.2 *: bo.1 | bo <- zip (beta_g1 vk) os]
             + (serial' - serial) *: (bs_c second - bs_c first) |}.

(** A proof without openings says nothing about the commitments. *)
Lemma any_commitments_accepted params private public opening w rng_o rng_m (cs : seq G1) :
  size cs = size private ->
  let cm := (compute_attributes_commitment params private public (gen_hs params) opening).2 in
  proof_cm_cs_verify (proof_cm_cs_construct params cm opening cs [::] private public w rng_o rng_m)
    params cm cs public.
Proof. by move=> szs; apply: cm_cs_complete => // t; case: (cs) private {szs} => [|c s] [|m ms]. Qed.

(** Changing the first commitment by the hash changes the signature by the first secret. *)
Lemma signature_difference sk (c h : G1) cs public y ys : sk_ys sk = y :: ys ->
  blind_signature_on sk (c + h :: cs) public h - blind_signature_on sk (c :: cs) public h = y *: h.
Proof.
move=> e; rw /blind_signature_on e /= !big_cons /= scalerDr.
have moved (V : zmodType) (a b s r : V) : a + b + s + r - (a + s + r) = b.
  by apply/eqP; rw subr_eq (addrC a b) -!addrA.
exact: moved.
Qed.

Lemma forged_signatureE params sk (g h : G1) os serial serial' binding public c cs y ys :
  size os = 2 -> sk_ys sk = y :: ys -> gen1 params = g ->
  c :: cs = [seq om.1 *: g + om.2 *: h | om <- zip os [:: serial; binding]] ->
  forged_signature (derive_verification_key params sk) os serial serial'
    {| bs_h := h; bs_c := blind_signature_on sk (c :: cs) public h |}
    {| bs_h := h; bs_c := blind_signature_on sk (c + h :: cs) public h |}
  = signature_on sk (serial' :: binding :: public) h.
Proof.
move=> szo yE gE csE; rw /forged_signature [bs_c _]/= [bs_c _]/= (signature_difference _ _ _ _ yE).
rw csE [bs_h _]/= sum_multiples_swap gE blind_signature_opened //.
rw (addrC (_ *: g)) addrK scalerA -scalerDl /signature_on /exponent yE /dot /= !big_cons /=.
by congr (MkSignature _ (_ *: _)); rw mulrBl -addrA; congr (_ + _); rw addrC addrA subrK.
Qed.

(** C17: the verifier of a request's proof accepts a proof without responses for the
    openings, so that the signer signs commitments the proof does not speak of.
    A client with two signatures on one commitment makes credentials for every
    serial number, all of which are accepted. *)
Theorem two_signatures_make_any_credential num params sk serial binding public rng rng' os request :
  setup num = Ok params -> size (sk_ys sk) = size (gen_hs params) ->
  prepare_blind_sign params [:: serial; binding] public rng = Ok (os, request) ->
  commitment_hash request != 0 -> blinding_r_prime rng' != 0 ->
  let vk := derive_verification_key params sk in
  exists first second,
    [/\ blind_sign params sk request public = Ok first,
        blind_sign params sk (second_request params [:: serial; binding] public rng request) public = Ok second
      & forall serial', exists theta,
          [/\ prove_bandwidth_credential params vk (forged_signature vk os serial serial' first second)
                serial' binding rng' = Ok theta,
              blinded_serial_number theta = serial' *: gen2 params
            & verify_credential params vk theta public]].
Proof.
move=> st szy prep hne rne vk.
have [first_Ok _ _] := issuance (setup_gen2 st) prep szy.
have szs : (2 + size public <= size (gen_hs params))%N by move: prep; rw /prepare_blind_sign; case: ltnP.
have [//|//|os' [request' [[prep' szo cmE hE csE] _]]] :=
  prepare_blind_sign_Ok (params := params) (private := [:: serial; binding]) (public := public) rng.
move: prep; rw prep' => -[? ?]; subst os' request'.
have szc : size (private_attributes_commitments request) = 2 by rw csE size_map size_zip szo.
case cE : (private_attributes_commitments request) szc first_Ok => [//|c cs] szc first_Ok.
case yE : (sk_ys sk) szy => [|y ys] szy; first by move: szs; rw -szy.
eexists; exists {| bs_h := commitment_hash request;
  bs_c := blind_signature_on sk (c + commitment_hash request :: cs) public (commitment_hash request) |}.
split; first exact: first_Ok.
  rw blind_sign_accepts /= ?cE //; first by move: szc => /= ->.
  by rw /request_verify_proof /= cE cmE; apply: any_commitments_accepted.
move=> serial'; rw (@forged_signatureE params sk (gen1 params) (commitment_hash request) os serial serial' binding public c cs y ys szo yE erefl) //.
  by rw -csE.
by apply: showing => //; [exact: setup_gen2 st | rw yE szy addnC].
Qed.

End Credentials.

(** ** Curves over the rational numbers *)

(** The groups are the rationals, the pairing is their product; three signers, two
    of whom sign together, and two attributes. *)
Module RationalCurves.

Definition rat_pairing (p q : rat^o) : rat := (p : rat) * (q : rat).

#[local] Instance rat_bls : Bls (F := rat) (G1 := rat^o) (G2 := rat^o) (GT := rat) :=
  {| scalar_from n := (N.to_nat n)%:R;
     generator1 := 1;
     generator2 := 1;
     pairing_product (ts : seq (rat^o * rat^o)) := \sum_(t <- ts) rat_pairing t.1 t.2;
     scalar_bytes _ := [::];
     g1_bytes _ := [::];
     g2_bytes _ := [::];
     hash_to_curve _ _ := 1;
     hash_to_field _ _ := 1;
     sha256 m := m;
     scalar_from_bytes_wide _ := 1 |}.

#[local] Instance rat_laws : BlsLaws rat_bls.
Proof.
refine {| pairing := rat_pairing |} => //=; rw /rat_pairing.
- by move=> p p' q; rw mulrDl.
- by move=> p q q'; rw mulrDr.
- by move=> a p q; rw /GRing.scale /= -mulrA mulrCA.
- by move=> p; rw mulr1.
- by move=> m n _ _ /eqP; rw Num.Theory.eqr_nat => /eqP; apply: N2Nat.inj.
Defined.

Definition params : Parameters rat^o rat^o := {| gen1 := 1; gen_hs := [:: 1; 1]; gen2 := 1 |}.
Definition rng_v (i : nat) : rat := i.+3%:R.
Definition rng_w (j i : nat) : rat := (i + j)%:R.
Definition keypair : N -> KeyPair rat rat^o rat^o := signer params (secret_v 2 rng_v) (secret_ws params 2 rng_w).
Definition keypairs : seq (KeyPair rat rat^o rat^o) := [seq keypair id | id <- polynomial_indices 3].
Definition ids : seq N := [:: 3; 1]%num.
Definition signers : seq (KeyPair rat rat^o rat^o) := [seq keypair id | id <- ids].
Definition rng : blind_sign_randomness (F := rat) :=
  {| opening := 1; pedersen_openings i := i%:R; witness_opening := 1; witness_openings i := i%:R;
     witness_attributes i := i%:R |}.
Definition rng' : prove_randomness (F := rat) :=
  {| blinding_r := 1; blinding_r_prime := 1; witness_blinder := 1; witness_serial_number := 1;
     witness_binding_number := 1 |}.

Lemma setup_Ok : setup 2 = Ok params.
Proof. by []. Qed.

Lemma keygen_Ok : ttp_keygen params 2 3 rng_v rng_w = Ok keypairs.
Proof. by rw ttp_keygen_total. Qed.

Lemma signers_Ok : signers_of keypairs signers ids.
Proof. by split=> // kp [<-|[<-|[]]]; [do 2 right; left | left]. Qed.

Lemma threshold_keys_agree_witness :
  aggregate_verification_keys [seq verification_key kp | kp <- signers] (Some ids)
  = Ok (derive_verification_key params (shared_secrets params rng_v rng_w)).
Proof. by apply: (threshold_keys_agree keygen_Ok _ signers_Ok). Defined.

Lemma threshold_credential_is_accepted_witness :
  exists vk theta,
    [/\ aggregate_verification_keys [seq verification_key kp | kp <- signers] (Some ids) = Ok vk,
        theta_from_keys_and_attributes params signers ids [::] 5%:R 7%:R rng rng' = Ok theta,
        blinded_serial_number theta = 5%:R *: gen2 params
      & verify_credential params vk theta [::]].
Proof.
by apply: (threshold_credential_is_accepted (num := 2%num) (n := 3%num) (threshold := 2%num)
  setup_Ok keygen_Ok _ signers_Ok _ signers_Ok).
Defined.

Definition secrets : SecretKey rat := {| sk_x := 2%:R; sk_ys := [:: 3%:R; 4%:R] |}.

Lemma signature_verifies_exactly_witness :
  signature_verify (signature_on secrets [:: 5%:R; 7%:R] (1 : rat^o)) params
    (derive_verification_key params secrets) [:: 5%:R; 7%:R] [::] 1 = Ok tt.
Proof. by apply/(signature_verifies_exactly (num := 2%num)). Defined.

(** The request of a client, and the openings of its commitments. *)
Definition openings : seq rat := n_random_scalars (pedersen_openings rng) 2.
Definition request : BlindSignRequest rat rat^o :=
  match prepare_blind_sign params [:: 5%:R; 7%:R] [::] rng with
  | Ok r => r.2
  | _ => {| commitment := 0; commitment_hash := 0; private_attributes_commitments := [::];
            pi_s := {| cs_challenge := 0; response_opening := 0; response_openings := [::];
                       response_attributes := [::] |} |}
  end.

Lemma two_signatures_make_any_credential_witness :
  exists first second,
    [/\ blind_sign params secrets request [::] = Ok first,
        blind_sign params secrets (second_request params [:: 5%:R; 7%:R] [::] rng request) [::] = Ok second
      & forall serial', exists theta,
          [/\ prove_bandwidth_credential params (derive_verification_key params secrets)
                (forged_signature (derive_verification_key params secrets) openings 5%:R serial' first second)
                serial' 7%:R rng' = Ok theta,
              blinded_serial_number theta = serial' *: gen2 params
            & verify_credential params (derive_verification_key params secrets) theta [::]]].
Proof. by apply: (two_signatures_make_any_credential (num := 2%num) (rng := rng)). Defined.

End RationalCurves.
