(* ===== verification/CoconutCodecs.v ===== *)
(** * Byte encodings of the Coconut credentials

    [to_bytes] and [try_from] of the keys, requests, proofs and signatures of
    [src/common/nymcoconut/src].  The encodings of scalars and points are those
    of the crate [bls12_381], the class [PointCodec] with the laws
    [PointCodecLaws].  [usize] has 64 bits and its arithmetic is checked, as in
    the release profile of the workspace. *)

From Stdlib.Strings Require Import String Byte.
From S2P Require Import Prelude Bytes CoconutTypes.

(** ** Scalars and points *)

(** [Scalar::to_bytes], [Scalar::from_bytes] and [to_compressed],
    [from_compressed] of the two groups. *)
Class PointCodec (Scalar G1 G2 : Type) : Type := {
  scalar_to_bytes : Scalar -> list byte;
  scalar_from_bytes : list byte -> option Scalar;
  g1_to_compressed : G1 -> list byte;
  g1_from_compressed : list byte -> option G1;
  g2_to_compressed : G2 -> list byte;
  g2_from_compressed : list byte -> option G2;
}.

(** Encodings have 32, 48 and 96 bytes and are read back. *)
Class PointCodecLaws {Scalar G1 G2} (codec : PointCodec Scalar G1 G2) : Prop := {
  len_scalar_to_bytes : forall s, len (scalar_to_bytes s) = 32;
  len_g1_to_compressed : forall p, len (g1_to_compressed p) = 48;
  len_g2_to_compressed : forall p, len (g2_to_compressed p) = 96;
  scalar_from_to_bytes : forall s, scalar_from_bytes (scalar_to_bytes s) = Some s;
  g1_from_to_compressed : forall p, g1_from_compressed (g1_to_compressed p) = Some p;
  g2_from_to_compressed : forall p, g2_from_compressed (g2_to_compressed p) = Some p;
}.

(** ** Machine integers *)

Definition u64_to_le_bytes (z : Z) : list byte := rev (be_encode 8 z).
Definition u64_from_le_bytes (b : list byte) : Z := be_decode (rev b).

(** [usize] arithmetic with overflow checks. *)
Definition usize_sub {E} (a b : Z) : outcome E Z := if b <=? a then Ok (a - b) else Panic Overflow.
Definition usize_add {E} (a b : Z) : outcome E Z := if a + b <=? u64_max then Ok (a + b) else Panic Overflow.
Definition usize_mul {E} (a b : Z) : outcome E Z := if a * b <=? u64_max then Ok (a * b) else Panic Overflow.

Section Codecs.
Context {Scalar G1 G2 : Type} {codec : PointCodec Scalar G1 G2}.

#[local] Abbreviation result A := (outcome CoconutError A).

(** ** [utils.rs] *)

Definition try_deserialize_scalar (bytes : list byte) (err : CoconutError) : result Scalar :=
  match scalar_from_bytes bytes with Some s => Ok s | None => Err err end.

Definition try_deserialize_g1_projective (bytes : list byte) (err : CoconutError) : result G1 :=
  match g1_from_compressed bytes with Some p => Ok p | None => Err err end.

Definition try_deserialize_g2_projective (bytes : list byte) (err : CoconutError) : result G2 :=
  match g2_from_compressed bytes with Some p => Ok p | None => Err err end.

Definition try_deserialize_scalar_vec (expected_len : Z) (bytes : list byte) (err : CoconutError)
    : result (list Scalar) :=
  let? expected := usize_mul expected_len 32 in
  if negb (len bytes =? expected) then Err err
  else
    mapM_outcome (fun i =>
      let? s_bytes := slice bytes (i * 32) ((i + 1) * 32) in
      match scalar_from_bytes s_bytes with None => Err err | Some s => Ok s end) (zrange 0 expected_len).

(** ** [traits.rs] *)

(** [Bytable for Scalar] and [Bytable for G1Projective]. *)
Definition scalar_try_from_byte_slice (bytes : list byte) : result Scalar :=
  if negb (len bytes =? 32) then Err (UnexpectedArrayLength "Scalar" (len bytes) 32)
  else match scalar_from_bytes bytes with
       | None => Err ScalarDeserializationFailure
       | Some s => Ok s
       end.

Definition g1_try_from_byte_slice (bytes : list byte) : result G1 :=
  if negb (len bytes =? 48) then Err (UnexpectedArrayLength "G1Projective" (len bytes) 48)
  else match g1_from_compressed bytes with
       | None => Err G1ProjectiveDeserializationFailure
       | Some p => Ok p
       end.

(** ** [keygen.rs] *)

(** [SecretKey::to_bytes]. *)
Definition secret_key_to_bytes (sk : SecretKey Scalar) : list byte :=
  scalar_to_bytes (sk_x sk) ++ u64_to_le_bytes (len (sk_ys sk)) ++ concat (scalar_to_bytes <$> sk_ys sk).

(** [TryFrom<&[u8]> for SecretKey]. *)
Definition secret_key_try_from (bytes : list byte) : result (SecretKey Scalar) :=
  if (len bytes <? 32 * 2 + 8) || negb ((len bytes - 8) mod 32 =? 0) then
    let? modulus_target := usize_sub (len bytes) 8 in
    Err (DeserializationInvalidLength (len bytes) (32 * 2 + 8) modulus_target 32 "secret key")
  else
    let? x_bytes := slice bytes 0 32 in
    let? ys_len_bytes := slice bytes 32 40 in
    let ys_len := u64_from_le_bytes ys_len_bytes in
    let actual_ys_len := (len bytes - 40) / 32 in
    if negb (ys_len =? actual_ys_len) then
      Err (Deserialization "Tried to deserialize secret key with inconsistent ys len")
    else
      let? x := try_deserialize_scalar x_bytes (Deserialization "Failed to deserialize secret key scalar") in
      let? ys_bytes := slice bytes 40 (len bytes) in
      let? ys := try_deserialize_scalar_vec ys_len ys_bytes
                   (Deserialization "Failed to deserialize secret key scalars") in
      Ok {| sk_x := x; sk_ys := ys |}.

(** [VerificationKey::to_bytes]. *)
Definition verification_key_to_bytes (vk : VerificationKey G1 G2) : list byte :=
  g2_to_compressed (alpha vk) ++ u64_to_le_bytes (len (beta_g1 vk))
  ++ concat (g1_to_compressed <$> beta_g1 vk) ++ concat (g2_to_compressed <$> beta_g2 vk).

(** [TryFrom<&[u8]> for VerificationKey]. *)
Definition verification_key_try_from (bytes : list byte) : result (VerificationKey G1 G2) :=
  if (len bytes <? 96 * 2 + 48 + 8) || negb ((len bytes - 8 - 96) mod (96 + 48) =? 0) then
    let? without_len := usize_sub (len bytes) 8 in
    let? modulus_target := usize_sub without_len 96 in
    Err (DeserializationInvalidLength (len bytes) (96 * 2 + 48 + 8) modulus_target (96 + 48) "verification key")
  else
    let? alpha_bytes := slice bytes 0 96 in
    let? betas_len_bytes := slice bytes 96 104 in
    let betas_len := u64_from_le_bytes betas_len_bytes in
    let actual_betas_len := (len bytes - 104) / (96 + 48) in
    if negb (betas_len =? actual_betas_len) then
      Err (Deserialization "Tried to deserialize verification key with inconsistent betas len")
    else
      let? alpha := try_deserialize_g2_projective alpha_bytes
                      (Deserialization "Failed to deserialize verification key G2 point (alpha)") in
      let? beta_g1 := mapM_outcome (fun i =>
        let? beta_i_bytes := slice bytes (104 + i * 48) (104 + i * 48 + 48) in
        try_deserialize_g1_projective beta_i_bytes
          (Deserialization "Failed to deserialize verification key G1 point (beta)")) (zrange 0 betas_len) in
      let beta_g1_end := if betas_len =? 0 then 0 else 104 + betas_len * 48 in
      let? beta_g2 := mapM_outcome (fun i =>
        let? beta_i_bytes := slice bytes (beta_g1_end + i * 96) (beta_g1_end + i * 96 + 96) in
        try_deserialize_g2_projective beta_i_bytes
          (Deserialization "Failed to deserialize verification key G2 point (beta)")) (zrange 0 betas_len) in
      Ok {| alpha := alpha; beta_g1 := beta_g1; beta_g2 := beta_g2 |}.

(** [KeyPair::MARKER_BYTES]. *)
Definition MARKER_BYTES : list byte := list_byte_of_string "coconutkeypair".

(** [KeyPair::to_byte_vec]. *)
Definition key_pair_to_bytes (kp : KeyPair Scalar G1 G2) : list byte :=
  let secret_key_bytes := secret_key_to_bytes (secret_key kp) in
  let verification_key_bytes := verification_key_to_bytes (verification_key kp) in
  MARKER_BYTES ++ u64_to_le_bytes (len secret_key_bytes) ++ secret_key_bytes
  ++ u64_to_le_bytes (len verification_key_bytes) ++ verification_key_bytes
  ++ match kp_index kp with Some index => u64_to_le_bytes (Z.of_N index) | None => [] end.

(** [TryFrom<&[u8]> for KeyPair].  The index is read under the condition
    [[consumed_bytes..].len() == 8], the length of an array with one range in it. *)
Definition key_pair_try_from (bytes : list byte) : result (KeyPair Scalar G1 G2) :=
  let header_len := len MARKER_BYTES in
  if len bytes <? header_len + 8 then Err (DeserializationMinLength (header_len + 8) (len bytes))
  else
    let? secret_key_len_bytes := slice bytes header_len (header_len + 8) in
    let secret_key_len := u64_from_le_bytes secret_key_len_bytes in
    let secret_key_start := header_len + 8 in
    let? secret_key_end := usize_add secret_key_start secret_key_len in
    let? secret_key_bytes := slice bytes secret_key_start secret_key_end in
    let? secret_key := secret_key_try_from secret_key_bytes in
    let? min := usize_add secret_key_end 8 in
    if len bytes <? min then Err (DeserializationMinLength min (len bytes))
    else
      let? verification_key_len_bytes := slice bytes secret_key_end min in
      let verification_key_len := u64_from_le_bytes verification_key_len_bytes in
      let verification_key_start := min in
      let? consumed_bytes := usize_add verification_key_start verification_key_len in
      let? verification_key_bytes := slice bytes verification_key_start consumed_bytes in
      let? verification_key := verification_key_try_from verification_key_bytes in
      let range_array_len := 1 in
      let? index :=
        if (consumed_bytes <? len bytes) && (range_array_len =? 8) then
          let? index_end := usize_add consumed_bytes 8 in
          let? index_bytes := slice bytes consumed_bytes index_end in
          Ok (Some (Z.to_N (u64_from_le_bytes index_bytes)))
        else Ok None in
      Ok {| secret_key := secret_key; verification_key := verification_key; kp_index := index |}.

(** ** [proofs/mod.rs] *)

(** [ProofCmCs::to_bytes]. *)
Definition proof_cm_cs_to_bytes (p : ProofCmCs Scalar) : list byte :=
  scalar_to_bytes (cs_challenge p) ++ scalar_to_bytes (response_opening p)
  ++ u64_to_le_bytes (len (response_openings p)) ++ concat (scalar_to_bytes <$> response_openings p)
  ++ u64_to_le_bytes (len (response_attributes p)) ++ concat (scalar_to_bytes <$> response_attributes p).

(** [ProofCmCs::from_bytes]. *)
Definition proof_cm_cs_from_bytes (bytes : list byte) : result (ProofCmCs Scalar) :=
  if (len bytes <? 32 * 4 + 16) || negb ((len bytes - 16) mod 32 =? 0) then
    Err (Deserialization "tried to deserialize proof of commitments with bytes of invalid length")
  else
    let? challenge_bytes := slice bytes 0 32 in
    let? response_opening_bytes := slice bytes 32 64 in
    let? challenge := try_deserialize_scalar challenge_bytes
                        (Deserialization "Failed to deserialize challenge") in
    let? response_opening := try_deserialize_scalar response_opening_bytes
                               (Deserialization "Failed to deserialize the response to the random") in
    let? ro_len_bytes := slice bytes 64 72 in
    let ro_len := u64_from_le_bytes ro_len_bytes in
    let? ro_size := usize_mul ro_len 32 in
    let? needed := usize_add ro_size 8 in
    if len bytes - 72 <? needed then
      Err (Deserialization "tried to deserialize proof of ciphertexts and commitment with insufficient number of bytes provided")
    else
      let ro_end := 72 + ro_size in
      let? ro_bytes := slice bytes 72 ro_end in
      let? response_openings := try_deserialize_scalar_vec ro_len ro_bytes
                                  (Deserialization "Failed to deserialize openings response") in
      let? rm_len_bytes := slice bytes ro_end (ro_end + 8) in
      let rm_len := u64_from_le_bytes rm_len_bytes in
      let? rm_bytes := slice bytes (ro_end + 8) (len bytes) in
      let? response_attributes := try_deserialize_scalar_vec rm_len rm_bytes
                                    (Deserialization "Failed to deserialize attributes response") in
      Ok {| cs_challenge := challenge; response_opening := response_opening;
            response_openings := response_openings; response_attributes := response_attributes |}.

(** [ProofKappaZeta::to_bytes]. *)
Definition proof_kappa_zeta_to_bytes (p : ProofKappaZeta Scalar) : list byte :=
  scalar_to_bytes (kz_challenge p) ++ scalar_to_bytes (response_serial_number p)
  ++ scalar_to_bytes (response_binding_number p) ++ scalar_to_bytes (response_blinder p).

(** [ProofKappaZeta::from_bytes]. *)
Definition proof_kappa_zeta_from_bytes (bytes : list byte) : result (ProofKappaZeta Scalar) :=
  if negb (len bytes =? 128) then
    Err (DeserializationInvalidLength (len bytes) (32 * 4) (len bytes) 32 "kappa and zeta")
  else
    let? challenge_bytes := slice bytes 0 32 in
    let? challenge := try_deserialize_scalar challenge_bytes
                        (Deserialization "Failed to deserialize challenge") in
    let? serial_number_bytes := slice bytes 32 64 in
    let? serial_number := try_deserialize_scalar serial_number_bytes
                            (Deserialization "failed to deserialize the serial number") in
    let? binding_number_bytes := slice bytes 64 96 in
    let? binding_number := try_deserialize_scalar binding_number_bytes
                             (Deserialization "failed to deserialize the binding number") in
    let? blinder_bytes := slice bytes 96 (len bytes) in
    let? blinder := try_deserialize_scalar blinder_bytes
                      (Deserialization "failed to deserialize the blinder") in
    Ok {| kz_challenge := challenge; response_serial_number := serial_number;
          response_binding_number := binding_number; response_blinder := blinder |}.

(** ** [scheme/mod.rs], [double_use.rs], [elgamal.rs] *)

(** Two points of the first group, the form of signatures and ciphertexts. *)
Definition two_points_to_bytes (p q : G1) : list byte := g1_to_compressed p ++ g1_to_compressed q.

Definition two_points_try_from (wrong_len wrong_first wrong_second : string) (bytes : list byte) : result (G1 * G1) :=
  if negb (len bytes =? 96) then Err (Deserialization wrong_len)
  else
    let? p_bytes := slice bytes 0 48 in
    let? q_bytes := slice bytes 48 (len bytes) in
    let? p := try_deserialize_g1_projective p_bytes (Deserialization wrong_first) in
    let? q := try_deserialize_g1_projective q_bytes (Deserialization wrong_second) in
    Ok (p, q).

Definition signature_to_bytes (s : Signature G1) : list byte := two_points_to_bytes (sig1 s) (sig2 s).

Definition signature_try_from (bytes : list byte) : result (Signature G1) :=
  let? (p, q) := two_points_try_from "Signature must be exactly 96 bytes"
    "Failed to deserialize compressed sig1" "Failed to deserialize compressed sig2" bytes in
  Ok {| sig1 := p; sig2 := q |}.

Definition blinded_signature_to_bytes (s : BlindedSignature G1) : list byte := two_points_to_bytes (bs_h s) (bs_c s).

Definition blinded_signature_try_from (bytes : list byte) : result (BlindedSignature G1) :=
  let? (p, q) := two_points_try_from "BlindedSignature must be exactly 96 bytes"
    "Failed to deserialize compressed h" "Failed to deserialize compressed sig" bytes in
  Ok {| bs_h := p; bs_c := q |}.

Definition ciphertext_to_bytes (c : Ciphertext G1) : list byte := two_points_to_bytes (c1 c) (c2 c).

Definition ciphertext_try_from (bytes : list byte) : result (Ciphertext G1) :=
  let? (p, q) := two_points_try_from "Ciphertext must be exactly 96 bytes"
    "Failed to deserialize compressed c1" "Failed to deserialize compressed c2" bytes in
  Ok {| c1 := p; c2 := q |}.

(** [TryFrom<&[u8]> for BlindedSerialNumber]. *)
Definition blinded_serial_number_try_from (bytes : list byte) : result G2 :=
  if negb (len bytes =? 96) then
    Err (Deserialization "Tried to deserialize blinded serial number with incorrect number of bytes")
  else try_deserialize_g2_projective bytes (Deserialization "failed to deserialize the blinded serial number (zeta)").

(** ** [issuance.rs] *)

(** [BlindSignRequest::to_byte_vec]. *)
Definition blind_sign_request_to_bytes (r : BlindSignRequest Scalar G1) : list byte :=
  g1_to_compressed (commitment r) ++ g1_to_compressed (commitment_hash r)
  ++ u64_to_le_bytes (len (private_attributes_commitments r))
  ++ concat (g1_to_compressed <$> private_attributes_commitments r) ++ proof_cm_cs_to_bytes (pi_s r).

(** [TryFrom<&[u8]> for BlindSignRequest]. *)
Definition blind_sign_request_try_from (bytes : list byte) : result (BlindSignRequest Scalar G1) :=
  if len bytes <? 48 + 48 + 8 + 48 then Err (DeserializationMinLength (48 + 48 + 8 + 48) (len bytes))
  else
    let? cm_bytes := slice bytes 0 48 in
    let? commitment := try_deserialize_g1_projective cm_bytes
                         (Deserialization "Failed to deserialize compressed commitment") in
    let? cm_hash_bytes := slice bytes 48 96 in
    let? commitment_hash := try_deserialize_g1_projective cm_hash_bytes
                              (Deserialization "Failed to deserialize compressed commitment hash") in
    let? c_len_bytes := slice bytes 96 104 in
    let c_len := u64_from_le_bytes c_len_bytes in
    let j := 104 in
    let? c_size := usize_mul c_len 48 in
    if len bytes - j <? c_size then Err (DeserializationMinLength c_size (len bytes - 56))
    else
      let? commitments := mapM_outcome (fun i =>
        let start := j + i * 48 in
        let end_ := start + 48 in
        if len bytes <? end_ then Err (Deserialization "Failed to deserialize compressed commitment")
        else
          let? c_bytes := slice bytes start end_ in
          try_deserialize_g1_projective c_bytes
            (Deserialization "Failed to deserialize compressed commitment")) (zrange 0 c_len) in
      let? pi_bytes := slice bytes (j + c_size) (len bytes) in
      let? pi := proof_cm_cs_from_bytes pi_bytes in
      Ok {| commitment := commitment; commitment_hash := commitment_hash;
            private_attributes_commitments := commitments; pi_s := pi |}.

(** ** [verification.rs] *)

(** [VerifyCredentialRequest::to_bytes]. *)
Definition verify_credential_request_to_bytes (t : VerifyCredentialRequest Scalar G1 G2) : list byte :=
  g2_to_compressed (blinded_message t) ++ g2_to_compressed (blinded_serial_number t)
  ++ signature_to_bytes (credential t) ++ proof_kappa_zeta_to_bytes (pi_v t).

(** [TryFrom<&[u8]> for VerifyCredentialRequest]. *)
Definition verify_credential_request_try_from (bytes : list byte)
    : result (VerifyCredentialRequest Scalar G1 G2) :=
  if len bytes <? 288 then
    Err (Deserialization "Tried to deserialize theta with insufficient number of bytes")
  else
    let? blinded_message_bytes := slice bytes 0 96 in
    let? blinded_message := try_deserialize_g2_projective blinded_message_bytes
                              (Deserialization "failed to deserialize the blinded message (kappa)") in
    let? serial_bytes := slice bytes 96 192 in
    let? serial := blinded_serial_number_try_from serial_bytes in
    let? credential_bytes := slice bytes 192 288 in
    let? credential := signature_try_from credential_bytes in
    let? pi_bytes := slice bytes 288 (len bytes) in
    let? pi := proof_kappa_zeta_from_bytes pi_bytes in
    Ok {| blinded_message := blinded_message; blinded_serial_number := serial;
          credential := credential; pi_v := pi |}.

End Codecs.
