(* ===== verification/CoconutCodecFacts.v ===== *)
(** * Round trips of the Coconut encodings

    What is written is read back, except for the index of a key pair, which is
    written and never read; and inputs on which reading panics. *)

From Stdlib.Strings Require Import String Byte.
From S2P Require Import Prelude Bytes CoconutTypes CoconutCodecs.

(** ** Slices of concatenations *)

Lemma slice_skip {E A} (a r : list A) lb ub : len a <= lb -> lb <= ub ->
  slice (E := E) (a ++ r) lb ub = slice r (lb - len a) (ub - len a).
Proof.
  intros. unfold slice. pose proof (len_nonneg a). rewrite len_app.
  replace (0 <=? lb) with true by lia. replace (0 <=? lb - len a) with true by lia.
  replace (lb <=? ub) with true by lia. replace (lb - len a <=? ub - len a) with true by lia. simpl.
  replace (ub - len a <=? len r) with (ub <=? len a + len r) by lia. case_match; [|done].
  do 2 f_equal; [lia|]. unfold len in *. rewrite drop_app_ge by lia. f_equal. lia.
Qed.

Lemma slice_head {E A} (m k : list A) ub : ub = len m -> slice (E := E) (m ++ k) 0 ub = Ok m.
Proof. intros ->. apply (slice_middle [] m k); done. Qed.

Lemma slice_all {E A} (m : list A) ub : ub = len m -> slice (E := E) m 0 ub = Ok m.
Proof. intros ->. rewrite <- (app_nil_r m) at 1. by apply slice_head. Qed.

Lemma mapM_zrange {E A} (h : Z -> outcome E A) (xs : list A) lo :
  (forall i x, xs !! i = Some x -> h (lo + Z.of_nat i) = Ok x) ->
  mapM_outcome h (zrange lo (lo + len xs)) = Ok xs.
Proof.
  revert lo. induction xs as [|x xs IH]; intros lo H.
  { rewrite zrange_nil by (unfold len; simpl; lia). done. }
  rewrite len_cons, zrange_cons by (pose proof (len_nonneg xs); lia). simpl.
  pose proof (H 0%nat x eq_refl) as H0. simpl Z.of_nat in H0. rewrite Z.add_0_r in H0. rewrite H0. simpl.
  replace (lo + (1 + len xs)) with (lo + 1 + len xs) by lia. rewrite IH; [done|].
  intros i y Hy. rewrite <- (H (S i) y Hy). f_equal. lia.
Qed.

(** Chunks of one size. *)
Section Chunks.
Context {A : Type} (enc : A -> list byte) (n : Z).
Hypothesis enc_len : forall x, len (enc x) = n.

Lemma len_chunks xs : len (concat (enc <$> xs)) = len xs * n.
Proof. induction xs as [|x xs IH]; [done|]. csimpl. rewrite len_app, len_cons, IH, enc_len. lia. Qed.

Lemma slice_chunk {E} xs i x (pre post : list byte) : xs !! i = Some x ->
  slice (E := E) (pre ++ concat (enc <$> xs) ++ post) (len pre + Z.of_nat i * n) (len pre + Z.of_nat i * n + n)
  = Ok (enc x).
Proof.
  intros Hi. assert (0 <= n) by (rewrite <- (enc_len x); apply len_nonneg).
  rewrite <- (take_drop_middle xs i x Hi), fmap_app, concat_app, fmap_cons. simpl concat.
  apply lookup_lt_Some in Hi. assert (L : len (take i xs) = Z.of_nat i) by (unfold len; rewrite length_take; lia).
  rewrite slice_skip by nia. rewrite <- !app_assoc, slice_skip; rewrite ?len_chunks, ?L; [|nia|nia].
  replace (_ - _ - _) with 0 by lia. apply slice_head. rewrite enc_len. lia.
Qed.

End Chunks.

Lemma u64_le_roundtrip z : is_u64 z -> u64_from_le_bytes (u64_to_le_bytes z) = z.
Proof.
  unfold is_u64, u64_max. intros. unfold u64_from_le_bytes, u64_to_le_bytes. rewrite rev_involutive, be_decode_encode.
  apply Z.mod_small. change (256 ^ Z.of_nat 8) with (2 ^ 64). lia.
Qed.

Lemma len_u64_to_le_bytes z : len (u64_to_le_bytes z) = 8.
Proof. unfold len, u64_to_le_bytes. rewrite length_rev, length_be_encode. done. Qed.

Section Codecs.
Context {Scalar G1 G2 : Type} {codec : PointCodec Scalar G1 G2} {laws : PointCodecLaws codec}.

Lemma len_scalars (xs : list Scalar) : len (concat (scalar_to_bytes <$> xs)) = len xs * 32.
Proof. apply len_chunks, len_scalar_to_bytes. Qed.
Lemma len_g1s (xs : list G1) : len (concat (g1_to_compressed <$> xs)) = len xs * 48.
Proof. apply len_chunks, len_g1_to_compressed. Qed.
Lemma len_g2s (xs : list G2) : len (concat (g2_to_compressed <$> xs)) = len xs * 96.
Proof. apply len_chunks, len_g2_to_compressed. Qed.

(** Scalars and points are read back. *)
Lemma read_scalar s err : try_deserialize_scalar (scalar_to_bytes s) err = Ok s.
Proof. unfold try_deserialize_scalar. by rewrite scalar_from_to_bytes. Qed.
Lemma read_g1 p err : try_deserialize_g1_projective (g1_to_compressed p) err = Ok p.
Proof. unfold try_deserialize_g1_projective. by rewrite g1_from_to_compressed. Qed.
Lemma read_g2 p err : try_deserialize_g2_projective (g2_to_compressed p) err = Ok p.
Proof. unfold try_deserialize_g2_projective. by rewrite g2_from_to_compressed. Qed.

Lemma read_scalars (xs : list Scalar) err : len xs * 32 <= u64_max ->
  try_deserialize_scalar_vec (len xs) (concat (scalar_to_bytes <$> xs)) err = Ok xs.
Proof.
  intros L. unfold try_deserialize_scalar_vec, usize_mul. replace (len xs * 32 <=? u64_max) with true by lia.
  simpl. rewrite len_scalars, Z.eqb_refl. simpl. apply (mapM_zrange _ xs 0). intros i x Hi.
  pose proof (slice_chunk (E := CoconutError) _ _ len_scalar_to_bytes _ _ _ [] [] Hi) as S.
  rewrite app_nil_r in S. simpl in S. replace ((0 + Z.of_nat i + 1) * 32) with (Z.of_nat i * 32 + 32) by lia.
  rewrite Z.add_0_l. change (len []) with 0 in S. rewrite !Z.add_0_l in S. rewrite S. simpl. by rewrite scalar_from_to_bytes.
Qed.

Lemma read_g1s (xs : list G1) pre post err base :
  base = len pre ->
  mapM_outcome (fun i =>
    let? b := slice (pre ++ concat (g1_to_compressed <$> xs) ++ post) (base + i * 48) (base + i * 48 + 48) in
    try_deserialize_g1_projective b err) (zrange 0 (len xs)) = Ok xs.
Proof.
  intros ->. apply (mapM_zrange _ xs 0). intros i x Hi. rewrite Z.add_0_l.
  rewrite (slice_chunk _ _ len_g1_to_compressed _ _ _ _ _ Hi). simpl. apply read_g1.
Qed.

Lemma read_g2s (xs : list G2) pre post err base :
  base = len pre ->
  mapM_outcome (fun i =>
    let? b := slice (pre ++ concat (g2_to_compressed <$> xs) ++ post) (base + i * 96) (base + i * 96 + 96) in
    try_deserialize_g2_projective b err) (zrange 0 (len xs)) = Ok xs.
Proof.
  intros ->. apply (mapM_zrange _ xs 0). intros i x Hi. rewrite Z.add_0_l.
  rewrite (slice_chunk _ _ len_g2_to_compressed _ _ _ _ _ Hi). simpl. apply read_g2.
Qed.

End Codecs.

Create Rewrite HintDb lens.
#[export] Hint Rewrite @len_app @len_scalar_to_bytes @len_g1_to_compressed @len_g2_to_compressed
  len_u64_to_le_bytes @len_scalars @len_g1s @len_g2s using typeclasses eauto : lens.

(** Evaluates a slice of a concatenation with parts of known lengths. *)
Ltac lens := autorewrite with lens; unfold is_u64, u64_max in *; try lia.
Ltac go := cbn [obind negb orb andb].
Ltac step_slice :=
  match goal with
  | |- context [slice (?a ++ ?r) ?lb ?ub] =>
      first [ rewrite (slice_skip a r lb ub) by lens
            | replace lb with 0 by lens; rewrite (slice_head a r ub) by lens ]
  | |- context [slice ?m ?lb ?ub] => replace lb with 0 by lens; rewrite (slice_all m ub) by lens
  end.

Lemma mod_multiple a k n : n <> 0 -> a = k * n -> (a mod n =? 0) = true.
Proof. intros ? ->. rewrite Z.mod_mul by done. done. Qed.

Lemma div_multiple a k n : n <> 0 -> a = k * n -> a / n = k.
Proof. intros ? ->. by apply Z.div_mul. Qed.

Lemma len_pos {A} (l : list A) : l <> [] -> 0 < len l.
Proof. destruct l; [done|]. rewrite len_cons. pose proof (len_nonneg l). lia. Qed.

Section RoundTrips.
Context {Scalar G1 G2 : Type} {codec : PointCodec Scalar G1 G2} {laws : PointCodecLaws codec}.

Lemma secret_key_roundtrip (sk : SecretKey Scalar) :
  sk_ys sk <> [] -> len (secret_key_to_bytes sk) <= u64_max ->
  secret_key_try_from (secret_key_to_bytes sk) = Ok sk.
Proof.
  destruct sk as [x ys]. unfold secret_key_to_bytes, secret_key_try_from. cbn [sk_x sk_ys].
  intros Hne%len_pos. autorewrite with lens. intros L.
  rewrite (proj2 (Z.ltb_ge _ _)), (mod_multiple _ (len ys + 1) 32) by lia. go.
  repeat (step_slice; go). rewrite u64_le_roundtrip, (div_multiple _ (len ys) 32), Z.eqb_refl by lens. go.
  rewrite read_scalar. go. repeat (step_slice; go). rewrite read_scalars by lens. done.
Qed.

(** What [VerificationKey::to_bytes] expects: as many points of one group as of the other, and some. *)
Definition vk_encodable (vk : VerificationKey G1 G2) : Prop :=
  beta_g1 vk <> [] /\ len (beta_g1 vk) = len (beta_g2 vk) /\ len (verification_key_to_bytes vk) <= u64_max.

Lemma verification_key_roundtrip (vk : VerificationKey G1 G2) :
  vk_encodable vk -> verification_key_try_from (verification_key_to_bytes vk) = Ok vk.
Proof.
  destruct vk as [al b1 b2]. unfold vk_encodable, verification_key_to_bytes, verification_key_try_from.
  cbn [alpha beta_g1 beta_g2]. intros (Hne%len_pos & Hb & L). revert L. autorewrite with lens. rewrite <- Hb. intros L.
  rewrite (proj2 (Z.ltb_ge _ _)), (mod_multiple _ (len b1) (96 + 48)) by lia. go.
  do 3 (step_slice; go). rewrite u64_le_roundtrip, (div_multiple _ (len b1) (96 + 48)), Z.eqb_refl by lens. go.
  rewrite read_g2. go.
  rewrite (app_assoc (g2_to_compressed al)), (read_g1s b1 _ _ _ 104) by lens. go.
  rewrite (proj2 (Z.eqb_neq _ _)) by lia. rewrite app_assoc. rewrite <- (app_nil_r (concat (g2_to_compressed <$> b2))).
  rewrite Hb, (read_g2s b2 _ _ _ _) by lens. done.
Qed.

Lemma proof_cm_cs_roundtrip (p : ProofCmCs Scalar) :
  2 <= len (response_openings p) + len (response_attributes p) -> len (proof_cm_cs_to_bytes p) <= u64_max ->
  proof_cm_cs_from_bytes (proof_cm_cs_to_bytes p) = Ok p.
Proof.
  destruct p as [c r os ms]. unfold proof_cm_cs_to_bytes, proof_cm_cs_from_bytes.
  cbn [cs_challenge response_opening response_openings response_attributes]. intros Hn. autorewrite with lens. intros L.
  pose proof (len_nonneg os). pose proof (len_nonneg ms).
  rewrite (proj2 (Z.ltb_ge _ _)), (mod_multiple _ (2 + len os + len ms) 32) by lia. go.
  do 3 (step_slice; go). rewrite !read_scalar. go. do 3 (step_slice; go). rewrite u64_le_roundtrip by lens.
  unfold usize_mul, usize_add. rewrite (proj2 (Z.leb_le _ _)) by lia. go.
  rewrite (proj2 (Z.leb_le _ _)) by lia. go. rewrite (proj2 (Z.ltb_ge _ _)) by lia.
  do 4 (step_slice; go). rewrite read_scalars by lens. go. do 5 (step_slice; go).
  rewrite u64_le_roundtrip by lens. do 6 (step_slice; go). rewrite read_scalars by lens. done.
Qed.

Lemma proof_kappa_zeta_roundtrip (p : ProofKappaZeta Scalar) :
  proof_kappa_zeta_from_bytes (proof_kappa_zeta_to_bytes p) = Ok p.
Proof.
  destruct p as [c s b r]. unfold proof_kappa_zeta_to_bytes, proof_kappa_zeta_from_bytes.
  cbn [kz_challenge response_serial_number response_binding_number response_blinder]. autorewrite with lens.
  go. change (negb _) with false. repeat (step_slice; go; rewrite ?read_scalar; go). done.
Qed.

Lemma two_points_roundtrip a b c (p q : G1) : two_points_try_from a b c (two_points_to_bytes p q) = Ok (p, q).
Proof.
  unfold two_points_try_from, two_points_to_bytes. autorewrite with lens. change (negb _) with false. go.
  repeat (step_slice; go; rewrite ?read_g1; go). done.
Qed.

Lemma signature_roundtrip (s : Signature G1) : signature_try_from (signature_to_bytes s) = Ok s.
Proof. unfold signature_try_from, signature_to_bytes. rewrite two_points_roundtrip. by destruct s. Qed.

Lemma blinded_signature_roundtrip (s : BlindedSignature G1) :
  blinded_signature_try_from (blinded_signature_to_bytes s) = Ok s.
Proof. unfold blinded_signature_try_from, blinded_signature_to_bytes. rewrite two_points_roundtrip. by destruct s. Qed.

Lemma ciphertext_roundtrip (c : Ciphertext G1) : ciphertext_try_from (ciphertext_to_bytes c) = Ok c.
Proof. unfold ciphertext_try_from, ciphertext_to_bytes. rewrite two_points_roundtrip. by destruct c. Qed.

Lemma theta_roundtrip (t : VerifyCredentialRequest Scalar G1 G2) :
  verify_credential_request_try_from (verify_credential_request_to_bytes t) = Ok t.
Proof.
  destruct t as [m n s p]. unfold verify_credential_request_to_bytes, verify_credential_request_try_from.
  cbn [blinded_message blinded_serial_number credential pi_v].
  assert (Ls : len (signature_to_bytes s) = 96) by (unfold signature_to_bytes, two_points_to_bytes; lens).
  assert (Lp : len (proof_kappa_zeta_to_bytes p) = 128) by (unfold proof_kappa_zeta_to_bytes; lens).
  autorewrite with lens. rewrite Ls, Lp. change (_ <? 288) with false. go.
  step_slice; go. rewrite read_g2; go. do 2 (step_slice; go).
  unfold blinded_serial_number_try_from. autorewrite with lens. change (negb _) with false. go. rewrite read_g2. go.
  do 3 (step_slice; go). rewrite signature_roundtrip. go. do 4 (step_slice; go). rewrite proof_kappa_zeta_roundtrip. done.
Qed.

Lemma blind_sign_request_roundtrip (r : BlindSignRequest Scalar G1) :
  2 <= len (response_openings (pi_s r)) + len (response_attributes (pi_s r)) ->
  len (blind_sign_request_to_bytes r) <= u64_max ->
  blind_sign_request_try_from (blind_sign_request_to_bytes r) = Ok r.
Proof.
  destruct r as [cm h cs p]. unfold blind_sign_request_to_bytes, blind_sign_request_try_from.
  cbn [commitment commitment_hash private_attributes_commitments pi_s]. intros Hn. autorewrite with lens. intros L.
  assert (len (proof_cm_cs_to_bytes p) >= 128) as Lp.
  { unfold proof_cm_cs_to_bytes. autorewrite with lens.
    pose proof (len_nonneg (response_openings p)). pose proof (len_nonneg (response_attributes p)). lia. }
  pose proof (len_nonneg cs). rewrite (proj2 (Z.ltb_ge _ _)) by lia. go.
  step_slice; go. rewrite read_g1; go. do 2 (step_slice; go). rewrite read_g1; go. do 3 (step_slice; go).
  rewrite u64_le_roundtrip by lens. unfold usize_mul. rewrite (proj2 (Z.leb_le _ _)) by lia. go.
  rewrite (proj2 (Z.ltb_ge _ _)) by lia.
  rewrite (mapM_zrange _ cs 0).
  2:{ intros i x Hi. rewrite Z.add_0_l. pose proof (lookup_lt_Some _ _ _ Hi).
      rewrite (proj2 (Z.ltb_ge _ _)) by (unfold len in *; lia).
      rewrite !app_assoc, <- (app_assoc _ _ (proof_cm_cs_to_bytes p)).
      pose proof (slice_chunk (E := CoconutError) _ _ len_g1_to_compressed _ _ _
        ((g1_to_compressed cm ++ g1_to_compressed h) ++ u64_to_le_bytes (len cs)) (proof_cm_cs_to_bytes p) Hi) as S.
      revert S. autorewrite with lens. change (48 + 48 + 8) with 104. intros ->. go. apply read_g1. }
  go. do 5 (step_slice; go). rewrite proof_cm_cs_roundtrip by lia. done.
Qed.

(** The index of a key pair is written but not read. *)
Lemma key_pair_roundtrip (kp : KeyPair Scalar G1 G2) :
  sk_ys (secret_key kp) <> [] -> vk_encodable (verification_key kp) -> len (key_pair_to_bytes kp) <= u64_max ->
  key_pair_try_from (key_pair_to_bytes kp)
  = Ok {| secret_key := secret_key kp; verification_key := verification_key kp; kp_index := None |}.
Proof.
  destruct kp as [sk vk ix]. unfold key_pair_to_bytes, key_pair_try_from.
  cbn [secret_key verification_key kp_index]. intros Hs Hv.
  set (sb := secret_key_to_bytes sk). set (vb := verification_key_to_bytes vk). 
  set (tail := match ix with Some index => u64_to_le_bytes (Z.of_N index) | None => [] end).
  change (len MARKER_BYTES) with 14. autorewrite with lens. change (len MARKER_BYTES) with 14. intros L.
  pose proof (len_nonneg sb). pose proof (len_nonneg vb). pose proof (len_nonneg tail).
  rewrite (proj2 (Z.ltb_ge _ _)) by lia.
  assert (M : len MARKER_BYTES = 14) by done.
  do 2 (step_slice; go). rewrite u64_le_roundtrip by lens.
  unfold usize_add at 1. rewrite (proj2 (Z.leb_le _ _)) by lia. go. do 3 (step_slice; go).
  unfold sb at 1. rewrite secret_key_roundtrip by (done || (unfold sb in *; lia)). go.
  unfold usize_add at 1. rewrite (proj2 (Z.leb_le _ _)) by lia. go. rewrite (proj2 (Z.ltb_ge _ _)) by lia.
  do 4 (step_slice; go). rewrite u64_le_roundtrip by lens.
  unfold usize_add at 1. rewrite (proj2 (Z.leb_le _ _)) by lia. go. do 5 (step_slice; go).
  unfold vb. rewrite verification_key_roundtrip by done. go. rewrite andb_false_r. done.
Qed.

End RoundTrips.

Section Properties.
Context {Scalar G1 G2 : Type} {codec : PointCodec Scalar G1 G2}.

(** C33: what a client and a signer send each other is read back: requests to sign,
    blinded signatures and shown credentials. *)
Theorem credential_messages_roundtrip {laws : PointCodecLaws codec}
    (r : BlindSignRequest Scalar G1) (s : BlindedSignature G1) (t : VerifyCredentialRequest Scalar G1 G2) :
  2 <= len (response_openings (pi_s r)) + len (response_attributes (pi_s r)) ->
  len (blind_sign_request_to_bytes r) <= u64_max ->
  blind_sign_request_try_from (blind_sign_request_to_bytes r) = Ok r
  /\ blinded_signature_try_from (blinded_signature_to_bytes s) = Ok s
  /\ verify_credential_request_try_from (verify_credential_request_to_bytes t) = Ok t.
Proof.
  intros Hn L. split_and!; [by apply blind_sign_request_roundtrip|apply blinded_signature_roundtrip|apply theta_roundtrip].
Qed.

(** C38: the keys of a key pair are read back from its bytes, but its index never is,
    although it is written. *)
Theorem key_pair_loses_its_index {laws : PointCodecLaws codec} (kp : KeyPair Scalar G1 G2) (index : SignerIndex) :
  sk_ys (secret_key kp) <> [] -> vk_encodable (verification_key kp) -> len (key_pair_to_bytes kp) <= u64_max ->
  kp_index kp = Some index ->
  exists kp', key_pair_try_from (key_pair_to_bytes kp) = Ok kp'
    /\ secret_key kp' = secret_key kp /\ verification_key kp' = verification_key kp /\ kp_index kp' = None.
Proof. intros Hs Hv L _. eexists. split; [by apply key_pair_roundtrip|done]. Qed.

(** Lengths in the input that the readers do not check panic: a request to sign
    whose number of commitments overflows when it is multiplied by their size,
    and secret keys of less than eight bytes, for which the error itself
    underflows. *)
Theorem malformed_credentials_panic (cm h : G1) (count : Z) (rest short : list byte) {laws : PointCodecLaws codec} :
  is_u64 count -> u64_max < count * 48 -> 48 <= len rest -> len short < 8 ->
  blind_sign_request_try_from (g1_to_compressed cm ++ g1_to_compressed h ++ u64_to_le_bytes count ++ rest)
  = Panic Overflow
  /\ secret_key_try_from short = Panic Overflow.
Proof.
  intros Hc Hbig Hr Hs. split.
  - unfold blind_sign_request_try_from. autorewrite with lens. rewrite (proj2 (Z.ltb_ge _ _)) by lia. go.
    step_slice; go. rewrite read_g1; go. do 2 (step_slice; go). rewrite read_g1; go. do 3 (step_slice; go).
    rewrite u64_le_roundtrip by done. unfold usize_mul. rewrite (proj2 (Z.leb_gt _ _)) by lia. done.
  - unfold secret_key_try_from. rewrite (proj2 (Z.ltb_lt _ _)) by lia. go.
    unfold usize_sub. rewrite (proj2 (Z.leb_gt _ _)) by lia. done.
Qed.

End Properties.

(** ** Points that are bytes *)

Module ByteCodec.

Definition padded (n : nat) (b : byte) : list byte := b :: replicate n x00.

#[local] Instance byte_codec : PointCodec byte byte byte :=
  {| scalar_to_bytes := padded 31; scalar_from_bytes := head;
     g1_to_compressed := padded 47; g1_from_compressed := head;
     g2_to_compressed := padded 95; g2_from_compressed := head |}.

#[local] Instance byte_codec_laws : PointCodecLaws byte_codec.
Proof. by constructor. Qed.

Definition request : BlindSignRequest byte byte :=
  {| commitment := x01; commitment_hash := x02; private_attributes_commitments := [x03; x04];
     pi_s := {| cs_challenge := x05; response_opening := x06; response_openings := [x07; x08];
                response_attributes := [x09; x0a] |} |}.
Definition blinded : BlindedSignature byte := {| bs_h := x01; bs_c := x02 |}.
Definition theta : VerifyCredentialRequest byte byte byte :=
  {| blinded_message := x01; blinded_serial_number := x02; credential := {| sig1 := x03; sig2 := x04 |};
     pi_v := {| kz_challenge := x05; response_serial_number := x06; response_binding_number := x07;
                response_blinder := x08 |} |}.
Definition keys : KeyPair byte byte byte :=
  {| secret_key := {| sk_x := x01; sk_ys := [x02] |};
     verification_key := {| alpha := x03; beta_g1 := [x04]; beta_g2 := [x05] |}; kp_index := Some 7%N |}.

Lemma credential_messages_roundtrip_witness :
  blind_sign_request_try_from (blind_sign_request_to_bytes request) = Ok request
  /\ blinded_signature_try_from (blinded_signature_to_bytes blinded) = Ok blinded
  /\ verify_credential_request_try_from (verify_credential_request_to_bytes theta) = Ok theta.
Proof. apply (credential_messages_roundtrip request blinded theta); vm_compute; congruence. Defined.

Lemma key_pair_loses_its_index_witness :
  exists kp', key_pair_try_from (key_pair_to_bytes keys) = Ok kp'
    /\ secret_key kp' = secret_key keys /\ verification_key kp' = verification_key keys /\ kp_index kp' = None.
Proof.
  apply (key_pair_loses_its_index keys 7%N); [done| |vm_compute; congruence|done].
  split_and!; [done|done|vm_compute; congruence].
Defined.

Lemma malformed_credentials_panic_witness :
  blind_sign_request_try_from (g1_to_compressed x01 ++ g1_to_compressed x02 ++ u64_to_le_bytes (2 ^ 63)
    ++ replicate 48 x00) = Panic Overflow
  /\ secret_key_try_from [x00] = Panic Overflow.
Proof. apply (malformed_credentials_panic x01 x02 (2 ^ 63) (replicate 48 x00) [x00]); unfold is_u64; vm_compute; done. Defined.

End ByteCodec.
