(* ===== verification/DkgContract.v ===== *)
(** * The contract of the distributed key generation

    The signers of credentials generate their keys together, without a trusted
    party.  The contract collects what they publish, epoch by epoch: their
    encryption keys, their dealings, which are split into chunks, and their
    verification keys, which the other signers vote on in the multisig
    contract.  Models [contracts/coconut-dkg/src] with the types of
    [common/cosmwasm-smart-contracts/coconut-dkg/src]; what the multisig
    contract is told is in the form of
    [common/cosmwasm-smart-contracts/multisig-contract/src/msg.rs]. *)

From Stdlib Require Import String.
From S2P Require Import Prelude Bytes Cosmwasm VestingTypes Paging.
From Stdlib.Strings Require Import Byte.
#[local] Open Scope Z_scope.

(** ** Libraries *)

(** [Timestamp::plus_seconds] and [Timestamp::minus_seconds] of [cosmwasm_std]; [None] is a panic. *)
Class TimestampMath : Type := {
  plus_seconds : Timestamp -> Z -> option Timestamp;
  minus_seconds : Timestamp -> Z -> option Timestamp
}.

(** The documented behaviour: nanoseconds in 64 bits. *)
Class TimestampMathLaws `{TimestampMath} : Prop := {
  plus_seconds_spec t n t' : plus_seconds t n = Some t' <-> t' = t + n * NANOS /\ 0 <= t' <= u64_max;
  minus_seconds_spec t n t' : minus_seconds t n = Some t' <-> t' = t - n * NANOS /\ 0 <= t' <= u64_max
}.

(** [to_binary] and [from_binary] of [cosmwasm_std] at a type of messages. *)
Class Serde (Binary T : Type) : Type := {
  to_binary : T -> option Binary;
  from_binary : Binary -> option T
}.

(** The documented behaviour: what was serialised is read back. *)
Class SerdeLaws (Binary T : Type) `{Serde Binary T} : Prop := {
  from_to_binary (m : T) b : to_binary m = Some b -> from_binary b = Some m
}.

(** What a contract asks of the group contract, the helpers of the [cw4] crate: [None] for a weight is
    that the address is no (voting) member. *)
Class GroupQuerier : Type := {
  total_weight : Addr -> outcome StdError Z;
  is_member : Addr -> Addr -> option Z -> outcome StdError (option Z);
  is_voting_member : Addr -> Addr -> option Z -> outcome StdError (option Z)
}.

Definition u32_mul {E} (a b : Z) : outcome E Z := if a * b <=? u32_max then Ok (a * b) else Panic Overflow.

Lemma u32_mul_Ok {E} a b c : @u32_mul E a b = Ok c <-> c = a * b /\ a * b <= u32_max.
Proof. unfold u32_mul. destruct (Z.leb_spec (a * b) u32_max); split; try (intros [= <-]; lia); intros [-> ?]; done || lia. Qed.

(** [z as u16]. *)
Definition as_u16 (z : Z) : Z := z mod 2 ^ 16.

(** [iter().enumerate()]. *)
Definition enumerate {A} (l : list A) : list (Z * A) := zip (zrange 0 (len l)) l.

(** ** Messages between contracts *)

Section Messages.
Context (Binary : Type).

(** [CosmosMsg], with the messages the contracts send. *)
Inductive CosmosMsg : Type :=
| WasmExecute (contract_addr : string) (msg : Binary) (funds : list Coin)
| BankSend (to_address : string) (amount : list Coin).

(** [cw_utils::Expiration], [cw3::Vote] and [cw4::MemberDiff]. *)
Inductive Expiration : Type :=
| AtHeight (height : Z)
| AtTime (time : Timestamp)
| Never.

Inductive Vote : Type := VoteYes | VoteNo | VoteAbstain | VoteVeto.

Record MemberDiff : Type := mkMemberDiff { diff_key : string; diff_old : option Z; diff_new : option Z }.

(** [ExecuteMsg] of the multisig contract. *)
Inductive MultisigExecuteMsg : Type :=
| Propose (title description : string) (msgs : list CosmosMsg) (latest : option Expiration)
| VoteOn (proposal_id : Z) (vote : Vote)
| ExecuteProposal (proposal_id : Z)
| CloseProposal (proposal_id : Z)
| MemberChangedHook (diffs : list MemberDiff).

End Messages.
Arguments WasmExecute {Binary}.
Arguments BankSend {Binary}.
Arguments Propose {Binary}.
Arguments VoteOn {Binary}.
Arguments ExecuteProposal {Binary}.
Arguments CloseProposal {Binary}.
Arguments MemberChangedHook {Binary}.

Module Dkg.

Abbreviation EpochId := Z (only parsing).
Abbreviation NodeIndex := Z (only parsing).
Abbreviation DealingIndex := Z (only parsing).
Abbreviation ChunkIndex := Z (only parsing).
Abbreviation Dealer := Addr (only parsing).

(** ** Epochs, [types.rs] *)

Module EpochState.

Inductive t : Type :=
| WaitingInitialisation
| PublicKeySubmission (resharing : bool)
| DealingExchange (resharing : bool)
| VerificationKeySubmission (resharing : bool)
| VerificationKeyValidation (resharing : bool)
| VerificationKeyFinalization (resharing : bool)
| InProgress.

#[global] Instance t_eq_dec : EqDecision t.
Proof. solve_decision. Defined.

Definition show_flag (b : bool) : string := if b then "true" else "false".

(** [Display]. *)
Definition to_string (s : t) : string :=
  match s with
  | WaitingInitialisation => "Waiting for initialisation"
  | PublicKeySubmission r => "PublicKeySubmission (resharing: " ++ show_flag r ++ ")"
  | DealingExchange r => "DealingExchange (resharing: " ++ show_flag r ++ ")"
  | VerificationKeySubmission r => "VerificationKeySubmission (resharing: " ++ show_flag r ++ ")"
  | VerificationKeyValidation r => "VerificationKeyValidation (resharing: " ++ show_flag r ++ ")"
  | VerificationKeyFinalization r => "VerificationKeyFinalization (resharing: " ++ show_flag r ++ ")"
  | InProgress => "InProgress"
  end.

Definition next (s : t) : option t :=
  match s with
  | WaitingInitialisation => None
  | PublicKeySubmission r => Some (DealingExchange r)
  | DealingExchange r => Some (VerificationKeySubmission r)
  | VerificationKeySubmission r => Some (VerificationKeyValidation r)
  | VerificationKeyValidation r => Some (VerificationKeyFinalization r)
  | VerificationKeyFinalization _ => Some InProgress
  | InProgress => None
  end.

Definition is_in_progress (s : t) : bool := match s with InProgress => true | _ => false end.

Definition is_dealing_exchange (s : t) : bool := match s with DealingExchange _ => true | _ => false end.

(** The loop of [all_until], with the number of states as fuel: a longer chain of [next] has no successor
    to go on with. *)
Fixpoint all_until_from (fuel : nat) (last finish : t) : outcome unit (list t) :=
  if bool_decide (last = finish) then Ok [last]
  else
    match fuel with
    | O => Panic Diverges
    | S fuel =>
        match next last with
        | Some s => let? rest := all_until_from fuel s finish in Ok (last :: rest)
        | None => Panic UnwrapNone
        end
    end.

Definition all_until (s finish : t) : outcome unit (list t) := all_until_from 7 s finish.

End EpochState.

Module TimeConfiguration.

Record t : Type := mk {
  public_key_submission_time_secs : Z;
  dealing_exchange_time_secs : Z;
  verification_key_submission_time_secs : Z;
  verification_key_validation_time_secs : Z;
  verification_key_finalization_time_secs : Z;
  in_progress_time_secs : Z
}.

Definition state_duration (c : t) (state : EpochState.t) : option Z :=
  match state with
  | EpochState.WaitingInitialisation => None
  | EpochState.PublicKeySubmission _ => Some (public_key_submission_time_secs c)
  | EpochState.DealingExchange _ => Some (dealing_exchange_time_secs c)
  | EpochState.VerificationKeySubmission _ => Some (verification_key_submission_time_secs c)
  | EpochState.VerificationKeyValidation _ => Some (verification_key_validation_time_secs c)
  | EpochState.VerificationKeyFinalization _ => Some (verification_key_finalization_time_secs c)
  | EpochState.InProgress => Some (in_progress_time_secs c)
  end.

(** [Default]. *)
Definition default_times : t := mk (60 * 10) (60 * 5) (60 * 5) 60 60 (60 * 60 * 24 * 14).

End TimeConfiguration.

Module StateProgress.

Record t : Type := mk {
  registered_dealers : Z;
  registered_resharing_dealers : Z;
  submitted_dealings : Z;
  submitted_key_shares : Z;
  verified_keys : Z
}.

(** [Default]. *)
Definition zero : t := mk 0 0 0 0 0.

End StateProgress.

Module Epoch.

Record t : Type := mk {
  state : EpochState.t;
  epoch_id : EpochId;
  state_progress : StateProgress.t;
  time_configuration : TimeConfiguration.t;
  deadline : option Timestamp
}.

Definition set_progress (e : t) (p : StateProgress.t) : t :=
  mk (state e) (epoch_id e) p (time_configuration e) (deadline e).

Section Operations.
Context {E : Type} `{TimestampMath}.

(** [duration.map(|d| current_timestamp.plus_seconds(d))]. *)
Definition deadline_after (duration : option Z) (now : Timestamp) : outcome E (option Timestamp) :=
  match duration with
  | Some d => let? t := or_panic (plus_seconds now d) Overflow in Ok (Some t)
  | None => Ok None
  end.

Definition new (state : EpochState.t) (epoch_id : EpochId) (times : TimeConfiguration.t) (now : Timestamp)
    : outcome E t :=
  let duration := TimeConfiguration.state_duration times state in
  let? deadline := deadline_after duration now in
  Ok (mk state epoch_id StateProgress.zero times deadline).

Definition update (e : t) (next_state : EpochState.t) (now : Timestamp) : outcome E t :=
  let duration := TimeConfiguration.state_duration (time_configuration e) next_state in
  let? deadline := deadline_after duration now in
  Ok (mk next_state (epoch_id e) (state_progress e) (time_configuration e) deadline).

Definition next_reset (e : t) (now : Timestamp) : outcome E t :=
  let? id := u64_add (epoch_id e) 1 in
  new (EpochState.PublicKeySubmission false) id (time_configuration e) now.

Definition next_resharing (e : t) (now : Timestamp) : outcome E t :=
  let? id := u64_add (epoch_id e) 1 in
  new (EpochState.PublicKeySubmission true) id (time_configuration e) now.

Context `{TimestampApi}.

(** The loop of [final_timestamp_secs], with the number of states as fuel. *)
Fixpoint add_remaining (fuel : nat) (times : TimeConfiguration.t) (state : EpochState.t) (finish : Z)
    : outcome E (option Z) :=
  match EpochState.next state with
  | None => Ok (Some finish)
  | Some s =>
      match fuel with
      | O => Panic Diverges
      | S fuel =>
          match s with
          | EpochState.WaitingInitialisation => Ok None
          | EpochState.InProgress => let? finish := u64_add finish 0 in add_remaining fuel times s finish
          | _ =>
              let? finish := u64_add finish (default 0 (TimeConfiguration.state_duration times s)) in
              add_remaining fuel times s finish
          end
      end
  end.

Definition final_timestamp_secs (e : t) : outcome E (option Z) :=
  match deadline e with
  | None => Ok None
  | Some d => add_remaining 7 (time_configuration e) (state e) (timestamp_seconds d)
  end.

End Operations.

End Epoch.

(** [State]. *)
Record State : Type := mkState {
  mix_denom : string;
  multisig_addr : Addr;
  group_addr : Addr;
  key_size : Z
}.

(** ** Dealings, [dealing.rs] *)

Definition MAX_DEALING_CHUNK_SIZE : Z := 2048.
Definition MAX_DEALING_SIZE : Z := 102400.
Definition MAX_DEALING_CHUNKS : Z := MAX_DEALING_SIZE / MAX_DEALING_CHUNK_SIZE.

Record PartialContractDealing : Type := mkChunk {
  dealing_index : DealingIndex;
  chunk_index : ChunkIndex;
  data : list byte
}.

(** [slice::chunks] at a number of elements above zero. *)
Definition chunks_of {A} (size : Z) (l : list A) : list (list A) :=
  (fun i => take (Z.to_nat size) (drop (Z.to_nat (i * size)) l)) <$> zrange 0 (cdiv (len l) size).

(** The chunks a dealer sends; [chunks] panics when asked for empty ones. *)
Definition chunk_dealing (index : DealingIndex) (dealing_bytes : list byte) (chunk_size : Z)
    : outcome unit (gmap ChunkIndex PartialContractDealing) :=
  if chunk_size =? 0 then Panic ExplicitPanic
  else Ok (foldl (fun chunks ic => <[as_u16 ic.1 := mkChunk index (as_u16 ic.1) ic.2]> chunks) ∅
             (enumerate (chunks_of chunk_size dealing_bytes))).

Module DealingChunkInfo.

Record t : Type := mk { size : Z }.

Definition construct (dealing_len chunk_size : Z) : outcome unit (list t) :=
  if chunk_size =? 0 then Panic DivisionByZero
  else
    let full_chunks := dealing_len / chunk_size in
    let overflow := dealing_len mod chunk_size in
    Ok (replicate (Z.to_nat full_chunks) (mk chunk_size) ++ (if overflow =? 0 then [] else [mk overflow])).

End DealingChunkInfo.

(** [SubmittedChunk] with its [ChunkSubmissionStatus], the height at which the chunk was received. *)
Record ChunkSubmissionStatus : Type := mkChunkStatus { submission_height : option Z }.

Record SubmittedChunk : Type := mkSubmittedChunk { info : DealingChunkInfo.t; status : ChunkSubmissionStatus }.

Definition submitted (c : SubmittedChunk) : bool := bool_decide (is_Some (submission_height (status c))).

Module DealingMetadata.

Record t : Type := mk { index : DealingIndex; submitted_chunks : gmap ChunkIndex SubmittedChunk }.

Definition new (index : DealingIndex) (chunks : list DealingChunkInfo.t) : t :=
  mk index (foldl (fun m ic => <[as_u16 ic.1 := mkSubmittedChunk ic.2 (mkChunkStatus None)]> m) ∅ (enumerate chunks)).

Definition is_complete (m : t) : bool :=
  bool_decide (map_Forall (fun _ c => submitted c = true) (submitted_chunks m)).

Definition submission_statuses (m : t) : gmap ChunkIndex ChunkSubmissionStatus := status <$> submitted_chunks m.

End DealingMetadata.

(** [DealingStatus] and its conversion from metadata. *)
Record DealingStatus : Type := mkDealingStatus {
  has_metadata : bool;
  fully_submitted : bool;
  chunk_submission_status : gmap ChunkIndex ChunkSubmissionStatus
}.

Definition dealing_status (metadata : option DealingMetadata.t) : DealingStatus :=
  mkDealingStatus (bool_decide (is_Some metadata))
    (from_option DealingMetadata.is_complete false metadata)
    (from_option DealingMetadata.submission_statuses ∅ metadata).

(** ** Dealers and shares, [dealer.rs] and [verification_key.rs] *)

Record DealerRegistrationDetails : Type := mkRegistration {
  bte_public_key_with_proof : string;
  ed25519_identity : string;
  announce_address : string
}.

Record DealerDetails : Type := mkDealerDetails {
  address : Addr;
  registration : DealerRegistrationDetails;
  assigned_index : NodeIndex
}.

Inductive DealerType : Type :=
| Current (assigned_index : NodeIndex)
| Past (assigned_index : NodeIndex)
| Unknown.

Record ContractVKShare : Type := mkShare {
  share : string;
  share_announce_address : string;
  share_node_index : NodeIndex;
  owner : Addr;
  share_epoch_id : EpochId;
  verified : bool
}.

Definition set_verified (s : ContractVKShare) : ContractVKShare :=
  mkShare (share s) (share_announce_address s) (share_node_index s) (owner s) (share_epoch_id s) true.

(** ** Messages, [msg.rs] *)

Record InstantiateMsg : Type := mkInstantiate {
  init_group_addr : string;
  init_multisig_addr : string;
  init_time_configuration : option TimeConfiguration.t;
  init_mix_denom : string;
  init_key_size : Z
}.

Inductive ExecuteMsg : Type :=
| InitiateDkg
| RegisterDealer (bte_key_with_proof identity_key announce_address : string) (resharing : bool)
| CommitDealingsMetadata (dealing_index : DealingIndex) (chunks : list DealingChunkInfo.t) (resharing : bool)
| CommitDealingsChunk (chunk : PartialContractDealing)
| CommitVerificationKeyShare (share : string) (resharing : bool)
| VerifyVerificationKeyShare (owner : string) (resharing : bool)
| AdvanceEpochState
| TriggerReset
| TriggerResharing.

(** ** Errors, [error.rs] *)

Inductive ContractError : Type :=
| Std (e : StdError)
| SerializeErr
| NotAdmin
| WaitingInitialisation
| AlreadyInitialised
| InvalidGroup (addr : string)
| Unauthorized
| AlreadyADealer
| EarlyEpochStateAdvancement (seconds : Z)
| EpochNotInitialised
| IncorrectEpochState (current_state expected_state : string)
| NotADealer (epoch_id : EpochId)
| DealingChunkAlreadyCommitted (epoch_id : EpochId) (dealer : Addr) (dealing_index : DealingIndex)
    (chunk_index : ChunkIndex) (block_height : Z)
| DealingChunkNotInMetadata (epoch_id : EpochId) (dealer : Addr) (dealing_index : DealingIndex) (chunk_index : ChunkIndex)
| DealingOutOfRange (epoch_id : EpochId) (dealer : Addr) (index : DealingIndex) (key_size : Z)
| TooFragmentedMetadata (epoch_id : EpochId) (dealer : Addr) (dealing_index : DealingIndex) (chunks : Z)
| UnevenChunkSplit (epoch_id : EpochId) (dealer : Addr) (dealing_index : DealingIndex) (chunk_index : ChunkIndex)
    (first_chunk_size size : Z)
| InconsistentChunkLength (epoch_id : EpochId) (dealer : Addr) (dealing_index : DealingIndex) (chunk_index : ChunkIndex)
    (metadata_length received : Z)
| EmptyMetadata (epoch_id : EpochId) (dealer : Addr) (dealing_index : DealingIndex)
| UnavailableDealingMetadata (epoch_id : EpochId) (dealer : Addr) (dealing_index : DealingIndex)
| MetadataAlreadyExists (epoch_id : EpochId) (dealer : Addr) (dealing_index : DealingIndex)
| AlreadyCommitted (commitment : string)
| NoCommitForOwner (owner : string)
| CantReshareDuringExchange.

Abbreviation result := (outcome ContractError).

(** ** Storage *)

(** The items and maps of the [storage.rs] files: [DKG_ADMIN], [MULTISIG] and [STATE], [CURRENT_EPOCH] and
    [THRESHOLD], [NODE_INDEX_COUNTER], [DEALERS_INDICES] and [EPOCH_DEALERS_MAP], [DEALINGS_METADATA] and
    the chunks under [StoredDealing], [vk_shares]. *)
Record Storage : Type := mkStorage {
  dkg_admin : option Addr;
  multisig : option Addr;
  contract_state : State;
  current_epoch : Epoch.t;
  threshold : option Z;
  node_index_counter : option NodeIndex;
  dealers_indices : gmap Addr NodeIndex;
  epoch_dealers : gmap (EpochId * Addr) DealerRegistrationDetails;
  dealings_metadata : gmap (EpochId * Addr * DealingIndex) DealingMetadata.t;
  stored_dealings : gmap (EpochId * Addr * DealingIndex * ChunkIndex) (list byte);
  vk_shares : gmap (Addr * EpochId) ContractVKShare
}.

Definition set_epoch (s : Storage) (e : Epoch.t) : Storage :=
  mkStorage (dkg_admin s) (multisig s) (contract_state s) e (threshold s) (node_index_counter s) (dealers_indices s)
    (epoch_dealers s) (dealings_metadata s) (stored_dealings s) (vk_shares s).

Definition set_threshold (s : Storage) (t : option Z) : Storage :=
  mkStorage (dkg_admin s) (multisig s) (contract_state s) (current_epoch s) t (node_index_counter s) (dealers_indices s)
    (epoch_dealers s) (dealings_metadata s) (stored_dealings s) (vk_shares s).

Definition set_indices (s : Storage) (counter : option NodeIndex) (indices : gmap Addr NodeIndex) : Storage :=
  mkStorage (dkg_admin s) (multisig s) (contract_state s) (current_epoch s) (threshold s) counter indices
    (epoch_dealers s) (dealings_metadata s) (stored_dealings s) (vk_shares s).

Definition set_dealers (s : Storage) (dealers : gmap (EpochId * Addr) DealerRegistrationDetails) : Storage :=
  mkStorage (dkg_admin s) (multisig s) (contract_state s) (current_epoch s) (threshold s) (node_index_counter s)
    (dealers_indices s) dealers (dealings_metadata s) (stored_dealings s) (vk_shares s).

Definition set_metadata (s : Storage) (metadata : gmap (EpochId * Addr * DealingIndex) DealingMetadata.t) : Storage :=
  mkStorage (dkg_admin s) (multisig s) (contract_state s) (current_epoch s) (threshold s) (node_index_counter s)
    (dealers_indices s) (epoch_dealers s) metadata (stored_dealings s) (vk_shares s).

Definition set_dealings (s : Storage) (dealings : gmap (EpochId * Addr * DealingIndex * ChunkIndex) (list byte)) : Storage :=
  mkStorage (dkg_admin s) (multisig s) (contract_state s) (current_epoch s) (threshold s) (node_index_counter s)
    (dealers_indices s) (epoch_dealers s) (dealings_metadata s) dealings (vk_shares s).

Definition set_shares (s : Storage) (shares : gmap (Addr * EpochId) ContractVKShare) : Storage :=
  mkStorage (dkg_admin s) (multisig s) (contract_state s) (current_epoch s) (threshold s) (node_index_counter s)
    (dealers_indices s) (epoch_dealers s) (dealings_metadata s) (stored_dealings s) shares.

Implicit Types (s : Storage) (env : Env) (i : MessageInfo).

(** ** [dealers/storage.rs] *)

Definition next_node_index s : result (NodeIndex * Storage) :=
  let? id := u64_add (default 0 (node_index_counter s)) 1 in
  Ok (id, set_indices s (Some id) (dealers_indices s)).

Definition get_or_assign_index s (dealer : Dealer) : result (NodeIndex * Storage) :=
  match dealers_indices s !! dealer with
  | Some index => Ok (index, s)
  | None =>
      let? (index, s) := next_node_index s in
      Ok (index, set_indices s (node_index_counter s) (<[dealer := index]> (dealers_indices s)))
  end.

Definition is_dealer s (dealer : Dealer) (epoch_id : EpochId) : bool :=
  bool_decide (is_Some (epoch_dealers s !! (epoch_id, dealer))).

Definition save_dealer_details_if_not_a_dealer s (dealer : Dealer) (epoch_id : EpochId)
    (details : DealerRegistrationDetails) : result Storage :=
  if bool_decide (is_Some (epoch_dealers s !! (epoch_id, dealer))) then Err AlreadyADealer
  else Ok (set_dealers s (<[(epoch_id, dealer) := details]> (epoch_dealers s))).

Definition ensure_dealer s (dealer : Dealer) (epoch_id : EpochId) : result unit :=
  if negb (is_dealer s dealer epoch_id) then Err (NotADealer epoch_id) else Ok tt.

Definition get_dealer_index s (dealer : Dealer) (epoch_id : EpochId) : result NodeIndex :=
  or_err (dealers_indices s !! dealer) (NotADealer epoch_id).

Definition get_registration_details s (dealer : Dealer) (epoch_id : EpochId) : result DealerRegistrationDetails :=
  or_err (epoch_dealers s !! (epoch_id, dealer)) (NotADealer epoch_id).

Definition get_dealer_details s (dealer : Dealer) (epoch_id : EpochId) : result DealerDetails :=
  let? registration_details := get_registration_details s dealer epoch_id in
  let? assigned_index := get_dealer_index s dealer epoch_id in
  Ok (mkDealerDetails dealer registration_details assigned_index).

(** ** [dealings/storage.rs] *)

Definition metadata_exists s (epoch_id : EpochId) (dealer : Dealer) (index : DealingIndex) : bool :=
  bool_decide (is_Some (dealings_metadata s !! (epoch_id, dealer, index))).

Definition must_read_metadata s (epoch_id : EpochId) (dealer : Dealer) (index : DealingIndex) : result DealingMetadata.t :=
  or_err (dealings_metadata s !! (epoch_id, dealer, index)) (UnavailableDealingMetadata epoch_id dealer index).

Definition store_metadata s (epoch_id : EpochId) (dealer : Dealer) (index : DealingIndex) (m : DealingMetadata.t) : Storage :=
  set_metadata s (<[(epoch_id, dealer, index) := m]> (dealings_metadata s)).

(** [StoredDealing::save] and [StoredDealing::read]. *)
Definition save_dealing s (epoch_id : EpochId) (dealer : Dealer) (c : PartialContractDealing) : Storage :=
  set_dealings s (<[(epoch_id, dealer, dealing_index c, chunk_index c) := data c]> (stored_dealings s)).

Definition read_dealing s (epoch_id : EpochId) (dealer : Dealer) (index : DealingIndex) (chunk : ChunkIndex)
    : option (list byte) :=
  stored_dealings s !! (epoch_id, dealer, index, chunk).

(** ** [epoch_state/utils.rs] *)

Definition check_state_completion s (epoch : Epoch.t) : result bool :=
  let progress := Epoch.state_progress epoch in
  match Epoch.state epoch with
  | EpochState.WaitingInitialisation => Ok false
  | EpochState.PublicKeySubmission _ => Ok false
  | EpochState.DealingExchange resharing =>
      let? expected_dealings :=
        if negb resharing
        then u32_mul (key_size (contract_state s)) (StateProgress.registered_dealers progress)
        else u32_mul (key_size (contract_state s)) (StateProgress.registered_resharing_dealers progress) in
      Ok (expected_dealings =? StateProgress.submitted_dealings progress)
  | EpochState.VerificationKeySubmission _ =>
      Ok (StateProgress.submitted_key_shares progress =? StateProgress.registered_dealers progress)
  | EpochState.VerificationKeyValidation _ => Ok false
  | EpochState.VerificationKeyFinalization _ =>
      Ok (StateProgress.verified_keys progress =? StateProgress.submitted_key_shares progress)
  | EpochState.InProgress => Ok false
  end.

Definition check_epoch_state s (against : EpochState.t) : result unit :=
  let epoch_state := Epoch.state (current_epoch s) in
  if bool_decide (epoch_state <> against)
  then Err (IncorrectEpochState (EpochState.to_string epoch_state) (EpochState.to_string against))
  else Ok tt.

(** [Admin::assert_admin] of [cw_controllers]. *)
Definition assert_admin (admin : option Addr) (caller : Addr) : result unit :=
  ensure (bool_decide (admin = Some caller)) NotAdmin.

Section Transactions.
Context `{ChainApi} `{TimestampApi} `{TimestampMath} `{GroupQuerier}.
Context {Binary : Type} `{Serde Binary ExecuteMsg} `{Serde Binary (MultisigExecuteMsg Binary)}.

(** The address of the contract, [env.contract.address]. *)
Context (contract_address : Addr).

Abbreviation Response := (list (CosmosMsg Binary)).
Abbreviation tx := (result (Storage * Response)).

Definition validate_address (a : string) : result Addr := or_err (addr_validate a) (Std (InvalidAddress a)).

(** ** [epoch_state/transactions] *)

Definition reset_dkg_state s : Storage := set_threshold s None.

Definition try_initiate_dkg s env i : tx :=
  let? _ := assert_admin (dkg_admin s) (sender i) in
  let epoch := current_epoch s in
  if negb (bool_decide (Epoch.state epoch = EpochState.WaitingInitialisation)) then Err AlreadyInitialised
  else
    let initial_state := EpochState.PublicKeySubmission false in
    let? initial_epoch := Epoch.new initial_state 0 (Epoch.time_configuration epoch) (env_time env) in
    Ok (set_epoch s initial_epoch, []).

Definition try_trigger_reset s env i : tx :=
  let? _ := assert_admin (dkg_admin s) (sender i) in
  let current := current_epoch s in
  if negb (EpochState.is_in_progress (Epoch.state current)) then Err CantReshareDuringExchange
  else
    let? next_epoch := Epoch.next_reset current (env_time env) in
    Ok (reset_dkg_state (set_epoch s next_epoch), []).

Definition try_trigger_resharing s env i : tx :=
  let? _ := assert_admin (dkg_admin s) (sender i) in
  let current := current_epoch s in
  if negb (EpochState.is_in_progress (Epoch.state current)) then Err CantReshareDuringExchange
  else
    let? next_epoch := Epoch.next_resharing current (env_time env) in
    Ok (reset_dkg_state (set_epoch s next_epoch), []).

Definition ensure_can_advance_state s env (current : Epoch.t) : result unit :=
  if bool_decide (Epoch.state current = EpochState.WaitingInitialisation) then Err WaitingInitialisation
  else
    let? complete := check_state_completion s current in
    if complete then Ok tt
    else
      match Epoch.deadline current with
      | Some finish_timestamp =>
          if env_time env <? finish_timestamp
          then
            let? remaining := or_panic (minus_seconds finish_timestamp (timestamp_seconds (env_time env))) Overflow in
            Err (EarlyEpochStateAdvancement (timestamp_seconds remaining))
          else Ok tt
      | None => Ok tt
      end.

Definition try_advance_epoch_state s env : tx :=
  let current := current_epoch s in
  let? _ := ensure_can_advance_state s env current in
  let next_state := default EpochState.InProgress (EpochState.next (Epoch.state current)) in
  let s :=
    if EpochState.is_dealing_exchange next_state
    then
      let registered_dealers := StateProgress.registered_dealers (Epoch.state_progress current) in
      set_threshold s (Some ((2 * registered_dealers + 3 - 1) / 3))
    else s in
  let? (next_epoch, s) :=
    if EpochState.is_in_progress next_state
    then
      let? threshold := or_err (threshold s) (Std NotFound) in
      if StateProgress.verified_keys (Epoch.state_progress current) <? threshold
      then
        let s := reset_dkg_state s in
        let? e := Epoch.next_reset current (env_time env) in Ok (e, s)
      else let? e := Epoch.update current next_state (env_time env) in Ok (e, s)
    else let? e := Epoch.update current next_state (env_time env) in Ok (e, s) in
  Ok (set_epoch s next_epoch, []).

(** ** [dealers/transactions.rs] *)

Definition ensure_group_member s (dealer : Dealer) : result unit :=
  let? weight := map_err Std (is_voting_member (group_addr (contract_state s)) dealer None) in
  let? _ := or_err weight Unauthorized in
  Ok tt.

Definition try_add_dealer s i (bte_key_with_proof identity_key announce_address : string) (resharing : bool) : tx :=
  let epoch := current_epoch s in
  let? _ := check_epoch_state s (EpochState.PublicKeySubmission resharing) in
  let? _ := ensure_group_member s (sender i) in
  let? (node_index, s) := get_or_assign_index s (sender i) in
  let dealer_details := mkRegistration bte_key_with_proof identity_key announce_address in
  let? s := save_dealer_details_if_not_a_dealer s (sender i) (Epoch.epoch_id epoch) dealer_details in
  let? is_resharing_dealer :=
    if resharing
    then
      if Epoch.epoch_id epoch <? 1 then Panic ExplicitPanic
      else Ok (is_dealer s (sender i) (Epoch.epoch_id epoch - 1))
    else Ok false in
  let progress := Epoch.state_progress (current_epoch s) in
  let? registered := u32_add (StateProgress.registered_dealers progress) 1 in
  let? registered_resharing :=
    if is_resharing_dealer then u32_add (StateProgress.registered_resharing_dealers progress) 1
    else Ok (StateProgress.registered_resharing_dealers progress) in
  Ok (set_epoch s (Epoch.set_progress (current_epoch s)
        (StateProgress.mk registered registered_resharing (StateProgress.submitted_dealings progress)
           (StateProgress.submitted_key_shares progress) (StateProgress.verified_keys progress))), []).

(** ** [dealings/transactions.rs] *)

Definition ensure_permission s (from : Addr) (current_epoch_id : EpochId) (resharing : bool) : result unit :=
  let? _ := check_epoch_state s (EpochState.DealingExchange resharing) in
  let? _ := ensure_dealer s from current_epoch_id in
  if resharing then ensure_dealer s from (saturating_sub current_epoch_id 1) else Ok tt.

(** The loop over the chunks but the last one. *)
Fixpoint ensure_even_split (epoch_id : EpochId) (dealer : Addr) (index : DealingIndex) (first_chunk_size : Z)
    (chunks : list (Z * DealingChunkInfo.t)) : result unit :=
  match chunks with
  | [] => Ok tt
  | (chunk, c) :: chunks =>
      if negb (DealingChunkInfo.size c =? first_chunk_size)
      then Err (UnevenChunkSplit epoch_id dealer index (as_u16 chunk) first_chunk_size (DealingChunkInfo.size c))
      else ensure_even_split epoch_id dealer index first_chunk_size chunks
  end.

Definition try_submit_dealings_metadata s i (index : DealingIndex) (chunks : list DealingChunkInfo.t) (resharing : bool) : tx :=
  let id := Epoch.epoch_id (current_epoch s) in
  let? _ := ensure_permission s (sender i) id resharing in
  if metadata_exists s id (sender i) index then Err (MetadataAlreadyExists id (sender i) index)
  else if key_size (contract_state s) <=? index
  then Err (DealingOutOfRange id (sender i) index (key_size (contract_state s)))
  else
    match chunks with
    | [] => Err (EmptyMetadata id (sender i) index)
    | first :: _ =>
        if existsb (fun c => DealingChunkInfo.size c =? 0) chunks then Err (EmptyMetadata id (sender i) index)
        else if MAX_DEALING_CHUNKS <? len chunks then Err (TooFragmentedMetadata id (sender i) index (len chunks))
        else
          let? _ := ensure_even_split id (sender i) index (DealingChunkInfo.size first)
                      (take (length chunks - 1) (enumerate chunks)) in
          Ok (store_metadata s id (sender i) index (DealingMetadata.new index chunks), [])
    end.

Definition try_commit_dealings_chunk s env i (chunk : PartialContractDealing) : tx :=
  let epoch := current_epoch s in
  let id := Epoch.epoch_id epoch in
  let? metadata := must_read_metadata s id (sender i) (dealing_index chunk) in
  match DealingMetadata.submitted_chunks metadata !! chunk_index chunk with
  | None => Err (DealingChunkNotInMetadata id (sender i) (dealing_index chunk) (chunk_index chunk))
  | Some submission_status =>
      match submission_height (status submission_status) with
      | Some height => Err (DealingChunkAlreadyCommitted id (sender i) (dealing_index chunk) (chunk_index chunk) height)
      | None =>
          if negb (DealingChunkInfo.size (info submission_status) =? len (data chunk))
          then Err (InconsistentChunkLength id (sender i) (dealing_index chunk) (chunk_index chunk)
                      (DealingChunkInfo.size (info submission_status)) (len (data chunk)))
          else
            let metadata := DealingMetadata.mk (DealingMetadata.index metadata)
              (<[chunk_index chunk := mkSubmittedChunk (info submission_status) (mkChunkStatus (Some (block_height env)))]>
                 (DealingMetadata.submitted_chunks metadata)) in
            let s := store_metadata s id (sender i) (dealing_index chunk) metadata in
            let s := save_dealing s id (sender i) chunk in
            if DealingMetadata.is_complete metadata
            then
              let progress := Epoch.state_progress epoch in
              let? submitted_dealings := u32_add (StateProgress.submitted_dealings progress) 1 in
              Ok (set_epoch s (Epoch.set_progress epoch
                    (StateProgress.mk (StateProgress.registered_dealers progress)
                       (StateProgress.registered_resharing_dealers progress) submitted_dealings
                       (StateProgress.submitted_key_shares progress) (StateProgress.verified_keys progress))), [])
            else Ok (s, [])
      end
  end.

(** ** [verification_key_shares/transactions.rs] *)

Definition BLOCK_TIME_FOR_VERIFICATION_SECS : Z := 86400.

(** [to_cosmos_msg] of [verification_key.rs]. *)
Definition to_cosmos_msg (owner : Addr) (resharing : bool) (coconut_dkg_addr multisig_addr : string)
    (expiration_time : Timestamp) : result (CosmosMsg Binary) :=
  let? verify_vk_share_req := or_err (to_binary (VerifyVerificationKeyShare owner resharing)) SerializeErr in
  let verify_vk_share_msg := WasmExecute coconut_dkg_addr verify_vk_share_req [] in
  let? req := or_err (to_binary (Propose "Verify VK share, as ordered by Coconut DKG Contract" EmptyString
                                   [verify_vk_share_msg] (Some (AtTime expiration_time)))) SerializeErr in
  Ok (WasmExecute multisig_addr req []).

(** [owner_from_cosmos_msgs] of [verification_key.rs], with which the signers read a proposal. *)
Definition owner_from_cosmos_msgs (msgs : list (CosmosMsg Binary)) : option string :=
  match msgs with
  | [WasmExecute _ msg _] =>
      match from_binary msg with
      | Some (VerifyVerificationKeyShare owner _) => Some owner
      | _ => None
      end
  | _ => None
  end.

Definition try_commit_verification_key_share s env i (share : string) (resharing : bool) : tx :=
  let? _ := check_epoch_state s (EpochState.VerificationKeySubmission resharing) in
  let epoch := current_epoch s in
  let id := Epoch.epoch_id epoch in
  let? details := get_dealer_details s (sender i) id in
  match vk_shares s !! (sender i, id) with
  | Some _ => Err (AlreadyCommitted "verification key share")
  | None =>
      let data := mkShare share (announce_address (registration details)) (assigned_index details) (sender i)
                    (Epoch.epoch_id (current_epoch s)) false in
      let s := set_shares s (<[(sender i, id) := data]> (vk_shares s)) in
      let? expiration := or_panic (plus_seconds (env_time env) BLOCK_TIME_FOR_VERIFICATION_SECS) Overflow in
      let? msg := to_cosmos_msg (sender i) resharing contract_address (multisig_addr (contract_state s)) expiration in
      let progress := Epoch.state_progress epoch in
      let? submitted := u32_add (StateProgress.submitted_key_shares progress) 1 in
      Ok (set_epoch s (Epoch.set_progress epoch
            (StateProgress.mk (StateProgress.registered_dealers progress)
               (StateProgress.registered_resharing_dealers progress) (StateProgress.submitted_dealings progress)
               submitted (StateProgress.verified_keys progress))), [msg])
  end.

Definition try_verify_verification_key_share s i (owner : string) (resharing : bool) : tx :=
  let? owner_addr := validate_address owner in
  let? _ := check_epoch_state s (EpochState.VerificationKeyFinalization resharing) in
  let epoch := current_epoch s in
  let id := Epoch.epoch_id epoch in
  let? _ := assert_admin (multisig s) (sender i) in
  let? sh := or_err (vk_shares s !! (owner_addr, id)) (NoCommitForOwner owner_addr) in
  let sh := set_verified sh in
  let s := set_shares s (<[(owner_addr, id) := sh]> (vk_shares s)) in
  let progress := Epoch.state_progress epoch in
  let? verified := u32_add (StateProgress.verified_keys progress) 1 in
  Ok (set_epoch s (Epoch.set_progress epoch
        (StateProgress.mk (StateProgress.registered_dealers progress)
           (StateProgress.registered_resharing_dealers progress) (StateProgress.submitted_dealings progress)
           (StateProgress.submitted_key_shares progress) verified)), []).

(** ** Entry points, [contract.rs] *)

Definition instantiate env i (msg : InstantiateMsg) : result Storage :=
  let? multisig_addr := validate_address (init_multisig_addr msg) in
  let? group_addr := or_err (addr_validate (init_group_addr msg)) (InvalidGroup (init_group_addr msg)) in
  let state := mkState (init_mix_denom msg) multisig_addr group_addr (init_key_size msg) in
  let? epoch := Epoch.new EpochState.WaitingInitialisation 0
                  (default TimeConfiguration.default_times (init_time_configuration msg)) (env_time env) in
  Ok (mkStorage (Some (sender i)) (Some multisig_addr) state epoch None None ∅ ∅ ∅ ∅ ∅).

Definition execute s env i (msg : ExecuteMsg) : tx :=
  match msg with
  | InitiateDkg => try_initiate_dkg s env i
  | RegisterDealer bte_key_with_proof identity_key announce_address resharing =>
      try_add_dealer s i bte_key_with_proof identity_key announce_address resharing
  | CommitDealingsMetadata dealing_index chunks resharing => try_submit_dealings_metadata s i dealing_index chunks resharing
  | CommitDealingsChunk chunk => try_commit_dealings_chunk s env i chunk
  | CommitVerificationKeyShare share resharing => try_commit_verification_key_share s env i share resharing
  | VerifyVerificationKeyShare owner resharing => try_verify_verification_key_share s i owner resharing
  | AdvanceEpochState => try_advance_epoch_state s env
  | TriggerReset => try_trigger_reset s env i
  | TriggerResharing => try_trigger_resharing s env i
  end.

End Transactions.

(** ** Queries *)

(** [StateAdvanceResponse] of [types.rs]. *)
Record StateAdvanceResponse : Type := mkAdvance {
  current_state : EpochState.t;
  progress : StateProgress.t;
  advance_deadline : option Timestamp;
  reached_deadline : bool;
  is_complete : bool
}.

Definition can_advance (r : StateAdvanceResponse) : bool := reached_deadline r || is_complete r.

(** [Default]. *)
Definition no_advance : StateAdvanceResponse := mkAdvance EpochState.WaitingInitialisation StateProgress.zero None false false.

(** A page: the entries, and the key to continue after. *)
Record Paged (A K : Type) : Type := mkPaged { entries : list A; start_next_after : option K }.
Arguments mkPaged {A K} entries start_next_after.
Arguments entries {A K} p.
Arguments start_next_after {A K} p.

Definition DEALER_INDICES_PAGE_MAX_LIMIT : Z := 80.
Definition DEALER_INDICES_PAGE_DEFAULT_LIMIT : Z := 40.
Definition DEALERS_PAGE_MAX_LIMIT : Z := 25.
Definition DEALERS_PAGE_DEFAULT_LIMIT : Z := 10.
Definition VERIFICATION_KEY_SHARES_PAGE_MAX_LIMIT : Z := 30.
Definition VERIFICATION_KEY_SHARES_PAGE_DEFAULT_LIMIT : Z := 10.

(** [Map::prefix] of the first component of the key. *)
Definition prefix_entries {V} (epoch_id : EpochId) (m : gmap (EpochId * Addr) V) : list (Addr * V) :=
  (fun kv => (kv.1.2, kv.2)) <$> filter (fun kv => kv.1.1 = epoch_id) (ascending m).

Section Queries.
Context `{ChainApi}.

(** *** [epoch_state/queries.rs] *)

Definition query_can_advance_state s env : result StateAdvanceResponse :=
  let epoch := current_epoch s in
  if bool_decide (Epoch.state epoch = EpochState.WaitingInitialisation) then Ok no_advance
  else
    let? is_complete := check_state_completion s epoch in
    let reached_deadline :=
      match Epoch.deadline epoch with Some finish_timestamp => finish_timestamp <=? env_time env | None => false end in
    Ok (mkAdvance (Epoch.state epoch) (Epoch.state_progress epoch) (Epoch.deadline epoch) reached_deadline is_complete).

Definition query_current_epoch_threshold s : option Z := threshold s.

(** *** [dealers/queries.rs] *)

Definition query_registered_dealer_details s (dealer_address : string) (epoch_id : option EpochId)
    : result (option DealerRegistrationDetails) :=
  let? addr := validate_address dealer_address in
  let epoch_id := default (Epoch.epoch_id (current_epoch s)) epoch_id in
  Ok (match get_registration_details s addr epoch_id with Ok d => Some d | _ => None end).

Definition query_dealer_details s (dealer_address : string) : result (option DealerDetails * DealerType) :=
  let? addr := validate_address dealer_address in
  let id := Epoch.epoch_id (current_epoch s) in
  match get_dealer_details s addr id with
  | Ok d => Ok (Some d, Current (assigned_index d))
  | _ =>
      match get_dealer_index s addr id with
      | Ok index => Ok (None, Past index)
      | _ => Ok (None, Unknown)
      end
  end.

(** [start_after.map(addr_validate).transpose()]. *)
Definition validate_start (start_after : option string) : result (option Addr) :=
  match start_after with
  | Some a => let? a := validate_address a in Ok (Some a)
  | None => Ok None
  end.

Definition query_dealers_indices_paged s (start_after : option string) (limit : option Z)
    : result (Paged (Addr * NodeIndex) Addr) :=
  let limit := page_limit limit DEALER_INDICES_PAGE_DEFAULT_LIMIT DEALER_INDICES_PAGE_MAX_LIMIT in
  let? start := validate_start start_after in
  let dealers := page start limit (ascending (dealers_indices s)) in
  Ok (mkPaged dealers (fst <$> last dealers)).

(** The body of the [map] of [query_current_dealers_paged]. *)
Definition dealer_of_entry s (kv : Addr * DealerRegistrationDetails) : result DealerDetails :=
  let? assigned_index := unwrap (get_dealer_index s kv.1 (Epoch.epoch_id (current_epoch s))) in
  Ok (mkDealerDetails kv.1 kv.2 assigned_index).

Definition query_current_dealers_paged s (start_after : option string) (limit : option Z)
    : result (Paged DealerDetails Addr) :=
  let limit := page_limit limit DEALERS_PAGE_DEFAULT_LIMIT DEALERS_PAGE_MAX_LIMIT in
  let? start := validate_start start_after in
  let? dealers := mapM_outcome (dealer_of_entry s)
                    (page start limit (prefix_entries (Epoch.epoch_id (current_epoch s)) (epoch_dealers s))) in
  Ok (mkPaged dealers (address <$> last dealers)).

(** *** [dealings/queries.rs] *)

Definition query_dealing_metadata s (epoch_id : EpochId) (dealer : string) (index : DealingIndex)
    : result (option DealingMetadata.t) :=
  let? dealer := validate_address dealer in
  Ok (dealings_metadata s !! (epoch_id, dealer, index)).

(** The statuses of all dealings, and whether all are fully submitted. *)
Definition query_dealer_dealings_status s (epoch_id : EpochId) (dealer : string)
    : result (bool * gmap DealingIndex DealingStatus) :=
  let? dealer := validate_address dealer in
  let statuses := foldl (fun m index => <[index := dealing_status (dealings_metadata s !! (epoch_id, dealer, index))]> m) ∅
                    (zrange 0 (key_size (contract_state s))) in
  Ok (bool_decide (map_Forall (fun _ d => fully_submitted d = true) statuses), statuses).

Definition query_dealing_status s (epoch_id : EpochId) (dealer : string) (index : DealingIndex) : result DealingStatus :=
  let? dealer := validate_address dealer in
  Ok (dealing_status (dealings_metadata s !! (epoch_id, dealer, index))).

Definition query_dealing_chunk_status s (epoch_id : EpochId) (dealer : string) (index : DealingIndex) (chunk : ChunkIndex)
    : result ChunkSubmissionStatus :=
  let? dealer := validate_address dealer in
  Ok (default (mkChunkStatus None)
        (m ← dealings_metadata s !! (epoch_id, dealer, index);
         c ← DealingMetadata.submitted_chunks m !! chunk; Some (status c))).

Definition query_dealing_chunk s (epoch_id : EpochId) (dealer : string) (index : DealingIndex) (chunk : ChunkIndex)
    : result (option (list byte)) :=
  let? dealer := validate_address dealer in
  Ok (read_dealing s epoch_id dealer index chunk).

(** *** [verification_key_shares/queries.rs] *)

Definition query_vk_share s (owner : string) (epoch_id : EpochId) : result (option ContractVKShare) :=
  let? owner := validate_address owner in
  Ok (vk_shares s !! (owner, epoch_id)).

Definition query_vk_shares_paged s (epoch_id : EpochId) (start_after : option string) (limit : option Z)
    : result (Paged ContractVKShare Addr) :=
  let limit := page_limit limit VERIFICATION_KEY_SHARES_PAGE_DEFAULT_LIMIT VERIFICATION_KEY_SHARES_PAGE_MAX_LIMIT in
  let? addr := validate_start start_after in
  let start := (fun a => (a, epoch_id)) <$> addr in
  let shares := snd <$> page start limit (filter (fun kv => share_epoch_id kv.2 = epoch_id) (ascending (vk_shares s))) in
  Ok (mkPaged shares (owner <$> last shares)).

End Queries.

End Dkg.
