(* ===== verification/DkgFacts.v ===== *)
(** * The distributed key generation, epoch by epoch

    The step relation [step] lists what a message changes in the storage of
    the contract; [execute] makes no other steps.  The invariant [inv] says
    that the counters of an epoch are the numbers of what was received in it,
    and holds on every reachable storage.  From it follow the guarantees of
    the exchange: a phase ends before its deadline only when everything has
    arrived, indices are unique and permanent, past epochs do not change, and
    a dealing that was sent in chunks is read back. *)

From Stdlib Require Import String.
From S2P Require Import Prelude Bytes Cosmwasm VestingTypes Paging Accounting DkgContract.
From Stdlib.Strings Require Import Byte.
Import Dkg.
#[local] Open Scope Z_scope.

(** ** Counting entries of a map *)

Section Counting.
Context {K V : Type} `{Countable K}.
Implicit Types (m : gmap K V) (P : K -> V -> bool).

Definition count P m : Z := ksum (fun k v => if P k v then 1 else 0) m.

Lemma count_filter P m : count P m = len (filter (fun kv => P kv.1 kv.2 = true) (map_to_list m)).
Proof.
  unfold count, ksum. induction (map_to_list m) as [|[k v] l IH]; [done|].
  rewrite fmap_cons, zsum_cons, IH, filter_cons. simpl. destruct (P k v) eqn:E.
  - rewrite decide_True by done. rewrite len_cons. lia.
  - rewrite decide_False by done. lia.
Qed.

Lemma count_nonneg P m : 0 <= count P m.
Proof. apply ksum_nonneg. intros k v _. destruct (P k v); lia. Qed.

Lemma count_insert_new P m k v : m !! k = None -> count P (<[k := v]> m) = count P m + (if P k v then 1 else 0).
Proof. intros Hk. unfold count. rewrite ksum_insert, Hk. simpl. lia. Qed.

Lemma count_insert P m k v v' :
  m !! k = Some v' -> count P (<[k := v]> m) = count P m - (if P k v' then 1 else 0) + (if P k v then 1 else 0).
Proof. intros Hk. unfold count. by rewrite ksum_insert, Hk. Qed.

Lemma count_ext P Q m : (forall k v, m !! k = Some v -> P k v = Q k v) -> count P m = count Q m.
Proof.
  intros He. unfold count, ksum. f_equal. apply list_fmap_ext. intros n [k v] Hkv. simpl.
  apply list_elem_of_lookup_2, elem_of_map_to_list in Hkv. by rewrite (He _ _ Hkv).
Qed.

Lemma count_none P m : (forall k v, m !! k = Some v -> P k v = false) -> count P m = 0.
Proof. intros Hm. apply ksum_zero. intros k v Hk. by rewrite (Hm _ _ Hk). Qed.

(** The keys that are counted. *)
Definition counted P m : list K := fst <$> filter (fun kv => P kv.1 kv.2 = true) (map_to_list m).

Lemma len_counted P m : len (counted P m) = count P m.
Proof. unfold counted. by rewrite len_fmap, count_filter. Qed.

Lemma elem_of_counted P m k : k ∈ counted P m <-> exists v, m !! k = Some v /\ P k v = true.
Proof.
  unfold counted. rewrite list_elem_of_fmap. split.
  - intros ([k' v] & -> & [Hp Hk]%list_elem_of_filter). exists v. by rewrite <- elem_of_map_to_list.
  - intros (v & Hk & Hp). exists (k, v). split; [done|]. apply list_elem_of_filter. by rewrite elem_of_map_to_list.
Qed.

Lemma NoDup_counted P m : NoDup (counted P m).
Proof.
  unfold counted. apply NoDup_fmap_2_strong; [|apply NoDup_filter, NoDup_map_to_list].
  intros [k v] [k' v'] [_ Hx%elem_of_map_to_list]%list_elem_of_filter [_ Hy%elem_of_map_to_list]%list_elem_of_filter.
  simpl. intros <-. congruence.
Qed.

(** When as many entries are counted as there are admissible keys, every admissible key is among them. *)
Lemma full_count P m (keys : list K) :
  (forall k v, m !! k = Some v -> P k v = true -> k ∈ keys) -> len keys <= count P m ->
  forall k, k ∈ keys -> exists v, m !! k = Some v /\ P k v = true.
Proof.
  intros Hsub Hlen k Hk. apply elem_of_counted.
  assert (counted P m ⊆+ keys) as Hs.
  { apply NoDup_submseteq; [apply NoDup_counted|]. intros x (v & Hx & Hp)%elem_of_counted. by eapply Hsub. }
  rewrite <- len_counted in Hlen. unfold len in Hlen.
  by rewrite (submseteq_length_Permutation _ _ Hs ltac:(lia)).
Qed.

Lemma counted_zero P m k v : count P m = 0 -> m !! k = Some v -> P k v = false.
Proof.
  intros Hc Hk. destruct (P k v) eqn:E; [|done]. rewrite <- len_counted in Hc.
  assert (k ∈ counted P m) as Hin by (apply elem_of_counted; eauto).
  destruct (counted P m); [by apply not_elem_of_nil in Hin|]. rewrite len_cons in Hc. pose proof (len_nonneg l). lia.
Qed.

End Counting.

(** Takes apart a successful run, pairs and numbers included. *)
Ltac dkg_inv :=
  repeat first
    [ run_step
    | match goal with
      | x : prod _ _ |- _ => destruct x
      | x : unit |- _ => destruct x
      | H : u32_add _ _ = Ok _ |- _ => apply u32_add_Ok in H as [-> H]
      | H : u64_add _ _ = Ok _ |- _ => apply u64_add_Ok in H as [-> H]
      | H : negb _ = true |- _ => apply negb_true_iff in H
      | H : negb _ = false |- _ => apply negb_false_iff in H
      | H : bool_decide _ = true |- _ => apply bool_decide_eq_true in H
      | H : bool_decide _ = false |- _ => apply bool_decide_eq_false in H
      end ];
  simplify_eq/=.

(** ** What a message changes *)

Abbreviation phase s := (Epoch.state (current_epoch s)) (only parsing).
Abbreviation id_of s := (Epoch.epoch_id (current_epoch s)) (only parsing).
Abbreviation progress_of s := (Epoch.state_progress (current_epoch s)) (only parsing).

Definition with_progress (s : Storage) (p : StateProgress.t) : Storage :=
  set_epoch s (Epoch.set_progress (current_epoch s) p).

(** The epoch [e] starts: nothing has been received in it. *)
Definition fresh_epoch (e : Epoch.t) (state : EpochState.t) (id : EpochId) : Prop :=
  Epoch.state e = state /\ Epoch.epoch_id e = id /\ Epoch.state_progress e = StateProgress.zero /\
  is_Some (Epoch.deadline e).

(** The threshold that goes with a number of dealers. *)
Definition threshold_of (dealers : Z) : Z := (2 * dealers + 3 - 1) / 3.

Definition receive_chunk (m : DealingMetadata.t) (c : ChunkIndex) (sc : SubmittedChunk) (height : Z) : DealingMetadata.t :=
  DealingMetadata.mk (DealingMetadata.index m)
    (<[c := mkSubmittedChunk (info sc) (mkChunkStatus (Some height))]> (DealingMetadata.submitted_chunks m)).

Definition add_dealing (p : StateProgress.t) (m : DealingMetadata.t) : StateProgress.t :=
  StateProgress.mk (StateProgress.registered_dealers p) (StateProgress.registered_resharing_dealers p)
    (if DealingMetadata.is_complete m then StateProgress.submitted_dealings p + 1 else StateProgress.submitted_dealings p)
    (StateProgress.submitted_key_shares p) (StateProgress.verified_keys p).

(** A dealing is announced as at least one and not too many chunks, none of them empty, and all but the
    last one of the same size. *)
Definition announcement (chunks : list DealingChunkInfo.t) : Prop :=
  chunks <> [] /\ len chunks <= MAX_DEALING_CHUNKS /\ Forall (fun c => DealingChunkInfo.size c <> 0) chunks /\
  forall k c c0, chunks !! 0%nat = Some c0 -> chunks !! k = Some c -> (S k < length chunks)%nat ->
    DealingChunkInfo.size c = DealingChunkInfo.size c0.

Inductive step (s : Storage) : Storage -> Prop :=
| Initiated e :
    phase s = EpochState.WaitingInitialisation -> fresh_epoch e (EpochState.PublicKeySubmission false) 0 ->
    step s (set_epoch s e)
| Restarted e resharing :
    phase s = EpochState.InProgress \/
    (exists r t, phase s = EpochState.VerificationKeyFinalization r /\ resharing = false /\
       threshold s = Some t /\ StateProgress.verified_keys (progress_of s) < t) ->
    fresh_epoch e (EpochState.PublicKeySubmission resharing) (id_of s + 1) ->
    step s (set_epoch (set_threshold s None) e)
| Advanced e t :
    phase s <> EpochState.WaitingInitialisation ->
    Epoch.state e = default EpochState.InProgress (EpochState.next (phase s)) ->
    Epoch.epoch_id e = id_of s -> Epoch.state_progress e = progress_of s -> is_Some (Epoch.deadline e) ->
    t = (if EpochState.is_dealing_exchange (Epoch.state e)
         then Some (threshold_of (StateProgress.registered_dealers (progress_of s))) else threshold s) ->
    (EpochState.is_in_progress (Epoch.state e) = true ->
       exists n, t = Some n /\ n <= StateProgress.verified_keys (progress_of s)) ->
    step s (set_epoch (set_threshold s t) e)
| Registered dealer details resharing counter index indices old :
    phase s = EpochState.PublicKeySubmission resharing ->
    epoch_dealers s !! (id_of s, dealer) = None ->
    (dealers_indices s !! dealer = Some index /\ indices = dealers_indices s /\ counter = node_index_counter s \/
     dealers_indices s !! dealer = None /\ index = default 0 (node_index_counter s) + 1 /\
     counter = Some index /\ indices = <[dealer := index]> (dealers_indices s)) ->
    (old = resharing && is_dealer s dealer (id_of s - 1)) ->
    (resharing = true -> 1 <= id_of s) ->
    step s (with_progress (set_dealers (set_indices s counter indices) (<[(id_of s, dealer) := details]> (epoch_dealers s)))
      (StateProgress.mk (StateProgress.registered_dealers (progress_of s) + 1)
         (if old then StateProgress.registered_resharing_dealers (progress_of s) + 1
          else StateProgress.registered_resharing_dealers (progress_of s))
         (StateProgress.submitted_dealings (progress_of s)) (StateProgress.submitted_key_shares (progress_of s))
         (StateProgress.verified_keys (progress_of s))))
| Announced dealer index chunks resharing :
    phase s = EpochState.DealingExchange resharing -> 0 <= index ->
    is_dealer s dealer (id_of s) = true ->
    (resharing = true -> is_dealer s dealer (saturating_sub (id_of s) 1) = true) ->
    dealings_metadata s !! (id_of s, dealer, index) = None -> index < key_size (contract_state s) ->
    announcement chunks -> step s (store_metadata s (id_of s) dealer index (DealingMetadata.new index chunks))
| Received dealer c m sc height :
    dealings_metadata s !! (id_of s, dealer, dealing_index c) = Some m ->
    DealingMetadata.submitted_chunks m !! chunk_index c = Some sc ->
    submitted sc = false -> DealingChunkInfo.size (info sc) = len (data c) ->
    let m' := receive_chunk m (chunk_index c) sc height in
    step s (with_progress (save_dealing (store_metadata s (id_of s) dealer (dealing_index c) m') (id_of s) dealer c)
              (add_dealing (progress_of s) m'))
| Shared dealer sh index announce resharing details :
    phase s = EpochState.VerificationKeySubmission resharing ->
    epoch_dealers s !! (id_of s, dealer) = Some details -> dealers_indices s !! dealer = Some index ->
    vk_shares s !! (dealer, id_of s) = None ->
    step s (with_progress
      (set_shares s (<[(dealer, id_of s) := mkShare sh announce index dealer (id_of s) false]> (vk_shares s)))
      (StateProgress.mk (StateProgress.registered_dealers (progress_of s))
         (StateProgress.registered_resharing_dealers (progress_of s)) (StateProgress.submitted_dealings (progress_of s))
         (StateProgress.submitted_key_shares (progress_of s) + 1) (StateProgress.verified_keys (progress_of s))))
| Verified who sh resharing :
    phase s = EpochState.VerificationKeyFinalization resharing ->
    vk_shares s !! (who, id_of s) = Some sh ->
    step s (with_progress (set_shares s (<[(who, id_of s) := set_verified sh]> (vk_shares s)))
      (StateProgress.mk (StateProgress.registered_dealers (progress_of s))
         (StateProgress.registered_resharing_dealers (progress_of s)) (StateProgress.submitted_dealings (progress_of s))
         (StateProgress.submitted_key_shares (progress_of s)) (StateProgress.verified_keys (progress_of s) + 1))).

(** The numbers of a message are in the range of their types. *)
Definition typed_msg (msg : ExecuteMsg) : Prop :=
  match msg with
  | CommitDealingsMetadata index chunks _ => 0 <= index <= u32_max /\ Forall (fun c => is_u64 (DealingChunkInfo.size c)) chunks
  | CommitDealingsChunk c => 0 <= dealing_index c <= u32_max /\ 0 <= chunk_index c < 2 ^ 16
  | _ => True
  end.

Section Execution.
Context `{ChainApi} `{TimestampApi} `{TimestampMath} `{GroupQuerier}.
Context {Binary : Type} `{Serde Binary ExecuteMsg} `{Serde Binary (MultisigExecuteMsg Binary)}.
Context (contract_address : Addr).
Implicit Types (s : Storage) (env : Env) (i : MessageInfo).

Lemma new_fresh {E} state id times now e :
  @Epoch.new E _ state id times now = Ok e -> state <> EpochState.WaitingInitialisation -> fresh_epoch e state id.
Proof.
  unfold Epoch.new, Epoch.deadline_after. intros He Hs.
  destruct (TimeConfiguration.state_duration times state) eqn:Ed; [|by destruct state].
  run_inv. repeat split; eauto.
Qed.

Lemma update_spec {E} e state now e' :
  @Epoch.update E _ e state now = Ok e' -> state <> EpochState.WaitingInitialisation ->
  Epoch.state e' = state /\ Epoch.epoch_id e' = Epoch.epoch_id e /\ Epoch.state_progress e' = Epoch.state_progress e /\
  is_Some (Epoch.deadline e').
Proof.
  unfold Epoch.update, Epoch.deadline_after. intros He Hs.
  destruct (TimeConfiguration.state_duration (Epoch.time_configuration e) state) eqn:Ed; [|by destruct state].
  run_inv. repeat split; eauto.
Qed.

(** Clocks can overflow, but there is no other error. *)
Lemma epoch_no_err {E} e state now (x : E) : Epoch.update e state now <> Err x /\ Epoch.next_reset e now <> Err x.
Proof.
  unfold Epoch.update, Epoch.next_reset, Epoch.new, Epoch.deadline_after, u64_add, or_panic.
  destruct (TimeConfiguration.state_duration _ state) as [d|]; [destruct (plus_seconds now d)|];
    (split; [done|]; destruct (_ <=? _); [|done]; simpl; by destruct (plus_seconds _ _)).
Qed.

Lemma check_epoch_state_Ok s against u : check_epoch_state s against = Ok u -> phase s = against.
Proof. unfold check_epoch_state. intros Hc. run_inv. by apply bool_decide_eq_false in C; apply dec_stable in C. Qed.

Lemma advance_allowed s env u :
  ensure_can_advance_state s env (current_epoch s) = Ok u -> phase s <> EpochState.WaitingInitialisation.
Proof. unfold ensure_can_advance_state. intros Hg. by dkg_inv. Qed.

Lemma update_step s env e t next :
  Epoch.update (E := ContractError) (current_epoch s) next (env_time env) = Ok e ->
  phase s <> EpochState.WaitingInitialisation -> next = default EpochState.InProgress (EpochState.next (phase s)) ->
  t = (if EpochState.is_dealing_exchange next
       then Some (threshold_of (StateProgress.registered_dealers (progress_of s))) else threshold s) ->
  (EpochState.is_in_progress next = true -> exists n, t = Some n /\ n <= StateProgress.verified_keys (progress_of s)) ->
  step s (set_epoch (set_threshold s t) e).
Proof.
  intros He Hw Hn Ht Hp. apply update_spec in He as (He1 & He2 & He3 & He4); [|by rewrite Hn; destruct (phase s)].
  apply Advanced; congruence || (rewrite He1; congruence) || by rewrite He1.
Qed.

Lemma reset_step s env e r resharing :
  Epoch.new (E := ContractError) (EpochState.PublicKeySubmission resharing) (id_of s + 1) r (env_time env) = Ok e ->
  phase s = EpochState.InProgress \/
  (exists r t, phase s = EpochState.VerificationKeyFinalization r /\ resharing = false /\
     threshold s = Some t /\ StateProgress.verified_keys (progress_of s) < t) ->
  step s (set_epoch (set_threshold s None) e).
Proof. intros He Hs. eapply Restarted; [done|]. by eapply new_fresh. Qed.

Lemma advance_step s env s' r :
  try_advance_epoch_state (Binary := Binary) s env = Ok (s', r) -> step s s'.
Proof.
  unfold try_advance_epoch_state. intros Ha. apply obind_Ok_inv in Ha as (u & Hg & Ha). apply advance_allowed in Hg as Hw.
  clear Hg u.
  destruct (EpochState.is_in_progress (default EpochState.InProgress (EpochState.next (phase s)))) eqn:Hp.
  - assert (phase s = EpochState.InProgress \/ exists r, phase s = EpochState.VerificationKeyFinalization r) as Hp'.
    { destruct (phase s); eauto; done. }
    assert (EpochState.is_dealing_exchange (default EpochState.InProgress (EpochState.next (phase s))) = false) as Hd.
    { destruct Hp' as [->|[? ->]]; done. }
    rewrite Hd in Ha. dkg_inv.
    + unfold Epoch.next_reset in *. dkg_inv. eapply reset_step; [done|].
      destruct Hp' as [?|[? ?]]; [by left|]. right. apply Z.ltb_lt in C. eauto 10.
    + apply Z.ltb_ge in C. eapply (update_step _ _ _ (threshold s)); eauto. by rewrite Hd.
  - dkg_inv. destruct (EpochState.is_dealing_exchange _) eqn:Hd; eapply update_step; eauto; rewrite ?Hd, ?Hp; done.
Qed.

Lemma initiate_step s env i s' r : try_initiate_dkg (Binary := Binary) s env i = Ok (s', r) -> step s s'.
Proof. unfold try_initiate_dkg. intros Ht. dkg_inv. apply Initiated; [done|]. by eapply new_fresh. Qed.

Lemma in_progress_phase p : EpochState.is_in_progress p = true -> p = EpochState.InProgress.
Proof. by destruct p. Qed.

Lemma trigger_step s env i s' r :
  try_trigger_reset (Binary := Binary) s env i = Ok (s', r) \/ try_trigger_resharing (Binary := Binary) s env i = Ok (s', r) ->
  step s s'.
Proof.
  unfold try_trigger_reset, try_trigger_resharing, Epoch.next_reset, Epoch.next_resharing.
  intros [Ht|Ht]; dkg_inv; (eapply reset_step; [done|]); left; by apply in_progress_phase.
Qed.

Lemma assigned_index_spec s dealer index s' :
  get_or_assign_index s dealer = Ok (index, s') ->
  exists counter indices, s' = set_indices s counter indices /\
    (dealers_indices s !! dealer = Some index /\ indices = dealers_indices s /\ counter = node_index_counter s \/
     dealers_indices s !! dealer = None /\ index = default 0 (node_index_counter s) + 1 /\
     counter = Some index /\ indices = <[dealer := index]> (dealers_indices s)).
Proof.
  unfold get_or_assign_index, next_node_index. intros Hi. destruct (dealers_indices s !! dealer) eqn:Hd; dkg_inv.
  - exists (node_index_counter s'), (dealers_indices s'). split; [by destruct s'|by left].
  - eexists _, _. split; [reflexivity|]. by right.
Qed.

Lemma add_dealer_step s i key identity announce resharing s' r :
  try_add_dealer (Binary := Binary) s i key identity announce resharing = Ok (s', r) -> step s s'.
Proof.
  unfold try_add_dealer. intros Ht. apply obind_Ok_inv in Ht as (u & Hc%check_epoch_state_Ok & Ht).
  apply obind_Ok_inv in Ht as (u' & _ & Ht). apply obind_Ok_inv in Ht as ([index s1] & Hi & Ht).
  apply obind_Ok_inv in Ht as (s2 & Hs & Ht). unfold save_dealer_details_if_not_a_dealer in Hs.
  apply assigned_index_spec in Hi as (counter & indices & -> & Hi).
  destruct (bool_decide _) eqn:C in Hs; [done|]. apply bool_decide_eq_false, eq_None_not_Some in C. simpl in C.
  injection Hs as <-. set (old := resharing && is_dealer s (sender i) (id_of s - 1)).
  apply obind_Ok_inv in Ht as (b & Hb & Ht).
  assert (b = old /\ (resharing = true -> 1 <= id_of s)) as [-> Hr].
  { unfold old. destruct resharing; [|dkg_inv; done]. destruct (Z.ltb_spec (id_of s) 1); [done|]. injection Hb as <-. split; [|done].
    unfold is_dealer. simpl. rewrite lookup_insert_ne; [done|]. intros [= E]. lia. }
  clear Hb. pose proof (Registered s (sender i) (mkRegistration key identity announce) _ counter index indices old Hc C Hi eq_refl Hr) as Hst.
  destruct old; dkg_inv; exact Hst.
Qed.

Lemma lookup_enumerate {A} (l : list A) k x : l !! k = Some x -> enumerate l !! k = Some (Z.of_nat k, x).
Proof.
  intros Hk. unfold enumerate. apply lookup_zip_with_Some. exists (Z.of_nat k), x. split_and!; [done| |done].
  apply lookup_lt_Some in Hk. unfold zrange. rewrite list_lookup_fmap, lookup_seq_lt by (unfold len; lia). simpl. f_equal.
Qed.

Lemma even_split_Ok id dealer index size chunks u :
  ensure_even_split id dealer index size chunks = Ok u -> Forall (fun ic => DealingChunkInfo.size ic.2 = size) chunks.
Proof.
  induction chunks as [|[k c] chunks IH]; intros He; simpl in He; [constructor|].
  destruct (Z.eqb_spec (DealingChunkInfo.size c) size); [|done]. constructor; [done|by apply IH].
Qed.

Lemma checked_announcement id dealer index first chunks u :
  existsb (fun c => DealingChunkInfo.size c =? 0) (first :: chunks) = false ->
  (MAX_DEALING_CHUNKS <? len (first :: chunks)) = false ->
  ensure_even_split id dealer index (DealingChunkInfo.size first) (take (length (first :: chunks) - 1) (enumerate (first :: chunks))) = Ok u ->
  announcement (first :: chunks).
Proof.
  intros Hz Hl%Z.ltb_ge He%even_split_Ok. split_and!; [done|done| |].
  - apply Forall_forall. intros c Hc E. apply not_true_iff_false in Hz. apply Hz. apply existsb_exists.
    exists c. split; [by apply list_elem_of_In|by apply Z.eqb_eq].
  - intros k c c0 [= <-] Hk Hlt. rewrite Forall_forall in He. apply (He (Z.of_nat k, c)).
    apply (list_elem_of_lookup_2 _ k). rewrite lookup_take_lt by (simpl in *; lia). by apply lookup_enumerate.
Qed.

Lemma metadata_effect s i index chunks resharing s' r :
  try_submit_dealings_metadata (Binary := Binary) s i index chunks resharing = Ok (s', r) ->
  phase s = EpochState.DealingExchange resharing /\ is_dealer s (sender i) (id_of s) = true /\
  (resharing = true -> is_dealer s (sender i) (saturating_sub (id_of s) 1) = true) /\
  dealings_metadata s !! (id_of s, sender i, index) = None /\ index < key_size (contract_state s) /\ announcement chunks /\
  s' = store_metadata s (id_of s) (sender i) index (DealingMetadata.new index chunks).
Proof.
  unfold try_submit_dealings_metadata, ensure_permission, ensure_dealer, metadata_exists. intros Ht.
  apply obind_Ok_inv in Ht as (u & Hp & Ht). apply obind_Ok_inv in Hp as (u1 & Hc%check_epoch_state_Ok & Hp).
  apply obind_Ok_inv in Hp as (u2 & Hd & Hp).
  destruct chunks as [|first chunks]; [by dkg_inv|].
  destruct (bool_decide _) eqn:Hm in Ht; [done|]. apply bool_decide_eq_false, eq_None_not_Some in Hm.
  destruct (Z.leb_spec (key_size (contract_state s)) index); [done|].
  destruct (existsb _ _) eqn:Hz; [done|]. destruct (MAX_DEALING_CHUNKS <? _) eqn:Hl; [done|].
  apply obind_Ok_inv in Ht as (u3 & He & Ht). injection Ht as <- <-.
  split_and!; [done| | |done|done|by eapply checked_announcement|done].
  - by dkg_inv.
  - intros ->. by dkg_inv.
Qed.

Lemma metadata_step s i index chunks resharing s' r :
  0 <= index -> try_submit_dealings_metadata (Binary := Binary) s i index chunks resharing = Ok (s', r) -> step s s'.
Proof. intros Hi (? & ? & ? & ? & ? & ? & ->)%metadata_effect. by eapply Announced. Qed.

Lemma chunk_effect s env i c s' r :
  try_commit_dealings_chunk (Binary := Binary) s env i c = Ok (s', r) ->
  exists m sc, dealings_metadata s !! (id_of s, sender i, dealing_index c) = Some m /\
    DealingMetadata.submitted_chunks m !! chunk_index c = Some sc /\
    submitted sc = false /\ DealingChunkInfo.size (info sc) = len (data c) /\
    let m' := receive_chunk m (chunk_index c) sc (block_height env) in
    s' = with_progress (save_dealing (store_metadata s (id_of s) (sender i) (dealing_index c) m') (id_of s) (sender i) c)
           (add_dealing (progress_of s) m').
Proof.
  unfold try_commit_dealings_chunk, must_read_metadata. intros Ht. apply obind_Ok_inv in Ht as (m & Hm%or_err_Ok & Ht).
  destruct (DealingMetadata.submitted_chunks m !! chunk_index c) as [sc|] eqn:Hc; [|done].
  destruct (submission_height (status sc)) eqn:Hh; [done|].
  destruct (Z.eqb_spec (DealingChunkInfo.size (info sc)) (len (data c))) as [Hsz|]; [|done]. simpl in Ht.
  exists m, sc. split_and!; try done; [unfold submitted; rewrite Hh; by apply bool_decide_eq_false, is_Some_None|].
  change (DealingMetadata.mk _ _) with (receive_chunk m (chunk_index c) sc (block_height env)) in Ht.
  cbv zeta. unfold add_dealing, with_progress. destruct (DealingMetadata.is_complete _) eqn:E in Ht; rewrite E.
  - by dkg_inv.
  - injection Ht as <- <-. by destruct s as [? ? ? [? ? []]].
Qed.

Lemma chunk_step s env i c s' r : try_commit_dealings_chunk (Binary := Binary) s env i c = Ok (s', r) -> step s s'.
Proof. intros (m & sc & ? & ? & ? & ? & ->)%chunk_effect. by apply Received. Qed.

Lemma share_step s env i sh resharing s' r :
  try_commit_verification_key_share contract_address s env i sh resharing = Ok (s', r) -> step s s'.
Proof.
  unfold try_commit_verification_key_share, get_dealer_details, get_registration_details, get_dealer_index. intros Ht.
  apply obind_Ok_inv in Ht as (u & Hc%check_epoch_state_Ok & Ht). apply obind_Ok_inv in Ht as (d & Hd & Ht).
  destruct (vk_shares s !! _) eqn:Hs; [done|]. dkg_inv. by eapply Shared.
Qed.

Lemma verify_step s i who resharing s' r :
  try_verify_verification_key_share (Binary := Binary) s i who resharing = Ok (s', r) -> step s s'.
Proof.
  unfold try_verify_verification_key_share. intros Ht. apply obind_Ok_inv in Ht as (a & Ha & Ht).
  apply obind_Ok_inv in Ht as (u & Hc%check_epoch_state_Ok & Ht). dkg_inv. by eapply Verified.
Qed.

(** Every message that goes through makes one of these steps. *)
Lemma execute_is_step s env i msg s' r : typed_msg msg -> execute contract_address s env i msg = Ok (s', r) -> step s s'.
Proof.
  destruct msg; simpl; intros Hm Hx; destruct_and?;
    eauto using initiate_step, add_dealer_step, metadata_step, chunk_step, share_step, verify_step, advance_step, trigger_step.
Qed.

End Execution.

(** ** Announced and received chunks *)

(** An element of a list by an index that is an integer. *)
Definition zlookup {A} (l : list A) (i : Z) : option A := if 0 <=? i then l !! Z.to_nat i else None.

Lemma zlookup_Some {A} (l : list A) i x : zlookup l i = Some x -> 0 <= i < len l.
Proof.
  unfold zlookup. destruct (Z.leb_spec 0 i); [|done]. intros Hx%lookup_lt_Some. unfold len. lia.
Qed.

Lemma zlookup_snoc {A} (l : list A) x i : zlookup (l ++ [x]) i = if i =? len l then Some x else zlookup l i.
Proof.
  unfold zlookup, len. destruct (Z.eqb_spec i (Z.of_nat (length l))) as [->|Hi].
  - rewrite Nat2Z.id, lookup_app_r, Nat.sub_diag by lia. by destruct (Z.leb_spec 0 (Z.of_nat (length l))); [|lia].
  - destruct (Z.leb_spec 0 i); [|done]. destruct (decide (i < Z.of_nat (length l))).
    + by rewrite lookup_app_l by lia.
    + rewrite (lookup_ge_None_2 (l ++ [x])) by (rewrite length_app; simpl; lia). by rewrite lookup_ge_None_2 by lia.
Qed.

Lemma enumerate_snoc {A} (l : list A) x : enumerate (l ++ [x]) = enumerate l ++ [(len l, x)].
Proof.
  unfold enumerate. rewrite len_app. change (len [x]) with 1. rewrite zrange_snoc by apply len_nonneg.
  rewrite zip_with_app; [done|]. pose proof (len_zrange 0 (len l)). unfold len in *. lia.
Qed.

(** Collecting an enumerated list into a map with 16 bit keys. *)
Lemma collect_lookup {A B} (f : Z -> A -> B) (l : list A) c :
  len l <= 2 ^ 16 ->
  foldl (fun (m : gmap Z B) ic => <[as_u16 ic.1 := f (as_u16 ic.1) ic.2]> m) ∅ (enumerate l) !! c = f c <$> zlookup l c.
Proof.
  induction l as [|x l IH] using rev_ind; intros Hl.
  - unfold zlookup. by destruct (0 <=? c).
  - rewrite len_app, len_cons, len_nil in Hl. pose proof (len_nonneg l).
    rewrite enumerate_snoc, foldl_app, zlookup_snoc. simpl. unfold as_u16 at 1 2. rewrite Z.mod_small by lia.
    destruct (Z.eqb_spec c (len l)) as [->|Hc]; [by rewrite lookup_insert_eq|].
    rewrite lookup_insert_ne by done. apply IH. lia.
Qed.

Lemma new_chunks index chunks c :
  len chunks <= MAX_DEALING_CHUNKS ->
  DealingMetadata.submitted_chunks (DealingMetadata.new index chunks) !! c =
  (fun i => mkSubmittedChunk i (mkChunkStatus None)) <$> zlookup chunks c.
Proof.
  intros Hl. unfold DealingMetadata.new. simpl. apply (collect_lookup (fun _ i => mkSubmittedChunk i (mkChunkStatus None))).
  assert (MAX_DEALING_CHUNKS = 50) by done. lia.
Qed.

(** The metadata of a dealing lists the chunks of an announcement. *)
Definition well_announced (m : DealingMetadata.t) : Prop :=
  exists chunks, announcement chunks /\ forall c, info <$> DealingMetadata.submitted_chunks m !! c = zlookup chunks c.

Lemma well_announced_new index chunks : announcement chunks -> well_announced (DealingMetadata.new index chunks).
Proof.
  intros Ha. exists chunks. split; [done|]. intros c. destruct Ha as (_ & Hl & _). rewrite new_chunks by done.
  by destruct (zlookup chunks c).
Qed.

Lemma well_announced_receive m c sc height :
  DealingMetadata.submitted_chunks m !! c = Some sc -> well_announced m -> well_announced (receive_chunk m c sc height).
Proof.
  intros Hc (chunks & Ha & Hm). exists chunks. split; [done|]. intros c'. unfold receive_chunk. simpl.
  destruct (decide (c = c')) as [<-|Hne]; [|by rewrite lookup_insert_ne].
  rewrite lookup_insert_eq. specialize (Hm c). by rewrite Hc in Hm.
Qed.

Lemma new_incomplete index chunks : announcement chunks -> DealingMetadata.is_complete (DealingMetadata.new index chunks) = false.
Proof.
  intros (Hn & Hl & _). apply bool_decide_eq_false. intros Hc. destruct chunks as [|c chunks]; [done|].
  specialize (Hc 0 (mkSubmittedChunk c (mkChunkStatus None))). rewrite new_chunks in Hc by done.
  specialize (Hc eq_refl). unfold submitted in Hc. apply bool_decide_eq_true in Hc. by apply is_Some_None in Hc.
Qed.

(** The metadata was incomplete as long as a chunk is missing. *)
Lemma missing_incomplete m c sc :
  DealingMetadata.submitted_chunks m !! c = Some sc -> submitted sc = false -> DealingMetadata.is_complete m = false.
Proof. intros Hc Hs. apply bool_decide_eq_false. intros Hm. specialize (Hm _ _ Hc). simpl in Hm. congruence. Qed.

(** ** The invariant of the data *)

(** Whether the exchange that is going on is a resharing. *)
Definition mode (p : EpochState.t) : option bool :=
  match p with
  | EpochState.PublicKeySubmission r | EpochState.DealingExchange r | EpochState.VerificationKeySubmission r
  | EpochState.VerificationKeyValidation r | EpochState.VerificationKeyFinalization r => Some r
  | EpochState.WaitingInitialisation | EpochState.InProgress => None
  end.

(** What is stored for a chunk agrees with the status in the metadata. *)
Definition chunk_ok (s : Storage) (e : EpochId) (d : Addr) (j : DealingIndex) (c : ChunkIndex) : Prop :=
  match stored_dealings s !! (e, d, j, c) with
  | Some b => exists m sc, dealings_metadata s !! (e, d, j) = Some m /\ DealingMetadata.submitted_chunks m !! c = Some sc /\
      submitted sc = true /\ len b = DealingChunkInfo.size (info sc)
  | None => forall m sc, dealings_metadata s !! (e, d, j) = Some m -> DealingMetadata.submitted_chunks m !! c = Some sc ->
      submitted sc = false
  end.

Record data_ok (s : Storage) : Prop := {
  ok_id : 0 <= id_of s;
  ok_dealers e d x : epoch_dealers s !! (e, d) = Some x -> 0 <= e <= id_of s /\ is_Some (dealers_indices s !! d);
  ok_metadata e d j m : dealings_metadata s !! (e, d, j) = Some m ->
    is_dealer s d e = true /\ 0 <= j < key_size (contract_state s) /\ well_announced m;
  ok_reshared d j m : dealings_metadata s !! (id_of s, d, j) = Some m -> mode (phase s) = Some true ->
    is_dealer s d (id_of s - 1) = true;
  ok_chunks e d j c : chunk_ok s e d j c;
  ok_shares a e sh : vk_shares s !! (a, e) = Some sh ->
    owner sh = a /\ share_epoch_id sh = e /\ is_dealer s a e = true /\ dealers_indices s !! a = Some (share_node_index sh);
  ok_counter : 0 <= default 0 (node_index_counter s);
  ok_index a n : dealers_indices s !! a = Some n -> 1 <= n <= default 0 (node_index_counter s);
  ok_index_inj a b n : dealers_indices s !! a = Some n -> dealers_indices s !! b = Some n -> a = b;
  ok_mode : mode (phase s) = Some true -> 1 <= id_of s;
  ok_waiting : phase s = EpochState.WaitingInitialisation -> id_of s = 0
}.

Lemma is_dealer_true s d e : is_dealer s d e = true <-> exists x, epoch_dealers s !! (e, d) = Some x.
Proof. unfold is_dealer. by rewrite bool_decide_eq_true. Qed.

(** Steps between epochs and phases do not touch the data. *)
Lemma data_ok_epoch s t e :
  data_ok s -> id_of s <= Epoch.epoch_id e ->
  (Epoch.epoch_id e = id_of s -> mode (Epoch.state e) = mode (phase s) \/ mode (Epoch.state e) <> Some true) ->
  (mode (Epoch.state e) = Some true -> 1 <= Epoch.epoch_id e) -> Epoch.state e <> EpochState.WaitingInitialisation ->
  data_ok (set_epoch (set_threshold s t) e).
Proof.
  intros Hs Hid Hm H1 Hw. pose proof (ok_id s Hs). split; simpl; try apply Hs; [lia| | |done|done].
  - intros e' d x Hx. apply (ok_dealers s Hs) in Hx. split; [lia|apply Hx].
  - intros d j m Hx Hmode. destruct (decide (Epoch.epoch_id e = id_of s)) as [E|E].
    + rewrite E in *. destruct (Hm eq_refl) as [Hm'|]; [|done]. rewrite Hm' in Hmode. by eapply (ok_reshared s Hs).
    + apply (ok_metadata s Hs) in Hx as (Hd & _). apply is_dealer_true in Hd as [x Hd].
      apply (ok_dealers s Hs) in Hd. lia.
Qed.

(** Progress is not part of the data. *)
Lemma data_ok_progress s p : data_ok s -> data_ok (with_progress s p).
Proof. intros Hs. split; apply Hs. Qed.

Lemma data_ok_register s dealer details counter index indices :
  data_ok s -> epoch_dealers s !! (id_of s, dealer) = None ->
  (dealers_indices s !! dealer = Some index /\ indices = dealers_indices s /\ counter = node_index_counter s \/
   dealers_indices s !! dealer = None /\ index = default 0 (node_index_counter s) + 1 /\
   counter = Some index /\ indices = <[dealer := index]> (dealers_indices s)) ->
  data_ok (set_dealers (set_indices s counter indices) (<[(id_of s, dealer) := details]> (epoch_dealers s))).
Proof.
  intros Hs Hd Hi.
  assert (forall a n, dealers_indices s !! a = Some n -> indices !! a = Some n) as Hmono.
  { intros a n Ha. destruct Hi as [(_ & -> & _)|(Hn & _ & _ & ->)]; [done|]. rewrite lookup_insert_ne; [done|congruence]. }
  assert (indices !! dealer = Some index) as Hdi.
  { destruct Hi as [(? & -> & _)|(_ & _ & _ & ->)]; [done|by rewrite lookup_insert_eq]. }
  assert (forall a e, is_dealer s a e = true ->
    is_dealer (set_dealers (set_indices s counter indices) (<[(id_of s, dealer) := details]> (epoch_dealers s))) a e = true) as Hde.
  { intros a e. rewrite !is_dealer_true. simpl. intros [x Hx]. destruct (decide ((id_of s, dealer) = (e, a))) as [<-|Hne];
      [rewrite lookup_insert_eq; eauto|rewrite lookup_insert_ne by done; eauto]. }
  split; simpl; try apply Hs.
  - intros e d x. destruct (decide ((id_of s, dealer) = (e, d))) as [[= <- <-]|Hne].
    + pose proof (ok_id s Hs). intros _. rewrite Hdi. split; [lia|eauto].
    + rewrite lookup_insert_ne by done. intros (? & [n Hn])%(ok_dealers s Hs). split; [done|]. exists n. by apply Hmono.
  - intros e d j m (Hm1 & Hm2)%(ok_metadata s Hs). split; [by apply Hde|done].
  - intros d j m Hm Hmode. eapply Hde, (ok_reshared s Hs); done.
  - intros a e sh (? & ? & ? & ?)%(ok_shares s Hs). split_and!; [done|done|by apply Hde|by apply Hmono].
  - pose proof (ok_counter s Hs). destruct Hi as [(_ & _ & ->)|(_ & -> & -> & _)]; simpl; lia.
  - intros a n Ha. pose proof (ok_counter s Hs). destruct Hi as [(_ & -> & ->)|(Hn & -> & -> & ->)]; [by eapply (ok_index s Hs)|].
    simpl. apply lookup_insert_Some in Ha as [[_ <-]|[_ Ha]]; [lia|]. apply (ok_index s Hs) in Ha. lia.
  - intros a b n Ha Hb. destruct Hi as [(_ & -> & ->)|(Hn & -> & -> & ->)]; [by eapply (ok_index_inj s Hs)|].
    apply lookup_insert_Some in Ha as [[<- <-]|[_ Ha]], Hb as [[<- Hb]|[_ Hb]];
      [done|apply (ok_index s Hs) in Hb; exfalso; lia|subst; apply (ok_index s Hs) in Ha; exfalso; lia|by eapply (ok_index_inj s Hs)].
Qed.

Lemma data_ok_announce s dealer index chunks resharing :
  data_ok s -> phase s = EpochState.DealingExchange resharing -> 0 <= index ->
  is_dealer s dealer (id_of s) = true ->
  (resharing = true -> is_dealer s dealer (saturating_sub (id_of s) 1) = true) ->
  dealings_metadata s !! (id_of s, dealer, index) = None -> index < key_size (contract_state s) -> announcement chunks ->
  data_ok (store_metadata s (id_of s) dealer index (DealingMetadata.new index chunks)).
Proof.
  intros Hs Hp Hi Hd Hr Hm Hk Ha. split; simpl; try apply Hs.
  - intros e d j m [[[= <- <- <-] <-]|[_ Hx]]%lookup_insert_Some; [|by apply (ok_metadata s Hs)].
    split_and!; [done|done|done|by apply well_announced_new].
  - intros d j m [[[= <- <-] <-]|[_ Hx]]%lookup_insert_Some; [|by eapply (ok_reshared s Hs)].
    rewrite Hp. intros [= ->]. pose proof (ok_mode s Hs) as H1. rewrite Hp in H1. specialize (H1 eq_refl).
    specialize (Hr eq_refl). unfold saturating_sub in Hr. by rewrite Z.max_r in Hr by lia.
  - intros e d j c. pose proof (ok_chunks s Hs e d j c) as Hc. unfold chunk_ok in *. simpl.
    destruct (decide ((id_of s, dealer, index) = (e, d, j))) as [[= <- <- <-]|Hne]; [|by rewrite lookup_insert_ne].
    rewrite lookup_insert_eq. rewrite Hm in Hc. destruct (stored_dealings s !! _); [by destruct Hc as (? & ? & ? & _)|].
    intros m sc [= <-]. destruct Ha as (_ & Hl & _). rewrite new_chunks by done.
    destruct (zlookup chunks c); [|done]. intros [= <-]. apply bool_decide_eq_false, is_Some_None.
Qed.

Lemma data_ok_receive s dealer c m sc height :
  data_ok s -> dealings_metadata s !! (id_of s, dealer, dealing_index c) = Some m ->
  DealingMetadata.submitted_chunks m !! chunk_index c = Some sc ->
  DealingChunkInfo.size (info sc) = len (data c) ->
  data_ok (save_dealing (store_metadata s (id_of s) dealer (dealing_index c) (receive_chunk m (chunk_index c) sc height))
             (id_of s) dealer c).
Proof.
  intros Hs Hm Hc Hz. split; simpl; try apply Hs.
  - intros e d j m' [[[= <- <- <-] <-]|[_ Hx]]%lookup_insert_Some; [|by apply (ok_metadata s Hs)].
    apply (ok_metadata s Hs) in Hm as (? & ? & ?). split; [done|]. split; [done|]. by apply well_announced_receive.
  - intros d j m' [[[= <- <-] <-]|[_ Hx]]%lookup_insert_Some; [|by eapply (ok_reshared s Hs)].
    by eapply (ok_reshared s Hs).
  - intros e d j c'. pose proof (ok_chunks s Hs e d j c') as Hc'. unfold chunk_ok in *. simpl.
    destruct (decide ((id_of s, dealer, dealing_index c) = (e, d, j))) as [[= <- <- <-]|Hne].
    + rewrite lookup_insert_eq. destruct (decide (chunk_index c = c')) as [<-|Hne].
      * rewrite lookup_insert_eq. eexists _, _. split_and!; [done|unfold receive_chunk; simpl; by rewrite lookup_insert_eq|done|done].
      * rewrite lookup_insert_ne by congruence. rewrite Hm in Hc'. destruct (stored_dealings s !! _).
        -- destruct Hc' as (? & sc' & [= <-] & ? & ? & ?). eexists _, sc'. split_and!; [done| |done|done].
           unfold receive_chunk; simpl. by rewrite lookup_insert_ne.
        -- intros ? sc' [= <-]. unfold receive_chunk; simpl. rewrite lookup_insert_ne by done. by apply Hc'.
    + rewrite !lookup_insert_ne by congruence. done.
Qed.

Lemma data_ok_share s a sh :
  data_ok s -> is_dealer s a (id_of s) = true -> owner sh = a -> share_epoch_id sh = id_of s ->
  dealers_indices s !! a = Some (share_node_index sh) -> data_ok (set_shares s (<[(a, id_of s) := sh]> (vk_shares s))).
Proof.
  intros Hs Hd Ho He Hi. split; simpl; try apply Hs.
  intros a' e sh' [[[= <- <-] <-]|[_ Hx]]%lookup_insert_Some; [|by apply (ok_shares s Hs)]. done.
Qed.

Lemma data_ok_step s s' : step s s' -> data_ok s -> data_ok s'.
Proof.
  intros Hst Hs. pose proof (ok_id s Hs) as Hid. destruct Hst as [e Hp (E1 & E2 & _)|e rs Hp (E1 & E2 & _)
    |e t Hp E1 E2 _ _ _ _|d x rs counter index indices old Hp Hd Hi _ _|d j chunks rs Hp Hj Hd Hr Hm Hk Ha
    |d c m sc h Hm Hc Hsub Hz m'|d sh index ann rs x Hp Hx Hi Hn|a sh rs Hp Hsh].
  - apply (data_ok_epoch s (threshold s)); rewrite ?E1, ?E2; simpl; try done; [|by right]. by rewrite (ok_waiting s Hs Hp).
  - apply data_ok_epoch; rewrite ?E1, ?E2; simpl; try done; lia.
  - apply data_ok_epoch; rewrite ?E2; try done.
    + intros _. rewrite E1. destruct (phase s); simpl; auto.
    + rewrite E1. intros Hm. apply (ok_mode s Hs). by destruct (phase s).
    + rewrite E1. by destruct (phase s).
  - by eapply data_ok_progress, data_ok_register.
  - by eapply data_ok_announce.
  - by apply data_ok_progress, data_ok_receive.
  - apply data_ok_progress, data_ok_share; try done. apply is_dealer_true. eauto.
  - apply data_ok_progress. destruct (ok_shares s Hs _ _ _ Hsh) as (? & ? & ? & ?). by apply data_ok_share.
Qed.

(** ** The counters *)

Definition dealers_in (s : Storage) (e : EpochId) : Z := count (fun k _ => bool_decide (k.1 = e)) (epoch_dealers s).

(** Dealers of the epoch that were dealers of the previous one. *)
Definition resharing_dealers_in (s : Storage) (e : EpochId) : Z :=
  count (fun k _ => bool_decide (k.1 = e) && is_dealer s k.2 (e - 1)) (epoch_dealers s).

Definition full_dealings_in (s : Storage) (e : EpochId) : Z :=
  count (fun k m => bool_decide (k.1.1 = e) && DealingMetadata.is_complete m) (dealings_metadata s).

Definition shares_in (s : Storage) (e : EpochId) : Z := count (fun k _ => bool_decide (k.2 = e)) (vk_shares s).

Definition verified_shares_in (s : Storage) (e : EpochId) : Z :=
  count (fun k sh => bool_decide (k.2 = e) && verified sh) (vk_shares s).

(** The threshold of a phase. *)
Definition phase_threshold (p : EpochState.t) (registered : Z) : option Z :=
  match p with
  | EpochState.WaitingInitialisation | EpochState.PublicKeySubmission _ => None
  | _ => Some (threshold_of registered)
  end.

Record counts_ok (s : Storage) : Prop := {
  cnt_waiting : phase s = EpochState.WaitingInitialisation -> progress_of s = StateProgress.zero;
  cnt_registered : StateProgress.registered_dealers (progress_of s) = dealers_in s (id_of s);
  cnt_resharing :
    match mode (phase s) with
    | Some true => StateProgress.registered_resharing_dealers (progress_of s) = resharing_dealers_in s (id_of s)
    | Some false => StateProgress.registered_resharing_dealers (progress_of s) = 0
    | None => True
    end;
  cnt_resharing_le : 0 <= StateProgress.registered_resharing_dealers (progress_of s)
                       <= StateProgress.registered_dealers (progress_of s);
  cnt_dealings : StateProgress.submitted_dealings (progress_of s) = full_dealings_in s (id_of s);
  cnt_shares : StateProgress.submitted_key_shares (progress_of s) = shares_in s (id_of s);
  cnt_verified : verified_shares_in s (id_of s) <= StateProgress.verified_keys (progress_of s);
  cnt_threshold : threshold s = phase_threshold (phase s) (StateProgress.registered_dealers (progress_of s));
  cnt_quorum : phase s = EpochState.InProgress ->
    threshold_of (StateProgress.registered_dealers (progress_of s)) <= StateProgress.verified_keys (progress_of s);
  cnt_deadline : phase s <> EpochState.WaitingInitialisation -> is_Some (Epoch.deadline (current_epoch s))
}.

(** Nothing is stored for an epoch that has not begun. *)
Lemma no_later_data s e :
  data_ok s -> id_of s < e ->
  dealers_in s e = 0 /\ resharing_dealers_in s e = 0 /\ full_dealings_in s e = 0 /\ shares_in s e = 0 /\
  verified_shares_in s e = 0.
Proof.
  intros Hs He.
  assert (forall d, is_dealer s d e = true -> False) as Hd.
  { intros d [x Hx]%is_dealer_true. apply (ok_dealers s Hs) in Hx. lia. }
  split_and!; apply count_none.
  - intros [e' d] x Hx. apply bool_decide_eq_false. simpl. intros ->. apply (ok_dealers s Hs) in Hx. lia.
  - intros [e' d] x Hx. apply andb_false_intro1, bool_decide_eq_false. simpl. intros ->. apply (ok_dealers s Hs) in Hx. lia.
  - intros [[e' d] j] m Hm. apply andb_false_intro1, bool_decide_eq_false. simpl. intros ->.
    apply (ok_metadata s Hs) in Hm as (? & _). eauto.
  - intros [a e'] sh Hsh. apply bool_decide_eq_false. simpl. intros ->. apply (ok_shares s Hs) in Hsh as (_ & _ & ? & _). eauto.
  - intros [a e'] sh Hsh. apply andb_false_intro1, bool_decide_eq_false. simpl. intros ->.
    apply (ok_shares s Hs) in Hsh as (_ & _ & ? & _). eauto.
Qed.

(** An epoch that starts over data that has nothing of it. *)
Lemma counts_ok_fresh s e t resharing id :
  fresh_epoch e (EpochState.PublicKeySubmission resharing) id -> t = None ->
  dealers_in s id = 0 -> (resharing = true -> resharing_dealers_in s id = 0) -> full_dealings_in s id = 0 ->
  shares_in s id = 0 -> verified_shares_in s id = 0 -> counts_ok (set_epoch (set_threshold s t) e).
Proof.
  intros (E1 & E2 & E3 & E4) -> H1 H2 H3 H4 H5.
  split; simpl; rewrite ?E1, ?E2, ?E3; simpl; try done.
  - destruct resharing; [|done]. symmetry. by apply H2.
  - change (verified_shares_in _ id) with (verified_shares_in s id). lia.
Qed.

Lemma counts_ok_advance s e t :
  counts_ok s -> phase s <> EpochState.WaitingInitialisation ->
  Epoch.state e = default EpochState.InProgress (EpochState.next (phase s)) ->
  Epoch.epoch_id e = id_of s -> Epoch.state_progress e = progress_of s -> is_Some (Epoch.deadline e) ->
  t = (if EpochState.is_dealing_exchange (Epoch.state e)
       then Some (threshold_of (StateProgress.registered_dealers (progress_of s))) else threshold s) ->
  (EpochState.is_in_progress (Epoch.state e) = true ->
     exists n, t = Some n /\ n <= StateProgress.verified_keys (progress_of s)) ->
  counts_ok (set_epoch (set_threshold s t) e).
Proof.
  intros Hs Hp E1 E2 E3 E4 Et Eq.
  assert (t = phase_threshold (Epoch.state e) (StateProgress.registered_dealers (progress_of s))) as Ht.
  { rewrite Et, E1, (cnt_threshold s Hs). by destruct (phase s). }
  split; simpl; rewrite ?E2, ?E3; try apply Hs; try done.
  - intros Hw. rewrite E1 in Hw. by destruct (phase s).
  - rewrite E1. pose proof (cnt_resharing s Hs). by destruct (phase s).
  - intros Hi. rewrite Hi in *. destruct Eq as (n & En & Hn); [done|]. rewrite Ht in En. simpl in En. injection En as ->. done.
Qed.

Lemma resharing_register s s' e dealer details :
  epoch_dealers s' = <[(e, dealer) := details]> (epoch_dealers s) -> epoch_dealers s !! (e, dealer) = None ->
  resharing_dealers_in s' e = resharing_dealers_in s e + (if is_dealer s dealer (e - 1) then 1 else 0).
Proof.
  intros E Hn.
  assert (forall a, is_dealer s' a (e - 1) = is_dealer s a (e - 1)) as Hd.
  { intros a. unfold is_dealer. rewrite E, lookup_insert_ne; [done|]. intros [= He _]. lia. }
  unfold resharing_dealers_in. rewrite E, count_insert_new, Hd by done. simpl. rewrite bool_decide_eq_true_2 by done. simpl.
  f_equal. apply count_ext. intros k v _. by rewrite Hd.
Qed.

Lemma counts_ok_register s dealer details resharing counter indices old :
  counts_ok s -> phase s = EpochState.PublicKeySubmission resharing ->
  epoch_dealers s !! (id_of s, dealer) = None ->
  old = resharing && is_dealer s dealer (id_of s - 1) ->
  counts_ok (with_progress (set_dealers (set_indices s counter indices) (<[(id_of s, dealer) := details]> (epoch_dealers s)))
      (StateProgress.mk (StateProgress.registered_dealers (progress_of s) + 1)
         (if old then StateProgress.registered_resharing_dealers (progress_of s) + 1
          else StateProgress.registered_resharing_dealers (progress_of s))
         (StateProgress.submitted_dealings (progress_of s)) (StateProgress.submitted_key_shares (progress_of s))
         (StateProgress.verified_keys (progress_of s)))).
Proof.
  intros Hs Hp Hd Ho. pose proof (cnt_registered s Hs) as Hr. pose proof (cnt_resharing_le s Hs) as Hle.
  split; simpl; try apply Hs; rewrite ?Hp; try done.
  - unfold dealers_in in *. simpl. rewrite count_insert_new by done. rewrite bool_decide_eq_true_2 by done. simpl. lia.
  - simpl. pose proof (cnt_resharing s Hs) as Hrs. rewrite Hp in Hrs. simpl in Hrs. destruct resharing; [|by rewrite Ho].
    rewrite (resharing_register s _ (id_of s) dealer details) by done. rewrite Ho. simpl.
    destruct (is_dealer s dealer (id_of s - 1)); lia.
  - destruct old; lia.
  - by rewrite (cnt_threshold s Hs), Hp.
Qed.

Lemma counts_ok_announce s dealer index chunks resharing :
  counts_ok s -> phase s = EpochState.DealingExchange resharing ->
  dealings_metadata s !! (id_of s, dealer, index) = None -> announcement chunks ->
  counts_ok (store_metadata s (id_of s) dealer index (DealingMetadata.new index chunks)).
Proof.
  intros Hs Hp Hm Ha. split; simpl; try apply Hs. pose proof (cnt_dealings s Hs) as Hd. unfold full_dealings_in in *. simpl.
  rewrite count_insert_new by done. rewrite new_incomplete, andb_false_r by done. lia.
Qed.

(** Before the first exchange there are no dealings. *)
Lemma waiting_no_dealings s d j m :
  data_ok s -> counts_ok s -> dealings_metadata s !! (id_of s, d, j) = Some m ->
  phase s <> EpochState.WaitingInitialisation.
Proof.
  intros Hd Hc Hm Hw. apply (ok_metadata s Hd) in Hm as (Hx & _). apply is_dealer_true in Hx as [x Hx].
  pose proof (cnt_registered s Hc) as Hr. rewrite (cnt_waiting s Hc Hw) in Hr. simpl in Hr.
  apply (counted_zero (fun k _ => bool_decide (k.1 = id_of s))) in Hx; [|done]. by apply bool_decide_eq_false in Hx.
Qed.

Lemma counts_ok_receive s dealer c m sc height :
  data_ok s -> counts_ok s -> dealings_metadata s !! (id_of s, dealer, dealing_index c) = Some m ->
  DealingMetadata.submitted_chunks m !! chunk_index c = Some sc -> submitted sc = false ->
  let m' := receive_chunk m (chunk_index c) sc height in
  counts_ok (with_progress (save_dealing (store_metadata s (id_of s) dealer (dealing_index c) m') (id_of s) dealer c)
              (add_dealing (progress_of s) m')).
Proof.
  intros Hdt Hs Hm Hc Hsub m'. split; simpl; try apply Hs.
  - intros Hw. exfalso. by eapply waiting_no_dealings.
  - pose proof (cnt_dealings s Hs) as Hd. unfold full_dealings_in in *. simpl. rewrite (count_insert _ _ _ _ m) by done.
    rewrite (missing_incomplete m _ _ Hc Hsub), andb_false_r. simpl. rewrite bool_decide_eq_true_2 by done. simpl.
    destruct (DealingMetadata.is_complete m'); lia.
Qed.

Lemma counts_ok_share s a sh resharing :
  counts_ok s -> phase s = EpochState.VerificationKeySubmission resharing -> vk_shares s !! (a, id_of s) = None ->
  verified sh = false ->
  counts_ok (with_progress (set_shares s (<[(a, id_of s) := sh]> (vk_shares s)))
    (StateProgress.mk (StateProgress.registered_dealers (progress_of s))
       (StateProgress.registered_resharing_dealers (progress_of s)) (StateProgress.submitted_dealings (progress_of s))
       (StateProgress.submitted_key_shares (progress_of s) + 1) (StateProgress.verified_keys (progress_of s)))).
Proof.
  intros Hs Hp Hn Hv. split; simpl; try apply Hs.
  - by rewrite Hp.
  - pose proof (cnt_shares s Hs) as Hc. unfold shares_in in *. simpl. rewrite count_insert_new by done. simpl.
    rewrite bool_decide_eq_true_2 by done. lia.
  - pose proof (cnt_verified s Hs) as Hc. unfold verified_shares_in in *. simpl. rewrite count_insert_new by done. simpl.
    rewrite Hv, andb_false_r. lia.
Qed.

Lemma counts_ok_verify s a sh resharing :
  counts_ok s -> phase s = EpochState.VerificationKeyFinalization resharing -> vk_shares s !! (a, id_of s) = Some sh ->
  counts_ok (with_progress (set_shares s (<[(a, id_of s) := set_verified sh]> (vk_shares s)))
    (StateProgress.mk (StateProgress.registered_dealers (progress_of s))
       (StateProgress.registered_resharing_dealers (progress_of s)) (StateProgress.submitted_dealings (progress_of s))
       (StateProgress.submitted_key_shares (progress_of s)) (StateProgress.verified_keys (progress_of s) + 1))).
Proof.
  intros Hs Hp Hsh. split; simpl; try apply Hs.
  - by rewrite Hp.
  - pose proof (cnt_shares s Hs) as Hc. unfold shares_in in *. simpl. rewrite (count_insert _ _ _ _ sh) by done. simpl. lia.
  - pose proof (cnt_verified s Hs) as Hc. unfold verified_shares_in in *. simpl. rewrite (count_insert _ _ _ _ sh) by done. simpl.
    rewrite andb_true_r. destruct (bool_decide _), (verified sh); simpl; lia.
  - by rewrite Hp.
Qed.

Lemma counts_ok_step s s' : step s s' -> data_ok s -> counts_ok s -> counts_ok s'.
Proof.
  intros Hst Hd Hs. destruct Hst as [e Hp He|e rs Hp He|e t Hp E1 E2 E3 E4 E5 E6
    |d x rs counter index indices old Hp Hx Hi Ho Hr|d j chunks rs Hp Hj Hx Hr Hm Hk Ha
    |d c m sc h Hm Hc Hsub Hz m'|d sh index ann rs x Hp Hx Hi Hn|a sh rs Hp Hsh].
  - pose proof (cnt_waiting s Hs Hp) as Hz. pose proof (ok_waiting s Hd Hp) as Hi.
    pose proof (cnt_registered s Hs). pose proof (cnt_dealings s Hs). pose proof (cnt_shares s Hs).
    pose proof (cnt_verified s Hs). pose proof (count_nonneg (fun k sh => bool_decide (k.2 = 0) && verified sh) (vk_shares s)).
    unfold verified_shares_in in *. rewrite Hz, Hi in *. simpl in *.
    eapply (counts_ok_fresh s e (threshold s) _ 0); try done; [by rewrite (cnt_threshold s Hs), Hp|].
    unfold verified_shares_in. lia.
  - destruct (no_later_data s (id_of s + 1) Hd) as (? & ? & ? & ? & ?); [lia|]. by eapply counts_ok_fresh.
  - by apply counts_ok_advance.
  - by eapply counts_ok_register.
  - by eapply counts_ok_announce.
  - by eapply counts_ok_receive.
  - by eapply counts_ok_share.
  - by eapply counts_ok_verify.
Qed.

(** ** Reachable storages *)

Section Reachable.
Context `{ChainApi} `{TimestampApi} `{TimestampMath}.
Context {Binary : Type} `{Serde Binary ExecuteMsg} `{Serde Binary (MultisigExecuteMsg Binary)}.
Context (contract_address : Addr).

(** After the instantiation and any messages, from anyone and at any time; the group may be another one
    for every message. *)
Inductive reachable : Storage -> Prop :=
| reachable_init env i msg s : instantiate env i msg = Ok s -> reachable s
| reachable_step s (group : GroupQuerier) env i msg s' r :
    reachable s -> typed_msg msg -> execute (Binary := Binary) contract_address s env i msg = Ok (s', r) -> reachable s'.

Lemma instantiated env i msg s : instantiate env i msg = Ok s -> data_ok s /\ counts_ok s.
Proof.
  unfold instantiate, validate_address, Epoch.new. simpl. intros Hi. dkg_inv. split.
  - split; simpl; try done; try lia. intros e d j c. unfold chunk_ok. simpl. by rewrite lookup_empty.
  - split; simpl; done.
Qed.

Lemma reachable_ok s : reachable s -> data_ok s /\ counts_ok s.
Proof.
  induction 1 as [env i msg s Hi|s group env i msg s' r _ [Hd Hc] Ht Hx]; [by eapply instantiated|].
  apply execute_is_step in Hx; [|done]. split; [by eapply data_ok_step|by eapply counts_ok_step].
Qed.

(** ** Keys that are verified once *)

(** The message does not verify a key of the current epoch that is verified already. *)
Definition verifies_once (s : Storage) (msg : ExecuteMsg) : Prop :=
  match msg with
  | VerifyVerificationKeyShare owner _ =>
      forall a sh, validate_address owner = Ok a -> vk_shares s !! (a, id_of s) = Some sh -> verified sh = false
  | _ => True
  end.

(** Reached without verifying any key twice. *)
Inductive orderly : Storage -> Prop :=
| orderly_init env i msg s : instantiate env i msg = Ok s -> orderly s
| orderly_step s (group : GroupQuerier) env i msg s' r :
    orderly s -> typed_msg msg -> verifies_once s msg ->
    execute (Binary := Binary) contract_address s env i msg = Ok (s', r) -> orderly s'.

Lemma orderly_reachable s : orderly s -> reachable s.
Proof. induction 1; [by eapply reachable_init|by eapply reachable_step]. Qed.

(** Each verified key is counted once. *)
Definition exact (s : Storage) : Prop := StateProgress.verified_keys (progress_of s) = verified_shares_in s (id_of s).

Lemma verified_nonneg s : counts_ok s -> 0 <= StateProgress.verified_keys (progress_of s).
Proof. intros Hc. pose proof (cnt_verified s Hc). unfold verified_shares_in in *. pose proof (count_nonneg (fun k sh => bool_decide (k.2 = id_of s) && verified sh) (vk_shares s)). lia. Qed.

(** Only the message that verifies a key adds to the verified keys. *)
Lemma counted_by_message (group : GroupQuerier) s env i msg s' r rs :
  counts_ok s -> execute (Binary := Binary) contract_address s env i msg = Ok (s', r) ->
  phase s = EpochState.VerificationKeyFinalization rs ->
  StateProgress.verified_keys (progress_of s') = StateProgress.verified_keys (progress_of s) + 1 ->
  exists owner rs', msg = VerifyVerificationKeyShare owner rs'.
Proof.
  intros Hc Hx Hp Hv. pose proof (verified_nonneg s Hc). destruct msg; simpl in Hx; [..|by eauto| | |].
  - unfold try_initiate_dkg in Hx. dkg_inv. congruence.
  - unfold try_add_dealer in Hx. apply obind_Ok_inv in Hx as (u & Hx%check_epoch_state_Ok & _). congruence.
  - unfold try_submit_dealings_metadata, ensure_permission in Hx. apply obind_Ok_inv in Hx as (u & Hx & _).
    apply obind_Ok_inv in Hx as (u' & Hx%check_epoch_state_Ok & _). congruence.
  - apply chunk_effect in Hx as (m & sc & _ & _ & _ & _ & ->). simpl in Hv. lia.
  - unfold try_commit_verification_key_share in Hx. apply obind_Ok_inv in Hx as (u & Hx%check_epoch_state_Ok & _). congruence.
  - unfold try_advance_epoch_state in Hx. apply obind_Ok_inv in Hx as (u & _ & Hx). rewrite Hp in Hx. simpl in Hx.
    unfold Epoch.next_reset, Epoch.new, Epoch.update in Hx. dkg_inv; lia.
  - unfold try_trigger_reset in Hx. dkg_inv. by rewrite Hp in *.
  - unfold try_trigger_resharing in Hx. dkg_inv. by rewrite Hp in *.
Qed.

(** Every other step keeps the count of verified keys exact. *)
Lemma exact_step s s' :
  step s s' -> data_ok s -> counts_ok s -> exact s ->
  exact s' \/ (exists rs, phase s = EpochState.VerificationKeyFinalization rs) /\
    StateProgress.verified_keys (progress_of s') = StateProgress.verified_keys (progress_of s) + 1.
Proof.
  unfold exact. intros Hst Hd Hs He. destruct Hst as [e Hp (E1 & E2 & E3 & _)|e rs Hp (E1 & E2 & E3 & _)|e t Hp E1 E2 E3 E4 E5 E6
    |d x rs counter index indices old Hp Hx Hi Ho Hr|d j chunks rs Hp Hj Hx Hr Hm Hk Ha
    |d c m sc h Hm Hc Hsub Hz m'|d sh index ann rs x Hp Hx Hi Hn|a sh rs Hp Hsh]; [left..|by right; eauto].
  - simpl. rewrite E2, E3. rewrite (cnt_waiting s Hs Hp), (ok_waiting s Hd Hp) in He. done.
  - simpl. rewrite E2, E3. destruct (no_later_data s (id_of s + 1) Hd) as (_ & _ & _ & _ & Hv); [lia|]. symmetry. exact Hv.
  - simpl. by rewrite E2, E3.
  - done.
  - done.
  - done.
  - simpl. unfold verified_shares_in in *. simpl. rewrite count_insert_new by done. simpl. rewrite andb_false_r. lia.
Qed.

Lemma orderly_exact s : orderly s -> exact s.
Proof.
  induction 1 as [env i msg s Hi|s group env i msg s' r Ho IH Ht Hv Hx].
  { unfold instantiate, Epoch.new in Hi. simpl in Hi. by dkg_inv. }
  apply orderly_reachable, reachable_ok in Ho as [Hd Hc].
  destruct (exact_step s s' ltac:(by eapply execute_is_step) Hd Hc IH) as [He|[[rs Hp] Hn]]; [done|].
  destruct (counted_by_message group s env i msg s' r rs Hc Hx Hp Hn) as (owner & rs' & ->). simpl in Hx, Hv.
  unfold try_verify_verification_key_share in Hx. apply obind_Ok_inv in Hx as (a & Ha & Hx).
  apply obind_Ok_inv in Hx as (u & _ & Hx). dkg_inv. specialize (Hv _ _ Ha E0).
  unfold exact, verified_shares_in in *. simpl in *. rewrite (count_insert _ _ _ _ _ E0). simpl. rewrite bool_decide_eq_true_2 by done.
  rewrite Hv. simpl. lia.
Qed.

(** ** Completion of a phase *)

(** All chunks of a dealing have been received, with their announced lengths. *)
Definition received (s : Storage) (e : EpochId) (d : Addr) (j : DealingIndex) : Prop :=
  exists m, dealings_metadata s !! (e, d, j) = Some m /\ well_announced m /\
    forall c sc, DealingMetadata.submitted_chunks m !! c = Some sc ->
      exists b, read_dealing s e d j c = Some b /\ len b = DealingChunkInfo.size (info sc).

Lemma complete_received s e d j m :
  data_ok s -> dealings_metadata s !! (e, d, j) = Some m -> DealingMetadata.is_complete m = true -> received s e d j.
Proof.
  intros Hs Hm Hc. exists m. destruct (ok_metadata s Hs _ _ _ _ Hm) as (_ & _ & Ha). split_and!; [done|done|].
  intros c sc Hsc. apply bool_decide_eq_true in Hc. specialize (Hc _ _ Hsc). simpl in Hc.
  pose proof (ok_chunks s Hs e d j c) as Hk. unfold chunk_ok in Hk. unfold read_dealing.
  destruct (stored_dealings s !! _) as [b|].
  - destruct Hk as (m' & sc' & Hm' & Hsc' & _ & Hl). simplify_eq. eauto.
  - specialize (Hk _ _ Hm Hsc). congruence.
Qed.

(** The dealings that a list of dealers has to submit. *)
Definition dealing_keys (e : EpochId) (dealers : list Addr) (n : Z) : list (EpochId * Addr * DealingIndex) :=
  (fun dj => (e, dj.1, dj.2)) <$> list_prod dealers (zrange 0 n).

Lemma len_dealing_keys e dealers n : 0 <= n -> len (dealing_keys e dealers n) = n * len dealers.
Proof.
  intros Hn. unfold dealing_keys. rewrite len_fmap. unfold len. rewrite length_prod.
  pose proof (len_zrange 0 n). unfold len in *. nia.
Qed.

Lemma elem_of_dealing_keys e dealers n d j : (e, d, j) ∈ dealing_keys e dealers n <-> d ∈ dealers /\ 0 <= j < n.
Proof.
  unfold dealing_keys. rewrite list_elem_of_fmap, <- elem_of_zrange. split.
  - intros ([d' j'] & [= -> ->] & Hin). rewrite list_elem_of_In, in_prod_iff, <- !list_elem_of_In in Hin. done.
  - intros Hin. exists (d, j). split; [done|]. by rewrite list_elem_of_In, in_prod_iff, <- !list_elem_of_In.
Qed.

(** The dealers of an epoch among whom the dealings are counted. *)
Definition expected_dealers (s : Storage) (resharing : bool) (e : EpochId) : list Addr :=
  snd <$> counted (fun k _ => bool_decide (k.1 = e) && (negb resharing || is_dealer s k.2 (e - 1))) (epoch_dealers s).

Lemma elem_of_expected s resharing e d :
  d ∈ expected_dealers s resharing e <->
  is_dealer s d e = true /\ (resharing = true -> is_dealer s d (e - 1) = true).
Proof.
  unfold expected_dealers. rewrite list_elem_of_fmap, is_dealer_true. split.
  - intros ([e' d'] & -> & (x & Hx & Hp)%elem_of_counted). simpl in *. apply andb_true_iff in Hp as [->%bool_decide_eq_true Hp].
    split; [eauto|]. intros ->. exact Hp.
  - intros ([x Hx] & Hr). exists (e, d). split; [done|]. apply elem_of_counted. exists x. split; [done|]. simpl.
    rewrite bool_decide_eq_true_2 by done. destruct resharing; [|done]. by rewrite Hr.
Qed.

Lemma len_expected s resharing e :
  len (expected_dealers s resharing e) = if resharing then resharing_dealers_in s e else dealers_in s e.
Proof.
  unfold expected_dealers. rewrite len_fmap, len_counted. unfold resharing_dealers_in, dealers_in.
  destruct resharing; apply count_ext; intros k v _; simpl; by rewrite ?andb_true_r.
Qed.

Lemma all_dealings_received s resharing :
  data_ok s -> counts_ok s -> phase s = EpochState.DealingExchange resharing ->
  check_state_completion s (current_epoch s) = Ok true ->
  forall d j, is_dealer s d (id_of s) = true -> (resharing = true -> is_dealer s d (id_of s - 1) = true) ->
    0 <= j < key_size (contract_state s) -> received s (id_of s) d j.
Proof.
  intros Hd Hc Hp Hcomp d j Hx Hr Hj.
  assert (key_size (contract_state s) * len (expected_dealers s resharing (id_of s)) = full_dealings_in s (id_of s)) as Hn.
  { unfold check_state_completion in Hcomp. rewrite Hp in Hcomp. rewrite len_expected.
    pose proof (cnt_resharing s Hc) as Hrs. rewrite Hp in Hrs. simpl in Hrs.
    rewrite <- (cnt_dealings s Hc). destruct resharing; simpl in Hcomp; run_inv; apply u32_mul_Ok in E as [-> _];
      rewrite <- ?(cnt_registered s Hc), <- ?Hrs; by apply Z.eqb_eq. }
  destruct (full_count (fun k m => bool_decide (k.1.1 = id_of s) && DealingMetadata.is_complete m) (dealings_metadata s)
    (dealing_keys (id_of s) (expected_dealers s resharing (id_of s)) (key_size (contract_state s)))) with (k := (id_of s, d, j))
    as (m & Hm & [_ Hfull]%andb_true_iff).
  - intros [[e' d'] j'] m Hm [E%bool_decide_eq_true _]%andb_true_iff. simpl in E. subst e'.
    apply elem_of_dealing_keys. destruct (ok_metadata s Hd _ _ _ _ Hm) as (Hd' & Hj' & _). split; [|done].
    apply elem_of_expected. split; [done|]. intros ->. eapply (ok_reshared s Hd); [done|]. by rewrite Hp.
  - rewrite len_dealing_keys by lia. rewrite Hn. done.
  - apply elem_of_dealing_keys. split; [|done]. by apply elem_of_expected.
  - by eapply complete_received.
Qed.

Lemma all_shares_received s resharing :
  data_ok s -> counts_ok s -> phase s = EpochState.VerificationKeySubmission resharing ->
  check_state_completion s (current_epoch s) = Ok true ->
  forall d, is_dealer s d (id_of s) = true -> exists sh, vk_shares s !! (d, id_of s) = Some sh.
Proof.
  intros Hd Hc Hp Hcomp d Hx.
  unfold check_state_completion in Hcomp. rewrite Hp, (cnt_shares s Hc), (cnt_registered s Hc) in Hcomp.
  injection Hcomp as Hn%Z.eqb_eq.
  destruct (full_count (fun k _ => bool_decide (k.2 = id_of s)) (vk_shares s)
    ((fun a => (a, id_of s)) <$> expected_dealers s false (id_of s))) with (k := (d, id_of s)) as (sh & Hsh & _); [| | |by eauto].
  - intros [a e] sh Hsh E%bool_decide_eq_true. simpl in E. subst e. apply (list_elem_of_fmap_2 (fun a => (a, id_of s))), elem_of_expected.
    by destruct (ok_shares s Hd _ _ _ Hsh) as (_ & _ & ? & _).
  - rewrite len_fmap, len_expected. unfold shares_in in Hn. lia.
  - apply (list_elem_of_fmap_2 (fun a => (a, id_of s))). by apply elem_of_expected.
Qed.

Lemma all_shares_verified s :
  verified_shares_in s (id_of s) = shares_in s (id_of s) ->
  forall d sh, vk_shares s !! (d, id_of s) = Some sh -> verified sh = true.
Proof.
  intros Hn d sh Hsh.
  destruct (full_count (fun k sh => bool_decide (k.2 = id_of s) && verified sh) (vk_shares s)
    (counted (fun k _ => bool_decide (k.2 = id_of s)) (vk_shares s))) with (k := (d, id_of s)) as (sh' & Hsh' & [_ Hv]%andb_true_iff).
  - intros k v Hk [Hb _]%andb_true_iff. apply elem_of_counted. eauto.
  - rewrite len_counted. unfold verified_shares_in, shares_in in Hn. lia.
  - apply elem_of_counted. exists sh. split; [done|]. by apply bool_decide_eq_true.
  - congruence.
Qed.

(** ** The protocol *)

(** The counter of verified keys has reached the threshold. *)
Definition enough_keys (s : Storage) : bool :=
  match threshold s with Some t => t <=? StateProgress.verified_keys (progress_of s) | None => false end.

(** The epochs and phases of the key generation, as an abstract machine; [enough] says whether enough
    keys count as verified when the step is made. *)
Inductive protocol (enough : bool) : EpochId * EpochState.t -> EpochId * EpochState.t -> Prop :=
| protocol_stays x : protocol enough x x
| protocol_starts : protocol enough (0, EpochState.WaitingInitialisation) (0, EpochState.PublicKeySubmission false)
| protocol_advances n p q :
    EpochState.next p = Some q -> (q = EpochState.InProgress -> enough = true) -> protocol enough (n, p) (n, q)
| protocol_fails n r :
    enough = false -> protocol enough (n, EpochState.VerificationKeyFinalization r) (n + 1, EpochState.PublicKeySubmission false)
| protocol_repeats n r : protocol enough (n, EpochState.InProgress) (n + 1, EpochState.PublicKeySubmission r).

Lemma step_protocol s s' : data_ok s -> step s s' -> protocol (enough_keys s) (id_of s, phase s) (id_of s', phase s').
Proof.
  intros Hd Hst. destruct Hst as [e Hp (E1 & E2 & _)|e rs Hp (E1 & E2 & _)|e t Hp E1 E2 _ _ E3 E4| | | | |];
    simpl; try constructor.
  - rewrite E1, E2, Hp, (ok_waiting s Hd Hp). constructor.
  - rewrite E1, E2. destruct Hp as [->|(r & t & -> & -> & Et & Hv)]; constructor. unfold enough_keys. rewrite Et. by apply Z.leb_gt.
  - rewrite E1, E2. destruct (EpochState.next (phase s)) as [q|] eqn:En; simpl in *; [|destruct (phase s); try done; constructor].
    constructor; [done|]. intros ->. rewrite E1 in *. destruct E4 as (n & En' & Hn); [done|]. simpl in E3. unfold enough_keys.
    rewrite <- E3, En'. by apply Z.leb_le.
Qed.

(** Whatever is stored for an epoch other than the current one stays. *)
Lemma step_keeps_epochs s s' e :
  step s s' -> e <> id_of s ->
  (forall d, epoch_dealers s' !! (e, d) = epoch_dealers s !! (e, d)) /\
  (forall d j, dealings_metadata s' !! (e, d, j) = dealings_metadata s !! (e, d, j)) /\
  (forall d j c, read_dealing s' e d j c = read_dealing s e d j c) /\
  (forall a, vk_shares s' !! (a, e) = vk_shares s !! (a, e)).
Proof.
  intros Hst He. unfold read_dealing. destruct Hst; simpl; split_and!; intros; try done; apply lookup_insert_ne; congruence.
Qed.

Lemma step_keeps_indices s s' a n : step s s' -> dealers_indices s !! a = Some n -> dealers_indices s' !! a = Some n.
Proof.
  intros Hst Ha. destruct Hst; simpl; try done.
  destruct H6 as [(_ & -> & _)|(Hn & _ & _ & ->)]; [done|]. rewrite lookup_insert_ne; [done|congruence].
Qed.

Lemma running_until_replaced (group : GroupQuerier) s env i msg s' r :
  counts_ok s -> execute (Binary := Binary) contract_address s env i msg = Ok (s', r) ->
  phase s = EpochState.InProgress -> id_of s' <> id_of s -> dkg_admin s = Some (sender i).
Proof.
  intros Hc Hx Hp Hid. destruct msg; simpl in Hx.
  - unfold try_initiate_dkg, assert_admin in Hx. by dkg_inv.
  - unfold try_add_dealer in Hx. apply obind_Ok_inv in Hx as (u & Hx%check_epoch_state_Ok & _). congruence.
  - unfold try_submit_dealings_metadata, ensure_permission in Hx. apply obind_Ok_inv in Hx as (u & Hx & _).
    apply obind_Ok_inv in Hx as (u' & Hx%check_epoch_state_Ok & _). congruence.
  - unfold try_commit_dealings_chunk in Hx. apply obind_Ok_inv in Hx as (m & _ & Hx).
    destruct (_ !! _) as [sc|]; [|done]. destruct (submission_height _); [done|]. by dkg_inv.
  - unfold try_commit_verification_key_share in Hx. apply obind_Ok_inv in Hx as (u & Hx%check_epoch_state_Ok & _). congruence.
  - unfold try_verify_verification_key_share in Hx. apply obind_Ok_inv in Hx as (a & _ & Hx).
    apply obind_Ok_inv in Hx as (u & Hx%check_epoch_state_Ok & _). congruence.
  - unfold try_advance_epoch_state in Hx. apply obind_Ok_inv in Hx as (u & _ & Hx). rewrite Hp in Hx. simpl in Hx.
    pose proof (cnt_quorum s Hc Hp) as Hq. rewrite (cnt_threshold s Hc), Hp in Hx. simpl in Hx.
    destruct (Z.ltb_spec (StateProgress.verified_keys (progress_of s)) (threshold_of (StateProgress.registered_dealers (progress_of s))));
      [lia|]. unfold Epoch.update in Hx. by dkg_inv.
  - unfold try_trigger_reset, assert_admin in Hx. by dkg_inv.
  - unfold try_trigger_resharing, assert_admin in Hx. by dkg_inv.
Qed.

(** ** Guarantees *)

(** C14: the counters of an epoch are exact on every reachable storage: as many dealers are counted as
    registered, as many resharing dealers as were dealers of the previous epoch too, as many dealings
    as were received in full, as many verification keys as were submitted, and no verified key is
    missing from the count.  The threshold is two thirds of the dealers, rounded up, from the dealing
    exchange on, and an epoch runs only when the count of verified keys has reached it.  That count can
    exceed the verified keys, because a key can be verified twice; if none was, it is exact as well, and
    a running epoch has as many verified keys as the threshold asks for. *)
Theorem dkg_counters_are_exact s :
  reachable s ->
  StateProgress.registered_dealers (progress_of s) = dealers_in s (id_of s) /\
  (mode (phase s) = Some true ->
     StateProgress.registered_resharing_dealers (progress_of s) = resharing_dealers_in s (id_of s)) /\
  StateProgress.submitted_dealings (progress_of s) = full_dealings_in s (id_of s) /\
  StateProgress.submitted_key_shares (progress_of s) = shares_in s (id_of s) /\
  verified_shares_in s (id_of s) <= StateProgress.verified_keys (progress_of s) /\
  threshold s = phase_threshold (phase s) (dealers_in s (id_of s)) /\
  3 * (threshold_of (dealers_in s (id_of s)) - 1) < 2 * dealers_in s (id_of s) <= 3 * threshold_of (dealers_in s (id_of s)) /\
  (phase s = EpochState.InProgress -> threshold_of (dealers_in s (id_of s)) <= StateProgress.verified_keys (progress_of s)) /\
  (orderly s -> StateProgress.verified_keys (progress_of s) = verified_shares_in s (id_of s) /\
    (phase s = EpochState.InProgress -> threshold_of (dealers_in s (id_of s)) <= verified_shares_in s (id_of s))).
Proof.
  intros [Hd Hc]%reachable_ok. rewrite <- (cnt_registered s Hc). split_and!; try apply Hc; try done.
  - intros Hm. pose proof (cnt_resharing s Hc) as Hr. by rewrite Hm in Hr.
  - unfold threshold_of. pose proof (Z.div_mod (2 * StateProgress.registered_dealers (progress_of s) + 3 - 1) 3 ltac:(lia)).
    pose proof (Z.mod_pos_bound (2 * StateProgress.registered_dealers (progress_of s) + 3 - 1) 3 ltac:(lia)). lia.
  - unfold threshold_of. pose proof (Z.div_mod (2 * StateProgress.registered_dealers (progress_of s) + 3 - 1) 3 ltac:(lia)).
    pose proof (Z.mod_pos_bound (2 * StateProgress.registered_dealers (progress_of s) + 3 - 1) 3 ltac:(lia)). lia.
  - intros Ho%orderly_exact. split; [exact Ho|]. rewrite <- Ho. apply Hc.
Qed.

(** C18: before its deadline a phase ends only when everything it waits for has arrived: the exchange of
    dealings when every chunk of every dealing of every dealer (in a resharing, of every dealer that was
    one before) is stored with its announced length, the submission of keys when every dealer has
    submitted one, and their finalisation when as many keys count as verified as were submitted, which
    means that all of them are verified if none was verified twice.  Registration, validation and a
    running epoch last until their deadlines. *)
Theorem phases_end_early_only_when_complete s env deadline s' r :
  reachable s -> Epoch.deadline (current_epoch s) = Some deadline -> env_time env < deadline ->
  try_advance_epoch_state (Binary := Binary) s env = Ok (s', r) ->
  match phase s with
  | EpochState.DealingExchange resharing =>
      forall d j, is_dealer s d (id_of s) = true -> (resharing = true -> is_dealer s d (id_of s - 1) = true) ->
        0 <= j < key_size (contract_state s) -> received s (id_of s) d j
  | EpochState.VerificationKeySubmission _ =>
      forall d, is_dealer s d (id_of s) = true -> exists sh, vk_shares s !! (d, id_of s) = Some sh
  | EpochState.VerificationKeyFinalization _ =>
      StateProgress.verified_keys (progress_of s) = shares_in s (id_of s) /\
      (orderly s -> forall d sh, vk_shares s !! (d, id_of s) = Some sh -> verified sh = true)
  | _ => False
  end.
Proof.
  intros [Hd Hc]%reachable_ok Hdl Ht Ha.
  assert (phase s <> EpochState.WaitingInitialisation /\ check_state_completion s (current_epoch s) = Ok true) as [Hw Hcomp].
  { unfold try_advance_epoch_state in Ha. apply obind_Ok_inv in Ha as (u & Hg & _).
    split; [by eapply advance_allowed|]. unfold ensure_can_advance_state in Hg. rewrite Hdl in Hg.
    destruct (Z.ltb_spec (env_time env) deadline); [|lia]. destruct (bool_decide _); [done|].
    apply obind_Ok_inv in Hg as ([] & -> & Hg); [done|]. by run_inv. }
  destruct (phase s) eqn:Hp; [done|..]; try (unfold check_state_completion in Hcomp; rewrite Hp in Hcomp; done).
  - by apply all_dealings_received.
  - by eapply all_shares_received.
  - unfold check_state_completion in Hcomp. rewrite Hp, (cnt_shares s Hc) in Hcomp. injection Hcomp as Hn%Z.eqb_eq.
    split; [done|]. intros Ho%orderly_exact. by apply all_shares_verified; rewrite <- Ho.
Qed.

(** C25: every message moves the contract along the protocol: the phases follow each other in order within
    an epoch, the last one is entered only when at least as many keys count as verified as the threshold
    asks for, and the next epoch begins, with the next number, only after a running one or after a
    finalisation at whose end fewer keys count as verified.  A running epoch is replaced only by the
    administrator, and always has the count of verified keys that the threshold asks for. *)
Theorem epochs_follow_the_protocol s (group : GroupQuerier) env i msg s' r :
  reachable s -> typed_msg msg -> execute (Binary := Binary) contract_address s env i msg = Ok (s', r) ->
  protocol (enough_keys s) (id_of s, phase s) (id_of s', phase s') /\
  (phase s = EpochState.InProgress -> id_of s' <> id_of s -> dkg_admin s = Some (sender i)) /\
  (phase s' = EpochState.InProgress -> exists t, threshold s' = Some t /\ t <= StateProgress.verified_keys (progress_of s')).
Proof.
  intros Hr Ht Hx. pose proof (reachable_step _ _ _ _ _ _ _ Hr Ht Hx) as [_ Hc']%reachable_ok.
  apply reachable_ok in Hr as [Hd Hc]. split_and!.
  - apply step_protocol; [done|]. by eapply execute_is_step.
  - by eapply running_until_replaced.
  - intros Hp. rewrite (cnt_threshold _ Hc'), Hp. eexists. split; [done|]. by apply (cnt_quorum _ Hc').
Qed.

(** C26: a dealer keeps its index for ever and no two dealers have the same one, the indices start at one,
    and every registered dealer has one; what was received in an epoch that is over is never changed, nor
    is anything stored for an epoch that has not begun. *)
Theorem past_epochs_are_final s (group : GroupQuerier) env i msg s' r :
  reachable s -> typed_msg msg -> execute (Binary := Binary) contract_address s env i msg = Ok (s', r) ->
  (forall a n, dealers_indices s !! a = Some n -> 1 <= n /\ dealers_indices s' !! a = Some n) /\
  (forall a b n, dealers_indices s' !! a = Some n -> dealers_indices s' !! b = Some n -> a = b) /\
  (forall e d, is_dealer s' d e = true -> e <= id_of s' /\ is_Some (dealers_indices s' !! d)) /\
  (forall e, e <> id_of s ->
     (forall d, epoch_dealers s' !! (e, d) = epoch_dealers s !! (e, d)) /\
     (forall d j, dealings_metadata s' !! (e, d, j) = dealings_metadata s !! (e, d, j)) /\
     (forall d j c, read_dealing s' e d j c = read_dealing s e d j c) /\
     (forall a, vk_shares s' !! (a, e) = vk_shares s !! (a, e))).
Proof.
  intros Hr Ht Hx. pose proof (reachable_step _ _ _ _ _ _ _ Hr Ht Hx) as [Hd' _]%reachable_ok.
  apply reachable_ok in Hr as [Hd _]. apply execute_is_step in Hx; [|done]. split_and!.
  - intros a n Ha. split; [apply (ok_index s Hd) in Ha; lia|]. by eapply step_keeps_indices.
  - apply (ok_index_inj s' Hd').
  - intros e d [x Hdl]%is_dealer_true. apply (ok_dealers s' Hd') in Hdl as [? ?]. split; [lia|done].
  - intros e He. by apply step_keeps_epochs.
Qed.

(** C35: the query tells whether the epoch can advance: when it says so the message does not fail with an
    error, and the message goes through only when it says so. *)
Theorem advance_query_is_accurate s env q :
  reachable s -> query_can_advance_state s env = Ok q ->
  (can_advance q = true -> forall e, try_advance_epoch_state (Binary := Binary) s env <> Err e) /\
  (forall s' r, try_advance_epoch_state (Binary := Binary) s env = Ok (s', r) -> can_advance q = true).
Proof.
  intros [Hd Hc]%reachable_ok Hq. unfold query_can_advance_state in Hq. unfold try_advance_epoch_state, ensure_can_advance_state.
  destruct (bool_decide _) eqn:Hw; [by dkg_inv|]. apply bool_decide_eq_false in Hw.
  destruct (cnt_deadline s Hc Hw) as [dl Hdl]. rewrite Hdl in *. apply obind_Ok_inv in Hq as (b & Hb & Hq).
  rewrite Hb. injection Hq as <-. unfold can_advance. simpl. split.
  - intros Hadv. assert ((if b then Ok tt else if env_time env <? dl then
      let? remaining := or_panic (minus_seconds dl (timestamp_seconds (env_time env))) Overflow in
      Err (EarlyEpochStateAdvancement (timestamp_seconds remaining)) else Ok tt) = @Ok ContractError unit tt) as ->.
    { destruct b; [done|]. rewrite orb_false_r in Hadv. apply Z.leb_le in Hadv. by destruct (Z.ltb_spec (env_time env) dl); [lia|]. }
    intros e. cbn [obind]. pose proof (epoch_no_err (E := ContractError) (current_epoch s)) as Hne.
    destruct (phase s) eqn:Hp; [done|..]; cbn [EpochState.next from_option id EpochState.is_dealing_exchange EpochState.is_in_progress];
      rewrite ?(cnt_threshold s Hc), ?Hp; cbn [phase_threshold or_err obind];
      repeat match goal with
      | |- context [if ?b then _ else _] => destruct b
      | |- context [Epoch.update ?e ?p ?t] => destruct (Epoch.update e p t) eqn:?; cbn [obind]; try done
      | |- context [Epoch.next_reset ?e ?t] => destruct (Epoch.next_reset e t) eqn:?; cbn [obind]; try done
      end;
      match goal with
      | H : Epoch.update _ ?p ?t = Err ?x |- _ => by destruct (proj1 (Hne p t x))
      | H : Epoch.next_reset _ ?t = Err ?x |- _ => by destruct (proj2 (Hne EpochState.InProgress t x))
      end.
  - intros s' r Ha. apply obind_Ok_inv in Ha as (u & Hg & _). destruct b; [apply orb_true_r|]. rewrite orb_false_r. apply Z.leb_le.
    cbn [obind] in Hg. destruct (Z.ltb_spec (env_time env) dl); [by dkg_inv|done].
Qed.

End Reachable.

(** ** Samples *)

Module DkgSample.

(** Every address is valid and every member votes; nothing is read from serialised messages here. *)
Definition api : ChainApi := {|
  addr_validate := Some;
  bs58_encode := fun _ => EmptyString;
  bs58_decode := fun _ => None;
  datetime_from_unix := fun _ => None;
  datetime_add := fun _ _ => None
|}.

Definition clock : TimestampMath := {|
  plus_seconds := fun t n => if (0 <=? t + n * NANOS) && (t + n * NANOS <=? u64_max) then Some (t + n * NANOS) else None;
  minus_seconds := fun t n => if (0 <=? t - n * NANOS) && (t - n * NANOS <=? u64_max) then Some (t - n * NANOS) else None
|}.

Definition members : GroupQuerier := {|
  total_weight := fun _ => Ok 3;
  is_member := fun _ _ _ => Ok (Some 1);
  is_voting_member := fun _ _ _ => Ok (Some 1)
|}.

Definition opaque_json (T : Type) : Serde unit T := {| to_binary := fun _ => Some tt; from_binary := fun _ => None |}.

#[local] Existing Instances api nanosecond_clock clock members opaque_json.

(** Messages with their senders and the seconds at which they are sent. *)
Fixpoint run (s : Storage) (msgs : list (Addr * Z * ExecuteMsg)) : outcome ContractError Storage :=
  match msgs with
  | [] => Ok s
  | (from, secs, msg) :: msgs =>
      let? (s, _) := execute (Binary := unit) "dkg" s (mkEnv secs secs 0) (mkInfo from []) msg in run s msgs
  end.

Lemma run_reachable s msgs s' :
  Forall (fun m => typed_msg m.2) msgs -> run s msgs = Ok s' ->
  reachable (Binary := unit) "dkg" s -> reachable (Binary := unit) "dkg" s'.
Proof.
  intros Ht. revert s. induction Ht as [|[[from secs] msg] msgs Hm _ IH]; intros s Hr Hs; simpl in Hr; [by injection Hr as <-|].
  apply obind_Ok_inv in Hr as ([s1 r] & Hx & Hr). eapply IH; [done|]. by eapply reachable_step.
Qed.

(** No key is verified twice along the run. *)
Fixpoint run_once (s : Storage) (msgs : list (Addr * Z * ExecuteMsg)) : bool :=
  match msgs with
  | [] => true
  | (from, secs, msg) :: msgs =>
      match msg with
      | VerifyVerificationKeyShare owner _ => match vk_shares s !! (owner, id_of s) with Some sh => negb (verified sh) | None => true end
      | _ => true
      end &&
      match execute (Binary := unit) "dkg" s (mkEnv secs secs 0) (mkInfo from []) msg with Ok (s, _) => run_once s msgs | _ => true end
  end.

Lemma run_orderly s msgs s' :
  Forall (fun m => typed_msg m.2) msgs -> run_once s msgs = true -> run s msgs = Ok s' ->
  orderly (Binary := unit) "dkg" s -> orderly (Binary := unit) "dkg" s'.
Proof.
  intros Ht. revert s. induction Ht as [|[[from secs] msg] msgs Hm _ IH]; intros s Ho Hr Hs; simpl in Hr; [by injection Hr as <-|].
  apply obind_Ok_inv in Hr as ([s1 r] & Hx & Hr). cbn [run_once] in Ho. apply andb_true_iff in Ho as [Hv Ho]. rewrite Hx in Ho.
  eapply IH; [done|done|]. eapply orderly_step; [done|done| |exact Hx]. destruct msg; try done.
  intros a sh [= <-] Hsh. rewrite Hsh in Hv. by apply negb_true_iff.
Qed.

Definition created : outcome ContractError Storage :=
  instantiate (mkEnv 0 0 0) (mkInfo "admin" []) (mkInstantiate "group" "multisig" None "unym" 2).

Definition start_msgs : list (Addr * Z * ExecuteMsg) :=
  [("admin", 0, InitiateDkg);
   ("alice", 1, RegisterDealer "key1" "id1" "addr1" false); ("bob", 2, RegisterDealer "key2" "id2" "addr2" false);
   ("carol", 600, AdvanceEpochState)].

Definition start : outcome ContractError Storage := let? s := created in run s start_msgs.

(** Alice and Bob announce and send their two dealings, of three bytes in two chunks and of one chunk. *)
Definition exchange_msgs : list (Addr * Z * ExecuteMsg) :=
  [("alice", 601, CommitDealingsMetadata 0 [DealingChunkInfo.mk 2; DealingChunkInfo.mk 1] false);
   ("alice", 602, CommitDealingsMetadata 1 [DealingChunkInfo.mk 1] false);
   ("bob", 603, CommitDealingsMetadata 0 [DealingChunkInfo.mk 2; DealingChunkInfo.mk 1] false);
   ("bob", 604, CommitDealingsMetadata 1 [DealingChunkInfo.mk 1] false);
   ("alice", 605, CommitDealingsChunk (mkChunk 0 1 [x01])); ("alice", 606, CommitDealingsChunk (mkChunk 0 0 [x02; x03]));
   ("alice", 607, CommitDealingsChunk (mkChunk 1 0 [x04])); ("bob", 608, CommitDealingsChunk (mkChunk 1 0 [x05]));
   ("bob", 609, CommitDealingsChunk (mkChunk 0 0 [x06; x07])); ("bob", 610, CommitDealingsChunk (mkChunk 0 1 [x08]))].

Definition exchanged : outcome ContractError Storage := let? s := start in run s exchange_msgs.

Definition storage_of (o : outcome ContractError Storage) : Storage :=
  match o with
  | Ok s => s
  | _ => mkStorage None None (mkState EmptyString EmptyString EmptyString 0)
           (Epoch.mk EpochState.WaitingInitialisation 0 StateProgress.zero TimeConfiguration.default_times None)
           None None ∅ ∅ ∅ ∅ ∅
  end.

Ltac sampled := repeat constructor; simpl; unfold is_u64, u64_max, u32_max; simpl; lia.
Ltac evaluated t := vm_cast_no_check (eq_refl t).

Definition is_ok {E A} (o : outcome E A) : bool := match o with Ok _ => true | _ => false end.

Lemma is_ok_Ok {E A} (o : outcome E A) : is_ok o = true -> exists a, o = Ok a.
Proof. destruct o; [eauto|done..]. Qed.

Lemma storage_of_Ok o : is_ok o = true -> o = Ok (storage_of o).
Proof. by destruct o. Qed.

(** The storages of a run that continues another one. *)
Lemma run_continues o msgs :
  is_ok (let? s := o in run s msgs) = true -> run (storage_of o) msgs = Ok (storage_of (let? s := o in run s msgs)).
Proof. destruct o as [s| |]; [|done..]. apply storage_of_Ok. Qed.

Lemma start_reachable : reachable (Binary := unit) "dkg" (storage_of start).
Proof.
  apply (run_reachable (storage_of created) start_msgs); [sampled|apply run_continues; evaluated true|].
  apply (reachable_init _ (mkEnv 0 0 0) (mkInfo "admin" []) (mkInstantiate "group" "multisig" None "unym" 2)).
  apply storage_of_Ok. evaluated true.
Qed.

Lemma exchanged_reachable : reachable (Binary := unit) "dkg" (storage_of exchanged).
Proof.
  apply (run_reachable (storage_of start) exchange_msgs); [sampled|apply run_continues; evaluated true|apply start_reachable].
Qed.

(** Both submit their keys, and the multisig verifies them. *)
Definition key_msgs : list (Addr * Z * ExecuteMsg) :=
  [("carol", 611, AdvanceEpochState); ("alice", 612, CommitVerificationKeyShare "vk1" false);
   ("bob", 613, CommitVerificationKeyShare "vk2" false); ("carol", 614, AdvanceEpochState); ("carol", 674, AdvanceEpochState)].
Definition verify_msgs : list (Addr * Z * ExecuteMsg) :=
  [("multisig", 675, VerifyVerificationKeyShare "alice" false); ("multisig", 676, VerifyVerificationKeyShare "bob" false);
   ("carol", 677, AdvanceEpochState)].

Definition generation_msgs : list (Addr * Z * ExecuteMsg) := start_msgs ++ exchange_msgs ++ key_msgs ++ verify_msgs.
Definition generated : outcome ContractError Storage := let? s := created in run s generation_msgs.

Lemma generated_orderly : orderly (Binary := unit) "dkg" (storage_of generated).
Proof.
  apply (run_orderly (storage_of created) generation_msgs); [sampled|evaluated true|apply run_continues; evaluated true|].
  apply (orderly_init _ (mkEnv 0 0 0) (mkInfo "admin" []) (mkInstantiate "group" "multisig" None "unym" 2)).
  apply storage_of_Ok. evaluated true.
Qed.

(** The number of the epoch and its phase. *)
Definition epoch_and_phase (o : outcome ContractError (Storage * list (CosmosMsg unit))) : option (EpochId * EpochState.t) :=
  match o with Ok (s, _) => Some (id_of s, phase s) | _ => None end.

Definition eleven : Env := mkEnv 611 611 0.

(** The four dealings of the sample are counted and two keys will be needed; they are verified when the
    epoch runs. *)
Lemma dkg_counters_are_exact_witness :
  full_dealings_in (storage_of exchanged) 0 = 4 /\ dealers_in (storage_of exchanged) 0 = 2 /\
  threshold (storage_of exchanged) = Some 2 /\
  phase (storage_of generated) = EpochState.InProgress /\ verified_shares_in (storage_of generated) 0 = 2.
Proof.
  destruct (dkg_counters_are_exact "dkg" _ exchanged_reachable) as (Hr & _ & Hd & _ & _ & Ht & _).
  assert (id_of (storage_of exchanged) = 0) as E by evaluated 0. rewrite E in *.
  destruct (dkg_counters_are_exact "dkg" _ (orderly_reachable _ _ generated_orderly)) as (_ & _ & _ & _ & _ & _ & _ & _ & Hv).
  destruct (Hv generated_orderly) as [Hn _]. assert (id_of (storage_of generated) = 0) as E' by evaluated 0. rewrite E' in Hn.
  split_and!; [rewrite <- Hd; evaluated 4|rewrite <- Hr; evaluated 2|rewrite Ht, <- Hr; evaluated (Some 2)
    |evaluated EpochState.InProgress|rewrite <- Hn; evaluated 2].
Defined.

(** The exchange ends five minutes early, with both chunks of Bob's first dealing. *)
Lemma phases_end_early_only_when_complete_witness : received (storage_of exchanged) 0 "bob" 0.
Proof.
  destruct (is_ok_Ok (try_advance_epoch_state (Binary := unit) (storage_of exchanged) eleven)) as [[s' r] Hx]; [evaluated true|].
  pose proof (phases_end_early_only_when_complete "dkg" (storage_of exchanged) eleven (900 * NANOS) s' r
    exchanged_reachable ltac:(evaluated (Some (900 * NANOS))) ltac:(evaluated Lt) Hx) as Hall.
  assert (phase (storage_of exchanged) = EpochState.DealingExchange false) as Ep by evaluated (EpochState.DealingExchange false).
  assert (id_of (storage_of exchanged) = 0) as Ei by evaluated 0.
  assert (key_size (contract_state (storage_of exchanged)) = 2) as Ek by evaluated 2.
  rewrite Ep, Ei, Ek in Hall. apply Hall; [evaluated true|done|lia].
Defined.

(** The exchange goes on to the submission of keys. *)
Lemma epochs_follow_the_protocol_witness :
  exists s', epoch_and_phase (execute (Binary := unit) "dkg" (storage_of exchanged) eleven (mkInfo "carol" []) AdvanceEpochState)
      = Some (id_of s', phase s') /\
    protocol (enough_keys (storage_of exchanged)) (0, EpochState.DealingExchange false) (id_of s', phase s').
Proof.
  destruct (is_ok_Ok (execute (Binary := unit) "dkg" (storage_of exchanged) eleven (mkInfo "carol" []) AdvanceEpochState))
    as [[s' r] Hx]; [evaluated true|].
  destruct (epochs_follow_the_protocol "dkg" _ members _ _ AdvanceEpochState _ _ exchanged_reachable I Hx) as (Hp & _).
  assert (phase (storage_of exchanged) = EpochState.DealingExchange false) as Ep by evaluated (EpochState.DealingExchange false).
  assert (id_of (storage_of exchanged) = 0) as Ei by evaluated 0. rewrite Ep, Ei in Hp.
  exists s'. split; [rewrite Hx; reflexivity|exact Hp].
Defined.

(** Alice's index after a message of Carol. *)
Lemma past_epochs_are_final_witness :
  exists s' r, execute (Binary := unit) "dkg" (storage_of exchanged) eleven (mkInfo "carol" []) AdvanceEpochState = Ok (s', r)
    /\ dealers_indices s' !! "alice" = Some 1.
Proof.
  destruct (is_ok_Ok (execute (Binary := unit) "dkg" (storage_of exchanged) eleven (mkInfo "carol" []) AdvanceEpochState))
    as [[s' r] Hx]; [evaluated true|].
  destruct (past_epochs_are_final "dkg" _ members _ _ AdvanceEpochState _ _ exchanged_reachable I Hx) as (Hi & _).
  exists s', r. split; [exact Hx|]. apply Hi. evaluated (Some 1).
Defined.

(** The query before the early end. *)
Lemma advance_query_is_accurate_witness :
  exists q, query_can_advance_state (storage_of exchanged) eleven = Ok q /\ can_advance q = true /\
    forall e, try_advance_epoch_state (Binary := unit) (storage_of exchanged) eleven <> Err e.
Proof.
  destruct (is_ok_Ok (query_can_advance_state (storage_of exchanged) eleven)) as [q Hq]; [evaluated true|].
  assert (match query_can_advance_state (storage_of exchanged) eleven with Ok q => can_advance q | _ => false end = true) as Hc
    by evaluated true. rewrite Hq in Hc.
  exists q. split; [exact Hq|]. split; [exact Hc|].
  apply (advance_query_is_accurate "dkg" _ _ q exchanged_reachable Hq). exact Hc.
Defined.

(** A chunk is accepted and counted when the exchange is over and verification keys are being submitted:
    the message does not look at the phase. *)
Definition exchange_over : outcome ContractError Storage :=
  let? s := start in
  run s [("alice", 601, CommitDealingsMetadata 0 [DealingChunkInfo.mk 1] false); ("carol", 900, AdvanceEpochState)].

Lemma late_chunk_is_counted :
  let late := let? s := exchange_over in run s [("alice", 901, CommitDealingsChunk (mkChunk 0 0 [x01]))] in
  phase (storage_of exchange_over) = EpochState.VerificationKeySubmission false /\ is_ok late = true /\
  StateProgress.submitted_dealings (progress_of (storage_of exchange_over)) = 0 /\
  StateProgress.submitted_dealings (progress_of (storage_of late)) = 1.
Proof. split_and!; vm_compute; reflexivity. Qed.

(** A key that is verified twice is counted twice: the finalisation ends early although Bob's key was
    not verified, and the epoch runs with one verified key where the threshold is two. *)
Lemma key_counted_twice :
  let s := storage_of (let? s := exchanged in run s (key_msgs ++
    [("multisig", 675, VerifyVerificationKeyShare "alice" false); ("multisig", 676, VerifyVerificationKeyShare "alice" false);
     ("carol", 677, AdvanceEpochState)])) in
  phase s = EpochState.InProgress /\ threshold s = Some 2 /\ shares_in s (id_of s) = 2 /\ verified_shares_in s (id_of s) = 1.
Proof. split_and!; vm_compute; reflexivity. Qed.

(** An exchange without any dealer ends with a running epoch that has no keys: its threshold is zero. *)
Lemma epoch_without_dealers_runs :
  let s := storage_of (let? s := created in
    run s [("admin", 0, InitiateDkg); ("carol", 600, AdvanceEpochState); ("carol", 601, AdvanceEpochState);
           ("carol", 602, AdvanceEpochState); ("carol", 662, AdvanceEpochState); ("carol", 663, AdvanceEpochState)]) in
  phase s = EpochState.InProgress /\ threshold s = Some 0 /\ dealers_in s (id_of s) = 0 /\ shares_in s (id_of s) = 0.
Proof. split_and!; vm_compute; reflexivity. Qed.

End DkgSample.
