(* ===== verification/DkgDelivery.v ===== *)
(** * Dealings on their way between the signers

    The signers run an API that takes part in the key generation.  This file
    models how it publishes a dealing and fetches those of others,
    [nym-api/src/coconut/dkg/dealing.rs] and [key_derivation.rs], and shows
    that a dealing arrives unchanged however often its submission was
    interrupted and resumed, and whatever other senders do meanwhile. *)

From Stdlib Require Import String.
From S2P Require Import Prelude Bytes Cosmwasm VestingTypes Paging Accounting DkgContract DkgFacts.
From stdpp Require Import sorting.
From Stdlib.Strings Require Import Byte.
Import Dkg.
#[local] Open Scope Z_scope.

(** ** The API of a signer *)

(** The order in which a [HashMap] is iterated over. *)
Class HashOrder : Type := { hash_entries : forall {A}, gmap Z A -> list (Z * A) }.

Class HashOrderLaws `{HashOrder} : Prop := {
  hash_entries_perm {A} (m : gmap Z A) : Permutation (hash_entries m) (map_to_list m)
}.

Module DkgClient.

Inductive CoconutError : Type :=
| Contract (e : ContractError)
| MissingDealingChunk (epoch_id : EpochId) (dealer : string) (dealing_index : DealingIndex) (chunk_index : ChunkIndex).

(** [DealerRejectionReason], as far as it concerns the dealings on the chain. *)
Inductive DealerRejectionReason : Type :=
| InsufficientNumberOfDealingsProvided (got expected : Z)
| NoDealingsProvided.

Abbreviation result := (outcome CoconutError).

Definition DEALING_CHUNK_SIZE : Z := MAX_DEALING_CHUNK_SIZE.

Section Submission.
Context `{HashOrder}.

(** [submit_fresh_dealing]: the messages it sends, one after the other. *)
Definition submit_fresh_dealing (index : DealingIndex) (bytes : list byte) (resharing : bool) : outcome unit (list ExecuteMsg) :=
  let? chunk_info := DealingChunkInfo.construct (len bytes) DEALING_CHUNK_SIZE in
  let? chunks := chunk_dealing index bytes DEALING_CHUNK_SIZE in
  Ok (CommitDealingsMetadata index chunk_info resharing :: (CommitDealingsChunk <$> (snd <$> hash_entries chunks))).

(** The loop over [needs_resubmission]. *)
Definition resubmit_chunks (chunks : gmap ChunkIndex PartialContractDealing) (needs_resubmission : list ChunkIndex)
    : outcome unit (list ExecuteMsg) :=
  mapM_outcome (fun c => match chunks !! c with Some chunk => Ok (CommitDealingsChunk chunk) | None => Panic UnwrapNone end)
    needs_resubmission.

(** The body of the loop over the dealings of [resubmit_pregenerated_dealings]. *)
Definition resubmit_dealing (statuses : gmap DealingIndex DealingStatus) (index : DealingIndex) (bytes : list byte)
    (resharing : bool) : outcome unit (list ExecuteMsg) :=
  match statuses !! index with
  | None => Ok []
  | Some st =>
      if negb (has_metadata st) then submit_fresh_dealing index bytes resharing
      else if fully_submitted st then Ok []
      else
        let needs_resubmission := filter (fun kv => submission_height kv.2 = None) (chunk_submission_status st) in
        let? chunks := chunk_dealing index bytes DEALING_CHUNK_SIZE in
        resubmit_chunks chunks (fst <$> hash_entries needs_resubmission)
  end.

Fixpoint resubmit_all (statuses : gmap DealingIndex DealingStatus) (dealings : list (DealingIndex * list byte)) (resharing : bool)
    : outcome unit (list ExecuteMsg) :=
  match dealings with
  | [] => Ok []
  | (index, bytes) :: dealings =>
      let? msgs := resubmit_dealing statuses index bytes resharing in
      let? rest := resubmit_all statuses dealings resharing in
      Ok (msgs ++ rest)
  end.

(** [resubmit_pregenerated_dealings], given the response to [get_dealings_statuses]. *)
Definition resubmit_pregenerated_dealings (status : bool * gmap DealingIndex DealingStatus)
    (generated_dealings : gmap DealingIndex (list byte)) (resharing : bool) : outcome unit (list ExecuteMsg) :=
  if status.1 then Ok [] else resubmit_all status.2 (hash_entries generated_dealings) resharing.

End Submission.

Section Retrieval.
Context `{ChainApi}.

(** [DkgClient::get_dealing_chunk]. *)
Definition get_dealing_chunk (s : Storage) (epoch_id : EpochId) (dealer : string) (index : DealingIndex) (chunk : ChunkIndex)
    : result (list byte) :=
  let? c := map_err Contract (query_dealing_chunk s epoch_id dealer index chunk) in
  or_err c (MissingDealingChunk epoch_id dealer index chunk).

(** [DkgClient::dealer_in_epoch]. *)
Definition dealer_in_epoch (s : Storage) (epoch_id : EpochId) (dealer : string) : result bool :=
  let? d := map_err Contract (query_registered_dealer_details s dealer (Some epoch_id)) in
  Ok (bool_decide (is_Some d)).

(** The loop over the chunks of a dealing. *)
Fixpoint rebuild_dealing (s : Storage) (epoch_id : EpochId) (dealer : string) (index : DealingIndex) (chunks : list ChunkIndex)
    : result (list byte) :=
  match chunks with
  | [] => Ok []
  | c :: chunks =>
      let? chunk_data := get_dealing_chunk s epoch_id dealer index c in
      let? rest := rebuild_dealing s epoch_id dealer index chunks in
      Ok (chunk_data ++ rest)
  end.

Fixpoint rebuild_dealings (s : Storage) (epoch_id : EpochId) (dealer : string) (statuses : list (DealingIndex * DealingStatus))
    : result (gmap DealingIndex (list byte)) :=
  match statuses with
  | [] => Ok ∅
  | (index, info) :: statuses =>
      let? raw_dealing := rebuild_dealing s epoch_id dealer index (ascending (chunk_submission_status info)).*1 in
      let? raw_dealings := rebuild_dealings s epoch_id dealer statuses in
      Ok (<[index := raw_dealing]> raw_dealings)
  end.

(** [DealerDealingsStatusResponse::full_dealings]. *)
Definition full_dealings (statuses : gmap DealingIndex DealingStatus) : Z :=
  len (filter (fun kv => fully_submitted kv.2 = true) (map_to_list statuses)).

Definition get_raw_dealings (s : Storage) (epoch_id : EpochId) (dealer : Addr) (resharing : bool)
    : result (DealerRejectionReason + gmap DealingIndex (list byte)) :=
  let? (all_dealings_fully_submitted, statuses) := map_err Contract (query_dealer_dealings_status s epoch_id dealer) in
  let submitted := full_dealings statuses in
  if negb all_dealings_fully_submitted
  then
    if 0 <? submitted then Ok (inl (InsufficientNumberOfDealingsProvided submitted (Z.of_nat (size statuses))))
    else
      let? skipped :=
        if resharing
        then
          if epoch_id <? 1 then Panic ExplicitPanic
          else let? was_dealer := dealer_in_epoch s (epoch_id - 1) dealer in Ok (negb was_dealer)
        else Ok false in
      Ok (if skipped then inr ∅ else inl NoDealingsProvided)
  else
    let? raw_dealings := rebuild_dealings s epoch_id dealer (ascending statuses) in
    Ok (inr raw_dealings).

End Retrieval.

End DkgClient.

Import DkgClient.

(** ** The pieces of a dealing *)

Definition chunk_count (b : list byte) : Z := cdiv (len b) DEALING_CHUNK_SIZE.

Definition piece (b : list byte) (c : ChunkIndex) : list byte :=
  take (Z.to_nat DEALING_CHUNK_SIZE) (drop (Z.to_nat (c * DEALING_CHUNK_SIZE)) b).

(** A dealing the contract takes: not empty, and not too large. *)
Definition dealing_fits (b : list byte) : Prop := 0 < len b <= MAX_DEALING_SIZE.

Lemma chunk_count_bounds b : dealing_fits b -> 1 <= chunk_count b <= MAX_DEALING_CHUNKS.
Proof.
  unfold dealing_fits, chunk_count, DEALING_CHUNK_SIZE, MAX_DEALING_CHUNKS, MAX_DEALING_SIZE, MAX_DEALING_CHUNK_SIZE. intros Hb.
  pose proof (cdiv_bounds (len b) 2048 ltac:(lia)). change (102400 / 2048) with 50. lia.
Qed.

Lemma len_dealing_piece b c :
  0 <= c -> len (piece b c) = Z.max 0 (Z.min DEALING_CHUNK_SIZE (len b - c * DEALING_CHUNK_SIZE)).
Proof.
  intros Hc. unfold piece, DEALING_CHUNK_SIZE, MAX_DEALING_CHUNK_SIZE. rewrite len_take by lia. rewrite len_drop by lia. lia.
Qed.

Lemma len_piece_full b c : 0 <= c < chunk_count b - 1 -> len (piece b c) = DEALING_CHUNK_SIZE.
Proof.
  intros Hc. rewrite len_dealing_piece by lia. unfold chunk_count, DEALING_CHUNK_SIZE, MAX_DEALING_CHUNK_SIZE in *.
  pose proof (cdiv_bounds (len b) 2048 ltac:(lia)). lia.
Qed.

Lemma len_piece_pos b c : 0 <= c < chunk_count b -> 0 < len (piece b c).
Proof.
  intros Hc. rewrite len_dealing_piece by lia. unfold chunk_count, DEALING_CHUNK_SIZE, MAX_DEALING_CHUNK_SIZE in *.
  pose proof (cdiv_bounds (len b) 2048 ltac:(lia)). lia.
Qed.

(** The pieces in order are the dealing. *)
Lemma concat_pieces_from b n k :
  0 <= k -> Z.of_nat n = chunk_count b - k ->
  concat (piece b <$> zrange k (chunk_count b)) = drop (Z.to_nat (k * DEALING_CHUNK_SIZE)) b.
Proof.
  revert k. induction n as [|n IH]; intros k Hk Hn.
  - rewrite zrange_nil by lia. symmetry. apply drop_ge. unfold chunk_count, DEALING_CHUNK_SIZE, MAX_DEALING_CHUNK_SIZE, len in *.
    pose proof (cdiv_bounds (Z.of_nat (length b)) 2048 ltac:(lia)). lia.
  - rewrite zrange_cons by lia. rewrite fmap_cons. simpl. rewrite IH by lia. unfold piece.
    rewrite <- (take_drop (Z.to_nat DEALING_CHUNK_SIZE) (drop (Z.to_nat (k * DEALING_CHUNK_SIZE)) b)) at 2. f_equal.
    rewrite drop_drop. f_equal. unfold DEALING_CHUNK_SIZE, MAX_DEALING_CHUNK_SIZE. lia.
Qed.

Lemma concat_pieces b : dealing_fits b -> concat (piece b <$> zrange 0 (chunk_count b)) = b.
Proof.
  intros Hb%chunk_count_bounds. rewrite (concat_pieces_from b (Z.to_nat (chunk_count b)) 0) by lia. done.
Qed.

(** The sizes that are announced. *)
Definition infos (b : list byte) : list DealingChunkInfo.t :=
  (fun c => DealingChunkInfo.mk (len (piece b c))) <$> zrange 0 (chunk_count b).

Lemma zlookup_zrange_fmap {A} (f : Z -> A) n c : zlookup (f <$> zrange 0 n) c = if (0 <=? c) && (c <? n) then Some (f c) else None.
Proof.
  unfold zlookup, zrange. destruct (Z.leb_spec 0 c); [|done]. rewrite !list_lookup_fmap. destruct (Z.ltb_spec c n); simpl.
  - rewrite lookup_seq_lt by lia. simpl. do 2 f_equal. lia.
  - rewrite lookup_seq_ge by lia. done.
Qed.

Lemma zrange_const {A} (f : Z -> A) n x : (forall c, 0 <= c < n -> f c = x) -> f <$> zrange 0 n = replicate (Z.to_nat n) x.
Proof.
  intros Hf. symmetry. apply replicate_as_Forall. split.
  - rewrite length_fmap. pose proof (len_zrange 0 n). unfold len in *. lia.
  - apply Forall_fmap, Forall_forall. intros c Hc%elem_of_zrange. symmetry. by apply Hf.
Qed.

Lemma construct_infos b : dealing_fits b -> DealingChunkInfo.construct (len b) DEALING_CHUNK_SIZE = Ok (infos b).
Proof.
  intros Hb. unfold DealingChunkInfo.construct. change (DEALING_CHUNK_SIZE =? 0) with false. cbv iota. f_equal. unfold infos.
  pose proof (Z.div_mod (len b) DEALING_CHUNK_SIZE ltac:(done)) as Hd.
  pose proof (Z.mod_pos_bound (len b) DEALING_CHUNK_SIZE ltac:(done)) as Hm.
  set (q := len b / DEALING_CHUNK_SIZE) in *. set (r := len b mod DEALING_CHUNK_SIZE) in *.
  assert (0 <= q) as Hq by (apply Z.div_pos; [apply len_nonneg|done]).
  destruct (Z.eqb_spec r 0) as [E|E].
  - assert (chunk_count b = q) as -> by (apply cdiv_spec; [done|unfold DEALING_CHUNK_SIZE, MAX_DEALING_CHUNK_SIZE in *; lia]).
    rewrite app_nil_r. symmetry. apply zrange_const. intros c Hc. f_equal. rewrite len_dealing_piece by lia.
    unfold DEALING_CHUNK_SIZE, MAX_DEALING_CHUNK_SIZE in *. lia.
  - assert (chunk_count b = q + 1) as -> by (apply cdiv_spec; [done|unfold DEALING_CHUNK_SIZE, MAX_DEALING_CHUNK_SIZE in *; lia]).
    rewrite zrange_snoc, fmap_app by lia. f_equal.
    + symmetry. apply zrange_const. intros c Hc. f_equal. rewrite len_dealing_piece by lia.
      unfold DEALING_CHUNK_SIZE, MAX_DEALING_CHUNK_SIZE in *. lia.
    + simpl. rewrite len_dealing_piece by lia. repeat f_equal. unfold DEALING_CHUNK_SIZE, MAX_DEALING_CHUNK_SIZE in *. lia.
Qed.

Lemma zlookup_infos b c :
  zlookup (infos b) c = if (0 <=? c) && (c <? chunk_count b) then Some (DealingChunkInfo.mk (len (piece b c))) else None.
Proof. unfold infos. apply (zlookup_zrange_fmap (fun c => DealingChunkInfo.mk (len (piece b c)))). Qed.

Lemma len_infos b : dealing_fits b -> len (infos b) = chunk_count b.
Proof. intros Hb%chunk_count_bounds. unfold infos. rewrite len_fmap, len_zrange. lia. Qed.

(** The announced sizes are accepted by the contract. *)
Lemma even_split_total id dealer index size chunks :
  Forall (fun ic => DealingChunkInfo.size ic.2 = size) chunks -> ensure_even_split id dealer index size chunks = Ok tt.
Proof.
  induction 1 as [|[k c] chunks Hc _ IH]; [done|]. simpl in *. by rewrite Hc, Z.eqb_refl.
Qed.

Lemma infos_even b id dealer index first rest :
  dealing_fits b -> infos b = first :: rest ->
  existsb (fun c => DealingChunkInfo.size c =? 0) (infos b) = false /\ (MAX_DEALING_CHUNKS <? len (infos b)) = false /\
  ensure_even_split id dealer index (DealingChunkInfo.size first) (take (length (infos b) - 1) (enumerate (infos b))) = Ok tt.
Proof.
  intros Hb He. pose proof (chunk_count_bounds b Hb) as Hc. split_and!.
  - apply not_true_iff_false. intros (x & Hx & Hz)%existsb_exists. apply list_elem_of_In in Hx. unfold infos in Hx.
    apply list_elem_of_fmap in Hx as (c & -> & Hr%elem_of_zrange). simpl in Hz. pose proof (len_piece_pos b c Hr). lia.
  - rewrite len_infos by done. apply Z.ltb_ge. lia.
  - apply even_split_total. apply Forall_forall. intros [k x] (i & Hi)%list_elem_of_lookup.
    apply lookup_take_Some in Hi as [Hi Hlt]. unfold enumerate in Hi. apply lookup_zip_with_Some in Hi as (k' & x' & [= -> ->] & _ & Hx).
    assert (zlookup (infos b) 0 = Some first) as H0 by (unfold zlookup; simpl; by rewrite He).
    assert (zlookup (infos b) (Z.of_nat i) = Some x') as Hxi.
    { unfold zlookup. rewrite Nat2Z.id. by destruct (Z.leb_spec 0 (Z.of_nat i)); [|lia]. }
    pose proof (len_infos b Hb) as Hl. unfold len in Hl.
    rewrite zlookup_infos in H0, Hxi.
    destruct (Z.leb_spec 0 (Z.of_nat i)), (Z.ltb_spec (Z.of_nat i) (chunk_count b)); try done. injection Hxi as <-.
    destruct (Z.leb_spec 0 0), (Z.ltb_spec 0 (chunk_count b)); try done. injection H0 as <-. simpl.
    rewrite !len_piece_full by lia. done.
Qed.

Lemma lookup_chunk_dealing j b chunks c :
  dealing_fits b -> chunk_dealing j b DEALING_CHUNK_SIZE = Ok chunks ->
  chunks !! c = if (0 <=? c) && (c <? chunk_count b) then Some (mkChunk j c (piece b c)) else None.
Proof.
  intros Hb%chunk_count_bounds Hc. unfold chunk_dealing in Hc. change (DEALING_CHUNK_SIZE =? 0) with false in Hc.
  injection Hc as <-. rewrite (collect_lookup (fun c x => mkChunk j c x)).
  - unfold chunks_of. rewrite (zlookup_zrange_fmap (fun i => take (Z.to_nat DEALING_CHUNK_SIZE) (drop (Z.to_nat (i * DEALING_CHUNK_SIZE)) b))).
    fold (chunk_count b). by destruct (_ && _).
  - unfold chunks_of. rewrite len_fmap, len_zrange. fold (chunk_count b).
    unfold MAX_DEALING_CHUNKS, MAX_DEALING_SIZE, MAX_DEALING_CHUNK_SIZE in Hb. change (102400 / 2048) with 50 in Hb. lia.
Qed.

Lemma chunk_dealing_total j b : exists chunks, chunk_dealing j b DEALING_CHUNK_SIZE = Ok chunks.
Proof. unfold chunk_dealing. change (DEALING_CHUNK_SIZE =? 0) with false. eauto. Qed.

(** ** Messages of one sender *)

Section Delivery.
Context `{ChainApi} `{TimestampApi} `{TimestampMath}.
Context {Binary : Type} `{Serde Binary ExecuteMsg} `{Serde Binary (MultisigExecuteMsg Binary)}.
Context (contract_address : Addr).

(** The messages one after the other, at the times of their blocks. *)
Fixpoint send_all (group : GroupQuerier) (s : Storage) (me : Addr) (msgs : list (Env * ExecuteMsg)) : outcome ContractError Storage :=
  match msgs with
  | [] => Ok s
  | (env, msg) :: msgs =>
      let? (s, _) := execute (Binary := Binary) contract_address s env (mkInfo me []) msg in
      send_all group s me msgs
  end.

Lemma send_all_app group s me msgs1 msgs2 s1 s2 :
  send_all group s me msgs1 = Ok s1 -> send_all group s1 me msgs2 = Ok s2 -> send_all group s me (msgs1 ++ msgs2) = Ok s2.
Proof.
  revert s. induction msgs1 as [|[env msg] msgs1 IH]; intros s Hs1 Hs2; simpl in *; [by injection Hs1 as ->|].
  destruct (execute _ _ _ _ _) as [[s' r]| |]; [|done|done]. simpl in *. by apply IH.
Qed.

(** Any messages of anyone. *)
Inductive later (s : Storage) : Storage -> Prop :=
| later_refl : later s s
| later_step s1 (group : GroupQuerier) env i msg s2 r :
    later s s1 -> typed_msg msg -> execute (Binary := Binary) contract_address s1 env i msg = Ok (s2, r) -> later s s2.

Abbreviation reachable := (reachable (Binary := Binary) contract_address).

Lemma later_reachable s s' : later s s' -> reachable s -> reachable s'.
Proof.
  induction 1 as [|s1 group env i msg s2 r _ IH Ht Hx]; [done|]. intros Hr. eapply (reachable_step _ s1 group); [by apply IH|done|exact Hx].
Qed.

(** A chunk that was announced and is missing is taken. *)
Lemma commit_chunk_total (group : GroupQuerier) s env me c m sc :
  dealings_metadata s !! (id_of s, me, dealing_index c) = Some m ->
  DealingMetadata.submitted_chunks m !! chunk_index c = Some sc -> submitted sc = false ->
  DealingChunkInfo.size (info sc) = len (data c) ->
  let m' := receive_chunk m (chunk_index c) sc (block_height env) in
  (DealingMetadata.is_complete m' = true -> StateProgress.submitted_dealings (progress_of s) + 1 <= u32_max) ->
  execute (Binary := Binary) contract_address s env (mkInfo me []) (CommitDealingsChunk c) =
  Ok (with_progress (save_dealing (store_metadata s (id_of s) me (dealing_index c) m') (id_of s) me c)
        (add_dealing (progress_of s) m'), []).
Proof.
  intros Hm Hc Hs Hz m' Hu. simpl. unfold try_commit_dealings_chunk, must_read_metadata. simpl. rewrite Hm. simpl. rewrite Hc.
  assert (submission_height (status sc) = None) as ->.
  { unfold submitted in Hs. apply bool_decide_eq_false in Hs. by destruct (submission_height (status sc)); [destruct Hs; eauto|]. }
  rewrite Hz, Z.eqb_refl. simpl. change (DealingMetadata.mk _ _) with m'. unfold add_dealing, with_progress.
  destruct (DealingMetadata.is_complete m') eqn:E.
  - unfold u32_add. destruct (Z.leb_spec (StateProgress.submitted_dealings (progress_of s) + 1) u32_max) as [|Hgt]; [done|].
    specialize (Hu eq_refl). lia.
  - do 2 f_equal. by destruct s as [? ? ? [? ? []]].
Qed.

(** There is room for every dealing that may be submitted. *)
Definition dealings_fit (s : Storage) : Prop := key_size (contract_state s) * dealers_in s (id_of s) <= u32_max.

Lemma full_dealings_bound s : data_ok s -> 0 <= key_size (contract_state s) ->
  full_dealings_in s (id_of s) <= key_size (contract_state s) * dealers_in s (id_of s).
Proof.
  intros Hd Hk. pose proof (len_expected s false (id_of s)) as Hl. simpl in Hl. rewrite <- Hl, <- (len_dealing_keys (id_of s)) by done.
  unfold full_dealings_in. rewrite <- len_counted. unfold len. apply inj_le, submseteq_length, NoDup_submseteq; [apply NoDup_counted|].
  intros [[e d] j] (m & Hm & [E%bool_decide_eq_true _]%andb_true_iff)%elem_of_counted. simpl in E. subst e.
  destruct (ok_metadata s Hd _ _ _ _ Hm) as (Hd' & Hj & _). apply elem_of_dealing_keys. split; [|done]. by apply elem_of_expected.
Qed.

Section OneDealing.
Context (me : Addr) (e : EpochId) (j : DealingIndex) (b : list byte) (Hfits : dealing_fits b).

(** The chain has the announcement of the dealing, and of its pieces those that arrived. *)
Record tracked (s : Storage) (m : DealingMetadata.t) : Prop := {
  tr_metadata : dealings_metadata s !! (e, me, j) = Some m;
  tr_infos c : info <$> DealingMetadata.submitted_chunks m !! c = zlookup (infos b) c;
  tr_stored c x : stored_dealings s !! (e, me, j, c) = Some x -> x = piece b c
}.

(** The chunks that are missing. *)
Definition missing (m : DealingMetadata.t) (c : ChunkIndex) : Prop :=
  exists sc, DealingMetadata.submitted_chunks m !! c = Some sc /\ submitted sc = false.

(** Everything else stays as it is. *)
Record untouched (s s' : Storage) : Prop := {
  un_id : id_of s' = id_of s;
  un_phase : phase s' = phase s;
  un_state : contract_state s' = contract_state s;
  un_dealers : epoch_dealers s' = epoch_dealers s;
  un_metadata e' d j' : (e', d, j') <> (e, me, j) -> dealings_metadata s' !! (e', d, j') = dealings_metadata s !! (e', d, j');
  un_stored e' d j' c : (e', d, j') <> (e, me, j) -> stored_dealings s' !! (e', d, j', c) = stored_dealings s !! (e', d, j', c)
}.

Lemma untouched_refl s : untouched s s.
Proof. by split. Qed.

Lemma untouched_trans s1 s2 s3 : untouched s1 s2 -> untouched s2 s3 -> untouched s1 s3.
Proof.
  intros Ha Hb. split; [by rewrite (un_id _ _ Hb), (un_id _ _ Ha)|by rewrite (un_phase _ _ Hb), (un_phase _ _ Ha)
    |by rewrite (un_state _ _ Hb), (un_state _ _ Ha)|by rewrite (un_dealers _ _ Hb), (un_dealers _ _ Ha)|..]; intros.
  - by rewrite (un_metadata _ _ Hb), (un_metadata _ _ Ha).
  - by rewrite (un_stored _ _ Hb), (un_stored _ _ Ha).
Qed.

Lemma untouched_dealings_fit s s' : untouched s s' -> dealings_fit s -> dealings_fit s'.
Proof. intros Hu. unfold dealings_fit, dealers_in. by rewrite (un_state _ _ Hu), (un_id _ _ Hu), (un_dealers _ _ Hu). Qed.

Lemma tracked_chunk s m c sc :
  tracked s m -> DealingMetadata.submitted_chunks m !! c = Some sc ->
  0 <= c < chunk_count b /\ DealingChunkInfo.size (info sc) = len (piece b c).
Proof.
  intros Ht Hc. pose proof (tr_infos s m Ht c) as Hi. rewrite Hc, zlookup_infos in Hi. simpl in Hi.
  destruct (Z.leb_spec 0 c), (Z.ltb_spec c (chunk_count b)); try done. simpl in Hi. injection Hi as ->. done.
Qed.

Lemma send_chunk (group : GroupQuerier) s env m c :
  reachable s -> id_of s = e -> dealings_fit s -> tracked s m -> missing m c ->
  exists s' m', execute (Binary := Binary) contract_address s env (mkInfo me []) (CommitDealingsChunk (mkChunk j c (piece b c))) = Ok (s', []) /\
    tracked s' m' /\ untouched s s' /\ forall c', missing m' c' <-> missing m c' /\ c' <> c.
Proof.
  intros Hr He Hf Ht (sc & Hc & Hs). destruct (tracked_chunk s m c sc Ht Hc) as [Hrange Hz].
  pose proof (tr_metadata s m Ht) as Hm. rewrite <- He in Hm.
  apply reachable_ok in Hr as [Hd Hcnt].
  assert (data_ok (save_dealing (store_metadata s (id_of s) me j (receive_chunk m c sc (block_height env))) (id_of s) me (mkChunk j c (piece b c)))) as Hd'.
  { by apply (data_ok_receive s me (mkChunk j c (piece b c)) m sc). }
  set (m' := receive_chunk m c sc (block_height env)) in *.
  eexists _, m'. split; [apply (commit_chunk_total group s env me (mkChunk j c (piece b c)) m sc Hm Hc Hs Hz)|].
  { simpl. intros Hfull. destruct (ok_metadata s Hd _ _ _ _ Hm) as (_ & Hj & _).
    pose proof (full_dealings_bound _ Hd') as Hb. simpl in Hb. specialize (Hb ltac:(lia)).
    unfold full_dealings_in in Hb. simpl in Hb. rewrite (count_insert _ _ _ _ m) in Hb by done.
    rewrite (missing_incomplete m _ _ Hc Hs), andb_false_r in Hb. simpl in Hb. fold m' in Hfull. rewrite Hfull, bool_decide_eq_true_2 in Hb by done.
    simpl in Hb. rewrite (cnt_dealings s Hcnt). unfold full_dealings_in. unfold dealings_fit in Hf.
    change (dealers_in _ (id_of s)) with (dealers_in s (id_of s)) in Hb. lia. }
  split_and!.
  - split.
    + simpl. rewrite He. by rewrite lookup_insert_eq.
    + intros c'. unfold receive_chunk. simpl. destruct (decide (c = c')) as [<-|Hne];
        [rewrite lookup_insert_eq|rewrite lookup_insert_ne by done]; [|apply Ht].
      pose proof (tr_infos s m Ht c) as Hi. by rewrite Hc in Hi.
    + intros c' x. simpl. rewrite He. intros [[[= <-] <-]|[_ Hx]]%lookup_insert_Some; [done|]. by apply (tr_stored s m Ht) in Hx.
  - split; simpl; try done; intros; apply lookup_insert_ne; congruence.
  - intros c'. unfold missing, m', receive_chunk. simpl. destruct (decide (c = c')) as [<-|Hne].
    + rewrite lookup_insert_eq. split; [intros (? & [= <-] & ?); done|intros [_ ?]; done].
    + rewrite lookup_insert_ne by done. split; [intros (sc' & ? & ?); split; [eauto|congruence]|intros [(sc' & ? & ?) _]; eauto].
Qed.

Lemma send_chunks (group : GroupQuerier) cs envs s m :
  reachable s -> id_of s = e -> dealings_fit s -> tracked s m -> 0 <= j <= u32_max -> NoDup cs ->
  (forall c, missing m c <-> c ∈ cs) -> length envs = length cs ->
  exists s' m', send_all group s me (zip envs ((fun c => CommitDealingsChunk (mkChunk j c (piece b c))) <$> cs)) = Ok s' /\
    reachable s' /\ tracked s' m' /\ untouched s s' /\ forall c, ~ missing m' c.
Proof.
  revert envs s m. induction cs as [|c cs IH]; intros envs s m Hr He Hf Ht Hj Hnd Hmiss Hlen.
  - destruct envs; [|done]. exists s, m. split_and!; [done|done|done|apply untouched_refl|].
    intros c Hc%Hmiss. by apply not_elem_of_nil in Hc.
  - destruct envs as [|env envs]; [done|]. apply NoDup_cons in Hnd as [Hc Hnd].
    destruct (send_chunk group s env m c Hr He Hf Ht) as (s1 & m1 & Hx & Ht1 & Hu1 & Hm1); [apply Hmiss; by left|].
    assert (reachable s1) as Hr1.
    { eapply (reachable_step _ s group); [done| |exact Hx]. simpl.
      assert (missing m c) as (sc & Hsc & _) by (apply Hmiss; by left).
      destruct (tracked_chunk s m c sc Ht Hsc) as [? _]. pose proof (chunk_count_bounds b Hfits) as Hcb.
      unfold MAX_DEALING_CHUNKS, MAX_DEALING_SIZE, MAX_DEALING_CHUNK_SIZE in Hcb. change (102400 / 2048) with 50 in Hcb. lia. }
    destruct (IH envs s1 m1) as (s' & m' & Hs' & Hr' & Ht' & Hu' & Hm'); try done.
    + by rewrite (un_id _ _ Hu1).
    + by eapply untouched_dealings_fit.
    + intros c'. rewrite Hm1, Hmiss, elem_of_cons. split; [intros [[->|?] ?]; done|]. intros Hin. split; [by right|]. by intros ->.
    + simpl in Hlen. lia.
    + exists s', m'. rewrite fmap_cons. cbn [zip zip_with send_all]. rewrite Hx. cbn [obind]. split_and!; try done. by eapply untouched_trans.
Qed.

(** The announcement of a dealing that is not known yet. *)
Lemma send_announcement (group : GroupQuerier) s env resharing :
  reachable s -> id_of s = e -> phase s = EpochState.DealingExchange resharing ->
  is_dealer s me e = true -> (resharing = true -> is_dealer s me (e - 1) = true) ->
  0 <= j < key_size (contract_state s) -> j <= u32_max -> dealings_metadata s !! (e, me, j) = None ->
  exists s' m, execute (Binary := Binary) contract_address s env (mkInfo me []) (CommitDealingsMetadata j (infos b) resharing) = Ok (s', []) /\
    reachable s' /\ tracked s' m /\ untouched s s' /\ forall c, missing m c <-> 0 <= c < chunk_count b.
Proof.
  intros Hr He Hp Hd Hre Hj Hj' Hm. apply reachable_ok in Hr as Hok. destruct Hok as [Hdata _].
  assert (ensure_permission s me e resharing = Ok tt) as Hperm.
  { unfold ensure_permission, check_epoch_state, ensure_dealer. rewrite Hp, bool_decide_eq_false_2, Hd by tauto. simpl.
    destruct resharing; [|done]. pose proof (ok_mode s Hdata) as H1'. rewrite Hp, He in H1'. specialize (H1' eq_refl).
    unfold saturating_sub. rewrite Z.max_r by lia. by rewrite Hre. }
  destruct (infos b) as [|first rest] eqn:Hi.
  { pose proof (len_infos b Hfits) as Hl. pose proof (chunk_count_bounds b Hfits). rewrite Hi in Hl. unfold len in Hl. simpl in Hl. lia. }
  destruct (infos_even b e me j first rest Hfits Hi) as (Hz & Hmax & Heven). rewrite Hi in Hz, Hmax, Heven.
  assert (execute (Binary := Binary) contract_address s env (mkInfo me []) (CommitDealingsMetadata j (first :: rest) resharing)
    = Ok (store_metadata s e me j (DealingMetadata.new j (first :: rest)), [])) as Hx.
  { simpl. unfold try_submit_dealings_metadata. rewrite He. cbn [sender]. rewrite Hperm. cbn [obind].
    unfold metadata_exists. rewrite Hm, bool_decide_eq_false_2 by apply is_Some_None.
    destruct (Z.leb_spec (key_size (contract_state s)) j); [lia|]. rewrite Hz, Hmax, Heven. done. }
  eexists _, (DealingMetadata.new j (infos b)). rewrite Hx. split_and!; [done| | | |].
  - eapply (reachable_step _ s group); [done| |exact Hx]. simpl. split; [lia|]. rewrite <- Hi. apply Forall_fmap, Forall_forall.
    intros c _. simpl. unfold is_u64, u64_max, piece, DEALING_CHUNK_SIZE, MAX_DEALING_CHUNK_SIZE.
    rewrite len_take by lia. pose proof (len_nonneg (drop (Z.to_nat (c * 2048)) b)). lia.
  - rewrite Hi. assert (len (first :: rest) <= MAX_DEALING_CHUNKS) as Hl by (by apply Z.ltb_ge). split.
    + simpl. by rewrite lookup_insert_eq.
    + intros c. rewrite new_chunks, Hi by done. by destruct (zlookup (first :: rest) c).
    + intros c x Hx'. simpl in Hx'. pose proof (ok_chunks s Hdata e me j c) as Hck. unfold chunk_ok in Hck. rewrite Hx' in Hck.
      destruct Hck as (m & sc & Hm' & _). congruence.
  - split; simpl; try done; intros; apply lookup_insert_ne; congruence.
  - intros c. unfold missing. rewrite new_chunks by (rewrite Hi; by apply Z.ltb_ge). rewrite zlookup_infos.
    destruct (Z.leb_spec 0 c), (Z.ltb_spec c (chunk_count b)); simpl; split; try lia; try (intros (? & ? & ?); done).
    intros _. eexists. split; [done|]. apply bool_decide_eq_false, is_Some_None.
Qed.

Context `{!HashOrder} `{!HashOrderLaws}.

(** The dealing is on the chain in full. *)
Definition published (s : Storage) : Prop := exists m, tracked s m /\ forall c, ~ missing m c.

Lemma NoDup_hash_keys {A} (m : gmap Z A) : NoDup (hash_entries m).*1.
Proof. rewrite hash_entries_perm. apply NoDup_fst_map_to_list. Qed.

Lemma elem_of_hash_keys {A} (m : gmap Z A) c : c ∈ (hash_entries m).*1 <-> is_Some (m !! c).
Proof.
  rewrite hash_entries_perm, list_elem_of_fmap. split.
  - intros ([c' x] & -> & Hx%elem_of_map_to_list). eauto.
  - intros [x Hx]. exists (c, x). split; [done|]. by apply elem_of_map_to_list.
Qed.

(** The messages with all pieces. *)
Lemma chunk_messages chunks :
  chunk_dealing j b DEALING_CHUNK_SIZE = Ok chunks ->
  CommitDealingsChunk <$> (snd <$> hash_entries chunks) =
    (fun c => CommitDealingsChunk (mkChunk j c (piece b c))) <$> (hash_entries chunks).*1 /\
  forall c, c ∈ (hash_entries chunks).*1 <-> 0 <= c < chunk_count b.
Proof.
  intros Hc. split.
  - rewrite <- !list_fmap_compose. apply list_fmap_ext. intros n [c x] Hx. simpl.
    apply list_elem_of_lookup_2 in Hx. rewrite hash_entries_perm in Hx. apply elem_of_map_to_list in Hx.
    rewrite (lookup_chunk_dealing j b) in Hx by done. destruct (_ && _); [|done]. by injection Hx as <-.
  - intros c. rewrite elem_of_hash_keys, (lookup_chunk_dealing j b) by done.
    destruct (Z.leb_spec 0 c), (Z.ltb_spec c (chunk_count b)); simpl; split; try lia; try (by intros [? ?]); eauto.
Qed.

Lemma send_fresh (group : GroupQuerier) s envs resharing msgs :
  reachable s -> id_of s = e -> phase s = EpochState.DealingExchange resharing -> dealings_fit s ->
  is_dealer s me e = true -> (resharing = true -> is_dealer s me (e - 1) = true) ->
  0 <= j < key_size (contract_state s) -> j <= u32_max -> dealings_metadata s !! (e, me, j) = None ->
  submit_fresh_dealing j b resharing = Ok msgs -> length envs = length msgs ->
  exists s', send_all group s me (zip envs msgs) = Ok s' /\ reachable s' /\ published s' /\ untouched s s'.
Proof.
  intros Hr He Hp Hf Hd Hre Hj Hj' Hm Hmsgs Hlen. unfold submit_fresh_dealing in Hmsgs. rewrite construct_infos in Hmsgs by done.
  destruct (chunk_dealing_total j b) as [chunks Hc]. cbn [obind] in Hmsgs. rewrite Hc in Hmsgs. cbn [obind] in Hmsgs. injection Hmsgs as <-.
  destruct (chunk_messages chunks Hc) as [Ec Hin]. rewrite Ec in *. destruct envs as [|env envs]; [done|].
  destruct (send_announcement group s env resharing) as (s1 & m1 & Hx & Hr1 & Ht1 & Hu1 & Hm1); try done.
  destruct (send_chunks group (hash_entries chunks).*1 envs s1 m1) as (s' & m' & Hs' & Hr' & Ht' & Hu' & Hm'); try done.
  - by rewrite (un_id _ _ Hu1).
  - by eapply untouched_dealings_fit.
  - lia.
  - apply NoDup_hash_keys.
  - intros c. by rewrite Hm1, Hin.
  - simpl in Hlen. rewrite length_fmap in Hlen. lia.
  - exists s'. cbn [zip zip_with send_all]. rewrite Hx. cbn [obind]. split_and!; [done|done|by exists m'|by eapply untouched_trans].
Qed.

Lemma resubmitted_chunks chunks cs :
  chunk_dealing j b DEALING_CHUNK_SIZE = Ok chunks -> (forall c, c ∈ cs -> 0 <= c < chunk_count b) ->
  resubmit_chunks chunks cs = Ok ((fun c => CommitDealingsChunk (mkChunk j c (piece b c))) <$> cs).
Proof.
  intros Hc Hcs. unfold resubmit_chunks. apply (mapM_outcome_Ok _ (fun c => CommitDealingsChunk (mkChunk j c (piece b c)))).
  intros c Hin. rewrite (lookup_chunk_dealing j b) by done. apply Hcs in Hin.
  by destruct (Z.leb_spec 0 c), (Z.ltb_spec c (chunk_count b)); try lia.
Qed.

Lemma missing_status m c :
  missing m c <-> is_Some (filter (fun kv => submission_height kv.2 = None) (DealingMetadata.submission_statuses m) !! c).
Proof.
  unfold missing, DealingMetadata.submission_statuses. split.
  - intros (sc & Hsc & Hs). exists (status sc). apply map_lookup_filter_Some. rewrite lookup_fmap, Hsc. split; [done|]. simpl.
    apply bool_decide_eq_false in Hs. by destruct (submission_height (status sc)); [destruct Hs; eauto|].
  - intros [st [Hst Hn]%map_lookup_filter_Some]. rewrite lookup_fmap in Hst.
    destruct (DealingMetadata.submitted_chunks m !! c) as [sc|] eqn:Hsc; [|done]. simpl in Hst. injection Hst as <-.
    exists sc. split; [done|]. unfold submitted. simpl in Hn. rewrite Hn. by apply bool_decide_eq_false, is_Some_None.
Qed.

Lemma not_missing_complete m : (forall c, ~ missing m c) <-> DealingMetadata.is_complete m = true.
Proof.
  unfold DealingMetadata.is_complete. rewrite bool_decide_eq_true. unfold map_Forall, missing. split.
  - intros Hm c sc Hc. destruct (submitted sc) eqn:E; [done|]. destruct (Hm c). eauto.
  - intros Hm c (sc & Hc & Hs). rewrite (Hm _ _ Hc) in Hs. done.
Qed.

(** Whatever of the dealing is on the chain, the rest is sent. *)
Lemma send_rest (group : GroupQuerier) s envs resharing statuses msgs :
  reachable s -> id_of s = e -> phase s = EpochState.DealingExchange resharing -> dealings_fit s ->
  is_dealer s me e = true -> (resharing = true -> is_dealer s me (e - 1) = true) ->
  0 <= j < key_size (contract_state s) -> j <= u32_max ->
  (forall m, dealings_metadata s !! (e, me, j) = Some m -> tracked s m) ->
  statuses !! j = Some (dealing_status (dealings_metadata s !! (e, me, j))) ->
  resubmit_dealing statuses j b resharing = Ok msgs -> length envs = length msgs ->
  exists s', send_all group s me (zip envs msgs) = Ok s' /\ reachable s' /\ published s' /\ untouched s s'.
Proof.
  intros Hr He Hp Hf Hd Hre Hj Hj' Ht Hst Hmsgs Hlen. unfold resubmit_dealing in Hmsgs. rewrite Hst in Hmsgs.
  destruct (dealings_metadata s !! (e, me, j)) as [m|] eqn:Hm; cbn [dealing_status has_metadata fully_submitted
    chunk_submission_status from_option] in Hmsgs; [|by eapply send_fresh].
  specialize (Ht m eq_refl). rewrite bool_decide_eq_true_2 in Hmsgs by eauto. cbn [negb] in Hmsgs.
  destruct (DealingMetadata.is_complete m) eqn:Hcomp.
  - injection Hmsgs as <-. destruct envs; [|done]. exists s. split_and!; [done|done| |apply untouched_refl].
    exists m. split; [done|]. by apply not_missing_complete.
  - destruct (chunk_dealing_total j b) as [chunks Hc]. rewrite Hc in Hmsgs. cbn [obind] in Hmsgs.
    assert (forall c, missing m c <-> c ∈ (hash_entries (filter (fun kv => submission_height kv.2 = None)
      (DealingMetadata.submission_statuses m))).*1) as Hmiss by (intros c; by rewrite elem_of_hash_keys, missing_status).
    rewrite (resubmitted_chunks chunks) in Hmsgs; [|done|].
    + injection Hmsgs as <-. rewrite length_fmap in Hlen.
      destruct (send_chunks group _ envs s m Hr He Hf Ht ltac:(lia) (NoDup_hash_keys _) Hmiss Hlen) as (s' & m' & Hs' & Hr' & Ht' & Hu' & Hm').
      exists s'. split_and!; try done. by exists m'.
    + intros c (sc & Hsc & _)%Hmiss. by destruct (tracked_chunk s m c sc Ht Hsc).
Qed.
End OneDealing.

(** ** All dealings *)

Lemma tracked_untouched me e j b j' s s' m :
  untouched me e j s s' -> j <> j' -> tracked me e j' b s m -> tracked me e j' b s' m.
Proof.
  intros Hu Hj Ht. split.
  - rewrite (un_metadata _ _ _ _ _ Hu) by congruence. apply Ht.
  - apply Ht.
  - intros c x. rewrite (un_stored _ _ _ _ _ Hu) by congruence. apply Ht.
Qed.

Lemma published_untouched me e j b j' s s' :
  untouched me e j s s' -> j <> j' -> published me e j' b s -> published me e j' b s'.
Proof. intros Hu Hj (m & Ht & Hm). exists m. split; [by eapply tracked_untouched|done]. Qed.

Context `{!HashOrder} `{!HashOrderLaws}.

(** What a signer can rely on during the exchange of an epoch. *)
Record may_deal (me : Addr) (e : EpochId) (resharing : bool) (s : Storage) : Prop := {
  md_reachable : reachable s;
  md_id : id_of s = e;
  md_phase : phase s = EpochState.DealingExchange resharing;
  md_fit : dealings_fit s;
  md_dealer : is_dealer s me e = true;
  md_resharing : resharing = true -> is_dealer s me (e - 1) = true
}.

Lemma may_deal_untouched me e resharing j s s' :
  untouched me e j s s' -> reachable s' -> may_deal me e resharing s -> may_deal me e resharing s'.
Proof.
  intros Hu Hr [? Hi Hp Hf Hd Hrs]. split; [done|by rewrite (un_id _ _ _ _ _ Hu)|by rewrite (un_phase _ _ _ _ _ Hu)
    |by eapply untouched_dealings_fit| |]; unfold is_dealer in *; by rewrite (un_dealers _ _ _ _ _ Hu).
Qed.

Lemma send_remaining (group : GroupQuerier) me e resharing statuses ds : forall s envs msgs,
  may_deal me e resharing s -> key_size (contract_state s) <= u32_max -> NoDup ds.*1 ->
  (forall j b, (j, b) ∈ ds -> dealing_fits b /\ 0 <= j < key_size (contract_state s) /\
     (forall m, dealings_metadata s !! (e, me, j) = Some m -> tracked me e j b s m) /\
     statuses !! j = Some (dealing_status (dealings_metadata s !! (e, me, j)))) ->
  resubmit_all statuses ds resharing = Ok msgs -> length envs = length msgs ->
  exists s', send_all group s me (zip envs msgs) = Ok s' /\ reachable s' /\ contract_state s' = contract_state s /\
    (forall j b, (j, b) ∈ ds -> published me e j b s') /\
    (forall j b, j ∉ ds.*1 -> published me e j b s -> published me e j b s').
Proof.
  induction ds as [|[j b] ds IH]; intros s envs msgs Hmd Hk Hnd Hds Hmsgs Hlen; simpl in Hmsgs.
  - injection Hmsgs as <-. destruct envs; [|done]. exists s. split_and!; [done|apply Hmd|done| |done].
    intros j b Hin. by apply not_elem_of_nil in Hin.
  - apply obind_Ok_inv in Hmsgs as (m1 & Hm1 & Hmsgs). apply obind_Ok_inv in Hmsgs as (m2 & Hm2 & Hmsgs). injection Hmsgs as <-.
    rewrite fmap_cons, NoDup_cons in Hnd. destruct Hnd as [Hnin Hnd]. rewrite length_app in Hlen.
    destruct (Hds j b ltac:(by left)) as (Hb & Hj & Htr & Hst).
    destruct (send_rest me e j b Hb group s (take (length m1) envs) resharing statuses m1) as (s1 & Hs1 & Hr1 & Hp1 & Hu1);
      try apply Hmd; try done; [lia|rewrite length_take; lia|].
    destruct (IH s1 (drop (length m1) envs) m2) as (s' & Hs' & Hr' & Hc' & Hp' & Hk'); [by eapply may_deal_untouched| |done| |done| |].
    + by rewrite (un_state _ _ _ _ _ Hu1).
    + intros j' b' Hin. assert (j <> j') as Hne by (intros ->; apply Hnin; by apply (list_elem_of_fmap_2 fst) in Hin).
      destruct (Hds j' b' ltac:(by right)) as (Hb' & Hj' & Htr' & Hst'). rewrite (un_state _ _ _ _ _ Hu1).
      rewrite (un_metadata _ _ _ _ _ Hu1) by congruence. split_and!; try done; try lia.
      intros m Hm. eapply tracked_untouched; [done|done|]. by apply Htr'.
    + rewrite length_drop. lia.
    + exists s'. split_and!.
      * rewrite <- (take_drop (length m1) envs), zip_with_app by (rewrite length_take; lia). by eapply send_all_app.
      * done.
      * by rewrite Hc', (un_state _ _ _ _ _ Hu1).
      * intros j' b' [[= -> ->]|Hin]%elem_of_cons; [by apply Hk'|by apply Hp'].
      * intros j' b' [Hne Hnin']%not_elem_of_cons Hpub. apply Hk'; [done|]. by eapply published_untouched.
Qed.

(** ** Nothing is lost later *)

Lemma step_keeps_published me e j b s s' : step s s' -> published me e j b s -> published me e j b s'.
Proof.
  intros Hst (m & Ht & Hm). exists m. split; [|done]. pose proof (tr_metadata _ _ _ _ _ _ Ht) as Hmd.
  split; [|apply Ht|].
  - destruct Hst as [| | | |d j' chunks rs Hp Hj Hd Hr Hn Hk Ha|d c m' sc h Hm' Hc Hsub Hz m''| |]; simpl; try done;
      rewrite lookup_insert_ne; [done| |done|]; intros E; rewrite E in *; [congruence|].
    rewrite Hmd in Hm'. injection Hm' as <-. apply (Hm (chunk_index c)). by exists sc.
  - destruct Hst as [| | | |d j' chunks rs Hp Hj Hd Hr Hn Hk Ha|d c m' sc h Hm' Hc Hsub Hz m''| |]; simpl; try apply Ht.
    intros c' x. rewrite lookup_insert_ne; [apply Ht|]. intros [= E1 E2 E3 E4]. subst e d j.
    rewrite Hmd in Hm'. injection Hm' as <-. apply (Hm (chunk_index c)). by exists sc.
Qed.

Lemma step_keeps_state s s' : step s s' -> contract_state s' = contract_state s.
Proof. by destruct 1. Qed.

Lemma later_keeps_published me e j b s s' : later s s' -> published me e j b s -> published me e j b s'.
Proof.
  induction 1 as [|s1 group env i msg s2 r _ IH Ht Hx]; [done|]. intros Hp. apply execute_is_step in Hx; [|done].
  eapply step_keeps_published; eauto.
Qed.

Lemma later_keeps_state s s' : later s s' -> contract_state s' = contract_state s.
Proof.
  induction 1 as [|s1 group env i msg s2 r _ IH Ht Hx]; [done|]. apply execute_is_step in Hx; [|done].
  by rewrite (step_keeps_state _ _ Hx).
Qed.

(** ** Fetching the dealings *)

Lemma ascending_keys {V} (m : gmap Z V) n : (forall c, is_Some (m !! c) <-> 0 <= c < n) -> (ascending m).*1 = zrange 0 n.
Proof.
  intros Hm. apply (StronglySorted_unique Z.le).
  - pose proof (ascending_in_order m) as Ho. induction Ho as [|x l _ IH Hx]; [constructor|]. rewrite fmap_cons. constructor; [done|].
    apply Forall_fmap. eapply Forall_impl; [exact Hx|]. intros y [Hle _]. exact Hle.
  - unfold zrange. generalize (Z.to_nat (n - 0)). intros k. generalize 0%nat. induction k as [|k IH]; intros a; simpl; [constructor|].
    constructor; [apply IH|]. apply Forall_fmap, Forall_forall. intros x Hx%elem_of_seq. simpl. lia.
  - rewrite (fmap_Permutation fst _ _ (ascending_perm m)). apply NoDup_Permutation.
    + apply NoDup_fst_map_to_list.
    + unfold zrange. apply NoDup_fmap_2; [intros x y ?; lia|apply NoDup_seq].
    + intros c. rewrite elem_of_zrange, <- Hm, list_elem_of_fmap. split.
      * intros ([c' x] & -> & Hx%elem_of_map_to_list). eauto.
      * intros [x Hx]. exists (c, x). split; [done|]. by apply elem_of_map_to_list.
Qed.

Lemma statuses_lookup {A} (f : Z -> A) n c :
  foldl (fun (m : gmap Z A) i => <[i := f i]> m) ∅ (zrange 0 n) !! c = if (0 <=? c) && (c <? n) then Some (f c) else None.
Proof.
  destruct (Z.leb_spec n 0) as [Hn|Hn].
  { rewrite zrange_nil by done. simpl. destruct (Z.leb_spec 0 c), (Z.ltb_spec c n); simpl; try lia; done. }
  assert (exists k, n = Z.of_nat k) as [k ->] by (exists (Z.to_nat n); lia). clear Hn.
  induction k as [|k IH]; [by destruct (Z.leb_spec 0 c), (Z.ltb_spec c (Z.of_nat 0)); simpl; try lia|].
  replace (Z.of_nat (S k)) with (Z.of_nat k + 1) by lia. rewrite zrange_snoc, foldl_app by lia. simpl.
  destruct (decide (Z.of_nat k = c)) as [<-|Hne].
  - rewrite lookup_insert_eq. destruct (Z.leb_spec 0 (Z.of_nat k)), (Z.ltb_spec (Z.of_nat k) (Z.of_nat k + 1)); simpl; try lia. done.
  - rewrite lookup_insert_ne, IH by done.
    destruct (Z.leb_spec 0 c), (Z.ltb_spec c (Z.of_nat k)), (Z.ltb_spec c (Z.of_nat k + 1)); simpl; try lia; done.
Qed.

Section Fetching.
Context (me : Addr) (Hme : addr_validate me = Some me) (e : EpochId).

Lemma fetch_chunks s j b cs :
  (forall c, c ∈ cs -> read_dealing s e me j c = Some (piece b c)) -> rebuild_dealing s e me j cs = Ok (concat (piece b <$> cs)).
Proof.
  induction cs as [|c cs IH]; intros Hcs; [done|]. simpl. unfold get_dealing_chunk, query_dealing_chunk, validate_address.
  rewrite Hme. simpl. rewrite (Hcs c) by (by left). simpl. rewrite IH; [done|]. intros c' Hc'. apply Hcs. by right.
Qed.

Lemma fetch_dealing s j b m :
  reachable s -> dealing_fits b -> tracked me e j b s m -> (forall c, ~ missing m c) ->
  rebuild_dealing s e me j (ascending (DealingMetadata.submission_statuses m)).*1 = Ok b.
Proof.
  intros [Hd _]%reachable_ok Hb Ht Hm.
  rewrite (ascending_keys _ (chunk_count b)).
  - rewrite (fetch_chunks s j b), concat_pieces; [done|done|]. intros c Hc%elem_of_zrange.
    assert (exists sc, DealingMetadata.submitted_chunks m !! c = Some sc) as [sc Hsc].
    { pose proof (tr_infos _ _ _ _ _ _ Ht c) as Hi. rewrite zlookup_infos in Hi.
      destruct (Z.leb_spec 0 c), (Z.ltb_spec c (chunk_count b)); try lia. simpl in Hi.
      destruct (DealingMetadata.submitted_chunks m !! c); [eauto|done]. }
    pose proof (ok_chunks s Hd e me j c) as Hck. unfold chunk_ok in Hck. unfold read_dealing.
    destruct (stored_dealings s !! (e, me, j, c)) as [x|] eqn:Hx; [f_equal; by eapply (tr_stored _ _ _ _ _ _ Ht)|].
    destruct (Hm c). exists sc. split; [done|]. eapply Hck; [apply Ht|done].
  - intros c. unfold DealingMetadata.submission_statuses. rewrite lookup_fmap. pose proof (tr_infos _ _ _ _ _ _ Ht c) as Hi.
    rewrite zlookup_infos in Hi. destruct (DealingMetadata.submitted_chunks m !! c) as [sc|]; simpl in *;
      destruct (Z.leb_spec 0 c), (Z.ltb_spec c (chunk_count b)); simpl in *; try done; split; try lia; eauto; by intros [? ?].
Qed.

Lemma fetch_dealings s (L : gmap DealingIndex (list byte)) l :
  (forall j st, (j, st) ∈ l -> exists b, L !! j = Some b /\
     rebuild_dealing s e me j (ascending (chunk_submission_status st)).*1 = Ok b) ->
  exists M, rebuild_dealings s e me l = Ok M /\ forall j, M !! j = if decide (j ∈ l.*1) then L !! j else None.
Proof.
  induction l as [|[j st] l IH]; intros Hl; cbn [rebuild_dealings].
  - exists ∅. split; [done|]. intros j. rewrite decide_False; [done|]. apply not_elem_of_nil.
  - destruct (Hl j st ltac:(by left)) as (b & HL & ->). cbn [obind]. destruct IH as (M & -> & HM); [intros; apply Hl; by right|].
    cbn [obind]. eexists. split; [done|]. intros j'. destruct (decide (j = j')) as [<-|Hne].
    + rewrite lookup_insert_eq, decide_True by (by left). done.
    + rewrite lookup_insert_ne, HM by done. apply decide_ext. rewrite fmap_cons, elem_of_cons. simpl. split; [by right|].
      by intros [->|].
Qed.

Lemma fetch_all s (L : gmap DealingIndex (list byte)) resharing :
  reachable s -> (forall j, is_Some (L !! j) <-> 0 <= j < key_size (contract_state s)) ->
  (forall j b, L !! j = Some b -> dealing_fits b /\ published me e j b s) ->
  get_raw_dealings s e me resharing = Ok (inr L).
Proof.
  intros Hr Hdom HL. unfold get_raw_dealings, query_dealer_dealings_status, validate_address. rewrite Hme. simpl.
  set (f := fun index => dealing_status (dealings_metadata s !! (e, me, index))).
  set (statuses := foldl _ ∅ _).
  assert (forall c, statuses !! c = if (0 <=? c) && (c <? key_size (contract_state s)) then Some (f c) else None) as Hst
    by apply (statuses_lookup f).
  assert (forall c, is_Some (statuses !! c) <-> 0 <= c < key_size (contract_state s)) as Hsome.
  { intros c. rewrite Hst. destruct (Z.leb_spec 0 c), (Z.ltb_spec c (key_size (contract_state s))); simpl; split; try lia; eauto;
      by intros [? ?]. }
  rewrite bool_decide_eq_true_2.
  - simpl. destruct (fetch_dealings s L (ascending statuses)) as (M & HM & Hlook).
    + intros j st Hin. rewrite ascending_perm in Hin. apply elem_of_map_to_list in Hin.
      destruct (proj2 (Hdom j)) as [b Hb]; [apply Hsome; eauto|]. exists b. split; [done|].
      destruct (HL j b Hb) as (Hfit & m & Ht & Hm). rewrite Hst in Hin. destruct (_ && _); [|done]. injection Hin as <-.
      unfold f. rewrite (tr_metadata _ _ _ _ _ _ Ht). simpl. by apply fetch_dealing.
    + rewrite HM. simpl. do 2 f_equal. apply map_eq. intros j. rewrite Hlook. case_decide as Hin; [done|].
      destruct (L !! j) as [b|] eqn:Hb; [|done]. destruct Hin. rewrite (ascending_keys _ (key_size (contract_state s))) by done.
      apply elem_of_zrange, Hdom. eauto.
  - intros j st Hj. rewrite Hst in Hj. destruct (_ && _) eqn:Hrange; [|done]. injection Hj as <-.
    destruct (proj2 (Hdom j)) as [b Hb]; [apply andb_true_iff in Hrange; lia|].
    destruct (HL j b Hb) as (Hfit & m & Ht & Hm). unfold f. rewrite (tr_metadata _ _ _ _ _ _ Ht). simpl. by apply not_missing_complete.
Qed.

End Fetching.

(** ** Interrupted submissions *)

(** A message the signer sends for one of its dealings. *)
Definition own_message (L : gmap DealingIndex (list byte)) (resharing : bool) (msg : ExecuteMsg) : Prop :=
  exists j b msgs, L !! j = Some b /\ submit_fresh_dealing j b resharing = Ok msgs /\ msg ∈ msgs.

Definition dealing_message (msg : ExecuteMsg) : bool :=
  match msg with
  | CommitDealingsMetadata _ _ _ | CommitDealingsChunk _ => true
  | _ => false
  end.

(** Anyone sends anything, except that the dealings of the signer are sent by its API alone. *)
Inductive exchange (me : Addr) (L : gmap DealingIndex (list byte)) (resharing : bool) (s : Storage) : Storage -> Prop :=
| exchange_start : exchange me L resharing s s
| exchange_step s1 (group : GroupQuerier) env i msg s2 r :
    exchange me L resharing s s1 -> typed_msg msg ->
    (sender i = me -> dealing_message msg = true -> own_message L resharing msg) ->
    execute (Binary := Binary) contract_address s1 env i msg = Ok (s2, r) -> exchange me L resharing s s2.

Section Interrupted.
Context (me : Addr) (e : EpochId) (L : gmap DealingIndex (list byte)) (resharing : bool).
Context (HL : forall j b, L !! j = Some b -> dealing_fits b /\ 0 <= j <= u32_max).

(** What is on the chain of the signer's dealings is theirs. *)
Definition partial (s : Storage) : Prop :=
  forall j m, dealings_metadata s !! (e, me, j) = Some m -> exists b, L !! j = Some b /\ tracked me e j b s m.

Lemma own_message_cases msg :
  own_message L resharing msg ->
  exists j b, L !! j = Some b /\
    (msg = CommitDealingsMetadata j (infos b) resharing \/
     exists c, 0 <= c < chunk_count b /\ msg = CommitDealingsChunk (mkChunk j c (piece b c))).
Proof.
  intros (j & b & msgs & Hb & Hm & Hin). destruct (HL j b Hb) as [Hfit _]. exists j, b. split; [done|].
  unfold submit_fresh_dealing in Hm. rewrite construct_infos in Hm by done. destruct (chunk_dealing_total j b) as [chunks Hc].
  cbn [obind] in Hm. rewrite Hc in Hm. cbn [obind] in Hm. injection Hm as <-.
  destruct (chunk_messages j b Hfit chunks Hc) as [Ec Hcs]. rewrite Ec in Hin.
  apply elem_of_cons in Hin as [->|(c & -> & Hin)%list_elem_of_fmap]; [by left|]. right. exists c. by rewrite <- Hcs.
Qed.

(** Other messages do not touch the dealings of the signer. *)
Lemma others_leave_dealings (group : GroupQuerier) s env i msg s' r :
  execute (Binary := Binary) contract_address s env i msg = Ok (s', r) -> sender i <> me \/ dealing_message msg = false ->
  (forall j, dealings_metadata s' !! (e, me, j) = dealings_metadata s !! (e, me, j)) /\
  (forall j c, stored_dealings s' !! (e, me, j, c) = stored_dealings s !! (e, me, j, c)).
Proof.
  intros Hx Hne. destruct msg; simpl in Hx.
  - unfold try_initiate_dkg in Hx. by dkg_inv.
  - unfold try_add_dealer in Hx. apply obind_Ok_inv in Hx as (u & _ & Hx). apply obind_Ok_inv in Hx as (u' & _ & Hx).
    apply obind_Ok_inv in Hx as ([n s1] & (counter & indices & -> & _)%assigned_index_spec & Hx).
    unfold save_dealer_details_if_not_a_dealer in Hx. by dkg_inv.
  - apply metadata_effect in Hx as (_ & _ & _ & _ & _ & _ & ->). simpl. split; [|done]. intros j. apply lookup_insert_ne. destruct Hne; simpl in *; congruence.
  - apply chunk_effect in Hx as (m & sc & _ & _ & _ & _ & ->). simpl. split; intros; apply lookup_insert_ne; destruct Hne; simpl in *; congruence.
  - unfold try_commit_verification_key_share in Hx. apply obind_Ok_inv in Hx as (u & _ & Hx).
    apply obind_Ok_inv in Hx as (d & _ & Hx). destruct (vk_shares s !! _); [done|]. by dkg_inv.
  - unfold try_verify_verification_key_share in Hx. by dkg_inv.
  - unfold try_advance_epoch_state, reset_dkg_state in Hx. dkg_inv; by destruct (EpochState.is_dealing_exchange _).
  - unfold try_trigger_reset in Hx. by dkg_inv.
  - unfold try_trigger_resharing in Hx. by dkg_inv.
Qed.

Lemma partial_other (group : GroupQuerier) s env i msg s' r :
  execute (Binary := Binary) contract_address s env i msg = Ok (s', r) -> sender i <> me \/ dealing_message msg = false -> partial s -> partial s'.
Proof.
  intros Hx Hne Hp j m Hm. destruct (others_leave_dealings _ _ _ _ _ _ _ Hx Hne) as [Hmd Hsd]. rewrite Hmd in Hm.
  destruct (Hp j m Hm) as (b & Hb & Ht). exists b. split; [done|]. split; [by rewrite Hmd|apply Ht|].
  intros c x. rewrite Hsd. apply Ht.
Qed.

Lemma partial_mine (group : GroupQuerier) s env i msg s' r :
  data_ok s -> execute (Binary := Binary) contract_address s env i msg = Ok (s', r) -> sender i = me ->
  own_message L resharing msg -> partial s -> partial s'.
Proof.
  intros Hd Hx Hme (j & b & Hb & [->|(c & Hc & ->)])%own_message_cases Hp j' m'; simpl in Hx.
  - apply metadata_effect in Hx as (_ & _ & _ & Hn & _ & Ha & ->). simpl. rewrite Hme in *.
    intros [[[= E1 <-] <-]|[Hne Hm']]%lookup_insert_Some.
    + exists b. split; [done|]. destruct Ha as (_ & Hl & _). rewrite E1 in *. split; [simpl; by rewrite lookup_insert_eq| |].
      * intros c. rewrite new_chunks by done. by destruct (zlookup (infos b) c).
      * intros c x Hx. simpl in Hx. pose proof (ok_chunks s Hd e me j c) as Hck. unfold chunk_ok in Hck. rewrite Hx in Hck.
        destruct Hck as (m & sc & Hm & _). congruence.
    + destruct (Hp j' m' Hm') as (b' & Hb' & Ht). exists b'. split; [done|]. split; [simpl; by rewrite lookup_insert_ne|apply Ht|apply Ht].
  - apply chunk_effect in Hx as (m & sc & Hm & Hsc & Hs & Hz & ->). simpl in *. rewrite Hme in *.
    intros [[[= E1 <-] <-]|[Hne Hm']]%lookup_insert_Some.
    + rewrite E1 in *. destruct (Hp j m Hm) as (b' & Hb' & Ht). rewrite Hb in Hb'. injection Hb' as <-. exists b. split; [done|].
      split; [simpl; by rewrite lookup_insert_eq| |].
      * intros c'. simpl. destruct (decide (c = c')) as [<-|Hne]; [rewrite lookup_insert_eq|rewrite lookup_insert_ne by done; apply Ht].
        pose proof (tr_infos _ _ _ _ _ _ Ht c) as Hi. by rewrite Hsc in Hi.
      * intros c' x. simpl. intros [[[= <-] <-]|[_ Hx]]%lookup_insert_Some; [done|]. by apply (tr_stored _ _ _ _ _ _ Ht) in Hx.
    + destruct (Hp j' m' Hm') as (b' & Hb' & Ht). exists b'. split; [done|].
      split; [simpl; by rewrite lookup_insert_ne|apply Ht|]. intros c' x. simpl. rewrite lookup_insert_ne; [apply Ht|]. congruence.
Qed.

Lemma exchange_partial s0 s : reachable s0 -> partial s0 -> exchange me L resharing s0 s -> reachable s /\ partial s.
Proof.
  intros Hr Hp. induction 1 as [|s1 group env i msg s2 r _ [Hr1 Hp1] Ht Ho Hx]; [done|].
  split; [by eapply (reachable_step _ s1 group)|].
  destruct (decide (sender i = me)), (dealing_message msg) eqn:Em; [|eapply partial_other; eauto..].
  eapply partial_mine; [|by eauto..]. by destruct (reachable_ok _ _ Hr1).
Qed.

End Interrupted.

(** What is missing is computed from the answer of the chain without failing. *)
Lemma resubmit_dealing_total me e j b s statuses resharing :
  dealing_fits b -> (forall m, dealings_metadata s !! (e, me, j) = Some m -> tracked me e j b s m) ->
  statuses !! j = Some (dealing_status (dealings_metadata s !! (e, me, j))) ->
  exists msgs, resubmit_dealing statuses j b resharing = Ok msgs.
Proof.
  intros Hfit Ht Hst. destruct (chunk_dealing_total j b) as [chunks Hc]. unfold resubmit_dealing. rewrite Hst.
  destruct (dealings_metadata s !! (e, me, j)) as [m|] eqn:Hm; cbn [dealing_status has_metadata fully_submitted
    chunk_submission_status from_option].
  - rewrite bool_decide_eq_true_2 by eauto. cbn [negb]. destruct (DealingMetadata.is_complete m); [by eexists|].
    rewrite Hc. cbn [obind]. rewrite (resubmitted_chunks j b Hfit chunks); [by eexists|done|].
    intros c (sc & Hsc & _)%elem_of_hash_keys%missing_status. by destruct (tracked_chunk me e j b s m c sc (Ht m eq_refl) Hsc).
  - rewrite bool_decide_eq_false_2 by apply is_Some_None. cbn [negb]. unfold submit_fresh_dealing.
    rewrite construct_infos by done. cbn [obind]. rewrite Hc. cbn [obind]. by eexists.
Qed.

Lemma resubmit_all_total statuses ds resharing :
  (forall j b, (j, b) ∈ ds -> exists msgs, resubmit_dealing statuses j b resharing = Ok msgs) ->
  exists msgs, resubmit_all statuses ds resharing = Ok msgs.
Proof.
  induction ds as [|[j b] ds IH]; intros Hds; [by eexists|]. cbn [resubmit_all].
  destruct (Hds j b ltac:(by left)) as [m1 ->]. cbn [obind].
  destruct IH as [m2 ->]; [intros; apply Hds; by right|]. cbn [obind]. by eexists.
Qed.

Lemma elem_of_hash_entries {A} (m : gmap Z A) c x : (c, x) ∈ hash_entries m <-> m !! c = Some x.
Proof. rewrite hash_entries_perm. apply elem_of_map_to_list. Qed.

(** What is sent after the status query publishes every dealing. *)
Lemma resubmission_publishes (group : GroupQuerier) me e resharing (L : gmap DealingIndex (list byte)) s :
  may_deal me e resharing s -> addr_validate me = Some me -> partial me e L s ->
  (forall j, is_Some (L !! j) <-> 0 <= j < key_size (contract_state s)) -> key_size (contract_state s) <= u32_max ->
  (forall j b, L !! j = Some b -> dealing_fits b) ->
  exists status msgs, query_dealer_dealings_status s e me = Ok status /\
    resubmit_pregenerated_dealings status L resharing = Ok msgs /\
    forall envs, length envs = length msgs ->
      exists s1, send_all group s me (zip envs msgs) = Ok s1 /\ reachable s1 /\ contract_state s1 = contract_state s /\
        forall j b, L !! j = Some b -> published me e j b s1.
Proof.
  intros Hmd Hme Hp Hdom Hk Hfit. unfold query_dealer_dealings_status, validate_address. rewrite Hme. simpl.
  set (f := fun index => dealing_status (dealings_metadata s !! (e, me, index))). set (statuses := foldl _ ∅ _).
  assert (forall j b, L !! j = Some b -> (forall m, dealings_metadata s !! (e, me, j) = Some m -> tracked me e j b s m) /\
    0 <= j < key_size (contract_state s) /\ statuses !! j = Some (f j)) as HL.
  { intros j b Hb. split.
    - intros m Hm. destruct (Hp j m Hm) as (b' & Hb' & Ht). congruence.
    - assert (0 <= j < key_size (contract_state s)) as Hj by (apply Hdom; eauto). split; [done|].
      unfold statuses. rewrite (statuses_lookup f). by destruct (Z.leb_spec 0 j), (Z.ltb_spec j (key_size (contract_state s))); try lia. }
  unfold resubmit_pregenerated_dealings. destruct (bool_decide _) eqn:Hall.
  - eexists _, []. split; [done|]. split; [done|]. intros [|]; [|done]. intros _. exists s. split_and!; [done|apply Hmd|done|].
    apply bool_decide_eq_true in Hall. intros j b Hb. destruct (HL j b Hb) as (Ht & _ & Hst). specialize (Hall _ _ Hst).
    unfold f in Hall. destruct (dealings_metadata s !! (e, me, j)) as [m|] eqn:Hm; [|done]. exists m. split; [by apply Ht|].
    by apply not_missing_complete.
  - destruct (resubmit_all_total statuses (hash_entries L) resharing) as [msgs Hmsgs].
    { intros j b Hb%elem_of_hash_entries. destruct (HL j b Hb) as (Ht & _ & Hst).
      eapply (resubmit_dealing_total me e j b s); [by eapply Hfit|done|done]. }
    eexists _, msgs. split; [done|]. split; [done|]. intros envs Hlen.
    destruct (send_remaining group me e resharing statuses (hash_entries L) s envs msgs) as (s1 & Hs & Hr & Hc & Hpub & _);
      [done|done|apply NoDup_hash_keys| |done|done|].
    + intros j b Hb%elem_of_hash_entries. destruct (HL j b Hb) as (Ht & Hj & Hst). split_and!; try done; try lia. by eapply Hfit.
    + exists s1. split_and!; try done. intros j b Hb. by apply Hpub, elem_of_hash_entries.
Qed.

(** C7: the dealings of a signer reach all the others.  The signer may have been interrupted at any
    point of sending them, again and again, while others sent any messages: what its API resubmits
    during the exchange is computed from the state of the chain without failing, is accepted by the
    contract message by message, and from then on, whatever anyone sends and however many epochs pass,
    everybody who fetches the dealings of the epoch gets them byte for byte. *)
Theorem dealings_reach_every_signer (group : GroupQuerier) me e resharing (L : gmap DealingIndex (list byte)) s0 s :
  reachable s0 -> (forall j, dealings_metadata s0 !! (e, me, j) = None) -> exchange me L resharing s0 s ->
  may_deal me e resharing s -> addr_validate me = Some me ->
  (forall j, is_Some (L !! j) <-> 0 <= j < key_size (contract_state s)) -> key_size (contract_state s) <= u32_max ->
  (forall j b, L !! j = Some b -> dealing_fits b) ->
  exists status msgs, query_dealer_dealings_status s e me = Ok status /\
    resubmit_pregenerated_dealings status L resharing = Ok msgs /\
    forall envs, length envs = length msgs ->
      exists s1, send_all group s me (zip envs msgs) = Ok s1 /\
        forall s2, later s1 s2 -> get_raw_dealings s2 e me resharing = Ok (inr L).
Proof.
  intros Hr0 Hnone Hex Hmd Hme Hdom Hk Hfit.
  assert (forall j b, L !! j = Some b -> dealing_fits b /\ 0 <= j <= u32_max) as HL.
  { intros j b Hb. split; [by eapply Hfit|]. assert (0 <= j < key_size (contract_state s)) by (apply Hdom; eauto). lia. }
  destruct (exchange_partial me e L resharing HL s0 s Hr0) as [Hr Hp]; [|done|].
  { intros j m Hm. rewrite Hnone in Hm. done. }
  destruct (resubmission_publishes group me e resharing L s) as (status & msgs & Hst & Hms & Hsend); try done.
  exists status, msgs. split; [done|]. split; [done|]. intros envs Hlen.
  destruct (Hsend envs Hlen) as (s1 & Hs1 & Hr1 & Hc1 & Hpub). exists s1. split; [done|]. intros s2 Hl.
  apply fetch_all; [done|by eapply later_reachable| |].
  - intros j. rewrite (later_keeps_state _ _ Hl), Hc1. apply Hdom.
  - intros j b Hb. split; [by eapply Hfit|]. eapply later_keeps_published; [done|]. by apply Hpub.
Qed.

End Delivery.

(** ** A submission that was interrupted *)

Module DeliverySample.
Import DkgSample.
#[local] Existing Instances api nanosecond_clock clock members opaque_json.

Definition key_order : HashOrder := {| hash_entries := fun _ => map_to_list |}.

Lemma key_order_laws : @HashOrderLaws key_order.
Proof. split. reflexivity. Qed.

#[local] Existing Instances key_order key_order_laws.

Definition alices : gmap DealingIndex (list byte) := {[ 0 := [x02; x03]; 1 := [x04] ]}.

(** Alice announces the first dealing, and Bob his. *)
Definition interrupted_msgs : list (Addr * Z * ExecuteMsg) :=
  [("alice", 601, CommitDealingsMetadata 0 [DealingChunkInfo.mk 2] false);
   ("bob", 602, CommitDealingsMetadata 0 [DealingChunkInfo.mk 1] false);
   ("bob", 603, CommitDealingsChunk (mkChunk 0 0 [x09]))].

Definition interrupted : outcome ContractError Storage := let? s := start in run s interrupted_msgs.

Lemma run_exchange me L resharing s0 s msgs s' :
  Forall (fun m => typed_msg m.2 /\ (m.1.1 = me -> dealing_message m.2 = true -> own_message L resharing m.2)) msgs ->
  run s msgs = Ok s' -> exchange (Binary := unit) "dkg" me L resharing s0 s -> exchange (Binary := unit) "dkg" me L resharing s0 s'.
Proof.
  intros Ht. revert s. induction Ht as [|[[from secs] msg] msgs [Hm Ho] _ IH]; intros s Hr Hs; simpl in Hr; [by injection Hr as <-|].
  apply obind_Ok_inv in Hr as ([s1 r] & Hx & Hr). eapply IH; [done|]. eapply exchange_step; [done|done| |exact Hx]. exact Ho.
Qed.

Lemma interrupted_exchange : exchange (Binary := unit) "dkg" "alice" alices false (storage_of start) (storage_of interrupted).
Proof.
  apply (run_exchange _ _ _ _ (storage_of start) interrupted_msgs);
    [|apply run_continues; evaluated true|constructor].
  repeat apply Forall_cons_2; [| | |apply Forall_nil_2]; (split; [sampled|intros [=]]).
  intros _. exists 0, [x02; x03], [CommitDealingsMetadata 0 [DealingChunkInfo.mk 2] false; CommitDealingsChunk (mkChunk 0 0 [x02; x03])].
  split; [reflexivity|]. split; [vm_compute; reflexivity|by left].
Qed.

Lemma alices_dealings j : is_Some (alices !! j) <-> 0 <= j < 2.
Proof.
  unfold alices. destruct (decide (j = 0)) as [->|H0]; [by rewrite lookup_insert_eq; split; [lia|eauto]|].
  destruct (decide (j = 1)) as [->|H1]; [by rewrite lookup_insert_ne, lookup_singleton_eq by done; split; [lia|eauto]|].
  rewrite lookup_insert_ne, lookup_singleton_ne by done. split; [by intros [? ?]|lia].
Qed.

Lemma interrupted_may_deal : may_deal (Binary := unit) "dkg" "alice" 0 false (storage_of interrupted).
Proof.
  split; [|evaluated 0|evaluated (EpochState.DealingExchange false)| | |done].
  - apply (run_reachable (storage_of start) interrupted_msgs);
      [sampled|apply run_continues; evaluated true|apply start_reachable].
  - unfold dealings_fit. apply Z.leb_le. evaluated true.
  - evaluated true.
Qed.

Lemma dealings_reach_every_signer_witness :
  exists status msgs, query_dealer_dealings_status (storage_of interrupted) 0 "alice" = Ok status /\
    resubmit_pregenerated_dealings status alices false = Ok msgs /\
    forall envs, length envs = length msgs ->
      exists s1, send_all (Binary := unit) "dkg" members (storage_of interrupted) "alice" (zip envs msgs) = Ok s1 /\
        forall s2, later (Binary := unit) "dkg" s1 s2 -> get_raw_dealings s2 0 "alice" false = Ok (inr alices).
Proof.
  apply (dealings_reach_every_signer (Binary := unit) "dkg" members "alice" 0 false alices (storage_of start)).
  - apply start_reachable.
  - intros j. assert (dealings_metadata (storage_of start) = ∅) as -> by evaluated (∅ : gmap (EpochId * Addr * DealingIndex) DealingMetadata.t).
    apply lookup_empty.
  - apply interrupted_exchange.
  - apply interrupted_may_deal.
  - reflexivity.
  - assert (key_size (contract_state (storage_of interrupted)) = 2) as -> by evaluated 2. apply alices_dealings.
  - apply Z.leb_le. evaluated true.
  - intros j b Hb. assert (0 <= j < 2) as Hj by (apply alices_dealings; eauto).
    assert (j = 0 \/ j = 1) as [->| ->] by lia; vm_compute in Hb; injection Hb as <-; vm_compute; split; congruence.
Defined.

End DeliverySample.
